(* ===== verification/_CoqProject ===== *)
-Q . S2P
Prelude.v
Xdr.v
Rpc.v
Types.v
StateModel.v
Constants.v
Operations.v
Codec.v
CodecProps.v
DelegTable.v
Clients.v
Stateids.v
Opens.v
Locks.v
Delegations.v
Sequence.v
Filehandles.v
Invalidate.v
FsApi.v
Metadata.v
AttrCodec.v
StateMachine.v
Sessions.v
Locking.v
Server.v
Pool.v
ServerFs.v
OpsDelegation.v
OpsFile.v
OpsAttrs.v
OpsDirectory.v
OpsLocking.v
Requests.v
Compound.v
Records.v
Backchannel.v
Transport.v
Replies.v
Tasks.v
MintRace.v
MemFs.v
MemFsBackend.v
Interleaving.v
OpNames.v
Authorise.v
Recalls.v
Replay.v
RequestExamples.v
RecallExamples.v
DirTree.v
MemFsSpec.v
MemFsRefine.v
MemFsContents.v
MemFsProps.v
Paths.v
Text.v
Config.v
Os.v
LocalFs.v
LocalFsProps.v
Posix.v
Daemon.v
DaemonExamples.v
