(* ===== verification/Prelude.v ===== *)
(** * embednfs: a verification development

    embednfs is an NFSv4 server library with an example daemon.  Five layers
    carry its logic:

    - the wire (crates/embednfs-proto): XDR primitives, RPC headers, the
      protocol's data types, and the codec of COMPOUND requests and results;
    - the session state (crates/embednfs/src/session): one [StateManager] with
      clients, leases, sessions, opens, byte-range locks, delegations and
      synthetic metadata under one lock, and filehandle tables, a retired set
      and counters beside it; every request reaps expired leases before it
      works;
    - the server (crates/embednfs/src/server): connections and RPC messages,
      the COMPOUND dispatcher, one handler per operation, the registry that
      gives backend handles object ids, the fences that withdraw objects, and
      the backchannel over which delegations are recalled;
    - the backend (crates/embednfs/src/fs.rs): the filesystem interface, and
      the in-memory backend of memfs/ that implements it;
    - the daemon (crates/embednfsd): a backend over a local directory, the
      server's configuration from the environment and a control port.

    A record from a connection becomes a task; the task decodes the call,
    consults the reply cache of its session slot, runs the operations of the
    COMPOUND one after the other, each a sequence of critical sections of the
    session state, accesses to the registry and calls on the backend, and
    queues the reply.  Tasks interleave between these steps.

    ** Files

    Foundations and the wire.
    - [Prelude]: results and their monad, machine integers, big-endian bytes,
      hash tables as [gmap] with an explicit enumeration order ([HashOrder]),
      counting lemmas, tactics.
    - [Xdr]: xdr.rs.  Encoders are byte strings, decoders state-passing
      functions; [LawfulCodec] is the interface of the two that [Rpc] and
      [Types] build on.
    - [Rpc]: rpc.rs.  - [Types]: types/basic.rs, types/session.rs.
      - [Constants]: types/constants.rs.  - [Operations]: types/operations.rs,
      types/callback.rs.
    - [Codec]: types/codec.rs, one decoder per operation; [CodecProps]: its
      round trip and soundness, with [WireDec] the interface of a decoder and
      the RFC's encoding of what it reads.
    - [AttrCodec]: attrs.rs.  - [Records]: record marking (transport.rs).

    The session state.
    - [StateModel]: the data of session/mod.rs and session/model.rs, the
      counters, the initial state.
    - [DelegTable]: the delegation table's helpers and index invariant.
    - [Clients], [Stateids], [Opens], [Locks], [Delegations], [Sequence],
      [Filehandles], [Invalidate], [Metadata]: the session/ module of the same
      name, operation by operation.
    - [StateMachine]: all critical sections of these modules as one step
      relation; invariants of every reachable state.  [Sessions]: one more.
    - [Locking]: server/ops/locking.rs as sequential functions on [Locks].
    - [MintRace]: minting a filehandle and retiring its object, one table
      access at a time.

    The server.
    - [FsApi]: fs.rs, the types and, as records of operations, the traits.
    - [Server]: server/mod.rs, objects.rs, retirement.rs; [proc], a request as
      a sequence of atomic steps; the session state's methods as such.
    - [ServerFs]: the server in front of its backend (mod.rs, file_attrs.rs).
    - [OpsDelegation], [OpsFile], [OpsAttrs] (with xattrs.rs and session.rs),
      [OpsDirectory], [OpsLocking]: server/ops/.  - [Compound]: compound.rs;
      [OpNames]: its operation names.  - [Config]: identity.rs and the builder
      of mod.rs.
    - [Backchannel]: backchannel.rs.  - [Transport]: transport.rs and the
      authentication of mod.rs.
    - [Pool]: tasks running together, and a logic of steps for them.
      - [Requests]: executions of one request among others; [Authorise]:
      OPEN, SETATTR and extended attributes; [Recalls]: changes of directories;
      [Replay]: a message sent again.
    - [Replies]: what a COMPOUND's reply must be, and what its fingerprint
      determines.
    - [Tasks]: every handler is safe to interleave and cannot get stuck.
      - [Interleaving]: the running server, its construction included.
      - [RequestExamples], [RecallExamples]: requests on a concrete server.

    The in-memory backend.
    - [MemFs]: memfs/, every operation.  - [MemFsBackend]: as a [FileSystem].
    - [DirTree]: directory trees, the specification of a namespace.
      - [MemFsSpec], [MemFsRefine]: the names of the in-memory filesystem
      implement it.  - [MemFsContents]: the same for file contents, link
      targets and extended attributes.  - [MemFsProps]: consequences for
      reachable states, reading, writing and listing.

    The daemon (crates/embednfsd/src/main.rs).
    - [Paths], [Text]: what it uses of std::path and of strings and numbers.
    - [Os]: the operating system's calls, and programs of them.
    - [LocalFs]: the backend, one program per operation; [LocalFsProps].
    - [Daemon]: settings, identity, start and control port.
    - [Posix]: a small operating system; [DaemonExamples]: the daemon on it.

    ** How the code is modelled

    An operation on the session state is a function from its arguments, its
    clock readings and the state to its result and the new state; [Result] is
    [result], and an early return is an early [Err].  Unsigned integers are
    [Z] and wrap where the code wraps.  Fixed-size arrays, strings and [Bytes]
    are lists of byte values.  A [HashMap] is a [gmap]; whatever enumerates
    one takes a [HashOrder], so the theorems hold for every order Rust may
    choose, also a different one at each call.  What is atomic in the program
    (a critical section of the state lock, a call on a concurrent map, a call
    on the backend) is one function or one step; an operation that releases
    the lock in between is split there ([*_guarded]).  A handler is a [proc]:
    [let*] runs a step and goes on, [let!] is [?] or an early return.  The
    clocks and the answers of clients to callbacks are tapes of the server's
    environment ([Env]).  A panic (the [expect] on the bounds of a lock range,
    a [Vec] resized beyond [isize::MAX]) is the [None] of an [option], or the
    [Halt] of a [proc]; there is memory for every smaller [Vec].  The backend is
    an arbitrary [FileSystem] record: nothing is assumed of it.  An operation
    of the daemon's backend is an [io], a tree of calls of the operating
    system with one branch per answer; the system is a function from calls and
    its own state to answers, a parameter of the definitions.  What is assumed
    of it, where anything is, stands in the theorem: that listings hold names
    ([listing_ok]), that a directory does not change ([static_dir]).  [Posix]
    is one such system, with files, directories, links and attributes.

    Bounds.  The 32-bit stateid counter wraps: invariants of [StateMachine]
    and [Interleaving] are for fewer than 2^32 - 1 steps.  [Interleaving] and
    [recall_terminates] assume a monotonic clock ([env_mono]) and a recall
    timeout that is not negative.  The polls of a recall take fuel,
    [wait_fuel]: the timeout over 10 ms, and two; that it is enough is part of
    [Tasks] ([good_wait_loop]).  The in-memory filesystem's 64-bit inode
    counter wraps: [MemFsProps] is for fewer than 2^64 - 3 operations.  The
    loop of [directory_descends_from] needs no more steps than its bound gives
    ([MemFsRefine.descends_exact]).  The record reader and the client loops
    ([list_pages], [listxattrs_walk]) take fuel; the length of the input, or
    one more than the number of entries, is enough.

    ** What the theorems show

    - Wire: a COMPOUND in its RFC encoding is decoded to its operations; what
      a client reads from an attribute list are the object's attributes, and
      what it sets is what the server takes; records survive fragmentation;
      RPC headers and bitmaps survive encoding.
    - The running server: however its tasks interleave, its session state is
      one the state machine reaches, so all invariants of reachable states
      hold at every moment; the registry is a bijection without fenced
      handles; every call is answered, with its own transaction id, unless it
      asks for a size above [isize::MAX]; the reply is a result list that fits
      the operations, also when it comes from the reply cache; a retirement is
      final; a recall ends.
    - Requests: READ, WRITE and a SETATTR of the size touch data only after
      their stateid, the locks and the backend's access check admitted them;
      OPEN and the operations on extended attributes are granted their rights
      first, and no open stands against an OPEN when it is recorded; a
      directory changes only after its delegations were recalled; an RPC
      message that was executed has its reply kept, and sent again it gets the
      bytes of the first reply and changes neither backend nor registry;
      READDIR replies fit; LISTXATTRS pages are complete.
    - Backchannel: a callback gets its own reply or none.
    - Leases and clients: expiry revokes exactly what the expired client held;
      EXCHANGE_ID, CREATE_SESSION, SETCLIENTID and DESTROY_CLIENTID do what
      they promise on every branch.
    - Exactly-once semantics: a slot executes each sequence id once, and what
      it answers from its cache is the reply of the latest execution, to the
      same request.
    - Opens, locks, delegations: outcomes of OPEN and CLOSE; conflict
      detection is exact; LOCK and LOCKU update the set of held bytes below
      2^64 - 1 pointwise; recall and grant limits; in every reachable state
      share reservations hold, stateids are unambiguous, lock ranges are sound
      below that byte, delegation indexes exact and sessions well typed.
    - Filehandles and retirement: handles name one object; invalidation is
      complete and local; a retired object never regains state; boot-scoped
      handles never outlive a retirement under any interleaving.
    - In-memory filesystem: each operation refines the specifications of names
      and of contents with exact error conditions; the namespace stays a tree;
      attributes and link counts are exact; writes are read back; paged
      listings are complete; failures have no effect.
    - Daemon: the server names no path outside the exported directory to the
      system (which follows symbolic links); handles are plain paths and name
      one place; a listing of the backend in pages is complete; extended
      attributes come back under their names;
      settings are accepted exactly when they are well formed; the default
      identities of servers in a process, and of daemons that differ in a
      byte of address or directory, differ.
    - Defects, as theorems about concrete runs: a persistent handle can
      survive retirement, conflicting locks can both be granted, a lock can
      survive its client's lease, a merged lock range can grow to the end of
      the file, so that the last byte is held with two types, a size above
      [isize::MAX] leaves a message unanswered, a SETCLIENTID token repeats, the in-memory filesystem's
      change attribute repeats, two operations are not skipped in full, an
      unknown attribute shifts the ones after it, a truncated record is
      dispatched, an OPEN that should truncate does not, RENAME takes any name,
      and a delegation can slip in between a recall and the change it was for;
      and of the daemon:
      reading and changing attributes through a symbolic link reach files
      outside the exported directory, a failed SYMLINK leaves its link, the
      cookies of its first entries are refused by READDIR, names with the
      prefix user. collide, and its change attribute repeats.

    ** Not modelled

    Sockets, the task runtime, timers, log lines and the text of the daemon's
    start-up errors.  The operating system and the scheduler are parameters.
    In [Interleaving] a callback is one step whose outcome the environment
    chooses; [Backchannel] treats its parts, with entering a call in the
    tables of its connection as one step.  In [Interleaving] minting a
    filehandle is one step; [MintRace] treats its parts.  The daemon's backend
    makes several calls of the system per operation; as a backend of the
    server an operation is one step.

    Next, in this order: the lease of a client and the reply kept in its slot
    across the steps of all other requests, so that [Replay] need not assume
    them of the state a retry meets; the daemon's operations interleaved call
    by call. *)

From stdpp Require Import base gmap list sets strings numbers.
From Stdlib Require Import ZArith Lia.

Declare Scope nfs_scope.
Delimit Scope nfs_scope with nfs.

Local Open Scope Z_scope.

(** ** Results

    Rust's [Result<A, E>]; [?] is the monadic bind. *)

Inductive result (E A : Type) : Type :=
| Ok (a : A)
| Err (e : E).
Arguments Ok {E A} a.
Arguments Err {E A} e.

#[export] Instance result_ret E : MRet (result E) := fun A a => Ok a.
#[export] Instance result_bind E : MBind (result E) := fun A B f m =>
  match m with Ok a => f a | Err e => Err e end.

(** [Option::ok_or] *)
Definition ok_or {E A} (o : option A) (e : E) : result E A :=
  match o with Some a => Ok a | None => Err e end.

Definition is_ok {E A} (r : result E A) : bool :=
  match r with Ok _ => true | Err _ => false end.

#[export] Instance result_eq_dec {E A} `{EqDecision E, EqDecision A} :
  EqDecision (result E A).
Proof. solve_decision. Defined.

(** ** Machine integers

    Unsigned integers are [Z] with the wrap-around of Rust's [wrapping_*]
    and atomic [fetch_add] operations written out. *)

Definition u8_max : Z := 255.
Definition u32_max : Z := 4294967295.
Definition u64_max : Z := 18446744073709551615.
Definition u128_max : Z := 340282366920938463463374607431768211455.

Definition is_u8 (z : Z) : Prop := 0 <= z < 256.
Definition is_u32 (z : Z) : Prop := 0 <= z < 4294967296.
Definition is_u64 (z : Z) : Prop := 0 <= z < 18446744073709551616.

Definition u32_wrap (z : Z) : Z := z mod 4294967296.
Definition u64_wrap (z : Z) : Z := z mod 18446744073709551616.

Lemma u32_wrap_range z : is_u32 (u32_wrap z).
Proof. unfold is_u32, u32_wrap. apply Z.mod_pos_bound. lia. Qed.

Lemma u64_wrap_range z : is_u64 (u64_wrap z).
Proof. unfold is_u64, u64_wrap. apply Z.mod_pos_bound. lia. Qed.

Lemma u32_wrap_small z : is_u32 z -> u32_wrap z = z.
Proof. intros H. apply Z.mod_small, H. Qed.

Lemma u64_wrap_small z : is_u64 z -> u64_wrap z = z.
Proof. intros H. apply Z.mod_small, H. Qed.

Create HintDb nfs.
#[export] Hint Resolve u32_wrap_range u64_wrap_range : nfs.

(** ** Big-endian byte strings

    [u32::to_be_bytes], [u64::to_be_bytes] and the [put_*]/[get_*] calls of
    the bytes crate: bytes are [Z] in [0, 256). *)

Fixpoint be_bytes (n : nat) (z : Z) : list Z :=
  match n with
  | O => []
  | S n' => be_bytes n' (z / 256) ++ [z mod 256]
  end.

Definition from_be (l : list Z) : Z := foldl (fun acc b => acc * 256 + b) 0 l.

Definition bytes_ok (l : list Z) : Prop := Forall is_u8 l.

Lemma be_bytes_length n z : length (be_bytes n z) = n.
Proof.
  revert z. induction n as [|n IH]; intros z; simpl; [done|].
  rewrite length_app, IH. simpl. lia.
Qed.

Lemma be_bytes_ok n z : bytes_ok (be_bytes n z).
Proof.
  unfold bytes_ok. revert z. induction n as [|n IH]; intros z; simpl; [constructor|].
  apply Forall_app. split; [apply IH|].
  constructor; [|constructor]. apply Z.mod_pos_bound. lia.
Qed.

Lemma from_be_snoc l b : from_be (l ++ [b]) = from_be l * 256 + b.
Proof. unfold from_be. rewrite foldl_app. done. Qed.

Lemma from_be_be_bytes n z :
  0 <= z < 256 ^ Z.of_nat n -> from_be (be_bytes n z) = z.
Proof.
  revert z. induction n as [|n IH]; intros z Hz.
  { simpl in *. unfold from_be. simpl. lia. }
  cbn [be_bytes]. rewrite from_be_snoc, IH.
  - pose proof (Z.div_mod z 256). lia.
  - rewrite Nat2Z.inj_succ, Z.pow_succ_r in Hz by lia.
    split; [apply Z.div_pos; lia|]. apply Z.div_lt_upper_bound; lia.
Qed.

Lemma from_be_bound l :
  bytes_ok l -> 0 <= from_be l < 256 ^ Z.of_nat (length l).
Proof.
  induction l as [|b l IH] using rev_ind; intros Hl.
  { unfold from_be. simpl. lia. }
  unfold bytes_ok in *. apply Forall_app in Hl as [Hl Hb].
  inversion_clear Hb as [|? ? Hb' _]. unfold is_u8 in Hb'.
  specialize (IH Hl). rewrite from_be_snoc, length_app. simpl length.
  rewrite Nat.add_1_r, Nat2Z.inj_succ, Z.pow_succ_r by lia. lia.
Qed.

Lemma be_bytes_from_be l :
  bytes_ok l -> be_bytes (length l) (from_be l) = l.
Proof.
  induction l as [|b l IH] using rev_ind; intros Hl; [done|].
  unfold bytes_ok in *. apply Forall_app in Hl as [Hl Hb].
  inversion_clear Hb as [|? ? Hb' _]. unfold is_u8 in Hb'.
  rewrite length_app. simpl length. rewrite Nat.add_1_r.
  cbn [be_bytes]. rewrite from_be_snoc.
  rewrite Z.div_add_l, Z.div_small, Z.add_0_r by lia.
  rewrite IH by done. f_equal. f_equal.
  rewrite Z.add_comm, Z_mod_plus_full. apply Z.mod_small. lia.
Qed.

Lemma be_bytes_inj n z z' :
  0 <= z < 256 ^ Z.of_nat n -> 0 <= z' < 256 ^ Z.of_nat n ->
  be_bytes n z = be_bytes n z' -> z = z'.
Proof.
  intros H H' Heq. rewrite <- (from_be_be_bytes n z), <- (from_be_be_bytes n z') by done.
  by rewrite Heq.
Qed.

Lemma be4_u32 z : is_u32 z -> 0 <= z < 256 ^ Z.of_nat 4.
Proof. unfold is_u32. simpl. lia. Qed.
Lemma be8_u64 z : is_u64 z -> 0 <= z < 256 ^ Z.of_nat 8.
Proof. unfold is_u64. simpl. lia. Qed.
#[export] Hint Resolve be4_u32 be8_u64 be_bytes_ok : nfs.

(** ** Hash tables

    [HashMap], [HashSet] and [DashMap] are [gmap] and [gset].  The order in
    which Rust enumerates them is unspecified and may differ between two
    calls; an instance of [HashOrder] is one such order.  Every operation
    that enumerates a table takes the order as an argument, so a theorem
    about the operation holds whatever order the program sees. *)

Class HashOrder := {
  hm_iter : forall {K V : Type} `{Countable K}, gmap K V -> list (K * V);
  hs_iter : forall {K : Type} `{Countable K}, gset K -> list K;
  hm_iter_perm : forall {K V : Type} `{Countable K} (m : gmap K V),
    hm_iter m ≡ₚ map_to_list m;
  hs_iter_perm : forall {K : Type} `{Countable K} (X : gset K),
    hs_iter X ≡ₚ elements X;
}.

(** One concrete order, used by the witnesses. *)
Definition canonical_order : HashOrder :=
  {| hm_iter := fun K V _ _ m => map_to_list m;
     hs_iter := fun K _ _ X => elements X;
     hm_iter_perm := fun _ _ _ _ _ => Permutation_refl _;
     hs_iter_perm := fun _ _ _ _ => Permutation_refl _ |}.

(** The opposite order: two orders are enough to show that the parameter
    matters and can be instantiated in more than one way. *)
Definition reversed_order : HashOrder :=
  {| hm_iter := fun K V _ _ m => reverse (map_to_list m);
     hs_iter := fun K _ _ X => reverse (elements X);
     hm_iter_perm := fun _ _ _ _ _ => reverse_Permutation _;
     hs_iter_perm := fun _ _ _ _ => reverse_Permutation _ |}.

Section hash_tables.
Context {ho : HashOrder}.
Context {K V : Type} `{Countable K}.
Implicit Types (m : gmap K V) (f : K -> V -> bool).

(** [m.iter().any(f)] *)
Definition hm_any f m : bool :=
  existsb (fun kv => f kv.1 kv.2) (hm_iter m).

(** [m.iter().find(f)] *)
Definition hm_find f m : option (K * V) :=
  List.find (fun kv => f kv.1 kv.2) (hm_iter m).

(** the keys of [m.iter().filter(f)], collected *)
Definition hm_select f m : list K :=
  (List.filter (fun kv => f kv.1 kv.2) (hm_iter m)).*1.

(** [m.iter().filter(f).count()] *)
Definition hm_count f m : nat :=
  length (List.filter (fun kv => f kv.1 kv.2) (hm_iter m)).

Lemma elem_of_hm_iter m k v : (k, v) ∈ hm_iter m <-> m !! k = Some v.
Proof. rewrite hm_iter_perm. apply elem_of_map_to_list. Qed.

Lemma hm_any_true f m :
  hm_any f m = true <-> exists k v, m !! k = Some v /\ f k v = true.
Proof.
  unfold hm_any. rewrite existsb_exists. split.
  - intros [[k v] [Hin Hf]]. exists k, v. split; [|done].
    by apply elem_of_hm_iter, list_elem_of_In.
  - intros (k & v & Hm & Hf). exists (k, v). split; [|done].
    by apply list_elem_of_In, elem_of_hm_iter.
Qed.

Lemma hm_any_false f m :
  hm_any f m = false <-> forall k v, m !! k = Some v -> f k v = false.
Proof.
  rewrite <- not_true_iff_false, hm_any_true. split.
  - intros Hn k v Hm. destruct (f k v) eqn:E; [|done]. exfalso. eauto.
  - intros Hf (k & v & Hm & Ht). rewrite (Hf k v Hm) in Ht. done.
Qed.

Lemma hm_find_Some f m k v :
  hm_find f m = Some (k, v) -> m !! k = Some v /\ f k v = true.
Proof.
  unfold hm_find. intros [Hin Hf]%find_some.
  split; [|done]. by apply elem_of_hm_iter, list_elem_of_In.
Qed.

Lemma hm_find_None f m :
  hm_find f m = None <-> forall k v, m !! k = Some v -> f k v = false.
Proof.
  unfold hm_find. split.
  - intros Hn k v Hm. apply (find_none _ _ Hn (k, v)).
    by apply list_elem_of_In, elem_of_hm_iter.
  - intros Hf. destruct (List.find _ _) as [[k v]|] eqn:E; [|done].
    apply find_some in E as [Hin Ht]. simpl in Ht.
    apply list_elem_of_In, elem_of_hm_iter in Hin.
    rewrite (Hf k v Hin) in Ht. done.
Qed.

(** When at most one entry satisfies the test the enumeration order does
    not show. *)
Lemma hm_find_unique f m k v :
  m !! k = Some v -> f k v = true ->
  (forall k' v', m !! k' = Some v' -> f k' v' = true -> k' = k) ->
  hm_find f m = Some (k, v).
Proof.
  intros Hm Hf Hu. destruct (hm_find f m) as [[k' v']|] eqn:E.
  - apply hm_find_Some in E as [Hm' Hf'].
    specialize (Hu _ _ Hm' Hf') as ->. congruence.
  - rewrite hm_find_None in E. rewrite (E _ _ Hm) in Hf. done.
Qed.

Lemma elem_of_hm_select f m k :
  k ∈ hm_select f m <-> exists v, m !! k = Some v /\ f k v = true.
Proof.
  unfold hm_select. rewrite list_elem_of_fmap. split.
  - intros ([k' v] & -> & Hin). apply list_elem_of_In, filter_In in Hin as [Hin Hf].
    exists v. split; [|done]. by apply elem_of_hm_iter, list_elem_of_In.
  - intros (v & Hm & Hf). exists (k, v). split; [done|].
    apply list_elem_of_In, filter_In. split; [|done].
    by apply list_elem_of_In, elem_of_hm_iter.
Qed.

Lemma NoDup_hm_iter m : NoDup (hm_iter m).
Proof. rewrite hm_iter_perm. apply NoDup_map_to_list. Qed.

Lemma NoDup_hm_select f m : NoDup (hm_select f m).
Proof.
  unfold hm_select. apply NoDup_fmap_fst.
  - intros k v v' Hv Hv'. apply list_elem_of_In, filter_In in Hv as [Hv _], Hv' as [Hv' _].
    apply list_elem_of_In, elem_of_hm_iter in Hv, Hv'. congruence.
  - apply NoDup_ListNoDup, List.NoDup_filter, NoDup_ListNoDup, NoDup_hm_iter.
Qed.

(** [m.retain(f)] *)
Definition hm_retain f m : gmap K V :=
  filter (fun kv => f kv.1 kv.2 = true) m.

Lemma lookup_hm_retain f m k :
  hm_retain f m !! k =
  match m !! k with
  | Some v => if f k v then Some v else None
  | None => None
  end.
Proof.
  unfold hm_retain. rewrite map_lookup_filter.
  destruct (m !! k) as [v|]; simpl; [|done].
  case_guard as Hg; simpl in *; destruct (f k v); simpl; congruence.
Qed.

Lemma lookup_hm_retain_Some f m k v :
  hm_retain f m !! k = Some v <-> m !! k = Some v /\ f k v = true.
Proof.
  rewrite lookup_hm_retain. destruct (m !! k) as [v'|]; [|intuition congruence].
  destruct (f k v') eqn:E; intuition congruence.
Qed.
Lemma hm_retain_retain f g m :
  hm_retain g (hm_retain f m) = hm_retain (fun k v => f k v && g k v) m.
Proof.
  apply map_eq. intros k. rewrite !lookup_hm_retain.
  destruct (m !! k) as [v|]; [|done]. by destruct (f k v).
Qed.

Lemma hm_retain_ext f g m :
  (forall k v, m !! k = Some v -> f k v = g k v) -> hm_retain f m = hm_retain g m.
Proof.
  intros Hfg. apply map_eq. intros k. rewrite !lookup_hm_retain.
  destruct (m !! k) as [v|] eqn:E; [|done]. by rewrite (Hfg k v E).
Qed.

Lemma hm_retain_true f m :
  (forall k v, m !! k = Some v -> f k v = true) -> hm_retain f m = m.
Proof.
  intros Hf. apply map_eq. intros k. rewrite lookup_hm_retain.
  destruct (m !! k) as [v|] eqn:E; [|done]. by rewrite (Hf k v E).
Qed.
End hash_tables.

Section hash_sets.
Context {ho : HashOrder} {K : Type} `{Countable K}.
Implicit Types (X : gset K) (f : K -> bool).

Definition hs_any f X : bool := existsb f (hs_iter X).
Definition hs_find f X : option K := List.find f (hs_iter X).
Definition hs_count f X : nat := length (List.filter f (hs_iter X)).

Lemma elem_of_hs_iter X k : k ∈ hs_iter X <-> k ∈ X.
Proof. rewrite hs_iter_perm. apply elem_of_elements. Qed.

Lemma NoDup_hs_iter X : NoDup (hs_iter X).
Proof. rewrite hs_iter_perm. apply NoDup_elements. Qed.

Lemma hs_any_true f X : hs_any f X = true <-> exists k, k ∈ X /\ f k = true.
Proof.
  unfold hs_any. rewrite existsb_exists. split.
  - intros (k & Hin & Hf). exists k. split; [|done].
    by apply elem_of_hs_iter, list_elem_of_In.
  - intros (k & Hin & Hf). exists k. split; [|done].
    by apply list_elem_of_In, elem_of_hs_iter.
Qed.

Lemma hs_find_Some f X k : hs_find f X = Some k -> k ∈ X /\ f k = true.
Proof.
  unfold hs_find. intros [Hin Hf]%find_some. split; [|done].
  by apply elem_of_hs_iter, list_elem_of_In.
Qed.

Lemma hs_find_None f X :
  hs_find f X = None <-> forall k, k ∈ X -> f k = false.
Proof.
  unfold hs_find. split.
  - intros Hn k Hk. apply (find_none _ _ Hn).
    by apply list_elem_of_In, elem_of_hs_iter.
  - intros Hf. destruct (List.find _ _) as [k|] eqn:E; [|done].
    apply find_some in E as [Hin Ht].
    apply list_elem_of_In, elem_of_hs_iter in Hin. rewrite (Hf _ Hin) in Ht. done.
Qed.
End hash_sets.

Lemma elem_of_option_list {A} (o : option A) x : x ∈ option_list o <-> o = Some x.
Proof.
  destruct o as [a|]; simpl; [rewrite list_elem_of_singleton; naive_solver|].
  split; [by intros ?%elem_of_nil|done].
Qed.

(** Counting through a map, and with equivalent tests. *)
Lemma filter_fmap_length {A B} (f : A -> B) (P : A -> Prop) (Q : B -> Prop)
    `{!forall x, Decision (P x), !forall x, Decision (Q x)} (l : list A) :
  (forall x, x ∈ l -> Q (f x) <-> P x) ->
  length (filter Q (f <$> l)) = length (filter P l).
Proof.
  induction l as [|x l IH]; intros Hl; [done|]. csimpl. rewrite !filter_cons.
  assert (Hx : Q (f x) <-> P x) by (apply Hl; by left).
  specialize (IH (fun y Hy => Hl y (list_elem_of_further _ _ _ Hy))).
  repeat case_decide; simpl; naive_solver.
Qed.

(** ** Bit masks *)

Lemma land_disjoint_sub a b c :
  Z.land a (Z.lnot b) = 0 -> Z.land b c = 0 -> Z.land a c = 0.
Proof.
  intros Hab Hbc. apply Z.bits_inj'. intros i Hi.
  pose proof (f_equal (fun z => Z.testbit z i) Hab) as H1.
  pose proof (f_equal (fun z => Z.testbit z i) Hbc) as H2.
  simpl in *. rewrite !Z.land_spec, ?Z.lnot_spec, ?Z.bits_0 in * by done.
  destruct (Z.testbit a i), (Z.testbit b i), (Z.testbit c i); done.
Qed.

Lemma land_lor_zero_l a b c : Z.land (Z.lor a b) c = 0 -> Z.land a c = 0.
Proof.
  intros H. apply Z.bits_inj'. intros i Hi.
  pose proof (f_equal (fun z => Z.testbit z i) H) as H1.
  simpl in *. rewrite !Z.land_spec, ?Z.lor_spec, ?Z.bits_0 in *.
  destruct (Z.testbit a i), (Z.testbit b i), (Z.testbit c i); done.
Qed.

(** ** Automation

    [nfs_inv] opens the successful branch of a chain of guards: it destructs
    the matches a hypothesis is blocked on and discards the impossible
    branches. *)

Ltac nfs_case :=
  match goal with
  | H : context [match ?x with _ => _ end] |- _ =>
      let E := fresh "E" in destruct x eqn:E; try discriminate H
  end.

Ltac nfs_split :=
  match goal with
  | |- context [match ?x with _ => _ end] =>
      let E := fresh "E" in destruct x eqn:E
  end.

(** Boolean tests of the source turned into propositions. *)
Ltac bool_to_prop :=
  repeat match goal with
  | H : (_ && _)%bool = true |- _ => apply andb_prop in H as [? ?]
  | H : (_ || _)%bool = false |- _ => apply orb_false_elim in H as [? ?]
  | H : negb _ = true |- _ => apply negb_true_iff in H
  | H : negb _ = false |- _ => apply negb_false_iff in H
  | H : bool_decide _ = true |- _ => apply bool_decide_eq_true_1 in H
  | H : bool_decide _ = false |- _ => apply bool_decide_eq_false_1 in H
  | H : (_ =? _) = true |- _ => apply Z.eqb_eq in H
  | H : (_ =? _) = false |- _ => apply Z.eqb_neq in H
  | H : (_ <? _) = true |- _ => apply Z.ltb_lt in H
  | H : (_ <? _) = false |- _ => apply Z.ltb_ge in H
  | H : (_ <=? _) = true |- _ => apply Z.leb_le in H
  | H : (_ <=? _) = false |- _ => apply Z.leb_gt in H
  end.
