(* ===== verification/Xdr.v ===== *)
(** * XDR encoding and decoding (crates/embednfs-proto/src/xdr.rs)

    The growing output buffer ([BytesMut]) is the byte string an encoder
    appends; the input cursor ([Bytes]) is the byte string a decoder has not
    consumed yet, passed and returned explicitly.  Types that exist on both
    sides are bundled as a [Codec]; [LawfulCodec] is what the message types
    built on top rely on, and each primitive discharges it. *)

From stdpp Require Import base gmap list sets strings numbers.
From Stdlib Require Import ZArith Lia.
From S2P Require Import Prelude.

Local Open Scope Z_scope.

Inductive XdrError :=
| Underflow
| Overflow
| InvalidEnum (v : Z)
| InvalidBool (v : Z)
| InvalidUtf8
| StringTooLong (n : Z)
| OpaqueTooLong (n : Z).

#[export] Instance XdrError_eq_dec : EqDecision XdrError.
Proof. solve_decision. Defined.

Abbreviation bytes := (list Z) (only parsing).

(** A decoder consumes a prefix of the input. *)
Definition decoder (A : Type) : Type := bytes -> result XdrError (A * bytes).

Definition dec_ret {A} (a : A) : decoder A := fun src => Ok (a, src).
Definition dec_fail {A} (e : XdrError) : decoder A := fun _ => Err e.
Definition dec_bind {A B} (d : decoder A) (k : A -> decoder B) : decoder B :=
  fun src => match d src with Ok (a, src') => k a src' | Err e => Err e end.

Notation "'let?' x := d 'in' k" := (dec_bind d (fun x => k))
  (at level 10, x pattern, k at level 200) : nfs_scope.
Local Open Scope nfs_scope.

(** The length of a Rust slice. *)
Definition zlen {A} (l : list A) : Z := Z.of_nat (length l).

(** [xdr_pad]: the bytes missing to the next multiple of four. *)
Definition xdr_pad (len : Z) : Z := Z.land (4 - Z.land len 3) 3.

Definition zeros (n : Z) : bytes := replicate (Z.to_nat n) 0.

(** [Bytes::split_to] after the caller's bounds check. *)
Definition split_to (n : Z) (src : bytes) : bytes * bytes :=
  (take (Z.to_nat n) src, drop (Z.to_nat n) src).

(** ** Primitives *)

Definition encode_u32 (v : Z) : bytes := be_bytes 4 v.
Definition decode_u32 : decoder Z := fun src =>
  if zlen src <? 4 then Err Underflow
  else Ok (from_be (take 4 src), drop 4 src).

Definition encode_u64 (v : Z) : bytes := be_bytes 8 v.
Definition decode_u64 : decoder Z := fun src =>
  if zlen src <? 8 then Err Underflow
  else Ok (from_be (take 8 src), drop 8 src).

(** Two's complement: [put_i32]/[get_i32] and [put_i64]/[get_i64]. *)
Definition encode_i32 (v : Z) : bytes := be_bytes 4 (u32_wrap v).
Definition decode_i32 : decoder Z := fun src =>
  if zlen src <? 4 then Err Underflow
  else let v := from_be (take 4 src) in
       Ok (if v <? 2147483648 then v else v - 4294967296, drop 4 src).

Definition encode_i64 (v : Z) : bytes := be_bytes 8 (u64_wrap v).
Definition decode_i64 : decoder Z := fun src =>
  if zlen src <? 8 then Err Underflow
  else let v := from_be (take 8 src) in
       Ok (if v <? 9223372036854775808 then v else v - 18446744073709551616, drop 8 src).

Definition encode_bool (b : bool) : bytes := encode_u32 (if b then 1 else 0).
Definition decode_bool : decoder bool :=
  let? v := decode_u32 in
  if v =? 0 then dec_ret false
  else if v =? 1 then dec_ret true
  else dec_fail (InvalidBool v).

(** ** Opaques *)

Definition encode_fixed_opaque (data : bytes) : bytes :=
  data ++ zeros (xdr_pad (zlen data)).

Definition decode_fixed_opaque (len : Z) : decoder bytes := fun src =>
  let padded := len + xdr_pad len in
  if zlen src <? padded then Err Underflow
  else
    let '(data, src) := split_to len src in
    let pad := xdr_pad len in
    Ok (data, if 0 <? pad then drop (Z.to_nat pad) src else src).

Definition encode_opaque (data : bytes) : bytes :=
  encode_u32 (u32_wrap (zlen data)) ++ data ++ zeros (xdr_pad (zlen data)).

Definition decode_opaque : decoder bytes :=
  let? len := decode_u32 in fun src =>
  let padded := len + xdr_pad len in
  if zlen src <? padded then Err Underflow
  else
    let '(data, src) := split_to len src in
    let pad := xdr_pad len in
    Ok (data, if 0 <? pad then drop (Z.to_nat pad) src else src).

Definition decode_opaque_max (max : Z) : decoder bytes :=
  let? data := decode_opaque in
  if max <? zlen data then dec_fail (OpaqueTooLong (zlen data)) else dec_ret data.

(** ** Strings

    A Rust [String] is a byte string that is well-formed UTF-8; [utf8_valid]
    is the acceptance test of [String::from_utf8]. *)

Definition in_range (lo hi b : Z) : bool := (lo <=? b) && (b <=? hi).
Definition utf8_cont (b : Z) : bool := in_range 128 191 b.

Fixpoint utf8_valid (s : bytes) : bool :=
  match s with
  | [] => true
  | b0 :: s1 =>
    if b0 <? 128 then utf8_valid s1
    else match s1 with
    | [] => false
    | b1 :: s2 =>
      if in_range 194 223 b0 then utf8_cont b1 && utf8_valid s2
      else match s2 with
      | [] => false
      | b2 :: s3 =>
        if (b0 =? 224) then in_range 160 191 b1 && utf8_cont b2 && utf8_valid s3
        else if (b0 =? 237) then in_range 128 159 b1 && utf8_cont b2 && utf8_valid s3
        else if in_range 225 239 b0 then utf8_cont b1 && utf8_cont b2 && utf8_valid s3
        else match s3 with
        | [] => false
        | b3 :: s4 =>
          if (b0 =? 240) then
            in_range 144 191 b1 && utf8_cont b2 && utf8_cont b3 && utf8_valid s4
          else if in_range 241 243 b0 then
            utf8_cont b1 && utf8_cont b2 && utf8_cont b3 && utf8_valid s4
          else if (b0 =? 244) then
            in_range 128 143 b1 && utf8_cont b2 && utf8_cont b3 && utf8_valid s4
          else false
        end
      end
    end
  end.

(** A string literal of the source. *)
Definition str_bytes (s : string) : bytes :=
  (fun c => Z.of_N (Ascii.N_of_ascii c)) <$> String.list_ascii_of_string s.

Definition from_utf8 (data : bytes) : decoder bytes :=
  if utf8_valid data then dec_ret data else dec_fail InvalidUtf8.

Definition encode_string (s : bytes) : bytes := encode_opaque s.
Definition decode_string : decoder bytes :=
  let? data := decode_opaque in from_utf8 data.
Definition decode_string_max (max : Z) : decoder bytes :=
  let? data := decode_opaque_max max in from_utf8 data.

(** ** Arrays and optional values *)

(** The [for _ in 0..count] loops.  The count is read from the wire, so the
    loop is written on binary numbers: a failing iteration stops it at once,
    whatever the count. *)
Fixpoint loop_pos {E S} (step : S -> result E S) (p : positive) (s : S) : result E S :=
  match p with
  | xH => step s
  | xO q => match loop_pos step q s with Ok s' => loop_pos step q s' | Err e => Err e end
  | xI q =>
    match step s with
    | Ok s1 => match loop_pos step q s1 with Ok s2 => loop_pos step q s2 | Err e => Err e end
    | Err e => Err e
    end
  end.

Definition loop_times {E S} (step : S -> result E S) (n : Z) (s : S) : result E S :=
  match n with Zpos p => loop_pos step p s | _ => Ok s end.

Definition decode_item {A} (d : decoder A) (st : list A * bytes)
    : result XdrError (list A * bytes) :=
  match d st.2 with
  | Ok (a, src) => Ok (st.1 ++ [a], src)
  | Err e => Err e
  end.

Definition encode_list {A} (enc : A -> bytes) (l : list A) : bytes :=
  encode_u32 (u32_wrap (zlen l)) ++ flat_map enc l.

Definition decode_list {A} (d : decoder A) : decoder (list A) :=
  let? count := decode_u32 in fun src =>
  loop_times (decode_item d) count ([], src).

Definition decode_list_max {A} (d : decoder A) (max : Z) : decoder (list A) :=
  let? count := decode_u32 in
  if max <? count then dec_fail (OpaqueTooLong count)
  else fun src => loop_times (decode_item d) count ([], src).

Definition encode_option {A} (enc : A -> bytes) (o : option A) : bytes :=
  match o with
  | Some v => encode_u32 1 ++ enc v
  | None => encode_u32 0
  end.

Definition decode_option {A} (d : decoder A) : decoder (option A) :=
  let? present := decode_u32 in
  if present =? 0 then dec_ret None
  else if present =? 1 then (let? v := d in dec_ret (Some v))
  else dec_fail (InvalidBool present).

Arguments encode_u32 _ : simpl never.
Arguments encode_u64 _ : simpl never.
Arguments encode_i32 _ : simpl never.
Arguments encode_i64 _ : simpl never.
Arguments encode_opaque _ : simpl never.
Arguments encode_fixed_opaque _ : simpl never.
Arguments encode_list {A} _ _ : simpl never.

(** ** Codecs and their laws *)

Record Codec (A : Type) := {
  cod_enc : A -> bytes;
  cod_dec : decoder A;
  cod_dom : A -> Prop;
}.
Arguments cod_enc {A} c : rename.
Arguments cod_dec {A} c : rename.
Arguments cod_dom {A} c : rename.

(** What a message type may rely on: decoding undoes encoding whatever
    follows in the buffer, encodings are 4-byte aligned byte strings, and a
    decoder that succeeds has consumed an aligned prefix and produced a value
    of the type. *)
Class LawfulCodec {A} (c : Codec A) : Prop := {
  codec_roundtrip : forall a rest,
    cod_dom c a -> cod_dec c (cod_enc c a ++ rest) = Ok (a, rest);
  codec_aligned : forall a, cod_dom c a -> zlen (cod_enc c a) mod 4 = 0;
  codec_bytes : forall a, cod_dom c a -> bytes_ok (cod_enc c a);
  codec_sound : forall src a rest,
    bytes_ok src -> cod_dec c src = Ok (a, rest) ->
    cod_dom c a /\ exists used, src = used ++ rest /\ zlen used mod 4 = 0;
}.

Definition is_i32 (z : Z) : Prop := -2147483648 <= z < 2147483648.
Definition is_i64 (z : Z) : Prop := -9223372036854775808 <= z < 9223372036854775808.

Definition opaque_ok (data : bytes) : Prop := bytes_ok data /\ is_u32 (zlen data).
Definition string_ok (s : bytes) : Prop := opaque_ok s /\ utf8_valid s = true.

Definition u32_codec := {| cod_enc := encode_u32; cod_dec := decode_u32; cod_dom := is_u32 |}.
Definition u64_codec := {| cod_enc := encode_u64; cod_dec := decode_u64; cod_dom := is_u64 |}.
Definition i32_codec := {| cod_enc := encode_i32; cod_dec := decode_i32; cod_dom := is_i32 |}.
Definition i64_codec := {| cod_enc := encode_i64; cod_dec := decode_i64; cod_dom := is_i64 |}.
Definition bool_codec :=
  {| cod_enc := encode_bool; cod_dec := decode_bool; cod_dom := fun _ => True |}.
Definition opaque_codec :=
  {| cod_enc := encode_opaque; cod_dec := decode_opaque; cod_dom := opaque_ok |}.
Definition opaque_max_codec max :=
  {| cod_enc := encode_opaque; cod_dec := decode_opaque_max max;
     cod_dom := fun d => opaque_ok d /\ zlen d <= max |}.
Definition fixed_opaque_codec len :=
  {| cod_enc := encode_fixed_opaque; cod_dec := decode_fixed_opaque len;
     cod_dom := fun d => bytes_ok d /\ zlen d = len |}.
Definition string_codec :=
  {| cod_enc := encode_string; cod_dec := decode_string; cod_dom := string_ok |}.
Definition string_max_codec max :=
  {| cod_enc := encode_string; cod_dec := decode_string_max max;
     cod_dom := fun s => string_ok s /\ zlen s <= max |}.
Definition list_codec {A} (c : Codec A) :=
  {| cod_enc := encode_list (cod_enc c); cod_dec := decode_list (cod_dec c);
     cod_dom := fun l => Forall (cod_dom c) l /\ is_u32 (zlen l) |}.
Definition list_max_codec {A} (c : Codec A) max :=
  {| cod_enc := encode_list (cod_enc c); cod_dec := decode_list_max (cod_dec c) max;
     cod_dom := fun l => (Forall (cod_dom c) l /\ is_u32 (zlen l)) /\ zlen l <= max |}.
Definition option_codec {A} (c : Codec A) :=
  {| cod_enc := encode_option (cod_enc c); cod_dec := decode_option (cod_dec c);
     cod_dom := fun o => match o with Some a => cod_dom c a | None => True end |}.
(** Two values one after the other, the shape of every struct of the protocol. *)
Definition pair_codec {A B} (c : Codec A) (d : Codec B) : Codec (A * B) :=
  {| cod_enc := fun p => cod_enc c p.1 ++ cod_enc d p.2;
     cod_dec := let? a := cod_dec c in let? b := cod_dec d in dec_ret (a, b);
     cod_dom := fun p => cod_dom c p.1 /\ cod_dom d p.2 |}.
(** A struct seen as the tuple of its fields. *)
Definition iso_codec {A B} (to : A -> B) (from : B -> A) (c : Codec B) : Codec A :=
  {| cod_enc := fun a => cod_enc c (to a);
     cod_dec := let? b := cod_dec c in dec_ret (from b);
     cod_dom := fun a => cod_dom c (to a) |}.

(** ** Lemmas *)

Lemma zlen_app {A} (l k : list A) : zlen (l ++ k) = zlen l + zlen k.
Proof. unfold zlen. rewrite length_app. lia. Qed.

Lemma zlen_nonneg {A} (l : list A) : 0 <= zlen l.
Proof. unfold zlen. lia. Qed.

Lemma bytes_ok_app l k : bytes_ok (l ++ k) <-> bytes_ok l /\ bytes_ok k.
Proof. apply Forall_app. Qed.

Lemma zlen_zeros n : 0 <= n -> zlen (zeros n) = n.
Proof. intros. unfold zlen, zeros. rewrite length_replicate. lia. Qed.

Lemma zeros_ok n : bytes_ok (zeros n).
Proof. apply Forall_replicate. unfold is_u8. lia. Qed.

Lemma zlen_be n z : zlen (be_bytes n z) = Z.of_nat n.
Proof. unfold zlen. by rewrite be_bytes_length. Qed.

Lemma add_mod_zero a b : a mod 4 = 0 -> b mod 4 = 0 -> (a + b) mod 4 = 0.
Proof. intros Ha Hb. rewrite Z.add_mod, Ha, Hb by lia. done. Qed.
#[export] Hint Resolve zeros_ok add_mod_zero zlen_nonneg : nfs.

(** [xdr_pad] in arithmetic form. *)
Lemma xdr_pad_spec len : xdr_pad len = (- len) mod 4.
Proof.
  unfold xdr_pad. change 3 with (Z.ones 2).
  rewrite !Z.land_ones by lia. change (2 ^ 2) with 4.
  rewrite <- (Z.sub_0_l len), Zminus_mod_idemp_r.
  replace (4 - len) with (0 - len + 1 * 4) by lia. by rewrite Z_mod_plus_full.
Qed.

Lemma xdr_pad_bounds len : 0 <= xdr_pad len < 4.
Proof. rewrite xdr_pad_spec. apply Z.mod_pos_bound. lia. Qed.

Lemma xdr_pad_aligned len : (len + xdr_pad len) mod 4 = 0.
Proof.
  rewrite xdr_pad_spec, Z.add_mod_idemp_r by lia.
  by rewrite Z.add_opp_diag_r.
Qed.

Lemma take_drop_app_Z (l rest : bytes) n :
  zlen l = n -> take (Z.to_nat n) (l ++ rest) = l /\ drop (Z.to_nat n) (l ++ rest) = rest.
Proof.
  intros <-. unfold zlen. rewrite Nat2Z.id. split.
  - apply take_app_length.
  - apply drop_app_length.
Qed.

Lemma dec_bind_ok {A B} (d : decoder A) (k : A -> decoder B) src a src' :
  d src = Ok (a, src') -> dec_bind d k src = k a src'.
Proof. unfold dec_bind. by intros ->. Qed.

Lemma dec_bind_inv {A B} (d : decoder A) (k : A -> decoder B) src r :
  dec_bind d k src = Ok r ->
  exists a src', d src = Ok (a, src') /\ k a src' = Ok r.
Proof.
  unfold dec_bind. destruct (d src) as [[a src']|e] eqn:E; [|done]. eauto.
Qed.

Lemma decode_u32_app v rest :
  is_u32 v -> decode_u32 (encode_u32 v ++ rest) = Ok (v, rest).
Proof.
  intros Hv. unfold decode_u32, encode_u32. rewrite zlen_app, zlen_be.
  destruct (Z.ltb_spec (Z.of_nat 4 + zlen rest) 4); [pose proof (zlen_nonneg rest); lia|].
  assert (Hl : length (be_bytes 4 v) = 4%nat) by apply be_bytes_length.
  rewrite <- Hl at 1 3. rewrite take_app_length, drop_app_length.
  by rewrite from_be_be_bytes by auto with nfs.
Qed.

Lemma decode_u64_app v rest :
  is_u64 v -> decode_u64 (encode_u64 v ++ rest) = Ok (v, rest).
Proof.
  intros Hv. unfold decode_u64, encode_u64. rewrite zlen_app, zlen_be.
  destruct (Z.ltb_spec (Z.of_nat 8 + zlen rest) 8); [pose proof (zlen_nonneg rest); lia|].
  assert (Hl : length (be_bytes 8 v) = 8%nat) by apply be_bytes_length.
  rewrite <- Hl at 1 3. rewrite take_app_length, drop_app_length.
  by rewrite from_be_be_bytes by auto with nfs.
Qed.

(** Reading [n] bytes off the front: what the integer decoders share. *)
Lemma read_be_sound (n : nat) (src : bytes) :
  Z.of_nat n <= zlen src -> bytes_ok src ->
  (0 <= from_be (take n src) < 256 ^ Z.of_nat n) /\
  src = take n src ++ drop n src /\ zlen (take n src) = Z.of_nat n.
Proof.
  unfold zlen. intros Hn Hok.
  assert (Hl : length (take n src) = n) by (rewrite length_take; lia).
  split; [|split].
  - pose proof (from_be_bound (take n src)) as Hb. rewrite Hl in Hb.
    apply Hb. by apply Forall_take.
  - by rewrite take_drop.
  - by rewrite Hl.
Qed.

#[export] Instance u32_lawful : LawfulCodec u32_codec.
Proof.
  split; simpl.
  - intros. by apply decode_u32_app.
  - intros a _. unfold encode_u32. by rewrite zlen_be.
  - intros. apply be_bytes_ok.
  - intros src a rest Hok. unfold decode_u32.
    destruct (Z.ltb_spec (zlen src) 4); [done|]. intros [= <- <-].
    destruct (read_be_sound 4 src) as (Hb & Hs & Hl); [done..|].
    split; [exact Hb|]. exists (take 4 src). by rewrite Hl.
Qed.

#[export] Instance u64_lawful : LawfulCodec u64_codec.
Proof.
  split; simpl.
  - intros. by apply decode_u64_app.
  - intros a _. unfold encode_u64. by rewrite zlen_be.
  - intros. apply be_bytes_ok.
  - intros src a rest Hok. unfold decode_u64.
    destruct (Z.ltb_spec (zlen src) 8); [done|]. intros [= <- <-].
    destruct (read_be_sound 8 src) as (Hb & Hs & Hl); [done..|].
    split; [exact Hb|]. exists (take 8 src). by rewrite Hl.
Qed.

Lemma decode_i32_via_u32 src :
  decode_i32 src =
  dec_bind decode_u32 (fun v => dec_ret (if v <? 2147483648 then v else v - 4294967296)) src.
Proof. unfold decode_i32, dec_bind, decode_u32, dec_ret. by destruct (_ <? _). Qed.

#[export] Instance i32_lawful : LawfulCodec i32_codec.
Proof.
  assert (Hu : forall v, is_i32 v ->
    (if u32_wrap v <? 2147483648 then u32_wrap v else u32_wrap v - 4294967296) = v).
  { unfold is_i32, u32_wrap. intros v Hv. destruct (Z.leb_spec 0 v).
    - rewrite Z.mod_small by lia. destruct (Z.ltb_spec v 2147483648); lia.
    - replace (v mod 4294967296) with (v + 4294967296).
      + destruct (Z.ltb_spec (v + 4294967296) 2147483648); lia.
      + rewrite <- (Z_mod_plus_full v 1). rewrite Z.mod_small; lia. }
  split; simpl.
  - intros a rest Ha.
    rewrite decode_i32_via_u32.
    rewrite (dec_bind_ok _ _ _ _ _ (decode_u32_app _ rest (u32_wrap_range a))).
    unfold dec_ret. by rewrite Hu.
  - intros a _. unfold encode_i32. by rewrite zlen_be.
  - intros. apply be_bytes_ok.
  - intros src a rest Hok. unfold decode_i32.
    destruct (Z.ltb_spec (zlen src) 4); [done|]. intros [= <- <-].
    destruct (read_be_sound 4 src) as (Hb & Hs & Hl); [done..|].
    split; [|exists (take 4 src); by rewrite Hl].
    change (256 ^ Z.of_nat 4) with 4294967296 in Hb. unfold is_i32.
    destruct (Z.ltb_spec (from_be (take 4 src)) 2147483648); lia.
Qed.

Lemma decode_i64_via_u64 src :
  decode_i64 src =
  dec_bind decode_u64 (fun v => dec_ret (if v <? 9223372036854775808 then v else v - 18446744073709551616)) src.
Proof. unfold decode_i64, dec_bind, decode_u64, dec_ret. by destruct (_ <? _). Qed.

#[export] Instance i64_lawful : LawfulCodec i64_codec.
Proof.
  assert (Hu : forall v, is_i64 v ->
    (if u64_wrap v <? 9223372036854775808 then u64_wrap v
     else u64_wrap v - 18446744073709551616) = v).
  { unfold is_i64, u64_wrap. intros v Hv. destruct (Z.leb_spec 0 v).
    - rewrite Z.mod_small by lia. destruct (Z.ltb_spec v 9223372036854775808); lia.
    - replace (v mod 18446744073709551616) with (v + 18446744073709551616).
      + destruct (Z.ltb_spec (v + 18446744073709551616) 9223372036854775808); lia.
      + rewrite <- (Z_mod_plus_full v 1). rewrite Z.mod_small; lia. }
  split; simpl.
  - intros a rest Ha.
    rewrite decode_i64_via_u64.
    rewrite (dec_bind_ok _ _ _ _ _ (decode_u64_app _ rest (u64_wrap_range a))).
    unfold dec_ret. by rewrite Hu.
  - intros a _. unfold encode_i64. by rewrite zlen_be.
  - intros. apply be_bytes_ok.
  - intros src a rest Hok. unfold decode_i64.
    destruct (Z.ltb_spec (zlen src) 8); [done|]. intros [= <- <-].
    destruct (read_be_sound 8 src) as (Hb & Hs & Hl); [done..|].
    split; [|exists (take 8 src); by rewrite Hl].
    change (256 ^ Z.of_nat 8) with 18446744073709551616 in Hb. unfold is_i64.
    destruct (Z.ltb_spec (from_be (take 8 src)) 9223372036854775808); lia.
Qed.

(** ** Combinators *)

(** Sequencing: the first part of a buffer is read by [c], the rest by [k]. *)
Lemma dec_bind_codec {A B} (c : Codec A) `{!LawfulCodec c} (k : A -> decoder B) a rest :
  cod_dom c a -> dec_bind (cod_dec c) k (cod_enc c a ++ rest) = k a rest.
Proof. intros Ha. apply dec_bind_ok. by apply codec_roundtrip. Qed.

#[export] Instance pair_lawful {A B} (c : Codec A) (d : Codec B) :
  LawfulCodec c -> LawfulCodec d -> LawfulCodec (pair_codec c d).
Proof.
  intros Hc Hd. split; simpl.
  - intros [a b] rest [Ha Hb]. simpl in *. rewrite <- app_assoc.
    rewrite dec_bind_codec by done. by rewrite dec_bind_codec by done.
  - intros [a b] [Ha Hb]. simpl in *. rewrite zlen_app.
    apply add_mod_zero; by apply codec_aligned.
  - intros [a b] [Ha Hb]. apply bytes_ok_app. split; by apply codec_bytes.
  - intros src [a b] rest Hok (a' & s1 & E1 & (b' & s2 & E2 & [= <- <- <-])%dec_bind_inv)%dec_bind_inv.
    destruct (codec_sound src a' s1 Hok E1) as (Ha & u1 & -> & H1).
    apply bytes_ok_app in Hok as [_ Hok].
    destruct (codec_sound s1 b' s2 Hok E2) as (Hb & u2 & -> & H2).
    split; [done|]. exists (u1 ++ u2). rewrite app_assoc, zlen_app. auto with nfs.
Qed.

Lemma iso_lawful {A B} (to : A -> B) (from : B -> A) (c : Codec B) :
  LawfulCodec c -> (forall a, from (to a) = a) -> (forall b, to (from b) = b) ->
  LawfulCodec (iso_codec to from c).
Proof.
  intros Hc Hft Htf. split; simpl.
  - intros a rest Ha. rewrite dec_bind_codec by done. unfold dec_ret. by rewrite Hft.
  - intros a Ha. by apply codec_aligned.
  - intros a Ha. by apply codec_bytes.
  - intros src a rest Hok (b & s & E & [= <- <-])%dec_bind_inv.
    rewrite Htf. by apply codec_sound.
Qed.

#[export] Instance bool_lawful : LawfulCodec bool_codec.
Proof.
  assert (Hb : forall b : bool, is_u32 (if b then 1 else 0)) by (intros []; unfold is_u32; lia).
  split; simpl.
  - intros b rest _. unfold decode_bool, encode_bool.
    rewrite (dec_bind_ok _ _ _ _ _ (decode_u32_app _ rest (Hb b))). by destruct b.
  - intros b _. apply (codec_aligned (c := u32_codec) (if b then 1 else 0)), Hb.
  - intros b _. apply (codec_bytes (c := u32_codec) (if b then 1 else 0)), Hb.
  - intros src b rest Hok (v & s & E & Hk)%dec_bind_inv. split; [done|].
    destruct (codec_sound (c := u32_codec) src v s Hok E) as (_ & used & -> & Hu).
    exists used. destruct (v =? 0), (v =? 1); by inversion Hk.
Qed.

#[export] Instance option_lawful {A} (c : Codec A) :
  LawfulCodec c -> LawfulCodec (option_codec c).
Proof.
  intros Hc.
  assert (H0 : is_u32 0) by (unfold is_u32; lia). assert (H1 : is_u32 1) by (unfold is_u32; lia).
  split; simpl.
  - intros [a|] rest Ha; unfold decode_option, encode_option.
    + rewrite <- app_assoc, (dec_bind_ok _ _ _ _ _ (decode_u32_app _ _ H1)). simpl.
      by rewrite dec_bind_codec by done.
    + by rewrite (dec_bind_ok _ _ _ _ _ (decode_u32_app _ _ H0)).
  - intros [a|] Ha; unfold encode_option; [rewrite zlen_app; apply add_mod_zero|].
    + by apply (codec_aligned (c := u32_codec) 1).
    + by apply codec_aligned.
    + by apply (codec_aligned (c := u32_codec) 0).
  - intros [a|] Ha; unfold encode_option; [apply bytes_ok_app; split|].
    + by apply (codec_bytes (c := u32_codec) 1).
    + by apply codec_bytes.
    + by apply (codec_bytes (c := u32_codec) 0).
  - intros src o rest Hok (v & s & E & Hk)%dec_bind_inv.
    destruct (codec_sound (c := u32_codec) src v s Hok E) as (_ & used & -> & Hu).
    apply bytes_ok_app in Hok as [_ Hok].
    destruct (v =? 0); [injection Hk as <- <-; by eauto|]. destruct (v =? 1); [|done].
    apply dec_bind_inv in Hk as (a & s' & E' & [= <- <-]).
    destruct (codec_sound s a s' Hok E') as (Ha & u2 & -> & H2).
    split; [done|]. exists (used ++ u2). rewrite app_assoc, zlen_app. auto with nfs.
Qed.

(** ** Opaques and strings *)

Lemma fixed_tail_app (data rest : bytes) :
  (let pad := xdr_pad (zlen data) in
   if 0 <? pad then drop (Z.to_nat pad) (zeros pad ++ rest) else zeros pad ++ rest) = rest.
Proof.
  cbv zeta. pose proof (xdr_pad_bounds (zlen data)).
  destruct (Z.ltb_spec 0 (xdr_pad (zlen data))) as [Hp|Hp].
  - apply take_drop_app_Z. apply zlen_zeros. lia.
  - replace (xdr_pad (zlen data)) with 0 by lia. done.
Qed.

Lemma decode_fixed_opaque_app data rest :
  decode_fixed_opaque (zlen data) (encode_fixed_opaque data ++ rest) = Ok (data, rest).
Proof.
  pose proof (xdr_pad_bounds (zlen data)). pose proof (zlen_nonneg rest).
  unfold decode_fixed_opaque, encode_fixed_opaque. rewrite <- app_assoc, !zlen_app, zlen_zeros by lia.
  destruct (Z.ltb_spec (zlen data + (xdr_pad (zlen data) + zlen rest))
                       (zlen data + xdr_pad (zlen data))); [lia|].
  unfold split_to.
  destruct (take_drop_app_Z data (zeros (xdr_pad (zlen data)) ++ rest) (zlen data) eq_refl) as [-> ->].
  by rewrite fixed_tail_app.
Qed.

(** What a successful fixed-opaque read has done: the buffer splits into the
    data, fewer than four padding bytes and the rest. *)
Lemma decode_fixed_opaque_inv len src data rest :
  0 <= len -> decode_fixed_opaque len src = Ok (data, rest) ->
  exists padding, src = data ++ padding ++ rest /\ zlen data = len /\
                  zlen padding = xdr_pad len.
Proof.
  intros Hlen. pose proof (xdr_pad_bounds len). unfold decode_fixed_opaque, split_to.
  destruct (Z.ltb_spec (zlen src) (len + xdr_pad len)) as [|Hs]; [done|].
  intros [= <- <-]. exists (take (Z.to_nat (xdr_pad len)) (drop (Z.to_nat len) src)).
  unfold zlen in *. split; [|split].
  - destruct (Z.ltb_spec 0 (xdr_pad len)).
    + by rewrite !take_drop.
    + replace (xdr_pad len) with 0 by lia. simpl. by rewrite take_drop.
  - rewrite length_take. lia.
  - rewrite length_take, length_drop. lia.
Qed.

Lemma fixed_opaque_lawful len :
  0 <= len -> LawfulCodec (fixed_opaque_codec len).
Proof.
  intros Hlen. split; simpl.
  - intros a rest [Ha <-]. apply decode_fixed_opaque_app.
  - intros a [Ha _]. unfold encode_fixed_opaque.
    rewrite zlen_app, zlen_zeros by apply xdr_pad_bounds. apply xdr_pad_aligned.
  - intros a [Ha _]. apply bytes_ok_app. auto with nfs.
  - intros src a rest Hok Hd.
    destruct (decode_fixed_opaque_inv len src a rest Hlen Hd) as (pad & -> & Hl & Hp).
    apply bytes_ok_app in Hok as [Hok _]. split; [done|].
    exists (a ++ pad). split; [by rewrite app_assoc|].
    rewrite zlen_app, Hl, Hp. apply xdr_pad_aligned.
Qed.

Lemma decode_opaque_unfold :
  decode_opaque = dec_bind decode_u32 decode_fixed_opaque.
Proof. done. Qed.

Lemma encode_opaque_unfold data :
  encode_opaque data = encode_u32 (u32_wrap (zlen data)) ++ encode_fixed_opaque data.
Proof. done. Qed.

#[export] Instance opaque_lawful : LawfulCodec opaque_codec.
Proof.
  split; cbn [cod_enc cod_dec cod_dom opaque_codec list_codec].
  - intros a rest [Ha Hl]. rewrite decode_opaque_unfold, encode_opaque_unfold, <- app_assoc.
    rewrite (dec_bind_ok _ _ _ _ _ (decode_u32_app _ _ (u32_wrap_range _))).
    rewrite u32_wrap_small by done. apply decode_fixed_opaque_app.
  - intros a [Ha Hl]. rewrite encode_opaque_unfold, zlen_app. apply add_mod_zero.
    + unfold encode_u32. by rewrite zlen_be.
    + pose proof (fixed_opaque_lawful (zlen a) (zlen_nonneg a)).
      by apply (codec_aligned (c := fixed_opaque_codec (zlen a))).
  - intros a [Ha Hl]. rewrite encode_opaque_unfold. apply bytes_ok_app. split.
    + apply be_bytes_ok.
    + pose proof (fixed_opaque_lawful (zlen a) (zlen_nonneg a)).
      by apply (codec_bytes (c := fixed_opaque_codec (zlen a))).
  - intros src a rest Hok. rewrite decode_opaque_unfold.
    intros (len & s & E & Hd)%dec_bind_inv.
    destruct (codec_sound (c := u32_codec) src len s Hok E) as (Hlen & used & -> & Hu).
    apply bytes_ok_app in Hok as [_ Hok]. simpl in Hlen.
    pose proof (fixed_opaque_lawful len (proj1 Hlen)) as Hlaw.
    destruct (codec_sound (c := fixed_opaque_codec len) s a rest Hok Hd)
      as ((Ha & Hl) & u2 & -> & H2).
    split; [split; [done|by rewrite Hl]|].
    exists (used ++ u2). rewrite app_assoc, zlen_app. auto with nfs.
Qed.

(** Filtering the values of a codec: [decode_opaque_max], [String::from_utf8]. *)
Definition guard_codec {A} (c : Codec A) (p : A -> bool) (e : A -> XdrError) : Codec A :=
  {| cod_enc := cod_enc c;
     cod_dec := let? a := cod_dec c in if p a then dec_ret a else dec_fail (e a);
     cod_dom := fun a => cod_dom c a /\ p a = true |}.

#[export] Instance guard_lawful {A} (c : Codec A) p e :
  LawfulCodec c -> LawfulCodec (guard_codec c p e).
Proof.
  intros Hc. split; cbn [cod_enc cod_dec cod_dom guard_codec].
  - intros a rest [Ha Hp]. rewrite dec_bind_codec by done. by rewrite Hp.
  - intros a [Ha _]. by apply codec_aligned.
  - intros a [Ha _]. by apply codec_bytes.
  - intros src a rest Hok (b & s & E & Hk)%dec_bind_inv.
    destruct (p b) eqn:Hp; [|done]. injection Hk as <- <-.
    destruct (codec_sound src b s Hok E). done.
Qed.

(** Two codecs with the same encoder and decoder and equivalent domains are
    equally lawful. *)
Lemma lawful_ext {A} (c d : Codec A) :
  (forall a, cod_enc c a = cod_enc d a) -> (forall src, cod_dec c src = cod_dec d src) ->
  (forall a, cod_dom c a <-> cod_dom d a) -> LawfulCodec c -> LawfulCodec d.
Proof.
  intros He Hd Ho Hc. split.
  - intros a rest Ha. rewrite <- He, <- Hd. by apply codec_roundtrip, Ho.
  - intros a Ha. rewrite <- He. by apply codec_aligned, Ho.
  - intros a Ha. rewrite <- He. by apply codec_bytes, Ho.
  - intros src a rest Hok E. rewrite <- Ho. rewrite <- Hd in E. by apply codec_sound.
Qed.

#[export] Instance string_lawful : LawfulCodec string_codec.
Proof.
  eapply (lawful_ext (guard_codec opaque_codec utf8_valid (fun _ => InvalidUtf8))); try done.
  apply _.
Qed.

#[export] Instance opaque_max_lawful max : LawfulCodec (opaque_max_codec max).
Proof.
  eapply (lawful_ext (guard_codec opaque_codec (fun d => negb (max <? zlen d))
                        (fun d => OpaqueTooLong (zlen d)))).
  - done.
  - intros src. simpl. unfold decode_opaque_max, dec_bind.
    destruct (decode_opaque src) as [[d s]|]; [|done]. by destruct (max <? zlen d).
  - intros d. simpl. rewrite negb_true_iff, Z.ltb_ge. done.
  - apply _.
Qed.

#[export] Instance string_max_lawful max : LawfulCodec (string_max_codec max).
Proof.
  eapply (lawful_ext (guard_codec (opaque_max_codec max) utf8_valid (fun _ => InvalidUtf8))).
  - done.
  - done.
  - intros s. simpl. unfold string_ok. tauto.
  - apply _.
Qed.

(** ** Arrays *)

Fixpoint loop_nat {E S} (step : S -> result E S) (n : nat) (s : S) : result E S :=
  match n with
  | O => Ok s
  | Datatypes.S n' => match step s with Ok s' => loop_nat step n' s' | Err e => Err e end
  end.

Lemma loop_nat_add {E S} (step : S -> result E S) n m s :
  loop_nat step (n + m) s =
  match loop_nat step n s with Ok s' => loop_nat step m s' | Err e => Err e end.
Proof.
  revert s. induction n as [|n IH]; intros s; simpl; [done|].
  destruct (step s); [apply IH|done].
Qed.

(** The binary loop runs its body exactly as often as the source's counter
    says. *)
Lemma loop_pos_nat {E S} (step : S -> result E S) p s :
  loop_pos step p s = loop_nat step (Pos.to_nat p) s.
Proof.
  revert s. induction p as [p IH|p IH|]; intros s; cbn [loop_pos].
  - rewrite Pos2Nat.inj_xI. replace (Datatypes.S (2 * Pos.to_nat p))
      with (1 + (Pos.to_nat p + Pos.to_nat p))%nat by lia.
    rewrite loop_nat_add. simpl. destruct (step s); [|done].
    rewrite loop_nat_add, IH. by destruct (loop_nat _ _ _).
  - rewrite Pos2Nat.inj_xO. replace (2 * Pos.to_nat p)%nat
      with (Pos.to_nat p + Pos.to_nat p)%nat by lia.
    rewrite loop_nat_add, IH. by destruct (loop_nat _ _ _).
  - simpl. by destruct (step s).
Qed.

Lemma loop_times_nat {E S} (step : S -> result E S) n s :
  0 <= n -> loop_times step n s = loop_nat step (Z.to_nat n) s.
Proof. intros Hn. destruct n; [done|apply loop_pos_nat|lia]. Qed.

Section list_codec_laws.
Context {A : Type} (c : Codec A) `{!LawfulCodec c}.

Lemma decode_items_app l acc rest :
  Forall (cod_dom c) l ->
  loop_nat (decode_item (cod_dec c)) (length l) (acc, flat_map (cod_enc c) l ++ rest)
  = Ok (acc ++ l, rest).
Proof.
  revert acc. induction l as [|a l IH]; intros acc Hl; simpl.
  { by rewrite app_nil_r. }
  inversion_clear Hl as [|? ? Ha Hl']. rewrite <- app_assoc.
  unfold decode_item at 1. simpl. rewrite codec_roundtrip by done.
  rewrite IH by done. by rewrite <- app_assoc.
Qed.

Lemma decode_items_sound n acc src l rest :
  bytes_ok src ->
  loop_nat (decode_item (cod_dec c)) n (acc, src) = Ok (l, rest) ->
  exists l' used, l = acc ++ l' /\ length l' = n /\ Forall (cod_dom c) l' /\
                  src = used ++ rest /\ zlen used mod 4 = 0.
Proof.
  revert acc src. induction n as [|n IH]; intros acc src Hok; simpl.
  { intros [= <- <-]. exists [], []. rewrite app_nil_r. done. }
  unfold decode_item at 1. simpl. destruct (cod_dec c src) as [[a s]|] eqn:E; [|done].
  intros Hl. destruct (codec_sound src a s Hok E) as (Ha & u1 & -> & H1).
  apply bytes_ok_app in Hok as [_ Hok].
  destruct (IH _ _ Hok Hl) as (l' & u2 & -> & Hlen & Hf & -> & H2).
  exists (a :: l'), (u1 ++ u2). simpl.
  rewrite <- !app_assoc, zlen_app, Hlen.
  split_and!; auto with nfs.
Qed.

Lemma encode_items_aligned l :
  Forall (cod_dom c) l -> zlen (flat_map (cod_enc c) l) mod 4 = 0.
Proof.
  induction 1 as [|a l Ha Hl IH]; [done|]. simpl. rewrite zlen_app.
  apply add_mod_zero; [by apply codec_aligned|done].
Qed.

Lemma encode_items_ok l :
  Forall (cod_dom c) l -> bytes_ok (flat_map (cod_enc c) l).
Proof.
  induction 1 as [|a l Ha Hl IH]; [by constructor|].
  apply bytes_ok_app. split; [by apply codec_bytes|done].
Qed.

#[export] Instance list_lawful : LawfulCodec (list_codec c).
Proof.
  split; cbn [cod_enc cod_dec cod_dom opaque_codec list_codec].
  - intros l rest [Hl Hn]. unfold decode_list, encode_list. rewrite <- app_assoc.
    rewrite (dec_bind_ok _ _ _ _ _ (decode_u32_app _ _ (u32_wrap_range _))).
    rewrite u32_wrap_small by done. rewrite loop_times_nat by apply zlen_nonneg.
    unfold zlen. rewrite Nat2Z.id. by apply decode_items_app.
  - intros l [Hl _]. unfold encode_list. rewrite zlen_app. apply add_mod_zero.
    + unfold encode_u32. by rewrite zlen_be.
    + by apply encode_items_aligned.
  - intros l [Hl _]. apply bytes_ok_app. split; [apply be_bytes_ok|by apply encode_items_ok].
  - intros src l rest Hok (n & s & E & Hd)%dec_bind_inv.
    destruct (codec_sound (c := u32_codec) src n s Hok E) as (Hn & u1 & -> & H1).
    simpl in Hn. apply bytes_ok_app in Hok as [_ Hok].
    rewrite loop_times_nat in Hd by apply Hn.
    destruct (decode_items_sound _ _ _ _ _ Hok Hd) as (l' & u2 & -> & Hlen & Hf & -> & H2).
    split; [split; [done|]|].
    + unfold zlen. simpl. rewrite Hlen, Z2Nat.id by apply Hn. done.
    + exists (u1 ++ u2). rewrite app_assoc, zlen_app. auto with nfs.
Qed.

(** A list decoder never returns more or fewer elements than announced. *)
Lemma decode_list_count src l rest :
  bytes_ok src -> decode_list (cod_dec c) src = Ok (l, rest) ->
  exists s, decode_u32 src = Ok (zlen l, s).
Proof.
  intros Hok (n & s & E & Hd)%dec_bind_inv. exists s. rewrite E.
  destruct (codec_sound (c := u32_codec) src n s Hok E) as (Hn & u1 & -> & H1).
  simpl in Hn. apply bytes_ok_app in Hok as [_ Hok]. rewrite loop_times_nat in Hd by apply Hn.
  destruct (decode_items_sound _ _ _ _ _ Hok Hd) as (l' & u2 & -> & Hlen & _).
  simpl. unfold zlen. rewrite Hlen, Z2Nat.id by apply Hn. done.
Qed.

#[export] Instance list_max_lawful max : LawfulCodec (list_max_codec c max).
Proof.
  assert (Hdec : forall src, decode_list_max (cod_dec c) max src =
    match decode_u32 src with
    | Ok (n, _) => if max <? n then Err (OpaqueTooLong n) else decode_list (cod_dec c) src
    | Err e => Err e
    end).
  { intros src. unfold decode_list_max, decode_list, dec_bind.
    destruct (decode_u32 src) as [[n s]|]; [|done]. by destruct (max <? n). }
  split.
  - intros l rest [[Hl Hn] Hm]. cbn [cod_enc cod_dec list_max_codec]. rewrite Hdec.
    unfold encode_list at 1. rewrite <- app_assoc, decode_u32_app by apply u32_wrap_range.
    rewrite u32_wrap_small by done.
    destruct (Z.ltb_spec max (zlen l)); [lia|].
    by apply (codec_roundtrip (c := list_codec c)).
  - intros l [Hl Hm]. by apply (codec_aligned (c := list_codec c)).
  - intros l [Hl Hm]. by apply (codec_bytes (c := list_codec c)).
  - intros src l rest Hok. cbn [cod_dec cod_dom list_max_codec]. rewrite Hdec.
    destruct (decode_u32 src) as [[n s]|] eqn:E; [|done].
    destruct (Z.ltb_spec max n); [done|]. intros Hd.
    destruct (decode_list_count src l rest Hok Hd) as [s' E'].
    rewrite E in E'. injection E' as -> ->.
    destruct (codec_sound (c := list_codec c) src l rest Hok Hd). done.
Qed.
End list_codec_laws.
