(* ===== verification/Rpc.v ===== *)
(** * ONC RPC messages (crates/embednfs-proto/src/rpc.rs)

    The RPC call header the server decodes, the credentials it carries, and
    the reply headers the server (and its callback client) produce and read.
    The theorems are the round trips of each message through the wire and the
    classification of the four reply forms by the reply decoder. *)

From stdpp Require Import base gmap list sets strings numbers.
From Stdlib Require Import ZArith Lia.
From S2P Require Import Prelude Xdr.

Local Open Scope Z_scope.
Local Open Scope nfs_scope.

Definition RPC_VERSION : Z := 2.
Definition NFS_PROGRAM : Z := 100003.
Definition NFS_V4 : Z := 4.
Definition NFS_CB_PROGRAM : Z := 1073741824.

Inductive MsgType := Call | Reply.
Definition MsgType_u32 (m : MsgType) : Z := match m with Call => 0 | Reply => 1 end.
Definition encode_MsgType (m : MsgType) : bytes := encode_u32 (MsgType_u32 m).
Definition decode_MsgType : decoder MsgType :=
  let? v := decode_u32 in
  if v =? 0 then dec_ret Call
  else if v =? 1 then dec_ret Reply
  else dec_fail (InvalidEnum v).

Inductive ReplyStat := Accepted | Denied.
Definition ReplyStat_u32 (r : ReplyStat) : Z := match r with Accepted => 0 | Denied => 1 end.
Definition encode_ReplyStat (r : ReplyStat) : bytes := encode_u32 (ReplyStat_u32 r).
Definition decode_ReplyStat : decoder ReplyStat :=
  let? v := decode_u32 in
  if v =? 0 then dec_ret Accepted
  else if v =? 1 then dec_ret Denied
  else dec_fail (InvalidEnum v).

Inductive AcceptStat :=
| Success | ProgUnavail | ProgMismatch | ProcUnavail | GarbageArgs | SystemErr.
Definition AcceptStat_u32 (a : AcceptStat) : Z :=
  match a with
  | Success => 0 | ProgUnavail => 1 | ProgMismatch => 2
  | ProcUnavail => 3 | GarbageArgs => 4 | SystemErr => 5
  end.
Definition encode_AcceptStat (a : AcceptStat) : bytes := encode_u32 (AcceptStat_u32 a).
Definition decode_AcceptStat : decoder AcceptStat :=
  let? v := decode_u32 in
  if v =? 0 then dec_ret Success
  else if v =? 1 then dec_ret ProgUnavail
  else if v =? 2 then dec_ret ProgMismatch
  else if v =? 3 then dec_ret ProcUnavail
  else if v =? 4 then dec_ret GarbageArgs
  else if v =? 5 then dec_ret SystemErr
  else dec_fail (InvalidEnum v).

Inductive AuthStat :=
| AuthOk | BadCred | RejectedCred | BadVerf | RejectedVerf | TooWeak | InvalidResp
| Failed | KerbGeneric | TimeExpire | TktFile | AuthDecode | NetAddr
| RpcsecGssCredProblem | RpcsecGssCtxProblem.
Definition AuthStat_u32 (a : AuthStat) : Z :=
  match a with
  | AuthOk => 0 | BadCred => 1 | RejectedCred => 2 | BadVerf => 3 | RejectedVerf => 4
  | TooWeak => 5 | InvalidResp => 6 | Failed => 7 | KerbGeneric => 8 | TimeExpire => 9
  | TktFile => 10 | AuthDecode => 11 | NetAddr => 12
  | RpcsecGssCredProblem => 13 | RpcsecGssCtxProblem => 14
  end.
Definition encode_AuthStat (a : AuthStat) : bytes := encode_u32 (AuthStat_u32 a).

Inductive AuthFlavor := AuthNone | AuthSys | AuthShort | AuthDh | RpcSecGss.
Definition AuthFlavor_u32 (f : AuthFlavor) : Z :=
  match f with AuthNone => 0 | AuthSys => 1 | AuthShort => 2 | AuthDh => 3 | RpcSecGss => 6 end.
Definition decode_AuthFlavor : decoder AuthFlavor :=
  let? v := decode_u32 in
  if v =? 0 then dec_ret AuthNone
  else if v =? 1 then dec_ret AuthSys
  else if v =? 2 then dec_ret AuthShort
  else if v =? 3 then dec_ret AuthDh
  else if v =? 6 then dec_ret RpcSecGss
  else dec_fail (InvalidEnum v).
Definition encode_AuthFlavor (f : AuthFlavor) : bytes := encode_u32 (AuthFlavor_u32 f).

Record OpaqueAuth := mkOpaqueAuth { oa_flavor : Z; oa_body : bytes }.
#[export] Instance OpaqueAuth_eq_dec : EqDecision OpaqueAuth.
Proof. solve_decision. Defined.

Definition encode_OpaqueAuth (a : OpaqueAuth) : bytes :=
  encode_u32 (oa_flavor a) ++ encode_opaque (oa_body a).
Definition decode_OpaqueAuth : decoder OpaqueAuth :=
  let? flavor := decode_u32 in
  let? body := decode_opaque_max 400 in
  dec_ret (mkOpaqueAuth flavor body).
Definition OpaqueAuth_null : OpaqueAuth := mkOpaqueAuth 0 [].

Record AuthSysParams := mkAuthSysParams {
  as_stamp : Z;
  as_machinename : bytes;
  as_uid : Z;
  as_gid : Z;
  as_gids : list Z;
}.
#[export] Instance AuthSysParams_eq_dec : EqDecision AuthSysParams.
Proof. solve_decision. Defined.

Definition decode_AuthSysParams : decoder AuthSysParams :=
  let? stamp := decode_u32 in
  let? machinename := decode_string_max 255 in
  let? uid := decode_u32 in
  let? gid := decode_u32 in
  let? gids := decode_list_max decode_u32 16 in
  dec_ret (mkAuthSysParams stamp machinename uid gid gids).

Definition encode_AuthSysParams (p : AuthSysParams) : bytes :=
  encode_u32 (as_stamp p) ++ encode_string (as_machinename p) ++
  encode_u32 (as_uid p) ++ encode_u32 (as_gid p) ++
  encode_u32 (u32_wrap (zlen (as_gids p))) ++ flat_map encode_u32 (as_gids p).

Record RpcCallHeader := mkRpcCallHeader {
  rc_xid : Z;
  rc_rpcvers : Z;
  rc_prog : Z;
  rc_vers : Z;
  rc_proc_num : Z;
  rc_cred : OpaqueAuth;
  rc_verf : OpaqueAuth;
}.

Definition decode_RpcCallHeader : decoder RpcCallHeader :=
  let? xid := decode_u32 in
  let? msg_type := decode_u32 in
  if negb (msg_type =? 0) then dec_fail (InvalidEnum msg_type) else
  let? rpcvers := decode_u32 in
  let? prog := decode_u32 in
  let? vers := decode_u32 in
  let? proc_num := decode_u32 in
  let? cred := decode_OpaqueAuth in
  let? verf := decode_OpaqueAuth in
  dec_ret (mkRpcCallHeader xid rpcvers prog vers proc_num cred verf).

Record RpcAcceptedReply := mkRpcAcceptedReply {
  rr_xid : Z;
  rr_verf : OpaqueAuth;
  rr_accept_stat : AcceptStat;
}.

Definition decode_RpcAcceptedReply : decoder RpcAcceptedReply :=
  let? xid := decode_u32 in
  let? msg_type := decode_MsgType in
  match msg_type with
  | Call => dec_fail (InvalidEnum (MsgType_u32 msg_type))
  | Reply =>
    let? reply_stat := decode_ReplyStat in
    match reply_stat with
    | Denied => dec_fail (InvalidEnum (ReplyStat_u32 reply_stat))
    | Accepted =>
      let? verf := decode_OpaqueAuth in
      let? accept_stat := decode_AcceptStat in
      dec_ret (mkRpcAcceptedReply xid verf accept_stat)
    end
  end.

Definition encode_rpc_call (xid prog vers proc_num : Z) (cred verf : OpaqueAuth) : bytes :=
  encode_u32 xid ++ encode_MsgType Call ++ encode_u32 RPC_VERSION ++
  encode_u32 prog ++ encode_u32 vers ++ encode_u32 proc_num ++
  encode_OpaqueAuth cred ++ encode_OpaqueAuth verf.

Definition encode_rpc_reply_accepted (xid : Z) : bytes :=
  encode_u32 xid ++ encode_MsgType Reply ++ encode_ReplyStat Accepted ++
  encode_OpaqueAuth OpaqueAuth_null ++ encode_AcceptStat Success.

Definition encode_rpc_reply_prog_mismatch (xid low high : Z) : bytes :=
  encode_u32 xid ++ encode_MsgType Reply ++ encode_ReplyStat Accepted ++
  encode_OpaqueAuth OpaqueAuth_null ++ encode_AcceptStat ProgMismatch ++
  encode_u32 low ++ encode_u32 high.

Definition encode_rpc_reply_proc_unavail (xid : Z) : bytes :=
  encode_u32 xid ++ encode_MsgType Reply ++ encode_ReplyStat Accepted ++
  encode_OpaqueAuth OpaqueAuth_null ++ encode_AcceptStat ProcUnavail.

Definition encode_rpc_reply_auth_error (xid : Z) (auth : AuthStat) : bytes :=
  encode_u32 xid ++ encode_MsgType Reply ++ encode_ReplyStat Denied ++
  encode_u32 1 ++ encode_AuthStat auth.

(** ** Well-formed values *)

Definition OpaqueAuth_ok (a : OpaqueAuth) : Prop :=
  is_u32 (oa_flavor a) /\ (opaque_ok (oa_body a) /\ zlen (oa_body a) <= 400).

Definition AuthSysParams_ok (p : AuthSysParams) : Prop :=
  is_u32 (as_stamp p) /\
  (string_ok (as_machinename p) /\ zlen (as_machinename p) <= 255) /\
  is_u32 (as_uid p) /\ is_u32 (as_gid p) /\
  ((Forall is_u32 (as_gids p) /\ is_u32 (zlen (as_gids p))) /\ zlen (as_gids p) <= 16).

(** ** Lemmas *)

(** Reading back a [u32] that a continuation inspects. *)
Lemma bind_u32 {A} (v : Z) (k : Z -> decoder A) rest :
  is_u32 v -> dec_bind decode_u32 k (encode_u32 v ++ rest) = k v rest.
Proof. intros Hv. apply dec_bind_ok. by apply decode_u32_app. Qed.

Lemma bind_MsgType {A} m (k : MsgType -> decoder A) rest :
  dec_bind decode_MsgType k (encode_MsgType m ++ rest) = k m rest.
Proof.
  apply dec_bind_ok. unfold decode_MsgType, encode_MsgType.
  rewrite bind_u32 by (destruct m; unfold is_u32; simpl; lia). by destruct m.
Qed.

Lemma bind_ReplyStat {A} m (k : ReplyStat -> decoder A) rest :
  dec_bind decode_ReplyStat k (encode_ReplyStat m ++ rest) = k m rest.
Proof.
  apply dec_bind_ok. unfold decode_ReplyStat, encode_ReplyStat.
  rewrite bind_u32 by (destruct m; unfold is_u32; simpl; lia). by destruct m.
Qed.

Lemma bind_AcceptStat {A} m (k : AcceptStat -> decoder A) rest :
  dec_bind decode_AcceptStat k (encode_AcceptStat m ++ rest) = k m rest.
Proof.
  apply dec_bind_ok. unfold decode_AcceptStat, encode_AcceptStat.
  rewrite bind_u32 by (destruct m; unfold is_u32; simpl; lia). by destruct m.
Qed.

Lemma AuthFlavor_roundtrip f rest :
  decode_AuthFlavor (encode_AuthFlavor f ++ rest) = Ok (f, rest).
Proof.
  unfold decode_AuthFlavor, encode_AuthFlavor.
  rewrite bind_u32 by (destruct f; unfold is_u32; simpl; lia). by destruct f.
Qed.

Lemma bind_OpaqueAuth {A} a (k : OpaqueAuth -> decoder A) rest :
  OpaqueAuth_ok a -> dec_bind decode_OpaqueAuth k (encode_OpaqueAuth a ++ rest) = k a rest.
Proof.
  intros [Hf Hb]. apply dec_bind_ok. unfold decode_OpaqueAuth, encode_OpaqueAuth.
  rewrite <- app_assoc, bind_u32 by done.
  rewrite (dec_bind_codec (opaque_max_codec 400) _ (oa_body a)) by done.
  by destruct a.
Qed.

Lemma OpaqueAuth_null_ok : OpaqueAuth_ok OpaqueAuth_null.
Proof.
  unfold OpaqueAuth_ok, opaque_ok, bytes_ok, is_u32, zlen. simpl.
  split_and!; [lia..|constructor|lia|lia|lia].
Qed.
#[export] Hint Resolve OpaqueAuth_null_ok : nfs.

Lemma AuthSysParams_app p rest :
  AuthSysParams_ok p ->
  decode_AuthSysParams (encode_AuthSysParams p ++ rest) = Ok (p, rest).
Proof.
  intros (Hs & Hm & Hu & Hg & Hl). unfold decode_AuthSysParams, encode_AuthSysParams.
  rewrite <- !app_assoc, bind_u32 by done.
  rewrite (dec_bind_codec (string_max_codec 255)) by done.
  rewrite !bind_u32 by done.
  pose proof (codec_roundtrip (c := list_max_codec u32_codec 16) (as_gids p) rest Hl) as Hr.
  cbn [cod_enc cod_dec list_max_codec u32_codec] in Hr. unfold encode_list in Hr.
  rewrite <- app_assoc in Hr. rewrite (dec_bind_ok _ _ _ _ _ Hr). by destruct p.
Qed.

(** ** Theorems *)

(** An RPC call header written by [encode_rpc_call] is read back by the
    server's [RpcCallHeader] decoder with exactly the same fields, RPC
    version 2, and with the call body untouched, for all credentials and
    verifiers within the 400-byte limit of RFC 5531. *)
Theorem rpc_call_roundtrip xid prog vers proc_num cred verf body :
  is_u32 xid -> is_u32 prog -> is_u32 vers -> is_u32 proc_num ->
  OpaqueAuth_ok cred -> OpaqueAuth_ok verf ->
  decode_RpcCallHeader (encode_rpc_call xid prog vers proc_num cred verf ++ body) =
  Ok (mkRpcCallHeader xid RPC_VERSION prog vers proc_num cred verf, body).
Proof.
  intros Hx Hp Hv Hn Hc Hf. unfold decode_RpcCallHeader, encode_rpc_call, encode_MsgType.
  rewrite <- !app_assoc, bind_u32 by done.
  rewrite bind_u32 by (unfold is_u32; simpl; lia). cbn [MsgType_u32 negb Z.eqb].
  rewrite bind_u32 by (unfold is_u32, RPC_VERSION; lia).
  rewrite !bind_u32 by done. by rewrite !bind_OpaqueAuth by done.
Qed.

Lemma rpc_call_roundtrip_witness :
  decode_RpcCallHeader
    (encode_rpc_call 7 NFS_PROGRAM NFS_V4 1 (mkOpaqueAuth 1 [1; 2; 3; 4; 5]) OpaqueAuth_null
     ++ [9; 9; 9; 9]) =
  Ok (mkRpcCallHeader 7 2 100003 4 1 (mkOpaqueAuth 1 [1; 2; 3; 4; 5]) OpaqueAuth_null,
      [9; 9; 9; 9]).
Proof.
  apply (rpc_call_roundtrip 7 NFS_PROGRAM NFS_V4 1 (mkOpaqueAuth 1 [1; 2; 3; 4; 5])
           OpaqueAuth_null [9; 9; 9; 9]).
  1-4: unfold is_u32, NFS_PROGRAM, NFS_V4; lia.
  - unfold OpaqueAuth_ok, opaque_ok, bytes_ok, is_u32, is_u8, zlen; simpl.
    split_and!; try lia. repeat constructor; lia.
  - apply OpaqueAuth_null_ok.
Defined.

(** The reply decoder tells the four reply forms of the server apart:
    an accepted reply, a PROG_MISMATCH (whose version bounds stay in the
    body) and a PROC_UNAVAIL decode with the caller's xid and a null
    verifier, and a reply denied for authentication is refused with the
    reply-status discriminant. *)
Theorem rpc_reply_classified xid low high auth body :
  is_u32 xid ->
  decode_RpcAcceptedReply (encode_rpc_reply_accepted xid ++ body) =
    Ok (mkRpcAcceptedReply xid OpaqueAuth_null Success, body) /\
  decode_RpcAcceptedReply (encode_rpc_reply_prog_mismatch xid low high ++ body) =
    Ok (mkRpcAcceptedReply xid OpaqueAuth_null ProgMismatch,
        encode_u32 low ++ encode_u32 high ++ body) /\
  decode_RpcAcceptedReply (encode_rpc_reply_proc_unavail xid ++ body) =
    Ok (mkRpcAcceptedReply xid OpaqueAuth_null ProcUnavail, body) /\
  decode_RpcAcceptedReply (encode_rpc_reply_auth_error xid auth ++ body) =
    Err (InvalidEnum 1).
Proof.
  intros Hx. unfold decode_RpcAcceptedReply, encode_rpc_reply_accepted,
    encode_rpc_reply_prog_mismatch, encode_rpc_reply_proc_unavail, encode_rpc_reply_auth_error.
  rewrite <- !app_assoc, !bind_u32, !bind_MsgType, !bind_ReplyStat by done.
  rewrite !bind_OpaqueAuth by auto with nfs. by rewrite !bind_AcceptStat.
Qed.

Lemma rpc_reply_classified_witness :
  decode_RpcAcceptedReply (encode_rpc_reply_auth_error 5 BadCred) = Err (InvalidEnum 1).
Proof.
  pose proof (rpc_reply_classified 5 0 0 BadCred []) as H. rewrite app_nil_r in H.
  apply H. unfold is_u32; lia.
Defined.

(** AUTH_SYS credentials survive the wire, supplementary groups
    included, within the limits the decoder enforces (255 bytes of machine
    name, 16 groups). *)
Theorem AuthSysParams_roundtrip p rest :
  AuthSysParams_ok p ->
  decode_AuthSysParams (encode_AuthSysParams p ++ rest) = Ok (p, rest).
Proof. apply AuthSysParams_app. Qed.

Lemma AuthSysParams_roundtrip_witness :
  decode_AuthSysParams (encode_AuthSysParams (mkAuthSysParams 1 [104; 111] 0 0 [4; 27]) ++ [0])
  = Ok (mkAuthSysParams 1 [104; 111] 0 0 [4; 27], [0]).
Proof.
  apply AuthSysParams_roundtrip.
  unfold AuthSysParams_ok, string_ok, opaque_ok, bytes_ok, is_u32, is_u8, zlen; simpl.
  split_and!; try lia; try done; repeat constructor; lia.
Defined.
