(* ===== verification/Types.v ===== *)
(** * Protocol data types (crates/embednfs-proto/src/types/{basic,session,constants}.rs)

    Status codes, stateids, bitmaps, timestamps, attributes and the argument
    and result records of the session operations, with their XDR encoders and
    decoders.  Rust's fixed-size byte arrays ([[u8; 12]] and friends) are byte
    strings whose length is part of the type's well-formedness. *)

From stdpp Require Import base gmap list sets strings numbers.
From Stdlib Require Import ZArith Lia.
From S2P Require Import Prelude Xdr Rpc.

Local Open Scope Z_scope.
Local Open Scope nfs_scope.

(** ** Status codes *)

Inductive NfsStat4 :=
| NFS_Ok | NFS_Perm | NFS_Noent | NFS_Io | NFS_Nxio
| NFS_Access | NFS_Exist | NFS_Xdev | NFS_Notdir | NFS_Isdir
| NFS_Inval | NFS_Fbig | NFS_Nospc | NFS_Rofs | NFS_Mlink
| NFS_Nametoolong | NFS_Notempty | NFS_Dquot | NFS_Stale | NFS_Badhandle
| NFS_BadCookie | NFS_Notsupp | NFS_Toosmall | NFS_Serverfault | NFS_Badtype
| NFS_Delay | NFS_Same | NFS_Denied | NFS_Expired | NFS_Locked
| NFS_Grace | NFS_Fhexpired | NFS_ShareDenied | NFS_WrongSec | NFS_ClidInuse
| NFS_Moved | NFS_Nofilehandle | NFS_MinorVersMismatch | NFS_StaleClientid | NFS_StaleStateid
| NFS_OldStateid | NFS_BadStateid | NFS_BadSeqid | NFS_NotSame | NFS_LockRange
| NFS_Symlink | NFS_Restorefh | NFS_LeaseMoved | NFS_AttrNotsupp | NFS_NoGrace
| NFS_ReclaimBad | NFS_ReclaimConflict | NFS_BadXdr | NFS_LocksHeld | NFS_Openmode
| NFS_BadOwner | NFS_Badchar | NFS_Badname | NFS_BadRange | NFS_LockNotsupp
| NFS_OpIllegal | NFS_Deadlock | NFS_FileOpen | NFS_AdminRevoked | NFS_CbPathDown
| NFS_BadIomode | NFS_BadLayout | NFS_BadSessionDigest | NFS_BadSession | NFS_BadSlot
| NFS_CompleteAlready | NFS_ConnNotBoundToSession | NFS_DelegAlreadyWanted | NFS_BackChanBusy | NFS_LayoutTrylater
| NFS_LayoutUnavailable | NFS_NomatchingLayout | NFS_RecallConflict | NFS_UnknownLayouttype | NFS_SeqMisordered
| NFS_SequencePos | NFS_ReqTooBig | NFS_RepTooBig | NFS_RepTooBigToCache | NFS_RetryUncachedRep
| NFS_UnsafeCompound | NFS_TooManyOps | NFS_OpNotInSession | NFS_HashAlgUnsupp | NFS_ClientidBusy
| NFS_PnfsIoHole | NFS_SeqFalseRetry | NFS_BadHighSlot | NFS_DeadSession | NFS_EncrAlgUnsupp
| NFS_PnfsNoLayout | NFS_NotOnlyOp | NFS_WrongCred | NFS_WrongType | NFS_DirDelegUnavail
| NFS_RejectDeleg | NFS_ReturnConflict | NFS_DelegRevoked | NFS_NoXattr | NFS_Xattr2Big.

Definition NfsStat4_u32 (s : NfsStat4) : Z :=
  match s with
  | NFS_Ok => 0   | NFS_Perm => 1   | NFS_Noent => 2   | NFS_Io => 5
  | NFS_Nxio => 6   | NFS_Access => 13   | NFS_Exist => 17   | NFS_Xdev => 18
  | NFS_Notdir => 20   | NFS_Isdir => 21   | NFS_Inval => 22   | NFS_Fbig => 27
  | NFS_Nospc => 28   | NFS_Rofs => 30   | NFS_Mlink => 31   | NFS_Nametoolong => 63
  | NFS_Notempty => 66   | NFS_Dquot => 69   | NFS_Stale => 70   | NFS_Badhandle => 10001
  | NFS_BadCookie => 10003   | NFS_Notsupp => 10004   | NFS_Toosmall => 10005   | NFS_Serverfault => 10006
  | NFS_Badtype => 10007   | NFS_Delay => 10008   | NFS_Same => 10009   | NFS_Denied => 10010
  | NFS_Expired => 10011   | NFS_Locked => 10012   | NFS_Grace => 10013   | NFS_Fhexpired => 10014
  | NFS_ShareDenied => 10015   | NFS_WrongSec => 10016   | NFS_ClidInuse => 10017   | NFS_Moved => 10019
  | NFS_Nofilehandle => 10020   | NFS_MinorVersMismatch => 10021   | NFS_StaleClientid => 10022   | NFS_StaleStateid => 10023
  | NFS_OldStateid => 10024   | NFS_BadStateid => 10025   | NFS_BadSeqid => 10026   | NFS_NotSame => 10027
  | NFS_LockRange => 10028   | NFS_Symlink => 10029   | NFS_Restorefh => 10030   | NFS_LeaseMoved => 10031
  | NFS_AttrNotsupp => 10032   | NFS_NoGrace => 10033   | NFS_ReclaimBad => 10034   | NFS_ReclaimConflict => 10035
  | NFS_BadXdr => 10036   | NFS_LocksHeld => 10037   | NFS_Openmode => 10038   | NFS_BadOwner => 10039
  | NFS_Badchar => 10040   | NFS_Badname => 10041   | NFS_BadRange => 10042   | NFS_LockNotsupp => 10043
  | NFS_OpIllegal => 10044   | NFS_Deadlock => 10045   | NFS_FileOpen => 10046   | NFS_AdminRevoked => 10047
  | NFS_CbPathDown => 10048   | NFS_BadIomode => 10049   | NFS_BadLayout => 10050   | NFS_BadSessionDigest => 10051
  | NFS_BadSession => 10052   | NFS_BadSlot => 10053   | NFS_CompleteAlready => 10054   | NFS_ConnNotBoundToSession => 10055
  | NFS_DelegAlreadyWanted => 10056   | NFS_BackChanBusy => 10057   | NFS_LayoutTrylater => 10058   | NFS_LayoutUnavailable => 10059
  | NFS_NomatchingLayout => 10060   | NFS_RecallConflict => 10061   | NFS_UnknownLayouttype => 10062   | NFS_SeqMisordered => 10063
  | NFS_SequencePos => 10064   | NFS_ReqTooBig => 10065   | NFS_RepTooBig => 10066   | NFS_RepTooBigToCache => 10067
  | NFS_RetryUncachedRep => 10068   | NFS_UnsafeCompound => 10069   | NFS_TooManyOps => 10070   | NFS_OpNotInSession => 10071
  | NFS_HashAlgUnsupp => 10072   | NFS_ClientidBusy => 10074   | NFS_PnfsIoHole => 10075   | NFS_SeqFalseRetry => 10076
  | NFS_BadHighSlot => 10077   | NFS_DeadSession => 10078   | NFS_EncrAlgUnsupp => 10079   | NFS_PnfsNoLayout => 10080
  | NFS_NotOnlyOp => 10081   | NFS_WrongCred => 10082   | NFS_WrongType => 10083   | NFS_DirDelegUnavail => 10084
  | NFS_RejectDeleg => 10085   | NFS_ReturnConflict => 10086   | NFS_DelegRevoked => 10087   | NFS_NoXattr => 10095
  | NFS_Xattr2Big => 10096
  end.

Definition NfsStat4_from_u32 (v : Z) : option NfsStat4 :=
  if v =? 0 then Some NFS_Ok else
  if v =? 1 then Some NFS_Perm else
  if v =? 2 then Some NFS_Noent else
  if v =? 5 then Some NFS_Io else
  if v =? 6 then Some NFS_Nxio else
  if v =? 13 then Some NFS_Access else
  if v =? 17 then Some NFS_Exist else
  if v =? 18 then Some NFS_Xdev else
  if v =? 20 then Some NFS_Notdir else
  if v =? 21 then Some NFS_Isdir else
  if v =? 22 then Some NFS_Inval else
  if v =? 27 then Some NFS_Fbig else
  if v =? 28 then Some NFS_Nospc else
  if v =? 30 then Some NFS_Rofs else
  if v =? 31 then Some NFS_Mlink else
  if v =? 63 then Some NFS_Nametoolong else
  if v =? 66 then Some NFS_Notempty else
  if v =? 69 then Some NFS_Dquot else
  if v =? 70 then Some NFS_Stale else
  if v =? 10001 then Some NFS_Badhandle else
  if v =? 10003 then Some NFS_BadCookie else
  if v =? 10004 then Some NFS_Notsupp else
  if v =? 10005 then Some NFS_Toosmall else
  if v =? 10006 then Some NFS_Serverfault else
  if v =? 10007 then Some NFS_Badtype else
  if v =? 10008 then Some NFS_Delay else
  if v =? 10009 then Some NFS_Same else
  if v =? 10010 then Some NFS_Denied else
  if v =? 10011 then Some NFS_Expired else
  if v =? 10012 then Some NFS_Locked else
  if v =? 10013 then Some NFS_Grace else
  if v =? 10014 then Some NFS_Fhexpired else
  if v =? 10015 then Some NFS_ShareDenied else
  if v =? 10016 then Some NFS_WrongSec else
  if v =? 10017 then Some NFS_ClidInuse else
  if v =? 10019 then Some NFS_Moved else
  if v =? 10020 then Some NFS_Nofilehandle else
  if v =? 10021 then Some NFS_MinorVersMismatch else
  if v =? 10022 then Some NFS_StaleClientid else
  if v =? 10023 then Some NFS_StaleStateid else
  if v =? 10024 then Some NFS_OldStateid else
  if v =? 10025 then Some NFS_BadStateid else
  if v =? 10026 then Some NFS_BadSeqid else
  if v =? 10027 then Some NFS_NotSame else
  if v =? 10028 then Some NFS_LockRange else
  if v =? 10029 then Some NFS_Symlink else
  if v =? 10030 then Some NFS_Restorefh else
  if v =? 10031 then Some NFS_LeaseMoved else
  if v =? 10032 then Some NFS_AttrNotsupp else
  if v =? 10033 then Some NFS_NoGrace else
  if v =? 10034 then Some NFS_ReclaimBad else
  if v =? 10035 then Some NFS_ReclaimConflict else
  if v =? 10036 then Some NFS_BadXdr else
  if v =? 10037 then Some NFS_LocksHeld else
  if v =? 10038 then Some NFS_Openmode else
  if v =? 10039 then Some NFS_BadOwner else
  if v =? 10040 then Some NFS_Badchar else
  if v =? 10041 then Some NFS_Badname else
  if v =? 10042 then Some NFS_BadRange else
  if v =? 10043 then Some NFS_LockNotsupp else
  if v =? 10044 then Some NFS_OpIllegal else
  if v =? 10045 then Some NFS_Deadlock else
  if v =? 10046 then Some NFS_FileOpen else
  if v =? 10047 then Some NFS_AdminRevoked else
  if v =? 10048 then Some NFS_CbPathDown else
  if v =? 10049 then Some NFS_BadIomode else
  if v =? 10050 then Some NFS_BadLayout else
  if v =? 10051 then Some NFS_BadSessionDigest else
  if v =? 10052 then Some NFS_BadSession else
  if v =? 10053 then Some NFS_BadSlot else
  if v =? 10054 then Some NFS_CompleteAlready else
  if v =? 10055 then Some NFS_ConnNotBoundToSession else
  if v =? 10056 then Some NFS_DelegAlreadyWanted else
  if v =? 10057 then Some NFS_BackChanBusy else
  if v =? 10058 then Some NFS_LayoutTrylater else
  if v =? 10059 then Some NFS_LayoutUnavailable else
  if v =? 10060 then Some NFS_NomatchingLayout else
  if v =? 10061 then Some NFS_RecallConflict else
  if v =? 10062 then Some NFS_UnknownLayouttype else
  if v =? 10063 then Some NFS_SeqMisordered else
  if v =? 10064 then Some NFS_SequencePos else
  if v =? 10065 then Some NFS_ReqTooBig else
  if v =? 10066 then Some NFS_RepTooBig else
  if v =? 10067 then Some NFS_RepTooBigToCache else
  if v =? 10068 then Some NFS_RetryUncachedRep else
  if v =? 10069 then Some NFS_UnsafeCompound else
  if v =? 10070 then Some NFS_TooManyOps else
  if v =? 10071 then Some NFS_OpNotInSession else
  if v =? 10072 then Some NFS_HashAlgUnsupp else
  if v =? 10074 then Some NFS_ClientidBusy else
  if v =? 10075 then Some NFS_PnfsIoHole else
  if v =? 10076 then Some NFS_SeqFalseRetry else
  if v =? 10077 then Some NFS_BadHighSlot else
  if v =? 10078 then Some NFS_DeadSession else
  if v =? 10079 then Some NFS_EncrAlgUnsupp else
  if v =? 10080 then Some NFS_PnfsNoLayout else
  if v =? 10081 then Some NFS_NotOnlyOp else
  if v =? 10082 then Some NFS_WrongCred else
  if v =? 10083 then Some NFS_WrongType else
  if v =? 10084 then Some NFS_DirDelegUnavail else
  if v =? 10085 then Some NFS_RejectDeleg else
  if v =? 10086 then Some NFS_ReturnConflict else
  if v =? 10087 then Some NFS_DelegRevoked else
  if v =? 10095 then Some NFS_NoXattr else
  if v =? 10096 then Some NFS_Xattr2Big else
  None.

Definition encode_NfsStat4 (s : NfsStat4) : bytes := encode_u32 (NfsStat4_u32 s).
Definition decode_NfsStat4 : decoder NfsStat4 :=
  let? value := decode_u32 in
  match NfsStat4_from_u32 value with
  | Some s => dec_ret s
  | None => dec_fail (InvalidEnum value)
  end.

Inductive NfsFtype4 :=
| Ft_Reg | Ft_Dir | Ft_Blk | Ft_Chr | Ft_Lnk | Ft_Sock | Ft_Fifo | Ft_AttrDir | Ft_NamedAttr.
Definition NfsFtype4_u32 (t : NfsFtype4) : Z :=
  match t with
  | Ft_Reg => 1 | Ft_Dir => 2 | Ft_Blk => 3 | Ft_Chr => 4 | Ft_Lnk => 5
  | Ft_Sock => 6 | Ft_Fifo => 7 | Ft_AttrDir => 8 | Ft_NamedAttr => 9
  end.
Definition encode_NfsFtype4 (t : NfsFtype4) : bytes := encode_u32 (NfsFtype4_u32 t).
Definition decode_NfsFtype4 : decoder NfsFtype4 :=
  let? v := decode_u32 in
  if v =? 1 then dec_ret Ft_Reg
  else if v =? 2 then dec_ret Ft_Dir
  else if v =? 3 then dec_ret Ft_Blk
  else if v =? 4 then dec_ret Ft_Chr
  else if v =? 5 then dec_ret Ft_Lnk
  else if v =? 6 then dec_ret Ft_Sock
  else if v =? 7 then dec_ret Ft_Fifo
  else if v =? 8 then dec_ret Ft_AttrDir
  else if v =? 9 then dec_ret Ft_NamedAttr
  else dec_fail (InvalidEnum v).

(** ** Basic structures *)

Definition encode_NfsFh4 (fh : bytes) : bytes := encode_opaque fh.
Definition decode_NfsFh4 : decoder bytes := decode_opaque_max 128.

Record NfsTime4 := mkNfsTime4 { nt_seconds : Z; nt_nseconds : Z }.
Definition encode_NfsTime4 (t : NfsTime4) : bytes :=
  encode_i64 (nt_seconds t) ++ encode_u32 (nt_nseconds t).
Definition decode_NfsTime4 : decoder NfsTime4 :=
  let? seconds := decode_i64 in
  let? nseconds := decode_u32 in
  dec_ret (mkNfsTime4 seconds nseconds).

Record Stateid4 := mkStateid4 { seqid : Z; other : bytes }.
#[export] Instance Stateid4_eq_dec : EqDecision Stateid4.
Proof. solve_decision. Defined.

Definition Stateid4_ANONYMOUS : Stateid4 := mkStateid4 0 (replicate 12 0).
Definition Stateid4_CURRENT : Stateid4 := mkStateid4 1 (replicate 12 0).
Definition Stateid4_BYPASS : Stateid4 := mkStateid4 4294967295 (replicate 12 255).

Definition encode_Stateid4 (s : Stateid4) : bytes := encode_u32 (seqid s) ++ other s.
Definition decode_Stateid4 : decoder Stateid4 :=
  let? seqid := decode_u32 in
  let? other := decode_fixed_opaque 12 in
  dec_ret (mkStateid4 seqid other).

Record Fsid4 := mkFsid4 { fsid_major : Z; fsid_minor : Z }.
Definition encode_Fsid4 (f : Fsid4) : bytes :=
  encode_u64 (fsid_major f) ++ encode_u64 (fsid_minor f).
Definition decode_Fsid4 : decoder Fsid4 :=
  let? major := decode_u64 in
  let? minor := decode_u64 in
  dec_ret (mkFsid4 major minor).

Record Specdata4 := mkSpecdata4 { specdata1 : Z; specdata2 : Z }.
Definition encode_Specdata4 (s : Specdata4) : bytes :=
  encode_u32 (specdata1 s) ++ encode_u32 (specdata2 s).

Record ChangeInfo4 := mkChangeInfo4 { ci_atomic : bool; ci_before : Z; ci_after : Z }.
Definition encode_ChangeInfo4 (c : ChangeInfo4) : bytes :=
  encode_bool (ci_atomic c) ++ encode_u64 (ci_before c) ++ encode_u64 (ci_after c).

(** ** Attribute bitmaps *)

Record Bitmap4 := mkBitmap4 { bm_words : list Z }.

Definition Bitmap4_new : Bitmap4 := mkBitmap4 [].

Definition Bitmap4_is_set (b : Bitmap4) (bit : Z) : bool :=
  let word := Z.to_nat (bit / 32) in
  let mask := Z.shiftl 1 (bit mod 32) in
  match bm_words b !! word with
  | Some w => negb (Z.land w mask =? 0)
  | None => false
  end.

(** The [while self.0.len() <= word { push(0) }] loop followed by the
    assignment, at index [word]. *)
Fixpoint bm_grow_set (word : nat) (mask : Z) (ws : list Z) : list Z :=
  match word, ws with
  | O, [] => [Z.lor 0 mask]
  | O, w :: ws' => Z.lor w mask :: ws'
  | S n, [] => 0 :: bm_grow_set n mask []
  | S n, w :: ws' => w :: bm_grow_set n mask ws'
  end.

Definition Bitmap4_set (b : Bitmap4) (bit : Z) : Bitmap4 :=
  let word := Z.to_nat (bit / 32) in
  let mask := Z.shiftl 1 (bit mod 32) in
  mkBitmap4 (bm_grow_set word mask (bm_words b)).

(** [iter().rposition(|word| *word != 0).map_or(0, |idx| idx + 1)] *)
Fixpoint trimmed_len (ws : list Z) : nat :=
  match ws with
  | [] => O
  | w :: ws' =>
    match trimmed_len ws' with
    | O => if w =? 0 then O else 1%nat
    | S n => S (S n)
    end
  end.

Definition encode_Bitmap4 (b : Bitmap4) : bytes :=
  let n := trimmed_len (bm_words b) in
  encode_u32 (u32_wrap (Z.of_nat n)) ++ flat_map encode_u32 (take n (bm_words b)).

(** [usize] is 64 bits wide, so [checked_mul] cannot fail on a [u32] count. *)
Definition decode_Bitmap4 : decoder Bitmap4 :=
  let? count := decode_u32 in fun src =>
  let bytes_needed := count * 4 in
  if u64_max <? bytes_needed then Err Overflow
  else if zlen src <? bytes_needed then Err Underflow
  else match loop_times (decode_item decode_u32) count ([], src) with
       | Ok (words, src') => Ok (mkBitmap4 words, src')
       | Err e => Err e
       end.

Record Fattr4 := mkFattr4 { fa_attrmask : Bitmap4; fa_attr_vals : bytes }.
Definition encode_Fattr4 (f : Fattr4) : bytes :=
  encode_Bitmap4 (fa_attrmask f) ++ encode_opaque (fa_attr_vals f).
Definition decode_Fattr4 : decoder Fattr4 :=
  let? attrmask := decode_Bitmap4 in
  let? attr_vals := decode_opaque in
  dec_ret (mkFattr4 attrmask attr_vals).

(** ** Session structures *)

Record ChannelAttrs4 := mkChannelAttrs4 {
  ca_headerpadsize : Z;
  ca_maxrequestsize : Z;
  ca_maxresponsesize : Z;
  ca_maxresponsesize_cached : Z;
  ca_maxoperations : Z;
  ca_maxrequests : Z;
  ca_rdma_ird : list Z;
}.

Definition encode_ChannelAttrs4 (c : ChannelAttrs4) : bytes :=
  encode_u32 (ca_headerpadsize c) ++ encode_u32 (ca_maxrequestsize c) ++
  encode_u32 (ca_maxresponsesize c) ++ encode_u32 (ca_maxresponsesize_cached c) ++
  encode_u32 (ca_maxoperations c) ++ encode_u32 (ca_maxrequests c) ++
  encode_u32 (u32_wrap (zlen (ca_rdma_ird c))) ++ flat_map encode_u32 (ca_rdma_ird c).

Definition decode_ChannelAttrs4 : decoder ChannelAttrs4 :=
  let? headerpadsize := decode_u32 in
  let? maxrequestsize := decode_u32 in
  let? maxresponsesize := decode_u32 in
  let? maxresponsesize_cached := decode_u32 in
  let? maxoperations := decode_u32 in
  let? maxrequests := decode_u32 in
  let? rdma_ird := decode_list decode_u32 in
  dec_ret (mkChannelAttrs4 headerpadsize maxrequestsize maxresponsesize
             maxresponsesize_cached maxoperations maxrequests rdma_ird).

Definition ChannelAttrs4_default : ChannelAttrs4 :=
  mkChannelAttrs4 0 1049620 1049620 6144 16 64 [].

Record GssCbHandles4 := mkGssCbHandles4 {
  gss_service : Z;
  gss_handle_from_server : bytes;
  gss_handle_from_client : bytes;
}.

Inductive CallbackSecParms4 :=
| CbSec_None
| CbSec_Sys (p : AuthSysParams)
| CbSec_RpcSecGss (h : GssCbHandles4).

Definition decode_CallbackSecParms4 : decoder CallbackSecParms4 :=
  let? cb_secflavor := decode_u32 in
  if cb_secflavor =? 0 then dec_ret CbSec_None
  else if cb_secflavor =? 1 then
    let? p := decode_AuthSysParams in dec_ret (CbSec_Sys p)
  else if cb_secflavor =? 6 then
    let? service := decode_u32 in
    let? from_server := decode_opaque in
    let? from_client := decode_opaque in
    dec_ret (CbSec_RpcSecGss (mkGssCbHandles4 service from_server from_client))
  else dec_fail (InvalidEnum cb_secflavor).

Record ClientOwner4 := mkClientOwner4 { co_verifier : bytes; co_ownerid : bytes }.
#[export] Instance ClientOwner4_eq_dec : EqDecision ClientOwner4.
Proof. solve_decision. Defined.

Definition decode_ClientOwner4 : decoder ClientOwner4 :=
  let? verifier := decode_fixed_opaque 8 in
  let? ownerid := decode_opaque_max 1024 in
  dec_ret (mkClientOwner4 verifier ownerid).

Record StateProtectOps4 := mkStateProtectOps4 { spo_enforce : Bitmap4; spo_allow : Bitmap4 }.
Definition encode_StateProtectOps4 (o : StateProtectOps4) : bytes :=
  encode_Bitmap4 (spo_enforce o) ++ encode_Bitmap4 (spo_allow o).

Record SsvSpParms4 := mkSsvSpParms4 {
  ssv_ops : StateProtectOps4;
  ssv_hash_algs : list bytes;
  ssv_encr_algs : list bytes;
  ssv_window : Z;
  ssv_num_gss_handles : Z;
}.

Inductive StateProtect4A :=
| SpA_None
| SpA_MachCred (ops : StateProtectOps4)
| SpA_Ssv (parms : SsvSpParms4).

Record NfsImplId4 := mkNfsImplId4 { ii_domain : bytes; ii_name : bytes; ii_date : NfsTime4 }.
Definition encode_NfsImplId4 (i : NfsImplId4) : bytes :=
  encode_string (ii_domain i) ++ encode_string (ii_name i) ++ encode_NfsTime4 (ii_date i).
Definition decode_NfsImplId4 : decoder NfsImplId4 :=
  let? domain := decode_string in
  let? name := decode_string in
  let? date := decode_NfsTime4 in
  dec_ret (mkNfsImplId4 domain name date).

Record ExchangeIdArgs4 := mkExchangeIdArgs4 {
  ei_clientowner : ClientOwner4;
  ei_flags : Z;
  ei_state_protect : StateProtect4A;
  ei_client_impl_id : list NfsImplId4;
}.

Record CreateSessionArgs4 := mkCreateSessionArgs4 {
  csa_clientid : Z;
  csa_sequence : Z;
  csa_flags : Z;
  csa_fore_chan_attrs : ChannelAttrs4;
  csa_back_chan_attrs : ChannelAttrs4;
  csa_cb_program : Z;
  csa_sec_parms : list CallbackSecParms4;
}.

Record SequenceArgs4 := mkSequenceArgs4 {
  sa_sessionid : bytes;
  sa_sequenceid : Z;
  sa_slotid : Z;
  sa_highest_slotid : Z;
  sa_cachethis : bool;
}.

Record BindConnToSessionArgs4 := mkBindConnToSessionArgs4 {
  bc_sessionid : bytes;
  bc_dir : Z;
  bc_use_conn_in_rdma_mode : bool;
}.

Record ServerOwner4 := mkServerOwner4 { so_minor_id : Z; so_major_id : bytes }.

Record SsvProtInfo4 := mkSsvProtInfo4 {
  spi_ops : StateProtectOps4;
  spi_hash_alg : Z;
  spi_encr_alg : Z;
  spi_ssv_len : Z;
  spi_window : Z;
  spi_handles : list bytes;
}.

Inductive StateProtect4R :=
| SpR_None
| SpR_MachCred (ops : StateProtectOps4)
| SpR_Ssv (info : SsvProtInfo4).

Definition encode_StateProtect4R (s : StateProtect4R) : bytes :=
  match s with
  | SpR_None => encode_u32 0
  | SpR_MachCred ops => encode_u32 1 ++ encode_StateProtectOps4 ops
  | SpR_Ssv info =>
    encode_u32 2 ++ encode_StateProtectOps4 (spi_ops info) ++
    encode_u32 (spi_hash_alg info) ++ encode_u32 (spi_encr_alg info) ++
    encode_u32 (spi_ssv_len info) ++ encode_u32 (spi_window info) ++
    encode_list encode_opaque (spi_handles info)
  end.

Definition encode_ServerOwner4 (o : ServerOwner4) : bytes :=
  encode_u64 (so_minor_id o) ++ encode_opaque (so_major_id o).

Record ExchangeIdRes4 := mkExchangeIdRes4 {
  eir_clientid : Z;
  eir_sequenceid : Z;
  eir_flags : Z;
  eir_state_protect : StateProtect4R;
  eir_server_owner : ServerOwner4;
  eir_server_scope : bytes;
  eir_server_impl_id : list NfsImplId4;
}.

Record CreateSessionRes4 := mkCreateSessionRes4 {
  csr_sessionid : bytes;
  csr_sequenceid : Z;
  csr_flags : Z;
  csr_fore_chan_attrs : ChannelAttrs4;
  csr_back_chan_attrs : ChannelAttrs4;
}.

Record SequenceRes4 := mkSequenceRes4 {
  sr_sessionid : bytes;
  sr_sequenceid : Z;
  sr_slotid : Z;
  sr_highest_slotid : Z;
  sr_target_highest_slotid : Z;
  sr_status_flags : Z;
}.

Record BindConnToSessionRes4 := mkBindConnToSessionRes4 {
  bcr_sessionid : bytes;
  bcr_dir : Z;
  bcr_use_conn_in_rdma_mode : bool;
}.

(** ** Constants *)

Definition OPEN4_SHARE_ACCESS_READ : Z := 1.
Definition OPEN4_SHARE_ACCESS_WRITE : Z := 2.
Definition OPEN4_SHARE_ACCESS_BOTH : Z := 3.
Definition OPEN4_SHARE_DENY_NONE : Z := 0.
Definition OPEN4_SHARE_DENY_READ : Z := 1.
Definition OPEN4_SHARE_DENY_WRITE : Z := 2.
Definition OPEN4_SHARE_DENY_BOTH : Z := 3.
Definition OPEN4_SHARE_ACCESS_WANT_DELEG_MASK : Z := 65280.

Definition EXCHGID4_FLAG_USE_NON_PNFS : Z := 65536.
Definition EXCHGID4_FLAG_CONFIRMED_R : Z := 2147483648.
Definition CREATE_SESSION4_FLAG_CONN_BACK_CHAN : Z := 2.

Definition CDFC4_FORE : Z := 1.
Definition CDFC4_BACK : Z := 2.
Definition CDFC4_FORE_OR_BOTH : Z := 3.
Definition CDFC4_BACK_OR_BOTH : Z := 7.
Definition CDFS4_FORE : Z := 1.
Definition CDFS4_BACK : Z := 2.
Definition CDFS4_BOTH : Z := 3.

Definition SEQ4_STATUS_EXPIRED_ALL_STATE_REVOKED : Z := 8.
Definition SEQ4_STATUS_RECALLABLE_STATE_REVOKED : Z := 64.

(** ** Lemmas: status codes *)

Lemma NfsStat4_from_to s : NfsStat4_from_u32 (NfsStat4_u32 s) = Some s.
Proof. by destruct s. Qed.

Lemma NfsStat4_to_from v s : NfsStat4_from_u32 v = Some s -> NfsStat4_u32 s = v.
Proof.
  unfold NfsStat4_from_u32.
  repeat (match goal with |- (if ?x =? ?n then _ else _) = _ -> _ =>
    destruct (Z.eqb_spec x n); [intros [= <-]; by subst|] end).
  done.
Qed.

#[export] Instance NfsStat4_u32_inj : Inj (=) (=) NfsStat4_u32.
Proof.
  intros a b Hab. apply (inj Some). by rewrite <- !NfsStat4_from_to, Hab.
Qed.

#[export] Instance NfsStat4_eq_dec : EqDecision NfsStat4.
Proof.
  intros a b. refine (cast_if (decide (NfsStat4_u32 a = NfsStat4_u32 b))).
  - by apply NfsStat4_u32_inj.
  - congruence.
Defined.

Lemma NfsStat4_u32_range s : is_u32 (NfsStat4_u32 s).
Proof. unfold is_u32. destruct s; simpl; lia. Qed.

Lemma decode_NfsStat4_app s rest :
  decode_NfsStat4 (encode_NfsStat4 s ++ rest) = Ok (s, rest).
Proof.
  unfold decode_NfsStat4, encode_NfsStat4. rewrite bind_u32 by apply NfsStat4_u32_range.
  by rewrite NfsStat4_from_to.
Qed.

(** ** Lemmas: bitmaps *)

Definition bm_equiv (a b : Bitmap4) : Prop :=
  forall bit, 0 <= bit -> Bitmap4_is_set a bit = Bitmap4_is_set b bit.

#[export] Instance bm_equiv_equivalence : Equivalence bm_equiv.
Proof.
  split.
  - intros a bit _. done.
  - intros a b H bit Hb. symmetry. auto.
  - intros a b c H1 H2 bit Hb. rewrite H1 by done. auto.
Qed.

Lemma mask_testbit w k : 0 <= k -> negb (Z.land w (Z.shiftl 1 k) =? 0) = Z.testbit w k.
Proof.
  intros Hk. rewrite Z.shiftl_1_l. destruct (Z.testbit w k) eqn:E.
  - apply negb_true_iff, Z.eqb_neq. intros H0.
    apply (f_equal (fun z => Z.testbit z k)) in H0.
    rewrite Z.land_spec, Z.bits_0, Z.pow2_bits_true, E in H0 by done. done.
  - apply negb_false_iff, Z.eqb_eq. apply Z.bits_inj'. intros i Hi.
    rewrite Z.land_spec, Z.bits_0. destruct (decide (i = k)) as [->|Hne].
    + by rewrite E.
    + rewrite Z.pow2_bits_false by done. apply andb_false_r.
Qed.

(** A missing word reads as zero. *)
Definition word_at (b : Bitmap4) (n : nat) : Z := default 0 (bm_words b !! n).

Lemma is_set_word_at b bit :
  Bitmap4_is_set b bit = Z.testbit (word_at b (Z.to_nat (bit / 32))) (bit mod 32).
Proof.
  unfold Bitmap4_is_set, word_at. pose proof (Z.mod_pos_bound bit 32).
  destruct (bm_words b !! _); simpl; [apply mask_testbit; lia|]. by rewrite Z.testbit_0_l.
Qed.

Lemma grow_set_word_at word mask ws n :
  word_at (mkBitmap4 (bm_grow_set word mask ws)) n =
  if decide (n = word) then Z.lor (word_at (mkBitmap4 ws) n) mask
  else word_at (mkBitmap4 ws) n.
Proof.
  unfold word_at. cbn [bm_words]. revert ws n.
  induction word as [|word IH]; intros [|w ws] [|n]; simpl; try done.
  - rewrite IH. simpl. repeat case_decide; subst; done || lia.
  - rewrite IH. repeat case_decide; subst; done || lia.
Qed.

Lemma Bitmap4_set_lookup b bit bit' :
  0 <= bit -> 0 <= bit' ->
  Bitmap4_is_set (Bitmap4_set b bit) bit' = (bit =? bit') || Bitmap4_is_set b bit'.
Proof.
  intros Hb Hb'. rewrite !is_set_word_at. unfold Bitmap4_set.
  rewrite grow_set_word_at. destruct b as [ws]. cbn [bm_words].
  pose proof (Z.mod_pos_bound bit 32). pose proof (Z.mod_pos_bound bit' 32).
  pose proof (Z.div_mod bit 32). pose proof (Z.div_mod bit' 32).
  pose proof (Z.div_pos bit 32). pose proof (Z.div_pos bit' 32).
  case_decide as Hw.
  - rewrite Z.lor_spec, Z.shiftl_1_l, orb_comm. f_equal.
    destruct (Z.eqb_spec bit bit') as [<-|Hne].
    + apply Z.pow2_bits_true. lia.
    + apply Z.pow2_bits_false. lia.
  - destruct (Z.eqb_spec bit bit') as [<-|Hne]; [done|]. done.
Qed.

Lemma trimmed_len_le ws : (trimmed_len ws <= length ws)%nat.
Proof.
  induction ws as [|w ws IH]; simpl; [lia|].
  destruct (trimmed_len ws); [destruct (w =? 0)|]; lia.
Qed.

(** The words cut off by the encoder are all zero. *)
Lemma trimmed_word_at ws n :
  word_at (mkBitmap4 (take (trimmed_len ws) ws)) n = word_at (mkBitmap4 ws) n.
Proof.
  unfold word_at. cbn [bm_words]. revert n.
  induction ws as [|w ws IH]; intros n; [done|]. simpl trimmed_len.
  destruct (trimmed_len ws) as [|k] eqn:E.
  - assert (IH0 : forall i, default 0 (ws !! i) = 0) by (intros i; by rewrite <- IH).
    destruct (Z.eqb_spec w 0) as [->|Hw]; destruct n; simpl; by rewrite ?IH0, ?lookup_nil.
  - destruct n; [done|]. apply IH.
Qed.

Definition Bitmap4_ok (b : Bitmap4) : Prop :=
  Forall is_u32 (bm_words b) /\ is_u32 (zlen (bm_words b)).

Lemma decode_Bitmap4_app b rest :
  Bitmap4_ok b ->
  decode_Bitmap4 (encode_Bitmap4 b ++ rest) =
  Ok (mkBitmap4 (take (trimmed_len (bm_words b)) (bm_words b)), rest).
Proof.
  intros [Hw Hl]. unfold decode_Bitmap4, encode_Bitmap4.
  set (n := trimmed_len (bm_words b)). set (ws := take n (bm_words b)).
  assert (Hn : length ws = n).
  { unfold ws. rewrite length_take. pose proof (trimmed_len_le (bm_words b)). lia. }
  assert (Hws : Forall (cod_dom u32_codec) ws) by by apply Forall_take.
  assert (Hn32 : is_u32 (Z.of_nat n)).
  { pose proof (trimmed_len_le (bm_words b)). unfold is_u32, zlen in *. lia. }
  rewrite <- app_assoc, bind_u32 by apply u32_wrap_range. rewrite u32_wrap_small by done.
  assert (Hsz : zlen (flat_map encode_u32 ws) = Z.of_nat n * 4).
  { rewrite <- Hn. clear. unfold zlen. induction ws as [|w ws IH]; [done|].
    change (flat_map encode_u32 (w :: ws)) with (encode_u32 w ++ flat_map encode_u32 ws).
    rewrite length_app. unfold encode_u32 at 1. rewrite be_bytes_length.
    cbn [length]. lia. }
  destruct (Z.ltb_spec u64_max (Z.of_nat n * 4)); [unfold is_u32, u64_max in *; lia|].
  rewrite zlen_app, Hsz. pose proof (zlen_nonneg rest).
  destruct (Z.ltb_spec (Z.of_nat n * 4 + zlen rest) (Z.of_nat n * 4)); [lia|].
  pose proof (decode_items_app u32_codec ws [] rest Hws) as Hd. rewrite Hn in Hd.
  cbn [cod_dec cod_enc u32_codec app] in Hd.
  rewrite loop_times_nat, Nat2Z.id by lia. by rewrite Hd.
Qed.

(** ** Lemmas: stateids and the session structures *)

Definition Stateid4_ok (s : Stateid4) : Prop :=
  is_u32 (seqid s) /\ bytes_ok (other s) /\ zlen (other s) = 12.

Lemma fixed_opaque_raw data len :
  zlen data = len -> len mod 4 = 0 -> encode_fixed_opaque data = data.
Proof.
  intros <- Hm. unfold encode_fixed_opaque. rewrite xdr_pad_spec.
  rewrite Z_mod_zero_opp_full by done. apply app_nil_r.
Qed.

Lemma bind_fixed_raw {A} (len : Z) (data : bytes) (k : bytes -> decoder A) rest :
  zlen data = len -> len mod 4 = 0 ->
  dec_bind (decode_fixed_opaque len) k (data ++ rest) = k data rest.
Proof.
  intros Hl Hm. apply dec_bind_ok.
  rewrite <- (fixed_opaque_raw data len) at 1 by done. subst len.
  apply decode_fixed_opaque_app.
Qed.

Lemma decode_Stateid4_app s rest :
  Stateid4_ok s -> decode_Stateid4 (encode_Stateid4 s ++ rest) = Ok (s, rest).
Proof.
  intros (Hs & Ho & Hl). unfold decode_Stateid4, encode_Stateid4.
  rewrite <- app_assoc, bind_u32 by done. rewrite bind_fixed_raw by done. by destruct s.
Qed.

Definition ChannelAttrs4_ok (c : ChannelAttrs4) : Prop :=
  is_u32 (ca_headerpadsize c) /\ is_u32 (ca_maxrequestsize c) /\
  is_u32 (ca_maxresponsesize c) /\ is_u32 (ca_maxresponsesize_cached c) /\
  is_u32 (ca_maxoperations c) /\ is_u32 (ca_maxrequests c) /\
  (Forall is_u32 (ca_rdma_ird c) /\ is_u32 (zlen (ca_rdma_ird c))).

Lemma decode_ChannelAttrs4_app c rest :
  ChannelAttrs4_ok c -> decode_ChannelAttrs4 (encode_ChannelAttrs4 c ++ rest) = Ok (c, rest).
Proof.
  intros (H1 & H2 & H3 & H4 & H5 & H6 & Hl).
  unfold decode_ChannelAttrs4, encode_ChannelAttrs4. rewrite <- !app_assoc, !bind_u32 by done.
  pose proof (codec_roundtrip (c := list_codec u32_codec) (ca_rdma_ird c) rest Hl) as Hr.
  cbn [cod_enc cod_dec list_codec u32_codec] in Hr. unfold encode_list in Hr.
  rewrite <- app_assoc in Hr. rewrite (dec_bind_ok _ _ _ _ _ Hr). by destruct c.
Qed.

(** ** Theorems *)

(** The status decoder accepts exactly the status codes of the protocol:
    every status survives the wire, and a 32-bit value that is no status code
    is refused with that value. *)
Theorem NfsStat4_wire v rest :
  is_u32 v ->
  (forall s, decode_NfsStat4 (encode_NfsStat4 s ++ rest) = Ok (s, rest)) /\
  decode_NfsStat4 (encode_u32 v ++ rest) =
    match NfsStat4_from_u32 v with
    | Some s => Ok (s, rest)
    | None => Err (InvalidEnum v)
    end /\
  (forall s, NfsStat4_from_u32 v = Some s <-> NfsStat4_u32 s = v).
Proof.
  intros Hv. split; [|split].
  - intros s. apply decode_NfsStat4_app.
  - unfold decode_NfsStat4. rewrite bind_u32 by done. by destruct (NfsStat4_from_u32 v).
  - intros s. split; [apply NfsStat4_to_from|]. intros <-. apply NfsStat4_from_to.
Qed.

Lemma NfsStat4_wire_witness :
  decode_NfsStat4 (encode_u32 123456 ++ []) = Err (InvalidEnum 123456).
Proof.
  rewrite (proj1 (proj2 (NfsStat4_wire 123456 [] ltac:(unfold is_u32; lia)))). reflexivity.
Defined.

(** A stateid survives the wire: sequence number and the twelve opaque
    bytes, with whatever follows it left in the buffer. *)
Theorem Stateid4_roundtrip s rest :
  Stateid4_ok s -> decode_Stateid4 (encode_Stateid4 s ++ rest) = Ok (s, rest).
Proof. apply decode_Stateid4_app. Qed.

Lemma Stateid4_roundtrip_witness :
  decode_Stateid4 (encode_Stateid4 Stateid4_BYPASS ++ [1]) = Ok (Stateid4_BYPASS, [1]).
Proof.
  apply Stateid4_roundtrip. unfold Stateid4_ok, is_u32, bytes_ok, zlen; simpl.
  split_and!; try lia. repeat constructor; unfold is_u8; lia.
Defined.

(** Attribute bitmaps: [set] turns on exactly one bit, and the trailing
    zero words the encoder drops do not show: the bitmap read back from the
    wire answers every [is_set] query like the one that was sent. *)
Theorem Bitmap4_set_encode b bit rest :
  0 <= bit -> Bitmap4_ok (Bitmap4_set b bit) ->
  (forall bit', 0 <= bit' ->
     Bitmap4_is_set (Bitmap4_set b bit) bit' = (bit =? bit') || Bitmap4_is_set b bit') /\
  exists b', decode_Bitmap4 (encode_Bitmap4 (Bitmap4_set b bit) ++ rest) = Ok (b', rest) /\
             bm_equiv b' (Bitmap4_set b bit).
Proof.
  intros Hb Hok. split; [intros; by apply Bitmap4_set_lookup|].
  eexists. split; [by apply decode_Bitmap4_app|].
  intros q Hq. rewrite !is_set_word_at, trimmed_word_at. by destruct (Bitmap4_set b bit).
Qed.

Lemma Bitmap4_set_encode_witness :
  exists b', decode_Bitmap4 (encode_Bitmap4 (Bitmap4_set (mkBitmap4 [0; 0; 0]) 33) ++ []) = Ok (b', [])
             /\ bm_equiv b' (Bitmap4_set (mkBitmap4 [0; 0; 0]) 33).
Proof.
  refine (proj2 (Bitmap4_set_encode (mkBitmap4 [0; 0; 0]) 33 [] _ _)); [lia|].
  change (Bitmap4_ok (mkBitmap4 [0; 2; 0])). unfold Bitmap4_ok, is_u32, zlen.
  cbn [bm_words length]. split; [repeat constructor; lia|lia].
Defined.

(** Channel attributes, the negotiation record of CREATE_SESSION,
    survive the wire. *)
Theorem ChannelAttrs4_roundtrip c rest :
  ChannelAttrs4_ok c ->
  decode_ChannelAttrs4 (encode_ChannelAttrs4 c ++ rest) = Ok (c, rest).
Proof. apply decode_ChannelAttrs4_app. Qed.

Lemma ChannelAttrs4_roundtrip_witness :
  decode_ChannelAttrs4 (encode_ChannelAttrs4 ChannelAttrs4_default ++ [3])
  = Ok (ChannelAttrs4_default, [3]).
Proof.
  apply ChannelAttrs4_roundtrip.
  unfold ChannelAttrs4_ok, is_u32, zlen; simpl. split_and!; try lia. constructor.
Defined.
