(* ===== verification/StateModel.v ===== *)
(** * Session state: the data of [StateManager] (crates/embednfs/src/session/mod.rs,
    session/model.rs and internal.rs)

    [StateInner] is what the [RwLock] protects; [StateManager] adds the
    lock-free filehandle tables, the retired set and the atomic counters.
    Times ([Instant], [Duration]) are integers in nanoseconds.  The
    [set_*] functions are the field assignments of the Rust code.  An
    operation of [StateManager] is a function that returns its result together
    with the new state; the clock readings an operation takes are arguments. *)

From stdpp Require Import base gmap list sets strings numbers.
From Stdlib Require Import ZArith Lia.
From S2P Require Import Prelude Xdr Rpc Types.

Local Open Scope Z_scope.
Local Open Scope nfs_scope.

(** ** Objects (internal.rs) *)

Inductive ServerObject :=
| Fs (id : Z)
| NamedAttrDir (id : Z)
| NamedAttrFile (parent : Z) (name : bytes).

#[export] Instance ServerObject_eq_dec : EqDecision ServerObject.
Proof. solve_decision. Defined.

#[export] Instance ServerObject_countable : Countable ServerObject.
Proof.
  refine (inj_countable'
    (fun o => match o with
              | Fs id => inl id
              | NamedAttrDir id => inr (inl id)
              | NamedAttrFile p n => inr (inr (p, n))
              end)
    (fun s => match s with
              | inl id => Fs id
              | inr (inl id) => NamedAttrDir id
              | inr (inr (p, n)) => NamedAttrFile p n
              end) _).
  by intros [].
Defined.

Inductive ServerFileType := FT_Regular | FT_Directory | FT_Symlink | FT_NamedAttrDir | FT_NamedAttr.
#[export] Instance ServerFileType_eq_dec : EqDecision ServerFileType.
Proof. solve_decision. Defined.

(** ** Protocol operands (types/operations.rs) *)

Inductive NfsLockType4 := ReadLt | WriteLt | ReadwLt | WritewLt.
#[export] Instance NfsLockType4_eq_dec : EqDecision NfsLockType4.
Proof. solve_decision. Defined.

Definition decode_NfsLockType4 : decoder NfsLockType4 :=
  let? v := decode_u32 in
  if v =? 1 then dec_ret ReadLt
  else if v =? 2 then dec_ret WriteLt
  else if v =? 3 then dec_ret ReadwLt
  else if v =? 4 then dec_ret WritewLt
  else dec_fail (InvalidEnum v).

Definition NfsLockType4_u32 (t : NfsLockType4) : Z :=
  match t with ReadLt => 1 | WriteLt => 2 | ReadwLt => 3 | WritewLt => 4 end.
Definition encode_NfsLockType4 (t : NfsLockType4) : bytes := encode_u32 (NfsLockType4_u32 t).

Record StateOwner4 := mkStateOwner4 { so_clientid : Z; so_owner : bytes }.
#[export] Instance StateOwner4_eq_dec : EqDecision StateOwner4.
Proof. solve_decision. Defined.

Definition decode_StateOwner4 : decoder StateOwner4 :=
  let? clientid := decode_u64 in
  let? owner := decode_opaque_max 1024 in
  dec_ret (mkStateOwner4 clientid owner).

Record LockDenied4 := mkLockDenied4 {
  ld_offset : Z;
  ld_length : Z;
  ld_locktype : NfsLockType4;
  ld_owner : StateOwner4;
}.

Inductive OpenClaim4 :=
| Claim_Null (file : bytes)
| Claim_Previous (delegate_type : Z)
| Claim_DelegateCur (delegate_stateid : Stateid4) (file : bytes)
| Claim_DelegatePrev (file : bytes)
| Claim_Fh
| Claim_DelegCurFh (delegate_stateid : Stateid4)
| Claim_DelegPrevFh.

(** The callback address of a SETCLIENTID.  No operation stores it. *)
Record NfsClientCallback4 := mkNfsClientCallback4 {
  cbk_program : Z;
  cbk_netid : bytes;
  cbk_addr : bytes;
}.
Record SetClientIdArgs4 := mkSetClientIdArgs4 {
  sci_client : ClientOwner4;
  sci_callback : NfsClientCallback4;
  sci_callback_ident : Z;
}.
Record SetClientIdConfirmArgs4 := mkSetClientIdConfirmArgs4 {
  scc_clientid : Z;
  scc_verifier : bytes;
}.
Record SetClientIdRes4 := mkSetClientIdRes4 {
  scr_clientid : Z;
  scr_setclientid_confirm : bytes;
}.

(** ** Per-object metadata *)

(** Server-owned metadata tracked for each visible object. *)
Record SynthMeta := mkSynthMeta {
  me_fileid : Z;
  me_mode : Z;
  me_nlink : Z;
  me_uid : Z;
  me_gid : Z;
  me_owner : bytes;
  me_owner_group : bytes;
  me_atime_sec : Z;
  me_atime_nsec : Z;
  me_mtime_sec : Z;
  me_mtime_nsec : Z;
  me_ctime_sec : Z;
  me_ctime_nsec : Z;
  me_crtime_sec : Z;
  me_crtime_nsec : Z;
  me_change_id : Z;
  me_archive : bool;
  me_hidden : bool;
  me_system : bool;
  me_named_attr_count : option Z;
}.
Definition set_me_fileid (v : Z) (r : SynthMeta) : SynthMeta :=
  mkSynthMeta v (me_mode r) (me_nlink r) (me_uid r) (me_gid r) (me_owner r) (me_owner_group r) (me_atime_sec r) (me_atime_nsec r) (me_mtime_sec r) (me_mtime_nsec r) (me_ctime_sec r) (me_ctime_nsec r) (me_crtime_sec r) (me_crtime_nsec r) (me_change_id r) (me_archive r) (me_hidden r) (me_system r) (me_named_attr_count r).
Definition set_me_mode (v : Z) (r : SynthMeta) : SynthMeta :=
  mkSynthMeta (me_fileid r) v (me_nlink r) (me_uid r) (me_gid r) (me_owner r) (me_owner_group r) (me_atime_sec r) (me_atime_nsec r) (me_mtime_sec r) (me_mtime_nsec r) (me_ctime_sec r) (me_ctime_nsec r) (me_crtime_sec r) (me_crtime_nsec r) (me_change_id r) (me_archive r) (me_hidden r) (me_system r) (me_named_attr_count r).
Definition set_me_nlink (v : Z) (r : SynthMeta) : SynthMeta :=
  mkSynthMeta (me_fileid r) (me_mode r) v (me_uid r) (me_gid r) (me_owner r) (me_owner_group r) (me_atime_sec r) (me_atime_nsec r) (me_mtime_sec r) (me_mtime_nsec r) (me_ctime_sec r) (me_ctime_nsec r) (me_crtime_sec r) (me_crtime_nsec r) (me_change_id r) (me_archive r) (me_hidden r) (me_system r) (me_named_attr_count r).
Definition set_me_uid (v : Z) (r : SynthMeta) : SynthMeta :=
  mkSynthMeta (me_fileid r) (me_mode r) (me_nlink r) v (me_gid r) (me_owner r) (me_owner_group r) (me_atime_sec r) (me_atime_nsec r) (me_mtime_sec r) (me_mtime_nsec r) (me_ctime_sec r) (me_ctime_nsec r) (me_crtime_sec r) (me_crtime_nsec r) (me_change_id r) (me_archive r) (me_hidden r) (me_system r) (me_named_attr_count r).
Definition set_me_gid (v : Z) (r : SynthMeta) : SynthMeta :=
  mkSynthMeta (me_fileid r) (me_mode r) (me_nlink r) (me_uid r) v (me_owner r) (me_owner_group r) (me_atime_sec r) (me_atime_nsec r) (me_mtime_sec r) (me_mtime_nsec r) (me_ctime_sec r) (me_ctime_nsec r) (me_crtime_sec r) (me_crtime_nsec r) (me_change_id r) (me_archive r) (me_hidden r) (me_system r) (me_named_attr_count r).
Definition set_me_owner (v : bytes) (r : SynthMeta) : SynthMeta :=
  mkSynthMeta (me_fileid r) (me_mode r) (me_nlink r) (me_uid r) (me_gid r) v (me_owner_group r) (me_atime_sec r) (me_atime_nsec r) (me_mtime_sec r) (me_mtime_nsec r) (me_ctime_sec r) (me_ctime_nsec r) (me_crtime_sec r) (me_crtime_nsec r) (me_change_id r) (me_archive r) (me_hidden r) (me_system r) (me_named_attr_count r).
Definition set_me_owner_group (v : bytes) (r : SynthMeta) : SynthMeta :=
  mkSynthMeta (me_fileid r) (me_mode r) (me_nlink r) (me_uid r) (me_gid r) (me_owner r) v (me_atime_sec r) (me_atime_nsec r) (me_mtime_sec r) (me_mtime_nsec r) (me_ctime_sec r) (me_ctime_nsec r) (me_crtime_sec r) (me_crtime_nsec r) (me_change_id r) (me_archive r) (me_hidden r) (me_system r) (me_named_attr_count r).
Definition set_me_atime_sec (v : Z) (r : SynthMeta) : SynthMeta :=
  mkSynthMeta (me_fileid r) (me_mode r) (me_nlink r) (me_uid r) (me_gid r) (me_owner r) (me_owner_group r) v (me_atime_nsec r) (me_mtime_sec r) (me_mtime_nsec r) (me_ctime_sec r) (me_ctime_nsec r) (me_crtime_sec r) (me_crtime_nsec r) (me_change_id r) (me_archive r) (me_hidden r) (me_system r) (me_named_attr_count r).
Definition set_me_atime_nsec (v : Z) (r : SynthMeta) : SynthMeta :=
  mkSynthMeta (me_fileid r) (me_mode r) (me_nlink r) (me_uid r) (me_gid r) (me_owner r) (me_owner_group r) (me_atime_sec r) v (me_mtime_sec r) (me_mtime_nsec r) (me_ctime_sec r) (me_ctime_nsec r) (me_crtime_sec r) (me_crtime_nsec r) (me_change_id r) (me_archive r) (me_hidden r) (me_system r) (me_named_attr_count r).
Definition set_me_mtime_sec (v : Z) (r : SynthMeta) : SynthMeta :=
  mkSynthMeta (me_fileid r) (me_mode r) (me_nlink r) (me_uid r) (me_gid r) (me_owner r) (me_owner_group r) (me_atime_sec r) (me_atime_nsec r) v (me_mtime_nsec r) (me_ctime_sec r) (me_ctime_nsec r) (me_crtime_sec r) (me_crtime_nsec r) (me_change_id r) (me_archive r) (me_hidden r) (me_system r) (me_named_attr_count r).
Definition set_me_mtime_nsec (v : Z) (r : SynthMeta) : SynthMeta :=
  mkSynthMeta (me_fileid r) (me_mode r) (me_nlink r) (me_uid r) (me_gid r) (me_owner r) (me_owner_group r) (me_atime_sec r) (me_atime_nsec r) (me_mtime_sec r) v (me_ctime_sec r) (me_ctime_nsec r) (me_crtime_sec r) (me_crtime_nsec r) (me_change_id r) (me_archive r) (me_hidden r) (me_system r) (me_named_attr_count r).
Definition set_me_ctime_sec (v : Z) (r : SynthMeta) : SynthMeta :=
  mkSynthMeta (me_fileid r) (me_mode r) (me_nlink r) (me_uid r) (me_gid r) (me_owner r) (me_owner_group r) (me_atime_sec r) (me_atime_nsec r) (me_mtime_sec r) (me_mtime_nsec r) v (me_ctime_nsec r) (me_crtime_sec r) (me_crtime_nsec r) (me_change_id r) (me_archive r) (me_hidden r) (me_system r) (me_named_attr_count r).
Definition set_me_ctime_nsec (v : Z) (r : SynthMeta) : SynthMeta :=
  mkSynthMeta (me_fileid r) (me_mode r) (me_nlink r) (me_uid r) (me_gid r) (me_owner r) (me_owner_group r) (me_atime_sec r) (me_atime_nsec r) (me_mtime_sec r) (me_mtime_nsec r) (me_ctime_sec r) v (me_crtime_sec r) (me_crtime_nsec r) (me_change_id r) (me_archive r) (me_hidden r) (me_system r) (me_named_attr_count r).
Definition set_me_crtime_sec (v : Z) (r : SynthMeta) : SynthMeta :=
  mkSynthMeta (me_fileid r) (me_mode r) (me_nlink r) (me_uid r) (me_gid r) (me_owner r) (me_owner_group r) (me_atime_sec r) (me_atime_nsec r) (me_mtime_sec r) (me_mtime_nsec r) (me_ctime_sec r) (me_ctime_nsec r) v (me_crtime_nsec r) (me_change_id r) (me_archive r) (me_hidden r) (me_system r) (me_named_attr_count r).
Definition set_me_crtime_nsec (v : Z) (r : SynthMeta) : SynthMeta :=
  mkSynthMeta (me_fileid r) (me_mode r) (me_nlink r) (me_uid r) (me_gid r) (me_owner r) (me_owner_group r) (me_atime_sec r) (me_atime_nsec r) (me_mtime_sec r) (me_mtime_nsec r) (me_ctime_sec r) (me_ctime_nsec r) (me_crtime_sec r) v (me_change_id r) (me_archive r) (me_hidden r) (me_system r) (me_named_attr_count r).
Definition set_me_change_id (v : Z) (r : SynthMeta) : SynthMeta :=
  mkSynthMeta (me_fileid r) (me_mode r) (me_nlink r) (me_uid r) (me_gid r) (me_owner r) (me_owner_group r) (me_atime_sec r) (me_atime_nsec r) (me_mtime_sec r) (me_mtime_nsec r) (me_ctime_sec r) (me_ctime_nsec r) (me_crtime_sec r) (me_crtime_nsec r) v (me_archive r) (me_hidden r) (me_system r) (me_named_attr_count r).
Definition set_me_archive (v : bool) (r : SynthMeta) : SynthMeta :=
  mkSynthMeta (me_fileid r) (me_mode r) (me_nlink r) (me_uid r) (me_gid r) (me_owner r) (me_owner_group r) (me_atime_sec r) (me_atime_nsec r) (me_mtime_sec r) (me_mtime_nsec r) (me_ctime_sec r) (me_ctime_nsec r) (me_crtime_sec r) (me_crtime_nsec r) (me_change_id r) v (me_hidden r) (me_system r) (me_named_attr_count r).
Definition set_me_hidden (v : bool) (r : SynthMeta) : SynthMeta :=
  mkSynthMeta (me_fileid r) (me_mode r) (me_nlink r) (me_uid r) (me_gid r) (me_owner r) (me_owner_group r) (me_atime_sec r) (me_atime_nsec r) (me_mtime_sec r) (me_mtime_nsec r) (me_ctime_sec r) (me_ctime_nsec r) (me_crtime_sec r) (me_crtime_nsec r) (me_change_id r) (me_archive r) v (me_system r) (me_named_attr_count r).
Definition set_me_system (v : bool) (r : SynthMeta) : SynthMeta :=
  mkSynthMeta (me_fileid r) (me_mode r) (me_nlink r) (me_uid r) (me_gid r) (me_owner r) (me_owner_group r) (me_atime_sec r) (me_atime_nsec r) (me_mtime_sec r) (me_mtime_nsec r) (me_ctime_sec r) (me_ctime_nsec r) (me_crtime_sec r) (me_crtime_nsec r) (me_change_id r) (me_archive r) (me_hidden r) v (me_named_attr_count r).
Definition set_me_named_attr_count (v : option Z) (r : SynthMeta) : SynthMeta :=
  mkSynthMeta (me_fileid r) (me_mode r) (me_nlink r) (me_uid r) (me_gid r) (me_owner r) (me_owner_group r) (me_atime_sec r) (me_atime_nsec r) (me_mtime_sec r) (me_mtime_nsec r) (me_ctime_sec r) (me_ctime_nsec r) (me_crtime_sec r) (me_crtime_nsec r) (me_change_id r) (me_archive r) (me_hidden r) (me_system r) v.

(** ** Open, lock and delegation state *)

Record LockRange := mkLockRange {
  lr_locktype : NfsLockType4;
  lr_offset : Z;
  lr_length : Z;
}.
#[export] Instance LockRange_eq_dec : EqDecision LockRange.
Proof. solve_decision. Defined.

Record LockFileState := mkLockFileState {
  ls_object : ServerObject;
  ls_owner : StateOwner4;
  ls_open_state_other : bytes;
  ls_ranges : list LockRange;
  ls_active : bool;
  ls_stateid_seq : Z;
}.
Definition set_ls_object (v : ServerObject) (r : LockFileState) : LockFileState :=
  mkLockFileState v (ls_owner r) (ls_open_state_other r) (ls_ranges r) (ls_active r) (ls_stateid_seq r).
Definition set_ls_owner (v : StateOwner4) (r : LockFileState) : LockFileState :=
  mkLockFileState (ls_object r) v (ls_open_state_other r) (ls_ranges r) (ls_active r) (ls_stateid_seq r).
Definition set_ls_open_state_other (v : bytes) (r : LockFileState) : LockFileState :=
  mkLockFileState (ls_object r) (ls_owner r) v (ls_ranges r) (ls_active r) (ls_stateid_seq r).
Definition set_ls_ranges (v : list LockRange) (r : LockFileState) : LockFileState :=
  mkLockFileState (ls_object r) (ls_owner r) (ls_open_state_other r) v (ls_active r) (ls_stateid_seq r).
Definition set_ls_active (v : bool) (r : LockFileState) : LockFileState :=
  mkLockFileState (ls_object r) (ls_owner r) (ls_open_state_other r) (ls_ranges r) v (ls_stateid_seq r).
Definition set_ls_stateid_seq (v : Z) (r : LockFileState) : LockFileState :=
  mkLockFileState (ls_object r) (ls_owner r) (ls_open_state_other r) (ls_ranges r) (ls_active r) v.

Record OpenFileState := mkOpenFileState {
  os_object : ServerObject;
  os_clientid : Z;
  os_owner : bytes;
  os_stateid_seq : Z;
  os_active : bool;
  os_share_access : Z;
  os_share_deny : Z;
}.
Definition set_os_object (v : ServerObject) (r : OpenFileState) : OpenFileState :=
  mkOpenFileState v (os_clientid r) (os_owner r) (os_stateid_seq r) (os_active r) (os_share_access r) (os_share_deny r).
Definition set_os_clientid (v : Z) (r : OpenFileState) : OpenFileState :=
  mkOpenFileState (os_object r) v (os_owner r) (os_stateid_seq r) (os_active r) (os_share_access r) (os_share_deny r).
Definition set_os_owner (v : bytes) (r : OpenFileState) : OpenFileState :=
  mkOpenFileState (os_object r) (os_clientid r) v (os_stateid_seq r) (os_active r) (os_share_access r) (os_share_deny r).
Definition set_os_stateid_seq (v : Z) (r : OpenFileState) : OpenFileState :=
  mkOpenFileState (os_object r) (os_clientid r) (os_owner r) v (os_active r) (os_share_access r) (os_share_deny r).
Definition set_os_active (v : bool) (r : OpenFileState) : OpenFileState :=
  mkOpenFileState (os_object r) (os_clientid r) (os_owner r) (os_stateid_seq r) v (os_share_access r) (os_share_deny r).
Definition set_os_share_access (v : Z) (r : OpenFileState) : OpenFileState :=
  mkOpenFileState (os_object r) (os_clientid r) (os_owner r) (os_stateid_seq r) (os_active r) v (os_share_deny r).
Definition set_os_share_deny (v : Z) (r : OpenFileState) : OpenFileState :=
  mkOpenFileState (os_object r) (os_clientid r) (os_owner r) (os_stateid_seq r) (os_active r) (os_share_access r) v.

Record ResolvedOpenState := mkResolvedOpenState {
  ro_other : bytes;
  ro_object : ServerObject;
  ro_share_access : Z;
}.

Record ResolvedLockState := mkResolvedLockState {
  rl_other : bytes;
  rl_object : ServerObject;
  rl_owner : StateOwner4;
  rl_open_state : ResolvedOpenState;
}.

Inductive ResolvedStateid :=
| Resolved_Anonymous
| Resolved_Bypass
| Resolved_Open (o : ResolvedOpenState)
| Resolved_Lock (l : ResolvedLockState).

Inductive DelegationKind := DirectoryRead.
#[export] Instance DelegationKind_eq_dec : EqDecision DelegationKind.
Proof. solve_decision. Defined.

Definition conveys_write (k : DelegationKind) : bool :=
  match k with DirectoryRead => false end.

Inductive DelegationStatus := Granted | RecallInProgress | Returned | Revoked.
#[export] Instance DelegationStatus_eq_dec : EqDecision DelegationStatus.
Proof. solve_decision. Defined.

Record DelegationState := mkDelegationState {
  ds_object : ServerObject;
  ds_clientid : Z;
  ds_sessionid : option bytes;
  ds_stateid_seq : Z;
  ds_kind : DelegationKind;
  ds_status : DelegationStatus;
  ds_granted_at : Z;
  ds_last_recall_at : option Z;
}.
Definition set_ds_object (v : ServerObject) (r : DelegationState) : DelegationState :=
  mkDelegationState v (ds_clientid r) (ds_sessionid r) (ds_stateid_seq r) (ds_kind r) (ds_status r) (ds_granted_at r) (ds_last_recall_at r).
Definition set_ds_clientid (v : Z) (r : DelegationState) : DelegationState :=
  mkDelegationState (ds_object r) v (ds_sessionid r) (ds_stateid_seq r) (ds_kind r) (ds_status r) (ds_granted_at r) (ds_last_recall_at r).
Definition set_ds_sessionid (v : option bytes) (r : DelegationState) : DelegationState :=
  mkDelegationState (ds_object r) (ds_clientid r) v (ds_stateid_seq r) (ds_kind r) (ds_status r) (ds_granted_at r) (ds_last_recall_at r).
Definition set_ds_stateid_seq (v : Z) (r : DelegationState) : DelegationState :=
  mkDelegationState (ds_object r) (ds_clientid r) (ds_sessionid r) v (ds_kind r) (ds_status r) (ds_granted_at r) (ds_last_recall_at r).
Definition set_ds_kind (v : DelegationKind) (r : DelegationState) : DelegationState :=
  mkDelegationState (ds_object r) (ds_clientid r) (ds_sessionid r) (ds_stateid_seq r) v (ds_status r) (ds_granted_at r) (ds_last_recall_at r).
Definition set_ds_status (v : DelegationStatus) (r : DelegationState) : DelegationState :=
  mkDelegationState (ds_object r) (ds_clientid r) (ds_sessionid r) (ds_stateid_seq r) (ds_kind r) v (ds_granted_at r) (ds_last_recall_at r).
Definition set_ds_granted_at (v : Z) (r : DelegationState) : DelegationState :=
  mkDelegationState (ds_object r) (ds_clientid r) (ds_sessionid r) (ds_stateid_seq r) (ds_kind r) (ds_status r) v (ds_last_recall_at r).
Definition set_ds_last_recall_at (v : option Z) (r : DelegationState) : DelegationState :=
  mkDelegationState (ds_object r) (ds_clientid r) (ds_sessionid r) (ds_stateid_seq r) (ds_kind r) (ds_status r) (ds_granted_at r) v.

(** ** Clients and sessions *)

Inductive ClientLeaseState :=
| Lease_Active (deadline : Z)
| Lease_Revoked (since : Z) (status_flags : Z).

Record ClientState := mkClientState {
  cs_clientid : Z;
  cs_owner : ClientOwner4;
  cs_confirmed : bool;
  cs_reclaim_complete_global : bool;
  cs_sequence_id : Z;
  cs_status_flags : Z;
  cs_replaced_clientid : option Z;
  cs_lease_state : ClientLeaseState;
  cs_v40_confirm : option bytes;
}.
Definition set_cs_clientid (v : Z) (r : ClientState) : ClientState :=
  mkClientState v (cs_owner r) (cs_confirmed r) (cs_reclaim_complete_global r) (cs_sequence_id r) (cs_status_flags r) (cs_replaced_clientid r) (cs_lease_state r) (cs_v40_confirm r).
Definition set_cs_owner (v : ClientOwner4) (r : ClientState) : ClientState :=
  mkClientState (cs_clientid r) v (cs_confirmed r) (cs_reclaim_complete_global r) (cs_sequence_id r) (cs_status_flags r) (cs_replaced_clientid r) (cs_lease_state r) (cs_v40_confirm r).
Definition set_cs_confirmed (v : bool) (r : ClientState) : ClientState :=
  mkClientState (cs_clientid r) (cs_owner r) v (cs_reclaim_complete_global r) (cs_sequence_id r) (cs_status_flags r) (cs_replaced_clientid r) (cs_lease_state r) (cs_v40_confirm r).
Definition set_cs_reclaim_complete_global (v : bool) (r : ClientState) : ClientState :=
  mkClientState (cs_clientid r) (cs_owner r) (cs_confirmed r) v (cs_sequence_id r) (cs_status_flags r) (cs_replaced_clientid r) (cs_lease_state r) (cs_v40_confirm r).
Definition set_cs_sequence_id (v : Z) (r : ClientState) : ClientState :=
  mkClientState (cs_clientid r) (cs_owner r) (cs_confirmed r) (cs_reclaim_complete_global r) v (cs_status_flags r) (cs_replaced_clientid r) (cs_lease_state r) (cs_v40_confirm r).
Definition set_cs_status_flags (v : Z) (r : ClientState) : ClientState :=
  mkClientState (cs_clientid r) (cs_owner r) (cs_confirmed r) (cs_reclaim_complete_global r) (cs_sequence_id r) v (cs_replaced_clientid r) (cs_lease_state r) (cs_v40_confirm r).
Definition set_cs_replaced_clientid (v : option Z) (r : ClientState) : ClientState :=
  mkClientState (cs_clientid r) (cs_owner r) (cs_confirmed r) (cs_reclaim_complete_global r) (cs_sequence_id r) (cs_status_flags r) v (cs_lease_state r) (cs_v40_confirm r).
Definition set_cs_lease_state (v : ClientLeaseState) (r : ClientState) : ClientState :=
  mkClientState (cs_clientid r) (cs_owner r) (cs_confirmed r) (cs_reclaim_complete_global r) (cs_sequence_id r) (cs_status_flags r) (cs_replaced_clientid r) v (cs_v40_confirm r).
Definition set_cs_v40_confirm (v : option bytes) (r : ClientState) : ClientState :=
  mkClientState (cs_clientid r) (cs_owner r) (cs_confirmed r) (cs_reclaim_complete_global r) (cs_sequence_id r) (cs_status_flags r) (cs_replaced_clientid r) (cs_lease_state r) v.

Record BackchannelState := mkBackchannelState {
  bs_cb_program : Z;
  bs_auth : OpaqueAuth;
  bs_next_sequenceid : Z;
  bs_highest_slotid : Z;
}.
Definition set_bs_cb_program (v : Z) (r : BackchannelState) : BackchannelState :=
  mkBackchannelState v (bs_auth r) (bs_next_sequenceid r) (bs_highest_slotid r).
Definition set_bs_auth (v : OpaqueAuth) (r : BackchannelState) : BackchannelState :=
  mkBackchannelState (bs_cb_program r) v (bs_next_sequenceid r) (bs_highest_slotid r).
Definition set_bs_next_sequenceid (v : Z) (r : BackchannelState) : BackchannelState :=
  mkBackchannelState (bs_cb_program r) (bs_auth r) v (bs_highest_slotid r).
Definition set_bs_highest_slotid (v : Z) (r : BackchannelState) : BackchannelState :=
  mkBackchannelState (bs_cb_program r) (bs_auth r) (bs_next_sequenceid r) v.

Record CallbackTarget := mkCallbackTarget {
  ct_sessionid : bytes;
  ct_connection_id : Z;
  ct_cb_program : Z;
  ct_auth : OpaqueAuth;
  ct_sequenceid : Z;
  ct_highest_slotid : Z;
}.

Inductive DirectoryDelegationGrant :=
| Grant_Granted (stateid : Stateid4)
| Grant_AlreadyHeld
| Grant_Unavailable.

Record DirectoryDelegationRecall := mkDirectoryDelegationRecall {
  dr_stateid : Stateid4;
  dr_clientid : Z;
  dr_send_callback : bool;
}.

Record CachedReplay := mkCachedReplay {
  cr_fingerprint : bytes;
  cr_response : bytes;
}.

Record SlotState := mkSlotState {
  sl_sequence_id : Z;
  sl_in_progress : option bytes;
  sl_cached_reply : option CachedReplay;
}.
Definition set_sl_sequence_id (v : Z) (r : SlotState) : SlotState :=
  mkSlotState v (sl_in_progress r) (sl_cached_reply r).
Definition set_sl_in_progress (v : option bytes) (r : SlotState) : SlotState :=
  mkSlotState (sl_sequence_id r) v (sl_cached_reply r).
Definition set_sl_cached_reply (v : option CachedReplay) (r : SlotState) : SlotState :=
  mkSlotState (sl_sequence_id r) (sl_in_progress r) v.

Record SessionState := mkSessionState {
  ss_clientid : Z;
  ss_slots : list SlotState;
  ss_fore_connections : gset Z;
  ss_back_connections : gset Z;
  ss_backchannel : option BackchannelState;
}.
Definition set_ss_clientid (v : Z) (r : SessionState) : SessionState :=
  mkSessionState v (ss_slots r) (ss_fore_connections r) (ss_back_connections r) (ss_backchannel r).
Definition set_ss_slots (v : list SlotState) (r : SessionState) : SessionState :=
  mkSessionState (ss_clientid r) v (ss_fore_connections r) (ss_back_connections r) (ss_backchannel r).
Definition set_ss_fore_connections (v : gset Z) (r : SessionState) : SessionState :=
  mkSessionState (ss_clientid r) (ss_slots r) v (ss_back_connections r) (ss_backchannel r).
Definition set_ss_back_connections (v : gset Z) (r : SessionState) : SessionState :=
  mkSessionState (ss_clientid r) (ss_slots r) (ss_fore_connections r) v (ss_backchannel r).
Definition set_ss_backchannel (v : option BackchannelState) (r : SessionState) : SessionState :=
  mkSessionState (ss_clientid r) (ss_slots r) (ss_fore_connections r) (ss_back_connections r) v.

Record SequenceCacheToken := mkSequenceCacheToken {
  tk_sessionid : bytes;
  tk_slotid : Z;
  tk_fingerprint : bytes;
}.

Inductive SequenceReplay :=
| Seq_Execute (res : SequenceRes4) (token : SequenceCacheToken)
| Seq_Replay (response : bytes)
| Seq_StatusOnly (res : SequenceRes4)
| Seq_Error (status : NfsStat4).

(** ** The state manager *)

Record StateInner := mkStateInner {
  in_clients : gmap Z ClientState;
  in_sessions : gmap bytes SessionState;
  in_open_files : gmap bytes OpenFileState;
  in_lock_files : gmap bytes LockFileState;
  in_delegations : gmap bytes DelegationState;
  in_dir_delegations : gmap ServerObject (gset bytes);
  in_client_delegations : gmap Z (gset bytes);
  in_metadata : gmap ServerObject SynthMeta;
}.
Definition set_in_clients (v : gmap Z ClientState) (r : StateInner) : StateInner :=
  mkStateInner v (in_sessions r) (in_open_files r) (in_lock_files r) (in_delegations r) (in_dir_delegations r) (in_client_delegations r) (in_metadata r).
Definition set_in_sessions (v : gmap bytes SessionState) (r : StateInner) : StateInner :=
  mkStateInner (in_clients r) v (in_open_files r) (in_lock_files r) (in_delegations r) (in_dir_delegations r) (in_client_delegations r) (in_metadata r).
Definition set_in_open_files (v : gmap bytes OpenFileState) (r : StateInner) : StateInner :=
  mkStateInner (in_clients r) (in_sessions r) v (in_lock_files r) (in_delegations r) (in_dir_delegations r) (in_client_delegations r) (in_metadata r).
Definition set_in_lock_files (v : gmap bytes LockFileState) (r : StateInner) : StateInner :=
  mkStateInner (in_clients r) (in_sessions r) (in_open_files r) v (in_delegations r) (in_dir_delegations r) (in_client_delegations r) (in_metadata r).
Definition set_in_delegations (v : gmap bytes DelegationState) (r : StateInner) : StateInner :=
  mkStateInner (in_clients r) (in_sessions r) (in_open_files r) (in_lock_files r) v (in_dir_delegations r) (in_client_delegations r) (in_metadata r).
Definition set_in_dir_delegations (v : gmap ServerObject (gset bytes)) (r : StateInner) : StateInner :=
  mkStateInner (in_clients r) (in_sessions r) (in_open_files r) (in_lock_files r) (in_delegations r) v (in_client_delegations r) (in_metadata r).
Definition set_in_client_delegations (v : gmap Z (gset bytes)) (r : StateInner) : StateInner :=
  mkStateInner (in_clients r) (in_sessions r) (in_open_files r) (in_lock_files r) (in_delegations r) (in_dir_delegations r) v (in_metadata r).
Definition set_in_metadata (v : gmap ServerObject SynthMeta) (r : StateInner) : StateInner :=
  mkStateInner (in_clients r) (in_sessions r) (in_open_files r) (in_lock_files r) (in_delegations r) (in_dir_delegations r) (in_client_delegations r) v.

Record NfsServerIdentity := mkNfsServerIdentity {
  id_owner_major_id : bytes;
  id_owner_minor_id : Z;
  id_scope : bytes;
}.

Record StateConfig := mkStateConfig {
  cf_lease_duration : Z;
  cf_revoked_retention : Z;
  cf_identity : NfsServerIdentity;
}.

Record StateManager := mkStateManager {
  sm_inner : StateInner;
  sm_fh_to_object : gmap bytes ServerObject;
  sm_object_to_fh : gmap ServerObject bytes;
  sm_persistent_fh : gmap Z bytes;
  sm_retired_objects : gset Z;
  sm_next_fh : Z;
  sm_fh_boot_nonce : bytes;
  sm_next_clientid : Z;
  sm_next_stateid : Z;
  sm_next_changeid : Z;
  sm_next_synth_fileid : Z;
  sm_next_connectionid : Z;
  sm_config : StateConfig;
  sm_write_verifier : bytes;
  sm_server_owner : ServerOwner4;
  sm_server_scope : bytes;
}.
Definition set_sm_inner (v : StateInner) (r : StateManager) : StateManager :=
  mkStateManager v (sm_fh_to_object r) (sm_object_to_fh r) (sm_persistent_fh r) (sm_retired_objects r) (sm_next_fh r) (sm_fh_boot_nonce r) (sm_next_clientid r) (sm_next_stateid r) (sm_next_changeid r) (sm_next_synth_fileid r) (sm_next_connectionid r) (sm_config r) (sm_write_verifier r) (sm_server_owner r) (sm_server_scope r).
Definition set_sm_fh_to_object (v : gmap bytes ServerObject) (r : StateManager) : StateManager :=
  mkStateManager (sm_inner r) v (sm_object_to_fh r) (sm_persistent_fh r) (sm_retired_objects r) (sm_next_fh r) (sm_fh_boot_nonce r) (sm_next_clientid r) (sm_next_stateid r) (sm_next_changeid r) (sm_next_synth_fileid r) (sm_next_connectionid r) (sm_config r) (sm_write_verifier r) (sm_server_owner r) (sm_server_scope r).
Definition set_sm_object_to_fh (v : gmap ServerObject bytes) (r : StateManager) : StateManager :=
  mkStateManager (sm_inner r) (sm_fh_to_object r) v (sm_persistent_fh r) (sm_retired_objects r) (sm_next_fh r) (sm_fh_boot_nonce r) (sm_next_clientid r) (sm_next_stateid r) (sm_next_changeid r) (sm_next_synth_fileid r) (sm_next_connectionid r) (sm_config r) (sm_write_verifier r) (sm_server_owner r) (sm_server_scope r).
Definition set_sm_persistent_fh (v : gmap Z bytes) (r : StateManager) : StateManager :=
  mkStateManager (sm_inner r) (sm_fh_to_object r) (sm_object_to_fh r) v (sm_retired_objects r) (sm_next_fh r) (sm_fh_boot_nonce r) (sm_next_clientid r) (sm_next_stateid r) (sm_next_changeid r) (sm_next_synth_fileid r) (sm_next_connectionid r) (sm_config r) (sm_write_verifier r) (sm_server_owner r) (sm_server_scope r).
Definition set_sm_retired_objects (v : gset Z) (r : StateManager) : StateManager :=
  mkStateManager (sm_inner r) (sm_fh_to_object r) (sm_object_to_fh r) (sm_persistent_fh r) v (sm_next_fh r) (sm_fh_boot_nonce r) (sm_next_clientid r) (sm_next_stateid r) (sm_next_changeid r) (sm_next_synth_fileid r) (sm_next_connectionid r) (sm_config r) (sm_write_verifier r) (sm_server_owner r) (sm_server_scope r).
Definition set_sm_next_fh (v : Z) (r : StateManager) : StateManager :=
  mkStateManager (sm_inner r) (sm_fh_to_object r) (sm_object_to_fh r) (sm_persistent_fh r) (sm_retired_objects r) v (sm_fh_boot_nonce r) (sm_next_clientid r) (sm_next_stateid r) (sm_next_changeid r) (sm_next_synth_fileid r) (sm_next_connectionid r) (sm_config r) (sm_write_verifier r) (sm_server_owner r) (sm_server_scope r).
Definition set_sm_fh_boot_nonce (v : bytes) (r : StateManager) : StateManager :=
  mkStateManager (sm_inner r) (sm_fh_to_object r) (sm_object_to_fh r) (sm_persistent_fh r) (sm_retired_objects r) (sm_next_fh r) v (sm_next_clientid r) (sm_next_stateid r) (sm_next_changeid r) (sm_next_synth_fileid r) (sm_next_connectionid r) (sm_config r) (sm_write_verifier r) (sm_server_owner r) (sm_server_scope r).
Definition set_sm_next_clientid (v : Z) (r : StateManager) : StateManager :=
  mkStateManager (sm_inner r) (sm_fh_to_object r) (sm_object_to_fh r) (sm_persistent_fh r) (sm_retired_objects r) (sm_next_fh r) (sm_fh_boot_nonce r) v (sm_next_stateid r) (sm_next_changeid r) (sm_next_synth_fileid r) (sm_next_connectionid r) (sm_config r) (sm_write_verifier r) (sm_server_owner r) (sm_server_scope r).
Definition set_sm_next_stateid (v : Z) (r : StateManager) : StateManager :=
  mkStateManager (sm_inner r) (sm_fh_to_object r) (sm_object_to_fh r) (sm_persistent_fh r) (sm_retired_objects r) (sm_next_fh r) (sm_fh_boot_nonce r) (sm_next_clientid r) v (sm_next_changeid r) (sm_next_synth_fileid r) (sm_next_connectionid r) (sm_config r) (sm_write_verifier r) (sm_server_owner r) (sm_server_scope r).
Definition set_sm_next_changeid (v : Z) (r : StateManager) : StateManager :=
  mkStateManager (sm_inner r) (sm_fh_to_object r) (sm_object_to_fh r) (sm_persistent_fh r) (sm_retired_objects r) (sm_next_fh r) (sm_fh_boot_nonce r) (sm_next_clientid r) (sm_next_stateid r) v (sm_next_synth_fileid r) (sm_next_connectionid r) (sm_config r) (sm_write_verifier r) (sm_server_owner r) (sm_server_scope r).
Definition set_sm_next_synth_fileid (v : Z) (r : StateManager) : StateManager :=
  mkStateManager (sm_inner r) (sm_fh_to_object r) (sm_object_to_fh r) (sm_persistent_fh r) (sm_retired_objects r) (sm_next_fh r) (sm_fh_boot_nonce r) (sm_next_clientid r) (sm_next_stateid r) (sm_next_changeid r) v (sm_next_connectionid r) (sm_config r) (sm_write_verifier r) (sm_server_owner r) (sm_server_scope r).
Definition set_sm_next_connectionid (v : Z) (r : StateManager) : StateManager :=
  mkStateManager (sm_inner r) (sm_fh_to_object r) (sm_object_to_fh r) (sm_persistent_fh r) (sm_retired_objects r) (sm_next_fh r) (sm_fh_boot_nonce r) (sm_next_clientid r) (sm_next_stateid r) (sm_next_changeid r) (sm_next_synth_fileid r) v (sm_config r) (sm_write_verifier r) (sm_server_owner r) (sm_server_scope r).
Definition set_sm_config (v : StateConfig) (r : StateManager) : StateManager :=
  mkStateManager (sm_inner r) (sm_fh_to_object r) (sm_object_to_fh r) (sm_persistent_fh r) (sm_retired_objects r) (sm_next_fh r) (sm_fh_boot_nonce r) (sm_next_clientid r) (sm_next_stateid r) (sm_next_changeid r) (sm_next_synth_fileid r) (sm_next_connectionid r) v (sm_write_verifier r) (sm_server_owner r) (sm_server_scope r).
Definition set_sm_write_verifier (v : bytes) (r : StateManager) : StateManager :=
  mkStateManager (sm_inner r) (sm_fh_to_object r) (sm_object_to_fh r) (sm_persistent_fh r) (sm_retired_objects r) (sm_next_fh r) (sm_fh_boot_nonce r) (sm_next_clientid r) (sm_next_stateid r) (sm_next_changeid r) (sm_next_synth_fileid r) (sm_next_connectionid r) (sm_config r) v (sm_server_owner r) (sm_server_scope r).
Definition set_sm_server_owner (v : ServerOwner4) (r : StateManager) : StateManager :=
  mkStateManager (sm_inner r) (sm_fh_to_object r) (sm_object_to_fh r) (sm_persistent_fh r) (sm_retired_objects r) (sm_next_fh r) (sm_fh_boot_nonce r) (sm_next_clientid r) (sm_next_stateid r) (sm_next_changeid r) (sm_next_synth_fileid r) (sm_next_connectionid r) (sm_config r) (sm_write_verifier r) v (sm_server_scope r).
Definition set_sm_server_scope (v : bytes) (r : StateManager) : StateManager :=
  mkStateManager (sm_inner r) (sm_fh_to_object r) (sm_object_to_fh r) (sm_persistent_fh r) (sm_retired_objects r) (sm_next_fh r) (sm_fh_boot_nonce r) (sm_next_clientid r) (sm_next_stateid r) (sm_next_changeid r) (sm_next_synth_fileid r) (sm_next_connectionid r) (sm_config r) (sm_write_verifier r) (sm_server_owner r) v.

(** ** Constants and construction (session/mod.rs) *)

Definition MAX_FORE_CHAN_SLOTS : Z := 64.
Definition MAX_REQUEST_SIZE : Z := 1049620.
Definition MAX_CACHED_RESPONSE : Z := 6144.
Definition SYNTH_FILEID_BASE : Z := 9223372036854775808.
Definition DEFAULT_LEASE_TIME_SECS : Z := 90.
Definition FH_NONCE_LEN : nat := 8.
Definition FH_LEN : nat := 16.
Definition PERSISTENT_FH_TAG : Z := 165.
Definition MAX_PERSISTENT_HANDLE_LEN : Z := 127.

Definition nanos_per_sec : Z := 1000000000.

Definition StateConfig_new (identity : NfsServerIdentity) : StateConfig :=
  let lease_duration := DEFAULT_LEASE_TIME_SECS * nanos_per_sec in
  mkStateConfig lease_duration lease_duration identity.

(** [u64::rotate_left(32)] *)
Definition rotate_left_32 (x : Z) : Z :=
  Z.lor (u64_wrap (Z.shiftl x 32)) (Z.shiftr x 32).

(** [new_fh_boot_nonce]: [rng] is what the operating system's generator
    filled in, [None] when it failed; [secs] and [nanos] are the boot clock. *)
Definition new_fh_boot_nonce (rng : option bytes) (secs nanos : Z) : bytes :=
  let nonce :=
    match rng with
    | Some n => n
    | None => be_bytes 8 (Z.lxor (rotate_left_32 secs) nanos)
    end in
  match nonce with
  | b :: rest => if b =? PERSISTENT_FH_TAG then Z.lxor b 1 :: rest else nonce
  | [] => []
  end.

Definition StateInner_empty : StateInner := mkStateInner ∅ ∅ ∅ ∅ ∅ ∅ ∅ ∅.

Definition with_config (config : StateConfig) (rng : option bytes) (secs nanos : Z)
    : StateManager :=
  let verifier_value := Z.lxor (rotate_left_32 secs) nanos in
  let write_verifier := be_bytes 8 verifier_value in
  let server_owner :=
    mkServerOwner4 (id_owner_minor_id (cf_identity config))
                   (id_owner_major_id (cf_identity config)) in
  let server_scope := id_scope (cf_identity config) in
  mkStateManager StateInner_empty ∅ ∅ ∅ ∅
    1 (new_fh_boot_nonce rng secs nanos) 1 1 2 SYNTH_FILEID_BASE 1
    config write_verifier server_owner server_scope.

(** [fetch_add(1)] on the atomic counters: the old value and the new state. *)
Definition alloc_stateid (s : StateManager) : Z * StateManager :=
  (sm_next_stateid s, set_sm_next_stateid (u32_wrap (sm_next_stateid s + 1)) s).
Definition alloc_clientid (s : StateManager) : Z * StateManager :=
  (sm_next_clientid s, set_sm_next_clientid (u64_wrap (sm_next_clientid s + 1)) s).
Definition alloc_changeid (s : StateManager) : Z * StateManager :=
  (sm_next_changeid s, set_sm_next_changeid (u64_wrap (sm_next_changeid s + 1)) s).
Definition alloc_synth_fileid (s : StateManager) : Z * StateManager :=
  (sm_next_synth_fileid s, set_sm_next_synth_fileid (u64_wrap (sm_next_synth_fileid s + 1)) s).
Definition alloc_fh (s : StateManager) : Z * StateManager :=
  (sm_next_fh s, set_sm_next_fh (u64_wrap (sm_next_fh s + 1)) s).
Definition alloc_connection_id (s : StateManager) : Z * StateManager :=
  (sm_next_connectionid s, set_sm_next_connectionid (u64_wrap (sm_next_connectionid s + 1)) s).

(** The twelve opaque bytes of a fresh stateid: the counter and the client. *)
Definition stateid_other (seq clientid : Z) : bytes := be_bytes 4 seq ++ be_bytes 8 clientid.

(** [belongs_to] and [is_retired] (session/invalidate.rs) share the object an
    entry hangs off. *)
Definition object_root (o : ServerObject) : Z :=
  match o with
  | Fs id | NamedAttrDir id => id
  | NamedAttrFile parent _ => parent
  end.

Definition is_retired (s : StateManager) (o : ServerObject) : bool :=
  bool_decide (object_root o ∈ sm_retired_objects s).

(** Changing the guarded part. *)
Definition with_inner (f : StateInner -> StateInner) (s : StateManager) : StateManager :=
  set_sm_inner (f (sm_inner s)) s.

Lemma stateid_other_length seq clientid : length (stateid_other seq clientid) = 12%nat.
Proof. unfold stateid_other. by rewrite length_app, !be_bytes_length. Qed.

Lemma stateid_other_inj seq clientid seq' clientid' :
  is_u32 seq -> is_u32 seq' -> is_u64 clientid -> is_u64 clientid' ->
  stateid_other seq clientid = stateid_other seq' clientid' ->
  seq = seq' /\ clientid = clientid'.
Proof.
  intros H1 H2 H3 H4 Heq. unfold stateid_other in Heq.
  apply app_inj_1 in Heq as [Ha Hb]; [|by rewrite !be_bytes_length].
  split; [by apply (be_bytes_inj 4); auto with nfs|by apply (be_bytes_inj 8); auto with nfs].
Qed.

(** A freshly booted server, used by the concrete instances of the theorems. *)
Definition example_identity : NfsServerIdentity :=
  mkNfsServerIdentity (str_bytes "embednfs") 0 (str_bytes "embednfs").
Definition example_boot : StateManager :=
  with_config (StateConfig_new example_identity) (Some (be_bytes 8 1234605616436508552)) 7 9.
