(* ===== verification/Constants.v ===== *)
(** * Protocol constants (crates/embednfs-proto/src/types/constants.rs)

    Attribute numbers, access bits, OPEN wants, operation numbers and result
    flags.  The constants of the session layer are in [Types]. *)

From Stdlib Require Import ZArith.

Local Open Scope Z_scope.

Definition FATTR4_SUPPORTED_ATTRS : Z := 0.
Definition FATTR4_TYPE : Z := 1.
Definition FATTR4_FH_EXPIRE_TYPE : Z := 2.
Definition FATTR4_CHANGE : Z := 3.
Definition FATTR4_SIZE : Z := 4.
Definition FATTR4_LINK_SUPPORT : Z := 5.
Definition FATTR4_SYMLINK_SUPPORT : Z := 6.
Definition FATTR4_NAMED_ATTR : Z := 7.
Definition FATTR4_FSID : Z := 8.
Definition FATTR4_UNIQUE_HANDLES : Z := 9.
Definition FATTR4_LEASE_TIME : Z := 10.
Definition FATTR4_RDATTR_ERROR : Z := 11.
Definition FATTR4_ACL : Z := 12.
Definition FATTR4_ACLSUPPORT : Z := 13.
Definition FATTR4_ARCHIVE : Z := 14.
Definition FATTR4_CANSETTIME : Z := 15.
Definition FATTR4_CASE_INSENSITIVE : Z := 16.
Definition FATTR4_CASE_PRESERVING : Z := 17.
Definition FATTR4_CHOWN_RESTRICTED : Z := 18.
Definition FATTR4_FILEHANDLE : Z := 19.
Definition FATTR4_FILEID : Z := 20.
Definition FATTR4_FILES_AVAIL : Z := 21.
Definition FATTR4_FILES_FREE : Z := 22.
Definition FATTR4_FILES_TOTAL : Z := 23.
Definition FATTR4_FS_LOCATIONS : Z := 24.
Definition FATTR4_HIDDEN : Z := 25.
Definition FATTR4_HOMOGENEOUS : Z := 26.
Definition FATTR4_MAXFILESIZE : Z := 27.
Definition FATTR4_MAXLINK : Z := 28.
Definition FATTR4_MAXNAME : Z := 29.
Definition FATTR4_MAXREAD : Z := 30.
Definition FATTR4_MAXWRITE : Z := 31.
Definition FATTR4_MIMETYPE : Z := 32.
Definition FATTR4_MODE : Z := 33.
Definition FATTR4_NO_TRUNC : Z := 34.
Definition FATTR4_NUMLINKS : Z := 35.
Definition FATTR4_OWNER : Z := 36.
Definition FATTR4_OWNER_GROUP : Z := 37.
Definition FATTR4_QUOTA_AVAIL_HARD : Z := 38.
Definition FATTR4_QUOTA_AVAIL_SOFT : Z := 39.
Definition FATTR4_QUOTA_USED : Z := 40.
Definition FATTR4_RAWDEV : Z := 41.
Definition FATTR4_SPACE_AVAIL : Z := 42.
Definition FATTR4_SPACE_FREE : Z := 43.
Definition FATTR4_SPACE_TOTAL : Z := 44.
Definition FATTR4_SPACE_USED : Z := 45.
Definition FATTR4_SYSTEM : Z := 46.
Definition FATTR4_TIME_ACCESS : Z := 47.
Definition FATTR4_TIME_ACCESS_SET : Z := 48.
Definition FATTR4_TIME_BACKUP : Z := 49.
Definition FATTR4_TIME_CREATE : Z := 50.
Definition FATTR4_TIME_DELTA : Z := 51.
Definition FATTR4_TIME_METADATA : Z := 52.
Definition FATTR4_TIME_MODIFY : Z := 53.
Definition FATTR4_TIME_MODIFY_SET : Z := 54.
Definition FATTR4_MOUNTED_ON_FILEID : Z := 55.
Definition FATTR4_SUPPATTR_EXCLCREAT : Z := 75.
Definition FATTR4_XATTR_SUPPORT : Z := 82.

Definition ACCESS4_READ : Z := 1.
Definition ACCESS4_LOOKUP : Z := 2.
Definition ACCESS4_MODIFY : Z := 4.
Definition ACCESS4_EXTEND : Z := 8.
Definition ACCESS4_DELETE : Z := 16.
Definition ACCESS4_EXECUTE : Z := 32.
Definition ACCESS4_XAREAD : Z := 64.
Definition ACCESS4_XAWRITE : Z := 128.
Definition ACCESS4_XALIST : Z := 256.

Definition OPEN4_SHARE_ACCESS_WANT_NO_PREFERENCE : Z := 0.
Definition OPEN4_SHARE_ACCESS_WANT_READ_DELEG : Z := 256.
Definition OPEN4_SHARE_ACCESS_WANT_WRITE_DELEG : Z := 512.
Definition OPEN4_SHARE_ACCESS_WANT_ANY_DELEG : Z := 768.
Definition OPEN4_SHARE_ACCESS_WANT_NO_DELEG : Z := 1024.
Definition OPEN4_SHARE_ACCESS_WANT_CANCEL : Z := 1280.
Definition OPEN4_SHARE_ACCESS_WANT_SIGNAL_DELEG_WHEN_RESRC_AVAIL : Z := 65536.
Definition OPEN4_SHARE_ACCESS_WANT_PUSH_DELEG_WHEN_UNCONTENDED : Z := 131072.

Definition OP_ACCESS : Z := 3.
Definition OP_CLOSE : Z := 4.
Definition OP_COMMIT : Z := 5.
Definition OP_CREATE : Z := 6.
Definition OP_DELEGPURGE : Z := 7.
Definition OP_DELEGRETURN : Z := 8.
Definition OP_GETATTR : Z := 9.
Definition OP_GETFH : Z := 10.
Definition OP_LINK : Z := 11.
Definition OP_LOCK : Z := 12.
Definition OP_LOCKT : Z := 13.
Definition OP_LOCKU : Z := 14.
Definition OP_LOOKUP : Z := 15.
Definition OP_LOOKUPP : Z := 16.
Definition OP_NVERIFY : Z := 17.
Definition OP_OPEN : Z := 18.
Definition OP_OPENATTR : Z := 19.
Definition OP_OPEN_CONFIRM : Z := 20.
Definition OP_OPEN_DOWNGRADE : Z := 21.
Definition OP_PUTFH : Z := 22.
Definition OP_PUTPUBFH : Z := 23.
Definition OP_PUTROOTFH : Z := 24.
Definition OP_READ : Z := 25.
Definition OP_READDIR : Z := 26.
Definition OP_READLINK : Z := 27.
Definition OP_REMOVE : Z := 28.
Definition OP_RENAME : Z := 29.
Definition OP_RENEW : Z := 30.
Definition OP_RESTOREFH : Z := 31.
Definition OP_SAVEFH : Z := 32.
Definition OP_SECINFO : Z := 33.
Definition OP_SETATTR : Z := 34.
Definition OP_SETCLIENTID : Z := 35.
Definition OP_SETCLIENTID_CONFIRM : Z := 36.
Definition OP_VERIFY : Z := 37.
Definition OP_WRITE : Z := 38.
Definition OP_RELEASE_LOCKOWNER : Z := 39.
Definition OP_BACKCHANNEL_CTL : Z := 40.
Definition OP_BIND_CONN_TO_SESSION : Z := 41.
Definition OP_EXCHANGE_ID : Z := 42.
Definition OP_CREATE_SESSION : Z := 43.
Definition OP_DESTROY_SESSION : Z := 44.
Definition OP_FREE_STATEID : Z := 45.
Definition OP_GET_DIR_DELEGATION : Z := 46.
Definition OP_GETDEVICEINFO : Z := 47.
Definition OP_GETDEVICELIST : Z := 48.
Definition OP_LAYOUTCOMMIT : Z := 49.
Definition OP_LAYOUTGET : Z := 50.
Definition OP_LAYOUTRETURN : Z := 51.
Definition OP_SECINFO_NO_NAME : Z := 52.
Definition OP_SEQUENCE : Z := 53.
Definition OP_SET_SSV : Z := 54.
Definition OP_TEST_STATEID : Z := 55.
Definition OP_WANT_DELEGATION : Z := 56.
Definition OP_DESTROY_CLIENTID : Z := 57.
Definition OP_RECLAIM_COMPLETE : Z := 58.
Definition OP_ALLOCATE : Z := 59.
Definition OP_COPY : Z := 60.
Definition OP_COPY_NOTIFY : Z := 61.
Definition OP_DEALLOCATE : Z := 62.
Definition OP_IO_ADVISE : Z := 63.
Definition OP_LAYOUTERROR : Z := 64.
Definition OP_LAYOUTSTATS : Z := 65.
Definition OP_OFFLOAD_CANCEL : Z := 66.
Definition OP_OFFLOAD_STATUS : Z := 67.
Definition OP_READ_PLUS : Z := 68.
Definition OP_SEEK : Z := 69.
Definition OP_WRITE_SAME : Z := 70.
Definition OP_CLONE : Z := 71.
Definition OP_GETXATTR : Z := 72.
Definition OP_SETXATTR : Z := 73.
Definition OP_LISTXATTRS : Z := 74.
Definition OP_REMOVEXATTR : Z := 75.
Definition OP_ILLEGAL : Z := 10044.

Definition OP_CB_GETATTR : Z := 3.
Definition OP_CB_RECALL : Z := 4.
Definition OP_CB_SEQUENCE : Z := 11.
Definition OP_CB_ILLEGAL : Z := 10044.

Definition EXCHGID4_FLAG_SUPP_MOVED_REFER : Z := 1.
Definition EXCHGID4_FLAG_SUPP_MOVED_MIGR : Z := 2.
Definition EXCHGID4_FLAG_BIND_PRINC_STATEID : Z := 256.
Definition EXCHGID4_FLAG_USE_PNFS_MDS : Z := 131072.
Definition EXCHGID4_FLAG_USE_PNFS_DS : Z := 262144.
Definition EXCHGID4_FLAG_MASK_PNFS : Z := 458752.
Definition EXCHGID4_FLAG_UPD_CONFIRMED_REC_A : Z := 1073741824.

Definition CREATE_SESSION4_FLAG_PERSIST : Z := 1.
Definition CREATE_SESSION4_FLAG_CONN_RDMA : Z := 4.

Definition SEQ4_STATUS_CB_PATH_DOWN : Z := 1.
Definition SEQ4_STATUS_CB_GSS_CONTEXTS_EXPIRING : Z := 2.
Definition SEQ4_STATUS_CB_GSS_CONTEXTS_EXPIRED : Z := 4.
Definition SEQ4_STATUS_EXPIRED_SOME_STATE_REVOKED : Z := 16.
Definition SEQ4_STATUS_ADMIN_STATE_REVOKED : Z := 32.
Definition SEQ4_STATUS_LEASE_MOVED : Z := 128.
Definition SEQ4_STATUS_RESTART_RECLAIM_NEEDED : Z := 256.
Definition SEQ4_STATUS_CB_PATH_DOWN_SESSION : Z := 512.
Definition SEQ4_STATUS_BACKCHANNEL_FAULT : Z := 1024.
Definition SEQ4_STATUS_DEVID_CHANGED : Z := 2048.
Definition SEQ4_STATUS_DEVID_DELETED : Z := 4096.

Definition OPEN4_RESULT_CONFIRM : Z := 2.
Definition OPEN4_RESULT_LOCKTYPE_POSIX : Z := 4.
Definition OPEN4_RESULT_PRESERVE_UNLINKED : Z := 8.
Definition OPEN4_RESULT_MAY_NOTIFY_LOCK : Z := 32.

Definition UNSTABLE4 : Z := 0.
Definition DATA_SYNC4 : Z := 1.
Definition FILE_SYNC4 : Z := 2.
