(* ===== verification/Operations.v ===== *)
(** * Operation arguments and results (crates/embednfs-proto/src/types/operations.rs,
    the one-field records of types/session.rs and types/callback.rs)

    A COMPOUND request is a list of [NfsArgop4], its reply a list of
    [NfsResop4].  Arguments that exist only to be decoded and dropped are not
    part of [NfsArgop4]; the decoder in [Codec] reads them. *)

From stdpp Require Import base gmap list sets strings numbers.
From Stdlib Require Import ZArith Lia.
From S2P Require Import Prelude Xdr Rpc Types Constants StateModel.

Local Open Scope Z_scope.

(** ** Enumerations *)

Inductive OpenDelegationType4 := Odt_None | Odt_Read | Odt_Write | Odt_NoneExt.
Definition OpenDelegationType4_u32 (t : OpenDelegationType4) : Z :=
  match t with Odt_None => 0 | Odt_Read => 1 | Odt_Write => 2 | Odt_NoneExt => 3 end.

Inductive WhyNoDelegation4 :=
| Wnd_NotWanted | Wnd_Contention | Wnd_ResourceNotAvail | Wnd_NotSuppFtype
| Wnd_WriteDelegNotSuppFtype | Wnd_NotSuppUpgrade | Wnd_NotSuppDowngrade
| Wnd_Cancelled | Wnd_IsDir.
Definition WhyNoDelegation4_u32 (w : WhyNoDelegation4) : Z :=
  match w with
  | Wnd_NotWanted => 0 | Wnd_Contention => 1 | Wnd_ResourceNotAvail => 2
  | Wnd_NotSuppFtype => 3 | Wnd_WriteDelegNotSuppFtype => 4 | Wnd_NotSuppUpgrade => 5
  | Wnd_NotSuppDowngrade => 6 | Wnd_Cancelled => 7 | Wnd_IsDir => 8
  end.

Inductive SetxattrOption4 := Sx_Either | Sx_Create | Sx_Replace.

(** ** Arguments *)

Record OpenConfirmArgs4 := mkOpenConfirmArgs4 { oca_open_stateid : Stateid4; oca_seqid : Z }.
Record ReleaseLockownerArgs4 := mkReleaseLockownerArgs4 { rla_lock_owner : StateOwner4 }.
Record AccessArgs4 := mkAccessArgs4 { aca_access : Z }.
Record CloseArgs4 := mkCloseArgs4 { cla_seqid : Z; cla_open_stateid : Stateid4 }.
Record CommitArgs4 := mkCommitArgs4 { cma_offset : Z; cma_count : Z }.

Inductive Createtype4 :=
| Ct_Reg
| Ct_Link (target : bytes)
| Ct_Blk (dev : Specdata4)
| Ct_Chr (dev : Specdata4)
| Ct_Sock
| Ct_Fifo
| Ct_Dir
| Ct_Unsupported (type_val : Z).

Record CreateArgs4 := mkCreateArgs4 {
  cra_objtype : Createtype4;
  cra_objname : bytes;
  cra_createattrs : Fattr4;
}.

Record GetattrArgs4 := mkGetattrArgs4 { gaa_attr_request : Bitmap4 }.
Record LinkArgs4 := mkLinkArgs4 { lna_newname : bytes }.
Record LookupArgs4 := mkLookupArgs4 { lka_objname : bytes }.

Inductive Createhow4 :=
| Ch_Unchecked (attrs : Fattr4)
| Ch_Guarded (attrs : Fattr4)
| Ch_Exclusive (verifier : bytes)
| Ch_Exclusive4_1 (verifier : bytes) (attrs : Fattr4).

Inductive Openflag4 :=
| Of_NoCreate
| Of_Create (how : Createhow4).

Record OpenArgs4 := mkOpenArgs4 {
  oa_seqid : Z;
  oa_share_access : Z;
  oa_share_deny : Z;
  oa_owner : StateOwner4;
  oa_openhow : Openflag4;
  oa_claim : OpenClaim4;
}.

Record PutfhArgs4 := mkPutfhArgs4 { pfa_object : bytes }.
Record ReadArgs4 := mkReadArgs4 { rda_stateid : Stateid4; rda_offset : Z; rda_count : Z }.

Record ReaddirArgs4 := mkReaddirArgs4 {
  rdd_cookie : Z;
  rdd_cookieverf : bytes;
  rdd_dircount : Z;
  rdd_maxcount : Z;
  rdd_attr_request : Bitmap4;
}.

Record RemoveArgs4 := mkRemoveArgs4 { rma_target : bytes }.
Record RenameArgs4 := mkRenameArgs4 { rna_oldname : bytes; rna_newname : bytes }.
Record SecinfoArgs4 := mkSecinfoArgs4 { sia_name : bytes }.

Record OpenDowngradeArgs4 := mkOpenDowngradeArgs4 {
  oda_open_stateid : Stateid4;
  oda_seqid : Z;
  oda_share_access : Z;
  oda_share_deny : Z;
}.

Record SetattrArgs4 := mkSetattrArgs4 { saa_stateid : Stateid4; saa_obj_attributes : Fattr4 }.

Record WriteArgs4 := mkWriteArgs4 {
  wra_stateid : Stateid4;
  wra_offset : Z;
  wra_stable : Z;
  wra_data : bytes;
}.

Record OpenToLockOwner4 := mkOpenToLockOwner4 {
  ol_open_seqid : Z;
  ol_open_stateid : Stateid4;
  ol_lock_seqid : Z;
  ol_lock_owner : StateOwner4;
}.
Record ExistLockOwner4 := mkExistLockOwner4 { el_lock_stateid : Stateid4; el_lock_seqid : Z }.
Inductive Locker4 :=
| NewLockOwner (o : OpenToLockOwner4)
| ExistingLockOwner (o : ExistLockOwner4).
Record LockArgs4 := mkLockArgs4 {
  la_locktype : NfsLockType4;
  la_reclaim : bool;
  la_offset : Z;
  la_length : Z;
  la_locker : Locker4;
}.
Record LocktArgs4 := mkLocktArgs4 {
  lt_locktype : NfsLockType4;
  lt_offset : Z;
  lt_length : Z;
  lt_owner : StateOwner4;
}.
Record LockuArgs4 := mkLockuArgs4 {
  lu_locktype : NfsLockType4;
  lu_seqid : Z;
  lu_lock_stateid : Stateid4;
  lu_offset : Z;
  lu_length : Z;
}.

Record OpenAttrArgs4 := mkOpenAttrArgs4 { opa_createdir : bool }.
Record GetxattrArgs4 := mkGetxattrArgs4 { gxa_name : bytes }.
Record SetxattrArgs4 := mkSetxattrArgs4 {
  sxa_option : SetxattrOption4;
  sxa_key : bytes;
  sxa_value : bytes;
}.
Record ListxattrsArgs4 := mkListxattrsArgs4 { lxa_cookie : Z; lxa_maxcount : Z }.
Record RemovexattrArgs4 := mkRemovexattrArgs4 { rxa_name : bytes }.

Record DestroySessionArgs4 := mkDestroySessionArgs4 { dsa_sessionid : bytes }.
Record ReclaimCompleteArgs4 := mkReclaimCompleteArgs4 { rca_one_fs : bool }.
Record DestroyClientidArgs4 := mkDestroyClientidArgs4 { dca_clientid : Z }.
Record FreeStateidArgs4 := mkFreeStateidArgs4 { fsa_stateid : Stateid4 }.
Record TestStateidArgs4 := mkTestStateidArgs4 { tsa_stateids : list Stateid4 }.
Record DelegReturnArgs4 := mkDelegReturnArgs4 { dra_stateid : Stateid4 }.

Inductive NfsArgop4 :=
| Arg_Access (a : AccessArgs4)
| Arg_Close (a : CloseArgs4)
| Arg_Commit (a : CommitArgs4)
| Arg_Create (a : CreateArgs4)
| Arg_Getattr (a : GetattrArgs4)
| Arg_Getfh
| Arg_Link (a : LinkArgs4)
| Arg_Lookup (a : LookupArgs4)
| Arg_Lookupp
| Arg_Open (a : OpenArgs4)
| Arg_Putfh (a : PutfhArgs4)
| Arg_Putpubfh
| Arg_Putrootfh
| Arg_Read (a : ReadArgs4)
| Arg_Readdir (a : ReaddirArgs4)
| Arg_Readlink
| Arg_Remove (a : RemoveArgs4)
| Arg_Rename (a : RenameArgs4)
| Arg_Restorefh
| Arg_Savefh
| Arg_Secinfo (a : SecinfoArgs4)
| Arg_Setattr (a : SetattrArgs4)
| Arg_Write (a : WriteArgs4)
| Arg_ExchangeId (a : ExchangeIdArgs4)
| Arg_CreateSession (a : CreateSessionArgs4)
| Arg_DestroySession (a : DestroySessionArgs4)
| Arg_Sequence (a : SequenceArgs4)
| Arg_ReclaimComplete (a : ReclaimCompleteArgs4)
| Arg_DestroyClientid (a : DestroyClientidArgs4)
| Arg_BindConnToSession (a : BindConnToSessionArgs4)
| Arg_SecInfoNoName (style : Z)
| Arg_FreeStateid (a : FreeStateidArgs4)
| Arg_TestStateid (a : TestStateidArgs4)
| Arg_DelegReturn (a : DelegReturnArgs4)
| Arg_OpenConfirm (a : OpenConfirmArgs4)
| Arg_Renew (clientid : Z)
| Arg_SetClientId (a : SetClientIdArgs4)
| Arg_SetClientIdConfirm (a : SetClientIdConfirmArgs4)
| Arg_ReleaseLockowner (a : ReleaseLockownerArgs4)
| Arg_Lock (a : LockArgs4)
| Arg_Lockt (a : LocktArgs4)
| Arg_Locku (a : LockuArgs4)
| Arg_OpenAttr (a : OpenAttrArgs4)
| Arg_DelegPurge
| Arg_Verify (a : Fattr4)
| Arg_Nverify (a : Fattr4)
| Arg_OpenDowngrade (a : OpenDowngradeArgs4)
| Arg_LayoutGet
| Arg_LayoutReturn
| Arg_LayoutCommit
| Arg_GetDirDelegation
| Arg_WantDelegation
| Arg_BackchannelCtl
| Arg_GetDeviceInfo
| Arg_GetDeviceList
| Arg_SetSsv
| Arg_Getxattr (a : GetxattrArgs4)
| Arg_Setxattr (a : SetxattrArgs4)
| Arg_Listxattrs (a : ListxattrsArgs4)
| Arg_Removexattr (a : RemovexattrArgs4)
| Arg_Unsupported (opnum : Z)
| Arg_Illegal.

Record Compound4Args := mkCompound4Args {
  c4a_tag : bytes;
  c4a_minorversion : Z;
  c4a_argarray : list NfsArgop4;
}.

(** ** Results *)

Record NfsAce4 := mkNfsAce4 {
  ace_type : Z;
  ace_flags : Z;
  ace_access_mask : Z;
  ace_who : bytes;
}.
Definition encode_NfsAce4 (a : NfsAce4) : bytes :=
  encode_u32 (ace_type a) ++ encode_u32 (ace_flags a) ++
  encode_u32 (ace_access_mask a) ++ encode_string (ace_who a).

Record NfsModifiedLimit4 := mkNfsModifiedLimit4 { nml_num_blocks : Z; nml_bytes_per_block : Z }.

Inductive NfsSpaceLimit4 :=
| Sl_Size (filesize : Z)
| Sl_Blocks (limit : NfsModifiedLimit4).
Definition encode_NfsSpaceLimit4 (l : NfsSpaceLimit4) : bytes :=
  match l with
  | Sl_Size filesize => encode_u32 1 ++ encode_u64 filesize
  | Sl_Blocks limit =>
    encode_u32 2 ++ encode_u32 (nml_num_blocks limit) ++ encode_u32 (nml_bytes_per_block limit)
  end.

Record OpenReadDelegation4 := mkOpenReadDelegation4 {
  ord_stateid : Stateid4;
  ord_recall : bool;
  ord_permissions : NfsAce4;
}.
Record OpenWriteDelegation4 := mkOpenWriteDelegation4 {
  owd_stateid : Stateid4;
  owd_recall : bool;
  owd_space_limit : NfsSpaceLimit4;
  owd_permissions : NfsAce4;
}.
Inductive OpenNoneDelegation4 :=
| Ond_Contention (server_will_push_deleg : bool)
| Ond_Resource (server_will_signal_avail : bool)
| Ond_Other (why : WhyNoDelegation4).
Inductive OpenDelegation4 :=
| Od_None
| Od_NoneExt (why : OpenNoneDelegation4)
| Od_Read (read : OpenReadDelegation4)
| Od_Write (write : OpenWriteDelegation4).

Record DeviceAddr4 := mkDeviceAddr4 { da_layout_type : Z; da_addr_body : bytes }.
Definition encode_DeviceAddr4 (d : DeviceAddr4) : bytes :=
  encode_u32 (da_layout_type d) ++ encode_opaque (da_addr_body d).
Record LayoutContent4 := mkLayoutContent4 { loc_layout_type : Z; loc_body : bytes }.
Definition encode_LayoutContent4 (c : LayoutContent4) : bytes :=
  encode_u32 (loc_layout_type c) ++ encode_opaque (loc_body c).
Record Layout4 := mkLayout4 {
  lo_offset : Z;
  lo_length : Z;
  lo_iomode : Z;
  lo_content : LayoutContent4;
}.
Definition encode_Layout4 (l : Layout4) : bytes :=
  encode_u64 (lo_offset l) ++ encode_u64 (lo_length l) ++ encode_u32 (lo_iomode l) ++
  encode_LayoutContent4 (lo_content l).
Inductive Newsize4 := Ns_Unchanged | Ns_Size (size : Z).
Definition encode_Newsize4 (n : Newsize4) : bytes :=
  match n with
  | Ns_Unchanged => encode_bool false
  | Ns_Size size => encode_bool true ++ encode_u64 size
  end.

Record GetDirDelegationResOk4 := mkGetDirDelegationResOk4 {
  gdd_cookieverf : bytes;
  gdd_stateid : Stateid4;
  gdd_notification : Bitmap4;
  gdd_child_attributes : Bitmap4;
  gdd_dir_attributes : Bitmap4;
}.
Inductive GetDirDelegationRes4 :=
| Gdd_Ok (ok : GetDirDelegationResOk4)
| Gdd_Unavail (will_signal_deleg_avail : bool).
Inductive GetDeviceInfoRes4 :=
| Gdi_Ok (device_addr : DeviceAddr4) (notification : Bitmap4)
| Gdi_TooSmall (mincount : Z).
Record GetDeviceListResOk4 := mkGetDeviceListResOk4 {
  gdl_cookie : Z;
  gdl_cookieverf : bytes;
  gdl_deviceid_list : list bytes;
  gdl_eof : bool;
}.
Record LayoutCommitResOk4 := mkLayoutCommitResOk4 { lcr_newsize : Newsize4 }.
Record LayoutGetResOk4 := mkLayoutGetResOk4 {
  lgr_return_on_close : bool;
  lgr_stateid : Stateid4;
  lgr_layout : list Layout4;
}.
Inductive LayoutGetRes4 :=
| Lg_Ok (ok : LayoutGetResOk4)
| Lg_LayoutTryLater (will_signal_layout_avail : bool).
Inductive LayoutReturnStateid4 := Lrs_None | Lrs_Some (stateid : Stateid4).
Record SetSsvResOk4 := mkSetSsvResOk4 { ssr_digest : bytes }.
Record ListxattrsResOk4 := mkListxattrsResOk4 {
  lxr_cookie : Z;
  lxr_names : list bytes;
  lxr_eof : bool;
}.
Record SecinfoEntry4 := mkSecinfoEntry4 { sie_flavor : Z }.
Definition encode_SecinfoEntry4 (e : SecinfoEntry4) : bytes := encode_u32 (sie_flavor e).

Record OpenRes4 := mkOpenRes4 {
  or_stateid : Stateid4;
  or_cinfo : ChangeInfo4;
  or_rflags : Z;
  or_attrset : Bitmap4;
  or_delegation : OpenDelegation4;
}.
Record ReadRes4 := mkReadRes4 { rr4_eof : bool; rr4_data : bytes }.
Record WriteRes4 := mkWriteRes4 { wr4_count : Z; wr4_committed : Z; wr4_writeverf : bytes }.
Record Entry4 := mkEntry4 { e4_cookie : Z; e4_name : bytes; e4_attrs : Fattr4 }.
Record ReaddirRes4 := mkReaddirRes4 {
  rdr_cookieverf : bytes;
  rdr_entries : list Entry4;
  rdr_eof : bool;
}.

Inductive NfsResop4 :=
| Res_Access (status : NfsStat4) (supported access : Z)
| Res_Close (status : NfsStat4) (stateid : Stateid4)
| Res_Commit (status : NfsStat4) (verf : bytes)
| Res_Create (status : NfsStat4) (cinfo : option ChangeInfo4) (attrset : Bitmap4)
| Res_Getattr (status : NfsStat4) (attrs : option Fattr4)
| Res_Getfh (status : NfsStat4) (fh : option bytes)
| Res_Link (status : NfsStat4) (cinfo : option ChangeInfo4)
| Res_Lookup (status : NfsStat4)
| Res_Lookupp (status : NfsStat4)
| Res_Open (status : NfsStat4) (res : option OpenRes4)
| Res_Putfh (status : NfsStat4)
| Res_Putpubfh (status : NfsStat4)
| Res_Putrootfh (status : NfsStat4)
| Res_Read (status : NfsStat4) (res : option ReadRes4)
| Res_Readdir (status : NfsStat4) (res : option ReaddirRes4)
| Res_Readlink (status : NfsStat4) (target : option bytes)
| Res_Remove (status : NfsStat4) (cinfo : option ChangeInfo4)
| Res_Rename (status : NfsStat4) (src_cinfo tgt_cinfo : option ChangeInfo4)
| Res_Restorefh (status : NfsStat4)
| Res_Savefh (status : NfsStat4)
| Res_Secinfo (status : NfsStat4) (entries : list SecinfoEntry4)
| Res_Setattr (status : NfsStat4) (attrsset : Bitmap4)
| Res_Write (status : NfsStat4) (res : option WriteRes4)
| Res_ExchangeId (status : NfsStat4) (res : option ExchangeIdRes4)
| Res_CreateSession (status : NfsStat4) (res : option CreateSessionRes4)
| Res_DestroySession (status : NfsStat4)
| Res_Sequence (status : NfsStat4) (res : option SequenceRes4)
| Res_ReclaimComplete (status : NfsStat4)
| Res_DestroyClientid (status : NfsStat4)
| Res_BindConnToSession (status : NfsStat4) (res : option BindConnToSessionRes4)
| Res_SecInfoNoName (status : NfsStat4) (entries : list SecinfoEntry4)
| Res_FreeStateid (status : NfsStat4)
| Res_TestStateid (status : NfsStat4) (results : list NfsStat4)
| Res_DelegReturn (status : NfsStat4)
| Res_OpenConfirm (status : NfsStat4) (stateid : option Stateid4)
| Res_Renew (status : NfsStat4)
| Res_SetClientId (status : NfsStat4) (res : option SetClientIdRes4)
| Res_SetClientIdConfirm (status : NfsStat4)
| Res_ReleaseLockowner (status : NfsStat4)
| Res_Lock (status : NfsStat4) (stateid : option Stateid4) (denied : option LockDenied4)
| Res_Lockt (status : NfsStat4) (denied : option LockDenied4)
| Res_Locku (status : NfsStat4) (stateid : option Stateid4)
| Res_OpenAttr (status : NfsStat4)
| Res_DelegPurge (status : NfsStat4)
| Res_Verify (status : NfsStat4)
| Res_Nverify (status : NfsStat4)
| Res_OpenDowngrade (status : NfsStat4) (stateid : option Stateid4)
| Res_LayoutGet (status : NfsStat4) (res : option LayoutGetRes4)
| Res_LayoutReturn (status : NfsStat4) (res : option LayoutReturnStateid4)
| Res_LayoutCommit (status : NfsStat4) (res : option LayoutCommitResOk4)
| Res_GetDirDelegation (status : NfsStat4) (res : option GetDirDelegationRes4)
| Res_WantDelegation (status : NfsStat4) (res : option OpenDelegation4)
| Res_BackchannelCtl (status : NfsStat4)
| Res_GetDeviceInfo (status : NfsStat4) (res : option GetDeviceInfoRes4)
| Res_GetDeviceList (status : NfsStat4) (res : option GetDeviceListResOk4)
| Res_SetSsv (status : NfsStat4) (res : option SetSsvResOk4)
| Res_Getxattr (status : NfsStat4) (value : option bytes)
| Res_Setxattr (status : NfsStat4) (cinfo : option ChangeInfo4)
| Res_Listxattrs (status : NfsStat4) (res : option ListxattrsResOk4)
| Res_Removexattr (status : NfsStat4) (cinfo : option ChangeInfo4)
| Res_Unsupported (opnum : Z) (status : NfsStat4)
| Res_Illegal (status : NfsStat4).

Record Compound4Res := mkCompound4Res {
  c4r_status : NfsStat4;
  c4r_tag : bytes;
  c4r_resarray : list NfsResop4;
}.

(** ** Callbacks (types/callback.rs) *)

Record CbSequenceArgs4 := mkCbSequenceArgs4 {
  cbs_sessionid : bytes;
  cbs_sequenceid : Z;
  cbs_slotid : Z;
  cbs_highest_slotid : Z;
  cbs_cachethis : bool;
}.
Record CbSequenceResOk4 := mkCbSequenceResOk4 {
  cbr_sessionid : bytes;
  cbr_sequenceid : Z;
  cbr_slotid : Z;
  cbr_highest_slotid : Z;
  cbr_target_highest_slotid : Z;
}.
Record CbRecallArgs4 := mkCbRecallArgs4 {
  cbl_stateid : Stateid4;
  cbl_truncate : bool;
  cbl_fh : bytes;
}.
Inductive NfsCbArgop4 :=
| CbArg_Sequence (args : CbSequenceArgs4)
| CbArg_Recall (args : CbRecallArgs4).
Inductive NfsCbResop4 :=
| CbRes_Sequence (status : NfsStat4) (res : option CbSequenceResOk4)
| CbRes_Recall (status : NfsStat4).
Record CbCompound4Args := mkCbCompound4Args {
  cca_tag : bytes;
  cca_minorversion : Z;
  cca_callback_ident : Z;
  cca_argarray : list NfsCbArgop4;
}.
Record CbCompound4Res := mkCbCompound4Res {
  ccr_status : NfsStat4;
  ccr_tag : bytes;
  ccr_resarray : list NfsCbResop4;
}.
