(* ===== verification/Codec.v ===== *)
(** * The COMPOUND codec (crates/embednfs-proto/src/types/codec.rs and callback.rs)

    The decoder of COMPOUND requests, one definition per arm of
    [decode_nfs_argop4], the encoder of COMPOUND replies, and the codec of
    callbacks.  [count as usize] is exact: [usize] is 64 bits wide.  The
    theorems are in [CodecProps]. *)

From stdpp Require Import base gmap list sets strings numbers.
From Stdlib Require Import ZArith Lia.
From S2P Require Import Prelude Xdr Rpc Types Constants StateModel Operations.

Local Open Scope Z_scope.
Local Open Scope nfs_scope.

(** ** Decoding requests *)

Definition dec_access : decoder NfsArgop4 :=
  let? access := decode_u32 in dec_ret (Arg_Access (mkAccessArgs4 access)).

Definition dec_close : decoder NfsArgop4 :=
  let? seqid := decode_u32 in
  let? open_stateid := decode_Stateid4 in
  dec_ret (Arg_Close (mkCloseArgs4 seqid open_stateid)).

Definition dec_commit : decoder NfsArgop4 :=
  let? offset := decode_u64 in
  let? count := decode_u32 in
  dec_ret (Arg_Commit (mkCommitArgs4 offset count)).

Definition dec_specdata : decoder Specdata4 :=
  let? specdata1 := decode_u32 in
  let? specdata2 := decode_u32 in
  dec_ret (mkSpecdata4 specdata1 specdata2).

Definition dec_createtype (type_val : Z) : decoder Createtype4 :=
  if type_val =? 1 then dec_ret Ct_Reg
  else if type_val =? 5 then (let? target := decode_string in dec_ret (Ct_Link target))
  else if type_val =? 3 then (let? dev := dec_specdata in dec_ret (Ct_Blk dev))
  else if type_val =? 4 then (let? dev := dec_specdata in dec_ret (Ct_Chr dev))
  else if type_val =? 6 then dec_ret Ct_Sock
  else if type_val =? 7 then dec_ret Ct_Fifo
  else if type_val =? 2 then dec_ret Ct_Dir
  else dec_ret (Ct_Unsupported type_val).

Definition dec_create : decoder NfsArgop4 :=
  let? type_val := decode_u32 in
  let? objtype := dec_createtype type_val in
  let? objname := decode_string in
  let? createattrs := decode_Fattr4 in
  dec_ret (Arg_Create (mkCreateArgs4 objtype objname createattrs)).

Definition dec_getattr : decoder NfsArgop4 :=
  let? attr_request := decode_Bitmap4 in dec_ret (Arg_Getattr (mkGetattrArgs4 attr_request)).

Definition dec_link : decoder NfsArgop4 :=
  let? newname := decode_string in dec_ret (Arg_Link (mkLinkArgs4 newname)).

Definition dec_lookup : decoder NfsArgop4 :=
  let? objname := decode_string in dec_ret (Arg_Lookup (mkLookupArgs4 objname)).

Definition dec_createhow (createmode : Z) : decoder Createhow4 :=
  if createmode =? 0 then (let? fa := decode_Fattr4 in dec_ret (Ch_Unchecked fa))
  else if createmode =? 1 then (let? fa := decode_Fattr4 in dec_ret (Ch_Guarded fa))
  else if createmode =? 2 then (let? v := decode_fixed_opaque 8 in dec_ret (Ch_Exclusive v))
  else if createmode =? 3 then
    (let? v := decode_fixed_opaque 8 in
     let? attrs := decode_Fattr4 in
     dec_ret (Ch_Exclusive4_1 v attrs))
  else dec_fail (InvalidEnum createmode).

Definition dec_openclaim (claim_type : Z) : decoder OpenClaim4 :=
  if claim_type =? 0 then (let? file := decode_string in dec_ret (Claim_Null file))
  else if claim_type =? 1 then (let? t := decode_u32 in dec_ret (Claim_Previous t))
  else if claim_type =? 2 then
    (let? delegate_stateid := decode_Stateid4 in
     let? file := decode_string in
     dec_ret (Claim_DelegateCur delegate_stateid file))
  else if claim_type =? 3 then (let? file := decode_string in dec_ret (Claim_DelegatePrev file))
  else if claim_type =? 4 then dec_ret Claim_Fh
  else if claim_type =? 5 then (let? s := decode_Stateid4 in dec_ret (Claim_DelegCurFh s))
  else if claim_type =? 6 then dec_ret Claim_DelegPrevFh
  else dec_fail (InvalidEnum claim_type).

Definition dec_openflag (opentype : Z) : decoder Openflag4 :=
  if opentype =? 1 then
    (let? createmode := decode_u32 in
     let? how := dec_createhow createmode in
     dec_ret (Of_Create how))
  else dec_ret Of_NoCreate.

Definition dec_open : decoder NfsArgop4 :=
  let? seqid := decode_u32 in
  let? share_access := decode_u32 in
  let? share_deny := decode_u32 in
  let? owner := decode_StateOwner4 in
  let? opentype := decode_u32 in
  let? openhow := dec_openflag opentype in
  let? claim_type := decode_u32 in
  let? claim := dec_openclaim claim_type in
  dec_ret (Arg_Open (mkOpenArgs4 seqid share_access share_deny owner openhow claim)).

Definition dec_open_confirm : decoder NfsArgop4 :=
  let? open_stateid := decode_Stateid4 in
  let? seqid := decode_u32 in
  dec_ret (Arg_OpenConfirm (mkOpenConfirmArgs4 open_stateid seqid)).

Definition dec_open_downgrade : decoder NfsArgop4 :=
  let? open_stateid := decode_Stateid4 in
  let? seqid := decode_u32 in
  let? share_access := decode_u32 in
  let? share_deny := decode_u32 in
  dec_ret (Arg_OpenDowngrade (mkOpenDowngradeArgs4 open_stateid seqid share_access share_deny)).

Definition dec_putfh : decoder NfsArgop4 :=
  let? object := decode_NfsFh4 in dec_ret (Arg_Putfh (mkPutfhArgs4 object)).

Definition dec_read : decoder NfsArgop4 :=
  let? stateid := decode_Stateid4 in
  let? offset := decode_u64 in
  let? count := decode_u32 in
  dec_ret (Arg_Read (mkReadArgs4 stateid offset count)).

Definition dec_readdir : decoder NfsArgop4 :=
  let? cookie := decode_u64 in
  let? cookieverf := decode_fixed_opaque 8 in
  let? dircount := decode_u32 in
  let? maxcount := decode_u32 in
  let? attr_request := decode_Bitmap4 in
  dec_ret (Arg_Readdir (mkReaddirArgs4 cookie cookieverf dircount maxcount attr_request)).

Definition dec_remove : decoder NfsArgop4 :=
  let? target := decode_string in dec_ret (Arg_Remove (mkRemoveArgs4 target)).

Definition dec_rename : decoder NfsArgop4 :=
  let? oldname := decode_string in
  let? newname := decode_string in
  dec_ret (Arg_Rename (mkRenameArgs4 oldname newname)).

Definition dec_secinfo : decoder NfsArgop4 :=
  let? name := decode_string in dec_ret (Arg_Secinfo (mkSecinfoArgs4 name)).

Definition dec_setattr : decoder NfsArgop4 :=
  let? stateid := decode_Stateid4 in
  let? obj_attributes := decode_Fattr4 in
  dec_ret (Arg_Setattr (mkSetattrArgs4 stateid obj_attributes)).

Definition dec_write : decoder NfsArgop4 :=
  let? stateid := decode_Stateid4 in
  let? offset := decode_u64 in
  let? stable := decode_u32 in
  let? data := decode_opaque in
  dec_ret (Arg_Write (mkWriteArgs4 stateid offset stable data)).

Definition dec_state_protect_ops : decoder StateProtectOps4 :=
  let? enforce := decode_Bitmap4 in
  let? allow := decode_Bitmap4 in
  dec_ret (mkStateProtectOps4 enforce allow).

Definition dec_state_protect (sp_type : Z) : decoder StateProtect4A :=
  if sp_type =? 0 then dec_ret SpA_None
  else if sp_type =? 1 then (let? ops := dec_state_protect_ops in dec_ret (SpA_MachCred ops))
  else if sp_type =? 2 then
    (let? ops := dec_state_protect_ops in
     let? hash_algs := decode_list decode_opaque in
     let? encr_algs := decode_list decode_opaque in
     let? window := decode_u32 in
     let? num_gss_handles := decode_u32 in
     dec_ret (SpA_Ssv (mkSsvSpParms4 ops hash_algs encr_algs window num_gss_handles)))
  else dec_fail (InvalidEnum sp_type).

Definition dec_exchange_id : decoder NfsArgop4 :=
  let? clientowner := decode_ClientOwner4 in
  let? flags := decode_u32 in
  let? sp_type := decode_u32 in
  let? state_protect := dec_state_protect sp_type in
  let? client_impl_id := decode_list decode_NfsImplId4 in
  dec_ret (Arg_ExchangeId (mkExchangeIdArgs4 clientowner flags state_protect client_impl_id)).

Definition dec_create_session : decoder NfsArgop4 :=
  let? clientid := decode_u64 in
  let? sequence := decode_u32 in
  let? flags := decode_u32 in
  let? fore_chan_attrs := decode_ChannelAttrs4 in
  let? back_chan_attrs := decode_ChannelAttrs4 in
  let? cb_program := decode_u32 in
  let? sec_parms := decode_list decode_CallbackSecParms4 in
  dec_ret (Arg_CreateSession (mkCreateSessionArgs4 clientid sequence flags fore_chan_attrs
                                back_chan_attrs cb_program sec_parms)).

Definition dec_destroy_session : decoder NfsArgop4 :=
  let? sessionid := decode_fixed_opaque 16 in
  dec_ret (Arg_DestroySession (mkDestroySessionArgs4 sessionid)).

Definition dec_sequence : decoder NfsArgop4 :=
  let? sessionid := decode_fixed_opaque 16 in
  let? sequenceid := decode_u32 in
  let? slotid := decode_u32 in
  let? highest_slotid := decode_u32 in
  let? cachethis := decode_bool in
  dec_ret (Arg_Sequence (mkSequenceArgs4 sessionid sequenceid slotid highest_slotid cachethis)).

Definition dec_reclaim_complete : decoder NfsArgop4 :=
  let? one_fs := decode_bool in dec_ret (Arg_ReclaimComplete (mkReclaimCompleteArgs4 one_fs)).

Definition dec_destroy_clientid : decoder NfsArgop4 :=
  let? clientid := decode_u64 in dec_ret (Arg_DestroyClientid (mkDestroyClientidArgs4 clientid)).

Definition dec_bind_conn_to_session : decoder NfsArgop4 :=
  let? sessionid := decode_fixed_opaque 16 in
  let? dir := decode_u32 in
  let? use_conn_in_rdma_mode := decode_bool in
  dec_ret (Arg_BindConnToSession (mkBindConnToSessionArgs4 sessionid dir use_conn_in_rdma_mode)).

Definition dec_secinfo_no_name : decoder NfsArgop4 :=
  let? style := decode_u32 in dec_ret (Arg_SecInfoNoName style).

Definition dec_free_stateid : decoder NfsArgop4 :=
  let? stateid := decode_Stateid4 in dec_ret (Arg_FreeStateid (mkFreeStateidArgs4 stateid)).

Definition dec_test_stateid : decoder NfsArgop4 :=
  let? stateids := decode_list decode_Stateid4 in
  dec_ret (Arg_TestStateid (mkTestStateidArgs4 stateids)).

Definition dec_delegreturn : decoder NfsArgop4 :=
  let? stateid := decode_Stateid4 in dec_ret (Arg_DelegReturn (mkDelegReturnArgs4 stateid)).

Definition dec_setclientid : decoder NfsArgop4 :=
  let? verifier := decode_fixed_opaque 8 in
  let? ownerid := decode_opaque_max 1024 in
  let? cb_program := decode_u32 in
  let? cb_netid := decode_string in
  let? cb_addr := decode_string in
  let? callback_ident := decode_u32 in
  dec_ret (Arg_SetClientId (mkSetClientIdArgs4 (mkClientOwner4 verifier ownerid)
                              (mkNfsClientCallback4 cb_program cb_netid cb_addr) callback_ident)).

Definition dec_setclientid_confirm : decoder NfsArgop4 :=
  let? clientid := decode_u64 in
  let? verifier := decode_fixed_opaque 8 in
  dec_ret (Arg_SetClientIdConfirm (mkSetClientIdConfirmArgs4 clientid verifier)).

Definition dec_renew : decoder NfsArgop4 :=
  let? clientid := decode_u64 in dec_ret (Arg_Renew clientid).

Definition dec_release_lockowner : decoder NfsArgop4 :=
  let? clientid := decode_u64 in
  let? owner := decode_opaque_max 1024 in
  dec_ret (Arg_ReleaseLockowner (mkReleaseLockownerArgs4 (mkStateOwner4 clientid owner))).

Definition dec_locker (new_lock_owner : bool) : decoder Locker4 :=
  if new_lock_owner then
    (let? open_seqid := decode_u32 in
     let? open_stateid := decode_Stateid4 in
     let? lock_seqid := decode_u32 in
     let? clientid := decode_u64 in
     let? owner := decode_opaque_max 1024 in
     dec_ret (NewLockOwner (mkOpenToLockOwner4 open_seqid open_stateid lock_seqid
                              (mkStateOwner4 clientid owner))))
  else
    (let? lock_stateid := decode_Stateid4 in
     let? lock_seqid := decode_u32 in
     dec_ret (ExistingLockOwner (mkExistLockOwner4 lock_stateid lock_seqid))).

Definition dec_lock : decoder NfsArgop4 :=
  let? locktype := decode_NfsLockType4 in
  let? reclaim := decode_bool in
  let? offset := decode_u64 in
  let? length := decode_u64 in
  let? new_lock_owner := decode_bool in
  let? locker := dec_locker new_lock_owner in
  dec_ret (Arg_Lock (mkLockArgs4 locktype reclaim offset length locker)).

Definition dec_lockt : decoder NfsArgop4 :=
  let? locktype := decode_NfsLockType4 in
  let? offset := decode_u64 in
  let? length := decode_u64 in
  let? clientid := decode_u64 in
  let? owner := decode_opaque_max 1024 in
  dec_ret (Arg_Lockt (mkLocktArgs4 locktype offset length (mkStateOwner4 clientid owner))).

Definition dec_locku : decoder NfsArgop4 :=
  let? locktype := decode_NfsLockType4 in
  let? seqid := decode_u32 in
  let? lock_stateid := decode_Stateid4 in
  let? offset := decode_u64 in
  let? length := decode_u64 in
  dec_ret (Arg_Locku (mkLockuArgs4 locktype seqid lock_stateid offset length)).

Definition dec_openattr : decoder NfsArgop4 :=
  let? createdir := decode_bool in dec_ret (Arg_OpenAttr (mkOpenAttrArgs4 createdir)).

Definition dec_delegpurge : decoder NfsArgop4 :=
  let? _ := decode_u64 in dec_ret Arg_DelegPurge.

Definition dec_verify : decoder NfsArgop4 :=
  let? fattr := decode_Fattr4 in dec_ret (Arg_Verify fattr).

Definition dec_nverify : decoder NfsArgop4 :=
  let? fattr := decode_Fattr4 in dec_ret (Arg_Nverify fattr).

Definition dec_backchannel_ctl : decoder NfsArgop4 :=
  let? _ := decode_u32 in
  let? _ := decode_list decode_CallbackSecParms4 in
  dec_ret Arg_BackchannelCtl.

Definition dec_get_dir_delegation : decoder NfsArgop4 :=
  let? _ := decode_bool in
  let? _ := decode_Bitmap4 in
  let? _ := decode_u64 in
  let? _ := decode_u32 in
  let? _ := decode_u64 in
  let? _ := decode_u32 in
  let? _ := decode_Bitmap4 in
  let? _ := decode_Bitmap4 in
  dec_ret Arg_GetDirDelegation.

Definition dec_getdeviceinfo : decoder NfsArgop4 :=
  let? _ := decode_fixed_opaque 16 in
  let? _ := decode_u32 in
  let? _ := decode_u32 in
  let? _ := decode_Bitmap4 in
  dec_ret Arg_GetDeviceInfo.

Definition dec_getdevicelist : decoder NfsArgop4 :=
  let? _ := decode_u32 in
  let? _ := decode_u32 in
  let? _ := decode_u64 in
  let? _ := decode_fixed_opaque 8 in
  dec_ret Arg_GetDeviceList.

(** [if flag { let _ = decode(src)?; }] *)
Definition dec_when {A} (flag : bool) (d : decoder A) : decoder unit :=
  if flag then (let? _ := d in dec_ret tt) else dec_ret tt.

Definition dec_layoutcommit : decoder NfsArgop4 :=
  let? _ := decode_u64 in
  let? _ := decode_u64 in
  let? _ := decode_bool in
  let? _ := decode_Stateid4 in
  let? new_offset := decode_bool in
  let? _ := dec_when new_offset decode_u64 in
  let? time_modify := decode_bool in
  let? _ := dec_when time_modify decode_NfsTime4 in
  let? _ := decode_u32 in
  let? _ := decode_opaque in
  dec_ret Arg_LayoutCommit.

Definition dec_layoutget : decoder NfsArgop4 :=
  let? _ := decode_bool in
  let? _ := decode_u32 in
  let? _ := decode_u32 in
  let? _ := decode_u64 in
  let? _ := decode_u64 in
  let? _ := decode_u64 in
  let? _ := decode_Stateid4 in
  let? _ := decode_u32 in
  dec_ret Arg_LayoutGet.

Definition dec_layoutreturn_file : decoder unit :=
  let? _ := decode_u64 in
  let? _ := decode_u64 in
  let? _ := decode_Stateid4 in
  let? _ := decode_opaque in
  dec_ret tt.

Definition dec_layoutreturn : decoder NfsArgop4 :=
  let? _ := decode_bool in
  let? _ := decode_u32 in
  let? _ := decode_u32 in
  let? return_type := decode_u32 in
  let? _ := dec_when (return_type =? 1) dec_layoutreturn_file in
  dec_ret Arg_LayoutReturn.

Definition dec_set_ssv : decoder NfsArgop4 :=
  let? _ := decode_opaque in
  let? _ := decode_opaque in
  dec_ret Arg_SetSsv.

Definition dec_want_delegation : decoder NfsArgop4 :=
  let? _ := decode_u32 in
  let? claim_type := decode_u32 in
  let? _ := dec_when (claim_type =? 3) decode_string in
  dec_ret Arg_WantDelegation.

Definition dec_getxattr : decoder NfsArgop4 :=
  let? name := decode_string in dec_ret (Arg_Getxattr (mkGetxattrArgs4 name)).

Definition dec_setxattr_option (option_raw : Z) : decoder SetxattrOption4 :=
  if option_raw =? 0 then dec_ret Sx_Either
  else if option_raw =? 1 then dec_ret Sx_Create
  else if option_raw =? 2 then dec_ret Sx_Replace
  else dec_fail (InvalidEnum option_raw).

Definition dec_setxattr : decoder NfsArgop4 :=
  let? option_raw := decode_u32 in
  let? option := dec_setxattr_option option_raw in
  let? key := decode_string in
  let? value := decode_opaque in
  dec_ret (Arg_Setxattr (mkSetxattrArgs4 option key value)).

Definition dec_listxattrs : decoder NfsArgop4 :=
  let? cookie := decode_u64 in
  let? maxcount := decode_u32 in
  dec_ret (Arg_Listxattrs (mkListxattrsArgs4 cookie maxcount)).

Definition dec_removexattr : decoder NfsArgop4 :=
  let? name := decode_string in dec_ret (Arg_Removexattr (mkRemovexattrArgs4 name)).

(** *** Operations that are parsed and then refused *)

Definition decode_stateid_offset_length : decoder unit :=
  let? _ := decode_Stateid4 in
  let? _ := decode_u64 in
  let? _ := decode_u64 in
  dec_ret tt.

Definition decode_netloc : decoder unit :=
  let? kind := decode_u32 in
  if (kind =? 1) || (kind =? 2) then (let? _ := decode_string in dec_ret tt)
  else if kind =? 3 then
    (let? _ := decode_string in
     let? _ := decode_string in
     dec_ret tt)
  else dec_fail (InvalidEnum kind).

(** [for _ in 0..count { body(src)?; }] *)
Definition dec_repeat (count : Z) (d : decoder unit) : decoder unit := fun src =>
  match loop_times (decode_item d) count ([], src) with
  | Ok (_, src') => Ok (tt, src')
  | Err e => Err e
  end.

Definition decode_netloc_list : decoder unit :=
  let? count := decode_u32 in dec_repeat count decode_netloc.

Definition dec_allocate : decoder NfsArgop4 :=
  let? _ := decode_stateid_offset_length in dec_ret (Arg_Unsupported OP_ALLOCATE).

Definition dec_copy : decoder NfsArgop4 :=
  let? _ := decode_Stateid4 in
  let? _ := decode_Stateid4 in
  let? _ := decode_u64 in
  let? _ := decode_u64 in
  let? _ := decode_u64 in
  let? _ := decode_bool in
  let? _ := decode_bool in
  let? _ := decode_netloc_list in
  dec_ret (Arg_Unsupported OP_COPY).

Definition dec_copy_notify : decoder NfsArgop4 :=
  let? _ := decode_Stateid4 in
  let? _ := decode_netloc in
  dec_ret (Arg_Unsupported OP_COPY_NOTIFY).

Definition dec_deallocate : decoder NfsArgop4 :=
  let? _ := decode_stateid_offset_length in dec_ret (Arg_Unsupported OP_DEALLOCATE).

Definition dec_io_advise : decoder NfsArgop4 :=
  let? _ := decode_Stateid4 in
  let? _ := decode_u64 in
  let? _ := decode_u64 in
  let? _ := decode_Bitmap4 in
  dec_ret (Arg_Unsupported OP_IO_ADVISE).

Definition dec_device_error : decoder unit :=
  let? _ := decode_fixed_opaque 16 in
  let? _ := decode_u32 in
  let? _ := decode_u32 in
  dec_ret tt.

Definition dec_layouterror : decoder NfsArgop4 :=
  let? _ := decode_u64 in
  let? _ := decode_u64 in
  let? _ := decode_Stateid4 in
  let? count := decode_u32 in
  let? _ := dec_repeat count dec_device_error in
  dec_ret (Arg_Unsupported OP_LAYOUTERROR).

Definition dec_layoutstats : decoder NfsArgop4 :=
  let? _ := decode_u64 in
  let? _ := decode_u64 in
  let? _ := decode_Stateid4 in
  let? _ := decode_u64 in
  let? _ := decode_u64 in
  let? _ := decode_u64 in
  let? _ := decode_u64 in
  let? _ := decode_fixed_opaque 16 in
  let? _ := decode_opaque in
  dec_ret (Arg_Unsupported OP_LAYOUTSTATS).

Definition dec_offload_cancel : decoder NfsArgop4 :=
  let? _ := decode_Stateid4 in dec_ret (Arg_Unsupported OP_OFFLOAD_CANCEL).

Definition dec_offload_status : decoder NfsArgop4 :=
  let? _ := decode_Stateid4 in dec_ret (Arg_Unsupported OP_OFFLOAD_STATUS).

Definition dec_read_plus : decoder NfsArgop4 :=
  let? _ := decode_Stateid4 in
  let? _ := decode_u64 in
  let? _ := decode_u32 in
  dec_ret (Arg_Unsupported OP_READ_PLUS).

Definition dec_seek : decoder NfsArgop4 :=
  let? _ := decode_Stateid4 in
  let? _ := decode_u64 in
  let? _ := decode_u32 in
  dec_ret (Arg_Unsupported OP_SEEK).

Definition dec_clone : decoder NfsArgop4 :=
  let? _ := decode_Stateid4 in
  let? _ := decode_Stateid4 in
  let? _ := decode_u64 in
  let? _ := decode_u64 in
  let? _ := decode_u64 in
  dec_ret (Arg_Unsupported OP_CLONE).

(** *** The dispatch on the operation number *)

Definition argop_arm (opnum : Z) : decoder NfsArgop4 :=
  if opnum =? OP_ACCESS then dec_access else
  if opnum =? OP_CLOSE then dec_close else
  if opnum =? OP_COMMIT then dec_commit else
  if opnum =? OP_CREATE then dec_create else
  if opnum =? OP_GETATTR then dec_getattr else
  if opnum =? OP_GETFH then dec_ret Arg_Getfh else
  if opnum =? OP_LINK then dec_link else
  if opnum =? OP_LOOKUP then dec_lookup else
  if opnum =? OP_LOOKUPP then dec_ret Arg_Lookupp else
  if opnum =? OP_OPEN then dec_open else
  if opnum =? OP_OPEN_CONFIRM then dec_open_confirm else
  if opnum =? OP_OPEN_DOWNGRADE then dec_open_downgrade else
  if opnum =? OP_PUTFH then dec_putfh else
  if opnum =? OP_PUTPUBFH then dec_ret Arg_Putpubfh else
  if opnum =? OP_PUTROOTFH then dec_ret Arg_Putrootfh else
  if opnum =? OP_READ then dec_read else
  if opnum =? OP_READDIR then dec_readdir else
  if opnum =? OP_READLINK then dec_ret Arg_Readlink else
  if opnum =? OP_REMOVE then dec_remove else
  if opnum =? OP_RENAME then dec_rename else
  if opnum =? OP_RESTOREFH then dec_ret Arg_Restorefh else
  if opnum =? OP_SAVEFH then dec_ret Arg_Savefh else
  if opnum =? OP_SECINFO then dec_secinfo else
  if opnum =? OP_SETATTR then dec_setattr else
  if opnum =? OP_WRITE then dec_write else
  if opnum =? OP_EXCHANGE_ID then dec_exchange_id else
  if opnum =? OP_CREATE_SESSION then dec_create_session else
  if opnum =? OP_DESTROY_SESSION then dec_destroy_session else
  if opnum =? OP_SEQUENCE then dec_sequence else
  if opnum =? OP_RECLAIM_COMPLETE then dec_reclaim_complete else
  if opnum =? OP_DESTROY_CLIENTID then dec_destroy_clientid else
  if opnum =? OP_BIND_CONN_TO_SESSION then dec_bind_conn_to_session else
  if opnum =? OP_SECINFO_NO_NAME then dec_secinfo_no_name else
  if opnum =? OP_FREE_STATEID then dec_free_stateid else
  if opnum =? OP_TEST_STATEID then dec_test_stateid else
  if opnum =? OP_DELEGRETURN then dec_delegreturn else
  if opnum =? OP_SETCLIENTID then dec_setclientid else
  if opnum =? OP_SETCLIENTID_CONFIRM then dec_setclientid_confirm else
  if opnum =? OP_RENEW then dec_renew else
  if opnum =? OP_RELEASE_LOCKOWNER then dec_release_lockowner else
  if opnum =? OP_LOCK then dec_lock else
  if opnum =? OP_LOCKT then dec_lockt else
  if opnum =? OP_LOCKU then dec_locku else
  if opnum =? OP_OPENATTR then dec_openattr else
  if opnum =? OP_DELEGPURGE then dec_delegpurge else
  if opnum =? OP_VERIFY then dec_verify else
  if opnum =? OP_NVERIFY then dec_nverify else
  if opnum =? OP_BACKCHANNEL_CTL then dec_backchannel_ctl else
  if opnum =? OP_GET_DIR_DELEGATION then dec_get_dir_delegation else
  if opnum =? OP_GETDEVICEINFO then dec_getdeviceinfo else
  if opnum =? OP_GETDEVICELIST then dec_getdevicelist else
  if opnum =? OP_LAYOUTCOMMIT then dec_layoutcommit else
  if opnum =? OP_LAYOUTGET then dec_layoutget else
  if opnum =? OP_LAYOUTRETURN then dec_layoutreturn else
  if opnum =? OP_SET_SSV then dec_set_ssv else
  if opnum =? OP_WANT_DELEGATION then dec_want_delegation else
  if opnum =? OP_GETXATTR then dec_getxattr else
  if opnum =? OP_SETXATTR then dec_setxattr else
  if opnum =? OP_LISTXATTRS then dec_listxattrs else
  if opnum =? OP_REMOVEXATTR then dec_removexattr else
  if opnum =? OP_ALLOCATE then dec_allocate else
  if opnum =? OP_COPY then dec_copy else
  if opnum =? OP_COPY_NOTIFY then dec_copy_notify else
  if opnum =? OP_DEALLOCATE then dec_deallocate else
  if opnum =? OP_IO_ADVISE then dec_io_advise else
  if opnum =? OP_LAYOUTERROR then dec_layouterror else
  if opnum =? OP_LAYOUTSTATS then dec_layoutstats else
  if opnum =? OP_OFFLOAD_CANCEL then dec_offload_cancel else
  if opnum =? OP_OFFLOAD_STATUS then dec_offload_status else
  if opnum =? OP_READ_PLUS then dec_read_plus else
  if opnum =? OP_SEEK then dec_seek else
  if opnum =? OP_CLONE then dec_clone else
  dec_ret Arg_Illegal.

Definition decode_nfs_argop4 : decoder NfsArgop4 :=
  let? opnum := decode_u32 in argop_arm opnum.

Definition decode_Compound4Args : decoder Compound4Args :=
  let? tag := decode_string in
  let? minorversion := decode_u32 in
  let? argarray := decode_list decode_nfs_argop4 in
  dec_ret (mkCompound4Args tag minorversion argarray).

(** ** Encoding replies *)

Definition encode_open_none_delegation (why : OpenNoneDelegation4) : bytes :=
  match why with
  | Ond_Contention server_will_push_deleg =>
    encode_u32 (WhyNoDelegation4_u32 Wnd_Contention) ++ encode_bool server_will_push_deleg
  | Ond_Resource server_will_signal_avail =>
    encode_u32 (WhyNoDelegation4_u32 Wnd_ResourceNotAvail) ++ encode_bool server_will_signal_avail
  | Ond_Other why => encode_u32 (WhyNoDelegation4_u32 why)
  end.

Definition encode_open_delegation (delegation : OpenDelegation4) : bytes :=
  match delegation with
  | Od_None => encode_u32 (OpenDelegationType4_u32 Odt_None)
  | Od_NoneExt why =>
    encode_u32 (OpenDelegationType4_u32 Odt_NoneExt) ++ encode_open_none_delegation why
  | Od_Read read =>
    encode_u32 (OpenDelegationType4_u32 Odt_Read) ++ encode_Stateid4 (ord_stateid read) ++
    encode_bool (ord_recall read) ++ encode_NfsAce4 (ord_permissions read)
  | Od_Write write =>
    encode_u32 (OpenDelegationType4_u32 Odt_Write) ++ encode_Stateid4 (owd_stateid write) ++
    encode_bool (owd_recall write) ++ encode_NfsSpaceLimit4 (owd_space_limit write) ++
    encode_NfsAce4 (owd_permissions write)
  end.

(** [if *status == NfsStat4::Ok { .. }] *)
Definition when_ok (status : NfsStat4) (body : bytes) : bytes :=
  if decide (status = NFS_Ok) then body else [].

(** [if let Some(v) = o { v.encode(dst) }] *)
Definition opt_enc {A} (enc : A -> bytes) (o : option A) : bytes :=
  match o with Some v => enc v | None => [] end.

Definition encode_OpenRes4 (r : OpenRes4) : bytes :=
  encode_Stateid4 (or_stateid r) ++ encode_ChangeInfo4 (or_cinfo r) ++
  encode_u32 (or_rflags r) ++ encode_Bitmap4 (or_attrset r) ++
  encode_open_delegation (or_delegation r).

Definition encode_ReadRes4 (r : ReadRes4) : bytes :=
  encode_bool (rr4_eof r) ++ encode_opaque (rr4_data r).

Definition encode_Entry4 (entry : Entry4) : bytes :=
  encode_bool true ++ encode_u64 (e4_cookie entry) ++ encode_string (e4_name entry) ++
  encode_Fattr4 (e4_attrs entry).

Definition encode_ReaddirRes4 (r : ReaddirRes4) : bytes :=
  rdr_cookieverf r ++ flat_map encode_Entry4 (rdr_entries r) ++ encode_bool false ++
  encode_bool (rdr_eof r).

Definition encode_WriteRes4 (r : WriteRes4) : bytes :=
  encode_u32 (wr4_count r) ++ encode_u32 (wr4_committed r) ++ wr4_writeverf r.

Definition encode_ExchangeIdRes4 (r : ExchangeIdRes4) : bytes :=
  encode_u64 (eir_clientid r) ++ encode_u32 (eir_sequenceid r) ++ encode_u32 (eir_flags r) ++
  encode_StateProtect4R (eir_state_protect r) ++ encode_ServerOwner4 (eir_server_owner r) ++
  encode_opaque (eir_server_scope r) ++
  encode_list encode_NfsImplId4 (eir_server_impl_id r).

Definition encode_CreateSessionRes4 (r : CreateSessionRes4) : bytes :=
  csr_sessionid r ++ encode_u32 (csr_sequenceid r) ++ encode_u32 (csr_flags r) ++
  encode_ChannelAttrs4 (csr_fore_chan_attrs r) ++ encode_ChannelAttrs4 (csr_back_chan_attrs r).

Definition encode_SequenceRes4 (r : SequenceRes4) : bytes :=
  sr_sessionid r ++ encode_u32 (sr_sequenceid r) ++ encode_u32 (sr_slotid r) ++
  encode_u32 (sr_highest_slotid r) ++ encode_u32 (sr_target_highest_slotid r) ++
  encode_u32 (sr_status_flags r).

Definition encode_BindConnToSessionRes4 (r : BindConnToSessionRes4) : bytes :=
  bcr_sessionid r ++ encode_u32 (bcr_dir r) ++ encode_bool (bcr_use_conn_in_rdma_mode r).

Definition encode_SetClientIdRes4 (r : SetClientIdRes4) : bytes :=
  encode_u64 (scr_clientid r) ++ scr_setclientid_confirm r.

Definition encode_LockDenied4 (d : LockDenied4) : bytes :=
  encode_u64 (ld_offset d) ++ encode_u64 (ld_length d) ++
  encode_NfsLockType4 (ld_locktype d) ++ encode_u64 (so_clientid (ld_owner d)) ++
  encode_opaque (so_owner (ld_owner d)).

Definition encode_lock_payload (status : NfsStat4) (stateid : option Stateid4)
    (denied : option LockDenied4) : bytes :=
  match status, stateid, denied with
  | NFS_Ok, Some s, _ => encode_Stateid4 s
  | NFS_Denied, _, Some d => encode_LockDenied4 d
  | _, _, _ => []
  end.

Definition encode_layoutget_payload (status : NfsStat4) (res : option LayoutGetRes4) : bytes :=
  match status, res with
  | NFS_Ok, Some (Lg_Ok ok) =>
    encode_bool (lgr_return_on_close ok) ++ encode_Stateid4 (lgr_stateid ok) ++
    encode_list encode_Layout4 (lgr_layout ok)
  | NFS_LayoutTrylater, Some (Lg_LayoutTryLater will_signal_layout_avail) =>
    encode_bool will_signal_layout_avail
  | _, _ => []
  end.

Definition encode_layoutreturn_payload (res : LayoutReturnStateid4) : bytes :=
  match res with
  | Lrs_None => encode_bool false
  | Lrs_Some stateid => encode_bool true ++ encode_Stateid4 stateid
  end.

Definition encode_GetDirDelegationRes4 (res : GetDirDelegationRes4) : bytes :=
  match res with
  | Gdd_Ok ok =>
    encode_u32 0 ++ gdd_cookieverf ok ++ encode_Stateid4 (gdd_stateid ok) ++
    encode_Bitmap4 (gdd_notification ok) ++ encode_Bitmap4 (gdd_child_attributes ok) ++
    encode_Bitmap4 (gdd_dir_attributes ok)
  | Gdd_Unavail will_signal_deleg_avail => encode_u32 1 ++ encode_bool will_signal_deleg_avail
  end.

Definition encode_getdeviceinfo_payload (status : NfsStat4) (res : option GetDeviceInfoRes4)
    : bytes :=
  match status, res with
  | NFS_Ok, Some (Gdi_Ok device_addr notification) =>
    encode_DeviceAddr4 device_addr ++ encode_Bitmap4 notification
  | NFS_Toosmall, Some (Gdi_TooSmall mincount) => encode_u32 mincount
  | _, _ => []
  end.

Definition encode_GetDeviceListResOk4 (res : GetDeviceListResOk4) : bytes :=
  encode_u64 (gdl_cookie res) ++ gdl_cookieverf res ++
  encode_list (fun deviceid => deviceid) (gdl_deviceid_list res) ++ encode_bool (gdl_eof res).

Definition encode_ListxattrsResOk4 (res : ListxattrsResOk4) : bytes :=
  encode_u64 (lxr_cookie res) ++ encode_list encode_string (lxr_names res) ++
  encode_bool (lxr_eof res).

(** The operation number a result starts with. *)
Definition resop_num (res : NfsResop4) : Z :=
  match res with
  | Res_Access _ _ _ => OP_ACCESS
  | Res_Close _ _ => OP_CLOSE
  | Res_Commit _ _ => OP_COMMIT
  | Res_Create _ _ _ => OP_CREATE
  | Res_Getattr _ _ => OP_GETATTR
  | Res_Getfh _ _ => OP_GETFH
  | Res_Link _ _ => OP_LINK
  | Res_Lookup _ => OP_LOOKUP
  | Res_Lookupp _ => OP_LOOKUPP
  | Res_Open _ _ => OP_OPEN
  | Res_Putfh _ => OP_PUTFH
  | Res_Putpubfh _ => OP_PUTPUBFH
  | Res_Putrootfh _ => OP_PUTROOTFH
  | Res_Read _ _ => OP_READ
  | Res_Readdir _ _ => OP_READDIR
  | Res_Readlink _ _ => OP_READLINK
  | Res_Remove _ _ => OP_REMOVE
  | Res_Rename _ _ _ => OP_RENAME
  | Res_Restorefh _ => OP_RESTOREFH
  | Res_Savefh _ => OP_SAVEFH
  | Res_Secinfo _ _ => OP_SECINFO
  | Res_Setattr _ _ => OP_SETATTR
  | Res_Write _ _ => OP_WRITE
  | Res_ExchangeId _ _ => OP_EXCHANGE_ID
  | Res_CreateSession _ _ => OP_CREATE_SESSION
  | Res_DestroySession _ => OP_DESTROY_SESSION
  | Res_Sequence _ _ => OP_SEQUENCE
  | Res_ReclaimComplete _ => OP_RECLAIM_COMPLETE
  | Res_DestroyClientid _ => OP_DESTROY_CLIENTID
  | Res_BindConnToSession _ _ => OP_BIND_CONN_TO_SESSION
  | Res_SecInfoNoName _ _ => OP_SECINFO_NO_NAME
  | Res_FreeStateid _ => OP_FREE_STATEID
  | Res_TestStateid _ _ => OP_TEST_STATEID
  | Res_DelegReturn _ => OP_DELEGRETURN
  | Res_OpenConfirm _ _ => OP_OPEN_CONFIRM
  | Res_Renew _ => OP_RENEW
  | Res_SetClientId _ _ => OP_SETCLIENTID
  | Res_SetClientIdConfirm _ => OP_SETCLIENTID_CONFIRM
  | Res_ReleaseLockowner _ => OP_RELEASE_LOCKOWNER
  | Res_Lock _ _ _ => OP_LOCK
  | Res_Lockt _ _ => OP_LOCKT
  | Res_Locku _ _ => OP_LOCKU
  | Res_OpenAttr _ => OP_OPENATTR
  | Res_DelegPurge _ => OP_DELEGPURGE
  | Res_Verify _ => OP_VERIFY
  | Res_Nverify _ => OP_NVERIFY
  | Res_OpenDowngrade _ _ => OP_OPEN_DOWNGRADE
  | Res_LayoutGet _ _ => OP_LAYOUTGET
  | Res_LayoutReturn _ _ => OP_LAYOUTRETURN
  | Res_LayoutCommit _ _ => OP_LAYOUTCOMMIT
  | Res_GetDirDelegation _ _ => OP_GET_DIR_DELEGATION
  | Res_WantDelegation _ _ => OP_WANT_DELEGATION
  | Res_BackchannelCtl _ => OP_BACKCHANNEL_CTL
  | Res_GetDeviceInfo _ _ => OP_GETDEVICEINFO
  | Res_GetDeviceList _ _ => OP_GETDEVICELIST
  | Res_SetSsv _ _ => OP_SET_SSV
  | Res_Getxattr _ _ => OP_GETXATTR
  | Res_Setxattr _ _ => OP_SETXATTR
  | Res_Listxattrs _ _ => OP_LISTXATTRS
  | Res_Removexattr _ _ => OP_REMOVEXATTR
  | Res_Unsupported opnum _ => opnum
  | Res_Illegal _ => OP_ILLEGAL
  end.

(** [res_status] (server/compound.rs) *)
Definition res_status (res : NfsResop4) : NfsStat4 :=
  match res with
  | Res_Access s _ _ | Res_Close s _ | Res_Commit s _ | Res_Create s _ _ | Res_Getattr s _
  | Res_Getfh s _ | Res_Link s _ | Res_Lookup s | Res_Lookupp s | Res_Open s _ | Res_Putfh s
  | Res_Putpubfh s | Res_Putrootfh s | Res_Read s _ | Res_Readdir s _ | Res_Readlink s _
  | Res_Remove s _ | Res_Rename s _ _ | Res_Restorefh s | Res_Savefh s | Res_Secinfo s _
  | Res_Setattr s _ | Res_Write s _ | Res_ExchangeId s _ | Res_CreateSession s _
  | Res_DestroySession s | Res_Sequence s _ | Res_ReclaimComplete s | Res_DestroyClientid s
  | Res_BindConnToSession s _ | Res_SecInfoNoName s _ | Res_FreeStateid s
  | Res_TestStateid s _ | Res_DelegReturn s | Res_OpenConfirm s _ | Res_Renew s
  | Res_SetClientId s _ | Res_SetClientIdConfirm s | Res_ReleaseLockowner s
  | Res_Lock s _ _ | Res_Lockt s _ | Res_Locku s _ | Res_OpenAttr s | Res_DelegPurge s
  | Res_Verify s | Res_Nverify s | Res_OpenDowngrade s _ | Res_LayoutGet s _
  | Res_LayoutReturn s _ | Res_LayoutCommit s _ | Res_GetDirDelegation s _
  | Res_WantDelegation s _ | Res_BackchannelCtl s | Res_GetDeviceInfo s _
  | Res_GetDeviceList s _ | Res_SetSsv s _ | Res_Getxattr s _ | Res_Setxattr s _
  | Res_Listxattrs s _ | Res_Removexattr s _ | Res_Unsupported _ s | Res_Illegal s => s
  end.

(** What follows the operation number and the status, in the order of the
    source's arms, in four parts. *)
Definition resop_payload_ext (res : NfsResop4) : bytes :=
  match res with
  | Res_LayoutGet status res => encode_layoutget_payload status res
  | Res_LayoutReturn status res => when_ok status (opt_enc encode_layoutreturn_payload res)
  | Res_LayoutCommit status res =>
    when_ok status (opt_enc (fun r => encode_Newsize4 (lcr_newsize r)) res)
  | Res_GetDirDelegation status res => when_ok status (opt_enc encode_GetDirDelegationRes4 res)
  | Res_WantDelegation status res => when_ok status (opt_enc encode_open_delegation res)
  | Res_GetDeviceInfo status res => encode_getdeviceinfo_payload status res
  | Res_GetDeviceList status res => when_ok status (opt_enc encode_GetDeviceListResOk4 res)
  | Res_SetSsv status res => when_ok status (opt_enc (fun r => encode_opaque (ssr_digest r)) res)
  | Res_Getxattr status value => when_ok status (opt_enc encode_opaque value)
  | Res_Setxattr status cinfo => when_ok status (opt_enc encode_ChangeInfo4 cinfo)
  | Res_Listxattrs status res => when_ok status (opt_enc encode_ListxattrsResOk4 res)
  | Res_Removexattr status cinfo => when_ok status (opt_enc encode_ChangeInfo4 cinfo)
  | _ => []
  end.

Definition resop_payload_state (res : NfsResop4) : bytes :=
  match res with
  | Res_OpenConfirm status stateid => when_ok status (opt_enc encode_Stateid4 stateid)
  | Res_SetClientId status res => when_ok status (opt_enc encode_SetClientIdRes4 res)
  | Res_Lock status stateid denied => encode_lock_payload status stateid denied
  | Res_Lockt status denied =>
    if decide (status = NFS_Denied) then opt_enc encode_LockDenied4 denied else []
  | Res_Locku status stateid => when_ok status (opt_enc encode_Stateid4 stateid)
  | Res_OpenDowngrade status stateid => when_ok status (opt_enc encode_Stateid4 stateid)
  | _ => resop_payload_ext res
  end.

Definition resop_payload_session (res : NfsResop4) : bytes :=
  match res with
  | Res_Secinfo status entries => when_ok status (encode_list encode_SecinfoEntry4 entries)
  | Res_Setattr status attrsset => encode_Bitmap4 attrsset
  | Res_Write status res => when_ok status (opt_enc encode_WriteRes4 res)
  | Res_ExchangeId status res => when_ok status (opt_enc encode_ExchangeIdRes4 res)
  | Res_CreateSession status res => when_ok status (opt_enc encode_CreateSessionRes4 res)
  | Res_Sequence status res => when_ok status (opt_enc encode_SequenceRes4 res)
  | Res_BindConnToSession status res => when_ok status (opt_enc encode_BindConnToSessionRes4 res)
  | Res_SecInfoNoName status entries => when_ok status (encode_list encode_SecinfoEntry4 entries)
  | Res_TestStateid status results => when_ok status (encode_list encode_NfsStat4 results)
  | _ => resop_payload_state res
  end.

Definition resop_payload (res : NfsResop4) : bytes :=
  match res with
  | Res_Access status supported access =>
    when_ok status (encode_u32 supported ++ encode_u32 access)
  | Res_Close status stateid => when_ok status (encode_Stateid4 stateid)
  | Res_Commit status verf => when_ok status verf
  | Res_Create status cinfo attrset =>
    when_ok status (opt_enc encode_ChangeInfo4 cinfo ++ encode_Bitmap4 attrset)
  | Res_Getattr status attrs => when_ok status (opt_enc encode_Fattr4 attrs)
  | Res_Getfh status fh => when_ok status (opt_enc encode_NfsFh4 fh)
  | Res_Link status cinfo => when_ok status (opt_enc encode_ChangeInfo4 cinfo)
  | Res_Open status res => when_ok status (opt_enc encode_OpenRes4 res)
  | Res_Read status res => when_ok status (opt_enc encode_ReadRes4 res)
  | Res_Readdir status res => when_ok status (opt_enc encode_ReaddirRes4 res)
  | Res_Readlink status target => when_ok status (opt_enc encode_string target)
  | Res_Remove status cinfo => when_ok status (opt_enc encode_ChangeInfo4 cinfo)
  | Res_Rename status src_cinfo tgt_cinfo =>
    when_ok status (opt_enc encode_ChangeInfo4 src_cinfo ++ opt_enc encode_ChangeInfo4 tgt_cinfo)
  | _ => resop_payload_session res
  end.

Definition encode_NfsResop4 (res : NfsResop4) : bytes :=
  encode_u32 (resop_num res) ++ encode_NfsStat4 (res_status res) ++ resop_payload res.

Definition encode_Compound4Res (r : Compound4Res) : bytes :=
  encode_NfsStat4 (c4r_status r) ++ encode_string (c4r_tag r) ++
  encode_list encode_NfsResop4 (c4r_resarray r).

(** ** Callbacks *)

Definition encode_CbSequenceArgs4 (a : CbSequenceArgs4) : bytes :=
  cbs_sessionid a ++ encode_u32 (cbs_sequenceid a) ++ encode_u32 (cbs_slotid a) ++
  encode_u32 (cbs_highest_slotid a) ++ encode_bool (cbs_cachethis a) ++ encode_u32 0.

Definition encode_CbRecallArgs4 (a : CbRecallArgs4) : bytes :=
  encode_Stateid4 (cbl_stateid a) ++ encode_bool (cbl_truncate a) ++ encode_NfsFh4 (cbl_fh a).

Definition encode_NfsCbArgop4 (op : NfsCbArgop4) : bytes :=
  match op with
  | CbArg_Sequence args => encode_u32 OP_CB_SEQUENCE ++ encode_CbSequenceArgs4 args
  | CbArg_Recall args => encode_u32 OP_CB_RECALL ++ encode_CbRecallArgs4 args
  end.

Definition encode_CbCompound4Args (c : CbCompound4Args) : bytes :=
  encode_string (cca_tag c) ++ encode_u32 (cca_minorversion c) ++
  encode_u32 (cca_callback_ident c) ++ encode_list encode_NfsCbArgop4 (cca_argarray c).

Definition decode_CbSequenceResOk4 : decoder CbSequenceResOk4 :=
  let? sessionid := decode_fixed_opaque 16 in
  let? sequenceid := decode_u32 in
  let? slotid := decode_u32 in
  let? highest_slotid := decode_u32 in
  let? target_highest_slotid := decode_u32 in
  dec_ret (mkCbSequenceResOk4 sessionid sequenceid slotid highest_slotid target_highest_slotid).

Definition decode_NfsCbResop4 : decoder NfsCbResop4 :=
  let? op := decode_u32 in
  if op =? OP_CB_SEQUENCE then
    (let? status := decode_NfsStat4 in
     if decide (status = NFS_Ok) then
       (let? res := decode_CbSequenceResOk4 in dec_ret (CbRes_Sequence status (Some res)))
     else dec_ret (CbRes_Sequence status None))
  else if op =? OP_CB_RECALL then
    (let? status := decode_NfsStat4 in dec_ret (CbRes_Recall status))
  else dec_fail (InvalidEnum op).

Definition decode_CbCompound4Res : decoder CbCompound4Res :=
  let? status := decode_NfsStat4 in
  let? tag := decode_string in
  let? resarray := decode_list decode_NfsCbResop4 in
  dec_ret (mkCbCompound4Res status tag resarray).
