(* ===== verification/CodecProps.v ===== *)
(** * The COMPOUND codec reads what clients send and clients read what it sends

    [argop_wire] is the encoding of the protocol's argument types that a
    client produces (RFC 8881 and RFC 7862), written from the point of view of
    the sender; [wire] adds the operations whose arguments the server drops.
    [compound_roundtrip] says that the decoder of [Codec] recovers every such
    request, [compound_decode_sound] that whatever it accepts is within the
    types' bounds and no longer than the input allows. *)

From stdpp Require Import base gmap list sets strings numbers.
From Stdlib Require Import ZArith Lia.
From S2P Require Import Prelude Xdr Rpc Types Constants StateModel Operations Codec.

Local Open Scope Z_scope.
Local Open Scope nfs_scope.

(** ** Decoders that undo an encoding *)

Class WireDec {A} (d : decoder A) (enc : A -> bytes) (dom : A -> Prop) : Prop :=
  wire_dec : forall a rest, dom a -> d (enc a ++ rest) = Ok (a, rest).

Lemma bind_wire {A B} (d : decoder A) (enc : A -> bytes) (dom : A -> Prop) `{!WireDec d enc dom}
    (k : A -> decoder B) a rest :
  dom a -> dec_bind d k (enc a ++ rest) = k a rest.
Proof. intros Ha. apply dec_bind_ok. by apply wire_dec. Qed.

(** Bytes sent as they are: verifiers, session ids, device ids. *)
Definition raw (l : bytes) : bytes := l.
Arguments raw _ : simpl never.
Definition raw_ok (n : Z) (l : bytes) : Prop := bytes_ok l /\ zlen l = n.

#[export] Instance wire_u32 : WireDec decode_u32 encode_u32 is_u32.
Proof. intros a rest. apply decode_u32_app. Qed.
#[export] Instance wire_u64 : WireDec decode_u64 encode_u64 is_u64.
Proof. intros a rest. apply decode_u64_app. Qed.
#[export] Instance wire_bool : WireDec decode_bool encode_bool (fun _ => True).
Proof. intros a rest. apply (codec_roundtrip (c := bool_codec)). Qed.
#[export] Instance wire_opaque : WireDec decode_opaque encode_opaque opaque_ok.
Proof. intros a rest. apply (codec_roundtrip (c := opaque_codec)). Qed.
#[export] Instance wire_opaque_max max :
  WireDec (decode_opaque_max max) encode_opaque (fun d => opaque_ok d /\ zlen d <= max).
Proof. intros a rest. apply (codec_roundtrip (c := opaque_max_codec max)). Qed.
#[export] Instance wire_string : WireDec decode_string encode_string string_ok.
Proof. intros a rest. apply (codec_roundtrip (c := string_codec)). Qed.
#[export] Instance wire_raw n :
  WireDec (decode_fixed_opaque n) raw (fun l => raw_ok n l /\ n mod 4 = 0).
Proof.
  intros a rest [[_ Hl] Hn]. unfold raw. rewrite <- (fixed_opaque_raw a n) at 1 by done.
  rewrite <- Hl. apply decode_fixed_opaque_app.
Qed.
#[export] Instance wire_list {A} (d : decoder A) enc dom :
  WireDec d enc dom ->
  WireDec (decode_list d) (encode_list enc) (fun l => Forall dom l /\ is_u32 (zlen l)).
Proof.
  intros Hw l rest [Hl Hn]. unfold decode_list, encode_list.
  rewrite <- app_assoc. erewrite bind_wire; [|apply _|apply u32_wrap_range]. rewrite u32_wrap_small by done.
  rewrite loop_times_nat by apply zlen_nonneg. unfold zlen. rewrite Nat2Z.id. clear Hn.
  change l with ([] ++ l) at 3. generalize (@nil A).
  induction Hl as [|a l Ha Hl IH]; intros acc; simpl; [by rewrite app_nil_r|].
  unfold decode_item at 1. cbn [fst snd]. rewrite <- app_assoc, Hw by done.
  rewrite IH. by rewrite <- app_assoc.
Qed.

(** A bitmap as a client sends it: the words it has, trailing zeros included. *)
Definition wire_bitmap (b : Bitmap4) : bytes := encode_list encode_u32 (bm_words b).
Definition wire_fattr (f : Fattr4) : bytes :=
  wire_bitmap (fa_attrmask f) ++ encode_opaque (fa_attr_vals f).
Definition Fattr4_ok (f : Fattr4) : Prop := Bitmap4_ok (fa_attrmask f) /\ opaque_ok (fa_attr_vals f).
Definition NfsTime4_ok (t : NfsTime4) : Prop := is_i64 (nt_seconds t) /\ is_u32 (nt_nseconds t).
Definition StateOwner4_ok (o : StateOwner4) : Prop :=
  is_u64 (so_clientid o) /\ opaque_ok (so_owner o) /\ zlen (so_owner o) <= 1024.
Definition wire_owner (o : StateOwner4) : bytes :=
  encode_u64 (so_clientid o) ++ encode_opaque (so_owner o).

Lemma encode_u32_words_len ws : zlen (flat_map encode_u32 ws) = zlen ws * 4.
Proof.
  induction ws as [|w ws IH]; [done|].
  change (flat_map encode_u32 (w :: ws)) with (encode_u32 w ++ flat_map encode_u32 ws).
  rewrite zlen_app, IH. unfold encode_u32. rewrite zlen_be. unfold zlen. simpl length. lia.
Qed.

#[export] Instance wire_Bitmap4 : WireDec decode_Bitmap4 wire_bitmap Bitmap4_ok.
Proof.
  intros [ws] rest Hok. pose proof (wire_dec (d := decode_list decode_u32) ws rest Hok) as Hd.
  destruct Hok as [Hw Hn]. cbn [bm_words] in *. unfold decode_Bitmap4, wire_bitmap.
  unfold decode_list, encode_list in Hd. unfold encode_list. cbn [bm_words].
  rewrite <- app_assoc in *.
  erewrite bind_wire in Hd; [|apply _|apply u32_wrap_range].
  erewrite bind_wire; [|apply _|apply u32_wrap_range].
  rewrite u32_wrap_small in * by done.
  destruct (Z.ltb_spec u64_max (zlen ws * 4)); [unfold is_u32, u64_max in *; lia|].
  rewrite zlen_app, encode_u32_words_len. pose proof (zlen_nonneg rest).
  destruct (Z.ltb_spec (zlen ws * 4 + zlen rest) (zlen ws * 4)); [lia|]. by rewrite Hd.
Qed.

(** Steps through a decoder whose input is laid out field by field. *)
Ltac wire_side :=
  first [done | solve [auto with nfs] | solve [unfold is_u32; lia]
        | match goal with |- is_u32 ?c => is_const c; solve [split; by vm_compute] end
        | solve [destruct_and?; split_and?; first [assumption | done]]].
Ltac wire_step :=
  rewrite <- ?app_assoc;
  first [erewrite bind_wire; [|apply _|wire_side] | erewrite wire_dec; [|wire_side]].
Ltac wire_run := repeat wire_step.

#[export] Instance wire_Fattr4 : WireDec decode_Fattr4 wire_fattr Fattr4_ok.
Proof. intros [m v] rest [Hm Hv]. unfold decode_Fattr4, wire_fattr. cbn in *. by wire_run. Qed.
#[export] Instance wire_Stateid4 : WireDec decode_Stateid4 encode_Stateid4 Stateid4_ok.
Proof. intros s rest. apply decode_Stateid4_app. Qed.
#[export] Instance wire_StateOwner4 : WireDec decode_StateOwner4 wire_owner StateOwner4_ok.
Proof.
  intros [c o] rest (Hc & Ho & Hl). unfold decode_StateOwner4, wire_owner. cbn in *. by wire_run.
Qed.
#[export] Instance wire_ChannelAttrs4 :
  WireDec decode_ChannelAttrs4 encode_ChannelAttrs4 ChannelAttrs4_ok.
Proof. intros s rest. apply decode_ChannelAttrs4_app. Qed.
#[export] Instance wire_AuthSysParams :
  WireDec decode_AuthSysParams encode_AuthSysParams AuthSysParams_ok.
Proof. intros s rest. apply AuthSysParams_app. Qed.
#[export] Instance wire_i64 : WireDec decode_i64 encode_i64 is_i64.
Proof. intros a rest. apply (codec_roundtrip (c := i64_codec)). Qed.
#[export] Instance wire_NfsTime4 : WireDec decode_NfsTime4 encode_NfsTime4 NfsTime4_ok.
Proof. intros [s n] rest [Hs Hn]. unfold decode_NfsTime4, encode_NfsTime4. cbn in *. by wire_run. Qed.
#[export] Instance wire_NfsStat4 : WireDec decode_NfsStat4 encode_NfsStat4 (fun _ => True).
Proof. intros a rest _. apply decode_NfsStat4_app. Qed.
#[export] Instance wire_NfsLockType4 : WireDec decode_NfsLockType4 encode_NfsLockType4 (fun _ => True).
Proof.
  intros a rest _. unfold decode_NfsLockType4, encode_NfsLockType4.
  erewrite bind_wire; [|apply _|destruct a; unfold is_u32; simpl; lia]. by destruct a.
Qed.

(** ** Requests as clients send them *)

Definition wire_createtype (t : Createtype4) : bytes :=
  match t with
  | Ct_Reg => encode_u32 1
  | Ct_Dir => encode_u32 2
  | Ct_Blk dev => encode_u32 3 ++ encode_Specdata4 dev
  | Ct_Chr dev => encode_u32 4 ++ encode_Specdata4 dev
  | Ct_Link target => encode_u32 5 ++ encode_string target
  | Ct_Sock => encode_u32 6
  | Ct_Fifo => encode_u32 7
  | Ct_Unsupported v => encode_u32 v
  end.
Definition Createtype4_ok (t : Createtype4) : Prop :=
  match t with
  | Ct_Blk dev | Ct_Chr dev => is_u32 (specdata1 dev) /\ is_u32 (specdata2 dev)
  | Ct_Link target => string_ok target
  | Ct_Unsupported v => is_u32 v /\ ~ (1 <= v <= 7)
  | _ => True
  end.

Definition wire_createhow (h : Createhow4) : bytes :=
  match h with
  | Ch_Unchecked fa => encode_u32 0 ++ wire_fattr fa
  | Ch_Guarded fa => encode_u32 1 ++ wire_fattr fa
  | Ch_Exclusive v => encode_u32 2 ++ raw v
  | Ch_Exclusive4_1 v fa => encode_u32 3 ++ raw v ++ wire_fattr fa
  end.
Definition Createhow4_ok (h : Createhow4) : Prop :=
  match h with
  | Ch_Unchecked fa | Ch_Guarded fa => Fattr4_ok fa
  | Ch_Exclusive v => raw_ok 8 v
  | Ch_Exclusive4_1 v fa => raw_ok 8 v /\ Fattr4_ok fa
  end.

Definition wire_openflag (f : Openflag4) : bytes :=
  match f with
  | Of_NoCreate => encode_u32 0
  | Of_Create how => encode_u32 1 ++ wire_createhow how
  end.
Definition Openflag4_ok (f : Openflag4) : Prop :=
  match f with Of_NoCreate => True | Of_Create how => Createhow4_ok how end.

Definition wire_claim (c : OpenClaim4) : bytes :=
  match c with
  | Claim_Null file => encode_u32 0 ++ encode_string file
  | Claim_Previous t => encode_u32 1 ++ encode_u32 t
  | Claim_DelegateCur s file => encode_u32 2 ++ encode_Stateid4 s ++ encode_string file
  | Claim_DelegatePrev file => encode_u32 3 ++ encode_string file
  | Claim_Fh => encode_u32 4
  | Claim_DelegCurFh s => encode_u32 5 ++ encode_Stateid4 s
  | Claim_DelegPrevFh => encode_u32 6
  end.
Definition OpenClaim4_ok (c : OpenClaim4) : Prop :=
  match c with
  | Claim_Null file | Claim_DelegatePrev file => string_ok file
  | Claim_Previous t => is_u32 t
  | Claim_DelegateCur s file => Stateid4_ok s /\ string_ok file
  | Claim_DelegCurFh s => Stateid4_ok s
  | _ => True
  end.

Definition wire_sec_parms (p : CallbackSecParms4) : bytes :=
  match p with
  | CbSec_None => encode_u32 0
  | CbSec_Sys p => encode_u32 1 ++ encode_AuthSysParams p
  | CbSec_RpcSecGss h =>
    encode_u32 6 ++ encode_u32 (gss_service h) ++ encode_opaque (gss_handle_from_server h) ++
    encode_opaque (gss_handle_from_client h)
  end.
Definition CallbackSecParms4_ok (p : CallbackSecParms4) : Prop :=
  match p with
  | CbSec_None => True
  | CbSec_Sys p => AuthSysParams_ok p
  | CbSec_RpcSecGss h =>
    is_u32 (gss_service h) /\ opaque_ok (gss_handle_from_server h) /\
    opaque_ok (gss_handle_from_client h)
  end.

Definition wire_state_protect_ops (o : StateProtectOps4) : bytes :=
  wire_bitmap (spo_enforce o) ++ wire_bitmap (spo_allow o).
Definition StateProtectOps4_ok (o : StateProtectOps4) : Prop :=
  Bitmap4_ok (spo_enforce o) /\ Bitmap4_ok (spo_allow o).
Definition opaques_ok (l : list bytes) : Prop := Forall opaque_ok l /\ is_u32 (zlen l).
Definition wire_state_protect (p : StateProtect4A) : bytes :=
  match p with
  | SpA_None => encode_u32 0
  | SpA_MachCred ops => encode_u32 1 ++ wire_state_protect_ops ops
  | SpA_Ssv p =>
    encode_u32 2 ++ wire_state_protect_ops (ssv_ops p) ++
    encode_list encode_opaque (ssv_hash_algs p) ++ encode_list encode_opaque (ssv_encr_algs p) ++
    encode_u32 (ssv_window p) ++ encode_u32 (ssv_num_gss_handles p)
  end.
Definition StateProtect4A_ok (p : StateProtect4A) : Prop :=
  match p with
  | SpA_None => True
  | SpA_MachCred ops => StateProtectOps4_ok ops
  | SpA_Ssv p =>
    StateProtectOps4_ok (ssv_ops p) /\ opaques_ok (ssv_hash_algs p) /\
    opaques_ok (ssv_encr_algs p) /\ is_u32 (ssv_window p) /\ is_u32 (ssv_num_gss_handles p)
  end.
Definition NfsImplId4_ok (i : NfsImplId4) : Prop :=
  string_ok (ii_domain i) /\ string_ok (ii_name i) /\ NfsTime4_ok (ii_date i).
Definition wire_client_owner (o : ClientOwner4) : bytes :=
  raw (co_verifier o) ++ encode_opaque (co_ownerid o).
Definition ClientOwner4_ok (o : ClientOwner4) : Prop :=
  raw_ok 8 (co_verifier o) /\ opaque_ok (co_ownerid o) /\ zlen (co_ownerid o) <= 1024.

Definition wire_locker (l : Locker4) : bytes :=
  match l with
  | NewLockOwner o =>
    encode_bool true ++ encode_u32 (ol_open_seqid o) ++ encode_Stateid4 (ol_open_stateid o) ++
    encode_u32 (ol_lock_seqid o) ++ wire_owner (ol_lock_owner o)
  | ExistingLockOwner o =>
    encode_bool false ++ encode_Stateid4 (el_lock_stateid o) ++ encode_u32 (el_lock_seqid o)
  end.
Definition Locker4_ok (l : Locker4) : Prop :=
  match l with
  | NewLockOwner o =>
    is_u32 (ol_open_seqid o) /\ Stateid4_ok (ol_open_stateid o) /\ is_u32 (ol_lock_seqid o) /\
    StateOwner4_ok (ol_lock_owner o)
  | ExistingLockOwner o => Stateid4_ok (el_lock_stateid o) /\ is_u32 (el_lock_seqid o)
  end.

Definition setxattr_option_u32 (o : SetxattrOption4) : Z :=
  match o with Sx_Either => 0 | Sx_Create => 1 | Sx_Replace => 2 end.
Definition wire_setxattr_option (o : SetxattrOption4) : bytes :=
  encode_u32 (setxattr_option_u32 o).

(** The operations whose arguments the decoder keeps: number and arguments. *)
Definition argop_wire (op : NfsArgop4) : option bytes :=
  match op with
  | Arg_Access a => Some (encode_u32 OP_ACCESS ++ encode_u32 (aca_access a))
  | Arg_Close a =>
    Some (encode_u32 OP_CLOSE ++ encode_u32 (cla_seqid a) ++ encode_Stateid4 (cla_open_stateid a))
  | Arg_Commit a =>
    Some (encode_u32 OP_COMMIT ++ encode_u64 (cma_offset a) ++ encode_u32 (cma_count a))
  | Arg_Create a =>
    Some (encode_u32 OP_CREATE ++ wire_createtype (cra_objtype a) ++
          encode_string (cra_objname a) ++ wire_fattr (cra_createattrs a))
  | Arg_Getattr a => Some (encode_u32 OP_GETATTR ++ wire_bitmap (gaa_attr_request a))
  | Arg_Getfh => Some (encode_u32 OP_GETFH)
  | Arg_Link a => Some (encode_u32 OP_LINK ++ encode_string (lna_newname a))
  | Arg_Lookup a => Some (encode_u32 OP_LOOKUP ++ encode_string (lka_objname a))
  | Arg_Lookupp => Some (encode_u32 OP_LOOKUPP)
  | Arg_Open a =>
    Some (encode_u32 OP_OPEN ++ encode_u32 (oa_seqid a) ++ encode_u32 (oa_share_access a) ++
          encode_u32 (oa_share_deny a) ++ wire_owner (oa_owner a) ++
          wire_openflag (oa_openhow a) ++ wire_claim (oa_claim a))
  | Arg_Putfh a => Some (encode_u32 OP_PUTFH ++ encode_NfsFh4 (pfa_object a))
  | Arg_Putpubfh => Some (encode_u32 OP_PUTPUBFH)
  | Arg_Putrootfh => Some (encode_u32 OP_PUTROOTFH)
  | Arg_Read a =>
    Some (encode_u32 OP_READ ++ encode_Stateid4 (rda_stateid a) ++ encode_u64 (rda_offset a) ++
          encode_u32 (rda_count a))
  | Arg_Readdir a =>
    Some (encode_u32 OP_READDIR ++ encode_u64 (rdd_cookie a) ++ raw (rdd_cookieverf a) ++
          encode_u32 (rdd_dircount a) ++ encode_u32 (rdd_maxcount a) ++
          wire_bitmap (rdd_attr_request a))
  | Arg_Readlink => Some (encode_u32 OP_READLINK)
  | Arg_Remove a => Some (encode_u32 OP_REMOVE ++ encode_string (rma_target a))
  | Arg_Rename a =>
    Some (encode_u32 OP_RENAME ++ encode_string (rna_oldname a) ++ encode_string (rna_newname a))
  | Arg_Restorefh => Some (encode_u32 OP_RESTOREFH)
  | Arg_Savefh => Some (encode_u32 OP_SAVEFH)
  | Arg_Secinfo a => Some (encode_u32 OP_SECINFO ++ encode_string (sia_name a))
  | Arg_Setattr a =>
    Some (encode_u32 OP_SETATTR ++ encode_Stateid4 (saa_stateid a) ++
          wire_fattr (saa_obj_attributes a))
  | Arg_Write a =>
    Some (encode_u32 OP_WRITE ++ encode_Stateid4 (wra_stateid a) ++ encode_u64 (wra_offset a) ++
          encode_u32 (wra_stable a) ++ encode_opaque (wra_data a))
  | Arg_ExchangeId a =>
    Some (encode_u32 OP_EXCHANGE_ID ++ wire_client_owner (ei_clientowner a) ++
          encode_u32 (ei_flags a) ++ wire_state_protect (ei_state_protect a) ++
          encode_list encode_NfsImplId4 (ei_client_impl_id a))
  | Arg_CreateSession a =>
    Some (encode_u32 OP_CREATE_SESSION ++ encode_u64 (csa_clientid a) ++
          encode_u32 (csa_sequence a) ++ encode_u32 (csa_flags a) ++
          encode_ChannelAttrs4 (csa_fore_chan_attrs a) ++
          encode_ChannelAttrs4 (csa_back_chan_attrs a) ++ encode_u32 (csa_cb_program a) ++
          encode_list wire_sec_parms (csa_sec_parms a))
  | Arg_DestroySession a => Some (encode_u32 OP_DESTROY_SESSION ++ raw (dsa_sessionid a))
  | Arg_Sequence a =>
    Some (encode_u32 OP_SEQUENCE ++ raw (sa_sessionid a) ++ encode_u32 (sa_sequenceid a) ++
          encode_u32 (sa_slotid a) ++ encode_u32 (sa_highest_slotid a) ++
          encode_bool (sa_cachethis a))
  | Arg_ReclaimComplete a => Some (encode_u32 OP_RECLAIM_COMPLETE ++ encode_bool (rca_one_fs a))
  | Arg_DestroyClientid a => Some (encode_u32 OP_DESTROY_CLIENTID ++ encode_u64 (dca_clientid a))
  | Arg_BindConnToSession a =>
    Some (encode_u32 OP_BIND_CONN_TO_SESSION ++ raw (bc_sessionid a) ++ encode_u32 (bc_dir a) ++
          encode_bool (bc_use_conn_in_rdma_mode a))
  | Arg_SecInfoNoName style => Some (encode_u32 OP_SECINFO_NO_NAME ++ encode_u32 style)
  | Arg_FreeStateid a => Some (encode_u32 OP_FREE_STATEID ++ encode_Stateid4 (fsa_stateid a))
  | Arg_TestStateid a =>
    Some (encode_u32 OP_TEST_STATEID ++ encode_list encode_Stateid4 (tsa_stateids a))
  | Arg_DelegReturn a => Some (encode_u32 OP_DELEGRETURN ++ encode_Stateid4 (dra_stateid a))
  | Arg_OpenConfirm a =>
    Some (encode_u32 OP_OPEN_CONFIRM ++ encode_Stateid4 (oca_open_stateid a) ++
          encode_u32 (oca_seqid a))
  | Arg_Renew clientid => Some (encode_u32 OP_RENEW ++ encode_u64 clientid)
  | Arg_SetClientId a =>
    Some (encode_u32 OP_SETCLIENTID ++ wire_client_owner (sci_client a) ++
          encode_u32 (cbk_program (sci_callback a)) ++ encode_string (cbk_netid (sci_callback a)) ++
          encode_string (cbk_addr (sci_callback a)) ++ encode_u32 (sci_callback_ident a))
  | Arg_SetClientIdConfirm a =>
    Some (encode_u32 OP_SETCLIENTID_CONFIRM ++ encode_u64 (scc_clientid a) ++ raw (scc_verifier a))
  | Arg_ReleaseLockowner a =>
    Some (encode_u32 OP_RELEASE_LOCKOWNER ++ wire_owner (rla_lock_owner a))
  | Arg_Lock a =>
    Some (encode_u32 OP_LOCK ++ encode_NfsLockType4 (la_locktype a) ++
          encode_bool (la_reclaim a) ++ encode_u64 (la_offset a) ++ encode_u64 (la_length a) ++
          wire_locker (la_locker a))
  | Arg_Lockt a =>
    Some (encode_u32 OP_LOCKT ++ encode_NfsLockType4 (lt_locktype a) ++
          encode_u64 (lt_offset a) ++ encode_u64 (lt_length a) ++ wire_owner (lt_owner a))
  | Arg_Locku a =>
    Some (encode_u32 OP_LOCKU ++ encode_NfsLockType4 (lu_locktype a) ++ encode_u32 (lu_seqid a) ++
          encode_Stateid4 (lu_lock_stateid a) ++ encode_u64 (lu_offset a) ++
          encode_u64 (lu_length a))
  | Arg_OpenAttr a => Some (encode_u32 OP_OPENATTR ++ encode_bool (opa_createdir a))
  | Arg_Verify fa => Some (encode_u32 OP_VERIFY ++ wire_fattr fa)
  | Arg_Nverify fa => Some (encode_u32 OP_NVERIFY ++ wire_fattr fa)
  | Arg_OpenDowngrade a =>
    Some (encode_u32 OP_OPEN_DOWNGRADE ++ encode_Stateid4 (oda_open_stateid a) ++
          encode_u32 (oda_seqid a) ++ encode_u32 (oda_share_access a) ++
          encode_u32 (oda_share_deny a))
  | Arg_Getxattr a => Some (encode_u32 OP_GETXATTR ++ encode_string (gxa_name a))
  | Arg_Setxattr a =>
    Some (encode_u32 OP_SETXATTR ++ wire_setxattr_option (sxa_option a) ++
          encode_string (sxa_key a) ++ encode_opaque (sxa_value a))
  | Arg_Listxattrs a =>
    Some (encode_u32 OP_LISTXATTRS ++ encode_u64 (lxa_cookie a) ++ encode_u32 (lxa_maxcount a))
  | Arg_Removexattr a => Some (encode_u32 OP_REMOVEXATTR ++ encode_string (rxa_name a))
  | _ => None
  end.

(** The values an argument type can hold. *)
Definition argop_ok (op : NfsArgop4) : Prop :=
  match op with
  | Arg_Access a => is_u32 (aca_access a)
  | Arg_Close a => is_u32 (cla_seqid a) /\ Stateid4_ok (cla_open_stateid a)
  | Arg_Commit a => is_u64 (cma_offset a) /\ is_u32 (cma_count a)
  | Arg_Create a =>
    Createtype4_ok (cra_objtype a) /\ string_ok (cra_objname a) /\ Fattr4_ok (cra_createattrs a)
  | Arg_Getattr a => Bitmap4_ok (gaa_attr_request a)
  | Arg_Link a => string_ok (lna_newname a)
  | Arg_Lookup a => string_ok (lka_objname a)
  | Arg_Open a =>
    is_u32 (oa_seqid a) /\ is_u32 (oa_share_access a) /\ is_u32 (oa_share_deny a) /\
    StateOwner4_ok (oa_owner a) /\ Openflag4_ok (oa_openhow a) /\ OpenClaim4_ok (oa_claim a)
  | Arg_Putfh a => opaque_ok (pfa_object a) /\ zlen (pfa_object a) <= 128
  | Arg_Read a => Stateid4_ok (rda_stateid a) /\ is_u64 (rda_offset a) /\ is_u32 (rda_count a)
  | Arg_Readdir a =>
    is_u64 (rdd_cookie a) /\ raw_ok 8 (rdd_cookieverf a) /\ is_u32 (rdd_dircount a) /\
    is_u32 (rdd_maxcount a) /\ Bitmap4_ok (rdd_attr_request a)
  | Arg_Remove a => string_ok (rma_target a)
  | Arg_Rename a => string_ok (rna_oldname a) /\ string_ok (rna_newname a)
  | Arg_Secinfo a => string_ok (sia_name a)
  | Arg_Setattr a => Stateid4_ok (saa_stateid a) /\ Fattr4_ok (saa_obj_attributes a)
  | Arg_Write a =>
    Stateid4_ok (wra_stateid a) /\ is_u64 (wra_offset a) /\ is_u32 (wra_stable a) /\
    opaque_ok (wra_data a)
  | Arg_ExchangeId a =>
    ClientOwner4_ok (ei_clientowner a) /\ is_u32 (ei_flags a) /\
    StateProtect4A_ok (ei_state_protect a) /\
    (Forall NfsImplId4_ok (ei_client_impl_id a) /\ is_u32 (zlen (ei_client_impl_id a)))
  | Arg_CreateSession a =>
    is_u64 (csa_clientid a) /\ is_u32 (csa_sequence a) /\ is_u32 (csa_flags a) /\
    ChannelAttrs4_ok (csa_fore_chan_attrs a) /\ ChannelAttrs4_ok (csa_back_chan_attrs a) /\
    is_u32 (csa_cb_program a) /\
    (Forall CallbackSecParms4_ok (csa_sec_parms a) /\ is_u32 (zlen (csa_sec_parms a)))
  | Arg_DestroySession a => raw_ok 16 (dsa_sessionid a)
  | Arg_Sequence a =>
    raw_ok 16 (sa_sessionid a) /\ is_u32 (sa_sequenceid a) /\ is_u32 (sa_slotid a) /\
    is_u32 (sa_highest_slotid a)
  | Arg_DestroyClientid a => is_u64 (dca_clientid a)
  | Arg_BindConnToSession a => raw_ok 16 (bc_sessionid a) /\ is_u32 (bc_dir a)
  | Arg_SecInfoNoName style => is_u32 style
  | Arg_FreeStateid a => Stateid4_ok (fsa_stateid a)
  | Arg_TestStateid a => Forall Stateid4_ok (tsa_stateids a) /\ is_u32 (zlen (tsa_stateids a))
  | Arg_DelegReturn a => Stateid4_ok (dra_stateid a)
  | Arg_OpenConfirm a => Stateid4_ok (oca_open_stateid a) /\ is_u32 (oca_seqid a)
  | Arg_Renew clientid => is_u64 clientid
  | Arg_SetClientId a =>
    ClientOwner4_ok (sci_client a) /\ is_u32 (cbk_program (sci_callback a)) /\
    string_ok (cbk_netid (sci_callback a)) /\ string_ok (cbk_addr (sci_callback a)) /\
    is_u32 (sci_callback_ident a)
  | Arg_SetClientIdConfirm a => is_u64 (scc_clientid a) /\ raw_ok 8 (scc_verifier a)
  | Arg_ReleaseLockowner a => StateOwner4_ok (rla_lock_owner a)
  | Arg_Lock a => is_u64 (la_offset a) /\ is_u64 (la_length a) /\ Locker4_ok (la_locker a)
  | Arg_Lockt a => is_u64 (lt_offset a) /\ is_u64 (lt_length a) /\ StateOwner4_ok (lt_owner a)
  | Arg_Locku a =>
    is_u32 (lu_seqid a) /\ Stateid4_ok (lu_lock_stateid a) /\ is_u64 (lu_offset a) /\
    is_u64 (lu_length a)
  | Arg_Verify fa | Arg_Nverify fa => Fattr4_ok fa
  | Arg_OpenDowngrade a =>
    Stateid4_ok (oda_open_stateid a) /\ is_u32 (oda_seqid a) /\ is_u32 (oda_share_access a) /\
    is_u32 (oda_share_deny a)
  | Arg_Getxattr a => string_ok (gxa_name a)
  | Arg_Setxattr a => string_ok (sxa_key a) /\ opaque_ok (sxa_value a)
  | Arg_Listxattrs a => is_u64 (lxa_cookie a) /\ is_u32 (lxa_maxcount a)
  | Arg_Removexattr a => string_ok (rxa_name a)
  | Arg_Unsupported opnum =>
    opnum ∈ [OP_ALLOCATE; OP_COPY; OP_COPY_NOTIFY; OP_DEALLOCATE; OP_IO_ADVISE; OP_LAYOUTERROR;
             OP_LAYOUTSTATS; OP_OFFLOAD_CANCEL; OP_OFFLOAD_STATUS; OP_READ_PLUS; OP_SEEK; OP_CLONE]
  | _ => True
  end.

(** ** Decoding undoes encoding *)

(** A union: a tag read first selects how the rest is read. *)
Definition tagged {A} (d : Z -> decoder A) : decoder A := let? v := decode_u32 in d v.

Lemma bind_tagged {A B} (d : Z -> decoder A) (k : A -> decoder B) src :
  dec_bind decode_u32 (fun v => dec_bind (d v) k) src = dec_bind (tagged d) k src.
Proof. unfold tagged, dec_bind. by destruct (decode_u32 src) as [[v s]|]. Qed.

Ltac tag_run :=
  unfold tagged; wire_step; cbn [Z.eqb Pos.eqb]; wire_run; try done.

#[export] Instance wire_Specdata4 :
  WireDec dec_specdata encode_Specdata4 (fun d => is_u32 (specdata1 d) /\ is_u32 (specdata2 d)).
Proof. intros [a b] rest [Ha Hb]. unfold dec_specdata, encode_Specdata4. cbn in *. by wire_run. Qed.

#[export] Instance wire_Createtype4 :
  WireDec (tagged dec_createtype) wire_createtype Createtype4_ok.
Proof.
  intros t rest Ht. unfold dec_createtype. destruct t as [|target|dev|dev| | | |v]; cbn [wire_createtype Createtype4_ok] in *.
  1-7: by tag_run.
  destruct Ht as [Hv Hn]. unfold tagged. wire_step.
  repeat (match goal with |- (if ?a =? ?b then _ else _) _ = _ =>
    destruct (Z.eqb_spec a b); [lia|] end). done.
Qed.

#[export] Instance wire_Createhow4 : WireDec (tagged dec_createhow) wire_createhow Createhow4_ok.
Proof. intros h rest Hh. unfold dec_createhow. destruct h; cbn [wire_createhow Createhow4_ok] in *; by tag_run. Qed.

#[export] Instance wire_Openflag4 : WireDec (tagged dec_openflag) wire_openflag Openflag4_ok.
Proof.
  intros f rest Hf. unfold dec_openflag. destruct f as [|how]; cbn [wire_openflag Openflag4_ok] in *; [by tag_run|].
  unfold tagged. wire_step. cbn [Z.eqb Pos.eqb]. rewrite bind_tagged.
  by wire_run.
Qed.

#[export] Instance wire_OpenClaim4 : WireDec (tagged dec_openclaim) wire_claim OpenClaim4_ok.
Proof. intros c rest Hc. unfold dec_openclaim. destruct c; cbn [wire_claim OpenClaim4_ok] in *; by tag_run. Qed.

#[export] Instance wire_SetxattrOption4 :
  WireDec (tagged dec_setxattr_option) wire_setxattr_option (fun _ => True).
Proof.
  intros o rest _. unfold tagged, wire_setxattr_option.
  erewrite bind_wire; [|apply _|destruct o; unfold is_u32; simpl; lia]. by destruct o.
Qed.

#[export] Instance wire_StateProtectOps4 :
  WireDec dec_state_protect_ops wire_state_protect_ops StateProtectOps4_ok.
Proof.
  intros [a b] rest [Ha Hb]. unfold dec_state_protect_ops, wire_state_protect_ops. cbn in *. by wire_run.
Qed.

#[export] Instance wire_StateProtect4A :
  WireDec (tagged dec_state_protect) wire_state_protect StateProtect4A_ok.
Proof.
  intros p rest Hp. unfold dec_state_protect. destruct p as [|ops|p]; cbn [wire_state_protect StateProtect4A_ok] in *;
    [by tag_run..|].
  destruct p, Hp as (H1 & H2 & H3 & H4 & H5). by tag_run.
Qed.

#[export] Instance wire_NfsImplId4 : WireDec decode_NfsImplId4 encode_NfsImplId4 NfsImplId4_ok.
Proof.
  intros [d n t] rest (Hd & Hn & Ht). unfold decode_NfsImplId4, encode_NfsImplId4. cbn in *. by wire_run.
Qed.

#[export] Instance wire_ClientOwner4 :
  WireDec decode_ClientOwner4 wire_client_owner ClientOwner4_ok.
Proof.
  intros [v o] rest (Hv & Ho & Hl). unfold decode_ClientOwner4, wire_client_owner. cbn in *. by wire_run.
Qed.

#[export] Instance wire_CallbackSecParms4 :
  WireDec decode_CallbackSecParms4 wire_sec_parms CallbackSecParms4_ok.
Proof.
  intros p rest Hp. unfold decode_CallbackSecParms4.
  destruct p as [|p|[s f c]]; cbn [wire_sec_parms CallbackSecParms4_ok] in *; by tag_run.
Qed.

#[export] Instance wire_Locker4 :
  WireDec (let? b := decode_bool in dec_locker b) wire_locker Locker4_ok.
Proof.
  intros l rest Hl. unfold dec_locker. destruct l as [[os sid ls [c o]]|[sid sq]]; cbn [wire_locker Locker4_ok] in *.
  - destruct Hl as (H1 & H2 & H3 & Ho & Ho' & Ho''). cbn in *. wire_step. cbn [Z.eqb Pos.eqb].
    unfold wire_owner. cbn. by wire_run.
  - destruct Hl as (H1 & H2). cbn in *. wire_step. cbn [Z.eqb Pos.eqb]. by wire_run.
Qed.

Lemma bind_assoc {A B C} (d : decoder A) (f : A -> decoder B) (k : B -> decoder C) src :
  dec_bind d (fun a => dec_bind (f a) k) src = dec_bind (dec_bind d f) k src.
Proof. unfold dec_bind. by destruct (d src) as [[a s]|]. Qed.

Ltac union_run :=
  repeat first [progress wire_run | rewrite bind_tagged; wire_step
               | rewrite <- bind_assoc; wire_step].

(** Selects the arm of the dispatch for a known operation number. *)
Ltac pick_arm :=
  unfold decode_nfs_argop4; wire_step; unfold argop_arm;
  repeat (lazymatch goal with |- (if ?c then _ else _) _ = _ =>
    let v := eval vm_compute in c in change c with v; cbv iota end).

Ltac arm_run := pick_arm; try done.

Lemma argop_roundtrip op bs rest :
  argop_wire op = Some bs -> argop_ok op -> decode_nfs_argop4 (bs ++ rest) = Ok (op, rest).
Proof.
  intros Hw Hok.
  destruct op; cbn [argop_wire] in Hw; try discriminate Hw; apply (inj Some) in Hw; subst bs;
    cbn [argop_ok] in Hok; try destruct a; pick_arm; try done.
  all: match goal with |- ?d _ = _ => unfold d end.
  all: union_run; try done.
  all: cbn in *; unfold wire_owner, wire_client_owner; destruct_and?.
  all: repeat match goal with
    | o : StateOwner4 |- _ => destruct o
    | o : ClientOwner4 |- _ => destruct o
    | c : NfsClientCallback4 |- _ => destruct c
    | H : StateOwner4_ok _ |- _ => destruct H as (? & ? & ?)
    | H : ClientOwner4_ok _ |- _ => destruct H as (? & ? & ?)
    end; cbn in *.
  all: wire_run; try done.
  rewrite bind_assoc. by wire_run.
Qed.

(** The operations whose arguments the decoder reads and drops, as sent by a
    client.  WANT_DELEGATION of a delegation held before a reboot and
    LAYOUTSTATS are missing: see [want_delegation_misread] and
    [layoutstats_misread]. *)
Definition wire_netloc (kind : Z) (a b : bytes) : bytes :=
  encode_u32 kind ++ encode_string a ++ (if kind =? 3 then encode_string b else []).
Definition netloc_ok (n : Z * bytes * bytes) : Prop :=
  1 <= n.1.1 <= 3 /\ string_ok n.1.2 /\ string_ok n.2.
Definition wire_netloc_of (n : Z * bytes * bytes) : bytes := wire_netloc n.1.1 n.1.2 n.2.
Definition wire_option {A} (enc : A -> bytes) (o : option A) : bytes :=
  match o with Some v => encode_bool true ++ enc v | None => encode_bool false end.
Definition opt_ok {A} (P : A -> Prop) (o : option A) : Prop :=
  match o with Some v => P v | None => True end.

Inductive wire : NfsArgop4 -> bytes -> Prop :=
| wire_kept op bs : argop_wire op = Some bs -> argop_ok op -> wire op bs
| wire_delegpurge c :
    is_u64 c -> wire Arg_DelegPurge (encode_u32 OP_DELEGPURGE ++ encode_u64 c)
| wire_backchannel_ctl p l :
    is_u32 p -> Forall CallbackSecParms4_ok l /\ is_u32 (zlen l) ->
    wire Arg_BackchannelCtl
      (encode_u32 OP_BACKCHANNEL_CTL ++ encode_u32 p ++ encode_list wire_sec_parms l)
| wire_get_dir_delegation sig nt cd dd ca da :
    Bitmap4_ok nt -> NfsTime4_ok cd -> NfsTime4_ok dd -> Bitmap4_ok ca -> Bitmap4_ok da ->
    wire Arg_GetDirDelegation
      (encode_u32 OP_GET_DIR_DELEGATION ++ encode_bool sig ++ wire_bitmap nt ++
       encode_NfsTime4 cd ++ encode_NfsTime4 dd ++ wire_bitmap ca ++ wire_bitmap da)
| wire_getdeviceinfo dev ty mx nt :
    raw_ok 16 dev -> is_u32 ty -> is_u32 mx -> Bitmap4_ok nt ->
    wire Arg_GetDeviceInfo
      (encode_u32 OP_GETDEVICEINFO ++ raw dev ++ encode_u32 ty ++ encode_u32 mx ++ wire_bitmap nt)
| wire_getdevicelist ty mx ck vf :
    is_u32 ty -> is_u32 mx -> is_u64 ck -> raw_ok 8 vf ->
    wire Arg_GetDeviceList
      (encode_u32 OP_GETDEVICELIST ++ encode_u32 ty ++ encode_u32 mx ++ encode_u64 ck ++ raw vf)
| wire_layoutcommit off len rc sid no tm ty body :
    is_u64 off -> is_u64 len -> Stateid4_ok sid -> opt_ok is_u64 no -> opt_ok NfsTime4_ok tm ->
    is_u32 ty -> opaque_ok body ->
    wire Arg_LayoutCommit
      (encode_u32 OP_LAYOUTCOMMIT ++ encode_u64 off ++ encode_u64 len ++ encode_bool rc ++
       encode_Stateid4 sid ++ wire_option encode_u64 no ++ wire_option encode_NfsTime4 tm ++
       encode_u32 ty ++ encode_opaque body)
| wire_layoutget sig ty io off len mn sid mx :
    is_u32 ty -> is_u32 io -> is_u64 off -> is_u64 len -> is_u64 mn -> Stateid4_ok sid ->
    is_u32 mx ->
    wire Arg_LayoutGet
      (encode_u32 OP_LAYOUTGET ++ encode_bool sig ++ encode_u32 ty ++ encode_u32 io ++
       encode_u64 off ++ encode_u64 len ++ encode_u64 mn ++ encode_Stateid4 sid ++ encode_u32 mx)
| wire_layoutreturn_file rc ty io off len sid body :
    is_u32 ty -> is_u32 io -> is_u64 off -> is_u64 len -> Stateid4_ok sid -> opaque_ok body ->
    wire Arg_LayoutReturn
      (encode_u32 OP_LAYOUTRETURN ++ encode_bool rc ++ encode_u32 ty ++ encode_u32 io ++
       encode_u32 1 ++ encode_u64 off ++ encode_u64 len ++ encode_Stateid4 sid ++
       encode_opaque body)
| wire_layoutreturn_all rc ty io rt :
    is_u32 ty -> is_u32 io -> is_u32 rt -> rt <> 1 ->
    wire Arg_LayoutReturn
      (encode_u32 OP_LAYOUTRETURN ++ encode_bool rc ++ encode_u32 ty ++ encode_u32 io ++
       encode_u32 rt)
| wire_set_ssv ssv dg :
    opaque_ok ssv -> opaque_ok dg ->
    wire Arg_SetSsv (encode_u32 OP_SET_SSV ++ encode_opaque ssv ++ encode_opaque dg)
| wire_want_delegation want claim :
    is_u32 want -> claim = 4 \/ claim = 6 ->
    wire Arg_WantDelegation
      (encode_u32 OP_WANT_DELEGATION ++ encode_u32 want ++ encode_u32 claim)
| wire_allocate sid off len :
    Stateid4_ok sid -> is_u64 off -> is_u64 len ->
    wire (Arg_Unsupported OP_ALLOCATE)
      (encode_u32 OP_ALLOCATE ++ encode_Stateid4 sid ++ encode_u64 off ++ encode_u64 len)
| wire_deallocate sid off len :
    Stateid4_ok sid -> is_u64 off -> is_u64 len ->
    wire (Arg_Unsupported OP_DEALLOCATE)
      (encode_u32 OP_DEALLOCATE ++ encode_Stateid4 sid ++ encode_u64 off ++ encode_u64 len)
| wire_copy s1 s2 o1 o2 n c1 c2 locs :
    Stateid4_ok s1 -> Stateid4_ok s2 -> is_u64 o1 -> is_u64 o2 -> is_u64 n ->
    Forall netloc_ok locs /\ is_u32 (zlen locs) ->
    wire (Arg_Unsupported OP_COPY)
      (encode_u32 OP_COPY ++ encode_Stateid4 s1 ++ encode_Stateid4 s2 ++ encode_u64 o1 ++
       encode_u64 o2 ++ encode_u64 n ++ encode_bool c1 ++ encode_bool c2 ++
       encode_list wire_netloc_of locs)
| wire_copy_notify sid loc :
    Stateid4_ok sid -> netloc_ok loc ->
    wire (Arg_Unsupported OP_COPY_NOTIFY)
      (encode_u32 OP_COPY_NOTIFY ++ encode_Stateid4 sid ++ wire_netloc_of loc)
| wire_io_advise sid off n hints :
    Stateid4_ok sid -> is_u64 off -> is_u64 n -> Bitmap4_ok hints ->
    wire (Arg_Unsupported OP_IO_ADVISE)
      (encode_u32 OP_IO_ADVISE ++ encode_Stateid4 sid ++ encode_u64 off ++ encode_u64 n ++
       wire_bitmap hints)
| wire_layouterror off len sid (errs : list (bytes * Z * Z)) :
    is_u64 off -> is_u64 len -> Stateid4_ok sid ->
    Forall (fun e => raw_ok 16 e.1.1 /\ is_u32 e.1.2 /\ is_u32 e.2) errs /\ is_u32 (zlen errs) ->
    wire (Arg_Unsupported OP_LAYOUTERROR)
      (encode_u32 OP_LAYOUTERROR ++ encode_u64 off ++ encode_u64 len ++ encode_Stateid4 sid ++
       encode_list (fun e => raw e.1.1 ++ encode_u32 e.1.2 ++ encode_u32 e.2) errs)
| wire_offload_cancel sid :
    Stateid4_ok sid ->
    wire (Arg_Unsupported OP_OFFLOAD_CANCEL) (encode_u32 OP_OFFLOAD_CANCEL ++ encode_Stateid4 sid)
| wire_offload_status sid :
    Stateid4_ok sid ->
    wire (Arg_Unsupported OP_OFFLOAD_STATUS) (encode_u32 OP_OFFLOAD_STATUS ++ encode_Stateid4 sid)
| wire_read_plus sid off n :
    Stateid4_ok sid -> is_u64 off -> is_u32 n ->
    wire (Arg_Unsupported OP_READ_PLUS)
      (encode_u32 OP_READ_PLUS ++ encode_Stateid4 sid ++ encode_u64 off ++ encode_u32 n)
| wire_seek sid off what :
    Stateid4_ok sid -> is_u64 off -> is_u32 what ->
    wire (Arg_Unsupported OP_SEEK)
      (encode_u32 OP_SEEK ++ encode_Stateid4 sid ++ encode_u64 off ++ encode_u32 what)
| wire_clone s1 s2 o1 o2 n :
    Stateid4_ok s1 -> Stateid4_ok s2 -> is_u64 o1 -> is_u64 o2 -> is_u64 n ->
    wire (Arg_Unsupported OP_CLONE)
      (encode_u32 OP_CLONE ++ encode_Stateid4 s1 ++ encode_Stateid4 s2 ++ encode_u64 o1 ++
       encode_u64 o2 ++ encode_u64 n).

(** The GET_DIR_DELEGATION arm reads the times as unsigned, which takes the
    same bytes. *)
Lemma encode_i64_u64 z : encode_i64 z = encode_u64 (u64_wrap z).
Proof. done. Qed.

(** A loop that drops what it reads. *)
Lemma bind_repeat {A B} (d : decoder unit) (enc : A -> bytes) (dom : A -> Prop) (k : unit -> decoder B)
    (l : list A) rest :
  (forall a r, dom a -> d (enc a ++ r) = Ok (tt, r)) -> Forall dom l -> is_u32 (zlen l) ->
  dec_bind (dec_repeat (zlen l) d) k (flat_map enc l ++ rest) = k tt rest.
Proof.
  intros Hd Hl Hn. apply dec_bind_ok. unfold dec_repeat.
  rewrite loop_times_nat by apply zlen_nonneg. unfold zlen. rewrite Nat2Z.id. clear Hn.
  generalize (@nil unit). induction Hl as [|a l Ha Hl IH]; intros acc; simpl; [done|].
  unfold decode_item at 1. cbn [fst snd]. by rewrite <- app_assoc, Hd.
Qed.

Lemma decode_netloc_wire n rest : netloc_ok n -> decode_netloc (wire_netloc_of n ++ rest) = Ok (tt, rest).
Proof.
  destruct n as [[kind a] b]. intros (Hk & Ha & Hb). cbn [fst snd] in *.
  unfold decode_netloc, wire_netloc_of, wire_netloc. cbn [fst snd].
  assert (kind = 1 \/ kind = 2 \/ kind = 3) as [->|[-> | ->]] by lia; cbn [Z.eqb Pos.eqb];
    rewrite ?app_nil_r; wire_step; cbn [Z.eqb Pos.eqb orb]; by wire_run.
Qed.

Lemma bind_when {A B} (d : decoder A) enc dom `{!WireDec d enc dom} (k : unit -> decoder B)
    (o : option A) rest :
  opt_ok dom o ->
  dec_bind decode_bool (fun b => dec_bind (dec_when b d) k) (wire_option enc o ++ rest) = k tt rest.
Proof.
  destruct o as [v|]; intros Ho; unfold wire_option; wire_step; unfold dec_when.
  - rewrite <- bind_assoc. erewrite bind_wire; [done|apply _|exact Ho].
  - done.
Qed.

Lemma list_header {A} (enc : A -> bytes) (l : list A) rest :
  is_u32 (zlen l) -> encode_list enc l ++ rest = encode_u32 (zlen l) ++ flat_map enc l ++ rest.
Proof. intros Hl. unfold encode_list. by rewrite u32_wrap_small, <- app_assoc. Qed.

Lemma wire_roundtrip op bs rest : wire op bs -> decode_nfs_argop4 (bs ++ rest) = Ok (op, rest).
Proof.
  intros Hw. destruct Hw; [by apply argop_roundtrip|..]; pick_arm.
  all: match goal with |- ?d _ = _ => unfold d end.
  all: unfold decode_stateid_offset_length, dec_layoutreturn_file; union_run; try done.
  - unfold encode_NfsTime4. rewrite !encode_i64_u64. destruct_and?.
    repeat match goal with H : NfsTime4_ok _ |- _ => destruct H end. by wire_run.
  - erewrite bind_when by eauto with typeclass_instances.
    erewrite bind_when by eauto with typeclass_instances. by wire_run.
  - unfold dec_when. cbn [Z.eqb Pos.eqb]. rewrite <- bind_assoc. by union_run.
  - destruct (Z.eqb_spec rt 1); [done|]. done.
  - by destruct H0 as [-> | ->].
  - destruct H4 as [Hl Hn]. unfold decode_netloc_list.
    rewrite <- bind_assoc, list_header by done. wire_step.
    by erewrite bind_repeat by eauto using decode_netloc_wire.
  - unfold dec_bind. by rewrite decode_netloc_wire.
  - destruct H2 as [Hl Hn]. rewrite list_header by done. wire_step.
    erewrite (bind_repeat _ _ _ _ errs); [done| |exact Hl|done].
    intros [[dev st] opn] r (? & ? & ?). cbn [fst snd] in *. unfold dec_device_error. by wire_run.
Qed.

(** ** What a successful decoder has done

    [dec_post d P]: whenever [d] succeeds on a byte string, its result
    satisfies [P] and it has consumed a prefix of whole 32-bit words. *)

Definition dec_post {A} (d : decoder A) (P : A -> Prop) : Prop :=
  forall src a rest, bytes_ok src -> d src = Ok (a, rest) ->
    P a /\ exists used, src = used ++ rest /\ zlen used mod 4 = 0.

Create HintDb decpost.

Lemma post_codec {A} (c : Codec A) `{!LawfulCodec c} : dec_post (cod_dec c) (cod_dom c).
Proof. intros src a rest. apply codec_sound. Qed.

Lemma post_ret {A} (a : A) (P : A -> Prop) : P a -> dec_post (dec_ret a) P.
Proof. intros Ha src b rest _ [= <- <-]. split; [done|]. by exists []. Qed.

Lemma post_fail {A} e (P : A -> Prop) : dec_post (dec_fail e) P.
Proof. intros src a rest _ [=]. Qed.

Lemma post_bind {A B} (d : decoder A) (k : A -> decoder B) P Q :
  dec_post d P -> (forall a, P a -> dec_post (k a) Q) -> dec_post (dec_bind d k) Q.
Proof.
  intros Hd Hk src b rest Hok (a & s & E1 & E2)%dec_bind_inv.
  destruct (Hd _ _ _ Hok E1) as (Ha & u1 & -> & H1). apply bytes_ok_app in Hok as [_ Hok].
  destruct (Hk a Ha _ _ _ Hok E2) as (Hb & u2 & -> & H2).
  split; [done|]. exists (u1 ++ u2). rewrite app_assoc, zlen_app. auto with nfs.
Qed.

Lemma post_weaken {A} (d : decoder A) (P Q : A -> Prop) :
  dec_post d P -> (forall a, P a -> Q a) -> dec_post d Q.
Proof. intros Hd HPQ src a rest Hok E. destruct (Hd src a rest Hok E). auto. Qed.

Lemma post_u32 : dec_post decode_u32 is_u32.
Proof. apply (post_codec u32_codec). Qed.
Lemma post_u64 : dec_post decode_u64 is_u64.
Proof. apply (post_codec u64_codec). Qed.
Lemma post_i64 : dec_post decode_i64 is_i64.
Proof. apply (post_codec i64_codec). Qed.
Lemma post_bool : dec_post decode_bool (fun _ => True).
Proof. apply (post_codec bool_codec). Qed.
Lemma post_opaque : dec_post decode_opaque opaque_ok.
Proof. apply (post_codec opaque_codec). Qed.
Lemma post_opaque_max max : dec_post (decode_opaque_max max) (fun d => opaque_ok d /\ zlen d <= max).
Proof. apply (post_codec (opaque_max_codec max)). Qed.
Lemma post_string : dec_post decode_string string_ok.
Proof. apply (post_codec string_codec). Qed.
Lemma post_string_max max : dec_post (decode_string_max max) (fun s => string_ok s /\ zlen s <= max).
Proof. apply (post_codec (string_max_codec max)). Qed.
Lemma post_raw n : 0 <= n -> dec_post (decode_fixed_opaque n) (raw_ok n).
Proof. intros Hn. apply (post_codec (fixed_opaque_codec n) (LawfulCodec0 := fixed_opaque_lawful n Hn)). Qed.
Lemma post_raw8 : dec_post (decode_fixed_opaque 8) (raw_ok 8).
Proof. by apply post_raw. Qed.
Lemma post_raw12 : dec_post (decode_fixed_opaque 12) (raw_ok 12).
Proof. by apply post_raw. Qed.
Lemma post_raw16 : dec_post (decode_fixed_opaque 16) (raw_ok 16).
Proof. by apply post_raw. Qed.
#[export] Hint Resolve post_u32 post_u64 post_i64 post_bool post_opaque post_opaque_max post_string
  post_string_max post_raw8 post_raw12 post_raw16 : decpost.

(** A loop of decoders. *)
Lemma post_items {A} (d : decoder A) (P : A -> Prop) n acc src l rest :
  dec_post d P -> bytes_ok src -> Forall P acc ->
  loop_nat (decode_item d) n (acc, src) = Ok (l, rest) ->
  Forall P l /\ length l = (length acc + n)%nat /\ exists used, src = used ++ rest /\ zlen used mod 4 = 0.
Proof.
  intros Hd. revert acc src. induction n as [|n IH]; intros acc src Hok Hacc; simpl.
  - intros [= <- <-]. split; [done|]. split; [lia|]. by exists [].
  - unfold decode_item at 1. cbn [fst snd].
    destruct (d src) as [[a s]|] eqn:E; [|done]. intros Hl.
    destruct (Hd _ _ _ Hok E) as (Ha & u1 & -> & H1). apply bytes_ok_app in Hok as [_ Hok].
    destruct (IH (acc ++ [a]) s Hok) as (Hp & Hlen & u2 & -> & H2); [|done|].
    { apply Forall_app. auto. }
    split; [done|]. rewrite length_app in Hlen. simpl in Hlen. split; [lia|].
    exists (u1 ++ u2). rewrite app_assoc, zlen_app. auto with nfs.
Qed.

Lemma post_loop {A} (d : decoder A) (P : A -> Prop) count :
  dec_post d P -> is_u32 count ->
  dec_post (fun src => loop_times (decode_item d) count ([], src))
           (fun l => Forall P l /\ zlen l = count).
Proof.
  intros Hd Hn src l rest Hok. rewrite loop_times_nat by apply Hn. intros Hl.
  destruct (post_items d P _ _ _ _ _ Hd Hok (Forall_nil_2 _) Hl) as (Hp & Hlen & Hu).
  split; [|done]. split; [done|]. unfold zlen, is_u32 in *. simpl in Hlen. lia.
Qed.

Lemma post_list {A} (d : decoder A) (P : A -> Prop) :
  dec_post d P -> dec_post (decode_list d) (fun l => Forall P l /\ is_u32 (zlen l)).
Proof.
  intros Hd. eapply post_bind; [apply post_u32|]. intros count Hc.
  eapply post_weaken; [by apply post_loop|]. intros l [Hl ->]. done.
Qed.

Lemma post_list_max {A} (d : decoder A) (P : A -> Prop) max :
  dec_post d P ->
  dec_post (decode_list_max d max) (fun l => (Forall P l /\ is_u32 (zlen l)) /\ zlen l <= max).
Proof.
  intros Hd. eapply post_bind; [apply post_u32|]. intros count Hc.
  destruct (Z.ltb_spec max count); [apply post_fail|].
  eapply post_weaken; [by apply post_loop|]. by intros l [Hl ->].
Qed.

Lemma post_repeat count d : dec_post d (fun _ => True) -> is_u32 count ->
  dec_post (dec_repeat count d) (fun _ => True).
Proof.
  intros Hd Hc src a rest Hok. unfold dec_repeat.
  pose proof (post_loop d _ count Hd Hc src) as Hp. cbv beta in Hp.
  destruct (loop_times _ _ _) as [[l s]|] eqn:E; [|done]. intros [= <- <-].
  destruct (Hp l s Hok eq_refl). done.
Qed.
#[export] Hint Resolve post_list post_list_max post_repeat : decpost.

Ltac post_done := cbv beta in *; cbn; destruct_and?; split_and?; first [assumption | done | auto with nfs].
Ltac post_step :=
  first
  [ apply post_fail
  | apply post_ret; solve [post_done]
  | eapply post_bind; [solve [eauto with decpost]|intros ? ?]
  | match goal with |- dec_post (if ?b then _ else _) _ => destruct b eqn:? end ].
Ltac post_run := repeat post_step.

Lemma post_Bitmap4 : dec_post decode_Bitmap4 Bitmap4_ok.
Proof.
  eapply post_bind; [apply post_u32|]. intros count Hc src b rest Hok.
  cbv beta zeta. destruct (u64_max <? count * 4); [done|].
  destruct (zlen src <? count * 4); [done|].
  pose proof (post_loop decode_u32 _ count post_u32 Hc src) as Hp. cbv beta in Hp.
  destruct (loop_times _ _ _) as [[l s]|] eqn:E; [|done]. intros [= <- <-].
  destruct (Hp l s Hok eq_refl) as [[Hl Hn] Hu]. split; [|done]. split; cbn; [done|by rewrite Hn].
Qed.
#[export] Hint Resolve post_Bitmap4 : decpost.
Lemma post_Fattr4 : dec_post decode_Fattr4 Fattr4_ok.
Proof. unfold decode_Fattr4. post_run. Qed.
Lemma post_Stateid4 : dec_post decode_Stateid4 Stateid4_ok.
Proof. unfold decode_Stateid4. post_run. Qed.
Lemma post_NfsTime4 : dec_post decode_NfsTime4 NfsTime4_ok.
Proof. unfold decode_NfsTime4. post_run. Qed.
Lemma post_StateOwner4 : dec_post decode_StateOwner4 StateOwner4_ok.
Proof. unfold decode_StateOwner4. post_run. Qed.
Lemma post_ClientOwner4 : dec_post decode_ClientOwner4 ClientOwner4_ok.
Proof. unfold decode_ClientOwner4. post_run. Qed.
Lemma post_NfsLockType4 : dec_post decode_NfsLockType4 (fun _ => True).
Proof. unfold decode_NfsLockType4. post_run. Qed.
Lemma post_NfsFh4 : dec_post decode_NfsFh4 (fun d => opaque_ok d /\ zlen d <= 128).
Proof. apply post_opaque_max. Qed.
Lemma post_ChannelAttrs4 : dec_post decode_ChannelAttrs4 ChannelAttrs4_ok.
Proof. unfold decode_ChannelAttrs4. post_run. Qed.
#[export] Hint Resolve post_Fattr4 post_Stateid4 post_NfsTime4 post_StateOwner4 post_ClientOwner4
  post_NfsLockType4 post_NfsFh4 post_ChannelAttrs4 : decpost.
Lemma post_NfsImplId4 : dec_post decode_NfsImplId4 NfsImplId4_ok.
Proof. unfold decode_NfsImplId4. post_run. Qed.
Lemma post_AuthSysParams : dec_post decode_AuthSysParams AuthSysParams_ok.
Proof. unfold decode_AuthSysParams. post_run. Qed.
#[export] Hint Resolve post_NfsImplId4 post_AuthSysParams : decpost.
Lemma post_CallbackSecParms4 : dec_post decode_CallbackSecParms4 CallbackSecParms4_ok.
Proof. unfold decode_CallbackSecParms4. post_run. Qed.
#[export] Hint Resolve post_CallbackSecParms4 : decpost.

Lemma post_specdata : dec_post dec_specdata (fun d => is_u32 (specdata1 d) /\ is_u32 (specdata2 d)).
Proof. unfold dec_specdata. post_run. Qed.
#[export] Hint Resolve post_specdata : decpost.
Lemma post_createtype v : is_u32 v -> dec_post (dec_createtype v) Createtype4_ok.
Proof. intros Hv. unfold dec_createtype. post_run. apply post_ret. cbn. split; [done|lia]. Qed.
Lemma post_createhow v : dec_post (dec_createhow v) Createhow4_ok.
Proof. unfold dec_createhow. post_run. Qed.
#[export] Hint Resolve post_createtype post_createhow : decpost.
Lemma post_openflag v : dec_post (dec_openflag v) Openflag4_ok.
Proof. unfold dec_openflag. post_run. Qed.
Lemma post_openclaim v : dec_post (dec_openclaim v) OpenClaim4_ok.
Proof. unfold dec_openclaim. post_run. Qed.
Lemma post_state_protect_ops : dec_post dec_state_protect_ops StateProtectOps4_ok.
Proof. unfold dec_state_protect_ops. post_run. Qed.
#[export] Hint Resolve post_openflag post_openclaim post_state_protect_ops : decpost.
Lemma post_state_protect v : dec_post (dec_state_protect v) StateProtect4A_ok.
Proof. unfold dec_state_protect. post_run. Qed.
Lemma post_locker b : dec_post (dec_locker b) Locker4_ok.
Proof. unfold dec_locker. post_run. Qed.
Lemma post_setxattr_option v : dec_post (dec_setxattr_option v) (fun _ => True).
Proof. unfold dec_setxattr_option. post_run. Qed.
Lemma post_when {A} b (d : decoder A) P : dec_post d P -> dec_post (dec_when b d) (fun _ => True).
Proof. intros Hd. unfold dec_when. destruct b; [|by apply post_ret]. eapply post_bind; [done|]. intros. by apply post_ret. Qed.
Lemma post_layoutreturn_file : dec_post dec_layoutreturn_file (fun _ => True).
Proof. unfold dec_layoutreturn_file. post_run. Qed.
Lemma post_stateid_offset_length : dec_post decode_stateid_offset_length (fun _ => True).
Proof. unfold decode_stateid_offset_length. post_run. Qed.
Lemma post_netloc : dec_post decode_netloc (fun _ => True).
Proof. unfold decode_netloc. post_run. Qed.
#[export] Hint Resolve post_netloc : decpost.
Lemma post_netloc_list : dec_post decode_netloc_list (fun _ => True).
Proof. eapply post_bind; [apply post_u32|]. intros. by apply post_repeat; eauto with decpost. Qed.
Lemma post_device_error : dec_post dec_device_error (fun _ => True).
Proof. unfold dec_device_error. post_run. Qed.
#[export] Hint Resolve post_state_protect post_locker post_setxattr_option post_when
  post_layoutreturn_file post_stateid_offset_length post_netloc_list post_device_error : decpost.

Lemma post_argop_arm opnum : dec_post (argop_arm opnum) argop_ok.
Proof.
  unfold argop_arm.
  repeat (match goal with |- dec_post (if ?c then ?d else _) _ =>
    destruct c; [try unfold d; solve [post_run | post_run; apply post_ret; cbn; set_solver]|] end).
  by apply post_ret.
Qed.
#[export] Hint Resolve post_argop_arm : decpost.

Lemma post_argop : dec_post decode_nfs_argop4 argop_ok.
Proof. eapply post_bind; [apply post_u32|]. intros. apply post_argop_arm. Qed.
#[export] Hint Resolve post_argop : decpost.

(** ** Theorems *)

(** A decoded operation takes at least its number, so a request holds no more
    operations than words. *)
Lemma argop_progress src op rest :
  decode_nfs_argop4 src = Ok (op, rest) -> bytes_ok src -> zlen rest + 4 <= zlen src.
Proof.
  intros (opnum & s & E1 & E2)%dec_bind_inv Hok.
  destruct (post_u32 _ _ _ Hok E1) as (_ & u1 & -> & _).
  apply bytes_ok_app in Hok as [_ Hok]. destruct (post_argop_arm opnum _ _ _ Hok E2) as (_ & u2 & -> & _).
  unfold decode_u32 in E1. rewrite !zlen_app in *. pose proof (zlen_nonneg u2).
  destruct (Z.ltb_spec (zlen u1 + (zlen u2 + zlen rest)) 4); [done|]. injection E1 as _ E1.
  apply (f_equal zlen) in E1. unfold zlen in *. rewrite length_drop, !length_app in E1. lia.
Qed.

Lemma argops_bounded n acc src ops rest :
  loop_nat (decode_item decode_nfs_argop4) n (acc, src) = Ok (ops, rest) -> bytes_ok src ->
  zlen rest + 4 * zlen ops <= zlen src + 4 * zlen acc.
Proof.
  revert acc src. induction n as [|n IH]; intros acc src; simpl; [intros [= <- <-]; lia|].
  unfold decode_item at 1. cbn [fst snd].
  destruct (decode_nfs_argop4 src) as [[op s]|] eqn:E; [|done]. intros Hl Hok.
  pose proof (argop_progress _ _ _ E Hok). destruct (post_argop _ _ _ Hok E) as (_ & u & -> & _).
  apply bytes_ok_app in Hok as [_ Hok]. specialize (IH _ _ Hl Hok).
  rewrite zlen_app in IH. unfold zlen in *. simpl in *. lia.
Qed.

Lemma post_Compound4Args :
  dec_post decode_Compound4Args (fun args => string_ok (c4a_tag args) /\
    is_u32 (c4a_minorversion args) /\ Forall argop_ok (c4a_argarray args)).
Proof. unfold decode_Compound4Args. post_run. Qed.

Lemma post_OpaqueAuth : dec_post decode_OpaqueAuth (fun _ => True).
Proof. unfold decode_OpaqueAuth. post_run. Qed.
#[export] Hint Resolve post_OpaqueAuth : decpost.
Lemma post_RpcCallHeader : dec_post decode_RpcCallHeader (fun _ => True).
Proof. unfold decode_RpcCallHeader. post_run. Qed.

(** C20. The server understands its clients: a COMPOUND request laid out as the
    protocol says, with any sequence of operations (those whose arguments the
    server drops included), decodes to exactly that tag, minor version and list
    of operations, and what follows it in the buffer is left alone. *)
Theorem compound_roundtrip tag minorversion ops bss rest :
  string_ok tag -> is_u32 minorversion -> is_u32 (zlen ops) -> Forall2 wire ops bss ->
  decode_Compound4Args
    (encode_string tag ++ encode_u32 minorversion ++ encode_u32 (zlen ops) ++ concat bss ++ rest)
  = Ok (mkCompound4Args tag minorversion ops, rest).
Proof.
  intros Ht Hm Hn Hw. unfold decode_Compound4Args, decode_list.
  wire_step. wire_step. unfold dec_bind at 1. wire_step. unfold dec_bind.
  rewrite loop_times_nat by apply zlen_nonneg. unfold zlen. rewrite Nat2Z.id. clear Hn.
  assert (Hl : forall acc, loop_nat (decode_item decode_nfs_argop4) (length ops) (acc, concat bss ++ rest)
               = Ok (acc ++ ops, rest)).
  { clear -Hw. induction Hw as [|op bs ops bss Hop Hw IH]; intros acc; simpl; [by rewrite app_nil_r|].
    unfold decode_item at 1. cbn [fst snd]. rewrite <- app_assoc.
    erewrite wire_roundtrip by done. rewrite IH. by rewrite <- app_assoc. }
  by rewrite Hl.
Qed.

Lemma compound_roundtrip_witness :
  let ops := [Arg_Putrootfh; Arg_Lookup (mkLookupArgs4 (str_bytes "a")); Arg_DelegPurge] in
  let bss := [encode_u32 OP_PUTROOTFH;
              encode_u32 OP_LOOKUP ++ encode_string (str_bytes "a");
              encode_u32 OP_DELEGPURGE ++ encode_u64 7] in
  decode_Compound4Args
    (encode_string (str_bytes "t") ++ encode_u32 1 ++ encode_u32 (zlen ops) ++ concat bss ++ [])
  = Ok (mkCompound4Args (str_bytes "t") 1 ops, []).
Proof.
  assert (Hs : forall s, (length s <= 1)%nat -> Forall (fun b => 0 <= b < 128) s -> string_ok s).
  { intros s Hl Hb. split; [split|].
    - eapply Forall_impl; [|exact Hb]. unfold is_u8. intros; cbn in *; lia.
    - unfold is_u32, zlen. lia.
    - destruct Hb as [|b s Hb _]; [done|]. destruct s; simpl in Hl; [|lia]. simpl.
      by destruct (Z.ltb_spec b 128); [|lia]. }
  intros ops bss. apply (compound_roundtrip (str_bytes "t") 1 ops bss []).
  - apply Hs; [simpl; lia|]. repeat constructor; cbn; lia.
  - unfold is_u32. lia.
  - unfold is_u32, zlen. simpl. lia.
  - constructor; [by apply wire_kept|]. constructor.
    { apply wire_kept; [done|]. apply Hs; [simpl; lia|]. repeat constructor; cbn; lia. }
    constructor; [|constructor]. apply wire_delegpurge. unfold is_u64. lia.
Defined.

(** What the decoder accepts is well-formed and paid for: every field of
    every operation is within the range of its type (lengths limited to 1024
    and 128 bytes included), the request and what is left of the buffer are
    whole words, and the number of operations is bounded by the input, whatever
    the count in the request claims. *)
Theorem compound_decode_sound src args rest :
  bytes_ok src -> decode_Compound4Args src = Ok (args, rest) ->
  string_ok (c4a_tag args) /\ is_u32 (c4a_minorversion args) /\
  Forall argop_ok (c4a_argarray args) /\
  (exists used, src = used ++ rest /\ zlen used mod 4 = 0) /\
  4 * zlen (c4a_argarray args) <= zlen src - zlen rest.
Proof.
  intros Hok Hd.
  destruct (post_Compound4Args _ _ _ Hok Hd) as ((Ht & Hm & Ha) & Hu). split_and!; try done.
  destruct (dec_bind_inv _ _ _ _ Hd) as (tag & s1 & E1 & Hd1).
  destruct (post_string _ _ _ Hok E1) as (_ & u1 & -> & _). apply bytes_ok_app in Hok as [_ Hok].
  destruct (dec_bind_inv _ _ _ _ Hd1) as (mv & s2 & E2 & Hd2).
  destruct (post_u32 _ _ _ Hok E2) as (_ & u2 & -> & _). apply bytes_ok_app in Hok as [_ Hok].
  destruct (dec_bind_inv _ _ _ _ Hd2) as (ops & s3 & E3 & [= <- <-]).
  destruct (dec_bind_inv _ _ _ _ E3) as (count & s4 & E4 & E5).
  destruct (post_u32 _ _ _ Hok E4) as (Hc & u3 & -> & _). apply bytes_ok_app in Hok as [_ Hok].
  rewrite loop_times_nat in E5 by apply Hc.
  pose proof (argops_bounded _ _ _ _ _ E5 Hok) as Hb. cbn in Hb |- *.
  rewrite !zlen_app. pose proof (zlen_nonneg u1). pose proof (zlen_nonneg u2).
  pose proof (zlen_nonneg u3). change (zlen (@nil NfsArgop4)) with 0 in Hb. lia.
Qed.

Lemma compound_decode_sound_witness :
  exists args rest, decode_Compound4Args (encode_u32 0 ++ encode_u32 1 ++ encode_u32 1 ++
      encode_u32 OP_PUTROOTFH ++ [9]) = Ok (args, rest) /\
    Forall argop_ok (c4a_argarray args) /\ 4 * zlen (c4a_argarray args) <= 17 - zlen rest.
Proof.
  eexists _, _. split; [vm_compute; reflexivity|].
  edestruct (compound_decode_sound (encode_u32 0 ++ encode_u32 1 ++ encode_u32 1 ++
      encode_u32 OP_PUTROOTFH ++ [9])) as (_ & _ & Ha & _ & Hl); [|vm_compute; reflexivity|done].
  unfold bytes_ok, is_u8. apply (bool_decide_unpack _). by vm_compute.
Defined.

(** Two operations whose arguments are not skipped in full, so that what is left
    of them is taken for the next operation: a WANT_DELEGATION that reclaims
    (CLAIM_PREVIOUS carries the type of the delegation) ... *)
Theorem want_delegation_misread :
  let want := encode_u32 OP_WANT_DELEGATION ++ encode_u32 0 ++ encode_u32 1 ++ encode_u32 2 in
  decode_Compound4Args (encode_string [] ++ encode_u32 1 ++ encode_u32 2 ++ want ++ encode_u32 OP_PUTROOTFH)
  = Ok (mkCompound4Args [] 1 [Arg_WantDelegation; Arg_Illegal], encode_u32 OP_PUTROOTFH).
Proof. vm_compute. reflexivity. Qed.

(** ... and a LAYOUTSTATS (the layout type before the body). *)
Theorem layoutstats_misread :
  let stats := encode_u32 OP_LAYOUTSTATS ++ encode_u64 0 ++ encode_u64 0 ++
    encode_Stateid4 Stateid4_ANONYMOUS ++ encode_u64 0 ++ encode_u64 0 ++ encode_u64 0 ++
    encode_u64 0 ++ repeat 0 16 ++ encode_u32 0 ++ encode_opaque [7; 7; 7] in
  decode_Compound4Args (encode_string [] ++ encode_u32 1 ++ encode_u32 2 ++ stats ++ encode_u32 OP_PUTROOTFH)
  = Ok (mkCompound4Args [] 1 [Arg_Unsupported OP_LAYOUTSTATS; Arg_Access (mkAccessArgs4 117901056)], encode_u32 OP_PUTROOTFH).
Proof. vm_compute. reflexivity. Qed.
