(* ===== verification/DelegTable.v ===== *)
(** * The delegation table and its two indexes (session/delegations.rs, the
    helpers that run under the state lock)

    A delegation is reachable from three maps: [delegations] by stateid,
    [dir_delegations] by directory and [client_delegations] by client.
    [deleg_wf] says the two indexes describe the table exactly; the lemmas
    show what the removals do to it. *)

From stdpp Require Import base gmap list sets strings numbers.
From Stdlib Require Import ZArith Lia.
From S2P Require Import Prelude Xdr Rpc Types StateModel.

Local Open Scope Z_scope.

(** ** Operations *)

(** Dropping one entry of an index, and the key when its set becomes empty. *)
Definition index_remove {K} `{Countable K} (key : K) (other : bytes)
    (index : gmap K (gset bytes)) : gmap K (gset bytes) :=
  match index !! key with
  | Some entries =>
    let entries' := entries ∖ {[other]} in
    if bool_decide (entries' = ∅) then delete key index else <[key := entries']> index
  | None => index
  end.

(** [entry(key).or_default().insert(other)] *)
Definition index_insert {K} `{Countable K} (key : K) (other : bytes)
    (index : gmap K (gset bytes)) : gmap K (gset bytes) :=
  <[key := {[other]} ∪ default ∅ (index !! key)]> index.

Definition remove_delegation_locked (inner : StateInner) (other : bytes)
    : StateInner * option DelegationState :=
  match in_delegations inner !! other with
  | None => (inner, None)
  | Some state =>
    let inner := set_in_delegations (delete other (in_delegations inner)) inner in
    let inner := set_in_dir_delegations
                   (index_remove (ds_object state) other (in_dir_delegations inner)) inner in
    let inner := set_in_client_delegations
                   (index_remove (ds_clientid state) other (in_client_delegations inner)) inner in
    (inner, Some state)
  end.

Definition remove_client_delegations_locked {ho : HashOrder} (inner : StateInner) (clientid : Z)
    : StateInner :=
  let others := default ∅ (in_client_delegations inner !! clientid) in
  foldl (fun i other => (remove_delegation_locked i other).1) inner (hs_iter others).

Definition is_live_delegation_status (status : DelegationStatus) : bool :=
  match status with Granted | RecallInProgress => true | Returned | Revoked => false end.

Definition is_live_delegation (inner : StateInner) (other : bytes) : bool :=
  match in_delegations inner !! other with
  | Some state => is_live_delegation_status (ds_status state)
  | None => false
  end.

Definition find_live_directory_delegation {ho : HashOrder} (inner : StateInner)
    (object : ServerObject) (clientid : Z) : option bytes :=
  match in_client_delegations inner !! clientid with
  | None => None
  | Some others =>
    hs_find (fun other =>
      match in_delegations inner !! other with
      | Some state =>
        bool_decide (ds_object state = object) &&
        bool_decide (ds_kind state = DirectoryRead) &&
        is_live_delegation_status (ds_status state)
      | None => false
      end) others
  end.

Definition has_recall_in_progress {ho : HashOrder} (inner : StateInner) (object : ServerObject)
    : bool :=
  match in_dir_delegations inner !! object with
  | None => false
  | Some others =>
    hs_any (fun other =>
      match in_delegations inner !! other with
      | Some state => bool_decide (ds_status state = RecallInProgress)
      | None => false
      end) others
  end.

Definition has_live_client_delegations {ho : HashOrder} (inner : StateInner) (clientid : Z)
    : bool :=
  match in_client_delegations inner !! clientid with
  | None => false
  | Some others =>
    hs_any (fun other =>
      match in_delegations inner !! other with
      | Some state => is_live_delegation_status (ds_status state)
      | None => false
      end) others
  end.

(** ** Invariant *)

(** [index] lists exactly the table's entries under the key [f] gives them. *)
Record index_wf {K} `{Countable K} (f : DelegationState -> K)
    (table : gmap bytes DelegationState) (index : gmap K (gset bytes)) : Prop := {
  index_sound : forall key X k, index !! key = Some X -> k ∈ X ->
    exists d, table !! k = Some d /\ f d = key;
  index_complete : forall k d, table !! k = Some d ->
    exists X, index !! (f d) = Some X /\ k ∈ X;
}.

Definition deleg_wf (i : StateInner) : Prop :=
  index_wf ds_object (in_delegations i) (in_dir_delegations i) /\
  index_wf ds_clientid (in_delegations i) (in_client_delegations i).

(** The parts of [StateInner] that the delegation helpers leave alone. *)
Definition same_but_delegations (i j : StateInner) : Prop :=
  in_clients i = in_clients j /\ in_sessions i = in_sessions j /\
  in_open_files i = in_open_files j /\ in_lock_files i = in_lock_files j /\
  in_metadata i = in_metadata j.

#[export] Instance same_but_delegations_equiv : Equivalence same_but_delegations.
Proof.
  split.
  - intros i. by repeat split.
  - intros i j (?&?&?&?&?). by repeat split.
  - intros i j k (?&?&?&?&?) (?&?&?&?&?). repeat split; congruence.
Qed.

(** ** Lemmas *)

Section index_laws.
Context {K : Type} `{Countable K} (f : DelegationState -> K).
Implicit Types (table : gmap bytes DelegationState) (index : gmap K (gset bytes)).

(** What a lookup in an index sees after a removal. *)
Lemma elem_of_index_remove key other index key' k :
  (exists X, index_remove key other index !! key' = Some X /\ k ∈ X) <->
  (exists X, index !! key' = Some X /\ k ∈ X) /\ (key' = key -> k <> other).
Proof.
  unfold index_remove. destruct (index !! key) as [entries|] eqn:E.
  - case_bool_decide as Hemp; destruct (decide (key' = key)) as [->|Hne].
    + rewrite lookup_delete_eq. split; [by intros (X & ? & _)|].
      intros [(X & HX & Hk) Hne]. assert (X = entries) as -> by congruence.
      assert (k ∈ entries ∖ {[other]}) by set_solver. set_solver.
    + rewrite lookup_delete_ne by done. naive_solver.
    + rewrite lookup_insert_eq. split.
      * intros (X & [= <-] & Hk). split; [exists entries; set_solver|set_solver].
      * intros [(X & HX & Hk) Hne]. assert (X = entries) as -> by congruence.
        exists (entries ∖ {[other]}). set_solver.
    + rewrite lookup_insert_ne by done. naive_solver.
  - split; [|naive_solver]. intros (X & HX & Hk). split; [by eauto|].
    intros ->. congruence.
Qed.

Lemma index_wf_remove table index other d :
  table !! other = Some d -> index_wf f table index ->
  index_wf f (delete other table) (index_remove (f d) other index).
Proof.
  intros Hd [Hs Hc]. split.
  - intros key X k HX Hk.
    destruct (proj1 (elem_of_index_remove (f d) other index key k)) as [(Y & HY & HkY) Hne];
      [by eauto|].
    destruct (Hs _ _ _ HY HkY) as (d' & Hd' & <-). exists d'. split; [|done].
    rewrite lookup_delete_ne; [done|]. intros <-.
    assert (d' = d) as -> by congruence. by apply Hne.
  - intros k d' Hk. apply lookup_delete_Some in Hk as [Hne Hk].
    apply elem_of_index_remove. split; [by apply Hc|]. intros _ ->. done.
Qed.

Lemma index_wf_insert table index other d :
  table !! other = None -> index_wf f table index ->
  index_wf f (<[other := d]> table) (index_insert (f d) other index).
Proof.
  intros Hnone [Hs Hc]. unfold index_insert. split.
  - intros key X k HX Hk. destruct (decide (k = other)) as [->|Hne].
    + exists d. rewrite lookup_insert_eq. split; [done|].
      destruct (decide (f d = key)) as [|Hkey]; [done|]. exfalso.
      rewrite lookup_insert_ne in HX by done.
      destruct (Hs _ _ _ HX Hk) as (? & ? & _). congruence.
    + rewrite lookup_insert_ne by done.
      destruct (decide (f d = key)) as [<-|Hkey].
      * rewrite lookup_insert_eq in HX. injection HX as <-.
        destruct (index !! f d) as [Y|] eqn:E; simpl in Hk.
        -- apply (Hs _ Y k E). set_solver.
        -- set_solver.
      * rewrite lookup_insert_ne in HX by done. by apply (Hs _ X).
  - intros k d' Hk. destruct (decide (k = other)) as [->|Hne].
    + rewrite lookup_insert_eq in Hk. injection Hk as <-.
      eexists. rewrite lookup_insert_eq. split; [done|set_solver].
    + rewrite lookup_insert_ne in Hk by done. destruct (Hc _ _ Hk) as (X & HX & HkX).
      destruct (decide (f d = f d')) as [Heq|Hkey].
      * rewrite Heq in *. eexists. rewrite lookup_insert_eq, HX. split; [done|set_solver].
      * exists X. by rewrite lookup_insert_ne.
Qed.

(** Changing the value of an entry without changing its key. *)
Lemma index_wf_update table index k d d' :
  table !! k = Some d -> f d' = f d -> index_wf f table index ->
  index_wf f (<[k := d']> table) index.
Proof.
  intros Hd Hf [Hs Hc]. split.
  - intros key X k' HX Hk. destruct (Hs _ _ _ HX Hk) as (e & He & <-).
    destruct (decide (k' = k)) as [->|Hne].
    + exists d'. rewrite lookup_insert_eq. split; [done|]. congruence.
    + exists e. by rewrite lookup_insert_ne.
  - intros k' e He. destruct (decide (k' = k)) as [->|Hne].
    + rewrite lookup_insert_eq in He. injection He as <-. rewrite Hf. by apply Hc.
    + rewrite lookup_insert_ne in He by done. by apply Hc.
Qed.
End index_laws.

Lemma remove_delegation_same i other :
  same_but_delegations i (remove_delegation_locked i other).1.
Proof.
  unfold remove_delegation_locked. destruct (in_delegations i !! other); by repeat split.
Qed.

Lemma remove_delegation_table i other :
  in_delegations (remove_delegation_locked i other).1 = delete other (in_delegations i).
Proof.
  unfold remove_delegation_locked. destruct (in_delegations i !! other) eqn:E; [done|].
  simpl. by rewrite delete_id.
Qed.

Lemma remove_delegation_wf i other :
  deleg_wf i -> deleg_wf (remove_delegation_locked i other).1.
Proof.
  intros [Hd Hc]. unfold remove_delegation_locked.
  destruct (in_delegations i !! other) eqn:E; [|done]. split; by apply index_wf_remove.
Qed.

Lemma fold_remove_delegations i l :
  let i' := foldl (fun j other => (remove_delegation_locked j other).1) i l in
  same_but_delegations i i' /\ (deleg_wf i -> deleg_wf i') /\
  forall k, in_delegations i' !! k =
    if decide (k ∈ l) then None else in_delegations i !! k.
Proof.
  revert i. induction l as [|x l IH]; intros i; cbn [foldl].
  - split; [done|split; [done|]]. intros k. case_decide as Hk; [by inversion Hk|done].
  - destruct (IH (remove_delegation_locked i x).1) as (H1 & H2 & H3).
    split; [|split].
    + etransitivity; [apply remove_delegation_same|exact H1].
    + intros Hwf. apply H2. by apply remove_delegation_wf.
    + intros k. rewrite H3, remove_delegation_table.
      destruct (decide (k = x)) as [->|Hne].
      * rewrite lookup_delete_eq.
        destruct (decide (x ∈ l)), (decide (x ∈ x :: l)) as [|Hn]; try done;
          exfalso; apply Hn; by left.
      * rewrite lookup_delete_ne by done.
        destruct (decide (k ∈ l)) as [Ha|Ha], (decide (k ∈ x :: l)) as [Hb|Hb]; try done.
        -- exfalso. apply Hb. by right.
        -- apply elem_of_cons in Hb as [?|?]; done.
Qed.

(** Purging a client removes its delegations from all three maps, and no
    other delegation. *)
Lemma remove_client_delegations_spec {ho : HashOrder} i c :
  deleg_wf i ->
  same_but_delegations i (remove_client_delegations_locked i c) /\
  deleg_wf (remove_client_delegations_locked i c) /\
  in_delegations (remove_client_delegations_locked i c) =
    hm_retain (fun _ d => negb (ds_clientid d =? c)) (in_delegations i).
Proof.
  intros Hwf. unfold remove_client_delegations_locked.
  destruct (fold_remove_delegations i (hs_iter (default ∅ (in_client_delegations i !! c))))
    as (H1 & H2 & H3).
  split; [done|split; [by apply H2|]]. apply map_eq. intros k. rewrite H3, lookup_hm_retain.
  destruct Hwf as [_ [Hs Hc]]. case_decide as Hin.
  - rewrite elem_of_hs_iter in Hin.
    destruct (in_client_delegations i !! c) as [X|] eqn:E; [|set_solver].
    destruct (Hs _ _ _ E Hin) as (d & -> & ->). by rewrite Z.eqb_refl.
  - destruct (in_delegations i !! k) as [d|] eqn:E; [|done].
    destruct (Z.eqb_spec (ds_clientid d) c) as [<-|]; [|done]. exfalso. apply Hin.
    destruct (Hc _ _ E) as (X & HX & Hk). rewrite elem_of_hs_iter, HX. done.
Qed.

(** The client index answers for the table. *)
Lemma has_live_client_delegations_true {ho : HashOrder} i c :
  deleg_wf i ->
  has_live_client_delegations i c = true <->
  exists k d, in_delegations i !! k = Some d /\ ds_clientid d = c /\
              is_live_delegation_status (ds_status d) = true.
Proof.
  intros [_ [Hs Hc]]. unfold has_live_client_delegations. split.
  - destruct (in_client_delegations i !! c) as [X|] eqn:E; [|done].
    intros (k & Hk & Hl)%hs_any_true. destruct (Hs _ _ _ E Hk) as (d & Hd & Hf).
    rewrite Hd in Hl. eauto.
  - intros (k & d & Hd & <- & Hl). destruct (Hc _ _ Hd) as (X & HX & Hk). rewrite HX.
    apply hs_any_true. exists k. by rewrite Hd.
Qed.

Lemma find_live_directory_delegation_Some {ho : HashOrder} i o c k :
  deleg_wf i -> find_live_directory_delegation i o c = Some k ->
  exists d, in_delegations i !! k = Some d /\ ds_clientid d = c /\ ds_object d = o /\
            is_live_delegation_status (ds_status d) = true.
Proof.
  intros [_ [Hs Hc]]. unfold find_live_directory_delegation.
  destruct (in_client_delegations i !! c) as [X|] eqn:E; [|done].
  intros [Hk Hl]%hs_find_Some. destruct (Hs _ _ _ E Hk) as (d & Hd & Hf).
  rewrite Hd in Hl. bool_to_prop. eauto.
Qed.

Lemma find_live_directory_delegation_None {ho : HashOrder} i o c :
  deleg_wf i -> find_live_directory_delegation i o c = None ->
  forall k d, in_delegations i !! k = Some d -> ds_clientid d = c -> ds_object d = o ->
  is_live_delegation_status (ds_status d) = false.
Proof.
  intros [_ [Hs Hc]]. unfold find_live_directory_delegation. intros Hf k d Hd <- <-.
  destruct (Hc _ _ Hd) as (X & HX & Hk). rewrite HX in Hf.
  rewrite hs_find_None in Hf. specialize (Hf _ Hk). rewrite Hd in Hf.
  rewrite !bool_decide_eq_true_2 in Hf by (done || by destruct (ds_kind d)). done.
Qed.

Lemma deleg_wf_empty i :
  in_delegations i = ∅ -> in_dir_delegations i = ∅ -> in_client_delegations i = ∅ -> deleg_wf i.
Proof.
  intros Ht Hd Hc. unfold deleg_wf. rewrite Ht, Hd, Hc.
  split; split; intros *; rewrite lookup_empty; done.
Qed.
