(* ===== verification/Clients.v ===== *)
(** * Clients, leases and sessions (session/clients.rs)

    Lease expiry and reaping, EXCHANGE_ID, CREATE_SESSION, DESTROY_SESSION,
    DESTROY_CLIENTID, BIND_CONN_TO_SESSION, the NFSv4.0 SETCLIENTID family and
    the callback bookkeeping.  Every definition of an operation is one
    critical section of the state lock; [now] is the clock reading it takes. *)

From stdpp Require Import base gmap list sets strings numbers.
From Stdlib Require Import ZArith Lia.
From S2P Require Import Prelude Xdr Rpc Types StateModel DelegTable.

Local Open Scope Z_scope.

(** ** Lease expiry *)

Definition lease_deadline (cfg : StateConfig) (now : Z) : Z := now + cf_lease_duration cfg.

Section with_order.
Context {ho : HashOrder}.

Definition revoke_client_state (inner : StateInner) (clientid : Z) : StateInner :=
  let inner := set_in_open_files
    (hm_retain (fun _ st => negb (os_clientid st =? clientid)) (in_open_files inner)) inner in
  let inner := set_in_lock_files
    (hm_retain (fun _ st => negb (so_clientid (ls_owner st) =? clientid))
       (in_lock_files inner)) inner in
  remove_client_delegations_locked inner clientid.

Definition drop_client_state (inner : StateInner) (clientid : Z) : StateInner * bool :=
  let inner := set_in_sessions
    (hm_retain (fun _ ss => negb (ss_clientid ss =? clientid)) (in_sessions inner)) inner in
  let inner := revoke_client_state inner clientid in
  (set_in_clients (delete clientid (in_clients inner)) inner,
   bool_decide (is_Some (in_clients inner !! clientid))).

(** [now >= deadline] for an active lease *)
Definition lease_expired (now : Z) (client : ClientState) : bool :=
  match cs_lease_state client with
  | Lease_Active deadline => deadline <=? now
  | Lease_Revoked _ _ => false
  end.

(** [Instant::duration_since], which saturates at zero *)
Definition duration_since (now since : Z) : Z := Z.max 0 (now - since).

Definition revoked_droppable (cfg : StateConfig) (now : Z) (inner : StateInner)
    (clientid : Z) (client : ClientState) : bool :=
  match cs_lease_state client with
  | Lease_Active _ => false
  | Lease_Revoked since _ =>
    (cf_revoked_retention cfg <=? duration_since now since) ||
    negb (hm_any (fun _ ss => ss_clientid ss =? clientid) (in_sessions inner))
  end.

(** The first loop: an expired client loses its opens, locks and delegations
    and its lease is marked revoked. *)
Definition expire_client (now : Z) (inner : StateInner) (clientid : Z) : StateInner :=
  let inner := revoke_client_state inner clientid in
  match in_clients inner !! clientid with
  | Some client =>
    set_in_clients
      (<[clientid := set_cs_lease_state
           (Lease_Revoked now SEQ4_STATUS_EXPIRED_ALL_STATE_REVOKED) client]>
         (in_clients inner)) inner
  | None => inner
  end.

Definition reap_expired_clients_locked (cfg : StateConfig) (now : Z) (inner : StateInner)
    : StateInner :=
  let expired_active := hm_select (fun _ client => lease_expired now client) (in_clients inner) in
  let inner := foldl (expire_client now) inner expired_active in
  let drop_revoked :=
    hm_select (fun clientid client => revoked_droppable cfg now inner clientid client)
      (in_clients inner) in
  foldl (fun i clientid => (drop_client_state i clientid).1) inner drop_revoked.

Definition reap_expired_clients (now : Z) (s : StateManager) : StateManager :=
  with_inner (reap_expired_clients_locked (sm_config s) now) s.

(** ** EXCHANGE_ID *)

Definition lease_is_active (client : ClientState) : bool :=
  match cs_lease_state client with Lease_Active _ => true | Lease_Revoked _ _ => false end.

Definition drop_clients (inner : StateInner) (ids : list Z) : StateInner :=
  foldl (fun i c => (drop_client_state i c).1) inner ids.

Definition exchange_id_impl_id : NfsImplId4 :=
  mkNfsImplId4 (str_bytes "embednfs.local") (str_bytes "embednfs") (mkNfsTime4 0 0).

(** The client record the request resolves to: an active one with the same
    owner and verifier, or a fresh unconfirmed one. *)
Definition exchange_id_client (owner : ClientOwner4) (now : Z) (s : StateManager)
    : (Z * Z * bool) * StateManager :=
  let clients := in_clients (sm_inner s) in
  match hm_find (fun _ client =>
          bool_decide (co_ownerid (cs_owner client) = co_ownerid owner) &&
          bool_decide (co_verifier (cs_owner client) = co_verifier owner) &&
          lease_is_active client) clients with
  | Some (_, existing) =>
    ((cs_clientid existing, cs_sequence_id existing, cs_confirmed existing), s)
  | None =>
    let old_clientid :=
      match hm_find (fun _ client =>
              bool_decide (co_ownerid (cs_owner client) = co_ownerid owner) &&
              negb (bool_decide (co_verifier (cs_owner client) = co_verifier owner)) &&
              (cs_confirmed client || negb (lease_is_active client))) clients with
      | Some (_, client) => Some (cs_clientid client)
      | None =>
        match hm_find (fun _ client =>
                bool_decide (co_ownerid (cs_owner client) = co_ownerid owner) &&
                bool_decide (co_verifier (cs_owner client) = co_verifier owner) &&
                negb (lease_is_active client)) clients with
        | Some (_, client) => Some (cs_clientid client)
        | None => None
        end
      end in
    let stale_unconfirmed :=
      (fun kv : Z * ClientState => cs_clientid kv.2) <$>
      List.filter (fun kv =>
        bool_decide (co_ownerid (cs_owner kv.2) = co_ownerid owner) &&
        negb (bool_decide (co_verifier (cs_owner kv.2) = co_verifier owner)) &&
        negb (cs_confirmed kv.2) && lease_is_active kv.2) (hm_iter clients) in
    let s := with_inner (fun i => drop_clients i stale_unconfirmed) s in
    let '(id, s) := alloc_clientid s in
    let client := mkClientState id owner false false 1 0 old_clientid
                    (Lease_Active (lease_deadline (sm_config s) now)) None in
    ((id, 1, false),
     with_inner (fun i => set_in_clients (<[id := client]> (in_clients i)) i) s)
  end.

Definition exchange_id (args : ExchangeIdArgs4) (now : Z) (s : StateManager)
    : result NfsStat4 ExchangeIdRes4 * StateManager :=
  match ei_state_protect args with
  | SpA_None =>
    let s := reap_expired_clients now s in
    let '((clientid, seq, confirmed), s) := exchange_id_client (ei_clientowner args) now s in
    let confirmed_flag := if (confirmed : bool) then EXCHGID4_FLAG_CONFIRMED_R else 0 in
    (Ok (mkExchangeIdRes4 clientid seq (Z.lor EXCHGID4_FLAG_USE_NON_PNFS confirmed_flag)
           SpR_None (sm_server_owner s) (sm_server_scope s) [exchange_id_impl_id]), s)
  | _ => (Err NFS_Inval, s)
  end.

(** ** CREATE_SESSION *)

Fixpoint callback_auth (sec_parms : list CallbackSecParms4) : option OpaqueAuth :=
  match sec_parms with
  | [] => None
  | CbSec_None :: _ => Some OpaqueAuth_null
  | CbSec_Sys params :: _ =>
    Some (mkOpaqueAuth (AuthFlavor_u32 AuthSys) (encode_AuthSysParams params))
  | CbSec_RpcSecGss _ :: rest => callback_auth rest
  end.

Definition callback_backchannel (args : CreateSessionArgs4) (response_back_chan : ChannelAttrs4)
    : option BackchannelState :=
  match callback_auth (csa_sec_parms args) with
  | None => None
  | Some auth =>
    if csa_cb_program args =? 0 then None
    else Some (mkBackchannelState (csa_cb_program args) auth 1
                 (Z.max 0 (ca_maxrequests response_back_chan - 1)))
  end.

Definition create_session_back_chan : ChannelAttrs4 := mkChannelAttrs4 0 4096 4096 0 2 1 [].

(** The per-client half: check the sequence number, confirm the client, renew
    its lease and take the client it replaces. *)
Definition create_session_client (cfg : StateConfig) (sequence now : Z) (client : ClientState)
    : result NfsStat4 (ClientState * (option Z * Z)) :=
  if negb (lease_is_active client) then Err NFS_StaleClientid
  else if negb (sequence =? cs_sequence_id client) then Err NFS_SeqMisordered
  else
    let client := set_cs_sequence_id (u32_wrap (cs_sequence_id client + 1)) client in
    let client := set_cs_confirmed true client in
    let client := set_cs_status_flags 0 client in
    let client := set_cs_lease_state (Lease_Active (lease_deadline cfg now)) client in
    Ok (set_cs_replaced_clientid None client,
        (cs_replaced_clientid client, cs_sequence_id client)).

Definition create_session (args : CreateSessionArgs4) (connection_id now : Z) (s : StateManager)
    : result NfsStat4 CreateSessionRes4 * StateManager :=
  let s := reap_expired_clients now s in
  match in_clients (sm_inner s) !! csa_clientid args with
  | None => (Err NFS_StaleClientid, s)
  | Some client =>
    match create_session_client (sm_config s) (csa_sequence args) now client with
    | Err e => (Err e, s)
    | Ok (client, (replaced_clientid, client_sequence_id)) =>
      let s := with_inner
        (fun i => set_in_clients (<[csa_clientid args := client]> (in_clients i)) i) s in
      let s := match replaced_clientid with
               | Some old => with_inner (fun i => (drop_client_state i old).1) s
               | None => s
               end in
      let sessionid := be_bytes 8 (csa_clientid args) ++ be_bytes 8 client_sequence_id in
      let fore := csa_fore_chan_attrs args in
      let max_slots := Z.min (ca_maxrequests fore) MAX_FORE_CHAN_SLOTS in
      let slots := replicate (Z.to_nat (Z.max max_slots 1)) (mkSlotState 1 None None) in
      let fore_chan := mkChannelAttrs4 0
        (Z.min (ca_maxrequestsize fore) MAX_REQUEST_SIZE)
        (Z.min (ca_maxresponsesize fore) MAX_REQUEST_SIZE)
        (Z.min (ca_maxresponsesize_cached fore) MAX_CACHED_RESPONSE)
        (Z.min (ca_maxoperations fore) MAX_FORE_CHAN_SLOTS)
        max_slots [] in
      let back_chan := create_session_back_chan in
      let backchannel := callback_backchannel args back_chan in
      let accept_current_backchannel :=
        bool_decide (is_Some backchannel) &&
        negb (Z.land (csa_flags args) CREATE_SESSION4_FLAG_CONN_BACK_CHAN =? 0) in
      let accepted_flags :=
        if accept_current_backchannel then CREATE_SESSION4_FLAG_CONN_BACK_CHAN else 0 in
      let back_connections : gset Z :=
        if accept_current_backchannel then {[connection_id]} else ∅ in
      let session := mkSessionState (csa_clientid args) slots {[connection_id]}
                       back_connections backchannel in
      let s := with_inner
        (fun i => set_in_sessions (<[sessionid := session]> (in_sessions i)) i) s in
      (Ok (mkCreateSessionRes4 sessionid (csa_sequence args) accepted_flags fore_chan back_chan), s)
    end
  end.

(** ** DESTROY_SESSION, DESTROY_CLIENTID *)

Definition destroy_session (sessionid : bytes) (connection_id now : Z) (s : StateManager)
    : result NfsStat4 unit * StateManager :=
  let s := reap_expired_clients now s in
  match in_sessions (sm_inner s) !! sessionid with
  | None => (Err NFS_BadSession, s)
  | Some session =>
    if negb (bool_decide (connection_id ∈ ss_fore_connections session)) &&
       negb (bool_decide (connection_id ∈ ss_back_connections session))
    then (Err NFS_ConnNotBoundToSession, s)
    else (Ok tt, with_inner (fun i => set_in_sessions (delete sessionid (in_sessions i)) i) s)
  end.

Definition client_has_active_state (inner : StateInner) (clientid : Z) : bool :=
  hm_any (fun _ ss => ss_clientid ss =? clientid) (in_sessions inner) ||
  hm_any (fun _ st => os_clientid st =? clientid) (in_open_files inner) ||
  hm_any (fun _ st => so_clientid (ls_owner st) =? clientid) (in_lock_files inner) ||
  has_live_client_delegations inner clientid.

Definition destroy_clientid (clientid now : Z) (s : StateManager)
    : result NfsStat4 unit * StateManager :=
  let s := reap_expired_clients now s in
  if client_has_active_state (sm_inner s) clientid then (Err NFS_ClientidBusy, s)
  else
    let '(inner, removed) := drop_client_state (sm_inner s) clientid in
    (if (removed : bool) then Ok tt else Err NFS_StaleClientid, set_sm_inner inner s).

(** ** BIND_CONN_TO_SESSION *)

Definition ensure_backchannel_configured (session : SessionState) : result NfsStat4 unit :=
  match ss_backchannel session with Some _ => Ok tt | None => Err NFS_Inval end.

Definition add_fore (connection_id : Z) (session : SessionState) : SessionState :=
  set_ss_fore_connections ({[connection_id]} ∪ ss_fore_connections session) session.
Definition add_back (connection_id : Z) (session : SessionState) : SessionState :=
  set_ss_back_connections ({[connection_id]} ∪ ss_back_connections session) session.

Definition bind_connection_direction (session : SessionState) (client_dir connection_id : Z)
    : result NfsStat4 Z * SessionState :=
  if client_dir =? CDFC4_FORE then (Ok CDFS4_FORE, add_fore connection_id session)
  else if client_dir =? CDFC4_BACK then
    match ensure_backchannel_configured session with
    | Err e => (Err e, session)
    | Ok _ => (Ok CDFS4_BACK, add_back connection_id session)
    end
  else if client_dir =? CDFC4_FORE_OR_BOTH then
    let session := add_fore connection_id session in
    match ss_backchannel session with
    | Some _ => (Ok CDFS4_BOTH, add_back connection_id session)
    | None => (Ok CDFS4_FORE, session)
    end
  else if client_dir =? CDFC4_BACK_OR_BOTH then
    match ensure_backchannel_configured session with
    | Err e => (Err e, session)
    | Ok _ => (Ok CDFS4_BOTH, add_fore connection_id (add_back connection_id session))
    end
  else (Err NFS_Inval, session).

Definition bind_conn_to_session (args : BindConnToSessionArgs4) (connection_id now : Z)
    (s : StateManager) : result NfsStat4 BindConnToSessionRes4 * StateManager :=
  let s := reap_expired_clients now s in
  match in_sessions (sm_inner s) !! bc_sessionid args with
  | None => (Err NFS_BadSession, s)
  | Some session =>
    let '(res, session) := bind_connection_direction session (bc_dir args) connection_id in
    let s := with_inner
      (fun i => set_in_sessions (<[bc_sessionid args := session]> (in_sessions i)) i) s in
    match res with
    | Err e => (Err e, s)
    | Ok response_dir =>
      (Ok (mkBindConnToSessionRes4 (bc_sessionid args) response_dir false), s)
    end
  end.

(** ** Callback bookkeeping *)

Definition session_clientid (sessionid : bytes) (s : StateManager) : option Z :=
  ss_clientid <$> in_sessions (sm_inner s) !! sessionid.

Definition callback_connection_ids (clientid : Z) (s : StateManager) : list Z :=
  flat_map (fun kv => hs_iter (ss_back_connections kv.2))
    (List.filter (fun kv : bytes * SessionState =>
       (ss_clientid kv.2 =? clientid) && bool_decide (is_Some (ss_backchannel kv.2)))
       (hm_iter (in_sessions (sm_inner s)))).

Definition next_callback_target_on (clientid connection_id : Z) (s : StateManager)
    : option CallbackTarget * StateManager :=
  match hm_find (fun _ session =>
          (ss_clientid session =? clientid) &&
          bool_decide (is_Some (ss_backchannel session)) &&
          bool_decide (connection_id ∈ ss_back_connections session))
          (in_sessions (sm_inner s)) with
  | None => (None, s)
  | Some (sessionid, session) =>
    match ss_backchannel session with
    | None => (None, s)
    | Some backchannel =>
      let sequenceid := bs_next_sequenceid backchannel in
      let backchannel' :=
        set_bs_next_sequenceid (Z.max (u32_wrap (sequenceid + 1)) 1) backchannel in
      let session := set_ss_backchannel (Some backchannel') session in
      (Some (mkCallbackTarget sessionid connection_id (bs_cb_program backchannel)
               (bs_auth backchannel) sequenceid (bs_highest_slotid backchannel)),
       with_inner (fun i => set_in_sessions (<[sessionid := session]> (in_sessions i)) i) s)
    end
  end.

Definition remove_connection (connection_id : Z) (s : StateManager) : StateManager :=
  with_inner (fun i => set_in_sessions
    ((fun session =>
        set_ss_back_connections (ss_back_connections session ∖ {[connection_id]})
          (set_ss_fore_connections (ss_fore_connections session ∖ {[connection_id]}) session))
       <$> in_sessions i) i) s.

(** ** Reclaim *)

Definition reclaim_complete (clientid : Z) (one_fs : bool) (now : Z) (s : StateManager)
    : result NfsStat4 unit * StateManager :=
  let s := reap_expired_clients now s in
  match in_clients (sm_inner s) !! clientid with
  | None => (Err NFS_StaleClientid, s)
  | Some client =>
    if one_fs then (Ok tt, s)
    else if cs_reclaim_complete_global client then (Err NFS_CompleteAlready, s)
    else (Ok tt, with_inner (fun i => set_in_clients
            (<[clientid := set_cs_reclaim_complete_global true client]> (in_clients i)) i) s)
  end.

(** The check that follows the reap, under the read guard. *)
Definition open_reclaim_allowed (clientid : Z) (claim : OpenClaim4) (inner : StateInner)
    : result NfsStat4 unit :=
  match in_clients inner !! clientid with
  | None => Err NFS_StaleClientid
  | Some client =>
    if negb (lease_is_active client) then Err NFS_StaleClientid
    else match claim with
         | Claim_Previous _ => if cs_reclaim_complete_global client then Err NFS_NoGrace else Ok tt
         | _ => Ok tt
         end
  end.

Definition validate_open_reclaim (clientid : Z) (claim : OpenClaim4) (now : Z) (s : StateManager)
    : result NfsStat4 unit * StateManager :=
  let s := reap_expired_clients now s in
  (open_reclaim_allowed clientid claim (sm_inner s), s).

(** ** NFSv4.0 client identification *)

Definition next_v40_confirm_verifier (s : StateManager) (clientid : Z) : bytes :=
  be_bytes 8 (Z.lxor (from_be (sm_write_verifier s)) clientid).

Definition set_client_id (args : SetClientIdArgs4) (now : Z) (s : StateManager)
    : SetClientIdRes4 * StateManager :=
  let s := reap_expired_clients now s in
  let owner := sci_client args in
  let clients := in_clients (sm_inner s) in
  let existing :=
    match hm_find (fun _ c =>
            bool_decide (co_ownerid (cs_owner c) = co_ownerid owner) &&
            bool_decide (co_verifier (cs_owner c) = co_verifier owner) &&
            cs_confirmed c) clients with
    | Some (_, c) => Some (cs_clientid c)
    | None => None
    end in
  let stale :=
    (fun kv : Z * ClientState => cs_clientid kv.2) <$>
    List.filter (fun kv =>
      bool_decide (co_ownerid (cs_owner kv.2) = co_ownerid owner) &&
      negb (cs_confirmed kv.2)) (hm_iter clients) in
  let s := with_inner (fun i => drop_clients i stale) s in
  let '(clientid, s) := match existing with
                        | Some id => (id, s)
                        | None => alloc_clientid s
                        end in
  let confirm_verifier := next_v40_confirm_verifier s clientid in
  let lease := Lease_Active (lease_deadline (sm_config s) now) in
  let s :=
    match existing with
    | Some existing_id =>
      match in_clients (sm_inner s) !! existing_id with
      | Some client =>
        with_inner (fun i => set_in_clients
          (<[existing_id := set_cs_lease_state lease
               (set_cs_v40_confirm (Some confirm_verifier) client)]> (in_clients i)) i) s
      | None => s
      end
    | None =>
      with_inner (fun i => set_in_clients
        (<[clientid := mkClientState clientid owner false false 1 0 None lease
                         (Some confirm_verifier)]> (in_clients i)) i) s
    end in
  (mkSetClientIdRes4 clientid confirm_verifier, s).

Definition set_client_id_confirm (args : SetClientIdConfirmArgs4) (now : Z) (s : StateManager)
    : result NfsStat4 unit * StateManager :=
  let s := reap_expired_clients now s in
  match in_clients (sm_inner s) !! scc_clientid args with
  | None => (Err NFS_StaleClientid, s)
  | Some client =>
    match cs_v40_confirm client with
    | Some expected =>
      if bool_decide (expected = scc_verifier args) then
        let client := set_cs_v40_confirm None client in
        let client := set_cs_confirmed true client in
        let client := set_cs_status_flags 0 client in
        let client := set_cs_lease_state (Lease_Active (lease_deadline (sm_config s) now)) client in
        (Ok tt, with_inner (fun i => set_in_clients
           (<[scc_clientid args := client]> (in_clients i)) i) s)
      else (Err NFS_StaleClientid, s)
    | None => (Err NFS_StaleClientid, s)
    end
  end.

Definition renew (clientid now : Z) (s : StateManager) : result NfsStat4 unit * StateManager :=
  match in_clients (sm_inner s) !! clientid with
  | None => (Err NFS_StaleClientid, s)
  | Some client =>
    if negb (cs_confirmed client) then (Err NFS_StaleClientid, s)
    else match cs_lease_state client with
         | Lease_Active _ =>
           (Ok tt, with_inner (fun i => set_in_clients
              (<[clientid := set_cs_lease_state
                   (Lease_Active (lease_deadline (sm_config s) now)) client]> (in_clients i)) i) s)
         | Lease_Revoked _ _ => (Err NFS_Expired, s)
         end
  end.
End with_order.

(** ** What revoking clients does to the state tables

    [purged P i j]: [j] is [i] without the opens, locks and delegations of the
    clients that satisfy [P]. *)

Record purged (P : Z -> bool) (i j : StateInner) : Prop := {
  purged_opens : in_open_files j =
    hm_retain (fun _ st => negb (P (os_clientid st))) (in_open_files i);
  purged_locks : in_lock_files j =
    hm_retain (fun _ st => negb (P (so_clientid (ls_owner st)))) (in_lock_files i);
  purged_delegs : in_delegations j =
    hm_retain (fun _ st => negb (P (ds_clientid st))) (in_delegations i);
  purged_metadata : in_metadata j = in_metadata i;
  purged_wf : deleg_wf j;
}.

Lemma purged_refl P i : deleg_wf i -> (forall c, P c = false) -> purged P i i.
Proof.
  intros Hwf HP. split; try done; symmetry; apply hm_retain_true; intros; by rewrite HP.
Qed.

Lemma purged_trans P Q R i j k :
  purged P i j -> purged Q j k -> (forall c, R c = P c || Q c) -> purged R i k.
Proof.
  intros [Po Pl Pd Pm Pw] [Qo Ql Qd Qm Qw] HR. split; try congruence.
  - rewrite Qo, Po, hm_retain_retain. apply hm_retain_ext. intros. by rewrite HR, negb_orb.
  - rewrite Ql, Pl, hm_retain_retain. apply hm_retain_ext. intros. by rewrite HR, negb_orb.
  - rewrite Qd, Pd, hm_retain_retain. apply hm_retain_ext. intros. by rewrite HR, negb_orb.
Qed.

Lemma bool_decide_cons_or (c x : Z) l :
  bool_decide (c ∈ x :: l) = (c =? x) || bool_decide (c ∈ l).
Proof.
  destruct (Z.eqb_spec c x) as [->|Hne]; simpl.
  - apply bool_decide_eq_true_2. by left.
  - apply bool_decide_ext. rewrite elem_of_cons. tauto.
Qed.

Section reap.
Context {ho : HashOrder}.

Lemma revoke_client_state_spec i c :
  deleg_wf i ->
  purged (fun c' => c' =? c) i (revoke_client_state i c) /\
  in_clients (revoke_client_state i c) = in_clients i /\
  in_sessions (revoke_client_state i c) = in_sessions i.
Proof.
  intros Hwf. unfold revoke_client_state.
  match goal with |- context [remove_client_delegations_locked ?j c] =>
    destruct (remove_client_delegations_spec j c) as ((Hc & Hs & Ho & Hl & Hm) & Hw & Hd);
      [exact Hwf|] end.
  split; [|split; [by rewrite <- Hc|by rewrite <- Hs]].
  split; [by rewrite <- Ho|by rewrite <- Hl|by rewrite Hd|by rewrite <- Hm|done].
Qed.

Lemma drop_client_state_spec i c :
  deleg_wf i ->
  purged (fun c' => c' =? c) i (drop_client_state i c).1 /\
  in_clients (drop_client_state i c).1 = delete c (in_clients i) /\
  in_sessions (drop_client_state i c).1 =
    hm_retain (fun _ ss => negb (ss_clientid ss =? c)) (in_sessions i) /\
  ((drop_client_state i c).2 = true <-> is_Some (in_clients i !! c)).
Proof.
  intros Hwf. unfold drop_client_state.
  match goal with |- context [revoke_client_state ?j c] =>
    destruct (revoke_client_state_spec j c) as ([Ho Hl Hd Hm Hw] & Hc & Hs); [exact Hwf|] end.
  simpl. rewrite Hc, Hs. split_and!; try done. apply bool_decide_eq_true.
Qed.

Lemma expire_fold now i l :
  deleg_wf i ->
  let j := foldl (expire_client now) i l in
  purged (fun c => bool_decide (c ∈ l)) i j /\ in_sessions j = in_sessions i /\
  forall c, in_clients j !! c =
    (if bool_decide (c ∈ l)
     then set_cs_lease_state (Lease_Revoked now SEQ4_STATUS_EXPIRED_ALL_STATE_REVOKED)
     else id) <$> in_clients i !! c.
Proof.
  revert i. induction l as [|x l IH]; intros i Hwf; cbn [foldl].
  - split; [|split; [done|]].
    + apply purged_refl; [done|]. intros c. apply bool_decide_eq_false_2, not_elem_of_nil.
    + intros c. rewrite bool_decide_eq_false_2 by apply not_elem_of_nil.
      by rewrite option_fmap_id.
  - destruct (revoke_client_state_spec i x Hwf) as ([Po Pl Pd Pm Pw] & Hc & Hs).
    assert (Hx : purged (fun c => c =? x) i (expire_client now i x) /\
      in_sessions (expire_client now i x) = in_sessions i /\
      forall c, in_clients (expire_client now i x) !! c =
        (if c =? x then set_cs_lease_state (Lease_Revoked now SEQ4_STATUS_EXPIRED_ALL_STATE_REVOKED)
         else id) <$> in_clients i !! c).
    { unfold expire_client. rewrite Hc. destruct (in_clients i !! x) as [cl|] eqn:E; simpl.
      - split; [done|split; [done|]]. intros c. destruct (Z.eqb_spec c x) as [->|Hne].
        + rewrite E. simpl. by rewrite lookup_insert_eq.
        + rewrite lookup_insert_ne by done. by rewrite option_fmap_id.
      - split; [done|split; [done|]]. intros c. rewrite Hc.
        destruct (Z.eqb_spec c x) as [->|Hne]; [by rewrite E|by rewrite option_fmap_id]. }
    destruct Hx as (HP & Hs' & Hcl).
    destruct (IH _ (purged_wf _ _ _ HP)) as (HP2 & Hs2 & Hcl2).
    split; [|split].
    + eapply purged_trans; [exact HP|exact HP2|]. intros c. apply bool_decide_cons_or.
    + by rewrite Hs2.
    + intros c. rewrite Hcl2, Hcl, bool_decide_cons_or.
      destruct (in_clients i !! c) as [cl|]; [|done]. simpl. f_equal.
      by destruct (c =? x), (bool_decide (c ∈ l)).
Qed.

Lemma drop_fold i l :
  deleg_wf i ->
  let j := drop_clients i l in
  purged (fun c => bool_decide (c ∈ l)) i j /\
  in_sessions j = hm_retain (fun _ ss => negb (bool_decide (ss_clientid ss ∈ l))) (in_sessions i) /\
  forall c, in_clients j !! c = if bool_decide (c ∈ l) then None else in_clients i !! c.
Proof.
  unfold drop_clients. revert i. induction l as [|x l IH]; intros i Hwf; cbn [foldl].
  - split; [|split].
    + apply purged_refl; [done|]. intros c. apply bool_decide_eq_false_2, not_elem_of_nil.
    + symmetry. apply hm_retain_true. intros k v _.
      by rewrite bool_decide_eq_false_2 by apply not_elem_of_nil.
    + intros c. by rewrite bool_decide_eq_false_2 by apply not_elem_of_nil.
  - destruct (drop_client_state_spec i x Hwf) as (HP & Hc & Hs & _).
    destruct (IH _ (purged_wf _ _ _ HP)) as (HP2 & Hs2 & Hc2).
    split; [|split].
    + eapply purged_trans; [exact HP|exact HP2|]. intros c. apply bool_decide_cons_or.
    + rewrite Hs2, Hs, hm_retain_retain. apply hm_retain_ext. intros k ss _.
      by rewrite bool_decide_cons_or, negb_orb.
    + intros c. rewrite Hc2, Hc, bool_decide_cons_or.
      destruct (Z.eqb_spec c x) as [->|Hne]; simpl; [by rewrite lookup_delete_eq; case_match|].
      by rewrite lookup_delete_ne.
Qed.

(** The clients a reap at [now] takes state from. *)
Definition reaped (cfg : StateConfig) (now : Z) (i : StateInner) (c : Z) : bool :=
  match in_clients i !! c with
  | None => false
  | Some client =>
    lease_expired now client ||
    match cs_lease_state client with
    | Lease_Active _ => false
    | Lease_Revoked since _ =>
      (cf_revoked_retention cfg <=? duration_since now since) ||
      negb (hm_any (fun _ ss => ss_clientid ss =? c) (in_sessions i))
    end
  end.

(** The clients a reap at [now] forgets entirely: a revoked client without a
    session, or whose revocation is older than the retention time (at once
    for a client that expires now when the retention time is not positive). *)
Definition reap_dropped (cfg : StateConfig) (now : Z) (i : StateInner) (c : Z) : bool :=
  match in_clients i !! c with
  | None => false
  | Some client =>
    match (if lease_expired now client then Some now
           else match cs_lease_state client with
                | Lease_Active _ => None
                | Lease_Revoked since _ => Some since
                end) with
    | None => false
    | Some since =>
      (cf_revoked_retention cfg <=? duration_since now since) ||
      negb (hm_any (fun _ ss => ss_clientid ss =? c) (in_sessions i))
    end
  end.

Lemma lease_expired_active now client :
  lease_expired now client = true -> exists d, cs_lease_state client = Lease_Active d /\ d <= now.
Proof.
  unfold lease_expired. destruct (cs_lease_state client) as [d|]; [|done].
  intros H%Z.leb_le. eauto.
Qed.

Lemma reap_expired_clients_spec cfg now i :
  deleg_wf i ->
  let j := reap_expired_clients_locked cfg now i in
  purged (reaped cfg now i) i j /\
  in_sessions j =
    hm_retain (fun _ ss => negb (reap_dropped cfg now i (ss_clientid ss))) (in_sessions i) /\
  forall c, in_clients j !! c =
    if reap_dropped cfg now i c then None
    else (fun client => if lease_expired now client
           then set_cs_lease_state (Lease_Revoked now SEQ4_STATUS_EXPIRED_ALL_STATE_REVOKED) client
           else client) <$> in_clients i !! c.
Proof.
  intros Hwf. unfold reap_expired_clients_locked. cbv zeta.
  set (l1 := hm_select _ (in_clients i)).
  destruct (expire_fold now i l1 Hwf) as (HP1 & Hs1 & Hc1).
  set (j1 := foldl (expire_client now) i l1) in *.
  set (l2 := hm_select _ (in_clients j1)).
  destruct (drop_fold j1 l2 (purged_wf _ _ _ HP1)) as (HP2 & Hs2 & Hc2).
  unfold drop_clients in HP2, Hs2, Hc2.
  assert (H1 : forall c, bool_decide (c ∈ l1) =
    match in_clients i !! c with Some cl => lease_expired now cl | None => false end).
  { intros c. destruct (in_clients i !! c) as [cl|] eqn:E.
    - destruct (lease_expired now cl) eqn:Ex.
      + apply bool_decide_eq_true_2, elem_of_hm_select. eauto.
      + apply bool_decide_eq_false_2. intros (cl' & E' & Ht)%elem_of_hm_select. congruence.
    - apply bool_decide_eq_false_2. intros (cl' & E' & Ht)%elem_of_hm_select. congruence. }
  assert (H2 : forall c, bool_decide (c ∈ l2) = reap_dropped cfg now i c).
  { intros c. unfold reap_dropped. pose proof (Hc1 c) as Hj. rewrite H1 in Hj.
    destruct (in_clients i !! c) as [cl|] eqn:E; simpl in Hj.
    - assert (Hrd : bool_decide (c ∈ l2) = revoked_droppable cfg now j1 c
        ((if lease_expired now cl
          then set_cs_lease_state (Lease_Revoked now SEQ4_STATUS_EXPIRED_ALL_STATE_REVOKED)
          else id) cl)).
      { destruct (revoked_droppable _ _ _ _ _) eqn:Er.
        - apply bool_decide_eq_true_2, elem_of_hm_select. eauto.
        - apply bool_decide_eq_false_2. intros (cl' & E' & Ht)%elem_of_hm_select.
          rewrite Hj in E'. injection E' as <-. congruence. }
      rewrite Hrd. unfold revoked_droppable. rewrite Hs1.
      destruct (lease_expired now cl); simpl; [done|]. by destruct (cs_lease_state cl).
    - apply bool_decide_eq_false_2. intros (cl' & E' & Ht)%elem_of_hm_select. congruence. }
  split; [|split].
  - eapply purged_trans; [exact HP1|exact HP2|]. intros c. simpl.
    rewrite H1, H2. unfold reaped, reap_dropped. destruct (in_clients i !! c) as [cl|]; [|done].
    destruct (lease_expired now cl) eqn:Ex; simpl; [done|]. by destruct (cs_lease_state cl).
  - rewrite Hs2, Hs1. apply hm_retain_ext. intros k ss _. by rewrite H2.
  - intros c. rewrite Hc2, H2, Hc1, H1. destruct (reap_dropped cfg now i c); [done|].
    destruct (in_clients i !! c) as [cl|]; [|done]. simpl. by destruct (lease_expired now cl).
Qed.

(** A client whose lease runs past [now] keeps its record, its sessions and its
    state. *)
Lemma reap_keeps now s c client d :
  deleg_wf (sm_inner s) -> in_clients (sm_inner s) !! c = Some client ->
  cs_lease_state client = Lease_Active d -> now < d ->
  in_clients (sm_inner (reap_expired_clients now s)) !! c = Some client /\
  (forall sid ss, in_sessions (sm_inner s) !! sid = Some ss -> ss_clientid ss = c ->
     in_sessions (sm_inner (reap_expired_clients now s)) !! sid = Some ss) /\
  (forall k st, in_open_files (sm_inner s) !! k = Some st -> os_clientid st = c ->
     in_open_files (sm_inner (reap_expired_clients now s)) !! k = Some st).
Proof.
  intros Hwf Hc Hl Hd.
  destruct (reap_expired_clients_spec (sm_config s) now (sm_inner s) Hwf) as ([Ho _ _ _ _] & Hs & Hcl).
  assert (Hex : lease_expired now client = false).
  { unfold lease_expired. rewrite Hl. by apply Z.leb_gt. }
  assert (Hdrop : reap_dropped (sm_config s) now (sm_inner s) c = false).
  { unfold reap_dropped. by rewrite Hc, Hex, Hl. }
  assert (Hreap : reaped (sm_config s) now (sm_inner s) c = false).
  { unfold reaped. by rewrite Hc, Hex, Hl. }
  unfold reap_expired_clients. simpl. split_and!.
  - rewrite Hcl, Hdrop, Hc. simpl. by rewrite Hex.
  - intros sid ss Hss <-. rewrite Hs. apply lookup_hm_retain_Some. by rewrite Hdrop.
  - intros k st Hk <-. rewrite Ho. apply lookup_hm_retain_Some. by rewrite Hreap.
Qed.

Lemma reap_deleg_wf now s :
  deleg_wf (sm_inner s) -> deleg_wf (sm_inner (reap_expired_clients now s)).
Proof.
  intros Hwf. apply (reap_expired_clients_spec (sm_config s) now (sm_inner s) Hwf).
Qed.


Lemma hm_select_nil {K V} `{Countable K} (f : K -> V -> bool) m :
  (forall k v, m !! k = Some v -> f k v = false) -> hm_select f m = [].
Proof.
  intros Hf. apply elem_of_nil_inv. intros k (v & Hk & Ht)%elem_of_hm_select.
  by rewrite (Hf k v Hk) in Ht.
Qed.

(** Reaping twice at the same instant is reaping once: the second pass
    finds no lease to expire and no client to drop, so running the reaper at
    the head of every operation adds nothing. *)
Theorem reap_idempotent now s :
  deleg_wf (sm_inner s) ->
  reap_expired_clients now (reap_expired_clients now s) = reap_expired_clients now s.
Proof.
  intros Hwf. set (j := sm_inner (reap_expired_clients now s)).
  change (set_sm_inner (reap_expired_clients_locked (sm_config s) now j)
            (reap_expired_clients now s) = reap_expired_clients now s).
  assert (Hfix : reap_expired_clients_locked (sm_config s) now j = j); [|by rewrite Hfix].
  destruct (reap_expired_clients_spec (sm_config s) now (sm_inner s) Hwf) as (_ & Hs & Hc).
  assert (Hj : forall c cl, in_clients j !! c = Some cl -> lease_expired now cl = false).
  { intros c cl. unfold j, reap_expired_clients. simpl. rewrite Hc.
    destruct (reap_dropped _ _ _ _); [done|].
    destruct (in_clients (sm_inner s) !! c) as [cl0|]; [|done]. simpl. intros [= <-].
    destruct (lease_expired now cl0) eqn:Ex; done. }
  unfold reap_expired_clients_locked.
  rewrite (hm_select_nil (fun _ cl => lease_expired now cl)) by exact Hj. cbn [foldl].
  rewrite hm_select_nil; [done|]. intros c cl Hcl. unfold revoked_droppable.
  unfold j, reap_expired_clients in Hcl. simpl in Hcl. rewrite Hc in Hcl.
  destruct (reap_dropped _ _ _ c) eqn:Hdr; [done|].
  pose proof Hdr as Hdr'. unfold reap_dropped in Hdr'.
  destruct (in_clients (sm_inner s) !! c) as [cl0|]; [|done]. simpl in Hcl.
  assert (Hsame : hm_any (fun _ ss => ss_clientid ss =? c) (in_sessions j) =
                  hm_any (fun _ ss => ss_clientid ss =? c) (in_sessions (sm_inner s))).
  { unfold j, reap_expired_clients. simpl. rewrite Hs.
    apply eq_true_iff_eq. rewrite !hm_any_true. split.
    - intros (k & ss & [Hk _]%lookup_hm_retain_Some & He). eauto.
    - intros (k & ss & Hk & He). exists k, ss. rewrite lookup_hm_retain_Some.
      apply Z.eqb_eq in He as He'. by rewrite He', Hdr, Z.eqb_refl. }
  rewrite Hsame. injection Hcl as <-.
  destruct (lease_expired now cl0); simpl; [by rewrite Hdr'|]. by destruct (cs_lease_state cl0).
Qed.
End reap.

(** ** Client records and sessions *)

(** Records sit under their own id, ids were handed out by the counter, and no
    record is to replace itself. *)
Definition clients_wf (s : StateManager) : Prop :=
  forall k cl, in_clients (sm_inner s) !! k = Some cl ->
    cs_clientid cl = k /\ 1 <= k < sm_next_clientid s /\ cs_replaced_clientid cl <> Some k.

Section client_ops.
Context {ho : HashOrder}.

(** Nothing in the state belongs to the client. *)
Definition client_gone (i : StateInner) (c : Z) : Prop :=
  in_clients i !! c = None /\
  (forall k ss, in_sessions i !! k = Some ss -> ss_clientid ss <> c) /\
  (forall k st, in_open_files i !! k = Some st -> os_clientid st <> c) /\
  (forall k st, in_lock_files i !! k = Some st -> so_clientid (ls_owner st) <> c) /\
  (forall k d, in_delegations i !! k = Some d -> ds_clientid d <> c).

(** [c] has a session, an open, a lock or a live delegation. *)
Definition client_busy (i : StateInner) (c : Z) : Prop :=
  (exists k ss, in_sessions i !! k = Some ss /\ ss_clientid ss = c) \/
  (exists k st, in_open_files i !! k = Some st /\ os_clientid st = c) \/
  (exists k st, in_lock_files i !! k = Some st /\ so_clientid (ls_owner st) = c) \/
  (exists k d, in_delegations i !! k = Some d /\ ds_clientid d = c /\
     is_live_delegation_status (ds_status d) = true).

Lemma hm_any_eqb {V} (f : V -> Z) (m : gmap bytes V) c :
  hm_any (fun _ v => f v =? c) m = true <-> exists k v, m !! k = Some v /\ f v = c.
Proof. rewrite hm_any_true. by setoid_rewrite Z.eqb_eq. Qed.

Lemma client_has_active_state_true i c :
  deleg_wf i -> client_has_active_state i c = true <-> client_busy i c.
Proof.
  intros Hwf. unfold client_has_active_state, client_busy.
  rewrite !orb_true_iff, (hm_any_eqb ss_clientid), (hm_any_eqb os_clientid),
    (hm_any_eqb (fun st => so_clientid (ls_owner st))), has_live_client_delegations_true by done.
  tauto.
Qed.

Lemma drop_client_gone i c : deleg_wf i -> client_gone (drop_client_state i c).1 c.
Proof.
  intros Hwf. destruct (drop_client_state_spec i c Hwf) as ([Ho Hl Hd _ _] & Hc & Hs & _).
  unfold client_gone. rewrite Ho, Hl, Hd, Hc, Hs, lookup_delete_eq.
  split; [done|]. split_and!; intros k x [_ Hx]%lookup_hm_retain_Some; by bool_to_prop.
Qed.

(** DESTROY_CLIENTID removes exactly an idle client: it answers
    CLIENTID_BUSY exactly when, after the reap, the client still has a session,
    an open, a lock or a live delegation, and then changes nothing more;
    otherwise the client and all that is left of it are gone, every other
    client's record is untouched, and the answer is OK exactly if the client
    was known. *)
Theorem destroy_clientid_exact c now s :
  deleg_wf (sm_inner s) ->
  let i := sm_inner (reap_expired_clients now s) in
  match destroy_clientid c now s with
  | (Err NFS_ClientidBusy, s') => client_busy i c /\ s' = reap_expired_clients now s
  | (r, s') =>
    ~ client_busy i c /\ client_gone (sm_inner s') c /\
    (forall c', c' <> c -> in_clients (sm_inner s') !! c' = in_clients i !! c') /\
    (r = Ok tt <-> is_Some (in_clients i !! c)) /\
    (r = Err NFS_StaleClientid <-> in_clients i !! c = None)
  end.
Proof.
  intros Hwf0. pose proof (reap_deleg_wf now s Hwf0) as Hwf. cbv zeta. unfold destroy_clientid.
  set (s1 := reap_expired_clients now s) in *. clearbody s1.
  destruct (client_has_active_state _ _) eqn:Hb.
  - by apply client_has_active_state_true in Hb.
  - assert (Hnb : ~ client_busy (sm_inner s1) c).
    { rewrite <- client_has_active_state_true by done. congruence. }
    pose proof (drop_client_gone (sm_inner s1) c Hwf) as Hgone.
    destruct (drop_client_state_spec (sm_inner s1) c Hwf) as (_ & Hc & _ & Hr).
    destruct (drop_client_state (sm_inner s1) c) as [inner removed]. simpl in *.
    assert (Hfr : forall c', c' <> c -> in_clients inner !! c' = in_clients (sm_inner s1) !! c').
    { intros c' Hne. by rewrite Hc, lookup_delete_ne. }
    destruct removed; simpl; split_and!; try done.
    + rewrite <- Hr. done.
    + split; [done|]. intros Hn. rewrite Hn in Hr. by destruct (proj1 Hr eq_refl).
    + split; [done|]. by intros H%Hr.
    + split; [intros _|done]. apply eq_None_not_Some. by intros H%Hr.
Qed.

Lemma reap_clients_wf now s :
  deleg_wf (sm_inner s) -> clients_wf s -> clients_wf (reap_expired_clients now s).
Proof.
  intros Hwf Hcw k cl Hk. unfold reap_expired_clients in Hk |- *. simpl in *.
  destruct (reap_expired_clients_spec (sm_config s) now (sm_inner s) Hwf) as (_ & _ & Hc).
  rewrite Hc in Hk. destruct (reap_dropped _ _ _ _); [done|].
  destruct (in_clients (sm_inner s) !! k) as [cl0|] eqn:E; [|done]. injection Hk as <-.
  destruct (Hcw _ _ E) as [<- ?]. by destruct (lease_expired _ _).
Qed.

(** A record waiting for its verifier is confirmed by that verifier while its
    lease lasts. *)
Lemma confirm_pending s c cl v d now :
  deleg_wf (sm_inner s) -> in_clients (sm_inner s) !! c = Some cl ->
  cs_lease_state cl = Lease_Active d -> now < d -> cs_v40_confirm cl = Some v ->
  let '(r, s') := set_client_id_confirm (mkSetClientIdConfirmArgs4 c v) now s in
  r = Ok tt /\ exists cl', in_clients (sm_inner s') !! c = Some cl' /\ cs_confirmed cl' = true /\
    cs_lease_state cl' = Lease_Active (lease_deadline (sm_config s) now) /\
    cs_owner cl' = cs_owner cl.
Proof.
  intros Hw Hcl Hl Hd Hv. unfold set_client_id_confirm. simpl.
  destruct (reap_keeps now s c cl d Hw Hcl Hl Hd) as (Kc & _).
  change (in_clients (reap_expired_clients_locked (sm_config s) now (sm_inner s)))
    with (in_clients (sm_inner (reap_expired_clients now s))).
  rewrite Kc, Hv, bool_decide_eq_true_2 by done. split; [done|].
  eexists. simpl. rewrite lookup_insert_eq. done.
Qed.

(** SETCLIENTID leaves such a record under the id and verifier it returns. *)
Lemma set_client_id_pending args now s :
  deleg_wf (sm_inner s) -> clients_wf s ->
  let '(res, s') := set_client_id args now s in
  deleg_wf (sm_inner s') /\ sm_config s' = sm_config s /\
  exists cl, in_clients (sm_inner s') !! scr_clientid res = Some cl /\
    cs_lease_state cl = Lease_Active (lease_deadline (sm_config s) now) /\
    cs_v40_confirm cl = Some (scr_setclientid_confirm res) /\
    co_ownerid (cs_owner cl) = co_ownerid (sci_client args) /\
    co_verifier (cs_owner cl) = co_verifier (sci_client args).
Proof.
  intros Hwf0 Hcw0. pose proof (reap_deleg_wf now s Hwf0) as Hwf.
  pose proof (reap_clients_wf now s Hwf0 Hcw0) as Hcw.
  assert (Hcfg : sm_config (reap_expired_clients now s) = sm_config s) by done.
  unfold set_client_id. set (s0 := reap_expired_clients now s) in *. clearbody s0.
  set (stale := (fun kv : Z * ClientState => cs_clientid kv.2) <$> List.filter _ _).
  assert (Hst : forall c, c ∈ stale -> exists cl,
            in_clients (sm_inner s0) !! c = Some cl /\ cs_confirmed cl = false).
  { intros c ([k cl] & -> & Hin)%list_elem_of_fmap.
    apply list_elem_of_In, filter_In in Hin as [Hin%list_elem_of_In%elem_of_hm_iter Hf].
    simpl in *. bool_to_prop. destruct (Hcw _ _ Hin) as [-> _]. eauto. }
  destruct (drop_fold (sm_inner s0) stale Hwf) as ([_ _ _ _ Hwf1] & _ & Hc1).
  destruct (hm_find _ (in_clients (sm_inner s0))) as [[k c0]|] eqn:Ef; cbv zeta iota beta.
  - apply hm_find_Some in Ef as [Hk Hp]. bool_to_prop. destruct (Hcw _ _ Hk) as [Hid _].
    rewrite Hid.
    assert (Hns : bool_decide (k ∈ stale) = false).
    { apply bool_decide_eq_false_2. intros (cl' & Hk' & Hcf)%Hst. congruence. }
    pose proof (Hc1 k) as Hk1. rewrite Hns, Hk in Hk1.
    change (in_clients (sm_inner (with_inner (fun i => drop_clients i stale) s0)))
      with (in_clients (drop_clients (sm_inner s0) stale)).
    rewrite Hk1. split; [exact Hwf1|]. split; [exact Hcfg|].
    eexists. simpl. rewrite lookup_insert_eq, Hcfg. split_and!; done.
  - split; [exact Hwf1|]. split; [exact Hcfg|].
    eexists. simpl. rewrite lookup_insert_eq, Hcfg. split_and!; done.
Qed.

(** SETCLIENTID followed by SETCLIENTID_CONFIRM with the returned client
    id and verifier, before the lease granted by the first call ends, succeeds
    and leaves the client confirmed, with the caller's owner and verifier and a
    fresh lease. *)
Theorem setclientid_confirmed args now now' s :
  deleg_wf (sm_inner s) -> clients_wf s -> now' < lease_deadline (sm_config s) now ->
  let '(res, s1) := set_client_id args now s in
  let '(r, s2) := set_client_id_confirm
    (mkSetClientIdConfirmArgs4 (scr_clientid res) (scr_setclientid_confirm res)) now' s1 in
  r = Ok tt /\
  exists cl, in_clients (sm_inner s2) !! scr_clientid res = Some cl /\ cs_confirmed cl = true /\
    cs_lease_state cl = Lease_Active (lease_deadline (sm_config s) now') /\
    co_ownerid (cs_owner cl) = co_ownerid (sci_client args) /\
    co_verifier (cs_owner cl) = co_verifier (sci_client args).
Proof.
  intros Hwf Hcw Hl. pose proof (set_client_id_pending args now s Hwf Hcw) as Hp.
  destruct (set_client_id args now s) as [res s1].
  destruct Hp as (Hwf1 & Hcfg & cl & Hcl & Hle & Hv & Ho1 & Ho2).
  pose proof (confirm_pending s1 _ cl _ _ now' Hwf1 Hcl Hle Hl Hv) as Hc.
  destruct (set_client_id_confirm _ _ _) as [r s2]. rewrite Hcfg in Hc.
  destruct Hc as (-> & cl' & H1 & H2 & H3 & H4). split; [done|].
  exists cl'. rewrite H4. done.
Qed.


(** EXCHANGE_ID resolves an owner to a record of that owner: the returned
    client id names a live record with the caller's owner and verifier, the
    returned sequence id is the one CREATE_SESSION will expect, and the
    CONFIRMED flag tells the record's status.  Either the record existed and
    nothing changed but the reap, or the id is the counter's next value, unused
    so far.  Records of other owners, and confirmed records, are never lost. *)
Theorem exchange_id_record args now s res s' :
  deleg_wf (sm_inner s) -> clients_wf s -> exchange_id args now s = (Ok res, s') ->
  let s0 := reap_expired_clients now s in
  exists cl, in_clients (sm_inner s') !! eir_clientid res = Some cl /\
    cs_owner cl = ei_clientowner args /\ lease_is_active cl = true /\
    eir_sequenceid res = cs_sequence_id cl /\
    (Z.testbit (eir_flags res) 31 = cs_confirmed cl) /\
    (s' = s0 \/ (eir_clientid res = sm_next_clientid s /\
                 in_clients (sm_inner s0) !! eir_clientid res = None)) /\
    (forall c cl', in_clients (sm_inner s0) !! c = Some cl' ->
       co_ownerid (cs_owner cl') <> co_ownerid (ei_clientowner args) \/
       cs_confirmed cl' = true -> in_clients (sm_inner s') !! c = Some cl').
Proof.
  intros Hwf0 Hcw0. pose proof (reap_deleg_wf now s Hwf0) as Hwf.
  pose proof (reap_clients_wf now s Hwf0 Hcw0) as Hcw. cbv zeta. unfold exchange_id.
  destruct (ei_state_protect args); [|done|done].
  assert (Hn : sm_next_clientid (reap_expired_clients now s) = sm_next_clientid s) by done.
  set (s0 := reap_expired_clients now s) in *. clearbody s0. unfold exchange_id_client.
  destruct (hm_find _ _) as [[k cl]|] eqn:Ef.
  - apply hm_find_Some in Ef as [Hk Hp]. bool_to_prop. intros [= <- <-].
    destruct (Hcw _ _ Hk) as [Hid _]. exists cl. simpl. rewrite Hid. split_and!; try done.
    + destruct (cs_owner cl), (ei_clientowner args). simpl in *. congruence.
    + by destruct (cs_confirmed cl).
    + by left.
  - set (stale := (fun kv : Z * ClientState => cs_clientid kv.2) <$> List.filter _ _).
    intros [= <- <-]. eexists. simpl. rewrite lookup_insert_eq. split; [done|].
    simpl. split_and!; try done.
    + right. split; [done|]. destruct (in_clients (sm_inner s0) !! sm_next_clientid s0) eqn:E; [|done].
      destruct (Hcw _ _ E) as (_ & ? & _). lia.
    + intros c cl' Hc Hor. rewrite lookup_insert_ne.
      2: { intros <-. destruct (Hcw _ _ Hc) as (_ & ? & _). lia. }
      destruct (drop_fold (sm_inner s0) stale Hwf) as (_ & _ & Hd). rewrite Hd.
      rewrite bool_decide_eq_false_2; [done|].
      intros ([k x] & -> & Hin)%list_elem_of_fmap.
      apply list_elem_of_In, filter_In in Hin as [Hin%list_elem_of_In%elem_of_hm_iter Hf].
      simpl in *. bool_to_prop. destruct (Hcw _ _ Hin) as (Hkx & _). rewrite Hkx in Hc.
      assert (x = cl') as -> by congruence. destruct Hor; congruence.
Qed.

(** CREATE_SESSION: it succeeds only for a live client and its current
    sequence id; the new session belongs to that client, is bound to the
    calling connection, and has [max 1 (min requested 64)] fresh slots; the
    client is confirmed and its lease renewed; the client it replaces is
    gone.  On any error only the reap has happened. *)
Theorem create_session_fresh args conn now s r s' :
  deleg_wf (sm_inner s) -> clients_wf s -> create_session args conn now s = (r, s') ->
  let s0 := reap_expired_clients now s in
  match r with
  | Err _ => s' = s0
  | Ok res =>
    exists cl, in_clients (sm_inner s0) !! csa_clientid args = Some cl /\
      lease_is_active cl = true /\ cs_sequence_id cl = csa_sequence args /\
      (exists cl', in_clients (sm_inner s') !! csa_clientid args = Some cl' /\
         cs_confirmed cl' = true /\
         cs_lease_state cl' = Lease_Active (lease_deadline (sm_config s) now)) /\
      (exists ss, in_sessions (sm_inner s') !! csr_sessionid res = Some ss /\
         ss_clientid ss = csa_clientid args /\ ss_fore_connections ss = {[conn]} /\
         ss_slots ss = replicate (Z.to_nat (Z.max 1 (Z.min (ca_maxrequests
           (csa_fore_chan_attrs args)) MAX_FORE_CHAN_SLOTS))) (mkSlotState 1 None None)) /\
      (forall old, cs_replaced_clientid cl = Some old -> in_clients (sm_inner s') !! old = None)
  end.
Proof.
  intros Hwf0 Hcw0. pose proof (reap_deleg_wf now s Hwf0) as Hwf.
  pose proof (reap_clients_wf now s Hwf0 Hcw0) as Hcw. cbv zeta. unfold create_session.
  assert (Hcfg : sm_config (reap_expired_clients now s) = sm_config s) by done.
  set (s0 := reap_expired_clients now s) in *. clearbody s0.
  destruct (in_clients (sm_inner s0) !! csa_clientid args) as [cl|] eqn:Hcl; [|by intros [= <- <-]].
  unfold create_session_client.
  destruct (lease_is_active cl) eqn:Ha; [simpl|by intros [= <- <-]].
  destruct (Z.eqb_spec (csa_sequence args) (cs_sequence_id cl)) as [Hs|]; [simpl|by intros [= <- <-]].
  destruct (Hcw _ _ Hcl) as (_ & _ & Hself). rewrite Z.max_comm.
  destruct (cs_replaced_clientid cl) as [old|] eqn:Eo; intros [= <- <-];
    exists cl; split_and!; try done; simpl.
  - match goal with |- context [revoke_client_state ?j old] =>
      destruct (revoke_client_state_spec j old Hwf) as (_ & Hd & _) end.
    rewrite Hd. simpl. eexists. rewrite lookup_delete_ne by congruence.
    rewrite lookup_insert_eq, Hcfg. done.
  - eexists. rewrite lookup_insert_eq. done.
  - intros old' Ho. assert (old' = old) as -> by congruence.
    match goal with |- context [revoke_client_state ?j old] =>
      destruct (revoke_client_state_spec j old Hwf) as (_ & Hd & _) end.
    rewrite Hd. by rewrite lookup_delete_eq.
  - eexists. rewrite lookup_insert_eq, Hcfg. done.
  - eexists. rewrite lookup_insert_eq. done.
  - intros old Ho. congruence.
Qed.
End client_ops.

(** ** Concrete instances *)

(** A client that has exchanged ids and created a session on connection 1. *)
Definition example_owner : ClientOwner4 := mkClientOwner4 (be_bytes 8 77) (str_bytes "host").
Definition example_exchange : ExchangeIdArgs4 := mkExchangeIdArgs4 example_owner 0 SpA_None [].
Definition example_chan : ChannelAttrs4 := mkChannelAttrs4 0 65536 65536 4096 16 8 [].
Definition example_create : CreateSessionArgs4 :=
  mkCreateSessionArgs4 1 1 0 example_chan example_chan 0 [].
Definition example_known : StateManager :=
  (@exchange_id canonical_order example_exchange 0 example_boot).2.
Definition example_session : StateManager :=
  (@create_session canonical_order example_create 1 0 example_known).2.
Definition example_sessionid : bytes := be_bytes 8 1 ++ be_bytes 8 2.

(** The hypotheses of the theorems on these states. *)
Ltac no_delegations := apply deleg_wf_empty; vm_compute; reflexivity.

Lemma example_known_wf : deleg_wf (sm_inner example_known).
Proof. no_delegations. Qed.
Lemma example_session_wf : deleg_wf (sm_inner example_session).
Proof. no_delegations. Qed.

Lemma clients_wf_boot : clients_wf example_boot.
Proof. intros k cl. simpl. by rewrite lookup_empty. Qed.

Lemma example_known_clients : clients_wf example_known.
Proof.
  intros k cl. replace (in_clients (sm_inner example_known)) with
    (<[1 := mkClientState 1 example_owner false false 1 0 None
              (Lease_Active 90000000000) None]> (∅ : gmap Z ClientState))
    by (vm_compute; reflexivity).
  intros [[<- <-]|[_ Hk]]%lookup_insert_Some; [|by rewrite lookup_empty in Hk].
  vm_compute. done.
Qed.


Lemma reap_idempotent_witness :
  @reap_expired_clients canonical_order 100000000000
    (@reap_expired_clients canonical_order 100000000000 example_session) =
  @reap_expired_clients canonical_order 100000000000 example_session.
Proof. apply (@reap_idempotent canonical_order 100000000000 example_session example_session_wf). Defined.

(** A client with a session is busy. *)
Lemma destroy_clientid_exact_witness :
  client_busy (sm_inner (@reap_expired_clients canonical_order 5 example_session)) 1.
Proof.
  pose proof (@destroy_clientid_exact canonical_order 1 5 example_session example_session_wf) as H.
  cbv zeta in H.
  destruct (destroy_clientid 1 5 example_session) as [r s'] eqn:E.
  assert (r = Err NFS_ClientidBusy) as ->.
  { apply (f_equal fst) in E. revert E. vm_compute. congruence. }
  exact (proj1 H).
Defined.

Lemma setclientid_confirmed_witness :
  let args := mkSetClientIdArgs4 example_owner (mkNfsClientCallback4 0 [] []) 0 in
  let '(res, s1) := @set_client_id canonical_order args 0 example_boot in
  (@set_client_id_confirm canonical_order
    (mkSetClientIdConfirmArgs4 (scr_clientid res) (scr_setclientid_confirm res)) 5 s1).1 = Ok tt.
Proof.
  cbv zeta.
  pose proof (@setclientid_confirmed canonical_order (mkSetClientIdArgs4 example_owner (mkNfsClientCallback4 0 [] []) 0) 0 5
    example_boot (deleg_wf_empty (sm_inner example_boot) eq_refl eq_refl eq_refl) clients_wf_boot
    ltac:(vm_compute; reflexivity)) as H.
  destruct (set_client_id _ _ _) as [res s1].
  destruct (set_client_id_confirm _ _ _) as [r s2]. exact (proj1 H).
Defined.

Lemma exchange_id_record_witness :
  exists res s', @exchange_id canonical_order example_exchange 0 example_boot = (Ok res, s') /\
  exists cl, in_clients (sm_inner s') !! eir_clientid res = Some cl /\
    cs_owner cl = example_owner.
Proof.
  eexists _, _. split; [vm_compute; reflexivity|].
  edestruct (@exchange_id_record canonical_order example_exchange 0 example_boot) as (cl & H & Ho & _);
    [exact (deleg_wf_empty (sm_inner example_boot) eq_refl eq_refl eq_refl)|exact clients_wf_boot
    |vm_compute; reflexivity|].
  exists cl. split; [exact H|exact Ho].
Defined.

Lemma create_session_fresh_witness :
  exists res s', @create_session canonical_order example_create 1 0 example_known = (Ok res, s') /\
  exists ss, in_sessions (sm_inner s') !! csr_sessionid res = Some ss /\
    ss_slots ss = replicate 8 (mkSlotState 1 None None).
Proof.
  destruct (@create_session canonical_order example_create 1 0 example_known) as [r s'] eqn:E.
  pose proof (@create_session_fresh canonical_order example_create 1 0 example_known r s'
    example_known_wf example_known_clients E) as H. cbv zeta in H.
  destruct r as [res|e].
  - exists res, s'. split; [reflexivity|].
    destruct H as (cl & _ & _ & _ & _ & (ss & Hs & _ & _ & Hl) & _).
    exists ss. split; [exact Hs|exact Hl].
  - exfalso. apply (f_equal fst) in E. revert E. vm_compute. discriminate.
Defined.

(** A confirmed client that repeats SETCLIENTID gets the same confirmation
    token twice: the token is the boot verifier xor the client id, so it does
    not tell two calls of one client apart. *)
Theorem setclientid_token_repeats :
  let args := mkSetClientIdArgs4 example_owner (mkNfsClientCallback4 0 [] []) 0 in
  let '(r1, s1) := @set_client_id canonical_order args 0 example_boot in
  let '(c, s2) := @set_client_id_confirm canonical_order
    (mkSetClientIdConfirmArgs4 (scr_clientid r1) (scr_setclientid_confirm r1)) 0 s1 in
  let '(r2, s3) := @set_client_id canonical_order args 1 s2 in
  let '(r3, s4) := @set_client_id canonical_order args 2 s3 in
  c = Ok tt /\ scr_clientid r2 = scr_clientid r3 /\
  scr_setclientid_confirm r2 = scr_setclientid_confirm r3.
Proof. vm_compute. done. Qed.
