(* ===== verification/Stateids.v ===== *)
(** * Stateids: normalisation, resolution and sequence checks
    (session/stateids.rs and [validate_stateid_seq] of session/opens.rs) *)

From stdpp Require Import base gmap list sets strings numbers.
From Stdlib Require Import ZArith Lia.
From S2P Require Import Prelude Xdr Rpc Types StateModel DelegTable Clients.

Local Open Scope Z_scope.

Inductive CurrentStateidMode := ZeroSeqid | PreserveSeqid.

Inductive NormalizedStateid :=
| Norm_Anonymous
| Norm_Bypass
| Norm_Concrete (s : Stateid4).

(** [!m] on a [u32]: the complement within 32 bits. *)
Definition u32_not (m : Z) : Z := Z.lxor m u32_max.

Definition share_access_mode (share_access : Z) : Z :=
  Z.land share_access (u32_not OPEN4_SHARE_ACCESS_WANT_DELEG_MASK).

Definition is_special_stateid (s : Stateid4) : bool :=
  bool_decide (s = Stateid4_ANONYMOUS) ||
  bool_decide (s = Stateid4_BYPASS) ||
  bool_decide (s = Stateid4_CURRENT).

Definition is_invalid_special_stateid (s : Stateid4) : bool :=
  let all_zero_other := bool_decide (other s = replicate 12 0) in
  let all_one_other := bool_decide (other s = replicate 12 255) in
  (all_zero_other || all_one_other) && negb (is_special_stateid s).

Definition normalize_stateid (requested : Stateid4) (current_stateid : option Stateid4)
    (current_mode : CurrentStateidMode) : result NfsStat4 NormalizedStateid :=
  if bool_decide (requested = Stateid4_ANONYMOUS) then Ok Norm_Anonymous
  else if bool_decide (requested = Stateid4_BYPASS) then Ok Norm_Bypass
  else if bool_decide (requested = Stateid4_CURRENT) then
    match current_stateid with
    | None => Err NFS_BadStateid
    | Some current =>
      if is_special_stateid current then Err NFS_BadStateid
      else Ok (Norm_Concrete match current_mode with
                             | ZeroSeqid => mkStateid4 0 (other current)
                             | PreserveSeqid => current
                             end)
    end
  else if is_invalid_special_stateid requested then Err NFS_BadStateid
  else Ok (Norm_Concrete requested).

Definition validate_stateid_seq (stored_seq provided_seq : Z) : result NfsStat4 unit :=
  if (provided_seq =? 0) || (provided_seq =? stored_seq) then Ok tt
  else if provided_seq <? stored_seq then Err NFS_OldStateid
  else Err NFS_BadStateid.

(** [if let Some(cid) = clientid && owner != cid] *)
Definition wrong_client (clientid : option Z) (owner : Z) : bool :=
  match clientid with Some cid => negb (owner =? cid) | None => false end.

(** The lookup under the read guard, after the reap. *)
Definition resolve_concrete (inner : StateInner) (clientid : option Z) (stateid : Stateid4)
    : result NfsStat4 ResolvedStateid :=
  match in_open_files inner !! other stateid with
  | Some open =>
    match validate_stateid_seq (os_stateid_seq open) (seqid stateid) with
    | Err e => Err e
    | Ok _ =>
      if negb (os_active open) then Err NFS_BadStateid
      else if wrong_client clientid (os_clientid open) then Err NFS_BadStateid
      else Ok (Resolved_Open (mkResolvedOpenState (other stateid) (os_object open)
                                (os_share_access open)))
    end
  | None =>
    match in_lock_files inner !! other stateid with
    | Some lock =>
      match validate_stateid_seq (ls_stateid_seq lock) (seqid stateid) with
      | Err e => Err e
      | Ok _ =>
        if wrong_client clientid (so_clientid (ls_owner lock)) then Err NFS_BadStateid
        else
          match in_open_files inner !! ls_open_state_other lock with
          | None => Err NFS_BadStateid
          | Some open =>
            if negb (os_active open) then Err NFS_BadStateid
            else if wrong_client clientid (os_clientid open) then Err NFS_BadStateid
            else Ok (Resolved_Lock (mkResolvedLockState (other stateid) (ls_object lock)
                       (ls_owner lock)
                       (mkResolvedOpenState (ls_open_state_other lock) (os_object open)
                          (os_share_access open))))
          end
      end
    | None => Err NFS_BadStateid
    end
  end.

Definition resolve_stateid {ho : HashOrder} (clientid : option Z) (requested : Stateid4)
    (current_stateid : option Stateid4) (current_mode : CurrentStateidMode)
    (now : Z) (s : StateManager) : result NfsStat4 ResolvedStateid * StateManager :=
  let s := reap_expired_clients now s in
  (match normalize_stateid requested current_stateid current_mode with
   | Err e => Err e
   | Ok Norm_Anonymous => Ok Resolved_Anonymous
   | Ok Norm_Bypass => Ok Resolved_Bypass
   | Ok (Norm_Concrete stateid) => resolve_concrete (sm_inner s) clientid stateid
   end, s).

(** ** Lemmas *)

Lemma validate_stateid_seq_ok stored provided :
  validate_stateid_seq stored provided = Ok tt <-> provided = 0 \/ provided = stored.
Proof.
  unfold validate_stateid_seq.
  destruct (Z.eqb_spec provided 0), (Z.eqb_spec provided stored); simpl;
    try (split; [tauto|done]).
  destruct (provided <? stored); split; try done; tauto.
Qed.

(** Normalisation never lets one of the three reserved stateids through as a
    concrete one, nor the other values that reuse their opaque part. *)
Lemma normalize_concrete_not_reserved requested current mode s :
  normalize_stateid requested current mode = Ok (Norm_Concrete s) ->
  (forall c, current = Some c -> is_invalid_special_stateid c = false) ->
  other s <> replicate 12 0 /\ other s <> replicate 12 255.
Proof.
  unfold normalize_stateid. intros Hn Hcur.
  assert (Hgen : forall x, is_invalid_special_stateid x = false -> is_special_stateid x = false ->
            other x <> replicate 12 0 /\ other x <> replicate 12 255).
  { intros x Hi Hs. unfold is_invalid_special_stateid in Hi. rewrite Hs in Hi.
    rewrite andb_true_r in Hi. apply orb_false_elim in Hi as [H1 H2]. bool_to_prop. done. }
  case_bool_decide as HA; [done|]. case_bool_decide as HB; [done|].
  case_bool_decide as HC.
  - destruct current as [c|]; [|done]. destruct (is_special_stateid c) eqn:Hs; [done|].
    specialize (Hgen c (Hcur c eq_refl) Hs). destruct mode; by injection Hn as <-.
  - destruct (is_invalid_special_stateid requested) eqn:Hi; [done|]. injection Hn as <-.
    apply Hgen; [done|]. unfold is_special_stateid.
    by rewrite !bool_decide_eq_false_2.
Qed.
