(* ===== verification/Opens.v ===== *)
(** * Open state and share reservations (session/opens.rs)

    Each operation that the Rust code runs as "reap, then take the write
    guard" is written as the guarded section on [StateManager] (suffix
    [_guarded]) composed with the reap, so that the sections can also be
    interleaved with those of other requests. *)

From stdpp Require Import base gmap list sets strings numbers.
From Stdlib Require Import ZArith Lia.
From S2P Require Import Prelude Xdr Rpc Types StateModel DelegTable Clients Stateids.

Local Open Scope Z_scope.

Record CloseOutcome := mkCloseOutcome { co_stateid : Stateid4; co_last_writer : bool }.

Section with_order.
Context {ho : HashOrder}.

(** [Some(other) == ignore] *)
Definition is_ignored (other : bytes) (ignore : option bytes) : bool :=
  bool_decide (Some other = ignore).

Definition share_deny_conflict (inner : StateInner) (object : ServerObject) (access : Z)
    (ignore_open_other : option bytes) : bool :=
  hm_any (fun other st =>
    os_active st && bool_decide (os_object st = object) &&
    negb (is_ignored other ignore_open_other) &&
    negb (Z.land (os_share_deny st) access =? 0)) (in_open_files inner).

Definition has_conflicting_share_deny (object : ServerObject) (access : Z)
    (ignore_open_other : option bytes) (now : Z) (s : StateManager) : bool * StateManager :=
  let s := reap_expired_clients now s in
  (share_deny_conflict (sm_inner s) object access ignore_open_other, s).

(** ** OPEN *)

Definition put_open (other : bytes) (st : OpenFileState) (s : StateManager) : StateManager :=
  with_inner (fun i => set_in_open_files (<[other := st]> (in_open_files i)) i) s.

(** The owner's live open of the object. *)
Definition find_owner_open (inner : StateInner) (object : ServerObject) (owner : StateOwner4)
    : option (bytes * OpenFileState) :=
  hm_find (fun _ st =>
    os_active st && bool_decide (os_object st = object) &&
    (os_clientid st =? so_clientid owner) &&
    bool_decide (os_owner st = so_owner owner)) (in_open_files inner).

(** The share-reservation loop: some other live open of the object denies what
    is wanted, or holds what is to be denied. *)
Definition share_conflict (inner : StateInner) (object : ServerObject)
    (own_other : option bytes) (want_access want_deny : Z) : bool :=
  hm_any (fun other st =>
    negb (negb (os_active st) || is_ignored other own_other) &&
    (bool_decide (os_object st = object) &&
     (negb (Z.land (os_share_deny st) want_access =? 0) ||
      negb (Z.land want_deny (os_share_access st) =? 0)))) (in_open_files inner).

Definition create_open_state_guarded (object : ServerObject) (owner : StateOwner4)
    (share_access share_deny : Z) (s : StateManager) : result NfsStat4 Stateid4 * StateManager :=
  if is_retired s object then (Err NFS_Stale, s)
  else
    let existing := find_owner_open (sm_inner s) object owner in
    let '(want_access, want_deny) :=
      match existing with
      | Some (_, st) => (Z.lor (os_share_access st) share_access,
                         Z.lor (os_share_deny st) share_deny)
      | None => (share_access, share_deny)
      end in
    let own_other := fst <$> existing in
    if share_conflict (sm_inner s) object own_other want_access want_deny
    then (Err NFS_ShareDenied, s)
    else
      match own_other with
      | Some other =>
        match in_open_files (sm_inner s) !! other with
        | None => (Err NFS_Serverfault, s)
        | Some st =>
          let st := set_os_share_access want_access st in
          let st := set_os_share_deny want_deny st in
          let st := set_os_stateid_seq (u32_wrap (os_stateid_seq st + 1)) st in
          (Ok (mkStateid4 (os_stateid_seq st) other), put_open other st s)
        end
      | None =>
        let '(seq, s) := alloc_stateid s in
        let other := stateid_other seq (so_clientid owner) in
        let st := mkOpenFileState object (so_clientid owner) (so_owner owner) 1 true
                    share_access share_deny in
        (Ok (mkStateid4 1 other), put_open other st s)
      end.

Definition create_open_state (object : ServerObject) (owner : StateOwner4)
    (share_access share_deny now : Z) (s : StateManager)
    : result NfsStat4 Stateid4 * StateManager :=
  let s := reap_expired_clients now s in
  let share_access := Z.land share_access OPEN4_SHARE_ACCESS_BOTH in
  if (share_access =? 0) || negb (Z.land share_deny (u32_not OPEN4_SHARE_DENY_BOTH) =? 0)
  then (Err NFS_Inval, s)
  else create_open_state_guarded object owner share_access share_deny s.

(** ** OPEN_CONFIRM *)

Definition confirm_open_state_guarded (stateid : Stateid4) (s : StateManager)
    : result NfsStat4 Stateid4 * StateManager :=
  match in_open_files (sm_inner s) !! other stateid with
  | None => (Err NFS_BadStateid, s)
  | Some st =>
    if negb (os_active st) then (Err NFS_BadStateid, s)
    else match validate_stateid_seq (os_stateid_seq st) (seqid stateid) with
         | Err e => (Err e, s)
         | Ok _ =>
           let st := set_os_stateid_seq (u32_wrap (os_stateid_seq st + 1)) st in
           (Ok (mkStateid4 (os_stateid_seq st) (other stateid)), put_open (other stateid) st s)
         end
  end.

Definition confirm_open_state (stateid : Stateid4) (now : Z) (s : StateManager) :=
  confirm_open_state_guarded stateid (reap_expired_clients now s).

(** ** CLOSE *)

Definition locks_held (inner : StateInner) (open_other : bytes) : bool :=
  hm_any (fun _ lock => ls_active lock && bool_decide (ls_open_state_other lock = open_other))
    (in_lock_files inner).

Definition is_writer (st : OpenFileState) : bool :=
  negb (Z.land (os_share_access st) OPEN4_SHARE_ACCESS_WRITE =? 0).

Definition close_state_guarded (stateid : Stateid4) (s : StateManager)
    : result NfsStat4 CloseOutcome * StateManager :=
  match in_open_files (sm_inner s) !! other stateid with
  | None => (Err NFS_BadStateid, s)
  | Some st =>
    match validate_stateid_seq (os_stateid_seq st) (seqid stateid) with
    | Err e => (Err e, s)
    | Ok _ =>
      if negb (os_active st) then (Err NFS_BadStateid, s)
      else if locks_held (sm_inner s) (other stateid) then (Err NFS_LocksHeld, s)
      else
        let st' := set_os_active false st in
        let st' := set_os_stateid_seq (u32_wrap (os_stateid_seq st + 1)) st' in
        let s := put_open (other stateid) st' s in
        let writers_remain :=
          hm_any (fun _ o => os_active o && bool_decide (os_object o = os_object st) && is_writer o)
            (in_open_files (sm_inner s)) in
        (Ok (mkCloseOutcome (mkStateid4 (os_stateid_seq st') (other stateid))
               (is_writer st && negb writers_remain)), s)
    end
  end.

Definition close_state (stateid : Stateid4) (now : Z) (s : StateManager) :=
  close_state_guarded stateid (reap_expired_clients now s).

(** ** FREE_STATEID *)

Definition free_stateid_guarded (stateid : Stateid4) (s : StateManager)
    : result NfsStat4 unit * StateManager :=
  let inner := sm_inner s in
  match in_open_files inner !! other stateid with
  | Some st =>
    match validate_stateid_seq (os_stateid_seq st) (seqid stateid) with
    | Err e => (Err e, s)
    | Ok _ =>
      if os_active st || locks_held inner (other stateid) then (Err NFS_LocksHeld, s)
      else (Ok tt, with_inner (fun i => set_in_open_files
                     (delete (other stateid) (in_open_files i)) i) s)
    end
  | None =>
    match in_lock_files inner !! other stateid with
    | Some lock =>
      match validate_stateid_seq (ls_stateid_seq lock) (seqid stateid) with
      | Err e => (Err e, s)
      | Ok _ =>
        if ls_active lock then (Err NFS_LocksHeld, s)
        else (Ok tt, with_inner (fun i => set_in_lock_files
                       (delete (other stateid) (in_lock_files i)) i) s)
      end
    | None =>
      match in_delegations inner !! other stateid with
      | Some delegation =>
        match validate_stateid_seq (ds_stateid_seq delegation) (seqid stateid) with
        | Err e => (Err e, s)
        | Ok _ =>
          match ds_status delegation with
          | Revoked | Returned =>
            (Ok tt, with_inner (fun i => (remove_delegation_locked i (other stateid)).1) s)
          | Granted | RecallInProgress => (Err NFS_LocksHeld, s)
          end
        end
      | None => (Err NFS_BadStateid, s)
      end
    end
  end.

Definition free_stateid (stateid : Stateid4) (now : Z) (s : StateManager) :=
  free_stateid_guarded stateid (reap_expired_clients now s).

(** ** TEST_STATEID *)

Definition seq_status (stored provided : Z) : NfsStat4 :=
  match validate_stateid_seq stored provided with Ok _ => NFS_Ok | Err status => status end.

Definition delegation_test_status (st : DelegationState) (stateid : Stateid4) : NfsStat4 :=
  match validate_stateid_seq (ds_stateid_seq st) (seqid stateid) with
  | Ok _ => match ds_status st with Revoked => NFS_DelegRevoked | _ => NFS_Ok end
  | Err status => status
  end.

Definition test_stateid (inner : StateInner) (stateid : Stateid4) : NfsStat4 :=
  if is_special_stateid stateid || negb (is_ok (normalize_stateid stateid None ZeroSeqid))
  then NFS_BadStateid
  else match in_open_files inner !! other stateid with
       | Some st =>
         if negb (os_active st) then NFS_BadStateid
         else seq_status (os_stateid_seq st) (seqid stateid)
       | None =>
         match in_lock_files inner !! other stateid with
         | Some st => seq_status (ls_stateid_seq st) (seqid stateid)
         | None =>
           match in_delegations inner !! other stateid with
           | Some st => delegation_test_status st stateid
           | None => NFS_BadStateid
           end
         end
       end.

Definition test_stateids (stateids : list Stateid4) (now : Z) (s : StateManager)
    : list NfsStat4 * StateManager :=
  let s := reap_expired_clients now s in
  (test_stateid (sm_inner s) <$> stateids, s).

(** ** OPEN_DOWNGRADE *)

Definition open_downgrade_guarded (open_stateid : Stateid4) (access_mode share_deny : Z)
    (s : StateManager) : result NfsStat4 Stateid4 * StateManager :=
  match in_open_files (sm_inner s) !! other open_stateid with
  | None => (Err NFS_BadStateid, s)
  | Some st =>
    match validate_stateid_seq (os_stateid_seq st) (seqid open_stateid) with
    | Err e => (Err e, s)
    | Ok _ =>
      if negb (os_active st) then (Err NFS_BadStateid, s)
      else if negb (Z.land access_mode (u32_not (os_share_access st)) =? 0) ||
              negb (Z.land share_deny (u32_not (os_share_deny st)) =? 0)
      then (Err NFS_Inval, s)
      else
        let st := set_os_share_access access_mode st in
        let st := set_os_share_deny share_deny st in
        let st := set_os_stateid_seq (u32_wrap (os_stateid_seq st + 1)) st in
        (Ok (mkStateid4 (os_stateid_seq st) (other open_stateid)),
         put_open (other open_stateid) st s)
    end
  end.

Definition open_downgrade (open_stateid : Stateid4) (share_access share_deny now : Z)
    (s : StateManager) : result NfsStat4 Stateid4 * StateManager :=
  let s := reap_expired_clients now s in
  let access_mode := share_access_mode share_access in
  if negb ((access_mode =? OPEN4_SHARE_ACCESS_READ) ||
           (access_mode =? OPEN4_SHARE_ACCESS_WRITE) ||
           (access_mode =? OPEN4_SHARE_ACCESS_BOTH)) then (Err NFS_Inval, s)
  else if negb ((share_deny =? OPEN4_SHARE_DENY_NONE) ||
                (share_deny =? OPEN4_SHARE_DENY_READ) ||
                (share_deny =? OPEN4_SHARE_DENY_WRITE) ||
                (share_deny =? OPEN4_SHARE_DENY_BOTH)) then (Err NFS_Inval, s)
  else open_downgrade_guarded open_stateid access_mode share_deny s.
End with_order.

(** ** Share reservations: the invariant

    [shares_wf]: modes are in range, an (owner, object) pair has one live
    open, and no live open denies the access of another live open of the same
    object. *)

Definition mode_ok (m : Z) : Prop := 0 <= m <= 3.

Record shares_wf (m : gmap bytes OpenFileState) : Prop := {
  shares_modes : forall k st, m !! k = Some st ->
    1 <= os_share_access st <= 3 /\ mode_ok (os_share_deny st);
  shares_unique : forall k1 k2 s1 s2, m !! k1 = Some s1 -> m !! k2 = Some s2 ->
    os_active s1 = true -> os_active s2 = true ->
    os_object s1 = os_object s2 -> os_clientid s1 = os_clientid s2 ->
    os_owner s1 = os_owner s2 -> k1 = k2;
  shares_exclusive : forall k1 k2 s1 s2, m !! k1 = Some s1 -> m !! k2 = Some s2 ->
    k1 <> k2 -> os_active s1 = true -> os_active s2 = true ->
    os_object s1 = os_object s2 -> Z.land (os_share_deny s1) (os_share_access s2) = 0;
}.

(** Every stateid in a table carries a counter value already handed out. *)
Definition keys_below {V} (next : Z) (cid : V -> Z) (m : gmap bytes V) : Prop :=
  forall k v, m !! k = Some v ->
    exists seq, 1 <= seq < next /\ is_u64 (cid v) /\ k = stateid_other seq (cid v).

(** ** Lemmas *)

Lemma mode_cases m : mode_ok m -> m = 0 \/ m = 1 \/ m = 2 \/ m = 3.
Proof. unfold mode_ok. lia. Qed.

(** The mask tests of the source on share modes. *)
Lemma mode_sub a b c :
  mode_ok a -> mode_ok b -> mode_ok c ->
  Z.land a (u32_not b) = 0 -> Z.land b c = 0 -> Z.land a c = 0.
Proof.
  intros [->|[->|[->| ->]]]%mode_cases [->|[->|[->| ->]]]%mode_cases
    [->|[->|[->| ->]]]%mode_cases; vm_compute; congruence.
Qed.

Lemma mode_sub_r a b c :
  mode_ok a -> mode_ok b -> mode_ok c ->
  Z.land a (u32_not b) = 0 -> Z.land c b = 0 -> Z.land c a = 0.
Proof. rewrite !(Z.land_comm c). apply mode_sub. Qed.

Lemma mode_lor a b : mode_ok a -> mode_ok b -> mode_ok (Z.lor a b).
Proof.
  intros [->|[->|[->| ->]]]%mode_cases [->|[->|[->| ->]]]%mode_cases;
    split; vm_compute; congruence.
Qed.

Lemma access_lor a b : 1 <= a <= 3 -> 1 <= b <= 3 -> 1 <= Z.lor a b <= 3.
Proof.
  intros Ha Hb. assert (Hl : mode_ok (Z.lor a b)) by (apply mode_lor; unfold mode_ok; lia).
  split; [|apply Hl]. destruct (Z.eq_dec (Z.lor a b) 0) as [H0|]; [|unfold mode_ok in Hl; lia].
  apply Z.lor_eq_0_iff in H0. lia.
Qed.

Lemma mode_not_refl a : mode_ok a -> Z.land a (u32_not a) = 0.
Proof. by intros [->|[->|[->| ->]]]%mode_cases. Qed.

Section shares.
Implicit Types (m : gmap bytes OpenFileState).

Lemma shares_wf_sub m m' :
  (forall k st, m' !! k = Some st -> m !! k = Some st) -> shares_wf m -> shares_wf m'.
Proof.
  intros Hsub [Hm Hu He]. split.
  - intros k st Hk. by apply (Hm k), Hsub.
  - intros k1 k2 s1 s2 H1 H2. apply (Hu k1 k2); by apply Hsub.
  - intros k1 k2 s1 s2 H1 H2. apply (He k1 k2); by apply Hsub.
Qed.

(** Weakening one entry: CLOSE, OPEN_CONFIRM and OPEN_DOWNGRADE never add
    access or denial, and never wake a closed open. *)
Lemma shares_wf_weaken m k st st' :
  m !! k = Some st ->
  (os_active st' = true -> os_active st = true) ->
  os_object st' = os_object st -> os_clientid st' = os_clientid st ->
  os_owner st' = os_owner st ->
  1 <= os_share_access st' <= 3 -> mode_ok (os_share_deny st') ->
  Z.land (os_share_access st') (u32_not (os_share_access st)) = 0 ->
  Z.land (os_share_deny st') (u32_not (os_share_deny st)) = 0 ->
  shares_wf m -> shares_wf (<[k := st']> m).
Proof.
  intros Hk Hact Hobj Hcid Hown Hacc Hden Hsa Hsd [Hm Hu He].
  destruct (Hm k st Hk) as [Ha Hd].
  assert (Hlook : forall j v, <[k := st']> m !! j = Some v ->
            (j = k /\ v = st') \/ (j <> k /\ m !! j = Some v)).
  { intros j v Hj. destruct (decide (j = k)) as [->|Hne].
    - rewrite lookup_insert_eq in Hj. left. by injection Hj as <-.
    - rewrite lookup_insert_ne in Hj by done. by right. }
  assert (Ha' : mode_ok (os_share_access st)) by (unfold mode_ok; lia).
  assert (Hacc' : mode_ok (os_share_access st')) by (unfold mode_ok; lia).
  split.
  - intros j v [[-> ->]|[_ Hj]]%Hlook; [done|by apply (Hm j)].
  - intros k1 k2 s1 s2 [[-> ->]|[Hn1 H1]]%Hlook [[-> ->]|[Hn2 H2]]%Hlook A1 A2 Ho Hc Hw; [done| | |].
    + apply (Hu k k2 st s2); auto; congruence.
    + apply (Hu k1 k s1 st); auto; congruence.
    + by apply (Hu k1 k2 s1 s2).
  - intros k1 k2 s1 s2 [[-> ->]|[Hn1 H1]]%Hlook [[-> ->]|[Hn2 H2]]%Hlook Hne A1 A2 Ho; [done| | |].
    + destruct (Hm k2 s2 H2) as [Ha2 Hd2].
      apply (mode_sub _ (os_share_deny st)); try done; [unfold mode_ok; lia|].
      apply (He k k2 st s2); auto; congruence.
    + destruct (Hm k1 s1 H1) as [Ha1 Hd1].
      apply (mode_sub_r _ (os_share_access st)); try done.
      apply (He k1 k s1 st); auto; congruence.
    + by apply (He k1 k2 s1 s2).
Qed.

(** Putting an open into the table when nothing else conflicts with it: both
    branches of OPEN. *)
Lemma shares_wf_put m k st :
  1 <= os_share_access st <= 3 -> mode_ok (os_share_deny st) ->
  (forall k' st', m !! k' = Some st' -> k' <> k -> os_active st' = true ->
     os_object st' = os_object st ->
     Z.land (os_share_deny st') (os_share_access st) = 0 /\
     Z.land (os_share_deny st) (os_share_access st') = 0 /\
     (os_clientid st' = os_clientid st -> os_owner st' = os_owner st -> False)) ->
  shares_wf m -> shares_wf (<[k := st]> m).
Proof.
  intros Hacc Hden Hnew [Hm Hu He].
  assert (Hlook : forall j v, <[k := st]> m !! j = Some v ->
            (j = k /\ v = st) \/ (j <> k /\ m !! j = Some v)).
  { intros j v Hj. destruct (decide (j = k)) as [->|Hne].
    - rewrite lookup_insert_eq in Hj. left. by injection Hj as <-.
    - rewrite lookup_insert_ne in Hj by done. by right. }
  split.
  - intros j v [[-> ->]|[_ Hj]]%Hlook; [done|by apply (Hm j)].
  - intros k1 k2 s1 s2 [[-> ->]|[Hn1 H1]]%Hlook [[-> ->]|[Hn2 H2]]%Hlook A1 A2 Ho Hc Hw; [done| | |].
    + exfalso. by apply (Hnew k2 s2 H2 Hn2 A2).
    + exfalso. by apply (Hnew k1 s1 H1 Hn1 A1 Ho).
    + by apply (Hu k1 k2 s1 s2).
  - intros k1 k2 s1 s2 [[-> ->]|[Hn1 H1]]%Hlook [[-> ->]|[Hn2 H2]]%Hlook Hne A1 A2 Ho; [done| | |].
    + by apply (Hnew k2 s2 H2 Hn2 A2).
    + by apply (Hnew k1 s1 H1 Hn1 A1 Ho).
    + by apply (He k1 k2 s1 s2).
Qed.
End shares.

Section open_ops.
Context {ho : HashOrder}.

Lemma share_conflict_false i object own acc deny :
  share_conflict i object own acc deny = false ->
  forall k st, in_open_files i !! k = Some st -> os_active st = true -> own <> Some k ->
    os_object st = object ->
    Z.land (os_share_deny st) acc = 0 /\ Z.land deny (os_share_access st) = 0.
Proof.
  unfold share_conflict. intros Hf k st Hk Hact Hown Hobj.
  rewrite hm_any_false in Hf. specialize (Hf k st Hk).
  unfold is_ignored in Hf. rewrite Hact, bool_decide_eq_false_2 in Hf by congruence.
  rewrite bool_decide_eq_true_2 in Hf by done. simpl in Hf.
  apply orb_false_elim in Hf as [H1 H2]. bool_to_prop. done.
Qed.

Lemma share_conflict_true i object own acc deny :
  share_conflict i object own acc deny = true ->
  exists k st, in_open_files i !! k = Some st /\ os_active st = true /\ own <> Some k /\
    os_object st = object /\
    (Z.land (os_share_deny st) acc <> 0 \/ Z.land deny (os_share_access st) <> 0).
Proof.
  unfold share_conflict, is_ignored. intros (k & st & Hk & Hc)%hm_any_true.
  bool_to_prop. exists k, st. split_and!; try done; try congruence.
  match goal with H : _ || _ = true |- _ => apply orb_prop in H as [?|?] end; bool_to_prop; auto.
Qed.

Lemma find_owner_open_Some i object owner k st :
  find_owner_open i object owner = Some (k, st) ->
  in_open_files i !! k = Some st /\ os_active st = true /\ os_object st = object /\
  os_clientid st = so_clientid owner /\ os_owner st = so_owner owner.
Proof. unfold find_owner_open. intros [Hk Hc]%hm_find_Some. by bool_to_prop. Qed.

Lemma find_owner_open_None i object owner :
  find_owner_open i object owner = None ->
  forall k st, in_open_files i !! k = Some st -> os_active st = true -> os_object st = object ->
    os_clientid st = so_clientid owner -> os_owner st = so_owner owner -> False.
Proof.
  unfold find_owner_open. intros Hn k st Hk Hact Hobj Hcid Hown.
  rewrite hm_find_None in Hn. specialize (Hn k st Hk).
  rewrite Hact, Hcid, Z.eqb_refl, !bool_decide_eq_true_2 in Hn by done. done.
Qed.

(** A stateid minted from the counter is in no table. *)
Lemma keys_below_fresh {V} (next : Z) (cid : V -> Z) (m : gmap bytes V) (c : Z) :
  keys_below next cid m -> is_u32 next -> is_u64 c -> m !! stateid_other next c = None.
Proof.
  intros Hb Hn Hc. destruct (m !! stateid_other next c) as [v|] eqn:E; [|done].
  destruct (Hb _ _ E) as (seq & Hs & Hv & Heq).
  apply stateid_other_inj in Heq as [-> _]; try done; [lia|unfold is_u32 in *; lia].
Qed.

Lemma keys_below_mono {V} (next next' : Z) (cid : V -> Z) (m : gmap bytes V) :
  next <= next' -> keys_below next cid m -> keys_below next' cid m.
Proof.
  intros Hle Hb k v Hk. destruct (Hb _ _ Hk) as (seq & Hs & Hv & Heq).
  exists seq. split; [lia|done].
Qed.

Lemma keys_below_sub {V} (next : Z) (cid : V -> Z) (m m' : gmap bytes V) :
  (forall k v, m' !! k = Some v -> m !! k = Some v) ->
  keys_below next cid m -> keys_below next cid m'.
Proof. intros Hsub Hb k v Hk. by apply Hb, Hsub. Qed.

(** Replacing a value without changing its client. *)
Lemma keys_below_update {V} (next : Z) (cid : V -> Z) (m : gmap bytes V) k v v' :
  m !! k = Some v -> cid v' = cid v -> keys_below next cid m ->
  keys_below next cid (<[k := v']> m).
Proof.
  intros Hk Hc Hb j w Hj. destruct (decide (j = k)) as [->|Hne].
  - rewrite lookup_insert_eq in Hj. injection Hj as <-. rewrite Hc. by apply Hb.
  - rewrite lookup_insert_ne in Hj by done. by apply Hb.
Qed.

Lemma keys_below_insert {V} (next : Z) (cid : V -> Z) (m : gmap bytes V) v :
  1 <= next -> is_u64 (cid v) -> keys_below next cid m ->
  keys_below (next + 1) cid (<[stateid_other next (cid v) := v]> m).
Proof.
  intros Hn Hv Hb j w Hj. destruct (decide (j = stateid_other next (cid v))) as [->|Hne].
  - rewrite lookup_insert_eq in Hj. injection Hj as <-. exists next. split; [lia|done].
  - rewrite lookup_insert_ne in Hj by done.
    destruct (Hb _ _ Hj) as (seq & Hs & Hw & Heq). exists seq. split; [lia|done].
Qed.

(** What OPEN leaves in the open table. *)
Lemma create_open_shares object owner acc deny s :
  1 <= acc <= 3 -> mode_ok deny -> shares_wf (in_open_files (sm_inner s)) ->
  shares_wf (in_open_files (sm_inner (create_open_state_guarded object owner acc deny s).2)).
Proof.
  intros Hacc Hden Hwf. unfold create_open_state_guarded.
  destruct (is_retired s object); [done|].
  destruct (find_owner_open (sm_inner s) object owner) as [[k st]|] eqn:Ef; cbn [fst fmap].
  - destruct (share_conflict _ _ _ _ _) eqn:Ec; [done|]. simpl.
    apply find_owner_open_Some in Ef as (Hk & Hact & Hobj & Hcid & Hown).
    rewrite Hk. simpl. destruct (shares_modes _ Hwf _ _ Hk) as [Ha Hd].
    apply shares_wf_put; simpl; [by apply access_lor|by apply mode_lor| |done].
    intros k' st' Hk' Hne Hact' Hobj'.
    destruct (share_conflict_false _ _ _ _ _ Ec k' st' Hk' Hact') as [H1 H2];
      [simpl; congruence|congruence|].
    split_and!; [done|done|]. intros Hc Hw. apply Hne.
    apply (shares_unique _ Hwf k' k st' st); done.
  - destruct (share_conflict _ _ _ _ _) eqn:Ec; [done|]. simpl.
    apply shares_wf_put; simpl; [done..| |done].
    intros k' st' Hk' Hne Hact' Hobj'.
    destruct (share_conflict_false _ _ _ _ _ Ec k' st' Hk' Hact') as [H1 H2]; [done|done|].
    split_and!; [done|done|]. intros Hc Hw.
    by apply (find_owner_open_None _ _ _ Ef k' st' Hk' Hact' Hobj').
Qed.

Lemma confirm_open_shares stateid s :
  shares_wf (in_open_files (sm_inner s)) ->
  shares_wf (in_open_files (sm_inner (confirm_open_state_guarded stateid s).2)).
Proof.
  intros Hwf. unfold confirm_open_state_guarded.
  destruct (in_open_files (sm_inner s) !! other stateid) as [st|] eqn:Hk; [|done].
  destruct (negb (os_active st)); [done|]. destruct (validate_stateid_seq _ _); [|done].
  destruct (shares_modes _ Hwf _ _ Hk) as [Ha Hd].
  apply (shares_wf_weaken _ _ st); simpl; try done; apply mode_not_refl; unfold mode_ok in *; lia.
Qed.

Lemma close_shares stateid s :
  shares_wf (in_open_files (sm_inner s)) ->
  shares_wf (in_open_files (sm_inner (close_state_guarded stateid s).2)).
Proof.
  intros Hwf. unfold close_state_guarded.
  destruct (in_open_files (sm_inner s) !! other stateid) as [st|] eqn:Hk; [|done].
  destruct (validate_stateid_seq _ _); [|done]. destruct (negb (os_active st)); [done|].
  destruct (locks_held _ _); [done|].
  destruct (shares_modes _ Hwf _ _ Hk) as [Ha Hd].
  apply (shares_wf_weaken _ _ st); simpl; try done; apply mode_not_refl; unfold mode_ok in *; lia.
Qed.

Lemma downgrade_shares stateid acc deny s :
  1 <= acc <= 3 -> mode_ok deny -> shares_wf (in_open_files (sm_inner s)) ->
  shares_wf (in_open_files (sm_inner (open_downgrade_guarded stateid acc deny s).2)).
Proof.
  intros Hacc Hden Hwf. unfold open_downgrade_guarded.
  destruct (in_open_files (sm_inner s) !! other stateid) as [st|] eqn:Hk; [|done].
  destruct (validate_stateid_seq _ _); [|done]. destruct (negb (os_active st)); [done|].
  destruct (_ || _) eqn:Em; [done|]. apply orb_false_elim in Em as [H1 H2]. bool_to_prop.
  apply (shares_wf_weaken _ _ st); simpl; done.
Qed.

Lemma free_stateid_opens stateid s k st :
  in_open_files (sm_inner (free_stateid_guarded stateid s).2) !! k = Some st ->
  in_open_files (sm_inner s) !! k = Some st.
Proof.
  unfold free_stateid_guarded.
  destruct (in_open_files (sm_inner s) !! other stateid) eqn:E.
  - destruct (validate_stateid_seq _ _); [|done]. destruct (_ || _); [done|]. simpl.
    by intros [_ H]%lookup_delete_Some.
  - destruct (in_lock_files (sm_inner s) !! other stateid).
    { destruct (validate_stateid_seq _ _); [|done]. by destruct (ls_active _). }
    destruct (in_delegations (sm_inner s) !! other stateid); [|done].
    destruct (validate_stateid_seq _ _); [|done].
    destruct (ds_status _); try done; simpl;
      by destruct (remove_delegation_same (sm_inner s) (other stateid)) as (_ & _ & -> & _).
Qed.

Lemma land_3_range x : 0 <= Z.land x 3 <= 3.
Proof.
  assert (He : Z.land x 3 = x mod 4) by (change 3 with (Z.ones 2); by rewrite Z.land_ones by lia).
  rewrite He. pose proof (Z.mod_pos_bound x 4). lia.
Qed.

Lemma deny_mode_ok d : is_u32 d -> Z.land d (u32_not OPEN4_SHARE_DENY_BOTH) = 0 -> mode_ok d.
Proof.
  intros Hd H0. assert (He : d = Z.land d 3).
  { transitivity (Z.land d (Z.lor 3 (u32_not OPEN4_SHARE_DENY_BOTH))).
    - change (Z.lor 3 (u32_not OPEN4_SHARE_DENY_BOTH)) with (Z.ones 32).
      rewrite Z.land_ones by lia. symmetry. by apply Z.mod_small.
    - rewrite Z.land_lor_distr_r, H0. apply Z.lor_0_r. }
  rewrite He. apply land_3_range.
Qed.

(** The live open [st] of [object] stands in the way of access [acc] or of
    denying [deny]. *)
Definition blocks (object : ServerObject) (acc deny : Z) (st : OpenFileState) : Prop :=
  os_active st = true /\ os_object st = object /\
  (Z.land (os_share_deny st) acc <> 0 \/ Z.land deny (os_share_access st) <> 0).

(** The open belongs to this owner and object, and is live. *)
Definition owned_open (object : ServerObject) (owner : StateOwner4) (st : OpenFileState) : Prop :=
  os_active st = true /\ os_object st = object /\
  os_clientid st = so_clientid owner /\ os_owner st = so_owner owner.

Lemma create_open_guarded_outcome object owner acc deny s r s' :
  create_open_state_guarded object owner acc deny s = (r, s') ->
  let opens := in_open_files (sm_inner s) in
  match r with
  | Ok sid =>
    is_retired s object = false /\
    exists st', sm_inner s' =
        set_in_open_files (<[other sid := st']> opens) (sm_inner s) /\
      seqid sid = os_stateid_seq st' /\ owned_open object owner st' /\
      ((exists st, opens !! other sid = Some st /\ owned_open object owner st /\
          os_share_access st' = Z.lor (os_share_access st) acc /\
          os_share_deny st' = Z.lor (os_share_deny st) deny /\
          os_stateid_seq st' = u32_wrap (os_stateid_seq st + 1)) \/
       ((forall k st, opens !! k = Some st -> ~ owned_open object owner st) /\
          other sid = stateid_other (sm_next_stateid s) (so_clientid owner) /\
          os_share_access st' = acc /\ os_share_deny st' = deny /\ os_stateid_seq st' = 1))
  | Err NFS_Stale => is_retired s object = true /\ s' = s
  | Err NFS_ShareDenied => s' = s /\ is_retired s object = false /\
    exists k st acc' deny', opens !! k = Some st /\ blocks object acc' deny' st /\
      ((acc' = acc /\ deny' = deny /\ forall k st, opens !! k = Some st -> ~ owned_open object owner st) \/
       exists k0 st0, k0 <> k /\ opens !! k0 = Some st0 /\ owned_open object owner st0 /\
         acc' = Z.lor (os_share_access st0) acc /\ deny' = Z.lor (os_share_deny st0) deny)
  | Err _ => False
  end.
Proof.
  unfold create_open_state_guarded. destruct (is_retired s object) eqn:Hr; [by intros [= <- <-]|].
  destruct (find_owner_open (sm_inner s) object owner) as [[k st]|] eqn:Ef; cbn [fst fmap option_fmap option_map].
  - apply find_owner_open_Some in Ef as (Hk & Hact & Hobj & Hcid & Hown).
    destruct (share_conflict _ _ _ _ _) eqn:Ec.
    + intros [= <- <-]. split; [done|]. split; [done|].
      apply share_conflict_true in Ec as (k' & st' & Hk' & Ha' & Hne & Ho' & Hb).
      eexists k', st', _, _. split_and!; try done. right. exists k, st.
      split_and!; [congruence|done..].
    + rewrite Hk. intros [= <- <-]. split; [done|]. eexists. simpl. split_and!; try done.
      left. exists st. done.
  - pose proof (find_owner_open_None _ _ _ Ef) as Hnone.
    assert (Hno : forall k st, in_open_files (sm_inner s) !! k = Some st -> ~ owned_open object owner st).
    { intros k st Hk (? & ? & ? & ?). by eapply Hnone. }
    destruct (share_conflict _ _ _ _ _) eqn:Ec.
    + intros [= <- <-]. split; [done|]. split; [done|].
      apply share_conflict_true in Ec as (k' & st' & Hk' & Ha' & Hne & Ho' & Hb).
      eexists k', st', _, _. split_and!; try done. by left.
    + intros [= <- <-]. split; [done|]. eexists. simpl. split_and!; try done. right. done.
Qed.

(** OPEN, every outcome.  On success the returned stateid names a live
    open of the object by this owner, and nothing else changed; it is the
    owner's previous open with the modes added and the sequence number moved
    by one if the owner had one, and otherwise an open with exactly the
    requested modes under the next stateid.  SHARE_DENIED is answered only if
    some other live open of the object denies the access wanted (together with
    what the owner already holds) or holds an access to be denied; STALE only
    for a retired object; INVAL only for modes out of range.  No other error
    is possible. *)
Theorem create_open_outcome object owner share_access share_deny now s r s' :
  create_open_state object owner share_access share_deny now s = (r, s') ->
  let s0 := reap_expired_clients now s in
  let acc := Z.land share_access OPEN4_SHARE_ACCESS_BOTH in
  let opens := in_open_files (sm_inner s0) in
  match r with
  | Ok sid =>
    exists st', sm_inner s' = set_in_open_files (<[other sid := st']> opens) (sm_inner s0) /\
      seqid sid = os_stateid_seq st' /\ owned_open object owner st' /\
      ((exists st, opens !! other sid = Some st /\ owned_open object owner st /\
          os_share_access st' = Z.lor (os_share_access st) acc /\
          os_share_deny st' = Z.lor (os_share_deny st) share_deny /\
          os_stateid_seq st' = u32_wrap (os_stateid_seq st + 1)) \/
       ((forall k st, opens !! k = Some st -> ~ owned_open object owner st) /\
          other sid = stateid_other (sm_next_stateid s) (so_clientid owner) /\
          os_share_access st' = acc /\ os_share_deny st' = share_deny /\ os_stateid_seq st' = 1))
  | Err NFS_Inval =>
    s' = s0 /\ (acc = 0 \/ Z.land share_deny (u32_not OPEN4_SHARE_DENY_BOTH) <> 0)
  | Err NFS_Stale => is_retired s object = true /\ s' = s0
  | Err NFS_ShareDenied => s' = s0 /\
    exists k st acc' deny', opens !! k = Some st /\ blocks object acc' deny' st /\
      ((acc' = acc /\ deny' = share_deny /\
        forall k st, opens !! k = Some st -> ~ owned_open object owner st) \/
       exists k0 st0, k0 <> k /\ opens !! k0 = Some st0 /\ owned_open object owner st0 /\
         acc' = Z.lor (os_share_access st0) acc /\ deny' = Z.lor (os_share_deny st0) share_deny)
  | Err _ => False
  end.
Proof.
  cbv zeta. unfold create_open_state.
  assert (Hn : sm_next_stateid (reap_expired_clients now s) = sm_next_stateid s) by done.
  assert (Hret : is_retired (reap_expired_clients now s) object = is_retired s object) by done.
  rewrite <- Hn, <- Hret. set (s0 := reap_expired_clients now s). clearbody s0. clear Hn Hret.
  destruct (_ || _) eqn:Em.
  - intros [= <- <-]. split; [done|]. apply orb_prop in Em as [?|?]; bool_to_prop; auto.
  - intros H. apply create_open_guarded_outcome in H. cbv zeta in H.
    destruct r as [sid|[]]; try done; tauto.
Qed.

(** CLOSE: on success the open is closed for good (its stateid no longer
    resolves), no lock was held through it, no other open changed, and
    [last_writer] is reported exactly when this open could write and no live
    open of the object that can write remains.  On error only the reap has
    happened. *)
Theorem close_outcome stateid now s r s' :
  close_state stateid now s = (r, s') ->
  let s0 := reap_expired_clients now s in
  let opens := in_open_files (sm_inner s0) in
  match r with
  | Err _ => s' = s0
  | Ok out =>
    exists st, opens !! other stateid = Some st /\ os_active st = true /\
      (forall k l, in_lock_files (sm_inner s0) !! k = Some l ->
         ls_open_state_other l = other stateid -> ls_active l = false) /\
      (forall k, k <> other stateid -> in_open_files (sm_inner s') !! k = opens !! k) /\
      (forall c q, is_ok (resolve_concrete (sm_inner s') c (mkStateid4 q (other stateid))) = false) /\
      (co_last_writer out = true <->
         is_writer st = true /\
         forall k o, in_open_files (sm_inner s') !! k = Some o -> os_active o = true ->
           os_object o = os_object st -> is_writer o = false)
  end.
Proof.
  cbv zeta. unfold close_state, close_state_guarded.
  set (s0 := reap_expired_clients now s). clearbody s0.
  destruct (in_open_files (sm_inner s0) !! other stateid) as [st|] eqn:Hk; [|by intros [= <- <-]].
  destruct (validate_stateid_seq _ _); [|by intros [= <- <-]].
  destruct (os_active st) eqn:Ha; [simpl|by intros [= <- <-]].
  destruct (locks_held _ _) eqn:Hl; [by intros [= <- <-]|]. intros [= <- <-].
  exists st. split_and!; try done.
  - intros k l Hkl He. unfold locks_held in Hl. rewrite hm_any_false in Hl.
    specialize (Hl k l Hkl). rewrite He, bool_decide_eq_true_2, andb_true_r in Hl by done. done.
  - intros k Hne. simpl. by rewrite lookup_insert_ne.
  - intros c q. unfold resolve_concrete. simpl. rewrite lookup_insert_eq. simpl.
    by destruct (validate_stateid_seq _ _).
  - cbn [co_last_writer]. rewrite andb_true_iff, negb_true_iff, hm_any_false.
    split; intros [Hw Hall]; (split; [exact Hw|]).
    + intros k o Hko Hao Hoo. specialize (Hall k o Hko).
      rewrite Hao, Hoo, bool_decide_eq_true_2 in Hall by done. exact Hall.
    + intros k o Hko. specialize (Hall k o Hko).
      destruct (os_active o); [|done]. case_bool_decide; [|done]. by apply Hall.
Qed.
End open_ops.

(** ** Concrete instances *)

(** Owner 1 has the file 3 open for writing and denies writing to others. *)
Definition example_opened : StateManager :=
  (@create_open_state canonical_order (Fs 3) (mkStateOwner4 1 [1]) 2 2 0 example_session).2.

Lemma create_open_outcome_witness :
  exists k st acc' deny',
    in_open_files (sm_inner (@reap_expired_clients canonical_order 5 example_opened)) !! k = Some st /\
    blocks (Fs 3) acc' deny' st.
Proof.
  destruct (@create_open_state canonical_order (Fs 3) (mkStateOwner4 1 [2]) 2 0 5 example_opened)
    as [r s'] eqn:E.
  pose proof (@create_open_outcome canonical_order (Fs 3) (mkStateOwner4 1 [2]) 2 0 5
    example_opened r s' E) as H. cbv zeta in H.
  assert (r = Err NFS_ShareDenied) as ->.
  { apply (f_equal fst) in E. revert E. vm_compute. congruence. }
  destruct H as (_ & k & st & a & d & Hk & Hb & _). exists k, st, a, d.
  split; [exact Hk|exact Hb].
Defined.

Lemma close_outcome_witness :
  exists out s', @close_state canonical_order (mkStateid4 1 (stateid_other 1 1)) 5 example_opened
    = (Ok out, s') /\ co_last_writer out = true /\
    forall k o, in_open_files (sm_inner s') !! k = Some o -> os_active o = true ->
      os_object o = Fs 3 -> is_writer o = false.
Proof.
  destruct (@close_state canonical_order (mkStateid4 1 (stateid_other 1 1)) 5 example_opened)
    as [r s'] eqn:E.
  pose proof (@close_outcome canonical_order (mkStateid4 1 (stateid_other 1 1)) 5
    example_opened r s' E) as H. cbv zeta in H.
  assert (Hr : r = Ok (mkCloseOutcome (mkStateid4 2 (stateid_other 1 1)) true)).
  { apply (f_equal fst) in E. revert E. vm_compute. congruence. }
  subst r. eexists _, s'. split; [reflexivity|]. split; [reflexivity|].
  destruct H as (st & Hst & _ & _ & _ & _ & Hw).
  assert (Ho : os_object st = Fs 3).
  { revert Hst. vm_compute. intros [= <-]. reflexivity. }
  intros k o Hk Ha Hob. rewrite <- Ho in Hob. exact (proj2 (proj1 Hw eq_refl) k o Hk Ha Hob).
Defined.
