(* ===== verification/Locks.v ===== *)
(** * Byte-range locks (session/locks.rs)

    The range arithmetic, the list of ranges a lock owner holds, conflict
    detection and the three operations of LOCK and LOCKU.

    The abstract state is the set of bytes held with each type, [held]: a
    list of ranges implements it, and replacing or unlocking a range is
    pointwise update.  The one byte left out, [u64_max], is the byte that only
    a lock "to the end of the file" covers: see [merge_covers_last_byte]. *)

From Stdlib Require Import ZArith Lia Sorting.Sorted.
From stdpp Require Import base gmap list sets strings numbers.
From S2P Require Import Prelude Xdr Rpc Types StateModel DelegTable Clients Stateids Opens.

Local Open Scope Z_scope.

(** ** Range arithmetic *)

Definition lock_end (offset length : Z) : Z :=
  if length =? u64_max then u128_max else offset + length.

Definition locks_overlap (a_offset a_length b_offset b_length : Z) : bool :=
  let a_end := lock_end a_offset a_length in
  let b_end := lock_end b_offset b_length in
  (a_offset <? b_end) && (b_offset <? a_end).

Definition range_from_bounds (locktype : NfsLockType4) (start end_ : Z) : option LockRange :=
  if end_ <=? start then None
  else Some (mkLockRange locktype start
               (if end_ =? u128_max then u64_max else u64_wrap (end_ - start))).

Definition validate_lock_bounds (offset length : Z) : result NfsStat4 unit :=
  if length =? 0 then Err NFS_Inval
  else if negb (length =? u64_max) && (u64_max <? offset + length) then Err NFS_Inval
  else Ok tt.

(** ** Lists of ranges *)

(** [sort_by_key] on the offset: a stable sort. *)
Fixpoint insert_range (r : LockRange) (l : list LockRange) : list LockRange :=
  match l with
  | [] => [r]
  | x :: l' => if lr_offset r <=? lr_offset x then r :: l else x :: insert_range r l'
  end.
Definition sort_ranges (l : list LockRange) : list LockRange := foldr insert_range [] l.

(** One turn of the merge loop; the accumulator is [normalized] reversed, so
    its head is [normalized.last_mut()].  [None] is the panic of [expect]. *)
Definition normalize_push (acc : option (list LockRange)) (range : LockRange)
    : option (list LockRange) :=
  match acc with
  | None => None
  | Some [] => Some [range]
  | Some (last :: rest) =>
    let last_end := lock_end (lr_offset last) (lr_length last) in
    if bool_decide (lr_locktype last = lr_locktype range) && (lr_offset range <=? last_end) then
      let merged_end := Z.max last_end (lock_end (lr_offset range) (lr_length range)) in
      match range_from_bounds (lr_locktype last) (lr_offset last) merged_end with
      | None => None
      | Some merged => Some (merged :: rest)
      end
    else Some (range :: last :: rest)
  end.

Definition normalize_lock_ranges (ranges : list LockRange) : option (list LockRange) :=
  reverse <$> foldl normalize_push (Some []) (sort_ranges ranges).

(** What is left of [range] outside [offset, cut_end): the loop body shared by
    [replace_lock_range] and [unlock_state]. *)
Definition cut_range (offset length : Z) (range : LockRange) : list LockRange :=
  if negb (locks_overlap (lr_offset range) (lr_length range) offset length) then [range]
  else
    let cut_end := lock_end offset length in
    let range_end := lock_end (lr_offset range) (lr_length range) in
    option_list (range_from_bounds (lr_locktype range) (lr_offset range) offset) ++
    (if cut_end =? u128_max then []
     else option_list (range_from_bounds (lr_locktype range) (u64_wrap cut_end) range_end)).

Definition cut_ranges (offset length : Z) (ranges : list LockRange) : list LockRange :=
  ranges ≫= cut_range offset length.

Definition replace_lock_range (ranges : list LockRange) (replacement : LockRange)
    : option (list LockRange) :=
  normalize_lock_ranges
    (cut_ranges (lr_offset replacement) (lr_length replacement) ranges ++ [replacement]).

Definition is_write_lock (locktype : NfsLockType4) : bool :=
  match locktype with WriteLt | WritewLt => true | _ => false end.

Definition same_lock_owner (a b : StateOwner4) : bool :=
  (so_clientid a =? so_clientid b) && bool_decide (so_owner a = so_owner b).

(** ** Conflicts *)

Section with_order.
Context {ho : HashOrder}.

Definition io_lock_conflict (inner : StateInner) (object : ServerObject)
    (owner : option StateOwner4) (is_write : bool) (offset length : Z)
    (ignore_stateid : option bytes) : bool :=
  hm_any (fun other state =>
    if negb (ls_active state) || negb (bool_decide (ls_object state = object)) ||
       is_ignored other ignore_stateid ||
       match owner with Some o => same_lock_owner (ls_owner state) o | None => false end
    then false
    else existsb (fun range =>
           locks_overlap (lr_offset range) (lr_length range) offset length &&
           (is_write || is_write_lock (lr_locktype range))) (ls_ranges state))
    (in_lock_files inner).

Definition has_conflicting_io_lock (object : ServerObject) (owner : option StateOwner4)
    (is_write : bool) (offset length : Z) (ignore_stateid : option bytes) (now : Z)
    (s : StateManager) : bool * StateManager :=
  let s := reap_expired_clients now s in
  if length =? 0 then (false, s)
  else (io_lock_conflict (sm_inner s) object owner is_write offset length ignore_stateid, s).

(** The inner loop: the first range of a lock state that conflicts. *)
Definition range_conflict (locktype : NfsLockType4) (offset length : Z) (range : LockRange)
    : bool :=
  locks_overlap (lr_offset range) (lr_length range) offset length &&
  (is_write_lock (lr_locktype range) || is_write_lock locktype).

Definition state_conflict (object : ServerObject) (owner : StateOwner4)
    (locktype : NfsLockType4) (offset length : Z) (ignore : option bytes)
    (entry : bytes * LockFileState) : option LockDenied4 :=
  let '(other, state) := entry in
  if is_ignored other ignore then None
  else if negb (ls_active state) then None
  else if negb (bool_decide (ls_object state = object)) then None
  else if same_lock_owner (ls_owner state) owner then None
  else
    (fun range => mkLockDenied4 (lr_offset range) (lr_length range) (lr_locktype range)
                    (ls_owner state)) <$>
    List.find (range_conflict locktype offset length) (ls_ranges state).

Fixpoint first_some {A B} (f : A -> option B) (l : list A) : option B :=
  match l with
  | [] => None
  | x :: l' => match f x with Some b => Some b | None => first_some f l' end
  end.

Definition lock_conflict (inner : StateInner) (object : ServerObject) (owner : StateOwner4)
    (locktype : NfsLockType4) (offset length : Z) (ignore_stateid : option Stateid4)
    : option LockDenied4 :=
  first_some (state_conflict object owner locktype offset length (other <$> ignore_stateid))
    (hm_iter (in_lock_files inner)).

Definition find_lock_conflict (object : ServerObject) (owner : StateOwner4)
    (locktype : NfsLockType4) (offset length : Z) (ignore_stateid : option Stateid4) (now : Z)
    (s : StateManager) : option LockDenied4 * StateManager :=
  let s := reap_expired_clients now s in
  (lock_conflict (sm_inner s) object owner locktype offset length ignore_stateid, s).

(** ** LOCK and LOCKU *)

Definition put_lock (other : bytes) (st : LockFileState) (s : StateManager) : StateManager :=
  with_inner (fun i => set_in_lock_files (<[other := st]> (in_lock_files i)) i) s.

Definition create_lock_state_guarded (open_stateid : Stateid4) (owner : StateOwner4)
    (object : ServerObject) (locktype : NfsLockType4) (offset length : Z) (s : StateManager)
    : result NfsStat4 Stateid4 * StateManager :=
  if is_retired s object then (Err NFS_Stale, s)
  else match in_open_files (sm_inner s) !! other open_stateid with
       | None => (Err NFS_Openmode, s)
       | Some open =>
         if negb (os_active open) || negb (bool_decide (os_object open = object))
         then (Err NFS_Openmode, s)
         else
           let '(seq, s) := alloc_stateid s in
           let other' := stateid_other seq (so_clientid owner) in
           let st := mkLockFileState object owner (other open_stateid)
                       [mkLockRange locktype offset length] true 1 in
           (Ok (mkStateid4 1 other'), put_lock other' st s)
       end.

Definition create_lock_state (open_stateid : Stateid4) (owner : StateOwner4)
    (object : ServerObject) (locktype : NfsLockType4) (offset length now : Z) (s : StateManager)
    : result NfsStat4 Stateid4 * StateManager :=
  let s := reap_expired_clients now s in
  match validate_lock_bounds offset length with
  | Err e => (Err e, s)
  | Ok _ => create_lock_state_guarded open_stateid owner object locktype offset length s
  end.

(** [None]: the merge panicked (excluded by [replace_lock_range_spec]).
    [stateid_seq += 1] is the wrapping addition of a release build. *)
Definition update_lock_state_guarded (lock_stateid : Stateid4) (locktype : NfsLockType4)
    (offset length : Z) (s : StateManager)
    : option (result NfsStat4 Stateid4 * StateManager) :=
  match in_lock_files (sm_inner s) !! other lock_stateid with
  | None => Some (Err NFS_BadStateid, s)
  | Some state =>
    match validate_stateid_seq (ls_stateid_seq state) (seqid lock_stateid) with
    | Err e => Some (Err e, s)
    | Ok _ =>
      match replace_lock_range (ls_ranges state) (mkLockRange locktype offset length) with
      | None => None
      | Some ranges =>
        let state := set_ls_ranges ranges state in
        let state := set_ls_active true state in
        let state := set_ls_stateid_seq (u32_wrap (ls_stateid_seq state + 1)) state in
        Some (Ok (mkStateid4 (ls_stateid_seq state) (other lock_stateid)),
              put_lock (other lock_stateid) state s)
      end
    end
  end.

Definition update_lock_state (lock_stateid : Stateid4) (locktype : NfsLockType4)
    (offset length now : Z) (s : StateManager)
    : option (result NfsStat4 Stateid4 * StateManager) :=
  let s := reap_expired_clients now s in
  match validate_lock_bounds offset length with
  | Err e => Some (Err e, s)
  | Ok _ => update_lock_state_guarded lock_stateid locktype offset length s
  end.

Definition unlock_state_guarded (lock_stateid : Stateid4) (offset length : Z) (s : StateManager)
    : result NfsStat4 Stateid4 * StateManager :=
  match in_lock_files (sm_inner s) !! other lock_stateid with
  | None => (Err NFS_BadStateid, s)
  | Some state =>
    match validate_stateid_seq (ls_stateid_seq state) (seqid lock_stateid) with
    | Err e => (Err e, s)
    | Ok _ =>
      let seq := u32_wrap (ls_stateid_seq state + 1) in
      if negb (existsb (fun range =>
                 locks_overlap (lr_offset range) (lr_length range) offset length)
                 (ls_ranges state)) then
        (Ok (mkStateid4 seq (other lock_stateid)),
         put_lock (other lock_stateid) (set_ls_stateid_seq seq state) s)
      else
        let next_ranges := cut_ranges offset length (ls_ranges state) in
        let state := set_ls_ranges next_ranges state in
        let state := set_ls_active (negb (bool_decide (next_ranges = []))) state in
        let state := set_ls_stateid_seq seq state in
        (Ok (mkStateid4 seq (other lock_stateid)), put_lock (other lock_stateid) state s)
    end
  end.

Definition unlock_state (lock_stateid : Stateid4) (offset length now : Z) (s : StateManager)
    : result NfsStat4 Stateid4 * StateManager :=
  let s := reap_expired_clients now s in
  match validate_lock_bounds offset length with
  | Err e => (Err e, s)
  | Ok _ => unlock_state_guarded lock_stateid offset length s
  end.
End with_order.

(** ** The abstract lock set *)

(** [p] is one of the bytes of the range. *)
Definition covers (r : LockRange) (p : Z) : Prop :=
  lr_offset r <= p < lock_end (lr_offset r) (lr_length r).

(** [p] is held with type [t]. *)
Definition held (rs : list LockRange) (p : Z) (t : NfsLockType4) : Prop :=
  exists r, r ∈ rs /\ covers r p /\ lr_locktype r = t.

(** The bytes the model speaks about. *)
Definition lockable (p : Z) : Prop := 0 <= p < u64_max.

Definition range_ok (r : LockRange) : Prop :=
  is_u64 (lr_offset r) /\ 0 < lr_length r <= u64_max /\
  (lr_length r = u64_max \/ lr_offset r + lr_length r <= u64_max).

(** Invariant of a lock state's ranges: valid ranges, and no byte is held with
    two types. *)
Record ranges_wf (rs : list LockRange) : Prop := {
  ranges_ok : Forall range_ok rs;
  ranges_functional : forall p t t', lockable p -> held rs p t -> held rs p t' -> t = t';
}.

(** ** Lemmas *)

Ltac lock_arith := unfold covers, lock_end, lockable, range_ok, is_u64, u64_max, u128_max in *.

Lemma validate_lock_bounds_ok offset length :
  is_u64 offset -> is_u64 length ->
  validate_lock_bounds offset length = Ok tt <-> range_ok (mkLockRange ReadLt offset length).
Proof.
  intros Ho Hl. unfold validate_lock_bounds. lock_arith. simpl.
  destruct (Z.eqb_spec length 0); simpl; [split; [done|lia]|].
  destruct (Z.eqb_spec length 18446744073709551615); simpl; [split; [lia|done]|].
  destruct (Z.ltb_spec 18446744073709551615 (offset + length)); split; try done; lia.
Qed.

Lemma range_ok_type t t' o l : range_ok (mkLockRange t o l) -> range_ok (mkLockRange t' o l).
Proof. done. Qed.

Lemma lock_end_ok r : range_ok r ->
  lr_offset r < lock_end (lr_offset r) (lr_length r) /\
  (lock_end (lr_offset r) (lr_length r) = u128_max \/
   lock_end (lr_offset r) (lr_length r) <= u64_max).
Proof.
  lock_arith. intros (? & ? & ?). destruct (Z.eqb_spec (lr_length r) 18446744073709551615); lia.
Qed.

(** Overlap in the source's sense is sharing a byte. *)
Lemma locks_overlap_spec r o l :
  range_ok r -> range_ok (mkLockRange ReadLt o l) ->
  locks_overlap (lr_offset r) (lr_length r) o l = true <->
  exists p, is_u64 p /\ covers r p /\ covers (mkLockRange ReadLt o l) p.
Proof.
  intros Hr Hn. unfold locks_overlap.
  pose proof (lock_end_ok _ Hr) as [He _]. pose proof (lock_end_ok _ Hn) as [He' _].
  unfold covers, range_ok, is_u64 in *. cbn [lr_offset lr_length] in *.
  rewrite andb_true_iff, !Z.ltb_lt. split; [|intros (p & ?); lia].
  intros [??]. exists (Z.max (lr_offset r) o). lia.
Qed.

Lemma range_from_bounds_spec t s e :
  is_u64 s -> (e = u128_max \/ 0 <= e <= u64_max) ->
  match range_from_bounds t s e with
  | None => e <= s
  | Some r => s < e /\ range_ok r /\ lr_locktype r = t /\ lr_offset r = s /\
              (forall p, lockable p -> covers r p <-> s <= p < e) /\
              (forall p, is_u64 p -> s <= p < e -> covers r p)
  end.
Proof.
  intros Hs He. unfold range_from_bounds. destruct (Z.leb_spec e s) as [|Hlt]; [done|].
  split; [done|]. destruct (Z.eqb_spec e u128_max) as [->|Hne].
  - lock_arith. simpl. repeat split; intros; lia.
  - rewrite u64_wrap_small by (unfold is_u64, u64_max in *; lia).
    lock_arith. simpl.
    destruct (Z.eqb_spec (e - s) 18446744073709551615); repeat split; intros; lia.
Qed.

Lemma held_nil p t : held [] p t <-> False.
Proof. split; [|done]. by intros (r & Hr%elem_of_nil & _). Qed.

Lemma held_cons r rs p t :
  held (r :: rs) p t <-> (covers r p /\ lr_locktype r = t) \/ held rs p t.
Proof. unfold held. setoid_rewrite elem_of_cons. naive_solver. Qed.

Lemma held_app rs rs' p t : held (rs ++ rs') p t <-> held rs p t \/ held rs' p t.
Proof. unfold held. setoid_rewrite elem_of_app. naive_solver. Qed.

#[export] Instance held_perm : Proper ((≡ₚ) ==> eq ==> eq ==> iff) held.
Proof.
  intros rs rs' Hp p ? <- t ? <-. unfold held. by setoid_rewrite Hp.
Qed.

Lemma insert_range_perm r l : insert_range r l ≡ₚ r :: l.
Proof.
  induction l as [|x l IH]; simpl; [done|]. destruct (_ <=? _); [done|].
  rewrite IH. apply Permutation_swap.
Qed.

Lemma sort_ranges_perm l : sort_ranges l ≡ₚ l.
Proof. induction l as [|x l IH]; simpl; [done|]. by rewrite insert_range_perm, IH. Qed.

Definition offset_le (a b : LockRange) : Prop := lr_offset a <= lr_offset b.

Lemma insert_range_sorted r l :
  Sorted offset_le l -> Sorted offset_le (insert_range r l).
Proof.
  induction 1 as [|x l Hs IH Hx]; simpl; [by repeat constructor|].
  destruct (Z.leb_spec (lr_offset r) (lr_offset x)) as [Hle|Hlt].
  - repeat constructor; done.
  - constructor; [done|]. destruct l as [|y l]; simpl; [constructor; unfold offset_le; lia|].
    inversion_clear Hx. destruct (_ <=? _); constructor; unfold offset_le in *; (lia || done).
Qed.

Lemma sort_ranges_sorted l : Sorted offset_le (sort_ranges l).
Proof. induction l; simpl; [constructor|by apply insert_range_sorted]. Qed.

(** Cutting a range out of another leaves the bytes outside the cut. *)
Lemma cut_range_spec o l r :
  range_ok r -> range_ok (mkLockRange ReadLt o l) ->
  Forall range_ok (cut_range o l r) /\
  forall p t, lockable p -> held (cut_range o l r) p t <->
    (covers r p /\ lr_locktype r = t) /\ ~ covers (mkLockRange ReadLt o l) p.
Proof.
  intros Hr Hn. unfold cut_range.
  destruct (locks_overlap _ _ _ _) eqn:Eo; simpl.
  - unfold locks_overlap in Eo. bool_to_prop.
    destruct (lock_end_ok _ Hr) as [Hr1 Hr2]. destruct (lock_end_ok _ Hn) as [Hn1 Hn2].
    cbn [lr_offset lr_length] in *.
    pose proof (range_from_bounds_spec (lr_locktype r) (lr_offset r) o (proj1 Hr)) as HL.
    destruct Hn as (Ho & Hl & _). cbn [lr_offset lr_length] in *.
    assert (Hob : o = u128_max \/ 0 <= o <= u64_max) by (right; unfold is_u64, u64_max in *; lia).
    specialize (HL Hob). clear Hob.
    destruct Hr as (Hro & _ & _). set (re := lock_end (lr_offset r) (lr_length r)) in *.
    set (ce := lock_end o l) in *.
    assert (HR : Forall range_ok (if ce =? u128_max then []
              else option_list (range_from_bounds (lr_locktype r) (u64_wrap ce) re)) /\
            forall p t, lockable p ->
              held (if ce =? u128_max then []
              else option_list (range_from_bounds (lr_locktype r) (u64_wrap ce) re)) p t <->
              ce <= p < re /\ lr_locktype r = t).
    { destruct (Z.eqb_spec ce u128_max) as [Hce|Hce].
      - split; [constructor|]. intros p t Hp. rewrite held_nil.
        unfold lockable, u64_max, u128_max in *. lia.
      - rewrite u64_wrap_small by (unfold is_u64, u64_max in *; lia).
        assert (Hcu : is_u64 ce) by (unfold is_u64, u64_max in *; lia).
        assert (Hre : re = u128_max \/ 0 <= re <= u64_max)
          by (unfold is_u64 in *; destruct Hr2; [by left|right; lia]).
        pose proof (range_from_bounds_spec (lr_locktype r) ce re Hcu Hre) as HR.
        destruct (range_from_bounds _ ce re) as [q|]; simpl.
        + destruct HR as (_ & Hq & Hty & _ & Hcov & _). split; [by constructor|].
          intros p t Hp. rewrite held_cons, held_nil, Hcov, Hty by done. tauto.
        + split; [constructor|]. intros p t Hp. rewrite held_nil. split; [done|lia]. }
    destruct HR as [HRok HRc].
    destruct (range_from_bounds _ _ o) as [q|]; simpl.
    + destruct HL as (_ & Hq & Hty & _ & Hcov & _). split; [by constructor|].
      intros p t Hp. rewrite held_cons, Hcov, Hty, HRc by done.
      unfold covers. cbn [lr_offset lr_length]. fold re ce.
      split; [intros [[??]|[??]]; repeat split; (done || lia)|intros [[? ->] ?]].
      destruct (Z.lt_ge_cases p o); [left; split; [lia|done]|right; split; [lia|done]].
    + split; [done|]. intros p t Hp. rewrite HRc by done.
      unfold covers. cbn [lr_offset lr_length]. fold re ce.
      split; [intros [??]; repeat split; (done || lia)|intros [[? ->] ?]; split; [lia|done]].
  - split; [by constructor|]. intros p t Hp. rewrite held_cons, held_nil.
    split; [|tauto]. intros [[Hc Ht]|[]]. split; [done|]. intros Hc'.
    enough (locks_overlap (lr_offset r) (lr_length r) o l = true) by congruence.
    apply locks_overlap_spec; [done..|]. exists p. split; [|done].
    unfold lockable, is_u64, u64_max in *. lia.
Qed.

Lemma cut_ranges_spec o l rs :
  Forall range_ok rs -> range_ok (mkLockRange ReadLt o l) ->
  Forall range_ok (cut_ranges o l rs) /\
  forall p t, lockable p -> held (cut_ranges o l rs) p t <->
    held rs p t /\ ~ covers (mkLockRange ReadLt o l) p.
Proof.
  intros Hrs Hn. unfold cut_ranges. induction Hrs as [|r rs Hr Hrs [IHok IHc]]; simpl.
  - split; [constructor|]. intros. rewrite held_nil. tauto.
  - destruct (cut_range_spec o l r Hr Hn) as [Hok Hc]. split; [by apply Forall_app|].
    intros p t Hp. rewrite held_app, held_cons, Hc, IHc by done. tauto.
Qed.

(** No byte outside the cut is lost, the last one included. *)
Lemma cut_range_keeps o l r p :
  range_ok r -> range_ok (mkLockRange ReadLt o l) -> is_u64 p -> covers r p ->
  ~ covers (mkLockRange ReadLt o l) p -> held (cut_range o l r) p (lr_locktype r).
Proof.
  intros Hr Hn Hp Hc Hout. unfold cut_range.
  destruct (locks_overlap _ _ _ _) eqn:Eo; simpl; [|rewrite held_cons; tauto].
  destruct (lock_end_ok _ Hr) as [_ Hr2]. destruct (lock_end_ok _ Hn) as [Hn1 Hn2].
  destruct Hr as (Hro & _ & _), Hn as (Ho & Hl & _).
  unfold covers in Hc, Hout. cbn [lr_offset lr_length] in *. rewrite held_app.
  destruct (Z.lt_ge_cases p o) as [Hlt|Hge]; [left|right].
  - pose proof (range_from_bounds_spec (lr_locktype r) (lr_offset r) o Hro) as HL.
    destruct (range_from_bounds _ _ _) as [q|]; simpl.
    + destruct HL as (_ & _ & <- & _ & _ & Hk); [right; unfold is_u64, u64_max in *; lia|].
      rewrite held_cons. left. split; [apply Hk; [done|lia]|done].
    + exfalso. enough (o <= lr_offset r) by lia. apply HL. right. unfold is_u64, u64_max in *. lia.
  - destruct (Z.eqb_spec (lock_end o l) u128_max) as [He|He].
    { exfalso. apply Hout. rewrite He. unfold is_u64, u128_max in *. lia. }
    rewrite u64_wrap_small by (unfold is_u64, u64_max in *; lia).
    pose proof (range_from_bounds_spec (lr_locktype r) (lock_end o l)
      (lock_end (lr_offset r) (lr_length r))) as HR.
    destruct (range_from_bounds _ _ _) as [q|]; simpl.
    + destruct HR as (_ & _ & <- & _ & _ & Hk); [unfold is_u64, u64_max in *; lia..|].
      rewrite held_cons. left. split; [apply Hk; [done|lia]|done].
    + exfalso. enough (lock_end (lr_offset r) (lr_length r) <= lock_end o l) by lia.
      apply HR; unfold is_u64, u64_max in *; lia.
Qed.

Lemma cut_ranges_keeps o l rs p t :
  Forall range_ok rs -> range_ok (mkLockRange ReadLt o l) -> is_u64 p -> held rs p t ->
  ~ covers (mkLockRange ReadLt o l) p -> held (cut_ranges o l rs) p t.
Proof.
  intros Hrs Hn Hp Hh Hout. unfold cut_ranges.
  induction Hrs as [|r rs Hr Hrs IH]; simpl; [done|].
  rewrite held_app. apply held_cons in Hh as [[Hc <-]|Hh]; [left|right; auto].
  by apply cut_range_keeps.
Qed.

(** The merge loop keeps the bytes and never panics on a sorted list of valid
    ranges. *)
Lemma normalize_loop rs acc :
  Forall range_ok acc -> Forall range_ok rs -> Sorted offset_le rs ->
  (forall last r, head acc = Some last -> head rs = Some r -> offset_le last r) ->
  exists out, foldl normalize_push (Some acc) rs = Some out /\ Forall range_ok out /\
    (forall p t, lockable p -> held out p t <-> held acc p t \/ held rs p t) /\
    (forall p t, is_u64 p -> held acc p t \/ held rs p t -> held out p t).
Proof.
  revert acc. induction rs as [|r rs IH]; intros acc Ha Hrs Hsort Hlast; simpl.
  { exists acc. split_and!; [done..| |]; setoid_rewrite held_nil; tauto. }
  inversion_clear Hrs as [|?? Hr Hrs']. inversion_clear Hsort as [|?? Hsort' Hhd].
  assert (Hnext : forall q r', lr_offset q <= lr_offset r -> head rs = Some r' -> offset_le q r').
  { intros q r' Hq Hr'. destruct rs as [|y ys]; [done|]. injection Hr' as ->.
    inversion_clear Hhd. unfold offset_le in *. lia. }
  destruct acc as [|last rest]; simpl.
  - destruct (IH [r]) as (out & Hf & Hok & Hc & Hk); [by constructor|done|done| |].
    { intros ? r' [= <-] Hr'. by apply Hnext. }
    exists out. split_and!; [done..| |]; intros p t Hp;
      [rewrite Hc by done|intros H; apply Hk; [done|revert H]];
      rewrite !held_cons, !held_nil; tauto.
  - inversion_clear Ha as [|?? Hl Hrest]. specialize (Hlast last r eq_refl eq_refl).
    destruct (bool_decide _ && _) eqn:Em.
    + bool_to_prop. destruct (lock_end_ok _ Hl) as [Hl1 Hl2]. destruct (lock_end_ok _ Hr) as [Hr1 Hr2].
      pose proof (range_from_bounds_spec (lr_locktype last) (lr_offset last)
        (Z.max (lock_end (lr_offset last) (lr_length last))
               (lock_end (lr_offset r) (lr_length r))) (proj1 Hl)) as HM.
      destruct (range_from_bounds _ _ _) as [merged|].
      * destruct HM as (_ & Hmok & Hmt & Hmo & Hmc & Hmk).
        { destruct Hl as [? _]. unfold is_u64, u64_max, u128_max in *. lia. }
        destruct (IH (merged :: rest)) as (out & Hf & Hok & Hc & Hk);
          [by constructor|done|done| |].
        { intros ? r' [= <-] Hr'. apply Hnext; [|done]. by rewrite Hmo. }
        match goal with H : lr_locktype last = _ |- _ => rename H into Htype end.
        exists out. split_and!; [done..| |]; intros p t Hp.
        -- rewrite Hc, !held_cons, Hmc, Hmt by done. unfold covers, offset_le in *.
           rewrite <- Htype. split; [|naive_solver lia].
           intros [[[[Hp1 Hp2] <-]|Hh]|Hh]; [|by auto..].
           destruct (Z.lt_ge_cases p (lock_end (lr_offset last) (lr_length last)));
             [by auto|right; left; split; [lia|done]].
        -- intros H. apply Hk; [done|]. revert H. rewrite !held_cons, Hmt, <- Htype.
           unfold offset_le in *. unfold covers at 1 2.
           intros [[[??]|?]|[[??]|?]]; [left; left|by auto|left; left|by auto];
             (split; [apply Hmk; [done|lia]|done]).
      * exfalso. enough (Z.max (lock_end (lr_offset last) (lr_length last))
               (lock_end (lr_offset r) (lr_length r)) <= lr_offset last) by lia.
        apply HM. destruct Hl as [? _]. unfold is_u64, u64_max, u128_max in *. lia.
    + destruct (IH (r :: last :: rest)) as (out & Hf & Hok & Hc & Hk);
        [by constructor; [|constructor]|done|done| |].
      { intros ? r' [= <-] Hr'. by apply Hnext. }
      exists out. split_and!; [done..| |]; intros p t Hp;
        [rewrite Hc by done|intros H; apply Hk; [done|revert H]]; rewrite !held_cons; tauto.
Qed.

Lemma normalize_lock_ranges_spec rs :
  Forall range_ok rs ->
  exists out, normalize_lock_ranges rs = Some out /\ Forall range_ok out /\
    (forall p t, lockable p -> held out p t <-> held rs p t) /\
    (forall p t, is_u64 p -> held rs p t -> held out p t).
Proof.
  intros Hrs. unfold normalize_lock_ranges.
  destruct (normalize_loop (sort_ranges rs) []) as (out & Hf & Hok & Hc & Hk).
  - constructor.
  - by rewrite sort_ranges_perm.
  - apply sort_ranges_sorted.
  - done.
  - exists (reverse out). rewrite Hf. split_and!; [done|by apply Forall_reverse| |];
      intros p t Hp; rewrite reverse_Permutation.
    + rewrite Hc, held_nil, sort_ranges_perm by done. tauto.
    + intros H. apply Hk; [done|]. rewrite sort_ranges_perm. by right.
Qed.

Lemma replace_lock_range_spec rs r :
  Forall range_ok rs -> range_ok r ->
  exists out, replace_lock_range rs r = Some out /\ Forall range_ok out /\
    (forall p t, lockable p -> held out p t <->
      (covers r p /\ lr_locktype r = t) \/ (held rs p t /\ ~ covers r p)) /\
    (forall p t, is_u64 p ->
      (covers r p /\ lr_locktype r = t) \/ (held rs p t /\ ~ covers r p) -> held out p t).
Proof.
  intros Hrs Hr. unfold replace_lock_range.
  destruct (cut_ranges_spec (lr_offset r) (lr_length r) rs Hrs Hr) as [Hok Hc].
  destruct (normalize_lock_ranges_spec
              (cut_ranges (lr_offset r) (lr_length r) rs ++ [r])) as (out & Hn & Hout & Hh & Hk).
  { apply Forall_app. split; [done|by constructor]. }
  exists out. split_and!; [done..| |]; intros p t Hp.
  - rewrite Hh, held_app, held_cons, held_nil, Hc by done.
    change (covers (mkLockRange ReadLt (lr_offset r) (lr_length r)) p) with (covers r p). tauto.
  - intros H. apply Hk; [done|]. rewrite held_app, held_cons.
    destruct H as [H|[H Hout']]; [tauto|left]. by apply cut_ranges_keeps.
Qed.

Lemma ranges_wf_cut o l rs :
  range_ok (mkLockRange ReadLt o l) -> ranges_wf rs -> ranges_wf (cut_ranges o l rs).
Proof.
  intros Hn [Hok Hf]. destruct (cut_ranges_spec o l rs Hok Hn) as [Hok' Hc].
  split; [done|]. intros p t t' Hp H1 H2. rewrite Hc in H1, H2 by done.
  by apply (Hf p); [done|destruct H1|destruct H2].
Qed.

Lemma ranges_wf_replace rs r out :
  ranges_wf rs -> range_ok r -> replace_lock_range rs r = Some out -> ranges_wf out.
Proof.
  intros [Hok Hf] Hr Ho. destruct (replace_lock_range_spec rs r Hok Hr) as (? & Ho' & Hout & Hc & _).
  rewrite Ho in Ho'. injection Ho' as <-. split; [done|]. intros p t t' Hp H1 H2.
  rewrite Hc in H1, H2 by done.
  destruct H1 as [[H1 <-]|[H1 Hn1]], H2 as [[H2 <-]|[H2 Hn2]]; try done. by apply (Hf p).
Qed.

Lemma ranges_wf_singleton r : range_ok r -> ranges_wf [r].
Proof.
  intros Hr. split; [by constructor|]. intros p t t' _.
  rewrite !held_cons, !held_nil. by intros [[_ <-]|[]] [[_ <-]|[]].
Qed.

(** The lock table: every state's ranges are well formed, and a live state
    holds at least one range. *)
Definition locks_wf (m : gmap bytes LockFileState) : Prop :=
  forall k st, m !! k = Some st ->
    ranges_wf (ls_ranges st) /\ (ls_active st = true -> ls_ranges st <> []).

Lemma locks_wf_range m k st r :
  locks_wf m -> m !! k = Some st -> r ∈ ls_ranges st -> range_ok r.
Proof.
  intros Hw Hk Hr. destruct (Hw _ _ Hk) as [[Hok _] _].
  rewrite Forall_forall in Hok. by apply Hok, list_elem_of_In.
Qed.

Lemma locks_wf_sub m m' :
  (forall k st, m' !! k = Some st -> m !! k = Some st) -> locks_wf m -> locks_wf m'.
Proof. intros Hs Hw k st Hk. by apply (Hw k), Hs. Qed.

Lemma locks_wf_empty : locks_wf ∅.
Proof. intros k st. by rewrite lookup_empty. Qed.

Lemma locks_wf_insert m k st :
  ranges_wf (ls_ranges st) -> (ls_active st = true -> ls_ranges st <> []) ->
  locks_wf m -> locks_wf (<[k := st]> m).
Proof.
  intros Hr Ha Hw j st' Hj. apply lookup_insert_Some in Hj as [[_ <-]|[_ Hj]]; [done|].
  by apply (Hw j).
Qed.

Lemma normalize_push_nonempty rs acc out :
  foldl normalize_push acc rs = Some out -> acc <> Some [] \/ rs <> [] -> out <> [].
Proof.
  revert acc. induction rs as [|r rs IH]; intros acc; simpl.
  - intros -> [Hn|]; congruence.
  - intros Hf _. apply (IH _ Hf). left. unfold normalize_push.
    destruct acc as [[|last rest]|]; [done| |done]. destruct (_ && _); [|done].
    by destruct (range_from_bounds _ _ _).
Qed.

Lemma replace_lock_range_nonempty rs r out :
  replace_lock_range rs r = Some out -> out <> [].
Proof.
  unfold replace_lock_range, normalize_lock_ranges.
  destruct (foldl _ _ _) as [l|] eqn:E; [|done]. intros [= <-] Hn%(f_equal reverse).
  rewrite reverse_involutive in Hn. revert Hn. apply (normalize_push_nonempty _ _ _ E).
  right. intros Hs%(f_equal length). rewrite sort_ranges_perm, length_app in Hs. simpl in Hs. lia.
Qed.

Section conflicts.
Context {ho : HashOrder}.

Lemma first_some_None {A B} (f : A -> option B) l :
  first_some f l = None <-> forall x, x ∈ l -> f x = None.
Proof.
  induction l as [|x l IH]; simpl; [split; [by intros _ x ?%elem_of_nil|done]|].
  setoid_rewrite elem_of_cons. destruct (f x) eqn:E; [|rewrite IH; naive_solver].
  split; [done|]. intros H. rewrite <- E. apply H. by left.
Qed.

Lemma first_some_Some {A B} (f : A -> option B) l b :
  first_some f l = Some b -> exists x, x ∈ l /\ f x = Some b.
Proof.
  induction l as [|x l IH]; simpl; [done|]. destruct (f x) eqn:E.
  - intros [= ->]. exists x. split; [by left|done].
  - intros (y & Hy & Hf)%IH. exists y. split; [by right|done].
Qed.

(** Lock states that count against a request of [owner] on [object]. *)
Definition competing (object : ServerObject) (owner : StateOwner4) (ignore : option bytes)
    (k : bytes) (st : LockFileState) : Prop :=
  Some k <> ignore /\ ls_active st = true /\ ls_object st = object /\ ls_owner st <> owner.

Lemma same_lock_owner_true a b : same_lock_owner a b = true <-> a = b.
Proof.
  unfold same_lock_owner. destruct a, b. simpl. split.
  - intros. bool_to_prop. by subst.
  - intros [= -> ->]. by rewrite Z.eqb_refl, bool_decide_eq_true_2.
Qed.

Lemma state_conflict_Some object owner t o l ign k st d :
  state_conflict object owner t o l ign (k, st) = Some d ->
  competing object owner ign k st /\
  exists r, r ∈ ls_ranges st /\ range_conflict t o l r = true /\
    d = mkLockDenied4 (lr_offset r) (lr_length r) (lr_locktype r) (ls_owner st).
Proof.
  unfold state_conflict, is_ignored, competing.
  case_bool_decide; [done|]. destruct (ls_active st); [|done]. simpl.
  case_bool_decide; [|done]. simpl.
  destruct (same_lock_owner (ls_owner st) owner) eqn:Eo; [done|].
  destruct (List.find _ _) as [r|] eqn:Ef; [|done]. intros [= <-].
  apply find_some in Ef as [Hin Hr]. split.
  - split_and!; try done. intros He%same_lock_owner_true. congruence.
  - exists r. split_and!; [by apply list_elem_of_In|done|done].
Qed.

Lemma state_conflict_None object owner t o l ign k st :
  state_conflict object owner t o l ign (k, st) = None ->
  competing object owner ign k st ->
  forall r, r ∈ ls_ranges st -> range_conflict t o l r = false.
Proof.
  unfold state_conflict, is_ignored. intros Hn (Hi & Ha & Hob & How) r Hr.
  rewrite bool_decide_eq_false_2, Ha, bool_decide_eq_true_2 in Hn by done. simpl in Hn.
  destruct (same_lock_owner (ls_owner st) owner) eqn:Eo; [by apply same_lock_owner_true in Eo|].
  destruct (List.find _ _) eqn:Ef; [done|].
  apply (find_none _ _ Ef). by apply list_elem_of_In.
Qed.

(** Two requests for the same byte exclude each other unless both are reads. *)
Definition types_conflict (t t' : NfsLockType4) : Prop :=
  is_write_lock t = true \/ is_write_lock t' = true.

(** When no conflict is found, no competitor holds a byte in the way. *)
Lemma lock_conflict_none i object owner t o l ign :
  locks_wf (in_lock_files i) -> range_ok (mkLockRange t o l) ->
  lock_conflict i object owner t o l ign = None ->
  forall k st p t', in_lock_files i !! k = Some st -> competing object owner (other <$> ign) k st ->
    is_u64 p -> covers (mkLockRange t o l) p -> held (ls_ranges st) p t' -> ~ types_conflict t t'.
Proof.
  intros Hwf Hr Hn k st p t' Hk Hcomp Hp Hcov (r & Hin & Hrp & <-) Hty.
  unfold lock_conflict in Hn. rewrite first_some_None in Hn.
  specialize (Hn (k, st) (proj2 (elem_of_hm_iter _ _ _) Hk)).
  pose proof (state_conflict_None _ _ _ _ _ _ _ _ Hn Hcomp r Hin) as Hc.
  unfold range_conflict in Hc.
  rewrite (proj2 (locks_overlap_spec r o l (locks_wf_range _ _ _ _ Hwf Hk Hin) Hr)) in Hc
    by (by exists p).
  simpl in Hc. bool_to_prop. destruct Hty; congruence.
Qed.

(** C32. Conflict detection is sound and complete for byte sharing: on a
    well-formed lock table and for a valid request, [find_lock_conflict]
    reports no conflict exactly when no byte of the requested range is held by
    a live lock of another owner on the same object where one of the two locks
    is a write lock; and when it reports one, the denied range is one such
    lock's range, with its owner. *)
Theorem lock_conflict_exact i object owner t o l ign :
  locks_wf (in_lock_files i) -> range_ok (mkLockRange t o l) ->
  (lock_conflict i object owner t o l ign = None <->
   forall k st p t', in_lock_files i !! k = Some st -> competing object owner (other <$> ign) k st ->
     is_u64 p -> covers (mkLockRange t o l) p -> held (ls_ranges st) p t' ->
     ~ types_conflict t t') /\
  (forall d, lock_conflict i object owner t o l ign = Some d ->
   exists k st p, in_lock_files i !! k = Some st /\ competing object owner (other <$> ign) k st /\
     is_u64 p /\ covers (mkLockRange t o l) p /\
     mkLockRange (ld_locktype d) (ld_offset d) (ld_length d) ∈ ls_ranges st /\
     covers (mkLockRange (ld_locktype d) (ld_offset d) (ld_length d)) p /\
     types_conflict t (ld_locktype d) /\ ld_owner d = ls_owner st).
Proof.
  intros Hwf Hr. split; [split|].
  - by apply lock_conflict_none.
  - intros Hnone. unfold lock_conflict. apply first_some_None. intros [k st] Hk%elem_of_hm_iter.
    destruct (state_conflict _ _ _ _ _ _ _) as [d|] eqn:E; [|done]. exfalso.
    apply state_conflict_Some in E as (Hcomp & r & Hin & Hrc & _).
    unfold range_conflict in Hrc. apply andb_prop in Hrc as [Hov Hty].
    apply locks_overlap_spec in Hov as (p & Hp & H1 & H2); [|by eapply locks_wf_range|done].
    apply (Hnone k st p (lr_locktype r) Hk Hcomp Hp H2); [by exists r|].
    apply orb_prop in Hty. unfold types_conflict. tauto.
  - unfold lock_conflict. intros d ([k st] & Hk%elem_of_hm_iter & E)%first_some_Some.
    apply state_conflict_Some in E as (Hcomp & r & Hin & Hrc & ->).
    unfold range_conflict in Hrc. apply andb_prop in Hrc as [Hov Hty].
    apply locks_overlap_spec in Hov as (p & Hp & H1 & H2); [|by eapply locks_wf_range|done].
    exists k, st, p. simpl. destruct r as [rt ro rl]. split_and!; try done.
    apply orb_prop in Hty. unfold types_conflict. simpl in *. tauto.
Qed.
End conflicts.

Section lock_ops.
Context {ho : HashOrder}.

Lemma reap_locks now s k st :
  deleg_wf (sm_inner s) ->
  in_lock_files (sm_inner (reap_expired_clients now s)) !! k = Some st ->
  in_lock_files (sm_inner s) !! k = Some st.
Proof.
  intros Hd. unfold reap_expired_clients. simpl.
  destruct (reap_expired_clients_spec (sm_config s) now (sm_inner s) Hd) as ([_ Hl _ _ _] & _).
  rewrite Hl. by intros [? _]%lookup_hm_retain_Some.
Qed.

(** The effect of a successful LOCK or LOCKU on the lock table: only the
    named state changes; below the last byte it holds exactly [spec], and at the
    last byte at least [spec]; its sequence number moves by one. *)
Definition relocked (sid : Stateid4) (old : StateManager) (res : Stateid4) (new : StateManager)
    (spec : LockFileState -> Z -> NfsLockType4 -> Prop) : Prop :=
  exists st st',
    in_lock_files (sm_inner old) !! other sid = Some st /\
    sm_inner new = set_in_lock_files (<[other sid := st']> (in_lock_files (sm_inner old)))
                     (sm_inner old) /\
    res = mkStateid4 (ls_stateid_seq st') (other sid) /\
    ls_stateid_seq st' = u32_wrap (ls_stateid_seq st + 1) /\
    ls_object st' = ls_object st /\ ls_owner st' = ls_owner st /\
    ls_open_state_other st' = ls_open_state_other st /\
    (forall p t, lockable p -> held (ls_ranges st') p t <-> spec st p t) /\
    (forall p t, is_u64 p -> spec st p t -> held (ls_ranges st') p t).

(** C38. LOCK by an existing lock owner never panics and updates the bytes held
    below the last one, 2^64-1, pointwise: on a well-formed lock table, whatever
    the arguments, it either fails and leaves the state as the lease reaper left
    it, or afterwards every byte of the requested range is held with the
    requested type and every other byte below 2^64-1 exactly as before, in that
    lock state alone.  At the byte 2^64-1 nothing that the pointwise update holds
    is lost, but more may be held: [merge_covers_last_byte] shows the range
    that the merge extends over it. *)
Theorem update_lock_state_refines sid t o l now s :
  deleg_wf (sm_inner s) -> locks_wf (in_lock_files (sm_inner s)) -> is_u64 o -> is_u64 l ->
  exists r s', update_lock_state sid t o l now s = Some (r, s') /\
    match r with
    | Err _ => s' = reap_expired_clients now s
    | Ok sid' => relocked sid (reap_expired_clients now s) sid' s' (fun st p t' =>
        (covers (mkLockRange t o l) p /\ t = t') \/
        (held (ls_ranges st) p t' /\ ~ covers (mkLockRange t o l) p))
    end.
Proof.
  intros Hd Hwf Ho Hl. unfold update_lock_state. set (s1 := reap_expired_clients now s).
  destruct (validate_lock_bounds o l) as [[]|e] eqn:Hv; [|by exists (Err e), s1].
  apply validate_lock_bounds_ok in Hv; [|done..].
  unfold update_lock_state_guarded.
  destruct (in_lock_files (sm_inner s1) !! other sid) as [st|] eqn:Hk; [|by eexists _, _].
  destruct (validate_stateid_seq _ _); [|by eexists _, _].
  destruct (Hwf _ st (reap_locks _ _ _ _ Hd Hk)) as [[Hok _] _].
  destruct (replace_lock_range_spec (ls_ranges st) (mkLockRange t o l) Hok Hv)
    as (out & -> & _ & Hout & Hkeep).
  eexists _, _. split; [done|]. exists st. eexists. split_and!; try done.
Qed.

(** LOCKU is a pointwise removal below the last byte: on a well-formed lock
    table it either fails and leaves the state as the reaper left it, or
    afterwards no byte below 2^64-1 of the given range is held in that lock state
    and every other byte is held as before, in that lock state alone; at the last
    byte nothing outside the given range is lost. *)
Theorem unlock_state_refines sid o l now s :
  deleg_wf (sm_inner s) -> locks_wf (in_lock_files (sm_inner s)) -> is_u64 o -> is_u64 l ->
  match unlock_state sid o l now s with
  | (Err _, s') => s' = reap_expired_clients now s
  | (Ok sid', s') => relocked sid (reap_expired_clients now s) sid' s' (fun st p t =>
      held (ls_ranges st) p t /\ ~ covers (mkLockRange ReadLt o l) p)
  end.
Proof.
  intros Hd Hwf Ho Hl. unfold unlock_state. set (s1 := reap_expired_clients now s).
  destruct (validate_lock_bounds o l) as [[]|e] eqn:Hv; [|done].
  apply validate_lock_bounds_ok in Hv; [|done..].
  unfold unlock_state_guarded.
  destruct (in_lock_files (sm_inner s1) !! other sid) as [st|] eqn:Hk; [|done].
  destruct (validate_stateid_seq _ _); [|done].
  destruct (Hwf _ st (reap_locks _ _ _ _ Hd Hk)) as [[Hok _] _].
  destruct (existsb _ _) eqn:Eo; simpl.
  - exists st. eexists. split_and!; try done; [by apply cut_ranges_spec|].
    intros p t Hp [Hh Hout]. by apply cut_ranges_keeps.
  - exists st. eexists. split_and!; try done; simpl; [|tauto].
    intros p t Hp. split; [|tauto].
    intros Hh. split; [done|]. intros Hc. destruct Hh as (r & Hin & Hr & _).
    enough (existsb (fun range => locks_overlap (lr_offset range) (lr_length range) o l)
              (ls_ranges st) = true) by congruence.
    apply existsb_exists. exists r. split; [by apply list_elem_of_In|].
    apply locks_overlap_spec; [|done|].
    + rewrite Forall_forall in Hok. by apply Hok, list_elem_of_In.
    + exists p. split; [unfold lockable, is_u64, u64_max in *; lia|done].
Qed.

(** The operations keep the lock table well formed. *)
Lemma create_lock_wf osid owner object t o l s :
  range_ok (mkLockRange t o l) -> locks_wf (in_lock_files (sm_inner s)) ->
  locks_wf (in_lock_files (sm_inner (create_lock_state_guarded osid owner object t o l s).2)).
Proof.
  intros Hr Hwf. unfold create_lock_state_guarded. destruct (is_retired s object); [done|].
  destruct (in_open_files (sm_inner s) !! other osid); [|done]. destruct (_ || _); [done|].
  apply locks_wf_insert; [by apply ranges_wf_singleton|done|done].
Qed.

Lemma update_lock_wf sid t o l s r s' :
  range_ok (mkLockRange t o l) -> locks_wf (in_lock_files (sm_inner s)) ->
  update_lock_state_guarded sid t o l s = Some (r, s') ->
  locks_wf (in_lock_files (sm_inner s')).
Proof.
  intros Hr Hwf. unfold update_lock_state_guarded.
  destruct (in_lock_files (sm_inner s) !! other sid) as [st|] eqn:Hk; [|by intros [= <- <-]].
  destruct (validate_stateid_seq _ _); [|by intros [= <- <-]].
  destruct (replace_lock_range _ _) as [out|] eqn:Eo; [|done]. intros [= <- <-].
  destruct (Hwf _ _ Hk) as [Hw _]. apply locks_wf_insert; simpl; [|intros _|done].
  - by eapply ranges_wf_replace.
  - by eapply replace_lock_range_nonempty.
Qed.

Lemma unlock_wf sid o l s :
  range_ok (mkLockRange ReadLt o l) -> locks_wf (in_lock_files (sm_inner s)) ->
  locks_wf (in_lock_files (sm_inner (unlock_state_guarded sid o l s).2)).
Proof.
  intros Hr Hwf. unfold unlock_state_guarded.
  destruct (in_lock_files (sm_inner s) !! other sid) as [st|] eqn:Hk; [|done].
  destruct (validate_stateid_seq _ _); [|done]. destruct (Hwf _ _ Hk) as [Hw Ha].
  destruct (negb _); simpl; apply locks_wf_insert; simpl; try done.
  - by apply ranges_wf_cut.
  - intros Hn. by bool_to_prop.
Qed.
End lock_ops.

(** ** Concrete instances *)

(** A server on which owner 5 holds a read lock on bytes 0..99 of object 3. *)
Definition example_lock_key : bytes := stateid_other 1 5.
Definition example_lock : LockFileState :=
  mkLockFileState (Fs 3) (mkStateOwner4 5 [1]) (stateid_other 9 5)
    [mkLockRange ReadLt 0 100] true 1.
Definition example_locked : StateManager := put_lock example_lock_key example_lock example_boot.

Lemma example_locked_wf :
  deleg_wf (sm_inner example_locked) /\ locks_wf (in_lock_files (sm_inner example_locked)).
Proof.
  split; [by apply deleg_wf_empty|].
  apply locks_wf_insert; [|done|apply locks_wf_empty].
  apply ranges_wf_singleton. lock_arith. simpl. lia.
Qed.

(** Another owner asking for a write lock on bytes 50..59 is denied. *)
Lemma lock_conflict_exact_witness :
  exists k st p,
    in_lock_files (sm_inner example_locked) !! k = Some st /\
    competing (Fs 3) (mkStateOwner4 6 [1]) None k st /\ is_u64 p /\
    covers (mkLockRange WriteLt 50 10) p /\
    mkLockRange ReadLt 0 100 ∈ ls_ranges st /\ covers (mkLockRange ReadLt 0 100) p /\
    types_conflict WriteLt ReadLt /\ mkStateOwner4 5 [1] = ls_owner st.
Proof.
  apply (proj2 (@lock_conflict_exact canonical_order (sm_inner example_locked) (Fs 3)
           (mkStateOwner4 6 [1]) WriteLt 50 10 None (proj2 example_locked_wf)
           ltac:(lock_arith; simpl; lia))
           (mkLockDenied4 0 100 ReadLt (mkStateOwner4 5 [1]))).
  vm_compute. reflexivity.
Defined.

Lemma update_lock_state_refines_witness :
  exists r s',
    @update_lock_state canonical_order (mkStateid4 1 example_lock_key) WriteLt 50 10 0
      example_locked = Some (r, s') /\
    match r with
    | Err _ => s' = @reap_expired_clients canonical_order 0 example_locked
    | Ok sid' => relocked (mkStateid4 1 example_lock_key)
        (@reap_expired_clients canonical_order 0 example_locked) sid' s' (fun st p t' =>
        (covers (mkLockRange WriteLt 50 10) p /\ WriteLt = t') \/
        (held (ls_ranges st) p t' /\ ~ covers (mkLockRange WriteLt 50 10) p))
    end /\ r = Ok (mkStateid4 2 example_lock_key).
Proof.
  destruct (@update_lock_state_refines canonical_order (mkStateid4 1 example_lock_key) WriteLt
    50 10 0 example_locked (proj1 example_locked_wf) (proj2 example_locked_wf)
    ltac:(lock_arith; lia) ltac:(lock_arith; lia)) as (r & s' & Heq & Hr).
  exists r, s'. split; [exact Heq|]. split; [exact Hr|].
  revert Heq. vm_compute. by intros [= <- _].
Defined.

Lemma unlock_state_refines_witness :
  exists s', @unlock_state canonical_order (mkStateid4 0 example_lock_key) 50 10 0 example_locked
    = (Ok (mkStateid4 2 example_lock_key), s') /\
  relocked (mkStateid4 0 example_lock_key)
    (@reap_expired_clients canonical_order 0 example_locked) (mkStateid4 2 example_lock_key) s'
    (fun st p t => held (ls_ranges st) p t /\ ~ covers (mkLockRange ReadLt 50 10) p).
Proof.
  pose proof (@unlock_state_refines canonical_order (mkStateid4 0 example_lock_key)
    50 10 0 example_locked (proj1 example_locked_wf) (proj2 example_locked_wf)
    ltac:(lock_arith; lia) ltac:(lock_arith; lia)) as H.
  destruct (unlock_state _ _ _ _ _) as [r s'] eqn:E.
  assert (r = Ok (mkStateid4 2 example_lock_key)) as ->.
  { apply (f_equal fst) in E. revert E. vm_compute. congruence. }
  exists s'. split; [reflexivity|exact H].
Defined.

(** The byte the refinement leaves out: merging a lock on bytes
    0..2^63-1 with one of the same type on bytes 2^63..2^64-2 stores a range
    of length 2^64-1, which every later reading takes as "to the end of the
    file": byte 2^64-1, which neither request covers, is then held too. *)
Theorem merge_covers_last_byte :
  let a := mkLockRange WriteLt 0 9223372036854775808 in
  let b := mkLockRange WriteLt 9223372036854775808 9223372036854775807 in
  range_ok a /\ range_ok b /\ ~ covers a u64_max /\ ~ covers b u64_max /\
  exists out, replace_lock_range [a] b = Some out /\ held out u64_max WriteLt.
Proof.
  cbv zeta. lock_arith. simpl. split_and!; try lia.
  exists [mkLockRange WriteLt 0 18446744073709551615]. split; [vm_compute; reflexivity|].
  eexists. split; [by left|]. split; [|done]. lock_arith. simpl. lia.
Qed.

(** The same merge makes one lock state hold the last byte with two types: a
    write lock on byte 2^64-1 to the end of the file, then read locks on the
    bytes 0..2^63-1 and 2^63..2^64-2, none of which overlaps another. *)
Theorem last_byte_two_types :
  let w := mkLockRange WriteLt 18446744073709551615 18446744073709551615 in
  let r1 := mkLockRange ReadLt 0 9223372036854775808 in
  let r2 := mkLockRange ReadLt 9223372036854775808 9223372036854775807 in
  (range_ok w /\ range_ok r1 /\ range_ok r2) /\ ~ covers r1 u64_max /\ ~ covers r2 u64_max /\
  exists out, (replace_lock_range [w] r1 ≫= fun rs => replace_lock_range rs r2) = Some out /\
    held out u64_max WriteLt /\ held out u64_max ReadLt.
Proof.
  cbv zeta. split_and!; [lock_arith; simpl; lia..|].
  eexists. split; [vm_compute; reflexivity|].
  rewrite !held_cons, held_nil. lock_arith. simpl. split; [right; left|left]; (split; [lia|done]).
Qed.
