(* ===== verification/Delegations.v ===== *)
(** * Directory delegations (session/delegations.rs)

    Granting, returning, purging, recalling and revoking directory
    delegations.  The helpers that run under the state lock and the index
    invariant are in [DelegTable]. *)

From stdpp Require Import base gmap list sets strings numbers.
From Stdlib Require Import ZArith Lia.
From S2P Require Import Prelude Xdr Rpc Types StateModel DelegTable Clients Stateids Opens.

Local Open Scope Z_scope.

(** ** Operations *)

Section with_order.
Context {ho : HashOrder}.

(** Inserting a fresh delegation into the table and both indexes. *)
Definition insert_delegation (other : bytes) (d : DelegationState) (inner : StateInner)
    : StateInner :=
  let inner := set_in_delegations (<[other := d]> (in_delegations inner)) inner in
  let inner := set_in_dir_delegations
                 (index_insert (ds_object d) other (in_dir_delegations inner)) inner in
  set_in_client_delegations
    (index_insert (ds_clientid d) other (in_client_delegations inner)) inner.

(** The insertion shared by the two ways to grant: mint a stateid, record the
    grant time. *)
Definition mint_delegation (object : ServerObject) (clientid : Z) (sessionid : option bytes)
    (granted_at : Z) (s : StateManager) : Stateid4 * StateManager :=
  let '(seq, s) := alloc_stateid s in
  let other := stateid_other seq clientid in
  let d := mkDelegationState object clientid sessionid 1 DirectoryRead Granted granted_at None in
  (mkStateid4 1 other, with_inner (insert_delegation other d) s).

Definition create_directory_delegation_guarded (object : ServerObject) (clientid : Z)
    (sessionid : option bytes) (now : Z) (s : StateManager)
    : result NfsStat4 Stateid4 * StateManager :=
  if is_retired s object then (Err NFS_Stale, s)
  else match find_live_directory_delegation (sm_inner s) object clientid with
       | Some other =>
         match in_delegations (sm_inner s) !! other with
         | None => (Err NFS_BadStateid, s)
         | Some state => (Ok (mkStateid4 (ds_stateid_seq state) other), s)
         end
       | None =>
         let '(sid, s) := mint_delegation object clientid sessionid now s in (Ok sid, s)
       end.

Definition create_directory_delegation (object : ServerObject) (clientid : Z)
    (sessionid : option bytes) (now now' : Z) (s : StateManager) :=
  create_directory_delegation_guarded object clientid sessionid now' (reap_expired_clients now s).

Definition client_live_count (inner : StateInner) (clientid : Z) : nat :=
  match in_client_delegations inner !! clientid with
  | Some others => hs_count (is_live_delegation inner) others
  | None => 0
  end.

Definition total_live_count (inner : StateInner) : nat :=
  hm_count (fun _ state => is_live_delegation_status (ds_status state)) (in_delegations inner).

Definition grant_directory_delegation_guarded (object : ServerObject) (clientid : Z)
    (sessionid : option bytes) (max_per_client max_total now : Z) (s : StateManager)
    : result NfsStat4 DirectoryDelegationGrant * StateManager :=
  if is_retired s object then (Err NFS_Stale, s)
  else match find_live_directory_delegation (sm_inner s) object clientid with
       | Some _ => (Ok Grant_AlreadyHeld, s)
       | None =>
         if has_recall_in_progress (sm_inner s) object then (Ok Grant_Unavailable, s)
         else if max_per_client <=? Z.of_nat (client_live_count (sm_inner s) clientid)
         then (Ok Grant_Unavailable, s)
         else if max_total <=? Z.of_nat (total_live_count (sm_inner s))
         then (Ok Grant_Unavailable, s)
         else
           let '(sid, s) := mint_delegation object clientid sessionid now s in
           (Ok (Grant_Granted sid), s)
       end.

Definition grant_directory_delegation (object : ServerObject) (clientid : Z)
    (sessionid : option bytes) (max_per_client max_total now now' : Z) (s : StateManager) :=
  grant_directory_delegation_guarded object clientid sessionid max_per_client max_total now'
    (reap_expired_clients now s).

Definition put_delegation (other : bytes) (d : DelegationState) (s : StateManager)
    : StateManager :=
  with_inner (fun i => set_in_delegations (<[other := d]> (in_delegations i)) i) s.

Definition return_delegation_state_guarded (stateid : Stateid4) (clientid : option Z)
    (s : StateManager) : result NfsStat4 unit * StateManager :=
  match in_delegations (sm_inner s) !! other stateid with
  | None => (Err NFS_BadStateid, s)
  | Some state =>
    match validate_stateid_seq (ds_stateid_seq state) (seqid stateid) with
    | Err e => (Err e, s)
    | Ok _ =>
      if wrong_client clientid (ds_clientid state) then (Err NFS_BadStateid, s)
      else if bool_decide (ds_status state = Revoked) then (Err NFS_DelegRevoked, s)
      else
        let s := put_delegation (other stateid) (set_ds_status Returned state) s in
        (Ok tt, with_inner (fun i => (remove_delegation_locked i (other stateid)).1) s)
    end
  end.

Definition return_delegation_state (stateid : Stateid4) (clientid : option Z) (now : Z)
    (s : StateManager) :=
  return_delegation_state_guarded stateid clientid (reap_expired_clients now s).

Definition purge_client_delegations (clientid now : Z) (s : StateManager) : StateManager :=
  with_inner (fun i => remove_client_delegations_locked i clientid) (reap_expired_clients now s).

Definition revoke_delegation_state_guarded (stateid : Stateid4) (s : StateManager)
    : result NfsStat4 unit * StateManager :=
  match in_delegations (sm_inner s) !! other stateid with
  | None => (Err NFS_BadStateid, s)
  | Some state =>
    match validate_stateid_seq (ds_stateid_seq state) (seqid stateid) with
    | Err e => (Err e, s)
    | Ok _ => (Ok tt, put_delegation (other stateid) (set_ds_status Revoked state) s)
    end
  end.

Definition revoke_delegation_state (stateid : Stateid4) (now : Z) (s : StateManager) :=
  revoke_delegation_state_guarded stateid (reap_expired_clients now s).

(** One turn of the recall loop. *)
Definition recall_one (now : Z) (excluded_clientid : option Z)
    (acc : gmap bytes DelegationState * list DirectoryDelegationRecall) (other : bytes)
    : gmap bytes DelegationState * list DirectoryDelegationRecall :=
  let '(table, recalls) := acc in
  match table !! other with
  | None => acc
  | Some state =>
    if negb (bool_decide (ds_kind state = DirectoryRead)) then acc
    else
      let recall send_callback :=
        mkDirectoryDelegationRecall (mkStateid4 (ds_stateid_seq state) other)
          (ds_clientid state) send_callback in
      match ds_status state with
      | Granted =>
        if bool_decide (excluded_clientid = Some (ds_clientid state)) then acc
        else (<[other := set_ds_last_recall_at (Some now)
                           (set_ds_status RecallInProgress state)]> table,
              recalls ++ [recall true])
      | RecallInProgress => (table, recalls ++ [recall false])
      | Returned | Revoked => acc
      end
  end.

Definition begin_directory_recall_guarded (object : ServerObject) (excluded_clientid : option Z)
    (now : Z) (s : StateManager) : list DirectoryDelegationRecall * StateManager :=
  let others := default ∅ (in_dir_delegations (sm_inner s) !! object) in
  let '(table, recalls) :=
    foldl (recall_one now excluded_clientid) (in_delegations (sm_inner s), []) (hs_iter others) in
  (recalls, with_inner (set_in_delegations table) s).

Definition begin_directory_recall_excluding (object : ServerObject)
    (excluded_clientid : option Z) (now now' : Z) (s : StateManager) :=
  begin_directory_recall_guarded object excluded_clientid now' (reap_expired_clients now s).

Definition write_delegations_over (objects : gset ServerObject) (inner : StateInner)
    : list Stateid4 :=
  (fun kv : bytes * DelegationState => mkStateid4 (ds_stateid_seq kv.2) kv.1) <$>
  List.filter (fun kv : bytes * DelegationState =>
    conveys_write (ds_kind kv.2) && bool_decide (ds_object kv.2 ∈ objects) &&
    is_live_delegation_status (ds_status kv.2)) (hm_iter (in_delegations inner)).

Definition delegation_recall_complete (stateid : Stateid4) (inner : StateInner) : bool :=
  negb (is_live_delegation inner (other stateid)).

Definition revoke_recallable_delegation_guarded (stateid : Stateid4) (s : StateManager)
    : result NfsStat4 unit * StateManager :=
  match in_delegations (sm_inner s) !! other stateid with
  | None => (Err NFS_BadStateid, s)
  | Some state =>
    match validate_stateid_seq (ds_stateid_seq state) (seqid stateid) with
    | Err e => (Err e, s)
    | Ok _ =>
      let s := put_delegation (other stateid) (set_ds_status Revoked state) s in
      (Ok tt,
       match in_clients (sm_inner s) !! ds_clientid state with
       | Some client =>
         with_inner (fun i => set_in_clients
           (<[ds_clientid state := set_cs_status_flags
                (Z.lor (cs_status_flags client) SEQ4_STATUS_RECALLABLE_STATE_REVOKED) client]>
              (in_clients i)) i) s
       | None => s
       end)
    end
  end.

Definition revoke_recallable_delegation (stateid : Stateid4) (now : Z) (s : StateManager) :=
  revoke_recallable_delegation_guarded stateid (reap_expired_clients now s).
End with_order.

(** ** Invariant: one live delegation per client and directory *)

Definition live (d : DelegationState) : Prop := is_live_delegation_status (ds_status d) = true.

Definition deleg_unique (m : gmap bytes DelegationState) : Prop :=
  forall k1 k2 d1 d2, m !! k1 = Some d1 -> m !! k2 = Some d2 -> live d1 -> live d2 ->
    ds_object d1 = ds_object d2 -> ds_clientid d1 = ds_clientid d2 -> k1 = k2.

Lemma deleg_unique_sub m m' :
  (forall k d, m' !! k = Some d -> m !! k = Some d) -> deleg_unique m -> deleg_unique m'.
Proof. intros Hs Hu k1 k2 d1 d2 H1 H2. by apply (Hu k1 k2); apply Hs. Qed.

(** Changing an entry without waking it or moving it. *)
Lemma deleg_unique_update m k d d' :
  m !! k = Some d -> (live d' -> live d) -> ds_object d' = ds_object d ->
  ds_clientid d' = ds_clientid d -> deleg_unique m -> deleg_unique (<[k := d']> m).
Proof.
  intros Hk Hl Ho Hc Hu k1 k2 d1 d2.
  intros [[<- <-]|[Hn1 H1]]%lookup_insert_Some [[<- <-]|[Hn2 H2]]%lookup_insert_Some L1 L2 Eo Ec;
    [done| | |by apply (Hu k1 k2 d1 d2)].
  - apply (Hu k k2 d d2); auto; congruence.
  - apply (Hu k1 k d1 d); auto; congruence.
Qed.

Lemma deleg_unique_insert m k d :
  (forall k' d', m !! k' = Some d' -> ds_object d' = ds_object d ->
     ds_clientid d' = ds_clientid d -> ~ live d') ->
  deleg_unique m -> deleg_unique (<[k := d]> m).
Proof.
  intros Hn Hu k1 k2 d1 d2.
  intros [[<- <-]|[Hn1 H1]]%lookup_insert_Some [[<- <-]|[Hn2 H2]]%lookup_insert_Some L1 L2 Eo Ec;
    [done| | |by apply (Hu k1 k2 d1 d2)].
  - by destruct (Hn _ _ H2 (eq_sym Eo) (eq_sym Ec)).
  - by destruct (Hn _ _ H1 Eo Ec).
Qed.

Lemma deleg_wf_insert i k d :
  in_delegations i !! k = None -> deleg_wf i -> deleg_wf (insert_delegation k d i).
Proof. intros Hn [Ho Hc]. split; by apply index_wf_insert. Qed.

Lemma deleg_wf_update i k d d' :
  in_delegations i !! k = Some d -> ds_object d' = ds_object d -> ds_clientid d' = ds_clientid d ->
  deleg_wf i -> deleg_wf (set_in_delegations (<[k := d']> (in_delegations i)) i).
Proof. intros Hk Ho Hc [Hw1 Hw2]. split; by apply (index_wf_update _ _ _ _ d). Qed.

(** ** Counting live delegations *)

Section counts.
Context {ho : HashOrder}.

(** The reference count: live entries of the table that satisfy [f]. *)
Definition live_size (f : DelegationState -> bool) (m : gmap bytes DelegationState) : nat :=
  size (filter (fun kd => f kd.2 && is_live_delegation_status (ds_status kd.2) = true) m).

Lemma hm_count_size {V} (f : bytes -> V -> bool) (m : gmap bytes V) :
  hm_count f m = size (filter (fun kv => f kv.1 kv.2 = true) m).
Proof.
  unfold hm_count. rewrite <- length_map_to_list. apply Permutation_length, NoDup_Permutation.
  - apply NoDup_ListNoDup, List.NoDup_filter, NoDup_ListNoDup.
    rewrite hm_iter_perm. apply NoDup_map_to_list.
  - apply NoDup_map_to_list.
  - intros [k v]. rewrite elem_of_map_to_list, map_lookup_filter_Some, list_elem_of_In, filter_In,
      <- list_elem_of_In, elem_of_hm_iter. done.
Qed.

Lemma total_live_count_size i :
  total_live_count i = live_size (fun _ => true) (in_delegations i).
Proof. unfold total_live_count. by rewrite hm_count_size. Qed.

(** The client index counts what the table holds. *)
Lemma client_live_count_size i c :
  deleg_wf i -> client_live_count i c = live_size (fun d => ds_clientid d =? c) (in_delegations i).
Proof.
  intros [_ [Hs Hc]]. unfold client_live_count, live_size.
  rewrite <- size_dom. unfold size, set_size. simpl.
  assert (Hgen : forall X : gset bytes,
    (forall k, k ∈ X <-> exists d, in_delegations i !! k = Some d /\ ds_clientid d = c) ->
    hs_count (is_live_delegation i) X =
    length (elements (dom (filter (fun kd : bytes * DelegationState =>
      (ds_clientid kd.2 =? c) && is_live_delegation_status (ds_status kd.2) = true)
      (in_delegations i))))).
  { intros X HX. unfold hs_count. apply Permutation_length, NoDup_Permutation.
    - apply NoDup_ListNoDup, List.NoDup_filter, NoDup_ListNoDup, NoDup_hs_iter.
    - apply NoDup_elements.
    - intros k. rewrite elem_of_elements, elem_of_dom, list_elem_of_In, filter_In,
        <- list_elem_of_In, elem_of_hs_iter, HX.
      unfold is_live_delegation, is_Some. setoid_rewrite map_lookup_filter_Some. simpl.
      split.
      + intros [(d & Hd & <-) Hl]. rewrite Hd in Hl. exists d. by rewrite Z.eqb_refl, Hl.
      + intros (d & Hd & Hl). bool_to_prop. rewrite Hd. eauto. }
  destruct (in_client_delegations i !! c) as [X|] eqn:E.
  - apply Hgen. intros k. split.
    + intros Hk. by apply (Hs _ _ _ E).
    + intros (d & Hd & <-). destruct (Hc _ _ Hd) as (Y & HY & Hk). congruence.
  - rewrite <- (Hgen ∅).
    + unfold hs_count. assert (Hnil : @hs_iter ho bytes _ _ ∅ = []).
      { apply Permutation_nil. by rewrite hs_iter_perm. }
      by rewrite Hnil.
    + intros k. split; [set_solver|]. intros (d & Hd & <-).
      destruct (Hc _ _ Hd) as (Y & HY & Hk). congruence.
Qed.

Lemma live_size_insert f m k d :
  m !! k = None ->
  live_size f (<[k := d]> m) =
  ((if f d && is_live_delegation_status (ds_status d) then 1 else 0) + live_size f m)%nat.
Proof.
  intros Hk. unfold live_size. rewrite map_filter_insert. simpl.
  destruct (f d && is_live_delegation_status (ds_status d)) eqn:E.
  - rewrite decide_True by done. rewrite map_size_insert_None; [done|].
    apply map_lookup_filter_None. by left.
  - rewrite decide_False by done. by rewrite delete_id.
Qed.
End counts.

(** ** Recall *)

(** What a recall of a delegation's directory makes of it, and the entry it
    adds to the list of recalls. *)
Definition recalled (now : Z) (excluded : option Z) (d : DelegationState) : DelegationState :=
  match ds_status d with
  | Granted =>
    if bool_decide (excluded = Some (ds_clientid d)) then d
    else set_ds_last_recall_at (Some now) (set_ds_status RecallInProgress d)
  | _ => d
  end.

Definition recall_entry (excluded : option Z) (k : bytes) (d : DelegationState)
    : option DirectoryDelegationRecall :=
  let r b := mkDirectoryDelegationRecall (mkStateid4 (ds_stateid_seq d) k) (ds_clientid d) b in
  match ds_status d with
  | Granted => if bool_decide (excluded = Some (ds_clientid d)) then None else Some (r true)
  | RecallInProgress => Some (r false)
  | _ => None
  end.

Lemma recall_one_spec now excl table recalls k :
  recall_one now excl (table, recalls) k =
  match table !! k with
  | None => (table, recalls)
  | Some d => (<[k := recalled now excl d]> table, recalls ++ option_list (recall_entry excl k d))
  end.
Proof.
  unfold recall_one, recalled, recall_entry. destruct (table !! k) as [d|] eqn:E; [|done].
  rewrite bool_decide_eq_true_2 by (by destruct (ds_kind d)). simpl.
  destruct (ds_status d); simpl; [case_bool_decide|..]; simpl;
    rewrite ?app_nil_r, ?insert_id by done; done.
Qed.

Lemma recall_fold now excl l table recalls :
  NoDup l ->
  let res := foldl (recall_one now excl) (table, recalls) l in
  (forall k, res.1 !! k =
     if decide (k ∈ l) then recalled now excl <$> table !! k else table !! k) /\
  (forall r, r ∈ res.2 <-> r ∈ recalls \/
     exists k d, k ∈ l /\ table !! k = Some d /\ recall_entry excl k d = Some r).
Proof.
  revert table recalls. induction l as [|x l IH]; intros table recalls Hnd; cbn [foldl].
  - split.
    + intros k. by rewrite decide_False by apply not_elem_of_nil.
    + intros r. split; [by left|]. intros [?|(k & d & Hk%elem_of_nil & _)]; done.
  - pose proof (NoDup_cons_1_1 _ _ Hnd) as Hx. apply NoDup_cons_1_2 in Hnd. rewrite recall_one_spec.
    destruct (table !! x) as [dx|] eqn:Ex.
    + destruct (IH (<[x := recalled now excl dx]> table)
                  (recalls ++ option_list (recall_entry excl x dx)) Hnd) as [H1 H2]. split.
      * intros k. rewrite H1. destruct (decide (k = x)) as [->|Hne].
        -- rewrite decide_False, decide_True, lookup_insert_eq, Ex by (done || by left). done.
        -- rewrite lookup_insert_ne by done.
           destruct (decide (k ∈ l)), (decide (k ∈ x :: l)) as [Hi|Hi]; try done.
           ++ destruct Hi. by right.
           ++ apply elem_of_cons in Hi as [?|?]; done.
      * intros r. rewrite H2, elem_of_app, elem_of_option_list. setoid_rewrite elem_of_cons.
        split.
        -- intros [[?|?]|(k & d & Hk & Hd & Hr)]; [by left|right; by eauto 6|].
           rewrite lookup_insert_ne in Hd by congruence. right. eauto 6.
        -- intros [?|(k & d & [->|Hk] & Hd & Hr)]; [by auto|left; right; congruence|].
           right. exists k, d. rewrite lookup_insert_ne by congruence. done.
    + destruct (IH table recalls Hnd) as [H1 H2]. split.
      * intros k. rewrite H1. destruct (decide (k = x)) as [->|Hne].
        -- rewrite decide_False, decide_True, Ex by (done || by left). done.
        -- destruct (decide (k ∈ l)), (decide (k ∈ x :: l)) as [Hi|Hi]; try done.
           ++ destruct Hi. by right.
           ++ apply elem_of_cons in Hi as [?|?]; done.
      * intros r. rewrite H2. setoid_rewrite elem_of_cons. split; [naive_solver|].
        intros [?|(k & d & [->|Hk] & Hd & Hr)]; [by auto|congruence|]. right. eauto 6.
Qed.

Section deleg_ops.
Context {ho : HashOrder}.

Lemma begin_recall_table object excl now s :
  deleg_wf (sm_inner s) ->
  let res := begin_directory_recall_guarded object excl now s in
  sm_inner res.2 = set_in_delegations
    ((fun d => if bool_decide (ds_object d = object) then recalled now excl d else d)
       <$> in_delegations (sm_inner s)) (sm_inner s) /\
  (forall r, r ∈ res.1 <-> exists k d, in_delegations (sm_inner s) !! k = Some d /\
     ds_object d = object /\ recall_entry excl k d = Some r).
Proof.
  intros [[Hs Hc] _]. unfold begin_directory_recall_guarded.
  destruct (recall_fold now excl
    (hs_iter (default ∅ (in_dir_delegations (sm_inner s) !! object)))
    (in_delegations (sm_inner s)) [] (NoDup_hs_iter _)) as [H1 H2].
  destruct (foldl _ _ _) as [table recalls]. simpl in *.
  assert (Hin : forall k d, in_delegations (sm_inner s) !! k = Some d ->
    (k ∈ hs_iter (default ∅ (in_dir_delegations (sm_inner s) !! object)) <-> ds_object d = object)).
  { intros k d Hd. rewrite elem_of_hs_iter. split.
    - destruct (in_dir_delegations (sm_inner s) !! object) as [X|] eqn:E; [|set_solver].
      intros Hk. destruct (Hs _ _ _ E Hk) as (d' & Hd' & <-). congruence.
    - intros <-. destruct (Hc _ _ Hd) as (X & -> & Hk). done. }
  split.
  - f_equal. apply map_eq. intros k. rewrite H1, lookup_fmap.
    destruct (in_delegations (sm_inner s) !! k) as [d|] eqn:Hd; simpl; [|by case_decide].
    destruct (decide (k ∈ hs_iter _)) as [Hk|Hk]; rewrite (Hin _ _ Hd) in Hk.
    + by rewrite bool_decide_eq_true_2.
    + by rewrite bool_decide_eq_false_2.
  - intros r. rewrite H2. split.
    + intros [Hr%elem_of_nil|(k & d & Hk & Hd & Hr)]; [done|]. apply (Hin _ _ Hd) in Hk. eauto.
    + intros (k & d & Hd & Ho & Hr). right. exists k, d. by rewrite (Hin _ _ Hd).
Qed.

Lemma recalled_frame now excl d :
  ds_object (recalled now excl d) = ds_object d /\
  ds_clientid (recalled now excl d) = ds_clientid d /\
  ds_stateid_seq (recalled now excl d) = ds_stateid_seq d /\
  (live (recalled now excl d) <-> live d).
Proof.
  unfold recalled, live. destruct (ds_status d) eqn:E; try (by rewrite E).
  case_bool_decide; simpl; rewrite ?E; done.
Qed.

(** Recalling a directory: afterwards every live delegation over it is
    under recall, except a granted one of the excluded client; the returned
    list names exactly the delegations now under recall, with a callback
    requested exactly for those that were not under recall before; and no
    delegation of another directory changes. *)
Theorem begin_recall_complete object excl now s :
  deleg_wf (sm_inner s) ->
  let res := begin_directory_recall_guarded object excl now s in
  let before := in_delegations (sm_inner s) in
  let after := in_delegations (sm_inner res.2) in
  (forall k d, after !! k = Some d -> ds_object d = object -> live d ->
     ds_status d = RecallInProgress \/
     (ds_status d = Granted /\ excl = Some (ds_clientid d))) /\
  (forall r, r ∈ res.1 <-> exists k d d', before !! k = Some d /\ after !! k = Some d' /\
     ds_object d = object /\ ds_status d' = RecallInProgress /\
     r = mkDirectoryDelegationRecall (mkStateid4 (ds_stateid_seq d') k) (ds_clientid d')
           (bool_decide (ds_status d = Granted))) /\
  (forall k d, before !! k = Some d -> ds_object d <> object -> after !! k = Some d).
Proof.
  intros Hwf. destruct (begin_recall_table object excl now s Hwf) as [Ht Hr]. cbv zeta.
  rewrite Ht. simpl. split_and!.
  - intros k d'. rewrite lookup_fmap. destruct (in_delegations (sm_inner s) !! k) as [d|]; [|done].
    intros [= <-]. case_bool_decide as Ho; [|done]. intros _ Hl. revert Hl. unfold recalled, live.
    destruct (ds_status d) eqn:E; try (rewrite E; by auto). case_bool_decide; simpl; auto.
  - intros r. rewrite Hr. split.
    + intros (k & d & Hd & Ho & He). exists k, d. rewrite lookup_fmap, Hd. simpl.
      rewrite bool_decide_eq_true_2 by done. eexists. split_and!; try done; revert He;
        unfold recall_entry, recalled; destruct (ds_status d) eqn:E; try done;
        try case_bool_decide; simpl; try congruence.
    + intros (k & d & d' & Hd & Hd' & Ho & Hst & ->). exists k, d. split_and!; try done.
      rewrite lookup_fmap, Hd in Hd'. simpl in Hd'. rewrite bool_decide_eq_true_2 in Hd' by done.
      injection Hd' as <-. revert Hst. unfold recall_entry, recalled.
      destruct (ds_status d) eqn:E; simpl; try congruence.
      case_bool_decide; simpl; congruence.
  - intros k d Hd Ho. rewrite lookup_fmap, Hd. simpl. by rewrite bool_decide_eq_false_2.
Qed.

(** The counter value the next stateid is minted from is unused. *)
Definition stateid_fresh (s : StateManager) (clientid : Z) : Prop :=
  in_delegations (sm_inner s) !! stateid_other (sm_next_stateid s) clientid = None.

(** A granted directory delegation respects the limits: after
    [grant_directory_delegation] answers Granted, the client's live
    delegations number at most [max_per_client] and all clients' together at
    most [max_total]; no recall of the directory was in progress; the new
    delegation is in the table under the returned stateid, and the indexes
    still describe the table.  Whenever the answer is anything else the state
    is left as the lease reaper left it. *)
Theorem grant_within_limits object c sess max_c max_t now now' s g s' :
  deleg_wf (sm_inner s) -> stateid_fresh (reap_expired_clients now s) c ->
  grant_directory_delegation object c sess max_c max_t now now' s = (g, s') ->
  match g with
  | Ok (Grant_Granted sid) =>
    deleg_wf (sm_inner s') /\
    Z.of_nat (live_size (fun d => ds_clientid d =? c) (in_delegations (sm_inner s'))) <= max_c /\
    Z.of_nat (live_size (fun _ => true) (in_delegations (sm_inner s'))) <= max_t /\
    (forall k d, in_delegations (sm_inner (reap_expired_clients now s)) !! k = Some d ->
       ds_object d = object -> ds_status d <> RecallInProgress) /\
    in_delegations (sm_inner s') = <[other sid := mkDelegationState object c sess 1 DirectoryRead
      Granted now' None]> (in_delegations (sm_inner (reap_expired_clients now s)))
  | _ => s' = reap_expired_clients now s
  end.
Proof.
  intros Hwf0 Hf. unfold grant_directory_delegation, grant_directory_delegation_guarded.
  assert (Hwf : deleg_wf (sm_inner (reap_expired_clients now s)))
    by apply (reap_expired_clients_spec (sm_config s) now (sm_inner s) Hwf0).
  set (s1 := reap_expired_clients now s) in *. clearbody s1.
  destruct (is_retired s1 object); [by intros [= <- <-]|].
  destruct (find_live_directory_delegation _ _ _); [by intros [= <- <-]|].
  destruct (has_recall_in_progress _ _) eqn:Er; [by intros [= <- <-]|].
  destruct (Z.leb_spec max_c (Z.of_nat (client_live_count (sm_inner s1) c)));
    [by intros [= <- <-]|].
  destruct (Z.leb_spec max_t (Z.of_nat (total_live_count (sm_inner s1))));
    [by intros [= <- <-]|].
  intros [= <- <-]. simpl.
  pose proof (client_live_count_size (sm_inner s1) c Hwf).
  pose proof (total_live_count_size (sm_inner s1)).
  unfold stateid_fresh in Hf. split; [by apply deleg_wf_insert|].
  rewrite !live_size_insert by done. simpl. rewrite Z.eqb_refl. simpl.
  split; [lia|split; [lia|split; [|done]]].
  intros k d Hd <- Hst. destruct Hwf as [[_ Hc] _]. destruct (Hc _ _ Hd) as (X & HX & Hk).
  unfold has_recall_in_progress in Er. rewrite HX in Er.
  enough (true = false) by done. rewrite <- Er. symmetry.
  apply hs_any_true. exists k. by rewrite Hd, bool_decide_eq_true_2.
Qed.

(** Preservation of the two delegation invariants. *)
Lemma grant_wf object c sess max_c max_t now s :
  stateid_fresh s c -> deleg_wf (sm_inner s) -> deleg_unique (in_delegations (sm_inner s)) ->
  let s' := (grant_directory_delegation_guarded object c sess max_c max_t now s).2 in
  deleg_wf (sm_inner s') /\ deleg_unique (in_delegations (sm_inner s')).
Proof.
  intros Hf Hwf Hu. unfold grant_directory_delegation_guarded.
  destruct (is_retired s object); [done|].
  destruct (find_live_directory_delegation _ _ _) eqn:Ef; [done|].
  destruct (has_recall_in_progress _ _); [done|]. destruct (_ <=? _); [done|].
  destruct (_ <=? _); [done|]. simpl. split; [by apply deleg_wf_insert|].
  apply deleg_unique_insert; [|done]. simpl. intros k d Hk Ho Hc Hl. unfold live in Hl.
  rewrite (find_live_directory_delegation_None _ _ _ Hwf Ef k d) in Hl; done.
Qed.

Lemma create_deleg_wf object c sess now s :
  stateid_fresh s c -> deleg_wf (sm_inner s) -> deleg_unique (in_delegations (sm_inner s)) ->
  let s' := (create_directory_delegation_guarded object c sess now s).2 in
  deleg_wf (sm_inner s') /\ deleg_unique (in_delegations (sm_inner s')).
Proof.
  intros Hf Hwf Hu. unfold create_directory_delegation_guarded.
  destruct (is_retired s object); [done|].
  destruct (find_live_directory_delegation _ _ _) eqn:Ef.
  { by destruct (in_delegations (sm_inner s) !! _). }
  simpl. split; [by apply deleg_wf_insert|].
  apply deleg_unique_insert; [|done]. simpl. intros k d Hk Ho Hc Hl. unfold live in Hl.
  rewrite (find_live_directory_delegation_None _ _ _ Hwf Ef k d) in Hl; done.
Qed.

Lemma put_status_wf s k d st :
  in_delegations (sm_inner s) !! k = Some d -> is_live_delegation_status st = false ->
  deleg_wf (sm_inner s) -> deleg_unique (in_delegations (sm_inner s)) ->
  deleg_wf (sm_inner (put_delegation k (set_ds_status st d) s)) /\
  deleg_unique (in_delegations (sm_inner (put_delegation k (set_ds_status st d) s))).
Proof.
  intros Hk Hst Hwf Hu. split.
  - by apply (deleg_wf_update _ _ d).
  - apply (deleg_unique_update _ _ d); try done. unfold live. simpl. congruence.
Qed.

Lemma return_deleg_wf sid c s :
  deleg_wf (sm_inner s) -> deleg_unique (in_delegations (sm_inner s)) ->
  let s' := (return_delegation_state_guarded sid c s).2 in
  deleg_wf (sm_inner s') /\ deleg_unique (in_delegations (sm_inner s')).
Proof.
  intros Hwf Hu. unfold return_delegation_state_guarded.
  destruct (in_delegations (sm_inner s) !! other sid) as [d|] eqn:Hk; [|done].
  destruct (validate_stateid_seq _ _); [|done]. destruct (wrong_client _ _); [done|].
  destruct (bool_decide _); [done|].
  destruct (put_status_wf s (other sid) d Returned Hk eq_refl Hwf Hu) as [H1 H2].
  cbn [snd]. split; [by apply remove_delegation_wf|].
  change (deleg_unique (in_delegations (remove_delegation_locked
    (sm_inner (put_delegation (other sid) (set_ds_status Returned d) s)) (other sid)).1)).
  rewrite remove_delegation_table.
  apply (deleg_unique_sub _ _ (fun k d' H => proj2 (proj1 (lookup_delete_Some _ _ _ _) H)) H2).
Qed.

Lemma revoke_deleg_wf sid s :
  deleg_wf (sm_inner s) -> deleg_unique (in_delegations (sm_inner s)) ->
  let s' := (revoke_delegation_state_guarded sid s).2 in
  deleg_wf (sm_inner s') /\ deleg_unique (in_delegations (sm_inner s')).
Proof.
  intros Hwf Hu. unfold revoke_delegation_state_guarded.
  destruct (in_delegations (sm_inner s) !! other sid) as [d|] eqn:Hk; [|done].
  destruct (validate_stateid_seq _ _); [|done]. by apply put_status_wf.
Qed.

Lemma revoke_recallable_wf sid s :
  deleg_wf (sm_inner s) -> deleg_unique (in_delegations (sm_inner s)) ->
  let s' := (revoke_recallable_delegation_guarded sid s).2 in
  deleg_wf (sm_inner s') /\ deleg_unique (in_delegations (sm_inner s')).
Proof.
  intros Hwf Hu. unfold revoke_recallable_delegation_guarded.
  destruct (in_delegations (sm_inner s) !! other sid) as [d|] eqn:Hk; [|done].
  destruct (validate_stateid_seq _ _); [|done].
  destruct (put_status_wf s (other sid) d Revoked Hk eq_refl Hwf Hu).
  cbn [snd]. by destruct (in_clients _ !! _).
Qed.

Lemma recall_wf object excl now s :
  deleg_wf (sm_inner s) -> deleg_unique (in_delegations (sm_inner s)) ->
  let s' := (begin_directory_recall_guarded object excl now s).2 in
  deleg_wf (sm_inner s') /\ deleg_unique (in_delegations (sm_inner s')).
Proof.
  intros Hwf Hu. destruct (begin_recall_table object excl now s Hwf) as [Ht _].
  cbv zeta in *. rewrite Ht. clear Ht.
  set (g := fun d => if bool_decide (ds_object d = object) then recalled now excl d else d).
  assert (Hg : forall d, ds_object (g d) = ds_object d /\ ds_clientid (g d) = ds_clientid d /\
                    (live (g d) <-> live d)).
  { intros d. unfold g. case_bool_decide; [|done].
    destruct (recalled_frame now excl d) as (? & ? & _ & ?). done. }
  split.
  - destruct Hwf as [[S1 C1] [S2 C2]].
    assert (Hfix : forall K (f : DelegationState -> K) k key, (forall d, f (g d) = f d) ->
      (exists d, in_delegations (sm_inner s) !! k = Some d /\ f d = key) ->
      exists d, (g <$> in_delegations (sm_inner s)) !! k = Some d /\ f d = key).
    { intros K f k key Hfg (d & Hd & Hf). exists (g d). rewrite lookup_fmap, Hd. simpl.
      split; [done|]. by rewrite Hfg. }
    split; split; simpl.
    + intros key X k HX Hk. apply Hfix; [apply Hg|]. by apply (S1 _ X).
    + intros k d. rewrite lookup_fmap. destruct (in_delegations _ !! k) eqn:E; [|done].
      intros [= <-]. rewrite (proj1 (Hg _)). by apply C1.
    + intros key X k HX Hk. apply Hfix; [apply Hg|]. by apply (S2 _ X).
    + intros k d. rewrite lookup_fmap. destruct (in_delegations _ !! k) eqn:E; [|done].
      intros [= <-]. rewrite (proj1 (proj2 (Hg _))). by apply C2.
  - simpl. intros k1 k2 d1 d2. rewrite !lookup_fmap.
    destruct (in_delegations _ !! k1) as [e1|] eqn:E1; [|done].
    destruct (in_delegations _ !! k2) as [e2|] eqn:E2; [|done].
    intros [= <-] [= <-]. destruct (Hg e1) as (-> & -> & ->), (Hg e2) as (-> & -> & ->).
    by apply (Hu k1 k2 e1 e2).
Qed.
End deleg_ops.

(** ** Concrete instances *)

Lemma grant_within_limits_witness :
  let sid := mkStateid4 1 (stateid_other 1 5) in
  exists s', @grant_directory_delegation canonical_order (Fs 3) 5 None 4 8 0 0 example_boot
    = (Ok (Grant_Granted sid), s') /\
  deleg_wf (sm_inner s') /\
  Z.of_nat (live_size (fun d => ds_clientid d =? 5) (in_delegations (sm_inner s'))) <= 4.
Proof.
  cbv zeta. destruct (grant_directory_delegation _ _ _ _ _ _ _ _) as [g s'] eqn:E.
  assert (g = Ok (Grant_Granted (mkStateid4 1 (stateid_other 1 5)))) as ->.
  { apply (f_equal fst) in E. revert E. vm_compute. congruence. }
  exists s'. split; [reflexivity|].
  destruct (@grant_within_limits canonical_order (Fs 3) 5 None 4 8 0 0 example_boot _ s'
    (deleg_wf_empty (sm_inner example_boot) eq_refl eq_refl eq_refl) eq_refl E)
    as (H1 & H2 & _).
  split; [exact H1|exact H2].
Defined.

(** A server with one delegation on directory 3, held by client 5. *)
Definition example_granted : StateManager :=
  (@grant_directory_delegation_guarded canonical_order (Fs 3) 5 None 4 8 0 example_boot).2.

Lemma example_granted_wf : deleg_wf (sm_inner example_granted).
Proof.
  apply (@grant_wf canonical_order (Fs 3) 5 None 4 8 0 example_boot).
  - reflexivity.
  - by apply deleg_wf_empty.
  - intros k1 k2 d1 d2. simpl. rewrite lookup_empty. done.
Qed.

(** Client 6 changes directory 3: client 5's delegation is recalled. *)
Lemma begin_recall_complete_witness :
  exists k d d',
    in_delegations (sm_inner example_granted) !! k = Some d /\
    in_delegations (sm_inner (@begin_directory_recall_guarded canonical_order (Fs 3) (Some 6) 1
      example_granted).2) !! k = Some d' /\
    ds_object d = Fs 3 /\ ds_status d' = RecallInProgress /\
    mkDirectoryDelegationRecall (mkStateid4 1 (stateid_other 1 5)) 5 true =
    mkDirectoryDelegationRecall (mkStateid4 (ds_stateid_seq d') k) (ds_clientid d')
      (bool_decide (ds_status d = Granted)).
Proof.
  destruct (@begin_recall_complete canonical_order (Fs 3) (Some 6) 1 example_granted
              example_granted_wf) as (_ & Hlist & _).
  apply Hlist. vm_compute. left.
Defined.
