(* ===== verification/Sequence.v ===== *)
(** * SEQUENCE and the reply cache (session/sequence.rs)

    [prepare_sequence] classifies a request as a new execution, a retry to be
    answered from the slot's cache, or an error; [finish_sequence] fills the
    cache.  [slot_prepare] is the block of [prepare_sequence] that works on the
    slot.  A slot seen through the two calls is a small state machine
    ([slot_run]); its runs carry the history of what was executed, and the
    theorems state at-most-once execution and faithful replay over it. *)

From stdpp Require Import base gmap list sets strings numbers.
From Stdlib Require Import ZArith Lia.
From S2P Require Import Prelude Xdr Rpc Types StateModel DelegTable Clients.

Local Open Scope Z_scope.

(** ** Operations *)

(** [slots.len() - 1] as [u32]: sessions have at least one slot. *)
Definition sequence_res (session : SessionState) (args : SequenceArgs4) (status_flags : Z)
    : SequenceRes4 :=
  let highest_slot := u32_wrap (Z.of_nat (length (ss_slots session)) - 1) in
  mkSequenceRes4 (sa_sessionid args) (sa_sequenceid args) (sa_slotid args)
    highest_slot highest_slot status_flags.

Definition bind_forechannel_for_sequence (session : SessionState) (connection_id : Z)
    : result NfsStat4 SessionState :=
  if bool_decide (connection_id ∈ ss_back_connections session) &&
     negb (bool_decide (connection_id ∈ ss_fore_connections session))
  then Err NFS_ConnNotBoundToSession
  else Ok (add_fore connection_id session).

Inductive SlotVerdict :=
| Verdict_Execute
| Verdict_Replay (response : bytes)
| Verdict_Error (status : NfsStat4).

Definition slot_prepare (sequenceid : Z) (fingerprint : bytes) (slot : SlotState)
    : SlotVerdict * SlotState :=
  let retry_seq := u32_wrap (sl_sequence_id slot - 1) in
  if sequenceid =? sl_sequence_id slot then
    (Verdict_Execute,
     mkSlotState (u32_wrap (sl_sequence_id slot + 1)) (Some fingerprint) None)
  else if negb (sequenceid =? retry_seq) then (Verdict_Error NFS_SeqMisordered, slot)
  else match sl_in_progress slot with
       | Some in_progress =>
         if bool_decide (in_progress = fingerprint) then (Verdict_Error NFS_Delay, slot)
         else (Verdict_Error NFS_SeqFalseRetry, slot)
       | None =>
         match sl_cached_reply slot with
         | Some cached =>
           if bool_decide (cr_fingerprint cached = fingerprint)
           then (Verdict_Replay (cr_response cached), slot)
           else (Verdict_Error NFS_SeqFalseRetry, slot)
         | None => (Verdict_Error NFS_Serverfault, slot)
         end
       end.

Definition slot_finish (fingerprint response : bytes) (slot : SlotState) : SlotState :=
  set_sl_cached_reply (Some (mkCachedReplay fingerprint response))
    (set_sl_in_progress None slot).

Definition renews_lease (r : SequenceReplay) : bool :=
  match r with Seq_Execute _ _ | Seq_Replay _ => true | _ => false end.

Definition put_session (sessionid : bytes) (session : SessionState) (s : StateManager)
    : StateManager :=
  with_inner (fun i => set_in_sessions (<[sessionid := session]> (in_sessions i)) i) s.

Section with_order.
Context {ho : HashOrder}.

Definition prepare_sequence (args : SequenceArgs4) (fingerprint : bytes) (connection_id now : Z)
    (s : StateManager) : SequenceReplay * StateManager :=
  let s := reap_expired_clients now s in
  match in_sessions (sm_inner s) !! sa_sessionid args with
  | None => (Seq_Error NFS_BadSession, s)
  | Some session =>
    let clientid := ss_clientid session in
    if Z.of_nat (length (ss_slots session)) <=? sa_slotid args then (Seq_Error NFS_BadSlot, s)
    else match in_clients (sm_inner s) !! clientid with
    | None => (Seq_Error NFS_BadSession, s)
    | Some client =>
      match cs_lease_state client with
      | Lease_Revoked _ status_flags =>
        match bind_forechannel_for_sequence session connection_id with
        | Err status => (Seq_Error status, s)
        | Ok session => (Seq_StatusOnly (sequence_res session args status_flags),
                         put_session (sa_sessionid args) session s)
        end
      | Lease_Active _ =>
        match bind_forechannel_for_sequence session connection_id with
        | Err status => (Seq_Error status, s)
        | Ok session =>
          let slot_idx := Z.to_nat (sa_slotid args) in
          match ss_slots session !! slot_idx with
          | None => (Seq_Error NFS_BadSlot, s)
          | Some slot =>
            let '(verdict, slot) := slot_prepare (sa_sequenceid args) fingerprint slot in
            let session := set_ss_slots (<[slot_idx := slot]> (ss_slots session)) session in
            let replay :=
              match verdict with
              | Verdict_Execute =>
                Seq_Execute (sequence_res session args (cs_status_flags client))
                  (mkSequenceCacheToken (sa_sessionid args) (sa_slotid args) fingerprint)
              | Verdict_Replay response => Seq_Replay response
              | Verdict_Error status => Seq_Error status
              end in
            let s := put_session (sa_sessionid args) session s in
            if renews_lease replay then
              (replay, with_inner (fun i => set_in_clients
                 (<[clientid := set_cs_lease_state
                      (Lease_Active (lease_deadline (sm_config s) now)) client]>
                    (in_clients i)) i) s)
            else (replay, s)
          end
        end
      end
    end
  end.
End with_order.

Definition finish_sequence (token : SequenceCacheToken) (response : bytes) (s : StateManager)
    : result NfsStat4 unit * StateManager :=
  match in_sessions (sm_inner s) !! tk_sessionid token with
  | None => (Err NFS_BadSession, s)
  | Some session =>
    let slot_idx := Z.to_nat (tk_slotid token) in
    match ss_slots session !! slot_idx with
    | None => (Err NFS_BadSlot, s)
    | Some slot =>
      let slot := slot_finish (tk_fingerprint token) response slot in
      (Ok tt, put_session (tk_sessionid token)
                (set_ss_slots (<[slot_idx := slot]> (ss_slots session)) session) s)
    end
  end.

(** ** A slot as a state machine *)

Inductive slot_event :=
| Ev_Execute (sequenceid : Z) (fingerprint : bytes)
| Ev_Finish (fingerprint response : bytes)
| Ev_Replay (sequenceid : Z) (fingerprint response : bytes)
| Ev_Reject (sequenceid : Z) (fingerprint : bytes) (status : NfsStat4).

Definition event_of (sequenceid : Z) (fingerprint : bytes) (v : SlotVerdict) : slot_event :=
  match v with
  | Verdict_Execute => Ev_Execute sequenceid fingerprint
  | Verdict_Replay r => Ev_Replay sequenceid fingerprint r
  | Verdict_Error e => Ev_Reject sequenceid fingerprint e
  end.

(** [slot_run slot pending hist]: the slot, the fingerprints of the requests
    being executed (one cache token each), and what happened on it, newest
    first.  [finish_sequence] is called once per token. *)
Inductive slot_run : SlotState -> list bytes -> list slot_event -> Prop :=
| run_start : slot_run (mkSlotState 1 None None) [] []
| run_prepare slot pending hist sequenceid fp v slot' :
    slot_run slot pending hist -> is_u32 sequenceid ->
    slot_prepare sequenceid fp slot = (v, slot') ->
    slot_run slot' (match v with Verdict_Execute => fp :: pending | _ => pending end)
      (event_of sequenceid fp v :: hist)
| run_finish slot pending pending' hist fp r :
    slot_run slot pending hist -> pending ≡ₚ fp :: pending' ->
    slot_run (slot_finish fp r slot) pending' (Ev_Finish fp r :: hist).

Definition executed (hist : list slot_event) : list Z :=
  omap (fun e => match e with Ev_Execute q _ => Some q | _ => None end) hist.

(** The latest execution, and the latest reply recorded since it with the
    fingerprint it was recorded for. *)
Fixpoint last_execute (hist : list slot_event) : option (Z * bytes) :=
  match hist with
  | [] => None
  | Ev_Execute q fp :: _ => Some (q, fp)
  | _ :: h => last_execute h
  end.
Fixpoint last_finish (hist : list slot_event) : option (bytes * bytes) :=
  match hist with
  | [] => None
  | Ev_Execute _ _ :: _ => None
  | Ev_Finish fp r :: _ => Some (fp, r)
  | _ :: h => last_finish h
  end.

(** ** Lemmas *)

Lemma slot_prepare_execute q fp slot slot' :
  slot_prepare q fp slot = (Verdict_Execute, slot') ->
  q = sl_sequence_id slot /\
  slot' = mkSlotState (u32_wrap (sl_sequence_id slot + 1)) (Some fp) None.
Proof.
  unfold slot_prepare. destruct (Z.eqb_spec q (sl_sequence_id slot)).
  - intros [= <-]. done.
  - destruct (negb _); [done|]. destruct (sl_in_progress slot); [by case_bool_decide|].
    destruct (sl_cached_reply slot); [by case_bool_decide|done].
Qed.

Lemma slot_prepare_other q fp slot v slot' :
  slot_prepare q fp slot = (v, slot') -> v <> Verdict_Execute -> slot' = slot.
Proof.
  unfold slot_prepare. destruct (_ =? _); [by intros [= <- <-]|].
  destruct (negb _); [by intros [= _ <-]|]. destruct (sl_in_progress slot).
  - case_bool_decide; by intros [= _ <-].
  - destruct (sl_cached_reply slot); [case_bool_decide|]; by intros [= _ <-].
Qed.

(** The slot's counter is one more than the number of executions. *)
Lemma slot_run_counter slot pending hist :
  slot_run slot pending hist ->
  sl_sequence_id slot = u32_wrap (1 + Z.of_nat (length (executed hist))) /\
  forall n q, executed hist !! n = Some q ->
    q = u32_wrap (Z.of_nat (length (executed hist)) - Z.of_nat n).
Proof.
  induction 1 as [|slot pending hist q fp v slot' Hrun [IH1 IH2] Hq Hp
                  |slot pending pending' hist fp r Hrun [IH1 IH2] Hperm]; simpl.
  - split; [done|]. intros n q. by rewrite lookup_nil.
  - destruct v as [|resp|e]; simpl.
    + apply slot_prepare_execute in Hp as [-> ->]. simpl. rewrite IH1. split.
      * unfold u32_wrap. rewrite Zplus_mod_idemp_l. f_equal. lia.
      * intros [|n] q Hn; simpl in Hn.
        -- injection Hn as <-. f_equal. lia.
        -- rewrite (IH2 n q Hn). f_equal. lia.
    + rewrite (slot_prepare_other _ _ _ _ _ Hp) by done. done.
    + rewrite (slot_prepare_other _ _ _ _ _ Hp) by done. done.
  - done.
Qed.

(** Within 2^32 executions the counter does not repeat. *)
Lemma executed_nodup slot pending hist :
  slot_run slot pending hist -> Z.of_nat (length (executed hist)) <= 4294967296 ->
  NoDup (executed hist).
Proof.
  intros Hrun Hlen. apply NoDup_alt. intros i j q Hi Hj.
  destruct (slot_run_counter _ _ _ Hrun) as [_ H].
  pose proof (lookup_lt_Some _ _ _ Hi). pose proof (lookup_lt_Some _ _ _ Hj).
  apply H in Hi, Hj. rewrite Hi in Hj. unfold u32_wrap in Hj.
  set (L := Z.of_nat (length (executed hist))) in *.
  assert (Hcase : forall x, 1 <= x <= 4294967296 ->
            (x mod 4294967296 = x /\ x < 4294967296) \/
            (x mod 4294967296 = 0 /\ x = 4294967296)).
  { intros x Hx. destruct (Z.eq_dec x 4294967296) as [->|]; [right; done|left].
    split; [apply Z.mod_small|]; lia. }
  destruct (Hcase (L - Z.of_nat i)) as [[??]|[??]], (Hcase (L - Z.of_nat j)) as [[??]|[??]]; lia.
Qed.

(** C18. At-most-once execution: however a client and the network drive a
    slot, whatever fingerprints, retries and completion order, the [n]-th
    execution on the slot is of sequence id [n] (modulo 2^32), so no sequence
    id is executed twice within 2^32 executions. *)
Theorem slot_executes_once slot pending hist :
  slot_run slot pending hist -> Z.of_nat (length (executed hist)) <= 4294967296 ->
  NoDup (executed hist).
Proof. apply executed_nodup. Qed.

(** What is being executed or is kept was executed on the slot, and the slot keeps
    the latest reply recorded since the latest execution. *)
Lemma slot_run_kept slot pending hist :
  slot_run slot pending hist ->
  (forall fp, fp ∈ pending -> exists q, Ev_Execute q fp ∈ hist) /\
  forall c, sl_cached_reply slot = Some c ->
    last_finish hist = Some (cr_fingerprint c, cr_response c) /\
    exists q, Ev_Execute q (cr_fingerprint c) ∈ hist.
Proof.
  assert (Hcons : forall e hist fp, (exists q, Ev_Execute q fp ∈ hist) ->
    exists q, Ev_Execute q fp ∈ e :: hist) by (intros e h fp [q ?]; exists q; by right).
  induction 1 as [|slot pending hist q fp v slot' Hrun [IHp IHc] Hq Hp
                  |slot pending pending' hist fp r Hrun [IHp IHc] Hperm].
  - split; [by intros fp ?%elem_of_nil|done].
  - destruct v as [|resp|e]; cbn [event_of].
    + apply slot_prepare_execute in Hp as [-> ->]. split; [|done].
      intros fp' [->|Hin]%elem_of_cons; [|by apply Hcons, IHp]. eexists. by left.
    + rewrite (slot_prepare_other _ _ _ _ _ Hp) by done.
      split; [intros; by apply Hcons, IHp|]. intros c Hc.
      split; [by apply IHc|by apply Hcons, IHc].
    + rewrite (slot_prepare_other _ _ _ _ _ Hp) by done.
      split; [intros; by apply Hcons, IHp|]. intros c Hc.
      split; [by apply IHc|by apply Hcons, IHc].
  - split.
    + intros fp' Hin. apply Hcons, IHp. rewrite Hperm. by right.
    + intros c [= <-]. split; [done|]. apply Hcons, IHp. rewrite Hperm. by left.
Qed.

Lemma execute_executed q fp hist : Ev_Execute q fp ∈ hist -> q ∈ executed hist.
Proof. intros Hin. apply list_elem_of_omap. by exists (Ev_Execute q fp). Qed.

(** The latest execution is the only one with its sequence id. *)
Lemma last_execute_only q fp hist :
  NoDup (executed hist) -> head (executed hist) = Some q -> Ev_Execute q fp ∈ hist ->
  last_execute hist = Some (q, fp).
Proof.
  induction hist as [|e hist IH]; [done|]. destruct e as [q' fp'| | |]; cbn;
    try by (intros ? ? [|]%elem_of_cons; [done|auto]).
  intros Hn%NoDup_cons_1_1 [= ->] [[= ->]|Hin]%elem_of_cons; [done|].
  by apply execute_executed in Hin.
Qed.

(** The retry that a slot answers: of the sequence id executed last, with the
    fingerprint of the kept reply. *)
Lemma slot_prepare_replay q fp slot r slot' :
  slot_prepare q fp slot = (Verdict_Replay r, slot') ->
  q = u32_wrap (sl_sequence_id slot - 1) /\ sl_cached_reply slot = Some (mkCachedReplay fp r).
Proof.
  unfold slot_prepare. destruct (q =? sl_sequence_id slot); [done|].
  destruct (Z.eqb_spec q (u32_wrap (sl_sequence_id slot - 1))) as [->|]; [|done]. cbn [negb].
  destruct (sl_in_progress slot); [by case_bool_decide|].
  destruct (sl_cached_reply slot) as [[fp' r']|]; [|done]. cbn. case_bool_decide; [|done].
  intros [= <- _]. by subst.
Qed.

(** When a fingerprint determines the sequence id of the requests sent on the slot,
    a replay is the reply of the latest execution, which was of the same request. *)
Lemma slot_replays_last (sent : Z -> bytes -> Prop) slot pending hist q fp r slot' :
  (forall q q' fp, sent q fp -> sent q' fp -> q = q') ->
  slot_run slot pending hist -> Z.of_nat (length (executed hist)) <= 4294967296 ->
  (forall q fp, Ev_Execute q fp ∈ hist -> sent q fp) -> sent q fp ->
  slot_prepare q fp slot = (Verdict_Replay r, slot') ->
  last_execute hist = Some (q, fp) /\ last_finish hist = Some (fp, r).
Proof.
  intros Hdet Hrun Hlen Hsent Hq [-> Hc]%slot_prepare_replay.
  destruct (slot_run_kept _ _ _ Hrun) as [_ Hk]. destruct (Hk _ Hc) as [Hf [q Hin]]. cbn in *.
  split; [|done]. rewrite <- (Hdet _ _ _ (Hsent _ _ Hin) Hq) in *.
  apply last_execute_only; [by eapply executed_nodup| |done].
  destruct (slot_run_counter _ _ _ Hrun) as [Hs Hn].
  pose proof (execute_executed _ _ _ Hin) as He. destruct (executed hist) as [|q0 qs]; [set_solver|].
  cbn. f_equal. rewrite (Hn 0%nat q0) by done.
  rewrite (Hdet _ _ _ (Hsent _ _ Hin) Hq), Hs. unfold u32_wrap. rewrite Zminus_mod_idemp_l. f_equal. lia.
Qed.

Section whole_request.
Context {ho : HashOrder}.

Lemma slot_retry q fp fp' r slot :
  is_u32 q ->
  slot_prepare q fp (slot_finish fp' r (mkSlotState (u32_wrap (q + 1)) (Some fp') slot)) =
  (if bool_decide (fp' = fp) then Verdict_Replay r else Verdict_Error NFS_SeqFalseRetry,
   slot_finish fp' r (mkSlotState (u32_wrap (q + 1)) (Some fp') slot)).
Proof.
  intros Hq. unfold slot_prepare. simpl.
  destruct (Z.eqb_spec q (u32_wrap (q + 1))) as [He|_].
  { unfold u32_wrap, is_u32 in *. exfalso.
    destruct (Z.eq_dec q 4294967295) as [->|]; [done|].
    rewrite Z.mod_small in He by lia. lia. }
  assert (Hr : u32_wrap (u32_wrap (q + 1) - 1) = q).
  { unfold u32_wrap. rewrite Zminus_mod_idemp_l, Z.add_simpl_r. by apply Z.mod_small. }
  rewrite Hr, Z.eqb_refl. simpl. by case_bool_decide.
Qed.

(** The whole request path: once a SEQUENCE has been accepted for
    execution and its reply recorded, repeating the identical request on the
    same connection before the renewed lease ends is answered with the
    recorded reply, bit for bit, and executes nothing. *)
Theorem retry_is_replayed args fp conn now now' r s res tok s1 s2 :
  deleg_wf (sm_inner s) -> is_u32 (sa_sequenceid args) ->
  prepare_sequence args fp conn now s = (Seq_Execute res tok, s1) ->
  finish_sequence tok r s1 = (Ok tt, s2) ->
  now' < lease_deadline (sm_config s) now ->
  (prepare_sequence args fp conn now' s2).1 = Seq_Replay r.
Proof.
  intros Hwf0 Hq Hprep Hfin Hlease.
  pose proof (reap_deleg_wf now s Hwf0) as Hwf.
  assert (Hcfg : sm_config (reap_expired_clients now s) = sm_config s) by done.
  unfold prepare_sequence in Hprep. set (s0 := reap_expired_clients now s) in *. clearbody s0.
  destruct (in_sessions (sm_inner s0) !! sa_sessionid args) as [ss|] eqn:Hss; [|done].
  destruct (Z.of_nat (length (ss_slots ss)) <=? sa_slotid args) eqn:Hslot; [done|].
  destruct (in_clients (sm_inner s0) !! ss_clientid ss) as [cl|] eqn:Hcl; [|done].
  destruct (cs_lease_state cl) as [d|]; [|by destruct (bind_forechannel_for_sequence _ _)].
  unfold bind_forechannel_for_sequence in Hprep.
  destruct (bool_decide _ && negb _) eqn:Hbind; [done|]. simpl in Hprep.
  destruct (ss_slots ss !! Z.to_nat (sa_slotid args)) as [slot|] eqn:Hsl; [|done].
  destruct (slot_prepare _ _ _) as [v slot'] eqn:Hsp.
  destruct v as [|resp|e]; simpl in Hprep; try done.
  apply slot_prepare_execute in Hsp as [Hseq ->].
  injection Hprep as _ <- <-. revert Hfin. unfold finish_sequence. simpl.
  rewrite lookup_insert_eq. simpl.
  pose proof (lookup_lt_Some _ _ _ Hsl) as Hlt.
  rewrite list_lookup_insert_eq by done. rewrite list_insert_insert_eq.
  intros [= <-]. unfold prepare_sequence.
  match goal with |- context [reap_expired_clients now' ?x] => set (s3 := x) end.
  destruct (reap_keeps now' s3 (ss_clientid ss)
    (set_cs_lease_state (Lease_Active (lease_deadline (sm_config s0) now)) cl)
    (lease_deadline (sm_config s0) now)) as (Kc & Ks & _).
  { exact Hwf. }
  { unfold s3. simpl. by rewrite lookup_insert_eq. }
  { done. }
  { by rewrite Hcfg. }
  rewrite (Ks (sa_sessionid args) _ (lookup_insert_eq _ _ _)) by done.
  cbn [ss_clientid ss_slots set_ss_slots add_fore set_ss_fore_connections].
  rewrite length_insert, Hslot, Kc. simpl. unfold bind_forechannel_for_sequence. simpl.
  rewrite (bool_decide_eq_true_2 (conn ∈ {[conn]} ∪ _)) by set_solver.
  rewrite andb_false_r. simpl. rewrite list_lookup_insert_eq by done.
  rewrite <- Hseq, (slot_retry _ _ _ _ _ Hq), bool_decide_eq_true_2 by done. done.
Qed.
End whole_request.

(** ** Concrete instances *)

(** Execute, complete, and be asked again. *)
Definition example_hist : list slot_event := [Ev_Finish [1] [42]; Ev_Execute 1 [1]].

Lemma example_slot_run : slot_run (slot_finish [1] [42] (mkSlotState 2 (Some [1]) None)) [] example_hist.
Proof.
  apply (run_finish _ [[1]]); [|reflexivity].
  apply (run_prepare _ [] [] 1 [1] Verdict_Execute (mkSlotState 2 (Some [1]) None) run_start);
    [unfold is_u32; lia|reflexivity].
Qed.

Lemma slot_executes_once_witness : NoDup (executed example_hist).
Proof.
  apply (slot_executes_once _ _ _ example_slot_run). vm_compute. discriminate.
Defined.

Definition example_seq : SequenceArgs4 := mkSequenceArgs4 example_sessionid 1 0 0 true.

Lemma retry_is_replayed_witness :
  exists res tok s1 s2,
    @prepare_sequence canonical_order example_seq [7] 1 5 example_session
      = (Seq_Execute res tok, s1) /\
    finish_sequence tok [1; 2; 3] s1 = (Ok tt, s2) /\
    (@prepare_sequence canonical_order example_seq [7] 1 9 s2).1 = Seq_Replay [1; 2; 3].
Proof.
  eexists _, _, _, _. split; [vm_compute; reflexivity|]. split; [vm_compute; reflexivity|].
  eapply (@retry_is_replayed canonical_order example_seq [7] 1 5 9 [1; 2; 3] example_session
    _ _ _ _ example_session_wf).
  - unfold is_u32. simpl. lia.
  - vm_compute. reflexivity.
  - vm_compute. reflexivity.
  - vm_compute. reflexivity.
Defined.
