(* ===== verification/Filehandles.v ===== *)
(** * Filehandles (session/filehandles.rs)

    Minting and resolving opaque filehandles.  Two layouts: [tag | backend
    encoding] for objects with a durable encoding, [boot nonce | counter] for
    the rest.  The operations here are those of one caller; what concurrent
    callers and a retirement can do to each other is in [MintRace]. *)

From stdpp Require Import base gmap list sets strings numbers.
From Stdlib Require Import ZArith Lia.
From S2P Require Import Prelude Xdr Rpc Types StateModel.

Local Open Scope Z_scope.

(** ** Operations *)

Definition record_persistent_fh (id : Z) (encoded : bytes) (s : StateManager) : StateManager :=
  set_sm_persistent_fh (<[id := PERSISTENT_FH_TAG :: encoded]> (sm_persistent_fh s)) s.

Definition persistent_fh_body (fh : bytes) : option bytes :=
  match fh with
  | t :: body =>
    if (t =? PERSISTENT_FH_TAG) && negb (bool_decide (body = [])) &&
       (zlen body <=? MAX_PERSISTENT_HANDLE_LEN)
    then Some body else None
  | [] => None
  end.

(** Returns the persistent handle and the table with the handle reserved. *)
Definition claim_persistent_fh (object : ServerObject) (s : StateManager)
    : option bytes * StateManager :=
  match object with
  | Fs id =>
    match sm_persistent_fh s !! id with
    | None => (None, s)
    | Some fh =>
      match sm_fh_to_object s !! fh with
      | Some existing => (if bool_decide (existing = object) then Some fh else None, s)
      | None => (Some fh, set_sm_fh_to_object (<[fh := object]> (sm_fh_to_object s)) s)
      end
    end
  | _ => (None, s)
  end.

Definition boot_fh (nonce : bytes) (fh_num : Z) : bytes := nonce ++ be_bytes 8 fh_num.

(** The handle to publish: the persistent one, or a fresh boot-scoped one. *)
Definition mint_fh (object : ServerObject) (s : StateManager) : bytes * StateManager :=
  match claim_persistent_fh object s with
  | (Some fh, s) => (fh, s)
  | (None, s) =>
    let '(fh_num, s) := alloc_fh s in
    let fh := boot_fh (sm_fh_boot_nonce s) fh_num in
    (fh, set_sm_fh_to_object (<[fh := object]> (sm_fh_to_object s)) s)
  end.

Definition object_to_fh (object : ServerObject) (s : StateManager) : option bytes * StateManager :=
  match sm_object_to_fh s !! object with
  | Some fh => (Some fh, s)
  | None =>
    if is_retired s object then (None, s)
    else
      let '(fh, s) := mint_fh object s in
      match sm_object_to_fh s !! object with
      | Some winner =>
        (Some winner,
         if negb (bool_decide (winner = fh)) &&
            bool_decide (sm_fh_to_object s !! fh = Some object)
         then set_sm_fh_to_object (delete fh (sm_fh_to_object s)) s else s)
      | None =>
        let s := set_sm_object_to_fh (<[object := fh]> (sm_object_to_fh s)) s in
        if is_retired s object then
          (None, set_sm_object_to_fh (delete object (sm_object_to_fh s))
                   (set_sm_fh_to_object (delete fh (sm_fh_to_object s)) s))
        else (Some fh, s)
      end
  end.

Definition fh_to_object (fh : bytes) (s : StateManager) : option ServerObject :=
  if bool_decide (persistent_fh_body fh = None) &&
     (negb (bool_decide (length fh = FH_LEN)) ||
      negb (bool_decide (take FH_NONCE_LEN fh = sm_fh_boot_nonce s)))
  then None
  else sm_fh_to_object s !! fh.

(** ** Invariant *)

(** A handle in one of the two layouts, with the counter already used. *)
Definition fh_shape (s : StateManager) (fh : bytes) : Prop :=
  persistent_fh_body fh <> None \/
  exists n, 1 <= n < sm_next_fh s /\ fh = boot_fh (sm_fh_boot_nonce s) n.

(** The two maps are inverse to each other, handles are well shaped, the nonce
    cannot be taken for a persistent handle. *)
Record fh_wf (s : StateManager) : Prop := {
  fh_inverse : forall fh o, sm_fh_to_object s !! fh = Some o <-> sm_object_to_fh s !! o = Some fh;
  fh_shaped : forall fh o, sm_fh_to_object s !! fh = Some o -> fh_shape s fh;
  fh_persistent : forall id fh, sm_persistent_fh s !! id = Some fh -> persistent_fh_body fh <> None;
  fh_nonce : length (sm_fh_boot_nonce s) = FH_NONCE_LEN /\
             head (sm_fh_boot_nonce s) <> Some PERSISTENT_FH_TAG;
  fh_counter : 1 <= sm_next_fh s;
}.

(** ** Lemmas *)

Lemma boot_fh_length nonce n :
  length nonce = FH_NONCE_LEN -> length (boot_fh nonce n) = FH_LEN.
Proof. intros H. unfold boot_fh. by rewrite length_app, be_bytes_length, H. Qed.

Lemma boot_fh_not_persistent nonce n :
  length nonce = FH_NONCE_LEN -> head nonce <> Some PERSISTENT_FH_TAG ->
  persistent_fh_body (boot_fh nonce n) = None.
Proof.
  intros Hl Hh. unfold boot_fh, persistent_fh_body. destruct nonce as [|b rest]; [done|]. simpl.
  destruct (Z.eqb_spec b PERSISTENT_FH_TAG) as [->|]; [done|]. done.
Qed.

Lemma boot_fh_inj nonce n n' :
  is_u64 n -> is_u64 n' -> boot_fh nonce n = boot_fh nonce n' -> n = n'.
Proof.
  intros Hn Hn' He. unfold boot_fh in He. apply app_inv_head in He.
  by apply (be_bytes_inj 8); auto with nfs.
Qed.

(** The boot nonce never looks like a persistent handle's tag. *)
Lemma new_fh_boot_nonce_untagged rng secs nanos :
  head (new_fh_boot_nonce rng secs nanos) <> Some PERSISTENT_FH_TAG.
Proof.
  unfold new_fh_boot_nonce. set (nonce := match rng with Some n => n | None => _ end).
  destruct nonce as [|b rest]; [done|].
  destruct (Z.eqb_spec b PERSISTENT_FH_TAG) as [->|Hne]; simpl; [done|congruence].
Qed.

Lemma fh_to_object_shaped s fh :
  fh_wf s -> fh_shape s fh -> fh_to_object fh s = sm_fh_to_object s !! fh.
Proof.
  intros Hwf [Hp|(n & _ & ->)]; unfold fh_to_object.
  - by rewrite bool_decide_eq_false_2.
  - destruct (fh_nonce _ Hwf) as [Hl _].
    rewrite (bool_decide_eq_true_2 (length _ = _)) by (by apply boot_fh_length).
    rewrite (bool_decide_eq_true_2 (take _ _ = _)), andb_false_r; [done|].
    unfold boot_fh. rewrite <- Hl. apply take_app_length.
Qed.

Lemma claim_persistent_spec object s fh s' :
  fh_wf s -> sm_object_to_fh s !! object = None ->
  claim_persistent_fh object s = (fh, s') ->
  match fh with
  | None => s' = s
  | Some fh => s' = set_sm_fh_to_object (<[fh := object]> (sm_fh_to_object s)) s /\
               sm_fh_to_object s !! fh = None /\ persistent_fh_body fh <> None
  end.
Proof.
  intros Hwf Hno. unfold claim_persistent_fh.
  destruct object as [id|id|p n]; try (by intros [= <- <-]).
  destruct (sm_persistent_fh s !! id) as [pfh|] eqn:Hp; [|by intros [= <- <-]].
  destruct (sm_fh_to_object s !! pfh) as [ex|] eqn:Hex.
  - case_bool_decide as He; [|by intros [= <- <-]].
    subst ex. apply (fh_inverse _ Hwf) in Hex. congruence.
  - intros [= <- <-]. split_and!; [done..|]. by apply (fh_persistent _ Hwf id).
Qed.

Lemma mint_fh_spec object s fh s' :
  fh_wf s -> sm_object_to_fh s !! object = None -> is_u64 (sm_next_fh s) ->
  mint_fh object s = (fh, s') ->
  sm_fh_to_object s !! fh = None /\
  sm_fh_to_object s' = <[fh := object]> (sm_fh_to_object s) /\
  sm_object_to_fh s' = sm_object_to_fh s /\ sm_persistent_fh s' = sm_persistent_fh s /\
  sm_retired_objects s' = sm_retired_objects s /\ sm_fh_boot_nonce s' = sm_fh_boot_nonce s /\
  ((persistent_fh_body fh <> None /\ sm_next_fh s' = sm_next_fh s) \/
   (fh = boot_fh (sm_fh_boot_nonce s) (sm_next_fh s) /\
    sm_next_fh s' = u64_wrap (sm_next_fh s + 1))).
Proof.
  intros Hwf Hno Hu. unfold mint_fh.
  destruct (claim_persistent_fh object s) as [pfh s1] eqn:Hc.
  pose proof (claim_persistent_spec object s pfh s1 Hwf Hno Hc) as Hs.
  destruct pfh as [pfh|].
  - destruct Hs as (-> & Hn & Hb). intros [= <- <-]. split_and!; try done. by left.
  - subst s1. intros [= <- <-]. simpl. split_and!; try done; [|by right].
    destruct (sm_fh_to_object s !! _) as [o|] eqn:E; [|done]. exfalso.
    destruct (fh_shaped _ Hwf _ _ E) as [Hp|(n & Hn & He)].
    + apply Hp. by apply boot_fh_not_persistent; apply (fh_nonce _ Hwf).
    + apply boot_fh_inj in He; [lia|done|]. unfold is_u64 in *. lia.
Qed.

Lemma fh_shape_mono s s' fh :
  sm_fh_boot_nonce s' = sm_fh_boot_nonce s -> sm_next_fh s <= sm_next_fh s' ->
  fh_shape s fh -> fh_shape s' fh.
Proof.
  intros Hn Hle [Hp|(n & Hb & ->)]; [by left|]. right. exists n. rewrite Hn. split; [lia|done].
Qed.

(** Publishing a freshly minted handle keeps the tables inverse. *)
Lemma publish_fh_wf object s fh s1 :
  fh_wf s -> 1 <= sm_next_fh s < u64_max -> sm_object_to_fh s !! object = None ->
  mint_fh object s = (fh, s1) ->
  let s2 := set_sm_object_to_fh (<[object := fh]> (sm_object_to_fh s1)) s1 in
  fh_wf s2 /\ fh_shape s2 fh.
Proof.
  intros Hwf Hnext Ho Hm.
  apply mint_fh_spec in Hm as (Hnew & Hf & Hof & Hp & Hret & Hnon & Hsh);
    [|done..|unfold is_u64, u64_max in *; lia].
  assert (Hle : sm_next_fh s <= sm_next_fh s1).
  { destruct Hsh as [[_ ->]|[_ ->]]; [lia|].
    rewrite u64_wrap_small by (unfold is_u64, u64_max in *; lia). lia. }
  assert (Hshape : fh_shape s1 fh).
  { destruct Hsh as [[Hb _]|[-> Hn]]; [by left|]. right. exists (sm_next_fh s). rewrite Hn, Hnon.
    rewrite u64_wrap_small by (unfold is_u64, u64_max in *; lia). split; [lia|done]. }
  split; [|exact Hshape].
  destruct Hwf as [Hinv Hs Hper Hno Hcnt]. split; simpl.
  - intros fh' o. rewrite Hf, Hof. destruct (decide (fh' = fh)) as [->|Hne].
    + rewrite lookup_insert_eq. destruct (decide (o = object)) as [->|Hno'].
      * rewrite lookup_insert_eq. done.
      * rewrite lookup_insert_ne by done. split; [congruence|].
        intros H%Hinv. congruence.
    + rewrite lookup_insert_ne by done. rewrite Hinv.
      destruct (decide (o = object)) as [->|Hno'].
      * rewrite lookup_insert_eq. split; congruence.
      * by rewrite lookup_insert_ne.
  - intros fh' o. rewrite Hf. intros [[<- <-]|[_ H]]%lookup_insert_Some.
    + exact Hshape.
    + apply (fh_shape_mono s); [done|done|]. by apply (Hs _ o).
  - intros id fh'. rewrite Hp. apply Hper.
  - by rewrite Hnon.
  - lia.
Qed.

(** A live object without a handle: the fresh one is published. *)
Lemma object_to_fh_fresh object s fh s1 :
  fh_wf s -> is_u64 (sm_next_fh s) -> sm_object_to_fh s !! object = None ->
  is_retired s object = false -> mint_fh object s = (fh, s1) ->
  object_to_fh object s =
  (Some fh, set_sm_object_to_fh (<[object := fh]> (sm_object_to_fh s1)) s1).
Proof.
  intros Hwf Hu Ho Hr Hm. unfold object_to_fh. rewrite Ho, Hr, Hm.
  apply mint_fh_spec in Hm as (_ & _ & Hof & _ & Hret & _); [|done..].
  rewrite Hof, Ho. unfold is_retired in *. simpl. by rewrite Hret, Hr.
Qed.

Lemma object_to_fh_wf object s :
  fh_wf s -> 1 <= sm_next_fh s < u64_max -> fh_wf (object_to_fh object s).2.
Proof.
  intros Hwf Hnext. assert (Hu : is_u64 (sm_next_fh s)) by (unfold is_u64, u64_max in *; lia).
  destruct (sm_object_to_fh s !! object) as [fh|] eqn:Ho.
  { unfold object_to_fh. by rewrite Ho. }
  destruct (is_retired s object) eqn:Hr.
  { unfold object_to_fh. by rewrite Ho, Hr. }
  destruct (mint_fh object s) as [fh s1] eqn:Hm.
  rewrite (object_to_fh_fresh _ _ _ _ Hwf Hu Ho Hr Hm). by apply (publish_fh_wf object s).
Qed.

(** A minted filehandle names its object: for any live object,
    [object_to_fh] returns a handle that resolves to exactly that object, the
    handle was either the object's already or resolved to nothing before, every
    other object keeps its handle, and no two objects ever share one (the two
    tables stay inverse to each other).  It declines only for a retired object
    that has no handle. *)
Theorem object_to_fh_roundtrip object s r s' :
  fh_wf s -> 1 <= sm_next_fh s < u64_max -> object_to_fh object s = (r, s') ->
  fh_wf s' /\
  match r with
  | None => is_retired s object = true /\ sm_object_to_fh s !! object = None /\ s' = s
  | Some fh =>
    fh_to_object fh s' = Some object /\
    (sm_object_to_fh s !! object = Some fh \/ fh_to_object fh s = None) /\
    (forall o fh', sm_object_to_fh s !! o = Some fh' -> sm_object_to_fh s' !! o = Some fh')
  end.
Proof.
  intros Hwf Hnext Hres. assert (Hu : is_u64 (sm_next_fh s)) by (unfold is_u64, u64_max in *; lia).
  split; [replace s' with (object_to_fh object s).2 by (by rewrite Hres);
          by apply object_to_fh_wf|].
  destruct (sm_object_to_fh s !! object) as [fh|] eqn:Ho.
  { unfold object_to_fh in Hres. rewrite Ho in Hres. injection Hres as <- <-.
    apply (fh_inverse _ Hwf) in Ho as Hf.
    rewrite fh_to_object_shaped by (done || by apply (fh_shaped _ Hwf _ object)).
    split_and!; [done|by left|done]. }
  destruct (is_retired s object) eqn:Hr.
  { unfold object_to_fh in Hres. rewrite Ho, Hr in Hres. by injection Hres as <- <-. }
  destruct (mint_fh object s) as [fh s1] eqn:Hm.
  destruct (publish_fh_wf object s fh s1 Hwf Hnext Ho Hm) as [Hwf2 Hsh].
  rewrite (object_to_fh_fresh _ _ _ _ Hwf Hu Ho Hr Hm) in Hres. injection Hres as <- <-.
  apply mint_fh_spec in Hm as (Hnew & Hf & Hof & _); [|done..]. split_and!.
  - rewrite fh_to_object_shaped by done. simpl. rewrite Hf. apply lookup_insert_eq.
  - right. unfold fh_to_object. rewrite Hnew. by destruct (_ && _).
  - intros o fh' H. simpl. rewrite Hof. rewrite lookup_insert_ne by congruence. done.
Qed.

(** Handles do not survive a restart by accident: a handle in the boot
    layout minted under one nonce never resolves on a server whose nonce
    differs, whatever that server has minted since. *)
Theorem boot_fh_rejected nonce n s :
  length nonce = FH_NONCE_LEN -> head nonce <> Some PERSISTENT_FH_TAG ->
  nonce <> sm_fh_boot_nonce s -> fh_to_object (boot_fh nonce n) s = None.
Proof.
  intros Hl Hh Hne. unfold fh_to_object.
  rewrite (bool_decide_eq_true_2 (persistent_fh_body _ = None)) by (by apply boot_fh_not_persistent).
  rewrite (bool_decide_eq_false_2 (take _ _ = _)); [by rewrite orb_true_r|].
  intros Ht. apply Hne. rewrite <- Ht. unfold boot_fh. rewrite <- Hl. symmetry. apply take_app_length.
Qed.

Lemma with_config_fh_wf cfg rng secs nanos :
  (forall n, rng = Some n -> length n = FH_NONCE_LEN) -> fh_wf (with_config cfg rng secs nanos).
Proof.
  intros Hrng. split; simpl.
  - intros fh o. rewrite !lookup_empty. split; congruence.
  - intros fh o. by rewrite lookup_empty.
  - intros id fh. by rewrite lookup_empty.
  - split; [|apply new_fh_boot_nonce_untagged]. unfold new_fh_boot_nonce.
    set (nonce := match rng with Some n => n | None => _ end).
    assert (Hn : length nonce = 8%nat).
    { unfold nonce. destruct rng as [n|]; [by apply Hrng|apply be_bytes_length]. }
    destruct nonce as [|b rest]; [done|]. by destruct (b =? PERSISTENT_FH_TAG).
  - lia.
Qed.

Lemma record_persistent_wf id encoded s :
  encoded <> [] -> zlen encoded <= MAX_PERSISTENT_HANDLE_LEN -> fh_wf s ->
  fh_wf (record_persistent_fh id encoded s).
Proof.
  intros He Hl [Hi Hs Hp Hn Hc]. split; try done. simpl.
  intros id' fh [[_ <-]|[_ H]]%lookup_insert_Some; [|by apply (Hp id')].
  unfold persistent_fh_body. rewrite Z.eqb_refl, bool_decide_eq_false_2 by done. simpl.
  by rewrite (proj2 (Z.leb_le _ _) Hl).
Qed.

(** ** Concrete instances *)

Lemma example_fh_wf : fh_wf example_boot.
Proof. apply with_config_fh_wf. by intros n [= <-]. Qed.

Lemma object_to_fh_roundtrip_witness :
  exists fh s', object_to_fh (Fs 1) example_boot = (Some fh, s') /\
    fh_to_object fh s' = Some (Fs 1).
Proof.
  destruct (object_to_fh (Fs 1) example_boot) as [r s'] eqn:E.
  pose proof (object_to_fh_roundtrip (Fs 1) example_boot r s' example_fh_wf
    ltac:(vm_compute; done) E) as [_ H].
  destruct r as [fh|].
  - exists fh, s'. split; [reflexivity|exact (proj1 H)].
  - exfalso. apply (f_equal fst) in E. revert E. vm_compute. discriminate.
Defined.

Lemma boot_fh_rejected_witness :
  fh_to_object (boot_fh (be_bytes 8 5) 1) (object_to_fh (Fs 1) example_boot).2 = None.
Proof.
  apply (boot_fh_rejected (be_bytes 8 5) 1 (object_to_fh (Fs 1) example_boot).2);
    vm_compute; done.
Defined.
