(* ===== verification/Invalidate.v ===== *)
(** * Retiring objects (session/invalidate.rs)

    [invalidate_objects] marks a set of backend objects retired and drops
    every mapping and every piece of client state that belongs to them.  The
    theorems: the sweep is complete and touches nothing else, and repeating it
    is a no-op that counts nothing.  That a retired object gets no open, lock
    or delegation state again, however requests interleave, is in
    [StateMachine]; filehandles under interleaving are in [MintRace]. *)

From stdpp Require Import base gmap list sets strings numbers.
From Stdlib Require Import ZArith Lia.
From S2P Require Import Prelude Xdr Rpc Types StateModel DelegTable Clients Filehandles.

Local Open Scope Z_scope.

Record InvalidationCounts := mkInvalidationCounts {
  ic_filehandles : Z;
  ic_opens : Z;
  ic_locks : Z;
  ic_delegations : Z;
  ic_metadata : Z;
}.
Definition counts_zero : InvalidationCounts := mkInvalidationCounts 0 0 0 0 0.

(** ** Operations *)

Definition belongs_to (object : ServerObject) (ids : gset Z) : bool :=
  match object with
  | Fs id | NamedAttrDir id => bool_decide (id ∈ ids)
  | NamedAttrFile parent _ => bool_decide (parent ∈ ids)
  end.

Definition mark_retired (ids : gset Z) (s : StateManager) : StateManager :=
  set_sm_retired_objects (ids ∪ sm_retired_objects s) s.

Section with_order.
Context {ho : HashOrder}.

(** The filehandle pass: collect the stale mappings, then remove each from both
    tables, then forget the persistent encodings. *)
Definition remove_mapping (s : StateManager) (entry : bytes * ServerObject) : StateManager :=
  set_sm_object_to_fh (delete entry.2 (sm_object_to_fh s))
    (set_sm_fh_to_object (delete entry.1 (sm_fh_to_object s)) s).

Definition stale_mappings (ids : gset Z) (s : StateManager) : list (bytes * ServerObject) :=
  List.filter (fun e => belongs_to e.2 ids) (hm_iter (sm_fh_to_object s)).

Definition sweep_filehandles (ids : gset Z) (s : StateManager) : StateManager :=
  let s := foldl remove_mapping s (stale_mappings ids s) in
  set_sm_persistent_fh (foldl (fun m id => delete id m) (sm_persistent_fh s) (hs_iter ids)) s.

Definition dropped {V} (object : V -> ServerObject) (ids : gset Z) (m : gmap bytes V)
    : list bytes :=
  hm_select (fun _ v => belongs_to (object v) ids) m.

Definition remove_all {V} (keys : list bytes) (m : gmap bytes V) : gmap bytes V :=
  foldl (fun m k => delete k m) m keys.

(** The pass under the write guard. *)
Definition sweep_state (ids : gset Z) (inner : StateInner) : StateInner * InvalidationCounts :=
  let dropped_delegations := dropped ds_object ids (in_delegations inner) in
  let delegations := remove_all dropped_delegations (in_delegations inner) in
  let client_delegations :=
    (fun set : gset bytes => foldl (fun X k => X ∖ {[k]}) set dropped_delegations)
      <$> in_client_delegations inner in
  let dir_delegations :=
    hm_retain (fun object _ => negb (belongs_to object ids)) (in_dir_delegations inner) in
  let dropped_opens := dropped os_object ids (in_open_files inner) in
  let dropped_locks := dropped ls_object ids (in_lock_files inner) in
  let metadata := hm_retain (fun object _ => negb (belongs_to object ids)) (in_metadata inner) in
  (mkStateInner (in_clients inner) (in_sessions inner)
     (remove_all dropped_opens (in_open_files inner))
     (remove_all dropped_locks (in_lock_files inner))
     delegations dir_delegations client_delegations metadata,
   mkInvalidationCounts 0 (zlen dropped_opens) (zlen dropped_locks) (zlen dropped_delegations)
     (Z.of_nat (size (in_metadata inner)) - Z.of_nat (size metadata))).

Definition invalidate_objects (ids : gset Z) (s : StateManager)
    : InvalidationCounts * StateManager :=
  if bool_decide (ids = ∅) then (counts_zero, s)
  else
    let s := mark_retired ids s in
    let filehandles := zlen (stale_mappings ids s) in
    let s := sweep_filehandles ids s in
    let '(inner, c) := sweep_state ids (sm_inner s) in
    (mkInvalidationCounts filehandles (ic_opens c) (ic_locks c) (ic_delegations c) (ic_metadata c),
     set_sm_inner inner s).
End with_order.

(** ** Lemmas *)

Lemma belongs_to_root o ids : belongs_to o ids = bool_decide (object_root o ∈ ids).
Proof. by destruct o. Qed.

Lemma foldl_delete {K V} `{Countable K} (l : list K) (m : gmap K V) k :
  foldl (fun m k => delete k m) m l !! k = if decide (k ∈ l) then None else m !! k.
Proof.
  revert m. induction l as [|x l IH]; intros m; cbn [foldl].
  - by rewrite decide_False by apply not_elem_of_nil.
  - rewrite IH. destruct (decide (k = x)) as [->|Hne].
    + rewrite lookup_delete_eq, (decide_True (P := x ∈ x :: l)) by (by left). by case_decide.
    + rewrite lookup_delete_ne by done.
      destruct (decide (k ∈ l)), (decide (k ∈ x :: l)) as [Hi|Hi]; try done.
      * destruct Hi. by right.
      * apply elem_of_cons in Hi as [?|?]; done.
Qed.

Section sweep.
Context {ho : HashOrder}.

Lemma remove_all_retain {V} (object : V -> ServerObject) ids m :
  remove_all (dropped object ids m) m = hm_retain (fun _ v => negb (belongs_to (object v) ids)) m.
Proof.
  apply map_eq. intros k. unfold remove_all, dropped. rewrite foldl_delete, lookup_hm_retain.
  case_decide as Hk.
  - apply elem_of_hm_select in Hk as (v & -> & ->). done.
  - destruct (m !! k) as [v|] eqn:E; [|done].
    destruct (belongs_to (object v) ids) eqn:Hb; [|done].
    destruct Hk. apply elem_of_hm_select. eauto.
Qed.

Lemma foldl_difference (l : list bytes) (X : gset bytes) :
  foldl (fun X k => X ∖ {[k]}) X l = X ∖ list_to_set l.
Proof. revert X. induction l as [|x l IH]; intros X; simpl; [|rewrite IH]; set_solver. Qed.

(** The guarded pass keeps exactly what does not belong to the ids. *)
Lemma sweep_state_spec ids i :
  let j := (sweep_state ids i).1 in
  in_clients j = in_clients i /\ in_sessions j = in_sessions i /\
  in_open_files j = hm_retain (fun _ o => negb (belongs_to (os_object o) ids)) (in_open_files i) /\
  in_lock_files j = hm_retain (fun _ l => negb (belongs_to (ls_object l) ids)) (in_lock_files i) /\
  in_delegations j = hm_retain (fun _ d => negb (belongs_to (ds_object d) ids)) (in_delegations i) /\
  in_metadata j = hm_retain (fun o _ => negb (belongs_to o ids)) (in_metadata i).
Proof. unfold sweep_state. simpl. rewrite !remove_all_retain. done. Qed.

Lemma sweep_deleg_wf ids i : deleg_wf i -> deleg_wf (sweep_state ids i).1.
Proof.
  intros [[S1 C1] [S2 C2]]. unfold deleg_wf, sweep_state. simpl. rewrite remove_all_retain.
  split; split.
  - intros o X k HX Hk. apply lookup_hm_retain_Some in HX as [HX Hb].
    destruct (S1 _ _ _ HX Hk) as (d & Hd & <-). exists d. by rewrite lookup_hm_retain_Some.
  - intros k d [Hd Hb]%lookup_hm_retain_Some. destruct (C1 _ _ Hd) as (X & HX & Hk).
    exists X. by rewrite lookup_hm_retain_Some.
  - intros c X k HX Hk. rewrite lookup_fmap in HX.
    destruct (in_client_delegations i !! c) as [Y|] eqn:HY; [|done]. injection HX as <-.
    rewrite foldl_difference in Hk. apply elem_of_difference in Hk as [Hk Hn].
    destruct (S2 _ _ _ HY Hk) as (d & Hd & Hc). exists d. split; [|done].
    apply lookup_hm_retain_Some. split; [done|].
    destruct (belongs_to (ds_object d) ids) eqn:Hb; [|done].
    destruct Hn. apply elem_of_list_to_set, elem_of_hm_select. eauto.
  - intros k d [Hd Hb]%lookup_hm_retain_Some. destruct (C2 _ _ Hd) as (X & HX & Hk).
    rewrite lookup_fmap, HX. simpl. eexists. split; [done|]. rewrite foldl_difference.
    apply elem_of_difference. split; [done|]. rewrite elem_of_list_to_set.
    intros (d' & Hd' & Hb')%elem_of_hm_select. assert (d' = d) as -> by congruence.
    by rewrite Hb' in Hb.
Qed.

Lemma foldl_remove_mapping l s :
  let s' := foldl remove_mapping s l in
  sm_fh_to_object s' = foldl (fun m k => delete k m) (sm_fh_to_object s) l.*1 /\
  sm_object_to_fh s' = foldl (fun m k => delete k m) (sm_object_to_fh s) l.*2 /\
  s' = set_sm_object_to_fh (sm_object_to_fh s') (set_sm_fh_to_object (sm_fh_to_object s') s).
Proof.
  revert s. induction l as [|e l IH]; intros s; cbn [foldl].
  - split_and!; try done. by destruct s.
  - destruct (IH (remove_mapping s e)) as (H1 & H2 & H3). split_and!.
    + rewrite H1. done.
    + rewrite H2. done.
    + etransitivity; [exact H3|]. done.
Qed.

Lemma elem_of_stale ids s fh o :
  (fh, o) ∈ stale_mappings ids s <-> sm_fh_to_object s !! fh = Some o /\ belongs_to o ids = true.
Proof.
  unfold stale_mappings. rewrite list_elem_of_In, filter_In, <- list_elem_of_In, elem_of_hm_iter.
  done.
Qed.

(** The filehandle pass on inverse tables. *)
Lemma sweep_filehandles_spec ids s :
  fh_wf s ->
  let s' := sweep_filehandles ids s in
  sm_fh_to_object s' = hm_retain (fun _ o => negb (belongs_to o ids)) (sm_fh_to_object s) /\
  sm_object_to_fh s' = hm_retain (fun o _ => negb (belongs_to o ids)) (sm_object_to_fh s) /\
  (forall id, sm_persistent_fh s' !! id =
     if bool_decide (id ∈ ids) then None else sm_persistent_fh s !! id) /\
  sm_inner s' = sm_inner s /\ sm_retired_objects s' = sm_retired_objects s /\
  sm_next_fh s' = sm_next_fh s /\ sm_fh_boot_nonce s' = sm_fh_boot_nonce s.
Proof.
  intros Hwf. unfold sweep_filehandles. cbv zeta.
  destruct (foldl_remove_mapping (stale_mappings ids s) s) as (H1 & H2 & H3).
  rewrite H3. simpl. rewrite H1, H2. split_and!; try done.
  - apply map_eq. intros fh. rewrite foldl_delete, lookup_hm_retain. case_decide as Hi.
    + apply list_elem_of_fmap in Hi as ([fh' o] & -> & [Hf Hb]%elem_of_stale). simpl.
      by rewrite Hf, Hb.
    + destruct (sm_fh_to_object s !! fh) as [o|] eqn:E; [|done].
      destruct (belongs_to o ids) eqn:Hb; [|done]. destruct Hi.
      apply list_elem_of_fmap. exists (fh, o). split; [done|]. by apply elem_of_stale.
  - apply map_eq. intros o. rewrite foldl_delete, lookup_hm_retain. case_decide as Hi.
    + apply list_elem_of_fmap in Hi as ([fh o'] & -> & [Hf Hb]%elem_of_stale). simpl.
      rewrite Hb. by destruct (sm_object_to_fh s !! o').
    + destruct (sm_object_to_fh s !! o) as [fh|] eqn:E; [|done].
      destruct (belongs_to o ids) eqn:Hb; [|done]. destruct Hi.
      apply list_elem_of_fmap. exists (fh, o). split; [done|]. apply elem_of_stale.
      split; [|done]. by apply (fh_inverse _ Hwf).
  - intros id. rewrite foldl_delete.
    destruct (decide (id ∈ hs_iter ids)) as [Hi|Hi]; rewrite elem_of_hs_iter in Hi.
    + by rewrite bool_decide_eq_true_2.
    + by rewrite bool_decide_eq_false_2.
Qed.

Lemma sweep_fh_wf ids s : fh_wf s -> fh_wf (sweep_filehandles ids s).
Proof.
  intros Hwf. destruct (sweep_filehandles_spec ids s Hwf) as (Hf & Ho & Hp & _ & _ & Hn & Hb).
  destruct Hwf as [Hi Hs Hper Hno Hc]. split.
  - intros fh o. rewrite Hf, Ho, !lookup_hm_retain_Some, Hi. done.
  - intros fh o. rewrite Hf. intros [H _]%lookup_hm_retain_Some.
    apply (fh_shape_mono s); [done|lia|]. by apply (Hs _ o).
  - intros id fh. rewrite Hp. case_bool_decide; [done|]. apply Hper.
  - by rewrite Hb.
  - lia.
Qed.

(** What belongs to the ids, after an invalidation of them. *)
Definition nothing_for (ids : gset Z) (s : StateManager) : Prop :=
  (forall fh o, fh_to_object fh s = Some o -> object_root o ∉ ids) /\
  (forall o fh, sm_object_to_fh s !! o = Some fh -> object_root o ∉ ids) /\
  (forall id fh, sm_persistent_fh s !! id = Some fh -> id ∉ ids) /\
  (forall k st, in_open_files (sm_inner s) !! k = Some st -> object_root (os_object st) ∉ ids) /\
  (forall k st, in_lock_files (sm_inner s) !! k = Some st -> object_root (ls_object st) ∉ ids) /\
  (forall k d, in_delegations (sm_inner s) !! k = Some d -> object_root (ds_object d) ∉ ids) /\
  (forall o m, in_metadata (sm_inner s) !! o = Some m -> object_root o ∉ ids).

(** What an invalidation leaves alone: the clients, the sessions, and every
    entry of every table that belongs to another object. *)
Definition others_kept (ids : gset Z) (s s' : StateManager) : Prop :=
  in_clients (sm_inner s') = in_clients (sm_inner s) /\
  in_sessions (sm_inner s') = in_sessions (sm_inner s) /\
  (forall fh o, object_root o ∉ ids ->
     fh_to_object fh s' = Some o <-> fh_to_object fh s = Some o) /\
  (forall o fh, object_root o ∉ ids ->
     sm_object_to_fh s' !! o = Some fh <-> sm_object_to_fh s !! o = Some fh) /\
  (forall id, id ∉ ids -> sm_persistent_fh s' !! id = sm_persistent_fh s !! id) /\
  (forall k st, object_root (os_object st) ∉ ids ->
     in_open_files (sm_inner s') !! k = Some st <-> in_open_files (sm_inner s) !! k = Some st) /\
  (forall k st, object_root (ls_object st) ∉ ids ->
     in_lock_files (sm_inner s') !! k = Some st <-> in_lock_files (sm_inner s) !! k = Some st) /\
  (forall k d, object_root (ds_object d) ∉ ids ->
     in_delegations (sm_inner s') !! k = Some d <-> in_delegations (sm_inner s) !! k = Some d) /\
  (forall o m, object_root o ∉ ids ->
     in_metadata (sm_inner s') !! o = Some m <-> in_metadata (sm_inner s) !! o = Some m).

(** The fields that are not tables: the counters, the configuration and the
    identity of the server. *)
Definition globals_kept (s s' : StateManager) : Prop :=
  (sm_next_fh s', sm_fh_boot_nonce s', sm_next_clientid s', sm_next_stateid s',
   sm_next_changeid s', sm_next_synth_fileid s', sm_next_connectionid s', sm_config s',
   sm_write_verifier s', sm_server_owner s', sm_server_scope s') =
  (sm_next_fh s, sm_fh_boot_nonce s, sm_next_clientid s, sm_next_stateid s,
   sm_next_changeid s, sm_next_synth_fileid s, sm_next_connectionid s, sm_config s,
   sm_write_verifier s, sm_server_owner s, sm_server_scope s).

Lemma sweep_filehandles_globals ids s : globals_kept s (sweep_filehandles ids s).
Proof.
  unfold globals_kept, sweep_filehandles. cbv zeta.
  by destruct (foldl_remove_mapping (stale_mappings ids s) s) as (_ & _ & ->).
Qed.

Lemma not_belongs o ids : negb (belongs_to o ids) = true -> object_root o ∉ ids.
Proof. rewrite belongs_to_root. intros ?. by bool_to_prop. Qed.

Lemma invalidate_objects_eq ids s :
  ids <> ∅ ->
  (invalidate_objects ids s).2 =
  set_sm_inner (sweep_state ids (sm_inner s)).1 (sweep_filehandles ids (mark_retired ids s)).
Proof.
  intros Hne. unfold invalidate_objects. rewrite bool_decide_eq_false_2 by done.
  assert (Hin : sm_inner (sweep_filehandles ids (mark_retired ids s)) = sm_inner s).
  { unfold sweep_filehandles. cbv zeta. simpl.
    destruct (foldl_remove_mapping (stale_mappings ids (mark_retired ids s)) (mark_retired ids s))
      as (_ & _ & ->). done. }
  rewrite Hin. by destruct (sweep_state ids (sm_inner s)).
Qed.

(** What a sweep keeps of a table: the entries of other objects, as they were. *)
Lemma kept_others {K V} `{Countable K} (object : K -> V -> ServerObject) (ids : gset Z)
    (m m' : gmap K V) :
  m' = hm_retain (fun k v => negb (belongs_to (object k v) ids)) m ->
  (forall k v, m' !! k = Some v -> object_root (object k v) ∉ ids) /\
  (forall k v, object_root (object k v) ∉ ids -> m' !! k = Some v <-> m !! k = Some v).
Proof.
  intros ->. split; intros k v.
  - intros [_ ?]%lookup_hm_retain_Some. by apply not_belongs.
  - intros Ho. rewrite lookup_hm_retain_Some, belongs_to_root, bool_decide_eq_false_2 by done. tauto.
Qed.

(** What filehandles resolve to afterwards. *)
Lemma fh_to_object_swept ids s j fh :
  fh_wf s ->
  fh_to_object fh (set_sm_inner j (sweep_filehandles ids (mark_retired ids s))) =
  match fh_to_object fh s with
  | Some o => if belongs_to o ids then None else Some o
  | None => None
  end.
Proof.
  intros Hfh. destruct (sweep_filehandles_spec ids (mark_retired ids s)) as (Hf & _ & _ & _ & _ & _ & Hb).
  { destruct Hfh. by split. }
  unfold fh_to_object. simpl in *. rewrite Hb, Hf. destruct (_ && _); [done|].
  rewrite lookup_hm_retain. simpl. destruct (sm_fh_to_object s !! fh) as [o|]; [|done].
  by destruct (belongs_to o ids).
Qed.

(** C39. An invalidation is complete and local: afterwards no filehandle
    resolves to a retired object or a named attribute of one, none of them has
    a handle, a persistent encoding, an open, a lock, a delegation or synthetic
    metadata, all of them are marked retired; and every client, every session,
    every filehandle in either direction, persistent encoding, open, lock,
    delegation and piece of synthetic metadata of any other object is as before,
    and so are the counters and the configuration. *)
Theorem invalidate_complete ids s :
  ids <> ∅ -> fh_wf s -> deleg_wf (sm_inner s) ->
  let s' := (invalidate_objects ids s).2 in
  nothing_for ids s' /\ (forall o, is_retired s' o = is_retired s o || belongs_to o ids) /\
  fh_wf s' /\ deleg_wf (sm_inner s') /\ others_kept ids s s' /\ globals_kept s s'.
Proof.
  intros Hne Hfh Hd. cbv zeta. rewrite invalidate_objects_eq by done.
  destruct (sweep_state_spec ids (sm_inner s)) as (Ec & Es & Eo & El & Ed & Em).
  assert (Hfh1 : fh_wf (mark_retired ids s)) by (destruct Hfh; by split).
  destruct (sweep_filehandles_spec ids (mark_retired ids s) Hfh1) as (_ & Hof & Hp & _ & Hr & _).
  pose proof (fun j fh => fh_to_object_swept ids s j fh Hfh) as Hres.
  pose proof (sweep_fh_wf ids (mark_retired ids s) Hfh1) as Hfh'.
  pose proof (sweep_deleg_wf ids (sm_inner s) Hd) as Hd'.
  pose proof (sweep_filehandles_globals ids (mark_retired ids s)) as Hg.
  set (s1 := sweep_filehandles ids (mark_retired ids s)) in *. clearbody s1.
  set (j := (sweep_state ids (sm_inner s)).1) in *. clearbody j.
  apply (kept_others (fun o _ => o)) in Hof as [Hof Hof'], Em as [Em Em'].
  apply (kept_others (fun _ st => os_object st)) in Eo as [Eo Eo'].
  apply (kept_others (fun _ st => ls_object st)) in El as [El El'].
  apply (kept_others (fun _ st => ds_object st)) in Ed as [Ed Ed'].
  split_and!; simpl; try done.
  - split_and!; simpl; try done.
    + intros fh o. rewrite Hres. destruct (fh_to_object fh s) as [o'|]; [|done].
      destruct (belongs_to o' ids) eqn:E; [done|]. intros [= <-]. apply not_belongs. by rewrite E.
    + intros id fh. rewrite Hp. by case_bool_decide.
  - intros o. unfold is_retired. simpl. rewrite Hr, belongs_to_root, orb_comm. simpl.
    rewrite <- bool_decide_or. apply bool_decide_ext. set_solver.
  - destruct Hfh'. by split.
  - split_and!; simpl; try done.
    + intros fh o Ho. rewrite Hres. destruct (fh_to_object fh s) as [o'|]; [|done].
      rewrite belongs_to_root. case_bool_decide; [|done]. split; [done|]. by intros [= ->].
    + intros id Hid. rewrite Hp. by case_bool_decide.
Qed.
End sweep.

Lemma hm_select_none {ho : HashOrder} {V} (f : bytes -> V -> bool) (m : gmap bytes V) :
  (forall k v, m !! k = Some v -> f k v = false) -> hm_select f m = [].
Proof.
  intros Hf. apply elem_of_nil_inv. intros k (v & Hk & Ht)%elem_of_hm_select.
  by rewrite (Hf k v Hk) in Ht.
Qed.

Lemma dropped_retained {ho ho' : HashOrder} {V} (object : V -> ServerObject)
    (ids : gset Z) (m : gmap bytes V) :
  @dropped ho' V object ids (remove_all (@dropped ho V object ids m) m) = [].
Proof.
  unfold dropped at 1. rewrite remove_all_retain. apply hm_select_none.
  intros k v [_ H]%lookup_hm_retain_Some. by apply negb_true_iff.
Qed.

Lemma hm_retain_twice {K V} `{Countable K} (f : K -> V -> bool) (m : gmap K V) :
  hm_retain f (hm_retain f m) = hm_retain f m.
Proof. apply hm_retain_true. by intros k v [_ Hf]%lookup_hm_retain_Some. Qed.

Lemma sweep_state_twice {ho ho' : HashOrder} ids i :
  @sweep_state ho' ids (@sweep_state ho ids i).1 = ((@sweep_state ho ids i).1, counts_zero).
Proof.
  unfold sweep_state. cbn [fst in_delegations in_open_files in_lock_files in_client_delegations
    in_dir_delegations in_metadata in_clients in_sessions].
  rewrite !dropped_retained, !hm_retain_twice, Z.sub_diag. cbn [remove_all foldl]. f_equal. f_equal.
  rewrite <- map_fmap_compose. apply map_fmap_ext. done.
Qed.

Lemma sweep_filehandles_twice {ho ho' : HashOrder} ids s :
  fh_wf s ->
  @stale_mappings ho' ids (@sweep_filehandles ho ids s) = [] /\
  @sweep_filehandles ho' ids (@sweep_filehandles ho ids s) = @sweep_filehandles ho ids s.
Proof.
  intros Hwf. destruct (@sweep_filehandles_spec ho ids s Hwf) as (Hf & _ & Hp & _).
  assert (Hnil : @stale_mappings ho' ids (@sweep_filehandles ho ids s) = []).
  { apply elem_of_nil_inv. intros [fh o] [Ho Hb]%elem_of_stale. rewrite Hf in Ho.
    apply lookup_hm_retain_Some in Ho as [_ Hn]. by rewrite Hb in Hn. }
  split; [done|]. unfold sweep_filehandles at 1. rewrite Hnil. cbn [foldl].
  set (s1 := @sweep_filehandles ho ids s) in *.
  assert (He : foldl (fun m id => delete id m) (sm_persistent_fh s1) (@hs_iter ho' Z _ _ ids)
               = sm_persistent_fh s1).
  { apply map_eq. intros id. rewrite foldl_delete. case_decide as Hi; [|done].
    rewrite elem_of_hs_iter in Hi. rewrite Hp. by rewrite bool_decide_eq_true_2. }
  rewrite He. by destruct s1.
Qed.

(** Invalidation is idempotent: repeating it on the same objects, whatever
    order the tables are enumerated in, reports zero for every count and
    changes nothing. *)
Theorem invalidate_idempotent {ho ho' : HashOrder} ids s :
  fh_wf s ->
  @invalidate_objects ho' ids (@invalidate_objects ho ids s).2 =
  (counts_zero, (@invalidate_objects ho ids s).2).
Proof.
  intros Hwf. destruct (decide (ids = ∅)) as [->|Hne].
  { unfold invalidate_objects. by rewrite !bool_decide_eq_true_2. }
  rewrite invalidate_objects_eq by done. unfold invalidate_objects.
  rewrite bool_decide_eq_false_2 by done.
  assert (Hwf' : fh_wf (mark_retired ids s)) by (destruct Hwf; by split).
  destruct (@sweep_filehandles_twice ho ho' ids (mark_retired ids s) Hwf') as [Hnil Htw].
  destruct (@sweep_filehandles_spec ho ids (mark_retired ids s) Hwf') as (_ & _ & _ & _ & Hr & _).
  set (s1 := @sweep_filehandles ho ids (mark_retired ids s)) in *. clearbody s1.
  set (j := (@sweep_state ho ids (sm_inner s)).1) in *.
  assert (Hm : mark_retired ids (set_sm_inner j s1) = set_sm_inner j s1).
  { unfold mark_retired. simpl. rewrite Hr. simpl.
    replace (ids ∪ (ids ∪ sm_retired_objects s)) with (sm_retired_objects s1)
      by (rewrite Hr; simpl; set_solver).
    by destruct s1. }
  rewrite Hm. cbv zeta.
  assert (Hst : @stale_mappings ho' ids (set_sm_inner j s1) = @stale_mappings ho' ids s1) by done.
  assert (Hsw : @sweep_filehandles ho' ids (set_sm_inner j s1) = set_sm_inner j s1).
  { unfold sweep_filehandles in *. rewrite Hst, Hnil in *. simpl in *.
    apply (f_equal sm_persistent_fh) in Htw. simpl in Htw. rewrite Htw. by destruct s1. }
  rewrite Hst, Hnil, Hsw. cbn [sm_inner set_sm_inner].
  unfold j at 1. rewrite (@sweep_state_twice ho ho'). fold j. simpl. by destruct s1.
Qed.

(** ** Concrete instances *)

(** Object 1 has a handle; it is retired. *)
Definition example_named : StateManager := (object_to_fh (Fs 1) example_boot).2.

Lemma example_named_wf : fh_wf example_named.
Proof. apply object_to_fh_wf; [exact example_fh_wf|vm_compute; done]. Qed.

Lemma invalidate_complete_witness :
  nothing_for {[1]} (@invalidate_objects canonical_order {[1]} example_named).2 /\
  fh_to_object (boot_fh (sm_fh_boot_nonce example_boot) 1) example_named = Some (Fs 1).
Proof.
  split; [|vm_compute; reflexivity].
  apply (@invalidate_complete canonical_order {[1]} example_named).
  - vm_compute. discriminate.
  - exact example_named_wf.
  - apply deleg_wf_empty; vm_compute; reflexivity.
Defined.

Lemma invalidate_idempotent_witness :
  @invalidate_objects reversed_order {[1]} (@invalidate_objects canonical_order {[1]} example_named).2
  = (counts_zero, (@invalidate_objects canonical_order {[1]} example_named).2).
Proof. apply (@invalidate_idempotent canonical_order reversed_order {[1]} example_named example_named_wf). Defined.
