(* ===== verification/FsApi.v ===== *)
(** * The filesystem interface (fs.rs)

    The types a backend and the server exchange: error values and their wire
    status, object attributes and partial updates of them, the caller's
    identity, and the requests and results of the operations.  File names,
    link targets and attribute names are Rust [String]s, modelled by their
    UTF-8 bytes. *)

From stdpp Require Import base gmap list sets strings numbers.
From Stdlib Require Import ZArith Lia.
From S2P Require Import Prelude Xdr Rpc Types StateModel.

Local Open Scope Z_scope.

(** ** Errors *)

Inductive FsError :=
| Fs_Ok | Fs_PermissionDenied | Fs_NotFound | Fs_Io | Fs_AccessDenied | Fs_AlreadyExists
| Fs_CrossDevice | Fs_NotDirectory | Fs_IsDirectory | Fs_InvalidInput | Fs_FileTooLarge
| Fs_NoSpace | Fs_ReadOnly | Fs_NameTooLong | Fs_NotEmpty | Fs_Stale | Fs_Unsupported
| Fs_BadHandle | Fs_ServerFault | Fs_Delay.
#[export] Instance FsError_eq_dec : EqDecision FsError.
Proof. solve_decision. Defined.

Definition to_nfsstat4 (e : FsError) : NfsStat4 :=
  match e with
  | Fs_Ok => NFS_Ok
  | Fs_PermissionDenied => NFS_Perm
  | Fs_NotFound => NFS_Noent
  | Fs_Io => NFS_Io
  | Fs_AccessDenied => NFS_Access
  | Fs_AlreadyExists => NFS_Exist
  | Fs_CrossDevice => NFS_Xdev
  | Fs_NotDirectory => NFS_Notdir
  | Fs_IsDirectory => NFS_Isdir
  | Fs_InvalidInput => NFS_Inval
  | Fs_FileTooLarge => NFS_Fbig
  | Fs_NoSpace => NFS_Nospc
  | Fs_ReadOnly => NFS_Rofs
  | Fs_NameTooLong => NFS_Nametoolong
  | Fs_NotEmpty => NFS_Notempty
  | Fs_Stale => NFS_Stale
  | Fs_Unsupported => NFS_Notsupp
  | Fs_BadHandle => NFS_Badhandle
  | Fs_ServerFault => NFS_Serverfault
  | Fs_Delay => NFS_Delay
  end.

(** ** Attributes *)

Inductive ObjectType := OT_File | OT_Directory | OT_Symlink.
#[export] Instance ObjectType_eq_dec : EqDecision ObjectType.
Proof. solve_decision. Defined.

Record FsCapabilities := mkFsCapabilities {
  fc_symlinks : bool;
  fc_hard_links : bool;
  fc_xattrs : bool;
  fc_explicit_sync : bool;
  fc_case_sensitive : bool;
  fc_case_preserving : bool;
}.

Record FsLimits := mkFsLimits {
  fl_max_name_bytes : Z;
  fl_max_read : Z;
  fl_max_write : Z;
  fl_max_file_size : Z;
}.
Definition FsLimits_default : FsLimits := mkFsLimits 255 1048576 1048576 1099511627776.

Record FsStats := mkFsStats {
  fst_total_bytes : Z;
  fst_free_bytes : Z;
  fst_avail_bytes : Z;
  fst_total_files : Z;
  fst_free_files : Z;
  fst_avail_files : Z;
}.

Record FsId := mkFsId { fi_major : Z; fi_minor : Z }.
Definition FsId_default : FsId := mkFsId 1 1.

Record Timestamp := mkTimestamp { ts_seconds : Z; ts_nanos : Z }.
#[export] Instance Timestamp_eq_dec : EqDecision Timestamp.
Proof. solve_decision. Defined.

Inductive SetTime := ServerNow | Client (ts : Timestamp).
#[export] Instance SetTime_eq_dec : EqDecision SetTime.
Proof. solve_decision. Defined.

Record SetAttrs := mkSetAttrs {
  sa_size : option Z;
  sa_archive : option bool;
  sa_hidden : option bool;
  sa_mode : option Z;
  sa_uid : option Z;
  sa_gid : option Z;
  sa_system : option bool;
  sa_atime : option SetTime;
  sa_mtime : option SetTime;
  sa_birthtime : option SetTime;
}.

Definition is_none {A} (o : option A) : bool := match o with None => true | Some _ => false end.

Definition SetAttrs_is_empty (a : SetAttrs) : bool :=
  is_none (sa_size a) && is_none (sa_archive a) && is_none (sa_hidden a) && is_none (sa_mode a) &&
  is_none (sa_uid a) && is_none (sa_gid a) && is_none (sa_system a) && is_none (sa_atime a) &&
  is_none (sa_mtime a) && is_none (sa_birthtime a).

Record Attrs := mkAttrs {
  at_object_type : ObjectType;
  at_fsid : FsId;
  at_fileid : Z;
  at_change : Z;
  at_size : Z;
  at_space_used : Z;
  at_link_count : Z;
  at_mode : Z;
  at_uid : Z;
  at_gid : Z;
  at_atime : Timestamp;
  at_mtime : Timestamp;
  at_ctime : Timestamp;
  at_birthtime : Timestamp;
  at_archive : bool;
  at_hidden : bool;
  at_system : bool;
  at_has_named_attrs : bool;
}.

Definition set_at_change (v : Z) (r : Attrs) : Attrs :=
  mkAttrs (at_object_type r) (at_fsid r) (at_fileid r) v (at_size r) (at_space_used r)
    (at_link_count r) (at_mode r) (at_uid r) (at_gid r) (at_atime r) (at_mtime r) (at_ctime r)
    (at_birthtime r) (at_archive r) (at_hidden r) (at_system r) (at_has_named_attrs r).
Definition set_at_size (v : Z) (r : Attrs) : Attrs :=
  mkAttrs (at_object_type r) (at_fsid r) (at_fileid r) (at_change r) v (at_space_used r)
    (at_link_count r) (at_mode r) (at_uid r) (at_gid r) (at_atime r) (at_mtime r) (at_ctime r)
    (at_birthtime r) (at_archive r) (at_hidden r) (at_system r) (at_has_named_attrs r).
Definition set_at_space_used (v : Z) (r : Attrs) : Attrs :=
  mkAttrs (at_object_type r) (at_fsid r) (at_fileid r) (at_change r) (at_size r) v
    (at_link_count r) (at_mode r) (at_uid r) (at_gid r) (at_atime r) (at_mtime r) (at_ctime r)
    (at_birthtime r) (at_archive r) (at_hidden r) (at_system r) (at_has_named_attrs r).
Definition set_at_link_count (v : Z) (r : Attrs) : Attrs :=
  mkAttrs (at_object_type r) (at_fsid r) (at_fileid r) (at_change r) (at_size r)
    (at_space_used r) v (at_mode r) (at_uid r) (at_gid r) (at_atime r) (at_mtime r) (at_ctime r)
    (at_birthtime r) (at_archive r) (at_hidden r) (at_system r) (at_has_named_attrs r).
Definition set_at_mode (v : Z) (r : Attrs) : Attrs :=
  mkAttrs (at_object_type r) (at_fsid r) (at_fileid r) (at_change r) (at_size r)
    (at_space_used r) (at_link_count r) v (at_uid r) (at_gid r) (at_atime r) (at_mtime r)
    (at_ctime r) (at_birthtime r) (at_archive r) (at_hidden r) (at_system r)
    (at_has_named_attrs r).
Definition set_at_uid (v : Z) (r : Attrs) : Attrs :=
  mkAttrs (at_object_type r) (at_fsid r) (at_fileid r) (at_change r) (at_size r)
    (at_space_used r) (at_link_count r) (at_mode r) v (at_gid r) (at_atime r) (at_mtime r)
    (at_ctime r) (at_birthtime r) (at_archive r) (at_hidden r) (at_system r)
    (at_has_named_attrs r).
Definition set_at_gid (v : Z) (r : Attrs) : Attrs :=
  mkAttrs (at_object_type r) (at_fsid r) (at_fileid r) (at_change r) (at_size r)
    (at_space_used r) (at_link_count r) (at_mode r) (at_uid r) v (at_atime r) (at_mtime r)
    (at_ctime r) (at_birthtime r) (at_archive r) (at_hidden r) (at_system r)
    (at_has_named_attrs r).
Definition set_at_atime (v : Timestamp) (r : Attrs) : Attrs :=
  mkAttrs (at_object_type r) (at_fsid r) (at_fileid r) (at_change r) (at_size r)
    (at_space_used r) (at_link_count r) (at_mode r) (at_uid r) (at_gid r) v (at_mtime r)
    (at_ctime r) (at_birthtime r) (at_archive r) (at_hidden r) (at_system r)
    (at_has_named_attrs r).
Definition set_at_mtime (v : Timestamp) (r : Attrs) : Attrs :=
  mkAttrs (at_object_type r) (at_fsid r) (at_fileid r) (at_change r) (at_size r)
    (at_space_used r) (at_link_count r) (at_mode r) (at_uid r) (at_gid r) (at_atime r) v
    (at_ctime r) (at_birthtime r) (at_archive r) (at_hidden r) (at_system r)
    (at_has_named_attrs r).
Definition set_at_ctime (v : Timestamp) (r : Attrs) : Attrs :=
  mkAttrs (at_object_type r) (at_fsid r) (at_fileid r) (at_change r) (at_size r)
    (at_space_used r) (at_link_count r) (at_mode r) (at_uid r) (at_gid r) (at_atime r)
    (at_mtime r) v (at_birthtime r) (at_archive r) (at_hidden r) (at_system r)
    (at_has_named_attrs r).
Definition set_at_birthtime (v : Timestamp) (r : Attrs) : Attrs :=
  mkAttrs (at_object_type r) (at_fsid r) (at_fileid r) (at_change r) (at_size r)
    (at_space_used r) (at_link_count r) (at_mode r) (at_uid r) (at_gid r) (at_atime r)
    (at_mtime r) (at_ctime r) v (at_archive r) (at_hidden r) (at_system r)
    (at_has_named_attrs r).
Definition set_at_archive (v : bool) (r : Attrs) : Attrs :=
  mkAttrs (at_object_type r) (at_fsid r) (at_fileid r) (at_change r) (at_size r)
    (at_space_used r) (at_link_count r) (at_mode r) (at_uid r) (at_gid r) (at_atime r)
    (at_mtime r) (at_ctime r) (at_birthtime r) v (at_hidden r) (at_system r)
    (at_has_named_attrs r).
Definition set_at_hidden (v : bool) (r : Attrs) : Attrs :=
  mkAttrs (at_object_type r) (at_fsid r) (at_fileid r) (at_change r) (at_size r)
    (at_space_used r) (at_link_count r) (at_mode r) (at_uid r) (at_gid r) (at_atime r)
    (at_mtime r) (at_ctime r) (at_birthtime r) (at_archive r) v (at_system r)
    (at_has_named_attrs r).
Definition set_at_system (v : bool) (r : Attrs) : Attrs :=
  mkAttrs (at_object_type r) (at_fsid r) (at_fileid r) (at_change r) (at_size r)
    (at_space_used r) (at_link_count r) (at_mode r) (at_uid r) (at_gid r) (at_atime r)
    (at_mtime r) (at_ctime r) (at_birthtime r) (at_archive r) (at_hidden r) v
    (at_has_named_attrs r).
Definition set_at_has_named_attrs (v : bool) (r : Attrs) : Attrs :=
  mkAttrs (at_object_type r) (at_fsid r) (at_fileid r) (at_change r) (at_size r)
    (at_space_used r) (at_link_count r) (at_mode r) (at_uid r) (at_gid r) (at_atime r)
    (at_mtime r) (at_ctime r) (at_birthtime r) (at_archive r) (at_hidden r) (at_system r) v.

(** [Attrs::new]; [now] is its reading of the clock. *)
Definition Attrs_new (now : Timestamp) (object_type : ObjectType) (fileid : Z) : Attrs :=
  mkAttrs object_type FsId_default fileid (Z.max fileid 1) 0 0
    (match object_type with OT_Directory => 2 | _ => 1 end)
    (match object_type with OT_Directory => 493 | OT_File => 420 | OT_Symlink => 511 end)
    0 0 now now now now false false false false.

(** [ServerFileType::from_attrs] *)
Definition from_attrs (attrs : Attrs) : ServerFileType :=
  match at_object_type attrs with
  | OT_File => FT_Regular
  | OT_Directory => FT_Directory
  | OT_Symlink => FT_Symlink
  end.

(** ** Requests and results *)

Inductive AuthContext :=
| Auth_None
| Auth_Sys (uid gid : Z) (supplemental_gids : list Z)
| Auth_Unknown (flavor : Z).

Record RequestContext := mkRequestContext { rc_auth : AuthContext }.
Definition RequestContext_anonymous : RequestContext := mkRequestContext Auth_None.

Inductive CreateKind := CK_File | CK_Directory.

Record CreateRequest := mkCreateRequest { cr_kind : CreateKind; cr_attrs : SetAttrs }.

Record CreateResult (H : Type) := mkCreateResult { cres_handle : H; cres_attrs : Attrs }.
Arguments mkCreateResult {_} _ _.
Arguments cres_handle {_} _.
Arguments cres_attrs {_} _.

Record ReadResult := mkReadResult { rr_data : bytes; rr_eof : bool }.

Inductive WriteStability := Unstable | DataSync | FileSync.

Record WriteResult := mkWriteResult { wr_written : Z; wr_stability : WriteStability }.

Record DirEntry (H : Type) := mkDirEntry {
  de_name : bytes;
  de_handle : H;
  de_cookie : Z;
  de_attrs : option Attrs;
}.
Arguments mkDirEntry {_} _ _ _ _.
Arguments de_name {_} _.
Arguments de_handle {_} _.
Arguments de_cookie {_} _.
Arguments de_attrs {_} _.

Record DirPage (H : Type) := mkDirPage { dp_entries : list (DirEntry H); dp_eof : bool }.
Arguments mkDirPage {_} _ _.
Arguments dp_entries {_} _.
Arguments dp_eof {_} _.

Inductive XattrSetMode := CreateOrReplace | CreateOnly | ReplaceOnly.

(** ** Names *)

(** [str]'s order: lexicographic on the bytes. *)
Fixpoint bytes_leb (a b : bytes) : bool :=
  match a, b with
  | [], _ => true
  | _ :: _, [] => false
  | x :: a, y :: b => if x =? y then bytes_leb a b else x <? y
  end.
Definition bytes_le (a b : bytes) : Prop := bytes_leb a b = true.
#[export] Instance bytes_le_dec a b : Decision (bytes_le a b).
Proof. unfold bytes_le. apply _. Defined.

(** ** Access masks *)

Definition AccessMask_NONE : Z := 0.
Definition AccessMask_READ : Z := 1.
Definition AccessMask_LOOKUP : Z := 2.
Definition AccessMask_MODIFY : Z := 4.
Definition AccessMask_EXTEND : Z := 8.
Definition AccessMask_DELETE : Z := 16.
Definition AccessMask_EXECUTE : Z := 32.
Definition AccessMask_XATTR_READ : Z := 64.
Definition AccessMask_XATTR_WRITE : Z := 128.
Definition AccessMask_XATTR_LIST : Z := 256.

Definition mask_contains (self other : Z) : bool := Z.land self other =? other.
Definition mask_intersects (self other : Z) : bool := negb (Z.land self other =? 0).

(** ** The backend

    A backend keeps a state [B] and names its objects by handles [H].  Each
    operation is one atomic access to that state.  The methods without [async]
    read the state only. *)

Section backend.
Context (H B : Type).

Definition fs_op (A : Type) : Type := B -> result FsError A * B.

Record Xattrs := mkXattrs {
  xa_list_xattrs : RequestContext -> H -> fs_op (list bytes);
  xa_get_xattr : RequestContext -> H -> bytes -> fs_op bytes;
  xa_set_xattr : RequestContext -> H -> bytes -> bytes -> XattrSetMode -> fs_op unit;
  xa_remove_xattr : RequestContext -> H -> bytes -> fs_op unit;
}.

Record Symlinks := mkSymlinks {
  sy_create_symlink : RequestContext -> H -> bytes -> bytes -> SetAttrs -> fs_op (CreateResult H);
  sy_readlink : RequestContext -> H -> fs_op bytes;
}.

Record HardLinks := mkHardLinks { hl_link : RequestContext -> H -> H -> bytes -> fs_op unit }.

Record CommitSupport := mkCommitSupport { co_commit : RequestContext -> H -> Z -> Z -> fs_op unit }.

Record OpenLifecycle := mkOpenLifecycle {
  ol_on_open : RequestContext -> H -> bool -> fs_op unit;
  ol_on_close : RequestContext -> H -> bool -> fs_op unit;
}.

Record PersistentHandles := mkPersistentHandles {
  ph_encode_handle : H -> B -> option bytes;
  ph_decode_handle : bytes -> fs_op H;
}.

Record FileSystem := mkFileSystem {
  fs_root : B -> H;
  fs_capabilities : B -> FsCapabilities;
  fs_limits : B -> FsLimits;
  fs_statfs : RequestContext -> H -> fs_op FsStats;
  fs_getattr : RequestContext -> H -> fs_op Attrs;
  fs_access : RequestContext -> H -> Z -> fs_op Z;
  fs_lookup : RequestContext -> H -> bytes -> fs_op H;
  fs_parent : RequestContext -> H -> fs_op (option H);
  fs_readdir : RequestContext -> H -> Z -> Z -> bool -> fs_op (DirPage H);
  fs_read : RequestContext -> H -> Z -> Z -> fs_op ReadResult;
  fs_write : RequestContext -> H -> Z -> bytes -> WriteStability -> fs_op WriteResult;
  fs_create : RequestContext -> H -> bytes -> CreateRequest -> fs_op (CreateResult H);
  fs_remove : RequestContext -> H -> bytes -> fs_op unit;
  fs_rename : RequestContext -> H -> bytes -> H -> bytes -> fs_op unit;
  fs_setattr : RequestContext -> H -> SetAttrs -> fs_op Attrs;
  fs_xattrs : option Xattrs;
  fs_symlinks : option Symlinks;
  fs_hard_links : option HardLinks;
  fs_commit_support : option CommitSupport;
  fs_open_lifecycle : option OpenLifecycle;
  fs_persistent_handles : option PersistentHandles;
}.
End backend.
Arguments xa_list_xattrs {_ _} _.
Arguments xa_get_xattr {_ _} _.
Arguments xa_set_xattr {_ _} _.
Arguments xa_remove_xattr {_ _} _.
Arguments sy_create_symlink {_ _} _.
Arguments sy_readlink {_ _} _.
Arguments ol_on_open {_ _} _.
Arguments ol_on_close {_ _} _.
Arguments ph_encode_handle {_ _} _.
Arguments ph_decode_handle {_ _} _.
Arguments fs_root {_ _} _.
Arguments fs_capabilities {_ _} _.
Arguments fs_limits {_ _} _.
Arguments fs_statfs {_ _} _.
Arguments fs_getattr {_ _} _.
Arguments fs_access {_ _} _.
Arguments fs_lookup {_ _} _.
Arguments fs_parent {_ _} _.
Arguments fs_readdir {_ _} _.
Arguments fs_read {_ _} _.
Arguments fs_write {_ _} _.
Arguments fs_create {_ _} _.
Arguments fs_remove {_ _} _.
Arguments fs_rename {_ _} _.
Arguments fs_setattr {_ _} _.
Arguments fs_xattrs {_ _} _.
Arguments fs_symlinks {_ _} _.
Arguments fs_hard_links {_ _} _.
Arguments fs_commit_support {_ _} _.
Arguments fs_open_lifecycle {_ _} _.
Arguments fs_persistent_handles {_ _} _.
Arguments hl_link {_ _} _.
Arguments co_commit {_ _} _.
Arguments mkXattrs {_ _}.
Arguments mkSymlinks {_ _}.
Arguments mkHardLinks {_ _}.
Arguments mkCommitSupport {_ _}.
Arguments mkOpenLifecycle {_ _}.
Arguments mkPersistentHandles {_ _}.
Arguments mkFileSystem {_ _}.

(** ** Facts *)

(** A failure never reaches the client as success. *)
Lemma to_nfsstat4_ok e : to_nfsstat4 e = NFS_Ok <-> e = Fs_Ok.
Proof. by destruct e. Qed.

(** The client can tell every backend error from every other. *)
#[export] Instance to_nfsstat4_inj : Inj (=) (=) to_nfsstat4.
Proof. intros e e'. by destruct e, e'. Qed.

Lemma bytes_leb_refl a : bytes_leb a a = true.
Proof. induction a as [|x a IH]; simpl; [done|]. by rewrite Z.eqb_refl. Qed.

#[export] Instance bytes_le_trans : Transitive bytes_le.
Proof.
  unfold bytes_le. intros a. induction a as [|x a IH]; intros [|y b] [|z c]; simpl; try done.
  destruct (Z.eqb_spec x y), (Z.eqb_spec y z), (Z.eqb_spec x z); rewrite ?Z.ltb_lt; intros;
    subst; try lia; eauto.
Qed.

#[export] Instance bytes_le_total : Total bytes_le.
Proof.
  unfold bytes_le. intros a. induction a as [|x a IH]; intros [|y b]; simpl; auto.
  destruct (Z.eqb_spec x y) as [->|Hne].
  - rewrite Z.eqb_refl. apply IH.
  - rewrite (proj2 (Z.eqb_neq y x)) by done. rewrite !Z.ltb_lt. lia.
Qed.

#[export] Instance bytes_le_antisymm : AntiSymm (=) bytes_le.
Proof.
  unfold bytes_le. intros a. induction a as [|x a IH]; intros [|y b]; simpl; try done.
  destruct (Z.eqb_spec x y) as [->|Hne].
  - rewrite Z.eqb_refl. intros. f_equal. by apply IH.
  - rewrite (proj2 (Z.eqb_neq y x)) by done. rewrite !Z.ltb_lt. lia.
Qed.
