(* ===== verification/Metadata.v ===== *)
(** * Synthetic metadata (session/metadata.rs)

    The server keeps attributes of its own for every object it has shown:
    fileid, change id, times.  [clock] arguments are readings of the wall
    clock (seconds, nanoseconds), one per call of [Self::now]. *)

From stdpp Require Import base gmap list sets strings numbers.
From Stdlib Require Import ZArith Lia.
From S2P Require Import Prelude Xdr Rpc Types StateModel FsApi.

Local Open Scope Z_scope.

(** ** Operations *)

Definition default_mode (file_type : ServerFileType) : Z :=
  match file_type with
  | FT_Regular | FT_NamedAttr => 420 (* 0o644 *)
  | FT_Directory | FT_NamedAttrDir => 493 (* 0o755 *)
  | FT_Symlink => 511 (* 0o777 *)
  end.

Definition default_nlink (file_type : ServerFileType) : Z :=
  match file_type with FT_Directory | FT_NamedAttrDir => 2 | _ => 1 end.

Definition put_meta (object : ServerObject) (meta : SynthMeta) (s : StateManager) : StateManager :=
  with_inner (fun i => set_in_metadata (<[object := meta]> (in_metadata i)) i) s.

Definition ensure_meta_locked (object : ServerObject) (file_type : ServerFileType)
    (clock : Z * Z) (s : StateManager) : SynthMeta * StateManager :=
  match in_metadata (sm_inner s) !! object with
  | Some meta => (meta, s)
  | None =>
    let '(now_s, now_ns) := clock in
    let '(fileid, s) := match object with
                        | Fs id => (id, s)
                        | NamedAttrDir _ | NamedAttrFile _ _ => alloc_synth_fileid s
                        end in
    let '(change_id, s) := alloc_changeid s in
    let meta := mkSynthMeta fileid (default_mode file_type) (default_nlink file_type) 0 0
                  (str_bytes "root") (str_bytes "root")
                  now_s now_ns now_s now_ns now_s now_ns now_s now_ns
                  change_id false false false None in
    (meta, put_meta object meta s)
  end.

Definition ensure_meta := ensure_meta_locked.

Definition touch_data (object : ServerObject) (file_type : ServerFileType)
    (clock clock' : Z * Z) (s : StateManager) : StateManager :=
  let '(meta, s) := ensure_meta_locked object file_type clock s in
  let '(now_s, now_ns) := clock' in
  let meta := set_me_mtime_sec now_s meta in
  let meta := set_me_mtime_nsec now_ns meta in
  let meta := set_me_ctime_sec now_s meta in
  let meta := set_me_ctime_nsec now_ns meta in
  let '(change_id, s) := alloc_changeid s in
  put_meta object (set_me_change_id change_id meta) s.

Definition named_attr_count (object : ServerObject) (inner : StateInner) : option Z :=
  in_metadata inner !! object ≫= me_named_attr_count.

Definition set_named_attr_count (object : ServerObject) (file_type : ServerFileType) (count : Z)
    (clock : Z * Z) (s : StateManager) : StateManager :=
  let '(meta, s) := ensure_meta_locked object file_type clock s in
  put_meta object (set_me_named_attr_count (Some count) meta) s.

Definition touch_metadata (object : ServerObject) (file_type : ServerFileType)
    (clock clock' : Z * Z) (s : StateManager) : StateManager :=
  let '(meta, s) := ensure_meta_locked object file_type clock s in
  let '(now_s, now_ns) := clock' in
  let meta := set_me_ctime_sec now_s meta in
  let meta := set_me_ctime_nsec now_ns meta in
  let meta := set_me_mtime_sec now_s meta in
  let meta := set_me_mtime_nsec now_ns meta in
  let '(change_id, s) := alloc_changeid s in
  put_meta object (set_me_change_id change_id meta) s.

(** [if let Some(v) = field { meta.field = v; }] *)
Definition set_if {A} (v : option A) (set : A -> SynthMeta -> SynthMeta) (meta : SynthMeta)
    : SynthMeta :=
  match v with Some a => set a meta | None => meta end.

Definition set_time (clock : Z * Z) (sec nsec : Z -> SynthMeta -> SynthMeta) (t : SetTime)
    (meta : SynthMeta) : SynthMeta :=
  match t with
  | ServerNow => nsec clock.2 (sec clock.1 meta)
  | Client ts => nsec (ts_nanos ts) (sec (ts_seconds ts) meta)
  end.

Definition apply_setattr (object : ServerObject) (file_type : ServerFileType) (attrs : SetAttrs)
    (clock clock' : Z * Z) (s : StateManager) : StateManager :=
  let '(meta, s) := ensure_meta_locked object file_type clock s in
  let meta := set_if (sa_mode attrs) set_me_mode meta in
  let meta := set_if (sa_archive attrs) set_me_archive meta in
  let meta := set_if (sa_hidden attrs) set_me_hidden meta in
  let meta := set_if (sa_uid attrs) set_me_uid meta in
  let meta := set_if (sa_gid attrs) set_me_gid meta in
  let meta := set_if (sa_system attrs) set_me_system meta in
  let meta := set_if (sa_atime attrs) (set_time clock' set_me_atime_sec set_me_atime_nsec) meta in
  let meta := set_if (sa_mtime attrs) (set_time clock' set_me_mtime_sec set_me_mtime_nsec) meta in
  let meta := set_if (sa_birthtime attrs)
                (set_time clock' set_me_crtime_sec set_me_crtime_nsec) meta in
  if negb (SetAttrs_is_empty attrs) then
    let meta := set_me_ctime_sec clock'.1 meta in
    let meta := set_me_ctime_nsec clock'.2 meta in
    let '(change_id, s) := alloc_changeid s in
    put_meta object (set_me_change_id change_id meta) s
  else put_meta object meta s.

(** ** Invariant *)

(** Change ids and synthetic fileids come from their counters; a backend
    object's fileid is its id; fileids name objects. *)
Record meta_wf (s : StateManager) : Prop := {
  meta_changes : forall o m, in_metadata (sm_inner s) !! o = Some m ->
    me_change_id m < sm_next_changeid s;
  meta_fileids : forall o m, in_metadata (sm_inner s) !! o = Some m ->
    match o with
    | Fs id => me_fileid m = id
    | _ => SYNTH_FILEID_BASE <= me_fileid m < sm_next_synth_fileid s
    end;
  meta_synth_inj : forall o o' m m', in_metadata (sm_inner s) !! o = Some m ->
    in_metadata (sm_inner s) !! o' = Some m' -> me_fileid m = me_fileid m' ->
    match o, o' with Fs _, Fs _ => True | Fs _, _ => True | _, Fs _ => True | _, _ => o = o' end;
  meta_synth_next : SYNTH_FILEID_BASE <= sm_next_synth_fileid s;
}.

(** The counters have room: no wrap in the next few calls. *)
Definition counters_room (s : StateManager) : Prop :=
  0 <= sm_next_changeid s < u64_max - 1 /\ 0 <= sm_next_synth_fileid s < u64_max.

(** ** Lemmas *)

Lemma alloc_changeid_small s :
  0 <= sm_next_changeid s < u64_max ->
  alloc_changeid s = (sm_next_changeid s, set_sm_next_changeid (sm_next_changeid s + 1) s).
Proof.
  intros H. unfold alloc_changeid. rewrite u64_wrap_small; [done|].
  unfold is_u64, u64_max in *. lia.
Qed.

Lemma alloc_synth_small s :
  0 <= sm_next_synth_fileid s < u64_max ->
  alloc_synth_fileid s =
  (sm_next_synth_fileid s, set_sm_next_synth_fileid (sm_next_synth_fileid s + 1) s).
Proof.
  intros H. unfold alloc_synth_fileid. rewrite u64_wrap_small; [done|].
  unfold is_u64, u64_max in *. lia.
Qed.

Lemma put_meta_lookup object meta s o :
  in_metadata (sm_inner (put_meta object meta s)) !! o =
  if decide (o = object) then Some meta else in_metadata (sm_inner s) !! o.
Proof.
  simpl. destruct (decide (o = object)) as [->|Hne]; [apply lookup_insert_eq|].
  by rewrite lookup_insert_ne.
Qed.

(** Changing an existing record without touching its fileid, with a change id
    below the counter. *)
Lemma put_meta_wf object meta meta' s :
  meta_wf s -> in_metadata (sm_inner s) !! object = Some meta ->
  me_fileid meta' = me_fileid meta -> me_change_id meta' < sm_next_changeid s ->
  meta_wf (put_meta object meta' s).
Proof.
  intros [Hc Hf Hi Hn] Hm Hid Hch. split; try done.
  - intros o m. rewrite put_meta_lookup. case_decide; [by intros [= <-]|apply Hc].
  - intros o m. rewrite put_meta_lookup. case_decide as Ho; [|apply Hf].
    intros [= <-]. subst o. rewrite Hid. by apply Hf.
  - intros o o' m m'. rewrite !put_meta_lookup. case_decide as H1; case_decide as H2; subst.
    + intros _ _ _. by destruct object.
    + intros [= <-] Hm' He. rewrite Hid in He. by apply (Hi _ _ _ _ Hm Hm').
    + intros Hm' [= <-] He. rewrite Hid in He. by apply (Hi _ _ _ _ Hm' Hm).
    + apply Hi.
Qed.

Lemma bump_change_wf s : meta_wf s -> meta_wf (set_sm_next_changeid (sm_next_changeid s + 1) s).
Proof. intros [Hc Hf Hi Hn]. split; try done. intros o m Hm. simpl. specialize (Hc o m Hm). lia. Qed.

(** Inserting the record of a new object. *)
Lemma new_meta_wf object meta s :
  meta_wf s -> in_metadata (sm_inner s) !! object = None ->
  me_change_id meta < sm_next_changeid s ->
  match object with
  | Fs id => me_fileid meta = id
  | _ => SYNTH_FILEID_BASE <= me_fileid meta < sm_next_synth_fileid s /\
         forall o m, in_metadata (sm_inner s) !! o = Some m -> (forall id, o <> Fs id) ->
           me_fileid m <> me_fileid meta
  end -> meta_wf (put_meta object meta s).
Proof.
  intros [Hc Hf Hi Hn] Hnone Hch Hid. split; try done.
  - intros o m. rewrite put_meta_lookup. case_decide; [by intros [= <-]|apply Hc].
  - intros o m. rewrite put_meta_lookup. case_decide as Ho; [|apply Hf].
    intros [= <-]. subst o. simpl. destruct object; [done|by destruct Hid|by destruct Hid].
  - intros o o' m m'. rewrite !put_meta_lookup. case_decide as H1; case_decide as H2; subst.
    + intros _ _ _. by destruct object.
    + intros [= <-] Hm' He. destruct object, o'; try done; destruct Hid as [_ Hid];
        destruct (Hid _ _ Hm'); done.
    + intros Hm' [= <-] He. destruct object, o; try done; destruct Hid as [_ Hid];
        destruct (Hid _ _ Hm'); done.
    + apply Hi.
Qed.

(** [ensure_meta] returns the object's record, creating it if needed, and never
    changes the record of another object. *)
Lemma ensure_meta_spec object ft clock s meta s' :
  meta_wf s -> counters_room s -> ensure_meta_locked object ft clock s = (meta, s') ->
  meta_wf s' /\ in_metadata (sm_inner s') !! object = Some meta /\
  sm_next_changeid s <= sm_next_changeid s' < u64_max /\
  (forall o, o <> object -> in_metadata (sm_inner s') !! o = in_metadata (sm_inner s) !! o) /\
  (forall m, in_metadata (sm_inner s) !! object = Some m -> m = meta /\ s' = s).
Proof.
  intros Hwf [Hrc Hrs]. unfold ensure_meta_locked.
  destruct (in_metadata (sm_inner s) !! object) as [m|] eqn:Hm.
  { intros [= <- <-]. split_and!; try done; try lia. by intros m' [= <-]. }
  destruct clock as [now_s now_ns]. intros He.
  assert (Hshape : exists fid s1, s' = put_meta object meta (set_sm_next_changeid (sm_next_changeid s + 1) s1) /\
    me_change_id meta = sm_next_changeid s /\ me_fileid meta = fid /\
    ((exists id, object = Fs id /\ fid = id /\ s1 = s) \/
     ((forall id, object <> Fs id) /\ fid = sm_next_synth_fileid s /\
      s1 = set_sm_next_synth_fileid (sm_next_synth_fileid s + 1) s))).
  { rewrite alloc_synth_small in He by lia. destruct object as [id|id|p n];
      rewrite alloc_changeid_small in He by (simpl; unfold u64_max in *; lia);
      injection He as <- <-; eexists _, _; split_and!; try done.
    - left. eauto.
    - right. split_and!; done.
    - right. split_and!; done. }
  destruct Hshape as (fid & s1 & -> & Hch & Hfid & Hcase).
  assert (Hwf1 : meta_wf (set_sm_next_changeid (sm_next_changeid s + 1) s1) /\
    in_metadata (sm_inner s1) = in_metadata (sm_inner s)).
  { destruct Hcase as [(id & -> & _ & ->)|(_ & _ & ->)]; (split; [|done]); [by apply bump_change_wf|].
    destruct (bump_change_wf s Hwf) as [Hc Hf Hi Hn]. split; try done; simpl in *; [|lia].
    intros o m Hom. specialize (Hf o m Hom). destruct o; simpl in *; [done|lia|lia]. }
  destruct Hwf1 as [Hwf1 Hsame]. split_and!.
  - apply new_meta_wf; simpl; [done|by rewrite Hsame|lia|].
    destruct Hcase as [(id & -> & <- & ->)|(Hnfs & -> & ->)]; [done|].
    pose proof (meta_synth_next _ Hwf) as Hb.
    assert (Hrest : SYNTH_FILEID_BASE <= me_fileid meta < sm_next_synth_fileid s + 1 /\
      forall o m, in_metadata (sm_inner s) !! o = Some m -> (forall id, o <> Fs id) ->
        me_fileid m <> me_fileid meta).
    { split; [lia|]. intros o m Hom Hnf. pose proof (meta_fileids _ Hwf o m Hom) as Hf.
      destruct o; [by destruct (Hnf id)|lia|lia]. }
    destruct object; [by destruct (Hnfs id)|exact Hrest|exact Hrest].
  - rewrite put_meta_lookup. by rewrite decide_True.
  - simpl. unfold u64_max in *. lia.
  - simpl. unfold u64_max in *. lia.
  - intros o Ho. rewrite put_meta_lookup, decide_False by done. simpl. by rewrite Hsame.
  - congruence.
Qed.

(** [s'] is [s] with a new version of the object's record: a change id above
    every change id so far, the same fileid, no other record touched. *)
Definition new_version (object : ServerObject) (s s' : StateManager) : Prop :=
  exists m', in_metadata (sm_inner s') !! object = Some m' /\
    (forall o m, in_metadata (sm_inner s) !! o = Some m -> me_change_id m < me_change_id m') /\
    (forall m, in_metadata (sm_inner s) !! object = Some m -> me_fileid m' = me_fileid m) /\
    (forall o, o <> object -> in_metadata (sm_inner s') !! o = in_metadata (sm_inner s) !! o).

(** The last step of every mutation: draw a change id and store. *)
Lemma store_version object ft clock s meta meta' s1 :
  meta_wf s -> counters_room s -> ensure_meta_locked object ft clock s = (meta, s1) ->
  me_fileid meta' = me_fileid meta ->
  let s' := (let '(c, s2) := alloc_changeid s1 in put_meta object (set_me_change_id c meta') s2) in
  meta_wf s' /\ new_version object s s'.
Proof.
  intros Hwf Hroom He Hid.
  destruct (ensure_meta_spec _ _ _ _ _ _ Hwf Hroom He) as (Hwf1 & Hm & Hn & Hother & Hold).
  destruct Hroom as [Hrc _]. rewrite alloc_changeid_small by lia. cbv zeta iota beta. split.
  - apply (put_meta_wf _ meta); simpl; [by apply bump_change_wf|done|done|lia].
  - exists (set_me_change_id (sm_next_changeid s1) meta').
    rewrite put_meta_lookup, decide_True by done. simpl. split_and!.
    + done.
    + intros o m Hom. pose proof (meta_changes _ Hwf o m Hom). lia.
    + intros m Hom. destruct (Hold _ Hom) as [-> _]. done.
    + intros o Ho. rewrite lookup_insert_ne by done. by apply Hother.
Qed.

Lemma set_if_fileid {A} (v : option A) f m :
  (forall a m, me_fileid (f a m) = me_fileid m) -> me_fileid (set_if v f m) = me_fileid m.
Proof. intros Hf. by destruct v; simpl. Qed.

Lemma set_time_fileid clock f g t m :
  (forall a m, me_fileid (f a m) = me_fileid m) -> (forall a m, me_fileid (g a m) = me_fileid m) ->
  me_fileid (set_time clock f g t m) = me_fileid m.
Proof. intros Hf Hg. destruct t; simpl; by rewrite Hg, Hf. Qed.

(** Every mutation of an object shows in its change attribute: a data
    change, a metadata change and a SETATTR that names any attribute each leave
    the object with a change id above every change id the server has handed
    out before, with its fileid kept and no other object's record touched; and
    fileids keep identifying objects. *)
Theorem mutation_new_version object ft attrs clock clock' s s' :
  meta_wf s -> counters_room s ->
  s' = touch_data object ft clock clock' s \/ s' = touch_metadata object ft clock clock' s \/
  (SetAttrs_is_empty attrs = false /\ s' = apply_setattr object ft attrs clock clock' s) ->
  meta_wf s' /\ new_version object s s'.
Proof.
  intros Hwf Hroom [->|[->|[Hne ->]]];
    unfold touch_data, touch_metadata, apply_setattr;
    destruct (ensure_meta_locked object ft clock s) as [meta s1] eqn:He;
    destruct clock' as [now_s now_ns].
  - by apply (store_version object ft clock s meta).
  - by apply (store_version object ft clock s meta).
  - rewrite Hne. apply (store_version object ft clock s meta); [done..|]. simpl.
    rewrite !set_if_fileid; [done|..]; intros; try done; by apply set_time_fileid.
Qed.

(** ** Concrete instances *)

Lemma meta_wf_boot : meta_wf example_boot.
Proof. split; simpl; try (intros *; by rewrite lookup_empty). done. Qed.

Lemma mutation_new_version_witness :
  new_version (Fs 3) example_boot (touch_data (Fs 3) FT_Regular (1, 0) (2, 0) example_boot).
Proof.
  apply (mutation_new_version (Fs 3) FT_Regular
    (mkSetAttrs None None None None None None None None None None) (1, 0) (2, 0) example_boot).
  - exact meta_wf_boot.
  - vm_compute. done.
  - left. reflexivity.
Defined.
