(* ===== verification/AttrCodec.v ===== *)
(** * Attribute encoding (crates/embednfs/src/attrs.rs)

    GETATTR, READDIR, VERIFY and NVERIFY encode an object's attributes under
    the bitmap the client asked for ([encode_fattr4]); SETATTR, OPEN and CREATE
    decode the attributes to set ([decode_setattr]).  The server's own
    attribute record is that of internal.rs. *)

From stdpp Require Import base gmap list sets strings numbers sorting.
From Stdlib Require Import ZArith Lia.
From S2P Require Import Prelude Xdr Rpc Types Constants StateModel Operations Codec CodecProps FsApi.

Local Open Scope Z_scope.
Local Open Scope nfs_scope.

Definition MODE_PERM_MASK : Z := 4095. (* 0o7777 *)

(** Internal attribute record used by the protocol layer. *)
Record ServerFileAttr := mkServerFileAttr {
  sf_fsid : FsId;
  sf_fileid : Z;
  sf_file_type : ServerFileType;
  sf_size : Z;
  sf_used : Z;
  sf_mode : Z;
  sf_nlink : Z;
  sf_owner : bytes;
  sf_owner_group : bytes;
  sf_atime_sec : Z;
  sf_atime_nsec : Z;
  sf_mtime_sec : Z;
  sf_mtime_nsec : Z;
  sf_ctime_sec : Z;
  sf_ctime_nsec : Z;
  sf_crtime_sec : Z;
  sf_crtime_nsec : Z;
  sf_change_id : Z;
  sf_rdev_major : Z;
  sf_rdev_minor : Z;
  sf_archive : bool;
  sf_hidden : bool;
  sf_system : bool;
  sf_has_named_attrs : bool;
}.

Record AttrEncodingContext := mkAttrEncodingContext {
  aec_limits : FsLimits;
  aec_stats : option FsStats;
  aec_capabilities : FsCapabilities;
  aec_minorversion : Z;
}.

Definition request_needs_fs_stats (request : Bitmap4) : bool :=
  Bitmap4_is_set request FATTR4_FILES_AVAIL
  || Bitmap4_is_set request FATTR4_FILES_FREE
  || Bitmap4_is_set request FATTR4_FILES_TOTAL
  || Bitmap4_is_set request FATTR4_SPACE_AVAIL
  || Bitmap4_is_set request FATTR4_SPACE_FREE
  || Bitmap4_is_set request FATTR4_SPACE_TOTAL.

(** The array the loop of [supported_attrs_bitmap] runs over. *)
Definition base_supported_attrs : list Z := [
  FATTR4_SUPPORTED_ATTRS; FATTR4_TYPE; FATTR4_FH_EXPIRE_TYPE; FATTR4_CHANGE; FATTR4_SIZE;
  FATTR4_LINK_SUPPORT; FATTR4_SYMLINK_SUPPORT; FATTR4_FSID; FATTR4_UNIQUE_HANDLES;
  FATTR4_LEASE_TIME; FATTR4_RDATTR_ERROR; FATTR4_FILEHANDLE; FATTR4_ACLSUPPORT;
  FATTR4_ARCHIVE; FATTR4_CANSETTIME; FATTR4_CASE_INSENSITIVE; FATTR4_CASE_PRESERVING;
  FATTR4_CHOWN_RESTRICTED; FATTR4_FILEID; FATTR4_FILES_AVAIL; FATTR4_FILES_FREE;
  FATTR4_FILES_TOTAL; FATTR4_HIDDEN; FATTR4_HOMOGENEOUS; FATTR4_MAXFILESIZE; FATTR4_MAXLINK;
  FATTR4_MAXNAME; FATTR4_MAXREAD; FATTR4_MAXWRITE; FATTR4_MODE; FATTR4_NO_TRUNC;
  FATTR4_NUMLINKS; FATTR4_OWNER; FATTR4_OWNER_GROUP; FATTR4_RAWDEV; FATTR4_SPACE_AVAIL;
  FATTR4_SPACE_FREE; FATTR4_SPACE_TOTAL; FATTR4_SPACE_USED; FATTR4_SYSTEM;
  FATTR4_TIME_ACCESS; FATTR4_TIME_ACCESS_SET; FATTR4_TIME_BACKUP; FATTR4_TIME_CREATE;
  FATTR4_TIME_DELTA; FATTR4_TIME_METADATA; FATTR4_TIME_MODIFY; FATTR4_TIME_MODIFY_SET;
  FATTR4_MOUNTED_ON_FILEID; FATTR4_SUPPATTR_EXCLCREAT].

Definition supported_attrs_bitmap (capabilities : FsCapabilities) (minorversion : Z) : Bitmap4 :=
  let supported := foldl Bitmap4_set Bitmap4_new base_supported_attrs in
  let supported := if fc_xattrs capabilities then Bitmap4_set supported FATTR4_NAMED_ATTR
                   else supported in
  if fc_xattrs capabilities && (2 <=? minorversion)
  then Bitmap4_set supported FATTR4_XATTR_SUPPORT else supported.

(** ** Encoding *)

Definition nfs_type (t : ServerFileType) : NfsFtype4 :=
  match t with
  | FT_Regular => Ft_Reg
  | FT_Directory => Ft_Dir
  | FT_Symlink => Ft_Lnk
  | FT_NamedAttrDir => Ft_AttrDir
  | FT_NamedAttr => Ft_NamedAttr
  end.

(** The attributes that may be set on an exclusive create. *)
Definition suppattr_exclcreat : Bitmap4 :=
  Bitmap4_set (Bitmap4_set Bitmap4_new FATTR4_SIZE) FATTR4_MODE.

(** One entry per [if request.is_set(..)] block of [encode_fattr4], in the order of
    the source: the attribute and the bytes the block appends, [None] where the
    block has a further condition that is false. *)
Definition fattr_blocks_word0 (attr : ServerFileAttr) (fh : bytes) (ctx : AttrEncodingContext)
    : list (Z * option bytes) := [
  (FATTR4_SUPPORTED_ATTRS,
     Some (encode_Bitmap4 (supported_attrs_bitmap (aec_capabilities ctx) (aec_minorversion ctx))));
  (FATTR4_TYPE, Some (encode_NfsFtype4 (nfs_type (sf_file_type attr))));
  (FATTR4_FH_EXPIRE_TYPE, Some (encode_u32 0));
  (FATTR4_CHANGE, Some (encode_u64 (sf_change_id attr)));
  (FATTR4_SIZE, Some (encode_u64 (sf_size attr)));
  (FATTR4_LINK_SUPPORT, Some (encode_bool (fc_hard_links (aec_capabilities ctx))));
  (FATTR4_SYMLINK_SUPPORT, Some (encode_bool (fc_symlinks (aec_capabilities ctx))));
  (FATTR4_NAMED_ATTR, Some (encode_bool (sf_has_named_attrs attr)));
  (FATTR4_FSID, Some (encode_Fsid4 (mkFsid4 (fi_major (sf_fsid attr)) (fi_minor (sf_fsid attr)))));
  (FATTR4_UNIQUE_HANDLES, Some (encode_bool true));
  (FATTR4_LEASE_TIME, Some (encode_u32 DEFAULT_LEASE_TIME_SECS));
  (FATTR4_RDATTR_ERROR, Some (encode_u32 (NfsStat4_u32 NFS_Ok)));
  (FATTR4_ACLSUPPORT, Some (encode_u32 0));
  (FATTR4_ARCHIVE, Some (encode_bool (sf_archive attr)));
  (FATTR4_CANSETTIME, Some (encode_bool true));
  (FATTR4_CASE_INSENSITIVE, Some (encode_bool (negb (fc_case_sensitive (aec_capabilities ctx)))));
  (FATTR4_CASE_PRESERVING, Some (encode_bool (fc_case_preserving (aec_capabilities ctx))));
  (FATTR4_CHOWN_RESTRICTED, Some (encode_bool true));
  (FATTR4_FILEHANDLE, Some (encode_NfsFh4 fh));
  (FATTR4_FILEID, Some (encode_u64 (sf_fileid attr)));
  (FATTR4_FILES_AVAIL, (fun st => encode_u64 (fst_avail_files st)) <$> aec_stats ctx);
  (FATTR4_FILES_FREE, (fun st => encode_u64 (fst_free_files st)) <$> aec_stats ctx);
  (FATTR4_FILES_TOTAL, (fun st => encode_u64 (fst_total_files st)) <$> aec_stats ctx);
  (FATTR4_HIDDEN, Some (encode_bool (sf_hidden attr)));
  (FATTR4_HOMOGENEOUS, Some (encode_bool true));
  (FATTR4_MAXFILESIZE, Some (encode_u64 (fl_max_file_size (aec_limits ctx))));
  (FATTR4_MAXLINK, Some (encode_u32 255));
  (FATTR4_MAXNAME, Some (encode_u32 (fl_max_name_bytes (aec_limits ctx))));
  (FATTR4_MAXREAD, Some (encode_u64 (fl_max_read (aec_limits ctx))));
  (FATTR4_MAXWRITE, Some (encode_u64 (fl_max_write (aec_limits ctx))))].

Definition fattr_blocks_word1 (attr : ServerFileAttr) (ctx : AttrEncodingContext)
    : list (Z * option bytes) := [
  (FATTR4_MODE, Some (encode_u32 (Z.land (sf_mode attr) MODE_PERM_MASK)));
  (FATTR4_NO_TRUNC, Some (encode_bool true));
  (FATTR4_NUMLINKS, Some (encode_u32 (sf_nlink attr)));
  (FATTR4_OWNER, Some (encode_string (sf_owner attr)));
  (FATTR4_OWNER_GROUP, Some (encode_string (sf_owner_group attr)));
  (FATTR4_RAWDEV,
     Some (encode_Specdata4 (mkSpecdata4 (sf_rdev_major attr) (sf_rdev_minor attr))));
  (FATTR4_SPACE_AVAIL, (fun st => encode_u64 (fst_avail_bytes st)) <$> aec_stats ctx);
  (FATTR4_SPACE_FREE, (fun st => encode_u64 (fst_free_bytes st)) <$> aec_stats ctx);
  (FATTR4_SPACE_TOTAL, (fun st => encode_u64 (fst_total_bytes st)) <$> aec_stats ctx);
  (FATTR4_SPACE_USED, Some (encode_u64 (sf_used attr)));
  (FATTR4_SYSTEM, Some (encode_bool (sf_system attr)));
  (FATTR4_TIME_ACCESS,
     Some (encode_NfsTime4 (mkNfsTime4 (sf_atime_sec attr) (sf_atime_nsec attr))));
  (FATTR4_TIME_BACKUP,
     Some (encode_NfsTime4 (mkNfsTime4 (sf_crtime_sec attr) (sf_crtime_nsec attr))));
  (FATTR4_TIME_CREATE,
     Some (encode_NfsTime4 (mkNfsTime4 (sf_crtime_sec attr) (sf_crtime_nsec attr))));
  (FATTR4_TIME_DELTA, Some (encode_NfsTime4 (mkNfsTime4 0 1000000)));
  (FATTR4_TIME_METADATA,
     Some (encode_NfsTime4 (mkNfsTime4 (sf_ctime_sec attr) (sf_ctime_nsec attr))));
  (FATTR4_TIME_MODIFY,
     Some (encode_NfsTime4 (mkNfsTime4 (sf_mtime_sec attr) (sf_mtime_nsec attr))));
  (FATTR4_MOUNTED_ON_FILEID, Some (encode_u64 (sf_fileid attr)))].

Definition fattr_blocks_word2 (ctx : AttrEncodingContext) : list (Z * option bytes) := [
  (FATTR4_SUPPATTR_EXCLCREAT, Some (encode_Bitmap4 suppattr_exclcreat));
  (FATTR4_XATTR_SUPPORT,
     if 2 <=? aec_minorversion ctx
     then Some (encode_bool (fc_xattrs (aec_capabilities ctx))) else None)].

Definition fattr_blocks (attr : ServerFileAttr) (fh : bytes) (ctx : AttrEncodingContext)
    : list (Z * option bytes) :=
  fattr_blocks_word0 attr fh ctx ++ fattr_blocks_word1 attr ctx ++ fattr_blocks_word2 ctx.

(** One block: [if request.is_set(bit) { result_bitmap.set(bit); value.encode(&mut vals) }]. *)
Definition fattr_emit (request : Bitmap4) (acc : Fattr4) (block : Z * option bytes) : Fattr4 :=
  match block with
  | (bit, Some value) =>
    if Bitmap4_is_set request bit
    then mkFattr4 (Bitmap4_set (fa_attrmask acc) bit) (fa_attr_vals acc ++ value)
    else acc
  | (_, None) => acc
  end.

Definition encode_fattr4 (attr : ServerFileAttr) (request : Bitmap4) (fh : bytes)
    (ctx : AttrEncodingContext) : Fattr4 :=
  foldl (fattr_emit request) (mkFattr4 Bitmap4_new []) (fattr_blocks attr fh ctx).

(** ** Decoding attributes to set *)

(** [owner_str.split('@').next()] *)
Fixpoint until_at (s : bytes) : bytes :=
  match s with
  | [] => []
  | b :: s' => if b =? 64 then [] else b :: until_at s'
  end.

(** The digits of [str::parse::<u32>], which fails on overflow. *)
Fixpoint parse_digits (acc : Z) (s : bytes) : option Z :=
  match s with
  | [] => Some acc
  | b :: s' =>
    if (48 <=? b) && (b <=? 57) then
      let acc := acc * 10 + (b - 48) in
      if acc <=? u32_max then parse_digits acc s' else None
    else None
  end.

(** [str::parse::<u32>]: an optional [+] and at least one digit. *)
Definition parse_u32 (s : bytes) : option Z :=
  match s with
  | [] => None
  | b :: s' => if b =? 43 then match s' with [] => None | _ => parse_digits 0 s' end
               else parse_digits 0 s
  end.

Definition SetAttrs_default : SetAttrs :=
  mkSetAttrs None None None None None None None None None None.

(** A settable time: [how], and the client's time when [how] is 1. *)
Definition dec_settime : decoder (option SetTime) :=
  let? how := decode_u32 in
  if how =? 0 then dec_ret (Some ServerNow)
  else if how =? 1 then
    let? t := decode_NfsTime4 in
    dec_ret (Some (Client (mkTimestamp (nt_seconds t) (nt_nseconds t))))
  else dec_ret None.

Definition dec_birthtime : decoder (option SetTime) :=
  let? t := decode_NfsTime4 in
  dec_ret (Some (Client (mkTimestamp (nt_seconds t) (nt_nseconds t)))).

Definition dec_principal : decoder (option Z) :=
  let? s := decode_string in dec_ret (parse_u32 (until_at s)).

(** [if fattr.attrmask.is_set(bit) { .. }]: a block that leaves its field as it is
    when the attribute is absent. *)
Definition dec_attr {A} (mask : Bitmap4) (bit : Z) (d : decoder (option A)) (old : option A)
    : decoder (option A) :=
  if Bitmap4_is_set mask bit then
    (let? v := d in dec_ret (match v with Some a => Some a | None => old end))
  else dec_ret old.

Definition dec_setattr (mask : Bitmap4) : decoder SetAttrs :=
  let? size := dec_attr mask FATTR4_SIZE (let? v := decode_u64 in dec_ret (Some v)) None in
  let? archive := dec_attr mask FATTR4_ARCHIVE (let? v := decode_bool in dec_ret (Some v)) None in
  let? hidden := dec_attr mask FATTR4_HIDDEN (let? v := decode_bool in dec_ret (Some v)) None in
  let? mode := dec_attr mask FATTR4_MODE
    (let? v := decode_u32 in dec_ret (Some (Z.land v MODE_PERM_MASK))) None in
  let? uid := dec_attr mask FATTR4_OWNER dec_principal None in
  let? gid := dec_attr mask FATTR4_OWNER_GROUP dec_principal None in
  let? system := dec_attr mask FATTR4_SYSTEM (let? v := decode_bool in dec_ret (Some v)) None in
  let? atime := dec_attr mask FATTR4_TIME_ACCESS_SET dec_settime None in
  let? birthtime := dec_attr mask FATTR4_TIME_BACKUP dec_birthtime None in
  let? birthtime := dec_attr mask FATTR4_TIME_CREATE dec_birthtime birthtime in
  let? mtime := dec_attr mask FATTR4_TIME_MODIFY_SET dec_settime None in
  dec_ret (mkSetAttrs size archive hidden mode uid gid system atime mtime birthtime).

(** Every decoding error is reported as [BadXdr]; bytes left over are ignored. *)
Definition decode_setattr (fattr : Fattr4) : result NfsStat4 SetAttrs :=
  match dec_setattr (fa_attrmask fattr) (fa_attr_vals fattr) with
  | Ok (attrs, _) => Ok attrs
  | Err _ => Err NFS_BadXdr
  end.

(** ** Decimal principals *)

(** [u32::to_string], most significant digit first; ten digits are enough. *)
Fixpoint decimal (fuel : nat) (n : Z) : bytes :=
  match fuel with
  | O => []
  | S fuel => if n <? 10 then [48 + n] else decimal fuel (n / 10) ++ [48 + n mod 10]
  end.
Definition u32_to_string (n : Z) : bytes := decimal 10 n.

Definition is_digit (b : Z) : Prop := 48 <= b <= 57.

Lemma decimal_digits fuel n : 0 <= n -> Forall is_digit (decimal fuel n).
Proof.
  revert n. induction fuel as [|fuel IH]; intros n Hn; simpl; [done|].
  destruct (Z.ltb_spec n 10).
  - apply Forall_singleton. unfold is_digit. lia.
  - apply Forall_app. split; [apply IH; apply Z.div_pos; lia|]. apply Forall_singleton.
    pose proof (Z.mod_pos_bound n 10). unfold is_digit. lia.
Qed.

Lemma decimal_length fuel n : (length (decimal fuel n) <= fuel)%nat.
Proof.
  revert n. induction fuel as [|fuel IH]; intros n; simpl; [lia|].
  destruct (n <? 10); simpl; [lia|]. rewrite length_app. simpl. specialize (IH (n / 10)). lia.
Qed.

Lemma parse_digits_snoc acc s d v :
  parse_digits acc s = Some v -> 0 <= d <= 9 -> v * 10 + d <= u32_max ->
  parse_digits acc (s ++ [48 + d]) = Some (v * 10 + d).
Proof.
  intros Hs Hd Hv. revert acc Hs. induction s as [|b s IH]; intros acc; simpl.
  - intros [= ->]. destruct (Z.leb_spec 48 (48 + d)); [|lia]. destruct (Z.leb_spec (48 + d) 57); [|lia].
    simpl. replace (48 + d - 48) with d by lia. by destruct (Z.leb_spec (v * 10 + d) u32_max); [|lia].
  - destruct ((48 <=? b) && (b <=? 57)); [|done]. destruct (_ <=? u32_max); [|done]. apply IH.
Qed.

Lemma parse_decimal fuel n :
  0 <= n <= u32_max -> n < 10 ^ Z.of_nat fuel -> (0 < fuel)%nat ->
  parse_digits 0 (decimal fuel n) = Some n.
Proof.
  revert n. induction fuel as [|fuel IH]; intros n Hn Hf Hp; [lia|]. simpl decimal.
  destruct (Z.ltb_spec n 10).
  - apply (parse_digits_snoc 0 [] n 0); [done|lia|lia].
  - pose proof (Z.div_mod n 10). pose proof (Z.mod_pos_bound n 10).
    rewrite Nat2Z.inj_succ, Z.pow_succ_r in Hf by lia.
    destruct fuel as [|fuel]; [simpl in Hf; lia|].
    rewrite (parse_digits_snoc 0 _ (n mod 10) (n / 10)); [f_equal; lia| |lia|lia].
    apply IH; [split; [apply Z.div_pos; lia|apply Z.div_le_upper_bound; lia]|
               apply Z.div_lt_upper_bound; lia|lia].
Qed.

Lemma digits_no_at s : Forall is_digit s -> until_at s = s.
Proof.
  induction 1 as [|b s Hb Hs IH]; simpl; [done|]. unfold is_digit in Hb.
  destruct (Z.eqb_spec b 64); [lia|]. by rewrite IH.
Qed.

Lemma parse_u32_to_string n : is_u32 n -> parse_u32 (until_at (u32_to_string n)) = Some n.
Proof.
  intros Hn. unfold u32_to_string, is_u32 in *. pose proof (decimal_digits 10 n) as Hd.
  rewrite digits_no_at by (apply Hd; lia).
  pose proof (parse_decimal 10 n ltac:(unfold u32_max; lia) ltac:(simpl; lia) ltac:(lia)) as Hp.
  specialize (Hd ltac:(lia)). unfold parse_u32. destruct (decimal 10 n) as [|b s] eqn:E.
  - simpl in Hp. injection Hp as <-. done.
  - apply Forall_cons_iff in Hd as [Hb _]. unfold is_digit in Hb.
    destruct (Z.eqb_spec b 43); [lia|]. done.
Qed.

Lemma digits_utf8 s : Forall is_digit s -> utf8_valid s = true.
Proof.
  induction 1 as [|b s Hb Hs IH]; [done|]. unfold is_digit in Hb. simpl.
  by destruct (Z.ltb_spec b 128); [|lia].
Qed.

Lemma u32_to_string_ok n : is_u32 n -> string_ok (u32_to_string n).
Proof.
  intros Hn. unfold u32_to_string. pose proof (decimal_digits 10 n ltac:(unfold is_u32 in *; lia)) as Hd.
  split; [split|].
  - eapply Forall_impl; [exact Hd|]. unfold is_digit, is_u8. intros; lia.
  - unfold is_u32, zlen. pose proof (decimal_length 10 n). lia.
  - by apply digits_utf8.
Qed.

(** ** The bits of a bitmap, in the order of their values *)

Definition mask_bits (b : Bitmap4) : list Z :=
  filter (fun bit => Bitmap4_is_set b bit = true) (seqZ 0 (32 * zlen (bm_words b))).

Lemma is_set_range b bit :
  0 <= bit -> Bitmap4_is_set b bit = true -> bit < 32 * zlen (bm_words b).
Proof.
  unfold Bitmap4_is_set, zlen. intros Hb. destruct (bm_words b !! _) eqn:E; [|done].
  intros _. apply lookup_lt_Some in E. pose proof (Z.div_mod bit 32). pose proof (Z.mod_pos_bound bit 32).
  pose proof (Z.div_pos bit 32). lia.
Qed.

Lemma elem_of_mask_bits b bit : bit ∈ mask_bits b <-> 0 <= bit /\ Bitmap4_is_set b bit = true.
Proof.
  unfold mask_bits. rewrite list_elem_of_filter, elem_of_seqZ.
  split; [intros (? & ? & ?); done|]. intros [Hb Hs]. pose proof (is_set_range b bit Hb Hs). naive_solver lia.
Qed.

Lemma seqZ_sorted m n : StronglySorted Z.le (seqZ m n).
Proof.
  unfold seqZ. generalize (Z.to_nat n). intros k. revert m.
  induction k as [|k IH]; intros m; [constructor|]. simpl. constructor.
  - rewrite <- fmap_S_seq, <- list_fmap_compose.
    replace ((λ i : nat, Z.add (Z.of_nat i) m) ∘ S <$> seq 0 k)
      with ((λ i : nat, Z.add (Z.of_nat i) (m + 1)) <$> seq 0 k); [apply IH|].
    apply list_fmap_ext. intros i x _. simpl. lia.
  - apply Forall_forall. intros x (i & -> & Hi)%list_elem_of_fmap. lia.
Qed.

Lemma StronglySorted_filter {A} (R : A -> A -> Prop) (P : A -> Prop) `{!forall x, Decision (P x)} l :
  StronglySorted R l -> StronglySorted R (filter P l).
Proof.
  induction 1 as [|x l Hl IH Hx]; [constructor|]. rewrite filter_cons. case_decide; [|done].
  constructor; [done|]. apply Forall_forall. intros y [_ Hy]%list_elem_of_filter.
  by eapply Forall_forall in Hx.
Qed.

(** A strictly increasing list is determined by its elements. *)
Lemma sorted_bits_unique b (l : list Z) :
  StronglySorted Z.lt l -> (forall bit, bit ∈ l <-> 0 <= bit /\ Bitmap4_is_set b bit = true) ->
  mask_bits b = l.
Proof.
  intros Hs Hl. apply (StronglySorted_unique Z.le).
  - apply StronglySorted_filter, seqZ_sorted.
  - clear Hl. induction Hs as [|x l Hs IH Hx]; constructor; [done|].
    eapply Forall_impl; [exact Hx|]. simpl. lia.
  - apply NoDup_Permutation.
    + apply NoDup_filter, NoDup_seqZ.
    + clear Hl. induction Hs as [|x l Hs IH Hx]; constructor; [|done].
      intros Hin. eapply Forall_forall in Hx; [|done]. lia.
    + intros x. rewrite elem_of_mask_bits. symmetry. apply Hl.
Qed.

(** ** The blocks of the encoder *)

(** The blocks whose own condition holds. *)
Definition live_blocks (blocks : list (Z * option bytes)) : list (Z * bytes) :=
  omap (fun blk => pair blk.1 <$> blk.2) blocks.

Section Emit.
Context (request : Bitmap4).

(** The blocks that run. *)
Definition emitted (blocks : list (Z * option bytes)) : list (Z * bytes) :=
  filter (fun blk => Bitmap4_is_set request blk.1 = true) (live_blocks blocks).

Lemma emitted_cons bit v blocks :
  emitted ((bit, v) :: blocks) =
  match v with
  | Some v => if Bitmap4_is_set request bit then [(bit, v)] else []
  | None => []
  end ++ emitted blocks.
Proof.
  unfold emitted, live_blocks. destruct v as [v|]; [|done].
  cbn [omap list_omap fmap option_fmap option_map fst snd]. rewrite filter_cons. cbn [fst].
  by destruct (Bitmap4_is_set request bit); case_decide.
Qed.

Lemma elem_of_emitted bit v blocks :
  (bit, v) ∈ emitted blocks <-> Bitmap4_is_set request bit = true /\ (bit, Some v) ∈ blocks.
Proof.
  unfold emitted, live_blocks. rewrite list_elem_of_filter, list_elem_of_omap. cbn [fst].
  split; [|by naive_solver]. intros [Hs ([b [w|]] & Hin & Hv)]; by simplify_eq/=.
Qed.

Lemma emit_vals blocks acc :
  fa_attr_vals (foldl (fattr_emit request) acc blocks) =
  fa_attr_vals acc ++ flat_map snd (emitted blocks).
Proof.
  revert acc. induction blocks as [|[bit v] blocks IH]; intros acc; [by rewrite app_nil_r|].
  cbn [foldl]. rewrite IH, emitted_cons. unfold fattr_emit.
  destruct v as [v|]; [|done]. destruct (Bitmap4_is_set request bit); [|done].
  simpl. by rewrite <- app_assoc.
Qed.

Lemma emit_mask blocks acc bit :
  0 <= bit -> Forall (fun blk => 0 <= blk.1) blocks ->
  Bitmap4_is_set (fa_attrmask (foldl (fattr_emit request) acc blocks)) bit = true <->
  Bitmap4_is_set (fa_attrmask acc) bit = true \/ bit ∈ (emitted blocks).*1.
Proof.
  intros Hb Hf. revert acc. induction Hf as [|[b v] blocks Hbv Hf IH]; intros acc;
    [set_solver|].
  cbn [foldl]. rewrite IH, emitted_cons. unfold fattr_emit.
  destruct v as [v|]; [|done]. destruct (Bitmap4_is_set request b); [|done].
  cbn [fa_attrmask app fmap list_fmap fst].
  rewrite Bitmap4_set_lookup, orb_true_iff, Z.eqb_eq, elem_of_cons by done. naive_solver.
Qed.
End Emit.

(** ** What a client reads *)

Inductive AttrVal :=
| Av_bits (bits : list Z)
| Av_u32 (v : Z)
| Av_u64 (v : Z)
| Av_bool (b : bool)
| Av_fsid (f : Fsid4)
| Av_fh (fh : bytes)
| Av_str (s : bytes)
| Av_spec (s : Specdata4)
| Av_time (t : NfsTime4).

Inductive AttrKind :=
| Ak_bits | Ak_u32 | Ak_u64 | Ak_bool | Ak_fsid | Ak_fh | Ak_str | Ak_spec | Ak_time.

(** The type of an attribute (RFC 8881, section 5, tables 4 and 5; RFC 8276 for 82). *)
Definition attr_kind (bit : Z) : option AttrKind :=
  let among := existsb (Z.eqb bit) in
  if among [0; 75] then Some Ak_bits
  else if among [1; 2; 10; 11; 13; 28; 29; 33; 35] then Some Ak_u32
  else if among [3; 4; 20; 21; 22; 23; 27; 30; 31; 42; 43; 44; 45; 55] then Some Ak_u64
  else if among [5; 6; 7; 9; 14; 15; 16; 17; 18; 25; 26; 34; 46; 82] then Some Ak_bool
  else if among [8] then Some Ak_fsid
  else if among [19] then Some Ak_fh
  else if among [36; 37] then Some Ak_str
  else if among [41] then Some Ak_spec
  else if among [47; 49; 50; 51; 52; 53] then Some Ak_time
  else None.

Definition read_kind (k : AttrKind) : decoder AttrVal :=
  match k with
  | Ak_bits => let? b := decode_Bitmap4 in dec_ret (Av_bits (mask_bits b))
  | Ak_u32 => let? v := decode_u32 in dec_ret (Av_u32 v)
  | Ak_u64 => let? v := decode_u64 in dec_ret (Av_u64 v)
  | Ak_bool => let? b := decode_bool in dec_ret (Av_bool b)
  | Ak_fsid => let? f := decode_Fsid4 in dec_ret (Av_fsid f)
  | Ak_fh => let? f := decode_NfsFh4 in dec_ret (Av_fh f)
  | Ak_str => let? s := decode_string in dec_ret (Av_str s)
  | Ak_spec => let? a := decode_u32 in let? b := decode_u32 in dec_ret (Av_spec (mkSpecdata4 a b))
  | Ak_time => let? t := decode_NfsTime4 in dec_ret (Av_time t)
  end.

Definition read_attr (bit : Z) : decoder AttrVal :=
  match attr_kind bit with
  | Some k => read_kind k
  | None => dec_fail (InvalidEnum bit)
  end.

(** A client reads the values of the attributes in the mask, lowest bit first. *)
Fixpoint read_attrs (bits : list Z) : decoder (list (Z * AttrVal)) :=
  match bits with
  | [] => dec_ret []
  | bit :: bits =>
    let? v := read_attr bit in
    let? vs := read_attrs bits in
    dec_ret ((bit, v) :: vs)
  end.

Definition client_read (f : Fattr4) : result XdrError (list (Z * AttrVal) * bytes) :=
  read_attrs (mask_bits (fa_attrmask f)) (fa_attr_vals f).

(** The attributes of an object, by number. *)
Definition attr_table (attr : ServerFileAttr) (fh : bytes) (ctx : AttrEncodingContext)
    : list (Z * AttrVal) :=
  let caps := aec_capabilities ctx in
  [(0, Av_bits (mask_bits (supported_attrs_bitmap caps (aec_minorversion ctx))));
   (1, Av_u32 (NfsFtype4_u32 (nfs_type (sf_file_type attr))));
   (2, Av_u32 0); (3, Av_u64 (sf_change_id attr)); (4, Av_u64 (sf_size attr));
   (5, Av_bool (fc_hard_links caps)); (6, Av_bool (fc_symlinks caps));
   (7, Av_bool (sf_has_named_attrs attr));
   (8, Av_fsid (mkFsid4 (fi_major (sf_fsid attr)) (fi_minor (sf_fsid attr))));
   (9, Av_bool true); (10, Av_u32 90); (11, Av_u32 0); (13, Av_u32 0);
   (14, Av_bool (sf_archive attr)); (15, Av_bool true);
   (16, Av_bool (negb (fc_case_sensitive caps))); (17, Av_bool (fc_case_preserving caps));
   (18, Av_bool true); (19, Av_fh fh); (20, Av_u64 (sf_fileid attr))] ++
  match aec_stats ctx with
  | Some st => [(21, Av_u64 (fst_avail_files st)); (22, Av_u64 (fst_free_files st));
                (23, Av_u64 (fst_total_files st))]
  | None => []
  end ++
  [(25, Av_bool (sf_hidden attr)); (26, Av_bool true);
   (27, Av_u64 (fl_max_file_size (aec_limits ctx))); (28, Av_u32 255);
   (29, Av_u32 (fl_max_name_bytes (aec_limits ctx))); (30, Av_u64 (fl_max_read (aec_limits ctx)));
   (31, Av_u64 (fl_max_write (aec_limits ctx)));
   (33, Av_u32 (Z.land (sf_mode attr) 4095)); (34, Av_bool true); (35, Av_u32 (sf_nlink attr));
   (36, Av_str (sf_owner attr)); (37, Av_str (sf_owner_group attr));
   (41, Av_spec (mkSpecdata4 (sf_rdev_major attr) (sf_rdev_minor attr)))] ++
  match aec_stats ctx with
  | Some st => [(42, Av_u64 (fst_avail_bytes st)); (43, Av_u64 (fst_free_bytes st));
                (44, Av_u64 (fst_total_bytes st))]
  | None => []
  end ++
  [(45, Av_u64 (sf_used attr)); (46, Av_bool (sf_system attr));
   (47, Av_time (mkNfsTime4 (sf_atime_sec attr) (sf_atime_nsec attr)));
   (49, Av_time (mkNfsTime4 (sf_crtime_sec attr) (sf_crtime_nsec attr)));
   (50, Av_time (mkNfsTime4 (sf_crtime_sec attr) (sf_crtime_nsec attr)));
   (51, Av_time (mkNfsTime4 0 1000000));
   (52, Av_time (mkNfsTime4 (sf_ctime_sec attr) (sf_ctime_nsec attr)));
   (53, Av_time (mkNfsTime4 (sf_mtime_sec attr) (sf_mtime_nsec attr)));
   (55, Av_u64 (sf_fileid attr)); (75, Av_bits [4; 33])] ++
  (if 2 <=? aec_minorversion ctx then [(82, Av_bool (fc_xattrs caps))] else []).

(** Values within the ranges of their Rust types. *)
Record ServerFileAttr_ok (a : ServerFileAttr) : Prop := {
  sfo_fsid : is_u64 (fi_major (sf_fsid a)) /\ is_u64 (fi_minor (sf_fsid a));
  sfo_u64 : is_u64 (sf_fileid a) /\ is_u64 (sf_size a) /\ is_u64 (sf_used a) /\ is_u64 (sf_change_id a);
  sfo_u32 : is_u32 (sf_mode a) /\ is_u32 (sf_nlink a) /\ is_u32 (sf_rdev_major a) /\ is_u32 (sf_rdev_minor a);
  sfo_str : string_ok (sf_owner a) /\ string_ok (sf_owner_group a);
  sfo_sec : is_i64 (sf_atime_sec a) /\ is_i64 (sf_mtime_sec a) /\ is_i64 (sf_ctime_sec a) /\ is_i64 (sf_crtime_sec a);
  sfo_nsec : is_u32 (sf_atime_nsec a) /\ is_u32 (sf_mtime_nsec a) /\ is_u32 (sf_ctime_nsec a) /\ is_u32 (sf_crtime_nsec a);
}.
Record AttrEncodingContext_ok (c : AttrEncodingContext) : Prop := {
  aco_limits : is_u32 (fl_max_name_bytes (aec_limits c)) /\ is_u32 (fl_max_read (aec_limits c)) /\
    is_u32 (fl_max_write (aec_limits c)) /\ is_u64 (fl_max_file_size (aec_limits c));
  aco_stats : forall st, aec_stats c = Some st ->
    is_u64 (fst_total_bytes st) /\ is_u64 (fst_free_bytes st) /\ is_u64 (fst_avail_bytes st) /\
    is_u64 (fst_total_files st) /\ is_u64 (fst_free_files st) /\ is_u64 (fst_avail_files st);
}.
Definition NfsFh4_ok (fh : bytes) : Prop := opaque_ok fh /\ zlen fh <= 128.

#[export] Instance wire_Fsid4 :
  WireDec decode_Fsid4 encode_Fsid4 (fun f => is_u64 (fsid_major f) /\ is_u64 (fsid_minor f)).
Proof. intros [a b] rest [Ha Hb]. unfold decode_Fsid4, encode_Fsid4. cbn in *. by wire_run. Qed.

Lemma mask_bits_equiv a b : bm_equiv a b -> mask_bits a = mask_bits b.
Proof.
  intros He. apply (StronglySorted_unique Z.le); try apply StronglySorted_filter, seqZ_sorted.
  apply NoDup_Permutation; try apply NoDup_filter, NoDup_seqZ.
  intros x. rewrite !elem_of_mask_bits. split; intros [Hx Hs]; by rewrite He in * || rewrite <- He in *.
Qed.

(** A bitmap is read back with the bits it had. *)
Lemma decode_bits_app b rest :
  Bitmap4_ok b -> dec_bind decode_Bitmap4 (fun b => dec_ret (Av_bits (mask_bits b)))
    (encode_Bitmap4 b ++ rest) = Ok (Av_bits (mask_bits b), rest).
Proof.
  intros Hb. unfold dec_bind. rewrite decode_Bitmap4_app by done. unfold dec_ret.
  do 3 f_equal. apply mask_bits_equiv. intros q Hq.
  rewrite !is_set_word_at, trimmed_word_at. by destruct b.
Qed.

Lemma supported_attrs_ok caps mv : Bitmap4_ok (supported_attrs_bitmap caps mv).
Proof.
  unfold supported_attrs_bitmap. destruct (fc_xattrs caps), (2 <=? mv); cbn [andb];
    unfold Bitmap4_ok, is_u32; apply (bool_decide_unpack _); by vm_compute.
Qed.

(** ** The encoder against the table *)

Definition reads_as (blk : Z * bytes) (entry : Z * AttrVal) : Prop :=
  blk.1 = entry.1 /\ forall rest, read_attr blk.1 (blk.2 ++ rest) = Ok (entry.2, rest).

Lemma reads_as_kind bit k enc v :
  attr_kind bit = Some k -> (forall rest, read_kind k (enc ++ rest) = Ok (v, rest)) ->
  reads_as (bit, enc) (bit, v).
Proof. intros Hk Hr. split; [done|]. intros rest. unfold reads_as, read_attr. cbn [fst snd]. by rewrite Hk. Qed.

Ltac reads_as_with k := intros; apply (reads_as_kind _ k); [done|]; intros ?; cbn [read_kind]; by wire_run.

Lemma reads_u32 bit v : attr_kind bit = Some Ak_u32 -> is_u32 v -> reads_as (bit, encode_u32 v) (bit, Av_u32 v).
Proof. reads_as_with Ak_u32. Qed.
Lemma reads_u64 bit v : attr_kind bit = Some Ak_u64 -> is_u64 v -> reads_as (bit, encode_u64 v) (bit, Av_u64 v).
Proof. reads_as_with Ak_u64. Qed.
Lemma reads_bool bit b : attr_kind bit = Some Ak_bool -> reads_as (bit, encode_bool b) (bit, Av_bool b).
Proof. reads_as_with Ak_bool. Qed.
Lemma reads_str bit s : attr_kind bit = Some Ak_str -> string_ok s -> reads_as (bit, encode_string s) (bit, Av_str s).
Proof. reads_as_with Ak_str. Qed.
Lemma reads_time bit s n :
  attr_kind bit = Some Ak_time -> is_i64 s -> is_u32 n ->
  reads_as (bit, encode_NfsTime4 (mkNfsTime4 s n)) (bit, Av_time (mkNfsTime4 s n)).
Proof. intros. assert (NfsTime4_ok (mkNfsTime4 s n)) by done. reads_as_with Ak_time. Qed.
Lemma reads_bits bit b :
  attr_kind bit = Some Ak_bits -> Bitmap4_ok b -> reads_as (bit, encode_Bitmap4 b) (bit, Av_bits (mask_bits b)).
Proof. intros. apply (reads_as_kind _ Ak_bits); [done|]. intros. by apply decode_bits_app. Qed.
Lemma reads_fsid bit f :
  attr_kind bit = Some Ak_fsid -> is_u64 (fsid_major f) -> is_u64 (fsid_minor f) ->
  reads_as (bit, encode_Fsid4 f) (bit, Av_fsid f).
Proof. reads_as_with Ak_fsid. Qed.
Lemma reads_fh bit fh : attr_kind bit = Some Ak_fh -> NfsFh4_ok fh -> reads_as (bit, encode_NfsFh4 fh) (bit, Av_fh fh).
Proof. unfold NfsFh4_ok, encode_NfsFh4. intros. destruct_and?. apply (reads_as_kind _ Ak_fh); [done|].
  intros rest. cbn [read_kind]. unfold decode_NfsFh4. by wire_run. Qed.
Lemma reads_spec bit a b :
  attr_kind bit = Some Ak_spec -> is_u32 a -> is_u32 b ->
  reads_as (bit, encode_Specdata4 (mkSpecdata4 a b)) (bit, Av_spec (mkSpecdata4 a b)).
Proof. unfold encode_Specdata4. cbn [specdata1 specdata2]. reads_as_with Ak_spec. Qed.

Create HintDb attrs.
#[export] Hint Resolve reads_u32 reads_u64 reads_bool reads_str reads_time reads_bits reads_fsid
  reads_fh reads_spec : attrs.

Lemma is_u32_u64 z : is_u32 z -> is_u64 z.
Proof. unfold is_u32, is_u64. lia. Qed.
Lemma perm_bits_u32 z : is_u32 (Z.land z MODE_PERM_MASK).
Proof.
  unfold is_u32, MODE_PERM_MASK. change 4095 with (Z.ones 12). rewrite Z.land_ones by lia.
  pose proof (Z.mod_pos_bound z (2 ^ 12)). lia.
Qed.
Lemma nfs_type_u32 t : is_u32 (NfsFtype4_u32 (nfs_type t)).
Proof. unfold is_u32. destruct t; simpl; lia. Qed.
Lemma reads_ftype bit t :
  attr_kind bit = Some Ak_u32 ->
  reads_as (bit, encode_NfsFtype4 (nfs_type t)) (bit, Av_u32 (NfsFtype4_u32 (nfs_type t))).
Proof. intros. apply reads_u32; [done|apply nfs_type_u32]. Qed.
#[export] Hint Resolve reads_ftype is_u32_u64 perm_bits_u32 nfs_type_u32 supported_attrs_ok : attrs.
#[export] Hint Extern 1 (attr_kind _ = Some _) => reflexivity : attrs.
#[export] Hint Extern 2 (is_u32 _) => solve [split; by vm_compute] : attrs.
#[export] Hint Extern 2 (is_i64 _) => solve [split; by vm_compute] : attrs.

Lemma blocks_table attr fh ctx :
  ServerFileAttr_ok attr -> AttrEncodingContext_ok ctx -> NfsFh4_ok fh ->
  Forall2 reads_as (live_blocks (fattr_blocks attr fh ctx)) (attr_table attr fh ctx).
Proof.
  intros [] [? Hst] Hfh. destruct_and?.
  assert (Hex : Bitmap4_ok suppattr_exclcreat).
  { unfold Bitmap4_ok, is_u32. apply (bool_decide_unpack _). by vm_compute. }
  unfold live_blocks, fattr_blocks, fattr_blocks_word0, fattr_blocks_word1, fattr_blocks_word2, attr_table.
  change (Av_bits [4; 33]) with (Av_bits (mask_bits suppattr_exclcreat)).
  destruct (aec_stats ctx) as [st|] eqn:Est; [destruct (Hst st eq_refl); destruct_and?|];
    destruct (2 <=? aec_minorversion ctx); cbn [app omap list_omap fmap option_fmap option_map fst snd];
    repeat (apply Forall2_cons_2; [solve [auto with attrs]|]); constructor.
Qed.

Lemma fattr_blocks_sorted attr fh ctx :
  StronglySorted Z.lt (fattr_blocks attr fh ctx).*1 /\
  Forall (fun blk => 0 <= blk.1) (fattr_blocks attr fh ctx).
Proof.
  split.
  - apply Sorted_StronglySorted; [intros ???; lia|].
    unfold fattr_blocks, fattr_blocks_word0, fattr_blocks_word1, fattr_blocks_word2.
    cbn [app fmap list_fmap fst]. repeat constructor.
  - unfold fattr_blocks, fattr_blocks_word0, fattr_blocks_word1, fattr_blocks_word2.
    cbn [app]. repeat (constructor; [by cbn|]). constructor.
Qed.

(** Filtering blocks out leaves their numbers increasing. *)
Lemma emitted_sorted request blocks :
  StronglySorted Z.lt blocks.*1 -> StronglySorted Z.lt (emitted request blocks).*1.
Proof.
  induction blocks as [|[bit v] blocks IH]; [done|]. cbn [fmap list_fmap fst]. intros Hs.
  apply StronglySorted_inv in Hs as [Hs Hb]. rewrite emitted_cons.
  assert (Hsub : forall b, b ∈ (emitted request blocks).*1 -> b ∈ blocks.*1).
  { intros b ([b' v'] & -> & [_ Hin]%elem_of_emitted)%list_elem_of_fmap.
    by apply (list_elem_of_fmap_2 fst) in Hin. }
  destruct v as [v|]; [|by apply IH]. destruct (Bitmap4_is_set request bit); [|by apply IH].
  cbn. constructor; [by apply IH|]. apply Forall_forall. intros b Hin.
  eapply Forall_forall in Hb; [exact Hb|]. by apply Hsub.
Qed.

Lemma emit_emitted request blocks :
  StronglySorted Z.lt blocks.*1 -> Forall (fun blk => 0 <= blk.1) blocks ->
  mask_bits (fa_attrmask (foldl (fattr_emit request) (mkFattr4 Bitmap4_new []) blocks)) =
    (emitted request blocks).*1 /\
  fa_attr_vals (foldl (fattr_emit request) (mkFattr4 Bitmap4_new []) blocks) =
    flat_map snd (emitted request blocks).
Proof.
  intros Hs Hn. split; [|by rewrite emit_vals].
  apply sorted_bits_unique; [by apply emitted_sorted|]. intros bit. split.
  - intros Hin. assert (0 <= bit).
    { apply list_elem_of_fmap in Hin as ([b' v'] & -> & [_ Hin]%elem_of_emitted).
      eapply Forall_forall in Hn; [|exact Hin]. exact Hn. }
    split; [done|]. apply emit_mask; auto.
  - intros [Hb Hset]. by apply emit_mask in Hset as [Hset|Hset].
Qed.

Lemma Forall2_filter_fst {A B} (R : Z * A -> Z * B -> Prop) (p : Z -> bool) l k :
  (forall x y, R x y -> x.1 = y.1) -> Forall2 R l k ->
  Forall2 R (filter (fun x => p x.1 = true) l) (filter (fun x => p x.1 = true) k).
Proof.
  intros HR. induction 1 as [|x y l k Hxy Hlk IH]; [constructor|]. rewrite !filter_cons.
  rewrite (HR _ _ Hxy). case_decide; [by constructor|done].
Qed.

Lemma read_attrs_reads blks entries rest :
  Forall2 reads_as blks entries ->
  read_attrs blks.*1 (flat_map snd blks ++ rest) = Ok (entries, rest).
Proof.
  induction 1 as [|[b v] [b' av] blks entries [Hb Hr] H IH]; [done|].
  cbn [fst snd] in *. subst b'. cbn. rewrite <- app_assoc. unfold dec_bind. by rewrite Hr, IH.
Qed.

(** C21. GETATTR answers what was asked: a client that reads the reply's values
    in the order of its mask gets, for every attribute it requested and the
    server has, the object's value of it, and nothing else; all bytes of the
    reply are accounted for. *)
Theorem client_reads_attrs attr request fh ctx :
  ServerFileAttr_ok attr -> AttrEncodingContext_ok ctx -> NfsFh4_ok fh ->
  client_read (encode_fattr4 attr request fh ctx) =
  Ok (filter (fun entry => Bitmap4_is_set request entry.1 = true) (attr_table attr fh ctx), []).
Proof.
  intros Ha Hc Hf. unfold client_read, encode_fattr4.
  destruct (fattr_blocks_sorted attr fh ctx) as [Hs Hn].
  destruct (emit_emitted request (fattr_blocks attr fh ctx) Hs Hn) as [-> ->].
  rewrite <- (app_nil_r (flat_map _ _)). apply read_attrs_reads.
  unfold emitted. apply (Forall2_filter_fst _ (Bitmap4_is_set request)); [by intros ?? []|].
  by apply blocks_table.
Qed.

(** Blocks that do not run may differ. *)
Lemma emit_ext request blks blks' acc :
  Forall2 (fun x y => x = y \/ x.1 = y.1 /\ Bitmap4_is_set request x.1 = false) blks blks' ->
  foldl (fattr_emit request) acc blks = foldl (fattr_emit request) acc blks'.
Proof.
  intros H. revert acc. induction H as [|[b v] [b' v'] blks blks' Hxy H IH]; intros acc; [done|].
  cbn [foldl]. rewrite IH. f_equal. destruct Hxy as [[= -> ->]|[Hb Hs]]; [done|].
  cbn [fst] in *. subst b'. unfold fattr_emit. rewrite Hs. by destruct v, v'.
Qed.

(** Without the filesystem's statistics the server answers the same to every
    request that does not need them, so it is right not to ask the backend. *)
Theorem fs_stats_not_needed attr request fh limits stats caps minorversion :
  request_needs_fs_stats request = false ->
  encode_fattr4 attr request fh (mkAttrEncodingContext limits None caps minorversion) =
  encode_fattr4 attr request fh (mkAttrEncodingContext limits (Some stats) caps minorversion).
Proof.
  unfold request_needs_fs_stats. rewrite !orb_false_iff. intros H. destruct_and! H.
  apply emit_ext. unfold fattr_blocks, fattr_blocks_word0, fattr_blocks_word1, fattr_blocks_word2.
  cbn [app aec_limits aec_stats aec_capabilities aec_minorversion].
  repeat (apply Forall2_cons_2; [first [by left | by right]|]). constructor.
Qed.

(** ** Attributes as a client sets them *)

Definition wire_settime (t : SetTime) : bytes :=
  match t with
  | ServerNow => encode_u32 0
  | Client ts => encode_u32 1 ++ encode_NfsTime4 (mkNfsTime4 (ts_seconds ts) (ts_nanos ts))
  end.

(** The creation time is a plain time; [ServerNow] has no encoding. *)
Definition wire_birthtime (t : SetTime) : bytes :=
  match t with
  | ServerNow => []
  | Client ts => encode_NfsTime4 (mkNfsTime4 (ts_seconds ts) (ts_nanos ts))
  end.

Definition setattr_blocks (a : SetAttrs) : list (Z * option bytes) :=
  [(FATTR4_SIZE, encode_u64 <$> sa_size a); (FATTR4_ARCHIVE, encode_bool <$> sa_archive a);
   (FATTR4_HIDDEN, encode_bool <$> sa_hidden a); (FATTR4_MODE, encode_u32 <$> sa_mode a);
   (FATTR4_OWNER, (fun id => encode_string (u32_to_string id)) <$> sa_uid a);
   (FATTR4_OWNER_GROUP, (fun id => encode_string (u32_to_string id)) <$> sa_gid a);
   (FATTR4_SYSTEM, encode_bool <$> sa_system a);
   (FATTR4_TIME_ACCESS_SET, wire_settime <$> sa_atime a);
   (FATTR4_TIME_CREATE, wire_birthtime <$> sa_birthtime a);
   (FATTR4_TIME_MODIFY_SET, wire_settime <$> sa_mtime a)].

Definition client_fattr (a : SetAttrs) : Fattr4 :=
  mkFattr4 (foldl Bitmap4_set Bitmap4_new (live_blocks (setattr_blocks a)).*1)
           (flat_map (fun blk => default [] blk.2) (setattr_blocks a)).

Definition SetTime_ok (t : SetTime) : Prop :=
  match t with ServerNow => True | Client ts => is_i64 (ts_seconds ts) /\ is_u32 (ts_nanos ts) end.
Definition opt_ok {A} (P : A -> Prop) (o : option A) : Prop :=
  match o with Some a => P a | None => True end.
Record SetAttrs_ok (a : SetAttrs) : Prop := {
  so_size : opt_ok is_u64 (sa_size a);
  so_mode : opt_ok (fun m => 0 <= m <= MODE_PERM_MASK) (sa_mode a);
  so_uid : opt_ok is_u32 (sa_uid a);
  so_gid : opt_ok is_u32 (sa_gid a);
  so_atime : opt_ok SetTime_ok (sa_atime a);
  so_mtime : opt_ok SetTime_ok (sa_mtime a);
  so_birthtime : opt_ok (fun t => SetTime_ok t /\ t <> ServerNow) (sa_birthtime a);
}.

Lemma is_set_new bit : Bitmap4_is_set Bitmap4_new bit = false.
Proof. unfold Bitmap4_is_set, Bitmap4_new. cbn [bm_words]. by rewrite lookup_nil. Qed.

Lemma foldl_set_lookup bits b bit :
  0 <= bit -> Forall (fun x => 0 <= x) bits ->
  Bitmap4_is_set (foldl Bitmap4_set b bits) bit = existsb (Z.eqb bit) bits || Bitmap4_is_set b bit.
Proof.
  intros Hb Hf. revert b. induction Hf as [|x bits Hx Hf IH]; intros b; [done|].
  cbn [foldl existsb]. rewrite IH, Bitmap4_set_lookup, (Z.eqb_sym x) by done.
  by destruct (bit =? x), (existsb _ _).
Qed.

Lemma existsb_live bit blocks :
  existsb (Z.eqb bit) (live_blocks blocks).*1 =
  existsb (fun blk => (bit =? blk.1) && negb (is_none blk.2)) blocks.
Proof.
  induction blocks as [|[b [v|]] blocks IH]; [done|..].
  - change (live_blocks ((b, Some v) :: blocks)) with ((b, v) :: live_blocks blocks).
    cbn [fmap list_fmap fst snd existsb is_none negb]. by rewrite IH, andb_true_r.
  - change (live_blocks ((b, None) :: blocks)) with (live_blocks blocks).
    cbn [existsb fst snd is_none negb]. by rewrite IH, andb_false_r.
Qed.

Lemma is_none_fmap {A B} (f : A -> B) o : is_none (f <$> o) = is_none o.
Proof. by destruct o. Qed.
Lemma default_fmap_enc {A} (enc : A -> bytes) o : default [] (enc <$> o) = opt_enc enc o.
Proof. by destruct o. Qed.

Lemma client_mask a bit :
  0 <= bit -> Bitmap4_is_set (fa_attrmask (client_fattr a)) bit =
  existsb (fun blk => (bit =? blk.1) && negb (is_none blk.2)) (setattr_blocks a).
Proof.
  intros Hb. cbn [client_fattr fa_attrmask].
  rewrite foldl_set_lookup, is_set_new, orb_false_r, existsb_live; [done|done|].
  apply Forall_forall. intros x ([b v] & -> & Hin)%list_elem_of_fmap. cbn [fst].
  unfold live_blocks in Hin. apply list_elem_of_omap in Hin as ([b' [w|]] & Hin & Hv); simplify_eq/=.
  unfold setattr_blocks in Hin.
  repeat (apply elem_of_cons in Hin as [[= -> _]|Hin]; [by vm_compute|]). by apply elem_of_nil in Hin.
Qed.

Lemma bind_attr {A B} mask bit (d : decoder (option A)) (o : option A) (enc : A -> bytes)
    (k : option A -> decoder B) rest :
  Bitmap4_is_set mask bit = negb (is_none o) ->
  (forall a rest, o = Some a -> d (enc a ++ rest) = Ok (Some a, rest)) ->
  dec_bind (dec_attr mask bit d None) k (opt_enc enc o ++ rest) = k o rest.
Proof.
  intros Hm Hd. unfold dec_attr. rewrite Hm. destruct o as [a|]; [|done]. cbn [is_none negb opt_enc].
  unfold dec_bind, dec_ret. by rewrite Hd.
Qed.

Lemma bind_attr_absent {A B} mask bit (d : decoder (option A)) old (k : option A -> decoder B) src :
  Bitmap4_is_set mask bit = false -> dec_bind (dec_attr mask bit d old) k src = k old src.
Proof. intros Hm. unfold dec_attr. by rewrite Hm. Qed.

(** The next attribute of a client's list, present or not. *)
Ltac attr_step Hm o :=
  rewrite <- ?app_assoc; erewrite (bind_attr _ _ _ o);
  [ | rewrite Hm by (by vm_compute); by destruct o | intros ? ? ->; cbn [opt_ok] in * ].

Lemma perm_bits_id m : 0 <= m <= MODE_PERM_MASK -> Z.land m MODE_PERM_MASK = m.
Proof.
  unfold MODE_PERM_MASK. intros Hm. change 4095 with (Z.ones 12).
  rewrite Z.land_ones by lia. apply Z.mod_small. lia.
Qed.

Lemma dec_settime_wire t rest : SetTime_ok t -> dec_settime (wire_settime t ++ rest) = Ok (Some t, rest).
Proof.
  intros Ht. unfold dec_settime. destruct t as [|[s n]]; cbn [wire_settime].
  - by wire_run.
  - cbn [SetTime_ok ts_seconds ts_nanos] in *. assert (NfsTime4_ok (mkNfsTime4 s n)) by done.
    wire_step. cbn [Z.eqb Pos.eqb]. by wire_run.
Qed.
Lemma dec_birthtime_wire t rest :
  SetTime_ok t -> t <> ServerNow -> dec_birthtime (wire_birthtime t ++ rest) = Ok (Some t, rest).
Proof.
  intros Ht Hn. unfold dec_birthtime. destruct t as [|[s n]]; [done|]. cbn [wire_birthtime].
  cbn [SetTime_ok ts_seconds ts_nanos] in *. assert (NfsTime4_ok (mkNfsTime4 s n)) by done. by wire_run.
Qed.
Lemma dec_principal_wire id rest :
  is_u32 id -> dec_principal (encode_string (u32_to_string id) ++ rest) = Ok (Some id, rest).
Proof.
  intros Hid. unfold dec_principal. pose proof (u32_to_string_ok id Hid). wire_step.
  unfold dec_ret. by rewrite parse_u32_to_string.
Qed.

(** C22. SETATTR, OPEN and CREATE take from a well-formed attribute list exactly
    the changes the client asked for, whichever of them it asks for, and numeric
    owners as the server itself prints them. *)
Theorem setattr_roundtrip a :
  SetAttrs_ok a -> decode_setattr (client_fattr a) = Ok a.
Proof.
  intros []. unfold decode_setattr.
  assert (Hm : forall bit, 0 <= bit -> Bitmap4_is_set (fa_attrmask (client_fattr a)) bit =
    existsb (fun blk => (bit =? blk.1) && negb (is_none blk.2)) (setattr_blocks a))
    by exact (client_mask a).
  revert Hm. generalize (fa_attrmask (client_fattr a)) as mask. intros mask Hm.
  unfold setattr_blocks in Hm.
  cbn [existsb fst snd] in Hm.
  destruct a as [size archive hidden mode uid gid system atime mtime birthtime].
  cbn in so_size0, so_mode0, so_uid0, so_gid0, so_atime0, so_mtime0, so_birthtime0.
  cbn [client_fattr fa_attr_vals setattr_blocks flat_map snd sa_size sa_archive sa_hidden sa_mode
       sa_uid sa_gid sa_system sa_atime sa_mtime sa_birthtime] in *.
  rewrite !default_fmap_enc. unfold dec_setattr.
  attr_step Hm size; [|by wire_run]. attr_step Hm archive; [|by wire_run].
  attr_step Hm hidden; [|by wire_run].
  attr_step Hm mode; cycle 1.
  { erewrite bind_wire; [|apply _|unfold MODE_PERM_MASK, is_u32 in *; lia].
    unfold dec_ret. by rewrite perm_bits_id. }
  attr_step Hm uid; [|by apply dec_principal_wire]. attr_step Hm gid; [|by apply dec_principal_wire].
  attr_step Hm system; [|by wire_run]. attr_step Hm atime; [|by apply dec_settime_wire].
  rewrite bind_attr_absent by (rewrite Hm by (by vm_compute); by vm_compute).
  attr_step Hm birthtime; [|destruct so_birthtime0; by apply dec_birthtime_wire].
  attr_step Hm mtime; [|by apply dec_settime_wire]. done.
Qed.

Lemma setattr_roundtrip_witness :
  let a := mkSetAttrs (Some 10) None (Some true) (Some 420) (Some 1000) None None
             (Some ServerNow) (Some (Client (mkTimestamp (-1) 5))) None in
  SetAttrs_ok a /\ decode_setattr (client_fattr a) = Ok a.
Proof.
  intros a. assert (Ha : SetAttrs_ok a).
  { split; cbn; unfold is_u64, is_u32, is_i64, MODE_PERM_MASK; repeat split; lia. }
  split; [exact Ha|]. exact (setattr_roundtrip a Ha).
Defined.

Definition example_attr : ServerFileAttr :=
  mkServerFileAttr FsId_default 7 FT_Regular 5 5 33188 1 (str_bytes "0") (str_bytes "0")
    0 0 0 0 0 0 0 0 9 0 0 false false false false.
Definition example_ctx : AttrEncodingContext :=
  mkAttrEncodingContext FsLimits_default None (mkFsCapabilities true true true true true true) 1.

Lemma client_reads_attrs_witness :
  client_read (encode_fattr4 example_attr (mkBitmap4 [24; 2]) [1; 2; 3] example_ctx) =
  Ok ([(3, Av_u64 9); (4, Av_u64 5); (33, Av_u32 420)], []).
Proof.
  refine (client_reads_attrs example_attr (mkBitmap4 [24; 2]) [1; 2; 3] example_ctx _ _ _).
  - split; cbn; unfold is_u64, is_u32, is_i64; repeat split; try lia; try (by vm_compute);
      apply (bool_decide_unpack _); by vm_compute.
  - split; cbn; [unfold is_u64, is_u32; lia|done].
  - unfold NfsFh4_ok, opaque_ok, bytes_ok, is_u8. apply (bool_decide_unpack _); by vm_compute.
Defined.

Lemma fs_stats_not_needed_witness :
  encode_fattr4 example_attr (mkBitmap4 [24]) [1] example_ctx =
  encode_fattr4 example_attr (mkBitmap4 [24]) [1]
    (mkAttrEncodingContext FsLimits_default (Some (mkFsStats 1 2 3 4 5 6))
       (mkFsCapabilities true true true true true true) 1).
Proof. apply fs_stats_not_needed. vm_compute. reflexivity. Defined.

(** An attribute the decoder does not know is not skipped: its bytes are read as
    the value of the next one. *)
Theorem decode_setattr_unknown_attr :
  let mask := Bitmap4_set (Bitmap4_set Bitmap4_new FATTR4_ACL) FATTR4_MODE in
  decode_setattr (mkFattr4 mask (encode_u32 0 ++ encode_u32 420)) =
  Ok (mkSetAttrs None None None (Some 0) None None None None None None).
Proof. vm_compute. reflexivity. Qed.
