(* ===== verification/StateMachine.v ===== *)
(** * The state manager as a step relation

    Requests run concurrently; what is atomic is a critical section of the
    state lock (one [*_guarded] definition or one whole operation that reaps
    and works under the same guard) or one call on the lock-free tables.
    [step] has one rule per such section, with the argument ranges of the Rust
    types and an enumeration order of its own; [steps n] is any interleaving
    of [n] of them.  A request that reaps first and then takes the guard is
    two steps, so everything proved for [steps] holds however requests
    interleave.

    Everything is proved for fewer than 2^32 - 1 steps, the room of the
    stateid counter. *)

From stdpp Require Import base gmap list sets strings numbers.
From Stdlib Require Import ZArith Lia.
From S2P Require Import Prelude Xdr Rpc Types StateModel DelegTable Clients Stateids.
From S2P Require Import Opens Locks Delegations Sequence Filehandles Invalidate FsApi Metadata.

Local Open Scope Z_scope.

(** ** Steps *)

(** [step_with P]: the replies kept for retries satisfy [P fingerprint reply]. *)
Inductive step_with {P : bytes -> bytes -> Prop} : StateManager -> StateManager -> Prop :=
(* clients.rs *)
| step_reap {ho : HashOrder} now s : @step_with P s (reap_expired_clients now s)
| step_exchange_id {ho : HashOrder} args now s : @step_with P s (exchange_id args now s).2
| step_create_session {ho : HashOrder} args conn now s :
    is_u64 (csa_clientid args) -> @step_with P s (create_session args conn now s).2
| step_destroy_session {ho : HashOrder} sid conn now s : @step_with P s (destroy_session sid conn now s).2
| step_destroy_clientid {ho : HashOrder} c now s : @step_with P s (destroy_clientid c now s).2
| step_bind {ho : HashOrder} args conn now s : @step_with P s (bind_conn_to_session args conn now s).2
| step_callback {ho : HashOrder} c conn s : @step_with P s (next_callback_target_on c conn s).2
| step_remove_connection conn s : @step_with P s (remove_connection conn s)
| step_reclaim {ho : HashOrder} c fs now s : @step_with P s (reclaim_complete c fs now s).2
| step_set_client_id {ho : HashOrder} args now s : @step_with P s (set_client_id args now s).2
| step_set_client_id_confirm {ho : HashOrder} args now s :
    @step_with P s (set_client_id_confirm args now s).2
| step_renew c now s : @step_with P s (renew c now s).2
(* sequence.rs *)
| step_prepare {ho : HashOrder} args fp conn now s : @step_with P s (prepare_sequence args fp conn now s).2
| step_finish tok r s : P (tk_fingerprint tok) r -> @step_with P s (finish_sequence tok r s).2
(* opens.rs *)
| step_open {ho : HashOrder} object owner acc deny s :
    1 <= acc <= 3 -> mode_ok deny -> is_u64 (so_clientid owner) ->
    @step_with P s (create_open_state_guarded object owner acc deny s).2
| step_confirm sid s : @step_with P s (confirm_open_state_guarded sid s).2
| step_close {ho : HashOrder} sid s : @step_with P s (close_state_guarded sid s).2
| step_free {ho : HashOrder} sid s : @step_with P s (free_stateid_guarded sid s).2
| step_downgrade sid acc deny s :
    1 <= acc <= 3 -> mode_ok deny -> @step_with P s (open_downgrade_guarded sid acc deny s).2
(* locks.rs *)
| step_lock_new osid owner object t o l s :
    range_ok (mkLockRange t o l) -> is_u64 (so_clientid owner) ->
    @step_with P s (create_lock_state_guarded osid owner object t o l s).2
| step_lock_more sid t o l s r s' :
    range_ok (mkLockRange t o l) -> update_lock_state_guarded sid t o l s = Some (r, s') -> @step_with P s s'
| step_unlock sid o l s :
    range_ok (mkLockRange ReadLt o l) -> @step_with P s (unlock_state_guarded sid o l s).2
(* delegations.rs *)
| step_delegate {ho : HashOrder} object c sess now s :
    is_u64 c -> @step_with P s (create_directory_delegation_guarded object c sess now s).2
| step_grant {ho : HashOrder} object c sess max_c max_t now s :
    is_u64 c -> @step_with P s (grant_directory_delegation_guarded object c sess max_c max_t now s).2
| step_return sid c s : @step_with P s (return_delegation_state_guarded sid c s).2
| step_purge {ho : HashOrder} c s :
    @step_with P s (with_inner (fun i => remove_client_delegations_locked i c) s)
| step_revoke sid s : @step_with P s (revoke_delegation_state_guarded sid s).2
| step_recall {ho : HashOrder} object excl now s :
    @step_with P s (begin_directory_recall_guarded object excl now s).2
| step_revoke_recallable sid s : @step_with P s (revoke_recallable_delegation_guarded sid s).2
(* invalidate.rs *)
| step_mark_retired ids s : @step_with P s (mark_retired ids s)
| step_sweep_filehandles {ho : HashOrder} ids s : @step_with P s (sweep_filehandles ids s)
| step_sweep_state {ho : HashOrder} ids s :
    @step_with P s (set_sm_inner (sweep_state ids (sm_inner s)).1 s)
(* filehandles.rs *)
| step_alloc_connection s : @step_with P s (alloc_connection_id s).2
| step_record_persistent id enc s : @step_with P s (record_persistent_fh id enc s)
| step_object_to_fh object s : @step_with P s (object_to_fh object s).2
(* metadata.rs *)
| step_ensure_meta object ft clock s : @step_with P s (ensure_meta object ft clock s).2
| step_touch_data object ft clock clock' s : @step_with P s (touch_data object ft clock clock' s)
| step_touch_metadata object ft clock clock' s : @step_with P s (touch_metadata object ft clock clock' s)
| step_named_attr_count object ft n clock s : @step_with P s (set_named_attr_count object ft n clock s)
| step_setattr object ft attrs clock clock' s : @step_with P s (apply_setattr object ft attrs clock clock' s).

(** Steps that may keep any reply. *)
Abbreviation step := (@step_with (fun _ _ => True)).

Lemma step_with_step P s s' : @step_with P s s' -> step s s'.
Proof. intros []; solve [econstructor; eauto]. Qed.

Inductive steps : nat -> StateManager -> StateManager -> Prop :=
| steps_refl s : steps 0 s s
| steps_next n s1 s2 s3 : steps n s1 s2 -> step s2 s3 -> steps (S n) s1 s3.

(** ** What a step does to the stateid tables *)

(** The three kinds of client state, as one view: stateid to (object, client). *)
Inductive kind := KOpen | KLock | KDeleg.
#[export] Instance kind_eq_dec : EqDecision kind.
Proof. solve_decision. Defined.

Definition entry (i : StateInner) (kd : kind) (k : bytes) : option (ServerObject * Z) :=
  match kd with
  | KOpen => (fun st => (os_object st, os_clientid st)) <$> in_open_files i !! k
  | KLock => (fun st => (ls_object st, so_clientid (ls_owner st))) <$> in_lock_files i !! k
  | KDeleg => (fun d => (ds_object d, ds_clientid d)) <$> in_delegations i !! k
  end.

(** A step removes entries, or keeps their object and client, and adds at most
    one: of the minted kind, under the counter's value, for an object that is
    not retired. *)
Record evolves (mint : option kind) (s s' : StateManager) : Prop := {
  ev_entries : forall kd k v, entry (sm_inner s') kd k = Some v ->
    entry (sm_inner s) kd k = Some v \/
    (mint = Some kd /\ k = stateid_other (sm_next_stateid s) v.2 /\ is_u64 v.2 /\
     is_retired s v.1 = false);
  ev_next : sm_next_stateid s' =
    match mint with Some _ => u32_wrap (sm_next_stateid s + 1) | None => sm_next_stateid s end;
  ev_retired : sm_retired_objects s ⊆ sm_retired_objects s';
}.

(** The state tables only lose entries. *)
Record shrunk (i j : StateInner) : Prop := {
  shrunk_opens : forall k v, in_open_files j !! k = Some v -> in_open_files i !! k = Some v;
  shrunk_locks : forall k v, in_lock_files j !! k = Some v -> in_lock_files i !! k = Some v;
  shrunk_delegs : forall k v, in_delegations j !! k = Some v -> in_delegations i !! k = Some v;
  shrunk_wf : deleg_wf j;
}.

Lemma shrunk_refl i : deleg_wf i -> shrunk i i.
Proof. done. Qed.

Lemma shrunk_trans i j k : shrunk i j -> shrunk j k -> shrunk i k.
Proof. intros [A1 A2 A3 A4] [B1 B2 B3 B4]. split; eauto. Qed.

Lemma purged_shrunk P i j : purged P i j -> shrunk i j.
Proof.
  intros [Ho Hl Hd _ Hw]. split; [intros k v|intros k v|intros k v|done];
    rewrite ?Ho, ?Hl, ?Hd; by intros [? _]%lookup_hm_retain_Some.
Qed.

Lemma shrunk_entry i j kd k v : shrunk i j -> entry j kd k = Some v -> entry i kd k = Some v.
Proof.
  intros [Ho Hl Hd _]. destruct kd; simpl.
  - destruct (in_open_files j !! k) as [x|] eqn:E; [|done]. by rewrite (Ho _ _ E).
  - destruct (in_lock_files j !! k) as [x|] eqn:E; [|done]. by rewrite (Hl _ _ E).
  - destruct (in_delegations j !! k) as [x|] eqn:E; [|done]. by rewrite (Hd _ _ E).
Qed.

(** ** The operations of clients.rs and sequence.rs only shrink the tables *)

Section client_steps.
Context {ho : HashOrder}.

Lemma reap_shrunk now s :
  deleg_wf (sm_inner s) -> shrunk (sm_inner s) (sm_inner (reap_expired_clients now s)).
Proof.
  intros Hwf. eapply purged_shrunk.
  apply (reap_expired_clients_spec (sm_config s) now (sm_inner s) Hwf).
Qed.

Lemma drop_shrunk i c : deleg_wf i -> shrunk i (drop_client_state i c).1.
Proof. intros Hwf. eapply purged_shrunk. by apply (drop_client_state_spec i c). Qed.

Lemma drops_shrunk i l : deleg_wf i -> shrunk i (drop_clients i l).
Proof. intros Hwf. eapply purged_shrunk. by apply (drop_fold i l). Qed.

(** An operation that reaps, then changes clients and sessions only, or drops
    clients on the way. *)
Definition client_step (s s' : StateManager) : Prop :=
  shrunk (sm_inner s) (sm_inner s') /\ sm_next_stateid s' = sm_next_stateid s /\
  sm_retired_objects s' = sm_retired_objects s.

Lemma reap_client_step now s :
  deleg_wf (sm_inner s) -> client_step s (reap_expired_clients now s).
Proof. intros Hwf. split; [by apply reap_shrunk|done]. Qed.

Lemma client_step_trans s1 s2 s3 : client_step s1 s2 -> client_step s2 s3 -> client_step s1 s3.
Proof.
  intros (A1 & A2 & A3) (B1 & B2 & B3). split_and!; [by eapply shrunk_trans|congruence|congruence].
Qed.

Lemma after_reap now s s' :
  deleg_wf (sm_inner s) ->
  (deleg_wf (sm_inner (reap_expired_clients now s)) ->
   client_step (reap_expired_clients now s) s') ->
  client_step s s'.
Proof.
  intros Hwf H. eapply client_step_trans; [by apply (reap_client_step now)|].
  apply H. by apply reap_deleg_wf.
Qed.

Lemma client_step_same s s' :
  deleg_wf (sm_inner s) ->
  in_open_files (sm_inner s') = in_open_files (sm_inner s) ->
  in_lock_files (sm_inner s') = in_lock_files (sm_inner s) ->
  in_delegations (sm_inner s') = in_delegations (sm_inner s) ->
  in_dir_delegations (sm_inner s') = in_dir_delegations (sm_inner s) ->
  in_client_delegations (sm_inner s') = in_client_delegations (sm_inner s) ->
  sm_next_stateid s' = sm_next_stateid s -> sm_retired_objects s' = sm_retired_objects s ->
  client_step s s'.
Proof.
  intros Hwf Ho Hl Hd Hx Hy Hn Hr. split_and!; try done. split; rewrite ?Ho, ?Hl, ?Hd; try done.
  unfold deleg_wf in *. by rewrite Hd, Hx, Hy.
Qed.

Ltac same := apply client_step_same; done.

Lemma exchange_id_client_step args now s :
  deleg_wf (sm_inner s) -> client_step s (exchange_id args now s).2.
Proof.
  intros Hwf. unfold exchange_id. destruct (ei_state_protect args); [|same|same].
  apply (after_reap now); [done|]. generalize (reap_expired_clients now s). clear s Hwf.
  intros s Hwf. unfold exchange_id_client. destruct (hm_find _ _) as [[k cl]|]; [same|].
  match goal with |- context [drop_clients _ ?l] => set (stale := l) end.
  eapply (client_step_trans _ (with_inner (fun i => drop_clients i stale) s)).
  - split; [by apply drops_shrunk|done].
  - assert (Hw : deleg_wf (drop_clients (sm_inner s) stale)) by apply (drops_shrunk _ _ Hwf).
    apply client_step_same; done.
Qed.

Lemma create_session_step args conn now s :
  deleg_wf (sm_inner s) -> client_step s (create_session args conn now s).2.
Proof.
  intros Hwf. unfold create_session. apply (after_reap now); [done|].
  generalize (reap_expired_clients now s). clear s Hwf. intros s Hwf.
  destruct (in_clients (sm_inner s) !! csa_clientid args) as [cl|]; [|same].
  destruct (create_session_client _ _ _ _) as [[cl' [[old|] q]]|e]; [| same | same].
  set (s1 := with_inner (fun i => set_in_clients (<[csa_clientid args := cl']> (in_clients i)) i) s).
  apply (client_step_trans _ s1); [same|].
  eapply (client_step_trans _ (with_inner (fun i => (drop_client_state i old).1) s1)).
  - split; [|done]. apply (drop_shrunk (sm_inner s1) old Hwf).
  - assert (Hw : deleg_wf (sm_inner (with_inner (fun i => (drop_client_state i old).1) s1)))
      by apply (drop_shrunk (sm_inner s1) old Hwf).
    apply client_step_same; done.
Qed.

Lemma destroy_session_step sid conn now s :
  deleg_wf (sm_inner s) -> client_step s (destroy_session sid conn now s).2.
Proof.
  intros Hwf. unfold destroy_session. apply (after_reap now); [done|].
  generalize (reap_expired_clients now s). clear s Hwf. intros s Hwf.
  destruct (in_sessions (sm_inner s) !! sid); [|same]. destruct (_ && _); same.
Qed.

Lemma destroy_clientid_step c now s :
  deleg_wf (sm_inner s) -> client_step s (destroy_clientid c now s).2.
Proof.
  intros Hwf. unfold destroy_clientid. apply (after_reap now); [done|].
  generalize (reap_expired_clients now s). clear s Hwf. intros s Hwf.
  destruct (client_has_active_state _ _); [same|].
  pose proof (drop_shrunk (sm_inner s) c Hwf) as Hd.
  destruct (drop_client_state (sm_inner s) c) as [inner removed]. split; [exact Hd|done].
Qed.

Lemma bind_step args conn now s :
  deleg_wf (sm_inner s) -> client_step s (bind_conn_to_session args conn now s).2.
Proof.
  intros Hwf. unfold bind_conn_to_session. apply (after_reap now); [done|].
  generalize (reap_expired_clients now s). clear s Hwf. intros s Hwf.
  destruct (in_sessions (sm_inner s) !! _); [|same].
  destruct (bind_connection_direction _ _ _) as [[] ss]; same.
Qed.

Lemma callback_step c conn s :
  deleg_wf (sm_inner s) -> client_step s (next_callback_target_on c conn s).2.
Proof.
  intros Hwf. unfold next_callback_target_on. destruct (hm_find _ _) as [[sid ss]|]; [|same].
  destruct (ss_backchannel ss); same.
Qed.

Lemma remove_connection_step conn s :
  deleg_wf (sm_inner s) -> client_step s (remove_connection conn s).
Proof. intros Hwf. same. Qed.

Lemma reclaim_step c fs now s :
  deleg_wf (sm_inner s) -> client_step s (reclaim_complete c fs now s).2.
Proof.
  intros Hwf. unfold reclaim_complete. apply (after_reap now); [done|].
  generalize (reap_expired_clients now s). clear s Hwf. intros s Hwf.
  destruct (in_clients (sm_inner s) !! c); [|same]. destruct fs; [same|].
  destruct (cs_reclaim_complete_global _); same.
Qed.

Lemma set_client_id_step args now s :
  deleg_wf (sm_inner s) -> client_step s (set_client_id args now s).2.
Proof.
  intros Hwf. unfold set_client_id. apply (after_reap now); [done|].
  generalize (reap_expired_clients now s). clear s Hwf. intros s Hwf.
  match goal with |- context [drop_clients _ ?l] => set (stale := l) end.
  apply (client_step_trans _ (with_inner (fun i => drop_clients i stale) s)).
  { split; [by apply drops_shrunk|done]. }
  assert (Hw : deleg_wf (sm_inner (with_inner (fun i => drop_clients i stale) s)))
    by apply (drops_shrunk _ _ Hwf).
  revert Hw. generalize (with_inner (fun i => drop_clients i stale) s). intros s1 Hw.
  destruct (hm_find _ _) as [[k cl]|]; [|same]. cbv zeta iota beta.
  destruct (in_clients (sm_inner s1) !! _); same.
Qed.

Lemma set_client_id_confirm_step args now s :
  deleg_wf (sm_inner s) -> client_step s (set_client_id_confirm args now s).2.
Proof.
  intros Hwf. unfold set_client_id_confirm. apply (after_reap now); [done|].
  generalize (reap_expired_clients now s). clear s Hwf. intros s Hwf.
  destruct (in_clients (sm_inner s) !! _) as [cl|]; [|same].
  destruct (cs_v40_confirm cl); [|same]. case_bool_decide; same.
Qed.

Lemma renew_step c now s : deleg_wf (sm_inner s) -> client_step s (renew c now s).2.
Proof.
  intros Hwf. unfold renew. destruct (in_clients (sm_inner s) !! c) as [cl|]; [|same].
  destruct (negb _); [same|]. destruct (cs_lease_state cl); same.
Qed.

Lemma prepare_step args fp conn now s :
  deleg_wf (sm_inner s) -> client_step s (prepare_sequence args fp conn now s).2.
Proof.
  intros Hwf. unfold prepare_sequence. apply (after_reap now); [done|].
  generalize (reap_expired_clients now s). clear s Hwf. intros s Hwf.
  destruct (in_sessions (sm_inner s) !! _) as [ss|]; [|same]. destruct (_ <=? _); [same|].
  destruct (in_clients (sm_inner s) !! _) as [cl|]; [|same].
  destruct (cs_lease_state cl); destruct (bind_forechannel_for_sequence _ _) as [ss'|e]; try same.
  destruct (ss_slots ss' !! _) as [slot|]; [|same].
  destruct (slot_prepare _ _ _) as [[] slot']; same.
Qed.

Lemma finish_step tok r s : deleg_wf (sm_inner s) -> client_step s (finish_sequence tok r s).2.
Proof.
  intros Hwf. unfold finish_sequence. destruct (in_sessions (sm_inner s) !! _) as [ss|]; [|same].
  destruct (ss_slots ss !! _); same.
Qed.
End client_steps.

Lemma client_step_evolves s s' : client_step s s' -> evolves None s s'.
Proof.
  intros (Hs & Hn & Hr). split; [|done|by rewrite Hr].
  intros kd k v Hv. left. by apply (shrunk_entry _ _ _ _ _ Hs).
Qed.

(** ** The other operations *)

Lemma entry_put_open k st s kd k' :
  entry (sm_inner (put_open k st s)) kd k' =
  if bool_decide (kd = KOpen) && bool_decide (k' = k) then Some (os_object st, os_clientid st)
  else entry (sm_inner s) kd k'.
Proof.
  destruct kd; simpl; try done. case_bool_decide as Hk.
  - subst. by rewrite lookup_insert_eq.
  - by rewrite lookup_insert_ne.
Qed.

Lemma entry_put_lock k st s kd k' :
  entry (sm_inner (put_lock k st s)) kd k' =
  if bool_decide (kd = KLock) && bool_decide (k' = k)
  then Some (ls_object st, so_clientid (ls_owner st)) else entry (sm_inner s) kd k'.
Proof.
  destruct kd; simpl; try done. case_bool_decide as Hk.
  - subst. by rewrite lookup_insert_eq.
  - by rewrite lookup_insert_ne.
Qed.

Lemma evolves_same s s' :
  (forall kd k v, entry (sm_inner s') kd k = Some v -> entry (sm_inner s) kd k = Some v) ->
  sm_next_stateid s' = sm_next_stateid s -> sm_retired_objects s ⊆ sm_retired_objects s' ->
  evolves None s s'.
Proof. intros He Hn Hr. split; auto. Qed.

Lemma evolves_refl s : evolves None s s.
Proof. by apply evolves_same. Qed.

(** Replacing an entry in place. *)
Lemma put_open_evolves k st st' s :
  in_open_files (sm_inner s) !! k = Some st -> os_object st' = os_object st ->
  os_clientid st' = os_clientid st -> evolves None s (put_open k st' s).
Proof.
  intros Hk Ho Hc. apply evolves_same; [|done|done]. intros kd k' v. rewrite entry_put_open.
  destruct (bool_decide (kd = KOpen) && bool_decide (k' = k)) eqn:E; [|done].
  bool_to_prop. subst. intros [= <-]. simpl. rewrite Hk. simpl. by rewrite Ho, Hc.
Qed.

Lemma put_lock_evolves k st st' s :
  in_lock_files (sm_inner s) !! k = Some st -> ls_object st' = ls_object st ->
  ls_owner st' = ls_owner st -> evolves None s (put_lock k st' s).
Proof.
  intros Hk Ho Hc. apply evolves_same; [|done|done]. intros kd k' v. rewrite entry_put_lock.
  destruct (bool_decide (kd = KLock) && bool_decide (k' = k)) eqn:E; [|done].
  bool_to_prop. subst. intros [= <-]. simpl. rewrite Hk. simpl. by rewrite Ho, Hc.
Qed.

Lemma put_deleg_evolves k d d' s :
  in_delegations (sm_inner s) !! k = Some d -> ds_object d' = ds_object d ->
  ds_clientid d' = ds_clientid d -> evolves None s (put_delegation k d' s).
Proof.
  intros Hk Ho Hc. apply evolves_same; [|done|done]. intros kd k' v. destruct kd; simpl; try done.
  destruct (decide (k' = k)) as [->|Hne].
  - rewrite lookup_insert_eq, Hk. simpl. by rewrite Ho, Hc.
  - by rewrite lookup_insert_ne.
Qed.

Section other_steps.
Context {ho : HashOrder}.

Lemma open_evolves object owner acc deny s :
  is_u64 (so_clientid owner) ->
  exists mint, evolves mint s (create_open_state_guarded object owner acc deny s).2.
Proof.
  intros Hu. destruct (create_open_state_guarded object owner acc deny s) as [r s'] eqn:E. simpl.
  unfold create_open_state_guarded in E.
  destruct (is_retired s object) eqn:Hr; [injection E as <- <-; exists None; apply evolves_refl|].
  destruct (find_owner_open _ _ _) as [[k st]|] eqn:Ef; cbn [fst fmap option_fmap option_map] in E;
    (destruct (share_conflict _ _ _ _ _); [injection E as <- <-; exists None; apply evolves_refl|]).
  - apply find_owner_open_Some in Ef as (Hk & _). rewrite Hk in E. injection E as <- <-.
    exists None. by apply (put_open_evolves _ st).
  - injection E as <- <-. exists (Some KOpen). split; [|done|done].
    intros kd k v. rewrite entry_put_open.
    destruct (bool_decide (kd = KOpen) && bool_decide _) eqn:Eb; [|by left].
    bool_to_prop. subst. intros [= <-]. right. done.
Qed.

Lemma lock_new_evolves osid owner object t o l s :
  is_u64 (so_clientid owner) ->
  exists mint, evolves mint s (create_lock_state_guarded osid owner object t o l s).2.
Proof.
  intros Hu. unfold create_lock_state_guarded.
  destruct (is_retired s object) eqn:Hr; [exists None; apply evolves_refl|].
  destruct (in_open_files (sm_inner s) !! other osid); [|exists None; apply evolves_refl].
  destruct (_ || _); [exists None; apply evolves_refl|].
  exists (Some KLock). split; [|done|done]. intros kd k v. cbn [snd alloc_stateid].
  rewrite entry_put_lock.
  destruct (bool_decide (kd = KLock) && bool_decide _) eqn:Eb; [|by left].
  bool_to_prop. subst. intros [= <-]. right. done.
Qed.

Lemma mint_delegation_evolves object c sess now s :
  is_u64 c -> is_retired s object = false ->
  evolves (Some KDeleg) s (mint_delegation object c sess now s).2.
Proof.
  intros Hu Hr. split; [|done|done]. intros kd k v. destruct kd; simpl; try (by left).
  destruct (decide (k = stateid_other (sm_next_stateid s) c)) as [->|Hne].
  - rewrite lookup_insert_eq. intros [= <-]. right. done.
  - rewrite lookup_insert_ne by done. by left.
Qed.

Lemma delegate_evolves object c sess now s :
  is_u64 c -> exists mint, evolves mint s (create_directory_delegation_guarded object c sess now s).2.
Proof.
  intros Hu. unfold create_directory_delegation_guarded.
  destruct (is_retired s object) eqn:Hr; [exists None; apply evolves_refl|].
  destruct (find_live_directory_delegation _ _ _).
  { destruct (in_delegations (sm_inner s) !! _); exists None; apply evolves_refl. }
  exists (Some KDeleg). by apply (mint_delegation_evolves object c sess now).
Qed.

Lemma grant_evolves object c sess max_c max_t now s :
  is_u64 c ->
  exists mint, evolves mint s (grant_directory_delegation_guarded object c sess max_c max_t now s).2.
Proof.
  intros Hu. unfold grant_directory_delegation_guarded.
  destruct (is_retired s object) eqn:Hr; [exists None; apply evolves_refl|].
  destruct (find_live_directory_delegation _ _ _); [exists None; apply evolves_refl|].
  destruct (has_recall_in_progress _ _); [exists None; apply evolves_refl|].
  destruct (_ <=? _); [exists None; apply evolves_refl|].
  destruct (_ <=? _); [exists None; apply evolves_refl|].
  exists (Some KDeleg). by apply (mint_delegation_evolves object c sess now).
Qed.

Lemma confirm_evolves sid s : evolves None s (confirm_open_state_guarded sid s).2.
Proof.
  unfold confirm_open_state_guarded.
  destruct (in_open_files (sm_inner s) !! other sid) as [st|] eqn:Hk; [|apply evolves_refl].
  destruct (negb _); [apply evolves_refl|].
  destruct (validate_stateid_seq _ _); [|apply evolves_refl]. by apply (put_open_evolves _ st).
Qed.

Lemma close_evolves sid s : evolves None s (close_state_guarded sid s).2.
Proof.
  unfold close_state_guarded.
  destruct (in_open_files (sm_inner s) !! other sid) as [st|] eqn:Hk; [|apply evolves_refl].
  destruct (validate_stateid_seq _ _); [|apply evolves_refl].
  destruct (negb _); [apply evolves_refl|]. destruct (locks_held _ _); [apply evolves_refl|].
  by apply (put_open_evolves _ st).
Qed.

Lemma downgrade_evolves sid acc deny s : evolves None s (open_downgrade_guarded sid acc deny s).2.
Proof.
  unfold open_downgrade_guarded.
  destruct (in_open_files (sm_inner s) !! other sid) as [st|] eqn:Hk; [|apply evolves_refl].
  destruct (validate_stateid_seq _ _); [|apply evolves_refl].
  destruct (negb _); [apply evolves_refl|]. destruct (_ || _); [apply evolves_refl|].
  by apply (put_open_evolves _ st).
Qed.

Lemma lock_more_evolves sid t o l s r s' :
  update_lock_state_guarded sid t o l s = Some (r, s') -> evolves None s s'.
Proof.
  unfold update_lock_state_guarded.
  destruct (in_lock_files (sm_inner s) !! other sid) as [st|] eqn:Hk;
    [|intros [= <- <-]; apply evolves_refl].
  destruct (validate_stateid_seq _ _); [|intros [= <- <-]; apply evolves_refl].
  destruct (replace_lock_range _ _); [|done]. intros [= <- <-]. by apply (put_lock_evolves _ st).
Qed.

Lemma unlock_evolves sid o l s : evolves None s (unlock_state_guarded sid o l s).2.
Proof.
  unfold unlock_state_guarded.
  destruct (in_lock_files (sm_inner s) !! other sid) as [st|] eqn:Hk; [|apply evolves_refl].
  destruct (validate_stateid_seq _ _); [|apply evolves_refl].
  destruct (negb _); by apply (put_lock_evolves _ st).
Qed.

(** FREE_STATEID and DELEGRETURN remove one entry. *)
Lemma free_shrunk sid s :
  deleg_wf (sm_inner s) -> client_step s (free_stateid_guarded sid s).2.
Proof.
  intros Hwf. assert (Hrefl : client_step s s) by (split; [by apply shrunk_refl|done]).
  unfold free_stateid_guarded. destruct (in_open_files (sm_inner s) !! other sid) eqn:E.
  { destruct (validate_stateid_seq _ _); [|done]. destruct (_ || _); [done|].
    split; [|done]. split; try done. simpl. by intros k v [_ H]%lookup_delete_Some. }
  destruct (in_lock_files (sm_inner s) !! other sid).
  { destruct (validate_stateid_seq _ _); [|done]. destruct (ls_active _); [done|].
    split; [|done]. split; try done. simpl. by intros k v [_ H]%lookup_delete_Some. }
  destruct (in_delegations (sm_inner s) !! other sid); [|done].
  destruct (validate_stateid_seq _ _); [|done].
  assert (Hrm : client_step s (with_inner (fun i => (remove_delegation_locked i (other sid)).1) s)).
  { split; [|done]. destruct (remove_delegation_same (sm_inner s) (other sid)) as (_ & _ & Ho & Hl & _).
    cbn [sm_inner with_inner set_sm_inner]. split.
    - by rewrite <- Ho.
    - by rewrite <- Hl.
    - intros k v. rewrite remove_delegation_table. by intros [_ H]%lookup_delete_Some.
    - by apply remove_delegation_wf. }
  by destruct (ds_status _).
Qed.

Lemma return_evolves sid c s : evolves None s (return_delegation_state_guarded sid c s).2.
Proof.
  unfold return_delegation_state_guarded.
  destruct (in_delegations (sm_inner s) !! other sid) as [d|] eqn:Hk; [|apply evolves_refl].
  destruct (validate_stateid_seq _ _); [|apply evolves_refl].
  destruct (wrong_client _ _); [apply evolves_refl|]. destruct (bool_decide _); [apply evolves_refl|].
  apply evolves_same; [|done|done]. intros kd k v. cbn [snd sm_inner with_inner set_sm_inner].
  set (i := sm_inner (put_delegation (other sid) (set_ds_status Returned d) s)).
  destruct (remove_delegation_same i (other sid)) as (_ & _ & Ho & Hl & _).
  destruct kd; simpl; [by rewrite <- Ho|by rewrite <- Hl|].
  rewrite remove_delegation_table. simpl. rewrite delete_insert_eq.
  destruct (decide (k = other sid)) as [->|Hne]; [by rewrite lookup_delete_eq|].
  by rewrite lookup_delete_ne.
Qed.

Lemma revoke_evolves sid s : evolves None s (revoke_delegation_state_guarded sid s).2.
Proof.
  unfold revoke_delegation_state_guarded.
  destruct (in_delegations (sm_inner s) !! other sid) as [d|] eqn:Hk; [|apply evolves_refl].
  destruct (validate_stateid_seq _ _); [|apply evolves_refl]. by apply (put_deleg_evolves _ d).
Qed.

Lemma revoke_recallable_evolves sid s :
  evolves None s (revoke_recallable_delegation_guarded sid s).2.
Proof.
  unfold revoke_recallable_delegation_guarded.
  destruct (in_delegations (sm_inner s) !! other sid) as [d|] eqn:Hk; [|apply evolves_refl].
  destruct (validate_stateid_seq _ _); [|apply evolves_refl].
  pose proof (put_deleg_evolves (other sid) d (set_ds_status Revoked d) s Hk eq_refl eq_refl) as H.
  cbn [snd]. destruct (in_clients _ !! _); [|done].
  destruct H as [He Hn Hr]. split; [|done|done]. intros kd k v Hv. apply He. by destruct kd.
Qed.

Lemma purge_shrunk c s :
  deleg_wf (sm_inner s) ->
  client_step s (with_inner (fun i => remove_client_delegations_locked i c) s).
Proof.
  intros Hwf. split; [|done].
  destruct (remove_client_delegations_spec (sm_inner s) c Hwf) as ((_ & _ & Ho & Hl & _) & Hw & Hd).
  cbn [sm_inner with_inner set_sm_inner]. split; [by rewrite <- Ho|by rewrite <- Hl| |done].
  intros k v. rewrite Hd. by intros [? _]%lookup_hm_retain_Some.
Qed.

Lemma recall_evolves object excl now s :
  deleg_wf (sm_inner s) -> evolves None s (begin_directory_recall_guarded object excl now s).2.
Proof.
  intros Hwf. destruct (begin_recall_table object excl now s Hwf) as [Ht _].
  apply evolves_same.
  - intros kd k v. cbv zeta in Ht. rewrite Ht. destruct kd; simpl; try done.
    rewrite lookup_fmap. destruct (in_delegations (sm_inner s) !! k) as [d|]; [|done]. simpl.
    case_bool_decide; [|done]. destruct (recalled_frame now excl d) as (-> & -> & _). done.
  - unfold begin_directory_recall_guarded. by destruct (foldl _ _ _).
  - unfold begin_directory_recall_guarded. by destruct (foldl _ _ _).
Qed.

Lemma sweep_filehandles_frame ids s :
  sm_inner (sweep_filehandles ids s) = sm_inner s /\
  sm_next_stateid (sweep_filehandles ids s) = sm_next_stateid s /\
  sm_retired_objects (sweep_filehandles ids s) = sm_retired_objects s /\
  sm_next_clientid (sweep_filehandles ids s) = sm_next_clientid s.
Proof.
  unfold sweep_filehandles. cbv zeta.
  destruct (foldl_remove_mapping (stale_mappings ids s) s) as (_ & _ & ->). done.
Qed.

Lemma sweep_state_shrunk ids i : deleg_wf i -> shrunk i (sweep_state ids i).1.
Proof.
  intros Hwf. destruct (sweep_state_spec ids i) as (_ & _ & Ho & Hl & Hd & _).
  split; [intros k v|intros k v|intros k v|by apply sweep_deleg_wf];
    rewrite ?Ho, ?Hl, ?Hd; by intros [? _]%lookup_hm_retain_Some.
Qed.
End other_steps.

(** Operations that leave the lock-protected client state alone. *)
Lemma object_to_fh_frame object s :
  sm_inner (object_to_fh object s).2 = sm_inner s /\
  sm_next_stateid (object_to_fh object s).2 = sm_next_stateid s /\
  sm_retired_objects (object_to_fh object s).2 = sm_retired_objects s /\
  sm_next_clientid (object_to_fh object s).2 = sm_next_clientid s.
Proof.
  assert (Hc : forall fh s', claim_persistent_fh object s = (fh, s') ->
    sm_inner s' = sm_inner s /\ sm_next_stateid s' = sm_next_stateid s /\
    sm_retired_objects s' = sm_retired_objects s /\ sm_next_clientid s' = sm_next_clientid s).
  { intros fh s'. unfold claim_persistent_fh. destruct object; try (by intros [= <- <-]).
    destruct (sm_persistent_fh s !! id) as [pfh|]; [|by intros [= <- <-]].
    destruct (sm_fh_to_object s !! pfh); by intros [= <- <-]. }
  unfold object_to_fh, mint_fh. destruct (sm_object_to_fh s !! object); [done|].
  destruct (is_retired s object); [done|].
  destruct (claim_persistent_fh object s) as [[fh|] s1]; destruct (Hc _ _ eq_refl) as (? & ? & ? & ?);
    simpl.
  - destruct (sm_object_to_fh s1 !! object); simpl; [by case_match|by case_match].
  - destruct (sm_object_to_fh s1 !! object); simpl; [by case_match|by case_match].
Qed.

(** Only synthetic metadata, counters of its own and lock-free tables changed. *)
Definition meta_frame (s s' : StateManager) : Prop :=
  (exists m, sm_inner s' = set_in_metadata m (sm_inner s)) /\
  sm_next_stateid s' = sm_next_stateid s /\ sm_retired_objects s' = sm_retired_objects s /\
  sm_next_clientid s' = sm_next_clientid s.

Lemma meta_frame_trans s1 s2 s3 : meta_frame s1 s2 -> meta_frame s2 s3 -> meta_frame s1 s3.
Proof.
  intros [[m Hm] (H1 & H2 & H3)] [[m' Hm'] (H1' & H2' & H3')]. split_and!; try congruence.
  exists m'. rewrite Hm', Hm. done.
Qed.

Lemma frame_meta s s' :
  sm_inner s' = sm_inner s /\ sm_next_stateid s' = sm_next_stateid s /\
  sm_retired_objects s' = sm_retired_objects s /\ sm_next_clientid s' = sm_next_clientid s ->
  meta_frame s s'.
Proof.
  intros (Hi & H1 & H2 & H3). split; [|done]. exists (in_metadata (sm_inner s)). rewrite Hi.
  by destruct (sm_inner s).
Qed.

Lemma put_meta_frame o m s : meta_frame s (put_meta o m s).
Proof. split; [|done]. by eexists. Qed.

Lemma ensure_meta_frame o ft clock s : meta_frame s (ensure_meta o ft clock s).2.
Proof.
  unfold ensure_meta, ensure_meta_locked. destruct (in_metadata (sm_inner s) !! o).
  { by apply frame_meta. }
  destruct clock as [a b]. destruct o; simpl; (split; [by eexists|done]).
Qed.

Lemma changeid_frame s : meta_frame s (alloc_changeid s).2.
Proof. by apply frame_meta. Qed.

(** The shape of every metadata mutation: ensure, maybe draw a change id, put. *)
Lemma meta_op_frame o ft clock s (k : SynthMeta -> StateManager -> StateManager) :
  (forall m s1, meta_frame s1 (k m s1)) ->
  meta_frame s (let '(m, s1) := ensure_meta_locked o ft clock s in k m s1).
Proof.
  intros Hk. pose proof (ensure_meta_frame o ft clock s) as He. unfold ensure_meta in He.
  destruct (ensure_meta_locked o ft clock s) as [m s1]. by eapply meta_frame_trans.
Qed.

Lemma bump_put_frame o s (m : Z -> SynthMeta) :
  meta_frame s (let '(c, s1) := alloc_changeid s in put_meta o (m c) s1).
Proof. split; [|done]. by eexists. Qed.

Lemma touch_data_frame o ft c c' s : meta_frame s (touch_data o ft c c' s).
Proof.
  unfold touch_data. destruct c' as [a b].
  apply (meta_op_frame o ft c s (fun m s1 => let '(ch, s2) := alloc_changeid s1 in
    put_meta o (set_me_change_id ch (set_me_ctime_nsec b (set_me_ctime_sec a
      (set_me_mtime_nsec b (set_me_mtime_sec a m))))) s2)).
  intros m s1. apply bump_put_frame.
Qed.

Lemma touch_metadata_frame o ft c c' s : meta_frame s (touch_metadata o ft c c' s).
Proof.
  unfold touch_metadata. destruct c' as [a b].
  apply (meta_op_frame o ft c s (fun m s1 => let '(ch, s2) := alloc_changeid s1 in
    put_meta o (set_me_change_id ch (set_me_mtime_nsec b (set_me_mtime_sec a
      (set_me_ctime_nsec b (set_me_ctime_sec a m))))) s2)).
  intros m s1. apply bump_put_frame.
Qed.

Lemma named_attr_count_frame o ft n c s : meta_frame s (set_named_attr_count o ft n c s).
Proof.
  unfold set_named_attr_count. apply (meta_op_frame o ft c s (fun m s1 =>
    put_meta o (set_me_named_attr_count (Some n) m) s1)).
  intros m s1. apply put_meta_frame.
Qed.

Lemma setattr_frame o ft attrs c c' s : meta_frame s (apply_setattr o ft attrs c c' s).
Proof.
  unfold apply_setattr. pose proof (ensure_meta_frame o ft c s) as He. unfold ensure_meta in He.
  destruct (ensure_meta_locked o ft c s) as [m s1]. eapply meta_frame_trans; [exact He|].
  cbv zeta. destruct (negb (SetAttrs_is_empty attrs)); [|apply put_meta_frame].
  match goal with |- context [set_me_change_id _ ?m'] => apply (bump_put_frame o s1 (fun ch => set_me_change_id ch m')) end.
Qed.

Lemma meta_frame_client_step s s' :
  deleg_wf (sm_inner s) -> meta_frame s s' -> client_step s s'.
Proof.
  intros Hwf [[m Hm] (Hn & Hr & _)]. apply client_step_same; try done; by rewrite Hm.
Qed.

(** ** Every step evolves the tables *)

(** The steps that can only take entries away. *)
Ltac removing_step :=
  first
  [ by apply reap_client_step | by apply exchange_id_client_step | by apply create_session_step
  | by apply destroy_session_step | by apply destroy_clientid_step | by apply bind_step
  | by apply callback_step | by apply remove_connection_step | by apply reclaim_step
  | by apply set_client_id_step | by apply set_client_id_confirm_step | by apply renew_step
  | by apply prepare_step | by apply finish_step | by apply free_shrunk | by apply purge_shrunk
  | apply meta_frame_client_step; [done|]; first
      [ apply ensure_meta_frame | apply touch_data_frame | apply touch_metadata_frame
      | apply named_attr_count_frame | apply setattr_frame
      | apply frame_meta; first [apply object_to_fh_frame | apply sweep_filehandles_frame | done] ]
  | split; [by apply sweep_state_shrunk|done] ].

Lemma step_evolves s s' : deleg_wf (sm_inner s) -> step s s' -> exists mint, evolves mint s s'.
Proof.
  intros Hwf Hs. destruct Hs;
    first
    [ exists None; apply client_step_evolves; removing_step
    | by apply open_evolves | by apply lock_new_evolves | by apply delegate_evolves
    | by apply grant_evolves
    | exists None; first
        [ apply confirm_evolves | apply close_evolves | apply downgrade_evolves
        | by eapply lock_more_evolves | apply unlock_evolves | apply return_evolves
        | apply revoke_evolves | apply revoke_recallable_evolves | by apply recall_evolves
        | apply evolves_same; [done|done|simpl; set_solver] ] ].
Qed.

(** ** The invariant *)

(** What the tables hold, beyond their keys. *)
Record content (i : StateInner) : Prop := {
  content_deleg : deleg_wf i;
  content_unique : deleg_unique (in_delegations i);
  content_shares : shares_wf (in_open_files i);
  content_locks : locks_wf (in_lock_files i);
}.

Record inv (n : nat) (s : StateManager) : Prop := {
  inv_content : content (sm_inner s);
  inv_next : 1 <= sm_next_stateid s <= 1 + Z.of_nat n;
  inv_keys : forall kd k v, entry (sm_inner s) kd k = Some v ->
    exists seq, 1 <= seq < sm_next_stateid s /\ is_u64 v.2 /\ k = stateid_other seq v.2;
  inv_disjoint : forall kd kd' k v v', entry (sm_inner s) kd k = Some v ->
    entry (sm_inner s) kd' k = Some v' -> kd = kd';
}.

Lemma content_shrunk i j : shrunk i j -> content i -> content j.
Proof.
  intros [Ho Hl Hd Hw] [_ Hu Hs Hk]. split; [done|..].
  - by apply (deleg_unique_sub (in_delegations i)).
  - by apply (shares_wf_sub (in_open_files i)).
  - by apply (locks_wf_sub (in_lock_files i)).
Qed.

Lemma content_by_table i j :
  content i ->
  (in_open_files j = in_open_files i \/ shares_wf (in_open_files j)) ->
  (in_lock_files j = in_lock_files i \/ locks_wf (in_lock_files j)) ->
  ((in_delegations j = in_delegations i /\ in_dir_delegations j = in_dir_delegations i /\
    in_client_delegations j = in_client_delegations i) \/
   (deleg_wf j /\ deleg_unique (in_delegations j))) ->
  content j.
Proof.
  intros [H1 H2 H3 H4] Ho Hl Hd. split.
  - destruct Hd as [(E1 & E2 & E3)|[Hd _]]; [|done]. unfold deleg_wf. by rewrite E1, E2, E3.
  - destruct Hd as [(E1 & _)|[_ Hd]]; [by rewrite E1|done].
  - destruct Ho as [->|Ho]; done.
  - destruct Hl as [->|Hl]; done.
Qed.

(** Reading off the tables a section does not assign. *)
Tactic Notation "frame_of" reference(op) :=
  unfold op; try unfold mint_delegation; try unfold alloc_stateid;
  cbv zeta iota beta; repeat (case_match; simplify_eq); done.

Section content_steps.
Context {ho : HashOrder}.
Implicit Types (s : StateManager).

Lemma open_content object owner acc deny s :
  1 <= acc <= 3 -> mode_ok deny -> content (sm_inner s) ->
  content (sm_inner (create_open_state_guarded object owner acc deny s).2).
Proof.
  intros Ha Hd Hc. pose proof (create_open_shares object owner acc deny s Ha Hd
    (content_shares _ Hc)) as Hs.
  destruct (create_open_state_guarded object owner acc deny s) as [r s'] eqn:E.
  apply create_open_guarded_outcome in E. cbv zeta in E. simpl in *.
  destruct r as [sid|e].
  - destruct E as (_ & st' & Hi & _). rewrite Hi in *.
    apply (content_by_table (sm_inner s)); auto.
  - assert (s' = s) as -> by (by destruct e; try done; destruct E). done.
Qed.

Lemma confirm_content sid s :
  content (sm_inner s) -> content (sm_inner (confirm_open_state_guarded sid s).2).
Proof.
  intros Hc. apply (content_by_table (sm_inner s)); [done|right|left|left].
  - by apply confirm_open_shares, Hc.
  - frame_of confirm_open_state_guarded.
  - split_and!; frame_of confirm_open_state_guarded.
Qed.

Lemma close_content sid s :
  content (sm_inner s) -> content (sm_inner (close_state_guarded sid s).2).
Proof.
  intros Hc. apply (content_by_table (sm_inner s)); [done|right|left|left].
  - by apply close_shares, Hc.
  - frame_of close_state_guarded.
  - split_and!; frame_of close_state_guarded.
Qed.

Lemma downgrade_content sid acc deny s :
  1 <= acc <= 3 -> mode_ok deny -> content (sm_inner s) ->
  content (sm_inner (open_downgrade_guarded sid acc deny s).2).
Proof.
  intros Ha Hd Hc. apply (content_by_table (sm_inner s)); [done|right|left|left].
  - by apply downgrade_shares, Hc.
  - frame_of open_downgrade_guarded.
  - split_and!; frame_of open_downgrade_guarded.
Qed.

Lemma lock_new_content osid owner object t o l s :
  range_ok (mkLockRange t o l) -> content (sm_inner s) ->
  content (sm_inner (create_lock_state_guarded osid owner object t o l s).2).
Proof.
  intros Hr Hc. apply (content_by_table (sm_inner s)); [done|left|right|left].
  - frame_of create_lock_state_guarded.
  - by apply create_lock_wf, Hc.
  - split_and!; frame_of create_lock_state_guarded.
Qed.

Lemma lock_more_content sid t o l s r s' :
  range_ok (mkLockRange t o l) -> update_lock_state_guarded sid t o l s = Some (r, s') ->
  content (sm_inner s) -> content (sm_inner s').
Proof.
  intros Hr Hu Hc.
  assert (Hf : in_open_files (sm_inner s') = in_open_files (sm_inner s) /\
    in_delegations (sm_inner s') = in_delegations (sm_inner s) /\
    in_dir_delegations (sm_inner s') = in_dir_delegations (sm_inner s) /\
    in_client_delegations (sm_inner s') = in_client_delegations (sm_inner s)).
  { revert Hu. unfold update_lock_state_guarded. repeat case_match; intros; simplify_eq; done. }
  apply (content_by_table (sm_inner s)); [done|left; apply Hf|right|left; apply Hf].
  apply (update_lock_wf _ _ _ _ _ _ _ Hr (content_locks _ Hc) Hu).
Qed.

Lemma unlock_content sid o l s :
  range_ok (mkLockRange ReadLt o l) -> content (sm_inner s) ->
  content (sm_inner (unlock_state_guarded sid o l s).2).
Proof.
  intros Hr Hc. apply (content_by_table (sm_inner s)); [done|left|right|left].
  - frame_of unlock_state_guarded.
  - by apply unlock_wf, Hc.
  - split_and!; frame_of unlock_state_guarded.
Qed.

(** The sections on the delegation tables keep opens and locks. *)
Lemma deleg_content s s' :
  content (sm_inner s) ->
  in_open_files (sm_inner s') = in_open_files (sm_inner s) ->
  in_lock_files (sm_inner s') = in_lock_files (sm_inner s) ->
  deleg_wf (sm_inner s') /\ deleg_unique (in_delegations (sm_inner s')) ->
  content (sm_inner s').
Proof. intros Hc Ho Hl Hd. apply (content_by_table (sm_inner s)); auto. Qed.

Lemma delegate_content object c sess now s :
  stateid_fresh s c -> content (sm_inner s) ->
  content (sm_inner (create_directory_delegation_guarded object c sess now s).2).
Proof.
  intros Hf Hc. apply (deleg_content s); [done|..|apply create_deleg_wf; [done|apply Hc|apply Hc]];
    frame_of create_directory_delegation_guarded.
Qed.

Lemma grant_content object c sess max_c max_t now s :
  stateid_fresh s c -> content (sm_inner s) ->
  content (sm_inner (grant_directory_delegation_guarded object c sess max_c max_t now s).2).
Proof.
  intros Hf Hc. apply (deleg_content s); [done|..|apply grant_wf; [done|apply Hc|apply Hc]];
    frame_of grant_directory_delegation_guarded.
Qed.

Lemma return_frame sid c s :
  in_open_files (sm_inner (return_delegation_state_guarded sid c s).2) = in_open_files (sm_inner s) /\
  in_lock_files (sm_inner (return_delegation_state_guarded sid c s).2) = in_lock_files (sm_inner s).
Proof.
  unfold return_delegation_state_guarded.
  destruct (in_delegations (sm_inner s) !! other sid) as [d|]; [|done].
  destruct (validate_stateid_seq _ _); [|done]. destruct (wrong_client _ _); [done|].
  destruct (bool_decide _); [done|]. cbn [snd sm_inner with_inner set_sm_inner].
  match goal with |- context [remove_delegation_locked ?i ?k] =>
    destruct (remove_delegation_same i k) as (_ & _ & <- & <- & _) end. done.
Qed.

Lemma return_content sid c s :
  content (sm_inner s) -> content (sm_inner (return_delegation_state_guarded sid c s).2).
Proof.
  intros Hc. apply (deleg_content s); [done|apply return_frame|apply return_frame|].
  apply return_deleg_wf; apply Hc.
Qed.

Lemma revoke_content sid s :
  content (sm_inner s) -> content (sm_inner (revoke_delegation_state_guarded sid s).2).
Proof.
  intros Hc. apply (deleg_content s); [done|..|apply revoke_deleg_wf; apply Hc];
    frame_of revoke_delegation_state_guarded.
Qed.

Lemma revoke_recallable_content sid s :
  content (sm_inner s) -> content (sm_inner (revoke_recallable_delegation_guarded sid s).2).
Proof.
  intros Hc. apply (deleg_content s); [done|..|apply revoke_recallable_wf; apply Hc];
    frame_of revoke_recallable_delegation_guarded.
Qed.

Lemma recall_content object excl now s :
  content (sm_inner s) -> content (sm_inner (begin_directory_recall_guarded object excl now s).2).
Proof.
  intros Hc. apply (deleg_content s); [done|..|apply recall_wf; apply Hc];
    unfold begin_directory_recall_guarded; by destruct (foldl _ _ _).
Qed.
End content_steps.

Lemma inv_fresh n s kd c :
  inv n s -> Z.of_nat n < 4294967295 -> is_u64 c ->
  entry (sm_inner s) kd (stateid_other (sm_next_stateid s) c) = None.
Proof.
  intros Hi Hn Hc. destruct (entry _ kd _) as [v|] eqn:E; [|done]. exfalso.
  destruct (inv_keys _ _ Hi _ _ _ E) as (seq & Hs & Hv & Heq).
  pose proof (inv_next _ _ Hi).
  apply stateid_other_inj in Heq as [He _]; try done; unfold is_u32 in *; lia.
Qed.

Lemma inv_stateid_fresh n s c :
  inv n s -> Z.of_nat n < 4294967295 -> is_u64 c -> stateid_fresh s c.
Proof.
  intros Hi Hn Hc. pose proof (inv_fresh n s KDeleg c Hi Hn Hc) as H. simpl in H.
  unfold stateid_fresh. by destruct (in_delegations _ !! _).
Qed.

Lemma step_content n s s' :
  inv n s -> Z.of_nat n < 4294967295 -> step s s' -> content (sm_inner s').
Proof.
  intros Hi Hn Hs. pose proof (inv_content _ _ Hi) as Hc. pose proof (content_deleg _ Hc) as Hwf.
  destruct Hs;
    first
    [ eapply (content_shrunk (sm_inner s)); [|done];
      match goal with |- shrunk _ (sm_inner ?s') => enough (client_step s s') as [Hcs _] by exact Hcs end;
      removing_step
    | by apply open_content | by apply confirm_content | by apply close_content
    | by apply downgrade_content | by apply lock_new_content | by eapply lock_more_content
    | by apply unlock_content
    | apply delegate_content; [by apply (inv_stateid_fresh n)|done]
    | apply grant_content; [by apply (inv_stateid_fresh n)|done]
    | by apply return_content | by apply revoke_content | by apply revoke_recallable_content
    | by apply recall_content | done ].
Qed.

Lemma inv_step n s s' :
  inv n s -> Z.of_nat n < 4294967294 -> step s s' -> inv (S n) s'.
Proof.
  intros Hi Hn Hs. pose proof (content_deleg _ (inv_content _ _ Hi)) as Hwf.
  destruct (step_evolves s s' Hwf Hs) as [mint [He Hnx Hr]].
  pose proof (inv_next _ _ Hi) as Hb. assert (Hn' : Z.of_nat n < 4294967295) by lia.
  assert (Hnext : sm_next_stateid s <= sm_next_stateid s' <= sm_next_stateid s + 1 /\
    (mint <> None -> sm_next_stateid s' = sm_next_stateid s + 1)).
  { rewrite Hnx. destruct mint; [|split; [lia|done]]. rewrite u32_wrap_small by (unfold is_u32; lia). lia. }
  split.
  - apply (step_content n s); [done|lia|done].
  - lia.
  - intros kd k v Hv. destruct (He _ _ _ Hv) as [Hold|(-> & -> & Hu & _)].
    + destruct (inv_keys _ _ Hi _ _ _ Hold) as (seq & Hq & Hu & ->). exists seq. split; [lia|done].
    + exists (sm_next_stateid s). destruct Hnext as [_ ->]; [|done]. split; [lia|done].
  - intros kd kd' k v v' Hv Hv'.
    destruct (He _ _ _ Hv) as [Hold|(Hm & Hk & Hu & _)], (He _ _ _ Hv') as [Hold'|(Hm' & Hk' & Hu' & _)].
    + by apply (inv_disjoint _ _ Hi _ _ k v v').
    + subst k. rewrite (inv_fresh n s kd _ Hi Hn' Hu') in Hold. discriminate Hold.
    + subst k. rewrite (inv_fresh n s kd' _ Hi Hn' Hu) in Hold'. discriminate Hold'.
    + congruence.
Qed.

Lemma inv_boot cfg rng secs nanos : inv 0 (with_config cfg rng secs nanos).
Proof.
  split; simpl.
  - split; simpl; [by apply deleg_wf_empty|..|apply locks_wf_empty].
    + intros k1 k2 d1 d2. by rewrite lookup_empty.
    + split; intros *; by rewrite lookup_empty.
  - lia.
  - intros kd k v. destruct kd; simpl; by rewrite lookup_empty.
  - intros kd kd' k v v'. destruct kd; simpl; by rewrite lookup_empty.
Qed.

Lemma inv_steps n m s s' :
  inv m s -> Z.of_nat (m + n) < 4294967295 -> steps n s s' -> inv (m + n) s'.
Proof.
  intros Hi Hn Hs. induction Hs as [|n s1 s2 s3 Hs IH Hst]; [by rewrite Nat.add_0_r|].
  rewrite Nat.add_succ_r in *. apply (inv_step (m + n) s2); [|lia|done]. apply IH; [done|lia].
Qed.

(** ** Theorems about every reachable state *)

(** A state the server can be in after [n] critical sections since boot. *)
Definition reachable (n : nat) (s : StateManager) : Prop :=
  exists cfg rng secs nanos, steps n (with_config cfg rng secs nanos) s.

Lemma reachable_inv n s : reachable n s -> Z.of_nat n < 4294967295 -> inv n s.
Proof.
  intros (cfg & rng & secs & nanos & Hs) Hn.
  apply (inv_steps n 0 _ _ (inv_boot cfg rng secs nanos)); [simpl; lia|done].
Qed.

(** ** Delegation stateids keep their first sequence number *)

Definition deleg_first (i : StateInner) : Prop :=
  forall k d, in_delegations i !! k = Some d -> ds_stateid_seq d = 1.

Lemma deleg_first_put i j k d :
  in_delegations j = <[k := d]> (in_delegations i) -> ds_stateid_seq d = 1 ->
  deleg_first i -> deleg_first j.
Proof.
  intros Hj Hd Hi k' d'. rewrite Hj. intros [[_ <-]|[_ H]]%lookup_insert_Some; [done|]. by eapply Hi.
Qed.

Lemma deleg_first_same i j :
  in_delegations j = in_delegations i -> deleg_first i -> deleg_first j.
Proof. unfold deleg_first. by intros ->. Qed.

Lemma deleg_first_shrunk i j : shrunk i j -> deleg_first i -> deleg_first j.
Proof. intros [_ _ Hd _] Hi k d Hk. by eapply Hi, Hd. Qed.

Section first_steps.
Context {ho : HashOrder}.

Lemma delegate_first object c sess now s :
  deleg_first (sm_inner s) ->
  deleg_first (sm_inner (create_directory_delegation_guarded object c sess now s).2).
Proof.
  intros Hf. unfold create_directory_delegation_guarded. destruct (is_retired s object); [done|].
  destruct (find_live_directory_delegation _ _ _); [by destruct (in_delegations (sm_inner s) !! _)|].
  by eapply deleg_first_put.
Qed.

Lemma grant_first object c sess max_c max_t now s :
  deleg_first (sm_inner s) ->
  deleg_first (sm_inner (grant_directory_delegation_guarded object c sess max_c max_t now s).2).
Proof.
  intros Hf. unfold grant_directory_delegation_guarded. destruct (is_retired s object); [done|].
  destruct (find_live_directory_delegation _ _ _); [done|]. destruct (has_recall_in_progress _ _); [done|].
  destruct (_ <=? _); [done|]. destruct (_ <=? _); [done|]. by eapply deleg_first_put.
Qed.

Lemma revoke_first sid s :
  deleg_first (sm_inner s) ->
  deleg_first (sm_inner (revoke_delegation_state_guarded sid s).2) /\
  deleg_first (sm_inner (revoke_recallable_delegation_guarded sid s).2).
Proof.
  intros Hf. unfold revoke_delegation_state_guarded, revoke_recallable_delegation_guarded.
  destruct (in_delegations (sm_inner s) !! other sid) as [d|] eqn:Hk; [|done].
  destruct (validate_stateid_seq _ _); [|done].
  split; [|destruct (in_clients _ !! ds_clientid d)];
    (eapply (deleg_first_put _ _ (other sid) (set_ds_status Revoked d)); [done|by apply (Hf _ _ Hk)|exact Hf]).
Qed.

Lemma return_first sid c s :
  deleg_first (sm_inner s) -> deleg_first (sm_inner (return_delegation_state_guarded sid c s).2).
Proof.
  intros Hf. unfold return_delegation_state_guarded.
  destruct (in_delegations (sm_inner s) !! other sid) as [d|] eqn:Hk; [|done].
  destruct (validate_stateid_seq _ _); [|done]. destruct (wrong_client _ _); [done|].
  destruct (bool_decide _); [done|]. intros k d'. cbn [snd sm_inner with_inner set_sm_inner].
  rewrite remove_delegation_table. simpl. rewrite delete_insert_eq.
  intros [_ H]%lookup_delete_Some. by eapply Hf.
Qed.

Lemma recall_first object excl now s :
  deleg_wf (sm_inner s) -> deleg_first (sm_inner s) ->
  deleg_first (sm_inner (begin_directory_recall_guarded object excl now s).2).
Proof.
  intros Hwf Hf. destruct (begin_recall_table object excl now s Hwf) as [-> _].
  intros k d. simpl. rewrite lookup_fmap. intros (d0 & Hk & ->)%fmap_Some.
  destruct (recalled_frame now excl d0) as (_ & _ & Hs & _).
  case_bool_decide; rewrite ?Hs; by eapply Hf.
Qed.
End first_steps.

Lemma step_first s s' :
  deleg_wf (sm_inner s) -> step s s' -> deleg_first (sm_inner s) -> deleg_first (sm_inner s').
Proof.
  intros Hwf Hs Hf. destruct Hs;
    first
    [ eapply (deleg_first_shrunk (sm_inner s)); [|done];
      match goal with |- shrunk _ (sm_inner ?s') => enough (client_step s s') as [Hcs _] by exact Hcs end;
      removing_step
    | by apply delegate_first | by apply grant_first | by apply return_first
    | by apply revoke_first | by apply recall_first
    | revert Hf; apply deleg_first_same;
      first [frame_of create_open_state_guarded | frame_of confirm_open_state_guarded
            | frame_of close_state_guarded | frame_of open_downgrade_guarded
            | frame_of create_lock_state_guarded | frame_of unlock_state_guarded
            | unfold update_lock_state_guarded in *; repeat (case_match; simplify_eq); done | done] ].
Qed.

Lemma reachable_first n s : reachable n s -> Z.of_nat n < 4294967295 -> deleg_first (sm_inner s).
Proof.
  intros (cfg & rng & secs & nanos & Hs) Hn. pose proof (inv_boot cfg rng secs nanos) as Hi.
  assert (Hf : deleg_first (sm_inner (with_config cfg rng secs nanos))) by (intros k d; simpl; by rewrite lookup_empty).
  revert Hi Hf Hn. induction Hs as [|n s1 s2 s3 Hs IH Hst]; intros Hi Hf Hn; [done|].
  apply (step_first s2); [|done|apply IH; [done|done|lia]].
  apply content_deleg, (inv_content (0 + n)), (inv_steps n 0 s1 s2 Hi); [lia|done].
Qed.

(** C2. Share reservations hold in every reachable state, however requests
    interleave: no live open denies an access that another live open of the
    same object has, and an owner has at most one live open of an object. *)
Theorem share_reservations_hold n s k1 k2 st1 st2 :
  reachable n s -> Z.of_nat n < 4294967295 ->
  in_open_files (sm_inner s) !! k1 = Some st1 -> in_open_files (sm_inner s) !! k2 = Some st2 ->
  os_active st1 = true -> os_active st2 = true -> os_object st1 = os_object st2 -> k1 <> k2 ->
  Z.land (os_share_deny st1) (os_share_access st2) = 0 /\
  (os_clientid st1 = os_clientid st2 -> os_owner st1 <> os_owner st2).
Proof.
  intros Hr Hn H1 H2 A1 A2 Ho Hne. pose proof (reachable_inv n s Hr Hn) as Hi.
  destruct (content_shares _ (inv_content _ _ Hi)) as [_ Hu He]. split.
  - by apply (He k1 k2).
  - intros Hc Hw. apply Hne. by apply (Hu k1 k2 st1 st2).
Qed.

(** C3. A stateid means one thing in every reachable state: it names an open, a
    lock state or a delegation but never two of them, it carries the client id
    of the state it names, and the next stateid to be minted for any client
    names nothing yet. *)
Theorem stateids_unambiguous n s :
  reachable n s -> Z.of_nat n < 4294967295 ->
  (forall kd kd' k v v', entry (sm_inner s) kd k = Some v -> entry (sm_inner s) kd' k = Some v' ->
     kd = kd') /\
  (forall kd k v, entry (sm_inner s) kd k = Some v ->
     exists seq, is_u32 seq /\ k = stateid_other seq v.2) /\
  (forall kd c, is_u64 c -> entry (sm_inner s) kd (stateid_other (sm_next_stateid s) c) = None).
Proof.
  intros Hr Hn. pose proof (reachable_inv n s Hr Hn) as Hi. split_and!.
  - apply (inv_disjoint _ _ Hi).
  - intros kd k v Hv. destruct (inv_keys _ _ Hi _ _ _ Hv) as (seq & Hs & _ & ->).
    pose proof (inv_next _ _ Hi). exists seq. split; [unfold is_u32; lia|done].
  - intros kd c Hc. by apply (inv_fresh n).
Qed.

(** C4. Lock state is sound in every reachable state: within one lock state no
    byte below the last one, 2^64-1, is held with two types, a live lock state
    holds at least one range, and extending a lock never panics on the stored
    ranges.  The byte 2^64-1 is left out because it can be held with two types
    ([Locks.last_byte_two_types]). *)
Theorem lock_states_sound n s k st :
  reachable n s -> Z.of_nat n < 4294967295 -> in_lock_files (sm_inner s) !! k = Some st ->
  (forall p t t', lockable p -> held (ls_ranges st) p t -> held (ls_ranges st) p t' -> t = t') /\
  (ls_active st = true -> ls_ranges st <> []) /\
  (forall t o l, range_ok (mkLockRange t o l) ->
     exists out, replace_lock_range (ls_ranges st) (mkLockRange t o l) = Some out).
Proof.
  intros Hr Hn Hk. pose proof (reachable_inv n s Hr Hn) as Hi.
  destruct (content_locks _ (inv_content _ _ Hi) _ _ Hk) as [[Hok Hf] Ha].
  split_and!; [done|done|]. intros t o l Ht.
  destruct (replace_lock_range_spec _ _ Hok Ht) as (out & Ho & _). eauto.
Qed.

(** C5. The delegation indexes are exact in every reachable state: a stateid is
    listed under a directory (a client) exactly when the table has a delegation
    of it over that directory (to that client); and a client has at most one
    live delegation per directory. *)
Theorem delegation_indexes_exact n s :
  reachable n s -> Z.of_nat n < 4294967295 ->
  let i := sm_inner s in
  (forall o k, (exists X, in_dir_delegations i !! o = Some X /\ k ∈ X) <->
     exists d, in_delegations i !! k = Some d /\ ds_object d = o) /\
  (forall c k, (exists X, in_client_delegations i !! c = Some X /\ k ∈ X) <->
     exists d, in_delegations i !! k = Some d /\ ds_clientid d = c) /\
  deleg_unique (in_delegations i).
Proof.
  intros Hr Hn. pose proof (reachable_inv n s Hr Hn) as Hi.
  destruct (inv_content _ _ Hi) as [[[S1 C1] [S2 C2]] Hu _ _]. cbv zeta. split_and!; [..|done].
  - intros o k. split; [intros (X & HX & Hk); by apply (S1 _ X)|].
    intros (d & Hd & <-). by apply C1.
  - intros c k. split; [intros (X & HX & Hk); by apply (S2 _ X)|].
    intros (d & Hd & <-). by apply C2.
Qed.

(** The ids are marked, and no open, lock or delegation belongs to them. *)
Definition clean (ids : gset Z) (s : StateManager) : Prop :=
  ids ⊆ sm_retired_objects s /\
  forall kd k v, entry (sm_inner s) kd k = Some v -> object_root v.1 ∉ ids.

Lemma clean_step ids s s' : deleg_wf (sm_inner s) -> clean ids s -> step s s' -> clean ids s'.
Proof.
  intros Hwf [Hr Hc] Hs. destruct (step_evolves s s' Hwf Hs) as [mint [He _ Hr']].
  split; [set_solver|]. intros kd k v Hv.
  destruct (He _ _ _ Hv) as [Hold|(_ & _ & _ & Hret)]; [by apply (Hc kd k)|].
  unfold is_retired in Hret. bool_to_prop. set_solver.
Qed.

Lemma clean_steps ids m n s s' :
  inv m s -> Z.of_nat (m + n) < 4294967295 -> clean ids s -> steps n s s' -> clean ids s'.
Proof.
  intros Hi Hb Hc Hs. induction Hs as [|n s1 s2 s3 Hs IH Hst]; [done|].
  assert (Hb' : Z.of_nat (m + n) < 4294967295) by lia.
  apply (clean_step ids s2); [|by apply IH|done].
  apply (content_deleg _ (inv_content _ _ (inv_steps n m s1 s2 Hi Hb' Hs))).
Qed.

(** C10. Retirement is permanent: once objects are marked retired, then swept,
    no open, lock state or delegation of any of them (or of a named attribute
    of one) exists after any later sequence of critical sections of any
    requests, including requests that had already passed their own checks when
    the retirement began. *)
Theorem retirement_permanent {ho : HashOrder} ids m n s s' :
  reachable m s -> Z.of_nat (S m + n) < 4294967295 -> ids ⊆ sm_retired_objects s ->
  steps n (set_sm_inner (sweep_state ids (sm_inner s)).1 s) s' ->
  clean ids s'.
Proof.
  intros Hr Hb Hids Hs. assert (Hm : Z.of_nat m < 4294967294) by lia.
  assert (Hm' : Z.of_nat m < 4294967295) by lia.
  pose proof (reachable_inv m s Hr Hm') as Hi.
  apply (clean_steps ids (S m) n _ s' (inv_step m s _ Hi Hm (step_sweep_state ids s)) Hb); [|done].
  split; [done|]. intros kd k v Hv.
  destruct (sweep_state_spec ids (sm_inner s)) as (_ & _ & Ho & Hl & Hd & _).
  cbn [sm_inner set_sm_inner] in Hv.
  destruct kd; cbn [entry] in Hv; rewrite ?Ho, ?Hl, ?Hd, lookup_hm_retain in Hv;
    match type of Hv with context [match ?m !! k with _ => _ end] =>
      destruct (m !! k) as [x|]; [|discriminate Hv] end;
    match type of Hv with context [negb (belongs_to ?o ids)] =>
      destruct (belongs_to o ids) eqn:E; [discriminate Hv|] end;
    injection Hv as <-; rewrite belongs_to_root in E; by bool_to_prop.
Qed.

(** ** Concrete instances *)

(** Two clients have file 3 open for reading and writing, nobody denies. *)
Definition example_owner_a : StateOwner4 := mkStateOwner4 1 [1].
Definition example_owner_b : StateOwner4 := mkStateOwner4 2 [1].
Definition example_open_a : StateManager :=
  (@create_open_state_guarded canonical_order (Fs 3) example_owner_a 3 0 example_boot).2.
Definition example_open_ab : StateManager :=
  (@create_open_state_guarded canonical_order (Fs 3) example_owner_b 3 0 example_open_a).2.

Lemma example_open_ab_reachable : reachable 2 example_open_ab.
Proof.
  exists (StateConfig_new example_identity), (Some (be_bytes 8 1234605616436508552)), 7, 9.
  apply (steps_next 1 _ example_open_a); [apply (steps_next 0 _ example_boot); [apply steps_refl|]|];
    apply (@step_open _ canonical_order); (split || idtac); simpl; try lia; done.
Qed.

(** Owner A also locks bytes 0..9, and a third client gets a delegation on
    directory 4. *)
Definition example_lock_a : StateManager :=
  (create_lock_state_guarded (mkStateid4 1 (stateid_other 1 1)) example_owner_a (Fs 3) WriteLt 0 10
     example_open_ab).2.
Definition example_all : StateManager :=
  (@grant_directory_delegation_guarded canonical_order (Fs 4) 9 None 4 8 0 example_lock_a).2.

Lemma example_lock_a_reachable : reachable 3 example_lock_a.
Proof.
  destruct example_open_ab_reachable as (cfg & rng & secs & nanos & Hs).
  exists cfg, rng, secs, nanos. apply (steps_next 2 _ example_open_ab); [exact Hs|].
  apply step_lock_new; [lock_arith; simpl; lia|done].
Qed.

Lemma example_all_reachable : reachable 4 example_all.
Proof.
  destruct example_lock_a_reachable as (cfg & rng & secs & nanos & Hs).
  exists cfg, rng, secs, nanos. apply (steps_next 3 _ example_lock_a); [exact Hs|].
  apply (@step_grant _ canonical_order). done.
Qed.

Lemma share_reservations_hold_witness :
  exists st1 st2,
    in_open_files (sm_inner example_open_ab) !! stateid_other 1 1 = Some st1 /\
    in_open_files (sm_inner example_open_ab) !! stateid_other 2 2 = Some st2 /\
    Z.land (os_share_deny st1) (os_share_access st2) = 0.
Proof.
  eexists _, _. split; [vm_compute; reflexivity|]. split; [vm_compute; reflexivity|].
  eapply (share_reservations_hold 2 example_open_ab (stateid_other 1 1) (stateid_other 2 2)).
  - exact example_open_ab_reachable.
  - lia.
  - vm_compute. reflexivity.
  - vm_compute. reflexivity.
  - reflexivity.
  - reflexivity.
  - reflexivity.
  - vm_compute. discriminate.
Defined.

Lemma stateids_unambiguous_witness :
  entry (sm_inner example_all) KLock (stateid_other 5 1) = None.
Proof.
  destruct (stateids_unambiguous 4 example_all example_all_reachable ltac:(lia)) as (_ & _ & H).
  apply (H KLock 1). unfold is_u64. lia.
Defined.

Lemma lock_states_sound_witness :
  exists st, in_lock_files (sm_inner example_lock_a) !! stateid_other 3 1 = Some st /\
  exists out, replace_lock_range (ls_ranges st) (mkLockRange ReadLt 5 20) = Some out.
Proof.
  eexists. split; [vm_compute; reflexivity|].
  eapply (lock_states_sound 3 example_lock_a (stateid_other 3 1) _ example_lock_a_reachable).
  - lia.
  - vm_compute. reflexivity.
  - lock_arith. simpl. lia.
Defined.

Lemma delegation_indexes_exact_witness :
  exists X, in_dir_delegations (sm_inner example_all) !! Fs 4 = Some X /\ stateid_other 4 9 ∈ X.
Proof.
  destruct (delegation_indexes_exact 4 example_all example_all_reachable ltac:(lia)) as (H & _).
  apply H. eexists. split; [vm_compute; reflexivity|reflexivity].
Defined.

(** File 3 is retired while it is open and locked: nothing of it is left, and a
    client that tries to open it again changes nothing about that. *)
Definition example_retiring : StateManager := mark_retired {[3]} example_all.

Lemma retirement_permanent_witness :
  clean {[3]} (@create_open_state_guarded canonical_order (Fs 3) example_owner_a 1 0
    (set_sm_inner (@sweep_state canonical_order {[3]} (sm_inner example_retiring)).1
       example_retiring)).2.
Proof.
  apply (@retirement_permanent canonical_order {[3]} 5 1 example_retiring).
  - destruct example_all_reachable as (cfg & rng & secs & nanos & Hs).
    exists cfg, rng, secs, nanos. apply (steps_next 4 _ example_all); [exact Hs|].
    apply step_mark_retired.
  - lia.
  - apply (union_subseteq_l {[3]} (sm_retired_objects example_all)).
  - eapply steps_next; [apply steps_refl|].
    apply (@step_open _ canonical_order); [lia|split; lia|done].
Defined.
