(* ===== verification/Sessions.v ===== *)
(** * Sessions stay well formed

    A type invariant of the session table over the step relation: every
    session has the identity its key was made from, at least one slot and no
    more than the server grants, and counters within their width; and, if the
    replies that are kept satisfy a property, so do all replies in the table
    ([step_sessions]). *)

From stdpp Require Import base gmap list sets strings numbers.
From Stdlib Require Import ZArith Lia.
From S2P Require Import Prelude Xdr Rpc Types StateModel DelegTable Clients Stateids.
From S2P Require Import Opens Locks Delegations Sequence Filehandles Invalidate FsApi Metadata StateMachine.

Local Open Scope Z_scope.

Record session_ok (sid : bytes) (ss : SessionState) : Prop := {
  so_client : is_u64 (ss_clientid ss);
  so_key : exists seq, sid = be_bytes 8 (ss_clientid ss) ++ be_bytes 8 seq;
  so_slots : (1 <= length (ss_slots ss) <= Z.to_nat MAX_FORE_CHAN_SLOTS)%nat;
  so_seqs : Forall (fun slot => is_u32 (sl_sequence_id slot)) (ss_slots ss);
}.

(** [P] holds of every reply that is kept for a retry, with its fingerprint. *)
Definition replies_hold (P : bytes -> bytes -> Prop) (ss : SessionState) : Prop :=
  Forall (fun slot => forall c, sl_cached_reply slot = Some c -> P (cr_fingerprint c) (cr_response c))
    (ss_slots ss).

Definition session_inv (P : bytes -> bytes -> Prop) (sid : bytes) (ss : SessionState) : Prop :=
  session_ok sid ss /\ replies_hold P ss.

(** ** Operations on the table *)

Section invariant.
Context {P : bytes -> bytes -> Prop}.

Definition sessions_hold (i : StateInner) : Prop := map_Forall (session_inv P) (in_sessions i).

Lemma sessions_same i j : in_sessions j = in_sessions i -> sessions_hold i -> sessions_hold j.
Proof. unfold sessions_hold. by intros ->. Qed.

Lemma sessions_retain f i j :
  in_sessions j = hm_retain f (in_sessions i) -> sessions_hold i -> sessions_hold j.
Proof.
  unfold sessions_hold. intros -> Hi k ss [Hk _]%lookup_hm_retain_Some. by apply Hi.
Qed.

(** A session put back with its identity and its slots. *)
Lemma session_inv_same sid ss ss' :
  ss_clientid ss' = ss_clientid ss -> ss_slots ss' = ss_slots ss ->
  session_inv P sid ss -> session_inv P sid ss'.
Proof.
  unfold session_inv, replies_hold. intros Hc Hs [[H1 H2 H3 H4] Hr].
  split; [split|]; rewrite ?Hc, ?Hs; done.
Qed.

Lemma session_inv_slot sid ss idx slot :
  session_inv P sid ss -> is_u32 (sl_sequence_id slot) ->
  (forall c, sl_cached_reply slot = Some c -> P (cr_fingerprint c) (cr_response c)) ->
  session_inv P sid (set_ss_slots (<[idx := slot]> (ss_slots ss)) ss).
Proof.
  intros [[H1 H2 H3 H4] Hr] Hs Hc.
  split; [split; simpl; rewrite ?length_insert; try done|]; by apply Forall_insert.
Qed.

Lemma sessions_put i sid ss :
  sessions_hold i -> session_inv P sid ss ->
  sessions_hold (set_in_sessions (<[sid := ss]> (in_sessions i)) i).
Proof. intros Hi Hs. by apply map_Forall_insert_2. Qed.

Section steps.
Context {ho : HashOrder}.

Lemma reap_sessions now s :
  deleg_wf (sm_inner s) -> sessions_hold (sm_inner s) ->
  sessions_hold (sm_inner (reap_expired_clients now s)).
Proof.
  intros Hwf. eapply sessions_retain.
  apply (reap_expired_clients_spec (sm_config s) now (sm_inner s) Hwf).
Qed.

(** Operations that reap first. *)
Lemma after_reap_sessions now s s' :
  deleg_wf (sm_inner s) -> sessions_hold (sm_inner s) ->
  (deleg_wf (sm_inner (reap_expired_clients now s)) ->
   sessions_hold (sm_inner (reap_expired_clients now s)) -> sessions_hold (sm_inner s')) ->
  sessions_hold (sm_inner s').
Proof. intros Hwf Hs H. apply H; [by apply reap_deleg_wf|by apply reap_sessions]. Qed.

Lemma drops_sessions i l : deleg_wf i -> sessions_hold i -> sessions_hold (drop_clients i l).
Proof. intros Hwf. eapply sessions_retain. by apply (drop_fold i l). Qed.
Lemma drop_sessions i c : deleg_wf i -> sessions_hold i -> sessions_hold (drop_client_state i c).1.
Proof. intros Hwf. eapply sessions_retain. by apply (drop_client_state_spec i c). Qed.

Lemma exchange_id_sessions args now s :
  deleg_wf (sm_inner s) -> sessions_hold (sm_inner s) -> sessions_hold (sm_inner (exchange_id args now s).2).
Proof.
  intros Hwf Hs. unfold exchange_id. destruct (ei_state_protect args); [|done|done].
  apply (after_reap_sessions now s); [done..|]. generalize (reap_expired_clients now s). clear s Hwf Hs.
  intros s Hwf Hok. unfold exchange_id_client. destruct (hm_find _ _) as [[k cl]|]; [done|].
  cbv zeta. simpl. by apply drops_sessions.
Qed.

Lemma create_session_sessions args conn now s :
  deleg_wf (sm_inner s) -> sessions_hold (sm_inner s) -> is_u64 (csa_clientid args) ->
  sessions_hold (sm_inner (create_session args conn now s).2).
Proof.
  intros Hwf Hs Hu. unfold create_session.
  apply (after_reap_sessions now s); [done..|]. generalize (reap_expired_clients now s). clear s Hwf Hs.
  intros s Hwf Hok. destruct (in_clients (sm_inner s) !! csa_clientid args) as [cl|]; [|done].
  destruct (create_session_client _ _ _ _) as [[cl' [old q]]|e]; [|done]. cbv zeta. simpl.
  apply sessions_put.
  - destruct old as [old|]; [|done]. by apply drop_sessions.
  - split; [split|]; simpl; [done|by eexists| | |].
    + rewrite length_replicate. unfold MAX_FORE_CHAN_SLOTS. lia.
    + apply Forall_replicate. simpl. unfold is_u32. lia.
    + by apply Forall_replicate.
Qed.

Lemma destroy_session_sessions sid conn now s :
  deleg_wf (sm_inner s) -> sessions_hold (sm_inner s) ->
  sessions_hold (sm_inner (destroy_session sid conn now s).2).
Proof.
  intros Hwf Hs. unfold destroy_session. apply (after_reap_sessions now s); [done..|].
  generalize (reap_expired_clients now s). clear s Hwf Hs. intros s Hwf Hok.
  destruct (in_sessions (sm_inner s) !! sid); [|done]. destruct (_ && _); [done|].
  by apply map_Forall_delete.
Qed.

Lemma destroy_clientid_sessions c now s :
  deleg_wf (sm_inner s) -> sessions_hold (sm_inner s) ->
  sessions_hold (sm_inner (destroy_clientid c now s).2).
Proof.
  intros Hwf Hs. unfold destroy_clientid. apply (after_reap_sessions now s); [done..|].
  generalize (reap_expired_clients now s). clear s Hwf Hs. intros s Hwf Hok.
  destruct (client_has_active_state _ _); [done|].
  pose proof (drop_sessions (sm_inner s) c Hwf Hok) as Hd.
  by destruct (drop_client_state (sm_inner s) c).
Qed.

Lemma bind_sessions args conn now s :
  deleg_wf (sm_inner s) -> sessions_hold (sm_inner s) ->
  sessions_hold (sm_inner (bind_conn_to_session args conn now s).2).
Proof.
  intros Hwf Hs. unfold bind_conn_to_session. apply (after_reap_sessions now s); [done..|].
  generalize (reap_expired_clients now s). clear s Hwf Hs. intros s Hwf Hok.
  destruct (in_sessions (sm_inner s) !! _) as [ss|] eqn:Hss; [|done].
  destruct (bind_connection_direction ss _ _) as [r ss'] eqn:Hb.
  assert (Hsame : ss_clientid ss' = ss_clientid ss /\ ss_slots ss' = ss_slots ss).
  { unfold bind_connection_direction, ensure_backchannel_configured in Hb.
    destruct (_ =? _); [by simplify_eq|].
    destruct (_ =? _); [destruct (ss_backchannel ss); by simplify_eq|].
    destruct (_ =? _); [simpl in Hb; destruct (ss_backchannel ss); by simplify_eq|].
    destruct (_ =? _); [destruct (ss_backchannel ss); by simplify_eq|]. by simplify_eq. }
  assert (Hput : sessions_hold (set_in_sessions (<[bc_sessionid args := ss']> (in_sessions (sm_inner s))) (sm_inner s))).
  { apply sessions_put; [done|]. eapply session_inv_same; [apply Hsame..|]. by apply Hok. }
  by destruct r.
Qed.

Lemma callback_sessions c conn s :
  sessions_hold (sm_inner s) -> sessions_hold (sm_inner (next_callback_target_on c conn s).2).
Proof.
  intros Hok. unfold next_callback_target_on. destruct (hm_find _ _) as [[sid ss]|] eqn:Hf; [|done].
  apply hm_find_Some in Hf as [Hss _]. destruct (ss_backchannel ss); [|done].
  apply sessions_put; [done|]. eapply session_inv_same; [..|by apply Hok]; done.
Qed.

Lemma remove_connection_sessions conn s :
  sessions_hold (sm_inner s) -> sessions_hold (sm_inner (remove_connection conn s)).
Proof.
  intros Hok sid ss. simpl. rewrite lookup_fmap.
  destruct (in_sessions (sm_inner s) !! sid) as [ss0|] eqn:Hss; [|done]. simpl. intros [= <-].
  eapply session_inv_same; [..|by apply (Hok sid ss0)]; done.
Qed.

Lemma slot_prepare_ok q fp slot v slot' :
  is_u32 (sl_sequence_id slot) -> slot_prepare q fp slot = (v, slot') ->
  is_u32 (sl_sequence_id slot') /\
  (forall c, sl_cached_reply slot' = Some c -> sl_cached_reply slot = Some c).
Proof.
  intros Hq Hp. destruct v.
  - apply slot_prepare_execute in Hp as [_ ->]. split; [apply u32_wrap_range|done].
  - by rewrite (slot_prepare_other _ _ _ _ _ Hp).
  - by rewrite (slot_prepare_other _ _ _ _ _ Hp).
Qed.

Lemma prepare_sessions args fp conn now s :
  deleg_wf (sm_inner s) -> sessions_hold (sm_inner s) ->
  sessions_hold (sm_inner (prepare_sequence args fp conn now s).2).
Proof.
  intros Hwf Hs. unfold prepare_sequence. apply (after_reap_sessions now s); [done..|].
  generalize (reap_expired_clients now s). clear s Hwf Hs. intros s Hwf Hok.
  destruct (in_sessions (sm_inner s) !! _) as [ss|] eqn:Hss; [|done]. destruct (_ <=? _); [done|].
  destruct (in_clients (sm_inner s) !! _) as [cl|]; [|done].
  assert (Hbind : forall ss', bind_forechannel_for_sequence ss conn = Ok ss' -> session_inv P (sa_sessionid args) ss').
  { intros ss'. unfold bind_forechannel_for_sequence. destruct (_ && _); [done|]. intros [= <-].
    eapply session_inv_same; [..|by apply (Hok _ _ Hss)]; done. }
  destruct (cs_lease_state cl);
    (destruct (bind_forechannel_for_sequence _ _) as [ss'|e]; [|done]; specialize (Hbind _ eq_refl)).
  2: by apply sessions_put.
  destruct (ss_slots ss' !! _) as [slot|] eqn:Hsl; [|done].
  destruct (slot_prepare _ _ _) as [v slot'] eqn:Hp.
  destruct Hbind as [Hss' Hr].
  apply slot_prepare_ok in Hp as [Hu Hc];
    [|eapply (Forall_lookup_1 _ _ _ _ (so_seqs _ _ Hss')); exact Hsl].
  assert (Hslot : forall c, sl_cached_reply slot' = Some c -> P (cr_fingerprint c) (cr_response c)).
  { intros c Hc'. by apply (Forall_lookup_1 _ _ _ _ Hr Hsl), Hc. }
  destruct v; cbn [renews_lease]; by apply sessions_put, session_inv_slot.
Qed.

Lemma finish_sessions tok r s :
  P (tk_fingerprint tok) r -> sessions_hold (sm_inner s) -> sessions_hold (sm_inner (finish_sequence tok r s).2).
Proof.
  intros HP Hok. unfold finish_sequence.
  destruct (in_sessions (sm_inner s) !! _) as [ss|] eqn:Hss; [|done].
  destruct (ss_slots ss !! _) as [slot|] eqn:Hsl; [|done].
  apply sessions_put; [done|]. apply session_inv_slot; [by apply Hok| |by intros c [= <-]].
  eapply (Forall_lookup_1 _ _ _ slot (so_seqs _ _ (proj1 (Hok _ _ Hss)))). exact Hsl.
Qed.
End steps.

(** ** The other steps leave the table alone *)

Lemma simple_sessions_same s :
  (forall sid, in_sessions (sm_inner (confirm_open_state_guarded sid s).2) = in_sessions (sm_inner s)) /\
  (forall sid acc deny,
     in_sessions (sm_inner (open_downgrade_guarded sid acc deny s).2) = in_sessions (sm_inner s)) /\
  (forall sid o l, in_sessions (sm_inner (unlock_state_guarded sid o l s).2) = in_sessions (sm_inner s)) /\
  (forall sid, in_sessions (sm_inner (revoke_delegation_state_guarded sid s).2) = in_sessions (sm_inner s)) /\
  (forall sid,
     in_sessions (sm_inner (revoke_recallable_delegation_guarded sid s).2) = in_sessions (sm_inner s)) /\
  (forall c now, in_sessions (sm_inner (renew c now s).2) = in_sessions (sm_inner s)).
Proof.
  split_and!; intros *; unfold confirm_open_state_guarded, open_downgrade_guarded,
    unlock_state_guarded, revoke_delegation_state_guarded, revoke_recallable_delegation_guarded, renew;
    repeat case_match; done.
Qed.

Lemma close_sessions_same {ho : HashOrder} sid s :
  in_sessions (sm_inner (close_state_guarded sid s).2) = in_sessions (sm_inner s).
Proof. unfold close_state_guarded. repeat case_match; done. Qed.

Section frames.
Context {ho : HashOrder}.

Lemma free_sessions_same sid s :
  in_sessions (sm_inner (free_stateid_guarded sid s).2) = in_sessions (sm_inner s).
Proof.
  unfold free_stateid_guarded. destruct (in_open_files (sm_inner s) !! other sid).
  { destruct (validate_stateid_seq _ _); [|done]. by destruct (_ || _). }
  destruct (in_lock_files (sm_inner s) !! other sid).
  { destruct (validate_stateid_seq _ _); [|done]. by destruct (ls_active _). }
  destruct (in_delegations (sm_inner s) !! other sid); [|done].
  destruct (validate_stateid_seq _ _); [|done].
  pose proof (remove_delegation_same (sm_inner s) (other sid)) as (_ & Hs & _).
  by destruct (ds_status _).
Qed.

Lemma return_sessions_same sid c s :
  in_sessions (sm_inner (return_delegation_state_guarded sid c s).2) = in_sessions (sm_inner s).
Proof.
  unfold return_delegation_state_guarded.
  destruct (in_delegations (sm_inner s) !! other sid) as [d|]; [|done].
  destruct (validate_stateid_seq _ _); [|done].
  destruct (wrong_client _ _); [done|]. destruct (bool_decide _); [done|].
  cbn [snd sm_inner with_inner set_sm_inner].
  set (i := sm_inner (put_delegation (other sid) (set_ds_status Returned d) s)).
  by destruct (remove_delegation_same i (other sid)) as (_ & <- & _).
Qed.

Lemma open_sessions_same object owner acc deny s :
  in_sessions (sm_inner (create_open_state_guarded object owner acc deny s).2) = in_sessions (sm_inner s).
Proof.
  unfold create_open_state_guarded. destruct (is_retired s object); [done|].
  destruct (find_owner_open _ _ _) as [[k st]|]; cbn [fst fmap option_fmap option_map];
    (destruct (share_conflict _ _ _ _ _); [done|]); [|done].
  by destruct (in_open_files (sm_inner s) !! k).
Qed.

Lemma lock_new_sessions_same osid owner object t o l s :
  in_sessions (sm_inner (create_lock_state_guarded osid owner object t o l s).2) =
  in_sessions (sm_inner s).
Proof.
  unfold create_lock_state_guarded. destruct (is_retired s object); [done|].
  destruct (in_open_files (sm_inner s) !! other osid); [|done]. by destruct (_ || _).
Qed.

Lemma lock_more_sessions_same sid t o l s r s' :
  update_lock_state_guarded sid t o l s = Some (r, s') ->
  in_sessions (sm_inner s') = in_sessions (sm_inner s).
Proof.
  unfold update_lock_state_guarded.
  destruct (in_lock_files (sm_inner s) !! other sid) as [st|]; [|by intros [= <- <-]].
  destruct (validate_stateid_seq _ _); [|by intros [= <- <-]].
  destruct (replace_lock_range _ _); [|done]. by intros [= <- <-].
Qed.

Lemma delegate_sessions_same object c sess now s :
  in_sessions (sm_inner (create_directory_delegation_guarded object c sess now s).2) =
  in_sessions (sm_inner s).
Proof.
  unfold create_directory_delegation_guarded. destruct (is_retired s object); [done|].
  destruct (find_live_directory_delegation _ _ _); [|done]. by destruct (in_delegations (sm_inner s) !! _).
Qed.

Lemma grant_sessions_same object c sess max_c max_t now s :
  in_sessions (sm_inner (grant_directory_delegation_guarded object c sess max_c max_t now s).2) =
  in_sessions (sm_inner s).
Proof.
  unfold grant_directory_delegation_guarded. destruct (is_retired s object); [done|].
  destruct (find_live_directory_delegation _ _ _); [done|].
  destruct (has_recall_in_progress _ _); [done|]. destruct (_ <=? _); [done|]. by destruct (_ <=? _).
Qed.

Lemma recall_sessions_same object excl now s :
  deleg_wf (sm_inner s) ->
  in_sessions (sm_inner (begin_directory_recall_guarded object excl now s).2) = in_sessions (sm_inner s).
Proof. intros Hwf. destruct (begin_recall_table object excl now s Hwf) as [Ht _]. by rewrite Ht. Qed.

Lemma meta_sessions s s' : meta_frame s s' -> sessions_hold (sm_inner s) -> sessions_hold (sm_inner s').
Proof. intros [[m Hm] _]. apply sessions_same. by rewrite Hm. Qed.

Lemma setclientid_sessions args now s :
  deleg_wf (sm_inner s) -> sessions_hold (sm_inner s) -> sessions_hold (sm_inner (set_client_id args now s).2).
Proof.
  intros Hwf Hs. unfold set_client_id. apply (after_reap_sessions now s); [done..|].
  generalize (reap_expired_clients now s). clear s Hwf Hs. intros s Hwf Hok.
  match goal with |- context [drop_clients _ ?l] => set (stale := l) end.
  pose proof (drops_sessions (sm_inner s) stale Hwf Hok) as Hd.
  set (s1 := with_inner (fun i => drop_clients i stale) s).
  change (sessions_hold (sm_inner s1)) in Hd. clearbody s1. revert Hd.
  destruct (hm_find _ _) as [[k cl]|]; [|done]. cbv zeta iota beta.
  by destruct (in_clients (sm_inner s1) !! _).
Qed.

Lemma setclientid_confirm_sessions args now s :
  deleg_wf (sm_inner s) -> sessions_hold (sm_inner s) ->
  sessions_hold (sm_inner (set_client_id_confirm args now s).2).
Proof.
  intros Hwf Hs. unfold set_client_id_confirm. apply (after_reap_sessions now s); [done..|].
  generalize (reap_expired_clients now s). clear s Hwf Hs. intros s Hwf Hok.
  destruct (in_clients (sm_inner s) !! _) as [cl|]; [|done].
  destruct (cs_v40_confirm cl); [|done]. by case_bool_decide.
Qed.

Lemma reclaim_sessions c fs now s :
  deleg_wf (sm_inner s) -> sessions_hold (sm_inner s) ->
  sessions_hold (sm_inner (reclaim_complete c fs now s).2).
Proof.
  intros Hwf Hs. unfold reclaim_complete. apply (after_reap_sessions now s); [done..|].
  generalize (reap_expired_clients now s). clear s Hwf Hs. intros s Hwf Hok.
  destruct (in_clients (sm_inner s) !! c); [|done]. destruct fs; [done|].
  by destruct (cs_reclaim_complete_global _).
Qed.
End frames.

(** ** Every step keeps the sessions well formed *)

Lemma step_sessions s s' :
  deleg_wf (sm_inner s) -> @step_with P s s' -> sessions_hold (sm_inner s) -> sessions_hold (sm_inner s').
Proof.
  intros Hwf Hs Hok. destruct Hs;
    first
    [ by apply reap_sessions | by apply exchange_id_sessions | by apply create_session_sessions
    | by apply destroy_session_sessions | by apply destroy_clientid_sessions | by apply bind_sessions
    | by apply callback_sessions | by apply remove_connection_sessions | by apply reclaim_sessions
    | by apply setclientid_sessions | by apply setclientid_confirm_sessions
    | by apply prepare_sessions | by apply finish_sessions
    | revert Hok; apply sessions_same; first
        [ apply free_sessions_same | apply return_sessions_same | apply open_sessions_same
        | apply lock_new_sessions_same | by eapply lock_more_sessions_same | apply close_sessions_same
        | destruct (simple_sessions_same s) as (A1 & A2 & A3 & A4 & A5 & A6);
          first [apply A1 | apply A2 | apply A3 | apply A4 | apply A5 | apply A6]
        | apply delegate_sessions_same | apply grant_sessions_same | by apply recall_sessions_same
        | destruct (remove_client_delegations_spec (sm_inner s) c Hwf) as ((_ & Hs & _) & _); by symmetry
        | apply (sweep_state_spec ids (sm_inner s)) ]
    | exact Hok
    | eapply meta_sessions; [|done]; first
      [ apply ensure_meta_frame | apply touch_data_frame | apply touch_metadata_frame
      | apply named_attr_count_frame | apply setattr_frame
      | apply frame_meta; first [apply object_to_fh_frame | apply sweep_filehandles_frame | done] ] ].
Qed.

Lemma boot_sessions cfg rng secs nanos : sessions_hold (sm_inner (with_config cfg rng secs nanos)).
Proof. apply map_Forall_empty. Qed.
End invariant.

Arguments sessions_hold : clear implicits.

Lemma steps_sessions n m s s' :
  inv m s -> Z.of_nat (m + n) < 4294967295 -> steps n s s' ->
  sessions_hold (fun _ _ => True) (sm_inner s) -> sessions_hold (fun _ _ => True) (sm_inner s').
Proof.
  intros Hi Hn Hs Hok. induction Hs as [|n s1 s2 s3 Hs IH Hst]; [done|].
  apply (step_sessions s2); [|done|apply IH; [done|lia|done]].
  apply inv_content with (n := (m + n)%nat), (inv_steps n m s1 s2 Hi); [lia|done].
Qed.

Lemma reachable_sessions n s :
  reachable n s -> Z.of_nat n < 4294967295 -> sessions_hold (fun _ _ => True) (sm_inner s).
Proof.
  intros (cfg & rng & secs & nanos & Hs) Hn.
  apply (steps_sessions n 0 _ s (inv_boot cfg rng secs nanos)); [simpl; lia|done|apply boot_sessions].
Qed.

(** C30. Sessions are well typed in every reachable state, however requests
    interleave: a session's client id is a [u64] and is the one its 16-byte
    session id was made from, it has between one and 64 slots (so the
    "highest slot" of a SEQUENCE reply does not wrap around), and every slot's
    sequence number fits its 32 bits. *)
Theorem sessions_well_typed n s sid ss :
  reachable n s -> Z.of_nat n < 4294967295 -> in_sessions (sm_inner s) !! sid = Some ss ->
  session_ok sid ss.
Proof. intros Hr Hn Hss. by apply (reachable_sessions n s Hr Hn sid ss). Qed.

Lemma example_session_reachable : reachable 2 example_session.
Proof.
  eexists _, _, _, _. eapply steps_next; [eapply steps_next; [apply steps_refl|]|].
  - apply (@step_exchange_id _ canonical_order example_exchange 0 example_boot).
  - apply (@step_create_session _ canonical_order example_create 1 0 example_known).
    unfold is_u64. simpl. lia.
Qed.

Lemma sessions_well_typed_witness :
  exists ss, in_sessions (sm_inner example_session) !! example_sessionid = Some ss /\
             session_ok example_sessionid ss.
Proof.
  eexists. split; [vm_compute; reflexivity|].
  apply (sessions_well_typed 2 example_session); [apply example_session_reachable|lia|].
  vm_compute. reflexivity.
Defined.
