(* ===== verification/Locking.v ===== *)
(** * The LOCK, LOCKT and LOCKU handlers (server/ops/locking.rs)

    The handlers resolve the current filehandle and read the object's
    attributes (both reach the backend: their results are arguments here), then
    run a sequence of state operations, each with its own lease reap: [now1],
    [now2], [now3] are the clock readings, in order.

    A LOCK checks for conflicts in one critical section and records the lock in
    another.  [lock_grant_exclusive] states what that gives when nothing runs
    in between; [lock_requests_race] that nothing more holds. *)

From stdpp Require Import base gmap list sets strings numbers.
From Stdlib Require Import ZArith Lia.
From S2P Require Import Prelude Xdr Rpc Types StateModel Operations.
From S2P Require Import DelegTable Clients Stateids Opens Locks StateMachine.

Local Open Scope Z_scope.

(** [NfsResop4::Lock], [NfsResop4::Lockt], [NfsResop4::Locku] *)
Record LockRes := mkLockRes {
  lk_status : NfsStat4;
  lk_stateid : option Stateid4;
  lk_denied : option LockDenied4;
}.
Definition lock_status (status : NfsStat4) : LockRes := mkLockRes status None None.

Definition is_dir_like (t : ServerFileType) : bool :=
  match t with FT_Directory | FT_NamedAttrDir => true | _ => false end.

(** The prefix shared by LOCK and LOCKT. *)
Definition lock_target (resolved : result NfsStat4 ServerObject)
    (object_attr : result NfsStat4 ServerFileType) (offset length : Z)
    : result NfsStat4 ServerObject :=
  match resolved with
  | Err status => Err status
  | Ok object =>
    match object_attr with
    | Err status => Err status
    | Ok file_type =>
      if is_dir_like file_type then Err NFS_Isdir
      else match validate_lock_bounds offset length with
           | Err status => Err status
           | Ok _ => Ok object
           end
    end
  end.

(** The stateid a lock request names, which must be a concrete one. *)
Definition concrete_stateid (requested : Stateid4) (current : option Stateid4)
    : result NfsStat4 Stateid4 :=
  match normalize_stateid requested current ZeroSeqid with
  | Ok (Norm_Concrete stateid) => Ok stateid
  | Ok (Norm_Anonymous | Norm_Bypass) => Err NFS_BadStateid
  | Err status => Err status
  end.

(** ** Handlers *)

Section with_order.
Context {ho : HashOrder}.

Definition lock_result (r : result NfsStat4 Stateid4) : LockRes :=
  match r with
  | Ok stateid => mkLockRes NFS_Ok (Some stateid) None
  | Err status => lock_status status
  end.

Definition op_lock_new (object : ServerObject) (clientid : Z) (args : LockArgs4)
    (new_owner : OpenToLockOwner4) (current_stateid : option Stateid4) (now1 now2 now3 : Z)
    (s : StateManager) : LockRes * StateManager :=
  match concrete_stateid (ol_open_stateid new_owner) current_stateid with
  | Err status => (lock_status status, s)
  | Ok open_stateid =>
    let '(resolved, s) := resolve_stateid (Some clientid) open_stateid None ZeroSeqid now1 s in
    match resolved with
    | Err status => (lock_status status, s)
    | Ok (Resolved_Open open) =>
      if bool_decide (ro_object open = object) then
        let '(conflict, s) := find_lock_conflict object (ol_lock_owner new_owner)
                                (la_locktype args) (la_offset args) (la_length args) None now2 s in
        match conflict with
        | Some denied => (mkLockRes NFS_Denied None (Some denied), s)
        | None =>
          let '(r, s) := create_lock_state open_stateid (ol_lock_owner new_owner) object
                           (la_locktype args) (la_offset args) (la_length args) now3 s in
          (lock_result r, s)
        end
      else (lock_status NFS_Openmode, s)
    | Ok _ => (lock_status NFS_Openmode, s)
    end
  end.

(** [None]: the range merge panicked. *)
Definition op_lock_existing (object : ServerObject) (clientid : Z) (args : LockArgs4)
    (existing : ExistLockOwner4) (current_stateid : option Stateid4) (now1 now2 now3 : Z)
    (s : StateManager) : option (LockRes * StateManager) :=
  match concrete_stateid (el_lock_stateid existing) current_stateid with
  | Err status => Some (lock_status status, s)
  | Ok lock_stateid =>
    let '(resolved, s) := resolve_stateid (Some clientid) lock_stateid None ZeroSeqid now1 s in
    match resolved with
    | Err status => Some (lock_status status, s)
    | Ok (Resolved_Lock lock) =>
      if bool_decide (rl_object lock = object) then
        let '(conflict, s) := find_lock_conflict object (rl_owner lock) (la_locktype args)
                                (la_offset args) (la_length args) (Some lock_stateid) now2 s in
        match conflict with
        | Some denied => Some (mkLockRes NFS_Denied None (Some denied), s)
        | None =>
          match update_lock_state lock_stateid (la_locktype args) (la_offset args)
                  (la_length args) now3 s with
          | None => None
          | Some (r, s) => Some (lock_result r, s)
          end
        end
      else Some (lock_status NFS_BadStateid, s)
    | Ok _ => Some (lock_status NFS_BadStateid, s)
    end
  end.

Definition op_lock (resolved : result NfsStat4 ServerObject)
    (object_attr : result NfsStat4 ServerFileType) (args : LockArgs4)
    (current_stateid : option Stateid4) (sequence_clientid : option Z) (now1 now2 now3 : Z)
    (s : StateManager) : option (LockRes * StateManager) :=
  match lock_target resolved object_attr (la_offset args) (la_length args) with
  | Err status => Some (lock_status status, s)
  | Ok object =>
    match sequence_clientid with
    | None => Some (lock_status NFS_BadStateid, s)
    | Some clientid =>
      match la_locker args with
      | NewLockOwner new_owner =>
        Some (op_lock_new object clientid args new_owner current_stateid now1 now2 now3 s)
      | ExistingLockOwner existing =>
        op_lock_existing object clientid args existing current_stateid now1 now2 now3 s
      end
    end
  end.

Definition op_lockt (resolved : result NfsStat4 ServerObject)
    (object_attr : result NfsStat4 ServerFileType) (args : LocktArgs4) (now : Z)
    (s : StateManager) : LockRes * StateManager :=
  match lock_target resolved object_attr (lt_offset args) (lt_length args) with
  | Err status => (lock_status status, s)
  | Ok object =>
    let '(conflict, s) := find_lock_conflict object (lt_owner args) (lt_locktype args)
                            (lt_offset args) (lt_length args) None now s in
    match conflict with
    | Some denied => (mkLockRes NFS_Denied None (Some denied), s)
    | None => (mkLockRes NFS_Ok None None, s)
    end
  end.

Definition op_locku (resolved : result NfsStat4 ServerObject) (args : LockuArgs4)
    (current_stateid : option Stateid4) (sequence_clientid : option Z) (now1 now2 : Z)
    (s : StateManager) : LockRes * StateManager :=
  match resolved with
  | Err status => (lock_status status, s)
  | Ok object =>
    match sequence_clientid with
    | None => (lock_status NFS_BadStateid, s)
    | Some clientid =>
      match concrete_stateid (lu_lock_stateid args) current_stateid with
      | Err status => (lock_status status, s)
      | Ok stateid =>
        let '(r, s) := resolve_stateid (Some clientid) stateid None ZeroSeqid now1 s in
        match r with
        | Err status => (lock_status status, s)
        | Ok (Resolved_Lock lock) =>
          if bool_decide (rl_object lock = object) then
            let '(r, s) := unlock_state stateid (lu_offset args) (lu_length args) now2 s in
            (lock_result r, s)
          else (lock_status NFS_BadStateid, s)
        | Ok _ => (lock_status NFS_BadStateid, s)
        end
      end
    end
  end.

(** ** A LOCK that runs undisturbed excludes conflicting locks *)

(** No live lock of another owner on the object shares a byte with the range in
    a conflicting way, the state [sid] aside. *)
Definition exclusive (i : StateInner) (object : ServerObject) (owner : StateOwner4)
    (sid : option bytes) (r : LockRange) : Prop :=
  forall k st p t', in_lock_files i !! k = Some st -> competing object owner sid k st ->
    is_u64 p -> covers r p -> held (ls_ranges st) p t' -> ~ types_conflict (lr_locktype r) t'.

Lemma resolve_stateid_state c q cur mode now s :
  (resolve_stateid c q cur mode now s).2 = reap_expired_clients now s.
Proof. done. Qed.

Lemma exclusive_sub i j object owner sid r :
  (forall k st, in_lock_files j !! k = Some st -> in_lock_files i !! k = Some st) ->
  exclusive i object owner sid r -> exclusive j object owner sid r.
Proof. intros Hs He k st p t' Hk. by apply (He k st p t'), Hs. Qed.

(** Putting the caller's own lock state back does not create a competitor. *)
Lemma exclusive_put s object owner sid r st :
  exclusive (sm_inner s) object owner (Some sid) r ->
  exclusive (sm_inner (put_lock sid st s)) object owner (Some sid) r.
Proof.
  intros He k st' p t' Hk Hc. simpl in Hk. rewrite lookup_insert_ne in Hk.
  - by apply (He k st' p t').
  - intros <-. by destruct Hc as [Hc _].
Qed.

Lemma find_conflict_exclusive object owner t o l ign now s :
  deleg_wf (sm_inner s) -> locks_wf (in_lock_files (sm_inner s)) ->
  range_ok (mkLockRange t o l) ->
  (find_lock_conflict object owner t o l ign now s).1 = None ->
  exclusive (sm_inner (reap_expired_clients now s)) object owner (other <$> ign)
    (mkLockRange t o l).
Proof.
  intros Hd Hw Hr Hn. unfold find_lock_conflict in Hn. simpl in Hn.
  assert (Hw' : locks_wf (in_lock_files (sm_inner (reap_expired_clients now s)))).
  { apply (locks_wf_sub (in_lock_files (sm_inner s))); [|done].
    intros k st. by apply reap_locks. }
  intros k st p t'. by apply (lock_conflict_none _ _ _ _ _ _ _ Hw' Hr Hn).
Qed.

Lemma exclusive_weaken i object owner sid r :
  exclusive i object owner None r -> exclusive i object owner sid r.
Proof. intros He k st p t' Hk (_ & Hc). apply (He k st p t' Hk). by split. Qed.

(** The lock a handler granted: recorded for the object, holding every byte
    asked for, and excluding conflicting locks of other owners. *)
Definition granted (object : ServerObject) (args : LockArgs4) (sid : Stateid4)
    (s : StateManager) : Prop :=
  exists st, in_lock_files (sm_inner s) !! other sid = Some st /\
    ls_object st = object /\ ls_active st = true /\ seqid sid = ls_stateid_seq st /\
    exclusive (sm_inner s) object (ls_owner st) (Some (other sid))
      (mkLockRange (la_locktype args) (la_offset args) (la_length args)) /\
    (forall p, is_u64 p -> covers (mkLockRange (la_locktype args) (la_offset args)
       (la_length args)) p -> held (ls_ranges st) p (la_locktype args)).

Lemma reap_locks_wf now s :
  deleg_wf (sm_inner s) -> locks_wf (in_lock_files (sm_inner s)) ->
  locks_wf (in_lock_files (sm_inner (reap_expired_clients now s))).
Proof. intros Hd. apply locks_wf_sub. intros k st. by apply reap_locks. Qed.

Lemma op_lock_new_granted object c args no cur now1 now2 now3 s res s' sid :
  deleg_wf (sm_inner s) -> locks_wf (in_lock_files (sm_inner s)) ->
  range_ok (mkLockRange (la_locktype args) (la_offset args) (la_length args)) ->
  op_lock_new object c args no cur now1 now2 now3 s = (res, s') ->
  lk_stateid res = Some sid -> granted object args sid s'.
Proof.
  intros Hd Hw Hr. unfold op_lock_new.
  destruct (concrete_stateid _ _) as [osid|e]; [|by intros [= <- <-]].
  unfold resolve_stateid. set (s1 := reap_expired_clients now1 s).
  pose proof (reap_deleg_wf now1 s Hd) as Hd1. pose proof (reap_locks_wf now1 s Hd Hw) as Hw1.
  fold s1 in Hd1, Hw1. clearbody s1. cbv zeta iota beta.
  destruct (normalize_stateid osid None ZeroSeqid) as [[| |q]|e]; try (by intros [= <- <-]).
  destruct (resolve_concrete _ _ _) as [[| |open|]|e]; try (by intros [= <- <-]).
  case_bool_decide; [|by intros [= <- <-]].
  destruct (find_lock_conflict _ _ _ _ _ _ _ _) as [conflict s2] eqn:Ef.
  destruct conflict as [d|]; [by intros [= <- <-]|].
  assert (Hs2 : s2 = reap_expired_clients now2 s1)
    by (apply (f_equal snd) in Ef; exact (eq_sym Ef)).
  apply (f_equal fst) in Ef. cbn [fst] in Ef.
  pose proof (find_conflict_exclusive _ _ _ _ _ _ _ _ Hd1 Hw1 Hr Ef) as Hex.
  pose proof (reap_deleg_wf now2 s1 Hd1) as Hd2. rewrite <- Hs2 in Hex, Hd2. clear Hs2 Ef.
  unfold create_lock_state.
  assert (Hex3 : exclusive (sm_inner (reap_expired_clients now3 s2)) object (ol_lock_owner no) None
    (mkLockRange (la_locktype args) (la_offset args) (la_length args))).
  { eapply exclusive_sub; [|exact Hex]. intros k st. by apply reap_locks. }
  generalize dependent (reap_expired_clients now3 s2). intros s3 Hex3.
  destruct (validate_lock_bounds _ _); [|by intros [= <- <-]].
  unfold create_lock_state_guarded. destruct (is_retired s3 object); [by intros [= <- <-]|].
  destruct (in_open_files (sm_inner s3) !! other osid); [|by intros [= <- <-]].
  destruct (_ || _); [by intros [= <- <-]|]. intros [= <- <-] [= <-].
  eexists. split; [apply lookup_insert_eq|]. split_and!; try done.
  - apply exclusive_put, exclusive_weaken. exact Hex3.
  - intros p Hp Hc. eexists. split; [by left|done].
Qed.

Lemma resolve_lock_inv i c sid lock :
  resolve_concrete i c sid = Ok (Resolved_Lock lock) ->
  exists st, in_lock_files i !! other sid = Some st /\ rl_object lock = ls_object st /\
    rl_owner lock = ls_owner st.
Proof.
  unfold resolve_concrete. destruct (in_open_files i !! other sid) as [o|].
  { destruct (validate_stateid_seq _ _); [|done]. destruct (negb _); [done|].
    by destruct (wrong_client _ _). }
  destruct (in_lock_files i !! other sid) as [l|]; [|done].
  destruct (validate_stateid_seq _ _); [|done]. destruct (wrong_client _ _); [done|].
  destruct (in_open_files i !! ls_open_state_other l) as [o|]; [|done].
  destruct (negb _); [done|]. destruct (wrong_client _ _); [done|]. intros [= <-]. eauto.
Qed.

Lemma op_lock_existing_granted object c args ex cur now1 now2 now3 s res s' sid :
  deleg_wf (sm_inner s) -> locks_wf (in_lock_files (sm_inner s)) ->
  range_ok (mkLockRange (la_locktype args) (la_offset args) (la_length args)) ->
  op_lock_existing object c args ex cur now1 now2 now3 s = Some (res, s') ->
  lk_stateid res = Some sid -> granted object args sid s'.
Proof.
  intros Hd Hw Hr. unfold op_lock_existing.
  destruct (concrete_stateid _ _) as [lsid|e]; [|by intros [= <- <-]].
  unfold resolve_stateid. set (s1 := reap_expired_clients now1 s).
  pose proof (reap_deleg_wf now1 s Hd) as Hd1. pose proof (reap_locks_wf now1 s Hd Hw) as Hw1.
  fold s1 in Hd1, Hw1. clearbody s1. cbv zeta iota beta.
  destruct (normalize_stateid lsid None ZeroSeqid) as [[| |q]|e] eqn:En; try (by intros [= <- <-]).
  assert (Hq : q = lsid).
  { revert En. unfold normalize_stateid. repeat case_match; by intros [= <-]. }
  subst q. destruct (resolve_concrete _ _ _) as [[| | |lock]|e] eqn:Er; try (by intros [= <- <-]).
  apply resolve_lock_inv in Er as (st & Hst & Hob & How).
  case_bool_decide as Hobj; [|by intros [= <- <-]].
  destruct (find_lock_conflict _ _ _ _ _ _ _ _) as [conflict s2] eqn:Ef.
  destruct conflict as [d|]; [by intros [= <- <-]|].
  assert (Hs2 : s2 = reap_expired_clients now2 s1)
    by (apply (f_equal snd) in Ef; exact (eq_sym Ef)).
  apply (f_equal fst) in Ef. cbn [fst] in Ef.
  pose proof (find_conflict_exclusive _ _ _ _ _ _ _ _ Hd1 Hw1 Hr Ef) as Hex.
  pose proof (reap_deleg_wf now2 s1 Hd1) as Hd2. pose proof (reap_locks_wf now2 s1 Hd1 Hw1) as Hw2.
  pose proof (fun k st => reap_locks now2 s1 k st Hd1) as Hsub.
  rewrite <- Hs2 in Hex, Hd2, Hw2, Hsub. clear Hs2 Ef.
  unfold update_lock_state.
  assert (Hex3 : exclusive (sm_inner (reap_expired_clients now3 s2)) object (rl_owner lock)
    (Some (other lsid)) (mkLockRange (la_locktype args) (la_offset args) (la_length args))).
  { eapply exclusive_sub; [|exact Hex]. intros k x. by apply reap_locks. }
  pose proof (fun k st H => Hsub k st (reap_locks now3 s2 k st Hd2 H)) as Hsub3.
  pose proof (reap_locks_wf now3 s2 Hd2 Hw2) as Hw3.
  generalize dependent (reap_expired_clients now3 s2). intros s3 Hex3 Hsub3 Hw3.
  destruct (validate_lock_bounds _ _); [|by intros [= <- <-]].
  unfold update_lock_state_guarded.
  destruct (in_lock_files (sm_inner s3) !! other lsid) as [st3|] eqn:Hst3; [|by intros [= <- <-]].
  assert (st3 = st) as -> by (apply Hsub3 in Hst3; congruence).
  destruct (validate_stateid_seq _ _); [|by intros [= <- <-]].
  destruct (replace_lock_range _ _) as [out|] eqn:Eout; [|done]. intros [= <- <-] [= <-].
  destruct (Hw3 _ _ Hst3) as [[Hok _] _].
  destruct (replace_lock_range_spec _ _ Hok Hr) as (out' & Eout' & _ & _ & Hheld).
  assert (out' = out) as -> by congruence.
  eexists. split; [apply lookup_insert_eq|]. simpl. split_and!; try done; [congruence| |].
  - rewrite <- How. by apply exclusive_put.
  - intros p Hp Hc. apply Hheld; [done|]. left. done.
Qed.

(** C31. LOCK, run without interference, grants only exclusive locks: when it
    returns a stateid (as a new or an existing lock owner), the lock is
    recorded for the object the filehandle resolved to, every byte asked for is
    held with the type asked for, and no live lock of another owner on the
    object shares a byte with it unless both are read locks. *)
Theorem lock_grant_exclusive resolved attr args cur c now1 now2 now3 s res s' sid :
  deleg_wf (sm_inner s) -> locks_wf (in_lock_files (sm_inner s)) ->
  is_u64 (la_offset args) -> is_u64 (la_length args) ->
  op_lock resolved attr args cur c now1 now2 now3 s = Some (res, s') ->
  lk_stateid res = Some sid ->
  exists object, resolved = Ok object /\ granted object args sid s'.
Proof.
  intros Hd Hw Ho Hl. unfold op_lock, lock_target.
  destruct resolved as [object|e]; [|by intros [= <- <-]].
  destruct attr as [ft|e]; [|by intros [= <- <-]].
  destruct (is_dir_like ft); [by intros [= <- <-]|].
  destruct (validate_lock_bounds _ _) as [[]|e] eqn:Hv; [|by intros [= <- <-]].
  apply validate_lock_bounds_ok in Hv; [|done..].
  destruct c as [c|]; [|by intros [= <- <-]].
  destruct (la_locker args) as [no|ex].
  - intros [= Hop] Hs. exists object. split; [done|].
    by apply (op_lock_new_granted object c args no cur now1 now2 now3 s res).
  - intros Hop Hs. exists object. split; [done|].
    by apply (op_lock_existing_granted object c args ex cur now1 now2 now3 s res).
Qed.
End with_order.

(** ** Interleaved and foreign locks *)

Definition example_range : LockRange := mkLockRange WriteLt 0 10.

(** The sections two LOCK requests run, for owners A and B of [example_open_ab]:
    both conflict checks, then both records. *)
Definition example_race_a : StateManager :=
  (create_lock_state_guarded (mkStateid4 1 (stateid_other 1 1)) example_owner_a (Fs 3) WriteLt 0 10
     example_open_ab).2.
Definition example_race_ab : StateManager :=
  (create_lock_state_guarded (mkStateid4 1 (stateid_other 2 2)) example_owner_b (Fs 3) WriteLt 0 10
     example_race_a).2.

(** Two LOCK requests can both be granted conflicting locks: the conflict
    check and the recording of the lock are separate critical sections.  From a
    reachable state in which two clients have a file open, both checks pass,
    then both locks are recorded, and the reachable state that results has two
    live write locks of different owners on the same bytes. *)
Theorem lock_requests_race :
  @lock_conflict canonical_order (sm_inner example_open_ab) (Fs 3) example_owner_a WriteLt 0 10 None = None /\
  @lock_conflict canonical_order (sm_inner example_open_ab) (Fs 3) example_owner_b WriteLt 0 10 None = None /\
  reachable 4 example_race_ab /\
  exists k st k' st',
    in_lock_files (sm_inner example_race_ab) !! k = Some st /\
    in_lock_files (sm_inner example_race_ab) !! k' = Some st' /\
    ls_owner st = example_owner_a /\ ls_owner st' = example_owner_b /\
    ls_active st = true /\ ls_active st' = true /\ ls_object st = Fs 3 /\ ls_object st' = Fs 3 /\
    ls_ranges st = [example_range] /\ ls_ranges st' = [example_range].
Proof.
  split; [vm_compute; reflexivity|]. split; [vm_compute; reflexivity|]. split.
  - destruct example_open_ab_reachable as (cfg & rng & secs & nanos & Hs).
    exists cfg, rng, secs, nanos.
    assert (Hr : range_ok (mkLockRange WriteLt 0 10)) by (lock_arith; simpl; lia).
    apply (steps_next 3 _ example_race_a).
    + apply (steps_next 2 _ example_open_ab); [exact Hs|]. by apply step_lock_new.
    + by apply step_lock_new.
  - eexists (stateid_other 3 1), _, (stateid_other 4 2), _.
    split; [vm_compute; reflexivity|]. split; [vm_compute; reflexivity|]. done.
Qed.

(** Client 1 has a session and file 3 open, and asks for a lock whose owner
    carries client id 0. *)
Definition example_foreign_args : LockArgs4 :=
  mkLockArgs4 WriteLt false 0 10
    (NewLockOwner (mkOpenToLockOwner4 0 (mkStateid4 1 (stateid_other 1 1)) 0 (mkStateOwner4 0 [5]))).

(** A lock outlives its client when the lock owner names another client id:
    LOCK accepts the owner as sent, without tying its client id to the session's
    client.  Here client 1 opens a file and locks it under an owner with client
    id 0; its lease runs out; the reaper drops the client's open, but the lock
    stays live and still denies other owners. *)
Theorem foreign_lock_survives :
  exists res s' sid,
    @op_lock canonical_order (Ok (Fs 3)) (Ok FT_Regular) example_foreign_args None (Some 1) 5 5 5
      example_opened = Some (res, s') /\ lk_stateid res = Some sid /\
    let s2 := @reap_expired_clients canonical_order 100000000000 s' in
    in_open_files (sm_inner s2) = ∅ /\
    (exists st, in_lock_files (sm_inner s2) !! other sid = Some st /\ ls_active st = true) /\
    is_Some (@lock_conflict canonical_order (sm_inner s2) (Fs 3) example_owner_b WriteLt 0 10 None).
Proof.
  eexists _, _, _. split; [vm_compute; reflexivity|]. split; [reflexivity|]. cbv zeta.
  split; [vm_compute; reflexivity|]. split.
  - eexists. split; [vm_compute; reflexivity|reflexivity].
  - eexists. vm_compute. reflexivity.
Qed.

(** ** Concrete instances *)

Lemma lock_grant_exclusive_witness :
  exists res s' sid object,
    @op_lock canonical_order (Ok (Fs 3)) (Ok FT_Regular) example_foreign_args None (Some 1) 5 5 5
      example_opened = Some (res, s') /\ lk_stateid res = Some sid /\
    Ok (E := NfsStat4) (Fs 3) = Ok object /\ granted object example_foreign_args sid s'.
Proof.
  destruct (@op_lock canonical_order (Ok (Fs 3)) (Ok FT_Regular) example_foreign_args None (Some 1)
    5 5 5 example_opened) as [[res s']|] eqn:E;
    [|exfalso; revert E; vm_compute; discriminate].
  destruct (lk_stateid res) as [sid|] eqn:Es.
  - edestruct (@lock_grant_exclusive canonical_order (Ok (Fs 3)) (Ok FT_Regular)
      example_foreign_args None (Some 1) 5 5 5 example_opened res s' sid) as (object & H1 & H2).
    + apply deleg_wf_empty; vm_compute; reflexivity.
    + apply locks_wf_empty.
    + split; [discriminate|reflexivity].
    + split; [discriminate|reflexivity].
    + exact E.
    + exact Es.
    + exists res, s', sid, object. split; [reflexivity|]. split; [exact Es|].
      split; [exact H1|exact H2].
  - exfalso. assert (Hs : lk_stateid <$> (fst <$> Some (res, s')) = Some None) by (simpl; by rewrite Es).
    rewrite <- E in Hs. revert Hs. vm_compute. discriminate.
Defined.
