(* ===== verification/Server.v ===== *)
(** * The server and its requests (crates/embednfs/src/server/mod.rs, objects.rs,
      retirement.rs, file_attrs.rs)

    A request runs as a sequence of atomic steps on the shared server: one
    critical section of the state manager, one access to an object table, one
    call on the backend.  [proc] is such a sequence with the decisions taken
    between the steps; [run] executes it undisturbed, and [Pool] lets requests
    interleave at the [.await] points.

    The clock readings and the answers of clients to callbacks are tapes of the
    server's environment, read one entry at a time. *)

From stdpp Require Import base gmap list sets strings numbers.
From Stdlib Require Import ZArith Lia.
From S2P Require Import Prelude Xdr Rpc Types Constants StateModel Operations Codec FsApi Metadata.
From S2P Require Import DelegTable Clients Stateids Opens Locks Delegations Sequence Filehandles.
From S2P Require Import Invalidate AttrCodec.

Local Open Scope Z_scope.

(** ** Requests as sequences of atomic steps *)

Section proc.
Context {W : Type}.

(** [Step upd k]: in one atomic step the server goes from [w] to [upd w] and the
    request goes on with [k w].  [Halt]: the task died (a panic) or the model
    ran out of fuel. *)
Inductive proc (A : Type) : Type :=
| Ret (a : A)
| Halt
| Step (upd : W -> W) (k : W -> proc A).

Fixpoint proc_bind {A C} (m : proc A) (f : A -> proc C) : proc C :=
  match m with
  | Ret _ a => f a
  | Halt _ => Halt C
  | Step _ upd k => Step C upd (fun w => proc_bind (k w) f)
  end.

Fixpoint run {A} (m : proc A) (w : W) : option A * W :=
  match m with
  | Ret _ a => (Some a, w)
  | Halt _ => (None, w)
  | Step _ upd k => run (k w) (upd w)
  end.

(** One step that computes a value and a new state. *)
Definition atomic {A} (f : W -> A * W) : proc A :=
  Step A (fun w => (f w).2) (fun w => Ret A (f w).1).
(** A step that reads. *)
Definition observe {A} (f : W -> A) : proc A := Step A (fun w => w) (fun w => Ret A (f w)).

(** The [?] operator and [match .. { Err(e) => return f(e), .. }]. *)
Definition bind_ok {E A C} (m : proc (result E A)) (f : A -> proc (result E C))
    : proc (result E C) :=
  proc_bind m (fun r => match r with Ok a => f a | Err e => Ret _ (Err e) end).
Definition bind_or {E A C} (m : proc (result E A)) (fail : E -> C) (f : A -> proc C) : proc C :=
  proc_bind m (fun r => match r with Ok a => f a | Err e => Ret _ (fail e) end).

(** A computation that may panic. *)
Definition or_panic {A} (o : option A) : proc A :=
  match o with Some a => Ret A a | None => Halt A end.

(** [for x in l { .. }] carrying a state. *)
Fixpoint for_each {X S} (l : list X) (body : X -> S -> proc S) (s : S) : proc S :=
  match l with
  | [] => Ret S s
  | x :: l => proc_bind (body x s) (for_each l body)
  end.

Lemma run_bind {A C} (m : proc A) (f : A -> proc C) w :
  run (proc_bind m f) w =
  match run m w with
  | (Some a, w') => run (f a) w'
  | (None, w') => (None, w')
  end.
Proof. revert w. induction m as [a| |upd k IH]; intros w; simpl; auto. Qed.
End proc.
Arguments proc : clear implicits.
Arguments Ret {_ _} _.
Arguments Halt {_ _}.
Arguments Step {_ _} _ _.

Declare Scope proc_scope.
Delimit Scope proc_scope with proc.
Notation "'let*' x := m 'in' k" := (proc_bind m (fun x => k))
  (at level 10, x pattern, m at level 100, k at level 200) : proc_scope.
Notation "'let!' x := m 'in' k" := (bind_ok m (fun x => k))
  (at level 10, x pattern, m at level 100, k at level 200) : proc_scope.
Notation "'let!' x := m 'else' f 'in' k" := (bind_or m f (fun x => k))
  (at level 10, x pattern, m at level 100, f at level 100, k at level 200) : proc_scope.

(** ** The server *)

Record DelegationConfig := mkDelegationConfig {
  dc_directory_delegations : bool;
  dc_recall_timeout : Z; (* nanoseconds *)
  dc_max_delegations_per_client : Z;
  dc_max_delegations_total : Z;
}.
Definition DelegationConfig_default : DelegationConfig :=
  mkDelegationConfig false (5 * nanos_per_sec) 1024 16384.

(** [AuthPolicy]: the flavors accepted, most preferred first. *)
Definition AuthPolicy : Type := list AuthFlavor.
Definition AuthPolicy_sys_and_none : AuthPolicy := [AuthSys; AuthNone].
Definition auth_allows (policy : AuthPolicy) (flavor : Z) : bool :=
  existsb (fun f => AuthFlavor_u32 f =? flavor) policy.

Inductive CallbackError :=
| Cb_NoConnection
| Cb_SendFailed
| Cb_Timeout
| Cb_RpcRejected (stat : AcceptStat)
| Cb_BadReply (e : XdrError).

Record CallbackRequest := mkCallbackRequest {
  cbr_connection_id : Z;
  cbr_cb_program : Z;
  cbr_auth : OpaqueAuth;
  cbr_timeout : Z;
  cbr_args : CbCompound4Args;
}.

(** What does not change while the server runs. *)
Record NfsServer (H B : Type) := mkNfsServer {
  ns_fs : FileSystem H B;
  ns_owner : Z -> bytes;
  ns_group : Z -> bytes;
  ns_delegation_config : DelegationConfig;
  ns_auth_policy : AuthPolicy;
}.
Arguments mkNfsServer {_ _} _ _ _ _ _.
Arguments ns_fs {_ _} _.
Arguments ns_owner {_ _} _ _.
Arguments ns_group {_ _} _ _.
Arguments ns_delegation_config {_ _} _.
Arguments ns_auth_policy {_ _} _.

(** The environment: readings of the monotonic and of the wall clock, the time
    spent sleeping, and the answers of clients to callbacks. *)
Record Env := mkEnv {
  ev_instants : nat -> Z;
  ev_wall : nat -> Z * Z;
  ev_peer : nat -> CallbackRequest -> result CallbackError CbCompound4Res;
}.

(** The shared state. *)
Record Server (H B : Type) `{Countable H} := mkServer {
  sv_state : StateManager;
  sv_fs : B;
  sv_handle_to_object : gmap H Z;
  sv_object_to_handle : gmap Z H;
  sv_next_object_id : Z;
  sv_retired : list (H -> bool);
  sv_connections : gset Z; (* connections with a callback writer *)
  sv_env : Env;
  sv_ticks : nat;
  sv_slept : Z;
}.
Arguments mkServer {_ _ _ _} _ _ _ _ _ _ _ _ _ _.
Arguments sv_state {_ _ _ _} _.
Arguments sv_fs {_ _ _ _} _.
Arguments sv_handle_to_object {_ _ _ _} _.
Arguments sv_object_to_handle {_ _ _ _} _.
Arguments sv_next_object_id {_ _ _ _} _.
Arguments sv_retired {_ _ _ _} _.
Arguments sv_connections {_ _ _ _} _.
Arguments sv_env {_ _ _ _} _.
Arguments sv_ticks {_ _ _ _} _.
Arguments sv_slept {_ _ _ _} _.

Section server.
Context {H B : Type} `{Countable H} {ho : HashOrder} (srv : NfsServer H B).
Local Open Scope proc_scope.
Abbreviation W := (Server H B).

Definition set_sv_state (v : StateManager) (w : W) : W :=
  mkServer v (sv_fs w) (sv_handle_to_object w) (sv_object_to_handle w) (sv_next_object_id w)
    (sv_retired w) (sv_connections w) (sv_env w) (sv_ticks w) (sv_slept w).
Definition set_sv_fs (v : B) (w : W) : W :=
  mkServer (sv_state w) v (sv_handle_to_object w) (sv_object_to_handle w) (sv_next_object_id w)
    (sv_retired w) (sv_connections w) (sv_env w) (sv_ticks w) (sv_slept w).
Definition set_sv_objects (h2o : gmap H Z) (o2h : gmap Z H) (next : Z) (w : W) : W :=
  mkServer (sv_state w) (sv_fs w) h2o o2h next
    (sv_retired w) (sv_connections w) (sv_env w) (sv_ticks w) (sv_slept w).
Definition set_sv_retired (v : list (H -> bool)) (w : W) : W :=
  mkServer (sv_state w) (sv_fs w) (sv_handle_to_object w) (sv_object_to_handle w)
    (sv_next_object_id w) v (sv_connections w) (sv_env w) (sv_ticks w) (sv_slept w).
Definition set_sv_connections (v : gset Z) (w : W) : W :=
  mkServer (sv_state w) (sv_fs w) (sv_handle_to_object w) (sv_object_to_handle w)
    (sv_next_object_id w) (sv_retired w) v (sv_env w) (sv_ticks w) (sv_slept w).
Definition set_sv_slept (v : Z) (w : W) : W :=
  mkServer (sv_state w) (sv_fs w) (sv_handle_to_object w) (sv_object_to_handle w)
    (sv_next_object_id w) (sv_retired w) (sv_connections w) (sv_env w) (sv_ticks w) v.
Definition tick (w : W) : W :=
  mkServer (sv_state w) (sv_fs w) (sv_handle_to_object w) (sv_object_to_handle w)
    (sv_next_object_id w) (sv_retired w) (sv_connections w) (sv_env w) (S (sv_ticks w)) (sv_slept w).

(** ** Steps on the parts of the server *)

(** [Instant::now()] *)
Definition instant (w : W) : Z := ev_instants (sv_env w) (sv_ticks w) + sv_slept w.
(** [SystemTime::now()] *)
Definition wall (w : W) : Z * Z := ev_wall (sv_env w) (sv_ticks w).

Definition state_read {A} (f : StateManager -> A) : proc W A := observe (fun w => f (sv_state w)).
Definition state_op {A} (f : StateManager -> A * StateManager) : proc W A :=
  atomic (fun w => let '(a, s) := f (sv_state w) in (a, set_sv_state s w)).
(** A critical section that reads the clock. *)
Definition timed_op {A} (f : Z -> StateManager -> A * StateManager) : proc W A :=
  atomic (fun w => let '(a, s) := f (instant w) (sv_state w) in (a, tick (set_sv_state s w))).
(** A critical section that reads the wall clock, once or twice. *)
Definition dated_op {A} (f : Z * Z -> StateManager -> A * StateManager) : proc W A :=
  atomic (fun w => let '(a, s) := f (wall w) (sv_state w) in (a, tick (set_sv_state s w))).
Definition dated_op2 {A} (f : Z * Z -> Z * Z -> StateManager -> A * StateManager) : proc W A :=
  atomic (fun w => let '(a, s) := f (wall w) (wall (tick w)) (sv_state w) in
                   (a, tick (tick (set_sv_state s w)))).

(** [self.reap_expired_clients().await] *)
Definition reap : proc W unit := timed_op (fun now s => (tt, reap_expired_clients now s)).

(** A call on the backend. *)
Definition backend {A} (f : fs_op B A) : proc W (result FsError A) :=
  atomic (fun w => let '(r, b) := f (sv_fs w) in (r, set_sv_fs b w)).

(** ** The state manager's asynchronous methods

    Each reaps under one guard and works under the next, as the sources do. *)

Definition st_resolve_stateid (clientid : option Z) (requested : Stateid4)
    (current_stateid : option Stateid4) (mode : CurrentStateidMode)
    : proc W (result NfsStat4 ResolvedStateid) :=
  let* _ := reap in
  match normalize_stateid requested current_stateid mode with
  | Err e => Ret (Err e)
  | Ok Norm_Anonymous => Ret (Ok Resolved_Anonymous)
  | Ok Norm_Bypass => Ret (Ok Resolved_Bypass)
  | Ok (Norm_Concrete stateid) =>
    state_read (fun s => resolve_concrete (sm_inner s) clientid stateid)
  end.

Definition st_validate_open_reclaim (clientid : Z) (claim : OpenClaim4)
    : proc W (result NfsStat4 unit) :=
  let* _ := reap in state_read (fun s => open_reclaim_allowed clientid claim (sm_inner s)).

Definition st_has_conflicting_share_deny (object : ServerObject) (access : Z)
    (ignore : option bytes) : proc W bool :=
  let* _ := reap in state_read (fun s => share_deny_conflict (sm_inner s) object access ignore).

Definition st_has_conflicting_io_lock (object : ServerObject) (owner : option StateOwner4)
    (is_write : bool) (offset length : Z) (ignore : option bytes) : proc W bool :=
  let* _ := reap in
  if length =? 0 then Ret false
  else state_read (fun s => io_lock_conflict (sm_inner s) object owner is_write offset length ignore).

Definition st_find_lock_conflict (object : ServerObject) (owner : StateOwner4)
    (locktype : NfsLockType4) (offset length : Z) (ignore : option Stateid4)
    : proc W (option LockDenied4) :=
  let* _ := reap in
  state_read (fun s => lock_conflict (sm_inner s) object owner locktype offset length ignore).

Definition st_create_open_state (object : ServerObject) (owner : StateOwner4)
    (share_access share_deny : Z) : proc W (result NfsStat4 Stateid4) :=
  let* _ := reap in
  let share_access := Z.land share_access OPEN4_SHARE_ACCESS_BOTH in
  if (share_access =? 0) || negb (Z.land share_deny (u32_not OPEN4_SHARE_DENY_BOTH) =? 0)
  then Ret (Err NFS_Inval)
  else state_op (create_open_state_guarded object owner share_access share_deny).

Definition st_confirm_open_state (stateid : Stateid4) : proc W (result NfsStat4 Stateid4) :=
  let* _ := reap in state_op (confirm_open_state_guarded stateid).
Definition st_close_state (stateid : Stateid4) : proc W (result NfsStat4 CloseOutcome) :=
  let* _ := reap in state_op (close_state_guarded stateid).
Definition st_free_stateid (stateid : Stateid4) : proc W (result NfsStat4 unit) :=
  let* _ := reap in state_op (free_stateid_guarded stateid).
Definition st_test_stateids (stateids : list Stateid4) : proc W (list NfsStat4) :=
  let* _ := reap in state_read (fun s => test_stateid (sm_inner s) <$> stateids).

Definition st_open_downgrade (open_stateid : Stateid4) (share_access share_deny : Z)
    : proc W (result NfsStat4 Stateid4) :=
  let* _ := reap in
  let access_mode := share_access_mode share_access in
  if negb ((access_mode =? OPEN4_SHARE_ACCESS_READ) ||
           (access_mode =? OPEN4_SHARE_ACCESS_WRITE) ||
           (access_mode =? OPEN4_SHARE_ACCESS_BOTH)) then Ret (Err NFS_Inval)
  else if negb ((share_deny =? OPEN4_SHARE_DENY_NONE) ||
                (share_deny =? OPEN4_SHARE_DENY_READ) ||
                (share_deny =? OPEN4_SHARE_DENY_WRITE) ||
                (share_deny =? OPEN4_SHARE_DENY_BOTH)) then Ret (Err NFS_Inval)
  else state_op (open_downgrade_guarded open_stateid access_mode share_deny).

Definition st_create_lock_state (open_stateid : Stateid4) (owner : StateOwner4)
    (object : ServerObject) (locktype : NfsLockType4) (offset length : Z)
    : proc W (result NfsStat4 Stateid4) :=
  let* _ := reap in
  match validate_lock_bounds offset length with
  | Err e => Ret (Err e)
  | Ok _ => state_op (create_lock_state_guarded open_stateid owner object locktype offset length)
  end.

(** A panic of the range merge ends the request's task and leaves the state as it
    was: the entry is replaced only afterwards. *)
Definition st_update_lock_state (lock_stateid : Stateid4) (locktype : NfsLockType4)
    (offset length : Z) : proc W (result NfsStat4 Stateid4) :=
  let* _ := reap in
  match validate_lock_bounds offset length with
  | Err e => Ret (Err e)
  | Ok _ =>
    let* r := state_op (fun s => match update_lock_state_guarded lock_stateid locktype offset length s with
                                 | Some (r, s') => (Some r, s')
                                 | None => (None, s)
                                 end) in
    match r with Some r => Ret r | None => Halt end
  end.

Definition st_unlock_state (lock_stateid : Stateid4) (offset length : Z)
    : proc W (result NfsStat4 Stateid4) :=
  let* _ := reap in
  match validate_lock_bounds offset length with
  | Err e => Ret (Err e)
  | Ok _ => state_op (unlock_state_guarded lock_stateid offset length)
  end.

Definition st_return_delegation_state (stateid : Stateid4) (clientid : option Z)
    : proc W (result NfsStat4 unit) :=
  let* _ := reap in state_op (return_delegation_state_guarded stateid clientid).
Definition st_purge_client_delegations (clientid : Z) : proc W unit :=
  let* _ := reap in
  state_op (fun s => (tt, with_inner (fun i => remove_client_delegations_locked i clientid) s)).
Definition st_grant_directory_delegation (object : ServerObject) (clientid : Z)
    (sessionid : option bytes) (max_per_client max_total : Z)
    : proc W (result NfsStat4 DirectoryDelegationGrant) :=
  let* _ := reap in
  timed_op (grant_directory_delegation_guarded object clientid sessionid max_per_client max_total).
Definition st_begin_directory_recall_excluding (object : ServerObject)
    (excluded_clientid : option Z) : proc W (list DirectoryDelegationRecall) :=
  let* _ := reap in timed_op (begin_directory_recall_guarded object excluded_clientid).
Definition st_revoke_recallable_delegation (stateid : Stateid4) : proc W (result NfsStat4 unit) :=
  let* _ := reap in state_op (revoke_recallable_delegation_guarded stateid).

(** ** The object registry (objects.rs, retirement.rs) *)

(** [RetirementFences::is_retired] *)
Definition fence_matches (fences : list (H -> bool)) (handle : H) : bool :=
  existsb (fun f => f handle) fences.

(** [encode_handle(handle).filter(|e| !e.is_empty() && e.len() <= MAX)] *)
Definition persistent_encoding (handle : H) (b : B) : option bytes :=
  match fs_persistent_handles (ns_fs srv) with
  | None => None
  | Some codec =>
    match ph_encode_handle codec handle b with
    | Some e => if negb (bool_decide (e = [])) && (zlen e <=? MAX_PERSISTENT_HANDLE_LEN)
                then Some e else None
    | None => None
    end
  end.

(** The section under the registration write lock. *)
Definition register_locked (handle : H) (w : W) : result FsError Z * W :=
  match sv_handle_to_object w !! handle with
  | Some id => (Ok id, w)
  | None =>
    if fence_matches (sv_retired w) handle then (Err Fs_Stale, w)
    else
      let id := sv_next_object_id w in
      let w := set_sv_objects (<[handle := id]> (sv_handle_to_object w))
                 (<[id := handle]> (sv_object_to_handle w)) (u64_wrap (id + 1)) w in
      match persistent_encoding handle (sv_fs w) with
      | Some encoded => (Ok id, set_sv_state (record_persistent_fh id encoded (sv_state w)) w)
      | None => (Ok id, w)
      end
  end.

Definition register_handle (handle : H) : proc W (result FsError Z) :=
  let* known := observe (fun w => sv_handle_to_object w !! handle) in
  match known with
  | Some id => Ret (Ok id)
  | None => atomic (register_locked handle)
  end.

Definition object_from_handle (handle : H) : proc W (result FsError ServerObject) :=
  let! id := register_handle handle in Ret (Ok (Fs id)).

Definition root_object : proc W (result FsError ServerObject) :=
  let* root := observe (fun w => fs_root (ns_fs srv) (sv_fs w)) in object_from_handle root.

Definition resolve_backend_handle (object_id : Z) : proc W (result FsError H) :=
  observe (fun w => match sv_object_to_handle w !! object_id with
                    | Some handle => Ok handle
                    | None => Err Fs_BadHandle
                    end).

(** [self.state.object_to_fh(..)], one step; [MintRace] treats its parts. *)
Definition st_object_to_fh (object : ServerObject) : proc W (option bytes) :=
  state_op (object_to_fh object).

Definition persistent_decode_status (e : FsError) : NfsStat4 :=
  match e with
  | Fs_Delay => NFS_Delay
  | Fs_Stale | Fs_NotFound | Fs_BadHandle | Fs_InvalidInput => NFS_Stale
  | other => to_nfsstat4 other
  end.

(** [.map_err(f)] *)
Definition map_err {A E F} (f : E -> F) (m : proc W (result E A)) : proc W (result F A) :=
  let* r := m in Ret (match r with Ok a => Ok a | Err e => Err (f e) end).

Definition decode_persistent_fh (fh : bytes) : proc W (result NfsStat4 ServerObject) :=
  match persistent_fh_body fh, fs_persistent_handles (ns_fs srv) with
  | None, _ | _, None => Ret (Err NFS_Stale)
  | Some body, Some codec =>
    let! handle := map_err persistent_decode_status (backend (ph_decode_handle codec body)) in
    let! id := map_err to_nfsstat4 (register_handle handle) in
    let* minted := st_object_to_fh (Fs id) in
    Ret (if bool_decide (minted = Some fh) then Ok (Fs id) else Err NFS_Stale)
  end.

Definition resolve_object (fh : option bytes) : proc W (result NfsStat4 (bytes * ServerObject)) :=
  match fh with
  | None => Ret (Err NFS_Nofilehandle)
  | Some fh =>
    let* known := state_read (fh_to_object fh) in
    match known with
    | Some object => Ret (Ok (fh, object))
    | None => let! object := decode_persistent_fh fh in Ret (Ok (fh, object))
    end
  end.
End server.
