(* ===== verification/Pool.v ===== *)
(** * Requests running together

    The server runs each RPC message as a task; tasks interleave at their
    [.await] points.  A [proc] is the sequence of the atomic steps of a task, so
    a pool of tasks runs by picking any of them and executing its next step
    ([pool_steps]).

    [good I G clock may m Q w] says of a task [m] whose last step left the server
    in [w]: whatever the other tasks do between the steps of [m], as long as they
    keep [I] and the clock does not go back, each step of [m] is one of [G], [m]
    halts only if [may] holds, and what it returns satisfies [Q].  [pool_induction] turns
    that into facts about every state of the pool.  A step leads to a strict
    part of a task ([substep_wf]), so a task that keeps being scheduled ends. *)

From stdpp Require Import base gmap list sets strings numbers.
From Stdlib Require Import ZArith Lia.
From S2P Require Import Prelude Server.

Local Open Scope Z_scope.

(** ** A logic of steps *)

Section logic.
Context {W : Type} (I : W -> Prop) (G : W -> W -> Prop) (clock : W -> Z) (may : Prop).

Fixpoint good {A} (m : proc W A) (Q : A -> W -> Prop) (w : W) : Prop :=
  match m with
  | Ret a => Q a w
  | Halt => may
  | Step upd k =>
    forall w1, I w1 -> clock w <= clock w1 -> G w1 (upd w1) /\ good (k w1) Q (upd w1)
  end.

(** Wherever it starts. *)
Definition safe {A} (m : proc W A) (Q : A -> Prop) : Prop := forall w, good m (fun a _ => Q a) w.
Definition safe_any {A} (m : proc W A) : Prop := safe m (fun _ => True).

Lemma good_weaken {A} (m : proc W A) (Q Q' : A -> W -> Prop) w :
  good m Q w -> (forall a w', Q a w' -> Q' a w') -> good m Q' w.
Proof.
  intros Hm HQ. revert w Hm. induction m as [a| |upd k IH]; intros w Hm; simpl in *; auto.
  intros w1 Hi Hc. destruct (Hm w1 Hi Hc). auto.
Qed.

Lemma good_clock {A} (m : proc W A) (Q : A -> W -> Prop) w w' :
  (forall a, Q a w -> Q a w') -> clock w <= clock w' -> good m Q w -> good m Q w'.
Proof.
  intros HQ Hc. destruct m as [a| |upd k]; simpl; auto. intros Hm w1 Hi Hc1. apply Hm; [done|lia].
Qed.

Lemma good_bind {A C} (m : proc W A) (f : A -> proc W C) P Q w :
  good m P w -> (forall a w', P a w' -> good (f a) Q w') -> good (proc_bind m f) Q w.
Proof.
  intros Hm Hf. revert w Hm. induction m as [a| |upd k IH]; intros w Hm; simpl in *; auto; try done.
  intros w1 Hi Hc. destruct (Hm w1 Hi Hc). auto.
Qed.

Lemma good_atomic {A} (f : W -> A * W) (Q : A -> W -> Prop) w :
  (forall w1, I w1 -> clock w <= clock w1 -> G w1 (f w1).2 /\ Q (f w1).1 (f w1).2) ->
  good (atomic f) Q w.
Proof. intros H w1 Hi Hc. by apply H. Qed.
Lemma good_observe {A} (f : W -> A) (Q : A -> W -> Prop) w :
  (forall w1, I w1 -> clock w <= clock w1 -> G w1 w1 /\ Q (f w1) w1) -> good (observe f) Q w.
Proof. intros H w1 Hi Hc. by apply H. Qed.

Lemma safe_weaken {A} (m : proc W A) (Q Q' : A -> Prop) :
  safe m Q -> (forall a, Q a -> Q' a) -> safe m Q'.
Proof. intros Hm HQ w. eapply good_weaken; [apply Hm|auto]. Qed.

Lemma safe_bind {A C} (m : proc W A) (f : A -> proc W C) P Q :
  safe m P -> (forall a, P a -> safe (f a) Q) -> safe (proc_bind m f) Q.
Proof. intros Hm Hf w. eapply good_bind; [apply Hm|]. intros a w' Ha. by apply Hf. Qed.

Lemma safe_any_bind {A C} (m : proc W A) (f : A -> proc W C) Q :
  safe_any m -> (forall a, safe (f a) Q) -> safe (proc_bind m f) Q.
Proof. intros Hm Hf. eapply safe_bind; [exact Hm|]. intros a _. apply Hf. Qed.

Lemma safe_any_of {A} (m : proc W A) Q : safe m Q -> safe_any m.
Proof. intros Hm. by eapply safe_weaken. Qed.

Lemma safe_ret {A} (a : A) (Q : A -> Prop) : Q a -> safe (Ret a) Q.
Proof. by intros Ha w. Qed.

Lemma safe_bind_ok {E A C} (m : proc W (result E A)) (f : A -> proc W (result E C))
    (Q : result E C -> Prop) :
  safe_any m -> (forall e, Q (Err e)) -> (forall a, safe (f a) Q) -> safe (bind_ok m f) Q.
Proof. intros Hm He Hf. apply safe_any_bind; [done|]. intros []; [done|by apply safe_ret]. Qed.
Lemma safe_bind_or {E A C} (m : proc W (result E A)) (g : E -> C) (f : A -> proc W C)
    (Q : C -> Prop) :
  safe_any m -> (forall e, Q (g e)) -> (forall a, safe (f a) Q) -> safe (bind_or m g f) Q.
Proof. intros Hm He Hf. apply safe_any_bind; [done|]. intros []; [done|by apply safe_ret]. Qed.

Lemma safe_for_each {X S} (l : list X) (body : X -> S -> proc W S) s :
  (forall x s, safe_any (body x s)) -> safe_any (for_each l body s).
Proof.
  intros Hb. revert s. induction l as [|x l IH]; intros s; simpl; [by apply safe_ret|].
  by apply safe_any_bind.
Qed.

Lemma safe_atomic {A} (f : W -> A * W) (Q : A -> Prop) :
  (forall w, I w -> G w (f w).2 /\ Q (f w).1) -> safe (atomic f) Q.
Proof. intros H w. apply good_atomic. intros w1 Hi _. by apply H. Qed.
Lemma safe_observe {A} (f : W -> A) (Q : A -> Prop) :
  (forall w, I w -> G w w /\ Q (f w)) -> safe (observe f) Q.
Proof. intros H w. apply good_observe. intros w1 Hi _. by apply H. Qed.

(** [unfolds m w m' w']: [m] was left at [w]; after some of its steps, with other
    tasks keeping [I] and the clock in between, [m'] is left of it, at [w']. *)
Inductive unfolds {A} (m : proc W A) (w : W) : proc W A -> W -> Prop :=
| unfolds_none : unfolds m w m w
| unfolds_step upd k w1 w2 :
    unfolds m w (Step upd k) w1 -> I w2 -> clock w1 <= clock w2 -> unfolds m w (k w2) (upd w2).

Lemma good_unfolds {A} (m : proc W A) Q w m' w' :
  good m Q w -> unfolds m w m' w' -> good m' Q w'.
Proof.
  intros Hg Hu. induction Hu as [|upd k w1 w2 Hu IH Hi Hc]; [done|]. by apply (IH w2 Hi Hc).
Qed.
End logic.

(** ** Pools *)

Section pool.
Context {W R T : Type} (task : T -> proc W R -> Prop).

(** A running task, under the label it was started with. *)
Definition thread : Type := T * proc W R.

(** [pool_steps n]: any number of tasks were started and [n] steps were taken. *)
Inductive pool_steps : nat -> list thread * W -> list thread * W -> Prop :=
| pool_done p : pool_steps 0 p p
| pool_start n p t m ts w :
    pool_steps n p (ts, w) -> task t m -> pool_steps n p ((t, m) :: ts, w)
| pool_next n p ts1 t upd k ts2 w :
    pool_steps n p (ts1 ++ (t, Step upd k) :: ts2, w) ->
    pool_steps (S n) p (ts1 ++ (t, k w) :: ts2, upd w).

(** A thread that was good when it last ran. *)
Definition waits (I : W -> Prop) (G : W -> W -> Prop) (clock : W -> Z) (may : T -> Prop)
    (Q : T -> R -> Prop) (w : W) (th : thread) : Prop :=
  exists w0, clock w0 <= clock w /\ good I G clock (may th.1) th.2 (fun r _ => Q th.1 r) w0.

(** Every state of the pool satisfies what its steps, each within [G], keep, and
    every task of it is good. *)
Lemma pool_induction (I : W -> Prop) (G : W -> W -> Prop) (clock : W -> Z) (may : T -> Prop)
    (Q : T -> R -> Prop) (J : nat -> W -> Prop) N :
  (forall t m, task t m -> safe I G clock (may t) m (Q t)) ->
  (forall w w', I w -> G w w' -> clock w <= clock w') ->
  (forall n w, J n w -> I w) ->
  (forall n w w', (S n < N)%nat -> J n w -> G w w' -> J (S n) w') ->
  forall n m ts w ts' w', (m + n < N)%nat ->
    J m w -> Forall (waits I G clock may Q w) ts -> pool_steps n (ts, w) (ts', w') ->
    J (m + n)%nat w' /\ Forall (waits I G clock may Q w') ts'.
Proof.
  intros Ht Hc HI HG n m ts w ts' w' Hn HJ Hts Hp.
  remember (ts, w) as p eqn:Ep. remember (ts', w') as q eqn:Eq. revert ts' w' Eq.
  induction Hp as [p|n p t mm ts0 w0 Hp IH Hm|n p ts1 t upd k ts2 w0 Hp IH]; intros ts' w' Eq; subst p.
  - injection Eq as <- <-. by rewrite Nat.add_0_r.
  - injection Eq as <- <-. destruct (IH ltac:(lia) eq_refl _ _ eq_refl) as [HJ' Hts'].
    split; [done|]. constructor; [|done]. exists w0. split; [lia|]. by apply Ht.
  - injection Eq as <- <-. destruct (IH ltac:(lia) eq_refl _ _ eq_refl) as [HJ' Hts'].
    apply Forall_app in Hts' as [H1 H2]. apply Forall_cons_1 in H2 as [(wt & Hle & Hs) H2].
    destruct (Hs w0 (HI _ _ HJ') Hle) as [Hg Hk].
    pose proof (Hc _ _ (HI _ _ HJ') Hg) as Hclk.
    assert (Hmono : forall th, waits I G clock may Q w0 th -> waits I G clock may Q (upd w0) th).
    { intros th (w1 & Hw & Hgood). exists w1. split; [lia|done]. }
    split; [rewrite Nat.add_succ_r; apply (HG _ w0); [lia|done|done]|].
    apply Forall_app. split; [by eapply Forall_impl|]. constructor; [|by eapply Forall_impl].
    exists (upd w0). split; [lia|done].
Qed.

(** A task that runs undisturbed, to its end. *)
Fixpoint run_steps (m : proc W R) (w : W) : nat :=
  match m with
  | Step upd k => S (run_steps (k w) (upd w))
  | _ => 0%nat
  end.
Definition finished (r : option R) : proc W R :=
  match r with Some u => Ret u | None => Halt end.

Lemma pool_run_alone n p t m ts w :
  pool_steps n p ((t, m) :: ts, w) ->
  pool_steps (run_steps m w + n) p ((t, finished (run m w).1) :: ts, (run m w).2).
Proof.
  revert n w. induction m as [u| |upd k IH]; intros n w Hp; simpl; [done..|].
  replace (S (run_steps (k w) (upd w) + n)) with (run_steps (k w) (upd w) + S n)%nat by lia.
  apply IH. by apply (pool_next n p [] t upd k ts w).
Qed.

(** A step leads to a strict part of the task: no task takes infinitely many. *)
Inductive substep : proc W R -> proc W R -> Prop :=
| substep_intro upd k w : substep (k w) (Step upd k).

Lemma substep_wf : well_founded substep.
Proof.
  intros m. induction m as [r| |upd k IH]; constructor; intros m' Hm'; inversion Hm'; subst; apply IH.
Qed.
End pool.
