(* ===== verification/ServerFs.v ===== *)
(** * The server in front of its backend (crates/embednfs/src/server/mod.rs,
      file_attrs.rs)

    Object ids instead of backend handles, the authorization gate, attributes of
    objects as the protocol reports them, and the named attributes of an object
    presented as files. *)

From stdpp Require Import base gmap list sets strings numbers.
From Stdlib Require Import ZArith Lia.
From S2P Require Import Prelude Xdr Rpc Types Constants StateModel Operations Codec FsApi Metadata.
From S2P Require Import Stateids Filehandles AttrCodec Server.

Local Open Scope Z_scope.
Local Open Scope proc_scope.

Section serverfs.
Context {H B : Type} `{Countable H} {ho : HashOrder} (srv : NfsServer H B).
Abbreviation W := (Server H B).
Abbreviation fs := (ns_fs srv).

(** ** Backend calls by object id *)

Definition capabilities : proc W FsCapabilities :=
  observe (fun w => fs_capabilities fs (sv_fs w)).
Definition limits : proc W FsLimits := observe (fun w => fs_limits fs (sv_fs w)).

Definition statfs (ctx : RequestContext) (id : Z) : proc W (result FsError FsStats) :=
  let! handle := resolve_backend_handle id in backend (fs_statfs fs ctx handle).

Definition statfs_for_object (ctx : RequestContext) (object : ServerObject)
    : proc W (result FsError FsStats) :=
  match object with
  | Fs id | NamedAttrDir id | NamedAttrFile id _ => statfs ctx id
  end.

Definition getattr (ctx : RequestContext) (id : Z) : proc W (result FsError Attrs) :=
  let! handle := resolve_backend_handle id in backend (fs_getattr fs ctx handle).

Definition kind_of (ctx : RequestContext) (id : Z) : proc W (result FsError ObjectType) :=
  let! attrs := getattr ctx id in Ret (Ok (at_object_type attrs)).

Definition access_for (ctx : RequestContext) (id requested : Z) : proc W (result FsError Z) :=
  let! handle := resolve_backend_handle id in backend (fs_access fs ctx handle requested).

Definition require_access (ctx : RequestContext) (id need : Z) : proc W (result NfsStat4 unit) :=
  let* r := access_for ctx id need in
  Ret (match r with
       | Ok granted => if mask_contains granted need then Ok tt else Err NFS_Access
       | Err e => Err (to_nfsstat4 e)
       end).

Definition lookup (ctx : RequestContext) (dir_id : Z) (name : bytes) : proc W (result FsError Z) :=
  let! handle := resolve_backend_handle dir_id in
  let! child := backend (fs_lookup fs ctx handle name) in
  register_handle srv child.

Definition lookup_parent (ctx : RequestContext) (dir_id : Z) : proc W (result FsError Z) :=
  let! handle := resolve_backend_handle dir_id in
  let! parent := backend (fs_parent fs ctx handle) in
  match parent with
  | Some handle => register_handle srv handle
  | None => Ret (Err Fs_NotFound)
  end.

Definition read (ctx : RequestContext) (id offset count : Z)
    : proc W (result FsError (bytes * bool)) :=
  let! handle := resolve_backend_handle id in
  let! res := backend (fs_read fs ctx handle offset count) in
  Ret (Ok (rr_data res, rr_eof res)).

Definition write (ctx : RequestContext) (id offset : Z) (data : bytes)
    (requested : WriteStability) : proc W (result FsError WriteResult) :=
  let! handle := resolve_backend_handle id in
  backend (fs_write fs ctx handle offset data requested).

Definition create_kind (kind : CreateKind) (ctx : RequestContext) (dir_id : Z) (name : bytes)
    (attrs : SetAttrs) : proc W (result FsError (CreateResult Z)) :=
  let! handle := resolve_backend_handle dir_id in
  let! created := backend (fs_create fs ctx handle name (mkCreateRequest kind attrs)) in
  let! id := register_handle srv (cres_handle created) in
  Ret (Ok (mkCreateResult id (cres_attrs created))).
Definition create_file := create_kind CK_File.
Definition create_dir := create_kind CK_Directory.

Definition remove (ctx : RequestContext) (dir_id : Z) (name : bytes) : proc W (result FsError unit) :=
  let! handle := resolve_backend_handle dir_id in backend (fs_remove fs ctx handle name).

Definition rename (ctx : RequestContext) (from_dir : Z) (from_name : bytes) (to_dir : Z)
    (to_name : bytes) : proc W (result FsError unit) :=
  let! from_handle := resolve_backend_handle from_dir in
  let! to_handle := resolve_backend_handle to_dir in
  backend (fs_rename fs ctx from_handle from_name to_handle to_name).

(** A retired child is left out. *)
Definition register_entry (entry : DirEntry H) (entries : list (DirEntry Z))
    : proc W (list (DirEntry Z)) :=
  let* r := register_handle srv (de_handle entry) in
  Ret (match r with
       | Ok id => entries ++ [mkDirEntry (de_name entry) id (de_cookie entry) (de_attrs entry)]
       | Err _ => entries
       end).

Definition readdir (ctx : RequestContext) (dir_id cookie max_entries : Z) (with_attrs : bool)
    : proc W (result FsError (DirPage Z)) :=
  let! handle := resolve_backend_handle dir_id in
  let! page := backend (fs_readdir fs ctx handle cookie max_entries with_attrs) in
  let* entries := for_each (dp_entries page) register_entry [] in
  Ret (Ok (mkDirPage entries (dp_eof page))).

Definition setattr_real (ctx : RequestContext) (id : Z) (attrs : SetAttrs)
    : proc W (result FsError Attrs) :=
  let! handle := resolve_backend_handle id in backend (fs_setattr fs ctx handle attrs).

(** ** Access bits *)

(** [if bits & from != 0 { out |= to }] *)
Definition or_if (b : bool) (bits out : Z) : Z := if b then Z.lor out bits else out.

Definition nfs_access_mask (bits : Z) : Z :=
  let has m := negb (Z.land bits m =? 0) in
  let out := AccessMask_NONE in
  let out := or_if (has ACCESS4_READ) AccessMask_READ out in
  let out := or_if (has ACCESS4_LOOKUP) AccessMask_LOOKUP out in
  let out := or_if (has ACCESS4_MODIFY) AccessMask_MODIFY out in
  let out := or_if (has ACCESS4_EXTEND) AccessMask_EXTEND out in
  let out := or_if (has ACCESS4_DELETE) AccessMask_DELETE out in
  let out := or_if (has ACCESS4_EXECUTE) AccessMask_EXECUTE out in
  let out := or_if (has ACCESS4_XAREAD) AccessMask_XATTR_READ out in
  let out := or_if (has ACCESS4_XAWRITE) AccessMask_XATTR_WRITE out in
  or_if (has ACCESS4_XALIST) AccessMask_XATTR_LIST out.

Definition access_bits (mask : Z) : Z :=
  let out := 0 in
  let out := or_if (mask_intersects mask AccessMask_READ) ACCESS4_READ out in
  let out := or_if (mask_intersects mask AccessMask_LOOKUP) ACCESS4_LOOKUP out in
  let out := or_if (mask_intersects mask AccessMask_MODIFY) ACCESS4_MODIFY out in
  let out := or_if (mask_intersects mask AccessMask_EXTEND) ACCESS4_EXTEND out in
  let out := or_if (mask_intersects mask AccessMask_DELETE) ACCESS4_DELETE out in
  let out := or_if (mask_intersects mask AccessMask_EXECUTE) ACCESS4_EXECUTE out in
  let out := or_if (mask_intersects mask AccessMask_XATTR_READ) ACCESS4_XAREAD out in
  let out := or_if (mask_intersects mask AccessMask_XATTR_WRITE) ACCESS4_XAWRITE out in
  or_if (mask_intersects mask AccessMask_XATTR_LIST) ACCESS4_XALIST out.

Definition committed_how (stability : WriteStability) : Z :=
  match stability with
  | Unstable => UNSTABLE4
  | DataSync => DATA_SYNC4
  | FileSync => FILE_SYNC4
  end.

Definition valid_component_name (max_name_bytes : Z) (name : bytes) : result NfsStat4 unit :=
  if bool_decide (name = []) then Err NFS_Inval
  else if bool_decide (name = str_bytes ".") || bool_decide (name = str_bytes "..")
  then Err NFS_Badname
  else if existsb (Z.eqb 47) name then Err NFS_Badchar
  else if max_name_bytes <? zlen name then Err NFS_Nametoolong
  else Ok tt.
Definition validate_component_name (name : bytes) : proc W (result NfsStat4 unit) :=
  let* l := limits in Ret (valid_component_name (fl_max_name_bytes l) name).

(** [fh_has_valid_format] *)
Definition fh_has_valid_format (fh : bytes) : bool :=
  bool_decide (length fh = FH_LEN) || negb (bool_decide (persistent_fh_body fh = None)).

Definition secinfo_flavors : list SecinfoEntry4 :=
  (fun flavor => mkSecinfoEntry4 (AuthFlavor_u32 flavor)) <$> ns_auth_policy srv.

(** ** Attributes (file_attrs.rs) *)

Definition encode_fattr (ctx : RequestContext) (attr : ServerFileAttr) (request : Bitmap4)
    (fh : bytes) (minorversion : Z) : proc W (result FsError Fattr4) :=
  let! object := state_read (fun s => match fh_to_object fh s with
                                      | Some o => Ok o
                                      | None => Err Fs_Stale
                                      end) in
  let! stats := (if request_needs_fs_stats request
                 then let! st := statfs_for_object ctx object in Ret (Ok (Some st))
                 else Ret (Ok None)) in
  let* limits := limits in
  let* capabilities := capabilities in
  Ret (Ok (encode_fattr4 attr request fh
             (mkAttrEncodingContext limits stats capabilities minorversion))).

Definition attr_from_meta (meta : SynthMeta) (file_type : ServerFileType) (size : Z)
    (has_named_attrs : bool) (parent_attrs : Attrs) : ServerFileAttr :=
  mkServerFileAttr (at_fsid parent_attrs) (me_fileid meta) file_type size size (me_mode meta)
    (me_nlink meta) (me_owner meta) (me_owner_group meta) (me_atime_sec meta) (me_atime_nsec meta)
    (me_mtime_sec meta) (me_mtime_nsec meta) (me_ctime_sec meta) (me_ctime_nsec meta)
    (me_crtime_sec meta) (me_crtime_nsec meta) (me_change_id meta) 0 0
    (me_archive meta) (me_hidden meta) (me_system meta) has_named_attrs.

Definition attr_from_backend (attrs : Attrs) : ServerFileAttr :=
  mkServerFileAttr (at_fsid attrs) (at_fileid attrs) (from_attrs attrs) (at_size attrs)
    (at_space_used attrs) (at_mode attrs) (at_link_count attrs)
    (ns_owner srv (at_uid attrs)) (ns_group srv (at_gid attrs))
    (ts_seconds (at_atime attrs)) (ts_nanos (at_atime attrs))
    (ts_seconds (at_mtime attrs)) (ts_nanos (at_mtime attrs))
    (ts_seconds (at_ctime attrs)) (ts_nanos (at_ctime attrs))
    (ts_seconds (at_birthtime attrs)) (ts_nanos (at_birthtime attrs))
    (at_change attrs) 0 0 (at_archive attrs) (at_hidden attrs) (at_system attrs)
    (at_has_named_attrs attrs).

(** [self.named_attrs().ok_or(FsError::Unsupported)] *)
Definition named_attrs_or : result FsError (Xattrs H B) :=
  match fs_xattrs fs with Some named => Ok named | None => Err Fs_Unsupported end.

Definition xattr_count (ctx : RequestContext) (parent : Z) : proc W (result FsError Z) :=
  let! parent_handle := resolve_backend_handle parent in
  let! named := Ret named_attrs_or in
  let! names := backend (xa_list_xattrs named ctx parent_handle) in
  Ret (Ok (zlen names)).

Definition st_set_named_attr_count (object : ServerObject) (ft : ServerFileType) (count : Z)
    : proc W unit :=
  dated_op (fun now s => (tt, set_named_attr_count object ft count now s)).
Definition st_ensure_meta (object : ServerObject) (ft : ServerFileType) : proc W SynthMeta :=
  dated_op (ensure_meta object ft).
Definition st_touch_data (object : ServerObject) (ft : ServerFileType) : proc W unit :=
  dated_op2 (fun now now' s => (tt, touch_data object ft now now' s)).
Definition st_touch_metadata (object : ServerObject) (ft : ServerFileType) : proc W unit :=
  dated_op2 (fun now now' s => (tt, touch_metadata object ft now now' s)).
Definition st_apply_setattr (object : ServerObject) (ft : ServerFileType) (attrs : SetAttrs)
    : proc W unit :=
  dated_op2 (fun now now' s => (tt, apply_setattr object ft attrs now now' s)).

Definition named_attr_dir_count (ctx : RequestContext) (object : ServerObject) (parent : Z)
    : proc W (result FsError Z) :=
  let* known := state_read (fun s => named_attr_count object (sm_inner s)) in
  match known with
  | Some count => Ret (Ok count)
  | None =>
    let! count := xattr_count ctx parent in
    let* _ := st_set_named_attr_count object FT_NamedAttrDir count in
    Ret (Ok count)
  end.

Definition build_attr (ctx : RequestContext) (object : ServerObject)
    : proc W (result FsError ServerFileAttr) :=
  match object with
  | Fs id => let! attrs := getattr ctx id in Ret (Ok (attr_from_backend attrs))
  | NamedAttrDir parent =>
    let! _ := Ret named_attrs_or in
    let! count := named_attr_dir_count ctx object parent in
    let! parent_attrs := getattr ctx parent in
    let* meta := st_ensure_meta object FT_NamedAttrDir in
    Ret (Ok (attr_from_meta meta FT_NamedAttrDir count false parent_attrs))
  | NamedAttrFile parent name =>
    let! parent_attrs := getattr ctx parent in
    let! parent_handle := resolve_backend_handle parent in
    let! named := Ret named_attrs_or in
    let! value := backend (xa_get_xattr named ctx parent_handle name) in
    let* meta := st_ensure_meta object FT_NamedAttr in
    Ret (Ok (attr_from_meta meta FT_NamedAttr (zlen value) false parent_attrs))
  end.

Definition create_mode_requires_nonexistence (how : Createhow4) : bool :=
  match how with Ch_Unchecked _ => false | _ => true end.
Definition open_set_mode (how : Createhow4) : XattrSetMode :=
  match how with Ch_Unchecked _ => CreateOrReplace | _ => CreateOnly end.

(** ** Named attributes as files *)

Definition slice_value (value : bytes) (offset count : Z) : bytes * bool :=
  if zlen value <=? offset then ([], true)
  else
    let stop := Z.min (offset + count) (zlen value) in
    (take (Z.to_nat (stop - offset)) (drop (Z.to_nat offset) value), stop =? zlen value).

(** A 64-bit [usize] holds every [u64] offset. *)
Definition xattr_read_slice (ctx : RequestContext) (parent : Z) (name : bytes) (offset count : Z)
    : proc W (result FsError (bytes * bool)) :=
  let! parent_handle := resolve_backend_handle parent in
  let! named := Ret named_attrs_or in
  let! value := backend (xa_get_xattr named ctx parent_handle name) in
  Ret (Ok (slice_value value offset count)).

(** [isize::MAX]: no [Vec] of bytes grows beyond it. *)
Definition isize_max : Z := 9223372036854775807.

(** [Vec::resize(size, 0)]; [None] is the panic "capacity overflow".  Memory for
    smaller sizes is taken to be there. *)
Definition vec_resize (size : Z) (value : bytes) : option bytes :=
  if (zlen value <? size) && (isize_max <? size) then None
  else Some (take (Z.to_nat size) value ++ zeros (size - zlen value)).

Definition xattr_resize (ctx : RequestContext) (parent : Z) (name : bytes) (size : Z)
    : proc W (result FsError unit) :=
  let! parent_handle := resolve_backend_handle parent in
  let! named := Ret named_attrs_or in
  let! value := backend (xa_get_xattr named ctx parent_handle name) in
  let* value := or_panic (vec_resize size value) in
  backend (xa_set_xattr named ctx parent_handle name value CreateOrReplace).

(** The value is grown to [end], then [value[offset..end].copy_from_slice(data)]. *)
Definition splice_value (value : bytes) (offset : Z) (data : bytes) : option bytes :=
  let stop := offset + zlen data in
  value ← (if zlen value <? stop then vec_resize stop value else Some value);
  Some (take (Z.to_nat offset) value ++ data ++ drop (Z.to_nat stop) value).

Definition xattr_write (ctx : RequestContext) (parent : Z) (name : bytes) (offset : Z)
    (data : bytes) : proc W (result FsError Z) :=
  let! parent_handle := resolve_backend_handle parent in
  let! named := Ret named_attrs_or in
  let! value := backend (xa_get_xattr named ctx parent_handle name) in
  if u64_max <? offset + zlen data then Ret (Err Fs_FileTooLarge)
  else
    let* value := or_panic (splice_value value offset data) in
    let! _ := backend (xa_set_xattr named ctx parent_handle name value CreateOrReplace) in
    Ret (Ok (u32_wrap (zlen data))).

Definition refresh_xattr_summary (ctx : RequestContext) (parent : Z) : proc W (result FsError Z) :=
  let! count := xattr_count ctx parent in
  let* _ := st_set_named_attr_count (NamedAttrDir parent) FT_NamedAttrDir count in
  Ret (Ok count).

(** Its result is dropped. *)
Definition parent_change_after_xattr_mutation (ctx : RequestContext) (parent : Z) : proc W unit :=
  let* _ := getattr ctx parent in Ret tt.

Definition synthetic_change_info (before : Z) : ChangeInfo4 :=
  mkChangeInfo4 false before (u64_wrap (before + 1)).

Definition mutation_change_info (ctx : RequestContext) (object : ServerObject) (before : Z)
    : proc W ChangeInfo4 :=
  let* r := build_attr ctx object in
  Ret (match r with
       | Ok attr => mkChangeInfo4 true before (sf_change_id attr)
       | Err _ => synthetic_change_info before
       end).
End serverfs.
