(* ===== verification/OpsDelegation.v ===== *)
(** * Directory delegations at the server (crates/embednfs/src/server/ops/delegation.rs)

    GET_DIR_DELEGATION, the recall of delegations before a directory changes,
    and the withdrawal of part of an export ([retire_handles]).  A recall sends
    a callback per delegation and then polls until the delegations are returned
    or the recall timeout has passed; [wait_fuel] polls are enough for that
    ([recall_terminates]). *)

From stdpp Require Import base gmap list sets strings numbers.
From Stdlib Require Import ZArith Lia.
From S2P Require Import Prelude Xdr Rpc Types Constants StateModel Operations Codec FsApi Metadata.
From S2P Require Import DelegTable Clients Stateids Delegations Filehandles Invalidate AttrCodec.
From S2P Require Import Server ServerFs.

Local Open Scope Z_scope.
Local Open Scope proc_scope.

Section delegation.
Context {H B : Type} `{Countable H} {ho : HashOrder} (srv : NfsServer H B).
Abbreviation W := (Server H B).
Abbreviation config := (ns_delegation_config srv).

Definition has_connection (connection_id : Z) (w : W) : bool :=
  bool_decide (connection_id ∈ sv_connections w).

(** Each connection is asked for as it comes. *)
Fixpoint any_connection (ids : list Z) : proc W bool :=
  match ids with
  | [] => Ret false
  | connection_id :: ids =>
    let* up := observe (has_connection connection_id) in
    if up then Ret true else any_connection ids
  end.

Definition has_callback_path (clientid : Z) : proc W bool :=
  let* ids := state_read (callback_connection_ids clientid) in any_connection ids.

Fixpoint first_callback_target (clientid : Z) (ids : list Z) : proc W (option CallbackTarget) :=
  match ids with
  | [] => Ret None
  | connection_id :: ids =>
    let* up := observe (has_connection connection_id) in
    if up then
      let* target := state_op (next_callback_target_on clientid connection_id) in
      match target with
      | Some target => Ret (Some target)
      | None => first_callback_target clientid ids
      end
    else first_callback_target clientid ids
  end.

Definition next_callback_target (clientid : Z) : proc W (option CallbackTarget) :=
  let* ids := state_read (callback_connection_ids clientid) in first_callback_target clientid ids.

Definition callback_error_status (error : CallbackError) : NfsStat4 :=
  match error with
  | Cb_Timeout => NFS_Delay
  | Cb_NoConnection | Cb_SendFailed | Cb_RpcRejected _ | Cb_BadReply _ => NFS_CbPathDown
  end.

Fixpoint validate_recall_ops (ops : list NfsCbResop4) (saw_recall : bool) : result NfsStat4 unit :=
  match ops with
  | [] => if saw_recall then Ok tt else Err NFS_Serverfault
  | CbRes_Sequence status _ :: ops =>
    if decide (status = NFS_Ok) then validate_recall_ops ops saw_recall else Err status
  | CbRes_Recall status :: ops =>
    if decide (status = NFS_Ok) then validate_recall_ops ops true else Err status
  end.
Definition validate_recall_response (response : CbCompound4Res) : result NfsStat4 unit :=
  if decide (ccr_status response = NFS_Ok) then validate_recall_ops (ccr_resarray response) false
  else Err (ccr_status response).

(** The answer of the client, or the failure of the channel. *)
Definition send_callback (request : CallbackRequest) : proc W (result CallbackError CbCompound4Res) :=
  atomic (fun w => (ev_peer (sv_env w) (sv_ticks w) request, tick w)).

Definition recall_args (target : CallbackTarget) (stateid : Stateid4) (fh : bytes)
    : CbCompound4Args :=
  mkCbCompound4Args (str_bytes "recall") 1 0
    [CbArg_Sequence (mkCbSequenceArgs4 (ct_sessionid target) (ct_sequenceid target) 0
                       (ct_highest_slotid target) false);
     CbArg_Recall (mkCbRecallArgs4 stateid false fh)].

Definition send_directory_recall (recall : DirectoryDelegationRecall) (fh : bytes)
    : proc W (result NfsStat4 unit) :=
  let* target := next_callback_target (dr_clientid recall) in
  match target with
  | None => Ret (Err NFS_CbPathDown)
  | Some target =>
    let! response := map_err callback_error_status
      (send_callback (mkCallbackRequest (ct_connection_id target) (ct_cb_program target)
         (ct_auth target) (dc_recall_timeout config)
         (recall_args target (dr_stateid recall) fh))) in
    Ret (validate_recall_response response)
  end.

(** ** Waiting for the delegations to come back *)

Definition poll_interval : Z := 10000000. (* 10 ms *)

(** [sleep(d).await] takes at least [d]; the tape of instants has the rest. *)
Definition sleep (d : Z) : proc W unit :=
  atomic (fun w => (tt, set_sv_slept (sv_slept w + Z.max 0 d) w)).
Definition now_instant : proc W Z := atomic (fun w => (instant w, tick w)).

Definition still_outstanding (stateid : Stateid4) (remaining : list Stateid4)
    : proc W (list Stateid4) :=
  let* complete := state_read (fun s => delegation_recall_complete stateid (sm_inner s)) in
  Ret (if complete : bool then remaining else remaining ++ [stateid]).

Definition revoke_late (stateid : Stateid4) (_ : unit) : proc W unit :=
  let* _ := st_revoke_recallable_delegation stateid in Ret tt.

Fixpoint wait_loop (fuel : nat) (deadline : Z) (outstanding : list Stateid4)
    : proc W (result NfsStat4 unit) :=
  match fuel with
  | O => Halt
  | S fuel =>
    let* remaining := for_each outstanding still_outstanding [] in
    match remaining with
    | [] => Ret (Ok tt)
    | _ =>
      let* now := now_instant in
      if deadline <=? now then
        let* _ := for_each remaining revoke_late tt in Ret (Ok tt)
      else
        let* now := now_instant in
        let* _ := sleep (Z.min poll_interval (Z.max 0 (deadline - now))) in
        wait_loop fuel deadline remaining
    end
  end.

Definition wait_fuel (timeout : Z) : nat := Z.to_nat (timeout / poll_interval) + 2.

Definition wait_for_recalled_delegations (recalls : list DirectoryDelegationRecall)
    : proc W (result NfsStat4 unit) :=
  let* start := now_instant in
  wait_loop (wait_fuel (dc_recall_timeout config)) (start + dc_recall_timeout config)
    (dr_stateid <$> recalls).

(** ** Recalls *)

Definition recall_and_revoke (fh : bytes) (recall : DirectoryDelegationRecall) (_ : unit)
    : proc W unit :=
  if dr_send_callback recall then
    let* r := send_directory_recall recall fh in
    match r with
    | Ok _ => Ret tt
    | Err _ => let* _ := st_revoke_recallable_delegation (dr_stateid recall) in Ret tt
    end
  else Ret tt.

Definition recall_directory_delegations (object : ServerObject) (excluded_clientid : option Z)
    : proc W (result NfsStat4 unit) :=
  if negb (dc_directory_delegations config) then Ret (Ok tt)
  else
    let* recalls := st_begin_directory_recall_excluding object excluded_clientid in
    match recalls with
    | [] => Ret (Ok tt)
    | _ =>
      let* fh := st_object_to_fh object in
      match fh with
      | None => Ret (Ok tt)
      | Some fh =>
        let* _ := for_each recalls (recall_and_revoke fh) tt in
        wait_for_recalled_delegations recalls
      end
    end.

Definition recall_status_to_fs_error (status : NfsStat4) : FsError :=
  match status with
  | NFS_Access => Fs_AccessDenied
  | NFS_Perm => Fs_PermissionDenied
  | NFS_Badhandle | NFS_Stale => Fs_Stale
  | NFS_Notsupp => Fs_Unsupported
  | NFS_Delay | NFS_CbPathDown => Fs_Io
  | _ => Fs_ServerFault
  end.

Definition recall_directory (handle : H) : proc W (result FsError unit) :=
  let* id := observe (fun w => sv_handle_to_object w !! handle) in
  match id with
  | None => Ret (Ok tt)
  | Some object_id =>
    map_err recall_status_to_fs_error (recall_directory_delegations (Fs object_id) None)
  end.

Definition recall_write_delegations (scope : H -> bool) : proc W (result FsError Z) :=
  let* scoped := observe (fun w : W =>
    list_to_set ((fun kv : H * Z => Fs kv.2) <$>
      List.filter (fun kv => scope kv.1) (hm_iter (sv_handle_to_object w))) : gset ServerObject) in
  if bool_decide (scoped = ∅) then Ret (Ok 0)
  else
    let* outstanding := state_read (fun s => write_delegations_over scoped (sm_inner s)) in
    match outstanding with
    | [] => Ret (Ok 0)
    | _ => Ret (Err Fs_Unsupported)
    end.

(** ** Withdrawing part of the export *)

(** Fence, snapshot and unmap, under the registration lock. *)
Definition retire_locked (retired : H -> bool) (w : W) : list (H * Z) * W :=
  let w := set_sv_retired (sv_retired w ++ [retired]) w in
  let matched := List.filter (fun kv : H * Z => retired kv.1) (hm_iter (sv_handle_to_object w)) in
  (matched,
   set_sv_objects (foldl (fun m kv => delete kv.1 m) (sv_handle_to_object w) matched)
     (foldl (fun m kv => delete kv.2 m) (sv_object_to_handle w) matched)
     (sv_next_object_id w) w).

Definition recall_retired (matched : H * Z) (_ : unit) : proc W unit :=
  let* _ := recall_directory_delegations (Fs matched.2) None in Ret tt.

(** The parts of [invalidate_objects] take different locks. *)
Definition st_invalidate_objects (ids : gset Z) : proc W InvalidationCounts :=
  if bool_decide (ids = ∅) then Ret counts_zero
  else
    let* _ := state_op (fun s => (tt, mark_retired ids s)) in
    let* filehandles := state_op (fun s => (zlen (stale_mappings ids s), sweep_filehandles ids s)) in
    state_op (fun s =>
      let '(inner, c) := sweep_state ids (sm_inner s) in
      (mkInvalidationCounts filehandles (ic_opens c) (ic_locks c) (ic_delegations c) (ic_metadata c),
       set_sm_inner inner s)).

Definition retire_handles (retired : H -> bool) : proc W InvalidationCounts :=
  let* matched := atomic (retire_locked retired) in
  match matched with
  | [] => Ret counts_zero
  | _ =>
    let ids : gset Z := list_to_set (snd <$> matched) in
    let* _ := state_op (fun s => (tt, mark_retired ids s)) in
    let* _ := for_each matched recall_retired tt in
    st_invalidate_objects ids
  end.

(** ** GET_DIR_DELEGATION *)

Definition is_dir_type (t : ServerFileType) : bool :=
  match t with FT_Directory | FT_NamedAttrDir => true | _ => false end.

Definition op_get_dir_delegation (ctx : RequestContext) (current_fh : option bytes)
    (minorversion : Z) (sequence_clientid : option Z) (sequence_sessionid : option bytes)
    : proc W NfsResop4 :=
  let fail status := Res_GetDirDelegation status None in
  if (minorversion =? 0) || negb (dc_directory_delegations config) then Ret (fail NFS_Notsupp)
  else match sequence_clientid with
  | None => Ret (fail NFS_OpNotInSession)
  | Some clientid =>
    let! (_, object) := resolve_object srv current_fh else fail in
    match object with
    | NamedAttrDir _ => Ret (fail NFS_Notsupp)
    | NamedAttrFile _ _ => Ret (fail NFS_Notdir)
    | Fs _ =>
      let! attr := build_attr srv ctx object else (fun e => fail (to_nfsstat4 e)) in
      if negb (is_dir_type (sf_file_type attr)) then Ret (fail NFS_Notdir)
      else
        let* path := has_callback_path clientid in
        if negb path then Ret (fail NFS_DirDelegUnavail)
        else
          let! grant := st_grant_directory_delegation object clientid sequence_sessionid
                          (dc_max_delegations_per_client config)
                          (dc_max_delegations_total config) else fail in
          Ret (match grant with
               | Grant_Granted stateid =>
                 Res_GetDirDelegation NFS_Ok (Some (Gdd_Ok (mkGetDirDelegationResOk4
                   (be_bytes 8 (sf_change_id attr)) stateid Bitmap4_new Bitmap4_new Bitmap4_new)))
               | Grant_AlreadyHeld => Res_GetDirDelegation NFS_Ok (Some (Gdd_Unavail false))
               | Grant_Unavailable => fail NFS_DirDelegUnavail
               end)
    end
  end.
End delegation.
