(* ===== verification/OpsFile.v ===== *)
(** * OPEN, CLOSE, READ, WRITE and their kin (crates/embednfs/src/server/ops/file.rs)

    Handlers that replace the current filehandle return it with their result.
    Log lines and the backend's failures to take a lifecycle notification leave
    no trace. *)

From stdpp Require Import base gmap list sets strings numbers.
From Stdlib Require Import ZArith Lia.
From S2P Require Import Prelude Xdr Rpc Types Constants StateModel Operations Codec FsApi Metadata.
From S2P Require Import Stateids Opens Locks Filehandles AttrCodec.
From S2P Require Import Server ServerFs OpsDelegation.

Local Open Scope Z_scope.
Local Open Scope proc_scope.

(** ** Share modes and stability *)

(** [x & bits != 0] *)
Definition any_bits (x bits : Z) : bool := negb (Z.land x bits =? 0).

Definition validate_open_share (share_access share_deny minorversion : Z)
    : result NfsStat4 unit :=
  if Z.land share_access OPEN4_SHARE_ACCESS_BOTH =? 0 then Err NFS_Inval
  else if any_bits share_deny (u32_not OPEN4_SHARE_DENY_BOTH) then Err NFS_Inval
  else
    let extra := Z.land share_access (u32_not OPEN4_SHARE_ACCESS_BOTH) in
    if extra =? 0 then Ok tt
    else if minorversion =? 0 then Err NFS_Inval
    else
      let signal_flags := Z.lor OPEN4_SHARE_ACCESS_WANT_SIGNAL_DELEG_WHEN_RESRC_AVAIL
                                OPEN4_SHARE_ACCESS_WANT_PUSH_DELEG_WHEN_UNCONTENDED in
      if any_bits extra (u32_not (Z.lor OPEN4_SHARE_ACCESS_WANT_DELEG_MASK signal_flags))
      then Err NFS_Inval
      else
        let want := Z.land extra OPEN4_SHARE_ACCESS_WANT_DELEG_MASK in
        if (want =? OPEN4_SHARE_ACCESS_WANT_NO_PREFERENCE) ||
           (want =? OPEN4_SHARE_ACCESS_WANT_READ_DELEG) ||
           (want =? OPEN4_SHARE_ACCESS_WANT_WRITE_DELEG) ||
           (want =? OPEN4_SHARE_ACCESS_WANT_ANY_DELEG) ||
           (want =? OPEN4_SHARE_ACCESS_WANT_NO_DELEG) ||
           (want =? OPEN4_SHARE_ACCESS_WANT_CANCEL)
        then Ok tt else Err NFS_Inval.

Definition requested_write_stability (stable : Z) : result NfsStat4 WriteStability :=
  if stable =? UNSTABLE4 then Ok Unstable
  else if stable =? DATA_SYNC4 then Ok DataSync
  else if stable =? FILE_SYNC4 then Ok FileSync
  else Err NFS_Inval.

Definition stability_rank (stability : WriteStability) : Z :=
  match stability with Unstable => 0 | DataSync => 1 | FileSync => 2 end.
Definition stability_at_least (actual requested : WriteStability) : bool :=
  stability_rank requested <=? stability_rank actual.

Definition open_no_delegation (share_access : Z) : OpenDelegation4 :=
  if Z.land share_access (u32_not OPEN4_SHARE_ACCESS_BOTH) =? 0 then Od_None
  else
    let want := Z.land share_access OPEN4_SHARE_ACCESS_WANT_DELEG_MASK in
    Od_NoneExt (Ond_Other (if want =? OPEN4_SHARE_ACCESS_WANT_NO_DELEG then Wnd_NotWanted
                           else if want =? OPEN4_SHARE_ACCESS_WANT_CANCEL then Wnd_Cancelled
                           else Wnd_NotSuppFtype)).

Definition Stateid4_default : Stateid4 := mkStateid4 0 (replicate 12 0).

Record IoStateContext := mkIoStateContext {
  io_current_stateid : option Stateid4;
  io_sequence_clientid : option Z;
  io_is_write : bool;
  io_offset : Z;
  io_length : Z;
}.

Section file.
Context {H B : Type} `{Countable H} {ho : HashOrder} (srv : NfsServer H B).
Abbreviation W := (Server H B).
Abbreviation fs := (ns_fs srv).

(** ** The stateid of a READ, WRITE or truncation *)

Definition resolve_io_stateid (object : ServerObject) (stateid : Stateid4)
    (current_stateid : option Stateid4) (sequence_clientid : option Z)
    : proc W (result NfsStat4 ResolvedStateid) :=
  let! resolved := st_resolve_stateid sequence_clientid stateid current_stateid ZeroSeqid in
  Ret (match resolved with
       | Resolved_Open open =>
         if bool_decide (ro_object open = object) then Ok resolved else Err NFS_BadStateid
       | Resolved_Lock lock =>
         if bool_decide (rl_object lock = object) then Ok resolved else Err NFS_BadStateid
       | _ => Ok resolved
       end).

(** What the two conflict checks leave out: the caller's own open, lock owner and
    lock state. *)
Definition io_exemptions (resolved : ResolvedStateid) (is_write : bool)
    : result NfsStat4 (option bytes * option StateOwner4 * option bytes) :=
  let may_write share_access :=
    any_bits (share_access_mode share_access) OPEN4_SHARE_ACCESS_WRITE in
  match resolved with
  | Resolved_Anonymous | Resolved_Bypass => Ok (None, None, None)
  | Resolved_Open open =>
    if is_write && negb (may_write (ro_share_access open)) then Err NFS_Openmode
    else Ok (Some (ro_other open), None, None)
  | Resolved_Lock lock =>
    if is_write && negb (may_write (ro_share_access (rl_open_state lock))) then Err NFS_Openmode
    else Ok (Some (ro_other (rl_open_state lock)), Some (rl_owner lock), Some (rl_other lock))
  end.

Definition validate_io_stateid (object : ServerObject) (stateid : Stateid4) (io : IoStateContext)
    : proc W (result NfsStat4 unit) :=
  let! resolved := resolve_io_stateid object stateid (io_current_stateid io)
                     (io_sequence_clientid io) in
  let access := if io_is_write io then OPEN4_SHARE_ACCESS_WRITE else OPEN4_SHARE_ACCESS_READ in
  let! (ignore_open, lock_owner, ignore_lock) := Ret (io_exemptions resolved (io_is_write io)) in
  let* denied := st_has_conflicting_share_deny object access ignore_open in
  if denied : bool then Ret (Err NFS_Locked)
  else
    let* locked := st_has_conflicting_io_lock object lock_owner (io_is_write io) (io_offset io)
                     (io_length io) ignore_lock in
    Ret (if locked : bool then Err NFS_Locked else Ok tt).

(** The stateid an operation names, which must be a concrete one. *)
Definition concrete_or_bad (requested : Stateid4) (current : option Stateid4)
    (mode : CurrentStateidMode) : result NfsStat4 Stateid4 :=
  match normalize_stateid requested current mode with
  | Ok (Norm_Concrete stateid) => Ok stateid
  | Ok (Norm_Anonymous | Norm_Bypass) => Err NFS_BadStateid
  | Err status => Err status
  end.

(** ** CLOSE and COMMIT *)

(** [OpenLifecycle::on_close] and [on_open], failures dropped. *)
Definition notify (object : ServerObject) (hook : H -> fs_op B unit) : proc W unit :=
  match object with
  | Fs id =>
    let* handle := resolve_backend_handle id in
    match handle with
    | Ok handle => let* _ := backend (hook handle) in Ret tt
    | Err _ => Ret tt
    end
  | _ => Ret tt
  end.

Definition op_close (ctx : RequestContext) (args : CloseArgs4) (current_fh : option bytes)
    (current_stateid : option Stateid4) (sequence_clientid : option Z) : proc W NfsResop4 :=
  let fail status := Res_Close status Stateid4_default in
  let! (_, object) := resolve_object srv current_fh else fail in
  let! stateid := Ret (concrete_or_bad (cla_open_stateid args) current_stateid PreserveSeqid)
    else fail in
  let! resolved := st_resolve_stateid sequence_clientid stateid None PreserveSeqid else fail in
  match resolved with
  | Resolved_Open open =>
    if bool_decide (ro_object open = object) then
      let! outcome := st_close_state stateid else fail in
      let* _ := match fs_open_lifecycle fs with
                | Some lifecycle =>
                  if co_last_writer outcome
                  then notify object (fun h => ol_on_close lifecycle ctx h true) else Ret tt
                | None => Ret tt
                end in
      Ret (Res_Close NFS_Ok (co_stateid outcome))
    else Ret (fail NFS_BadStateid)
  | _ => Ret (fail NFS_BadStateid)
  end.

Definition no_verifier : bytes := replicate 8 0.

Definition op_commit (ctx : RequestContext) (args : CommitArgs4) (current_fh : option bytes)
    : proc W NfsResop4 :=
  let fail status := Res_Commit status no_verifier in
  let ok := let* verf := state_read sm_write_verifier in Ret (Res_Commit NFS_Ok verf) in
  let! (_, object) := resolve_object srv current_fh else fail in
  match object with
  | Fs id =>
    let! attrs := getattr srv ctx id else (fun e => fail (to_nfsstat4 e)) in
    if decide (at_object_type attrs = OT_Directory) then Ret (fail NFS_Isdir)
    else match fs_commit_support fs with
         | Some syncer =>
           let! handle := resolve_backend_handle id else (fun e => fail (to_nfsstat4 e)) in
           let! _ := backend (co_commit syncer ctx handle (cma_offset args) (cma_count args))
             else (fun e => fail (to_nfsstat4 e)) in
           ok
         | None => ok
         end
  | NamedAttrFile _ _ => ok
  | NamedAttrDir _ => Ret (fail NFS_Isdir)
  end.

(** ** OPEN *)

(** The parent whose xattr namespace an OPEN would reach. *)
Definition open_xattr_parent (container : ServerObject) (claim : OpenClaim4) : option Z :=
  match container, claim with
  | NamedAttrDir parent, Claim_Null _ => Some parent
  | NamedAttrFile parent _, _ => Some parent
  | _, _ => None
  end.

Definition open_xattr_need (args : OpenArgs4) : Z :=
  let share_access := share_access_mode (oa_share_access args) in
  let need := AccessMask_NONE in
  let need := or_if (any_bits share_access OPEN4_SHARE_ACCESS_READ) AccessMask_XATTR_READ need in
  let need := or_if (any_bits share_access OPEN4_SHARE_ACCESS_WRITE) AccessMask_XATTR_WRITE need in
  or_if (match oa_openhow args with Of_Create _ => true | Of_NoCreate => false end)
    AccessMask_XATTR_WRITE need.

Definition open_xattr_gate (ctx : RequestContext) (args : OpenArgs4) (container : ServerObject)
    : proc W (result NfsStat4 unit) :=
  match open_xattr_parent container (oa_claim args) with
  | None => Ret (Ok tt)
  | Some parent =>
    let need := open_xattr_need args in
    if need =? AccessMask_NONE then Ret (Ok tt) else require_access srv ctx parent need
  end.

Definition open_create_attrs (how : Createhow4) : result NfsStat4 SetAttrs :=
  match how with
  | Ch_Unchecked fa | Ch_Guarded fa | Ch_Exclusive4_1 _ fa => decode_setattr fa
  | Ch_Exclusive _ => Ok SetAttrs_default
  end.

(** [before_attr] read for its change id. *)
Definition change_before (before_attr : result FsError ServerFileAttr) : result NfsStat4 Z :=
  match before_attr with Ok attr => Ok (sf_change_id attr) | Err e => Err (to_nfsstat4 e) end.

(** An OPEN finds its object, or creates it; when it creates it, the change id of
    the container before that is [Some]: the source's [created] and
    [created_before_change]. *)
Definition Opened : Type := ServerObject * option Z.

(** An OPEN by name in a directory of the backend. *)
Definition open_by_name (ctx : RequestContext) (args : OpenArgs4) (dir_id : Z) (name : bytes)
    (before_attr : result FsError ServerFileAttr) (sequence_clientid : option Z)
    : proc W (result NfsStat4 Opened) :=
  let! _ := validate_component_name srv name in
  let! kind := map_err to_nfsstat4 (kind_of srv ctx dir_id) in
  if negb (bool_decide (kind = OT_Directory)) then Ret (Err NFS_Notdir)
  else
    let* found := lookup srv ctx dir_id name in
    match found, oa_openhow args with
    | Ok id, Of_Create how =>
      Ret (if create_mode_requires_nonexistence how then Err NFS_Exist else Ok (Fs id, None))
    | Ok id, Of_NoCreate => Ret (Ok (Fs id, None))
    | Err Fs_NotFound, Of_Create how =>
      let! before_change := Ret (change_before before_attr) in
      let! set_attrs := Ret (open_create_attrs how) in
      let! _ := recall_directory_delegations srv (Fs dir_id) sequence_clientid in
      let! created := map_err to_nfsstat4 (create_file srv ctx dir_id name set_attrs) in
      Ret (Ok (Fs (cres_handle created), Some before_change))
    | Err Fs_NotFound, Of_NoCreate => Ret (Err NFS_Noent)
    | Err e, _ => Ret (Err (to_nfsstat4 e))
    end.

(** An OPEN by name in the directory of an object's named attributes. *)
Definition open_named_attr (ctx : RequestContext) (args : OpenArgs4) (parent : Z) (name : bytes)
    (before_attr : result FsError ServerFileAttr) (sequence_clientid : option Z)
    : proc W (result NfsStat4 Opened) :=
  match fs_xattrs fs with
  | None => Ret (Err NFS_Notsupp)
  | Some named =>
    let! parent_handle := map_err to_nfsstat4 (resolve_backend_handle parent) in
    let* found := backend (xa_get_xattr named ctx parent_handle name) in
    let object := NamedAttrFile parent name in
    match found, oa_openhow args with
    | Ok _, Of_Create how =>
      Ret (if create_mode_requires_nonexistence how then Err NFS_Exist else Ok (object, None))
    | Ok _, Of_NoCreate => Ret (Ok (object, None))
    | Err Fs_NotFound, Of_Create how =>
      let! before_change := Ret (change_before before_attr) in
      let! set_attrs := Ret (open_create_attrs how) in
      let! _ := recall_directory_delegations srv (NamedAttrDir parent) sequence_clientid in
      let* initial := or_panic (match sa_size set_attrs with
                                | Some size => vec_resize size []
                                | None => Some []
                                end) in
      let! _ := map_err to_nfsstat4
        (backend (xa_set_xattr named ctx parent_handle name initial (open_set_mode how))) in
      let* _ := refresh_xattr_summary srv ctx parent in
      let* _ := st_apply_setattr object FT_NamedAttr set_attrs in
      let* _ := st_touch_metadata (NamedAttrDir parent) FT_NamedAttrDir in
      let* _ := parent_change_after_xattr_mutation srv ctx parent in
      Ret (Ok (object, Some before_change))
    | Err Fs_NotFound, Of_NoCreate => Ret (Err NFS_Noent)
    | Err e, _ => Ret (Err (to_nfsstat4 e))
    end
  end.

Definition open_object (ctx : RequestContext) (args : OpenArgs4) (container : ServerObject)
    (before_attr : result FsError ServerFileAttr) (sequence_clientid : option Z)
    : proc W (result NfsStat4 Opened) :=
  match container, oa_claim args with
  | Fs dir_id, Claim_Null name => open_by_name ctx args dir_id name before_attr sequence_clientid
  | NamedAttrDir parent, Claim_Null name =>
    open_named_attr ctx args parent name before_attr sequence_clientid
  | _, (Claim_Fh | Claim_Previous _ | Claim_DelegCurFh _ | Claim_DelegPrevFh) => Ret (Ok (container, None))
  | _, _ => Ret (Err NFS_Notsupp)
  end.

(** The rights an OPEN of an existing file must have. *)
Definition open_need (share_access : Z) : Z :=
  let share_access := share_access_mode share_access in
  let need := AccessMask_NONE in
  let need := or_if (any_bits share_access OPEN4_SHARE_ACCESS_READ) AccessMask_READ need in
  or_if (any_bits share_access OPEN4_SHARE_ACCESS_WRITE)
    (Z.lor AccessMask_MODIFY AccessMask_EXTEND) need.

Definition open_gate (ctx : RequestContext) (args : OpenArgs4) (opened : Opened)
    : proc W (result NfsStat4 unit) :=
  match opened with
  | (Fs id, None) =>
    let need := open_need (oa_share_access args) in
    if need =? AccessMask_NONE then Ret (Ok tt) else require_access srv ctx id need
  | _ => Ret (Ok tt)
  end.

(** The part of OPEN after the object is known. *)
Definition open_finish (ctx : RequestContext) (args : OpenArgs4) (container : ServerObject)
    (before_attr : result FsError ServerFileAttr) (opened : Opened) (current_fh : option bytes)
    (minorversion : Z) : proc W (NfsResop4 * option bytes) :=
  let '(object, created) := opened in
  let fail status := (Res_Open status None, current_fh) in
  let! stateid := st_create_open_state object (oa_owner args) (oa_share_access args)
                    (oa_share_deny args) else fail in
  let* open_fh := st_object_to_fh object in
  match open_fh with
  | None => Ret (fail NFS_Stale)
  | Some open_fh =>
    let! cinfo := (match created with
                   | Some before_change =>
                     let* c := mutation_change_info srv ctx container before_change in Ret (Ok c)
                   | None =>
                     let! change := Ret (change_before before_attr) in
                     Ret (Ok (mkChangeInfo4 true change change))
                   end) else (fun status => (Res_Open status None, Some open_fh)) in
    let* _ := match fs_open_lifecycle fs with
              | Some lifecycle =>
                if any_bits (share_access_mode (oa_share_access args)) OPEN4_SHARE_ACCESS_WRITE
                then notify object (fun h => ol_on_open lifecycle ctx h true) else Ret tt
              | None => Ret tt
              end in
    let rflags := if minorversion =? 0
                  then Z.lor OPEN4_RESULT_LOCKTYPE_POSIX OPEN4_RESULT_CONFIRM
                  else OPEN4_RESULT_LOCKTYPE_POSIX in
    Ret (Res_Open NFS_Ok (Some (mkOpenRes4 stateid cinfo rflags Bitmap4_new
                                  (open_no_delegation (oa_share_access args)))), Some open_fh)
  end.

Definition op_open (ctx : RequestContext) (args : OpenArgs4) (current_fh : option bytes)
    (minorversion : Z) (sequence_clientid : option Z) : proc W (NfsResop4 * option bytes) :=
  let fail status := (Res_Open status None, current_fh) in
  let! _ := Ret (validate_open_share (oa_share_access args) (oa_share_deny args) minorversion)
    else fail in
  let! (_, container) := resolve_object srv current_fh else fail in
  let! _ := open_xattr_gate ctx args container else fail in
  let* before_attr := build_attr srv ctx container in
  let! opened := open_object ctx args container before_attr sequence_clientid else fail in
  let! opened_attr := build_attr srv ctx opened.1 else (fun e => fail (to_nfsstat4 e)) in
  if is_dir_type (sf_file_type opened_attr) then Ret (fail NFS_Isdir)
  else match opened.2, before_attr with
  | None, Err e => Ret (fail (to_nfsstat4 e))
  | _, _ =>
    let! _ := open_gate ctx args opened else fail in
    open_finish ctx args container before_attr opened current_fh minorversion
  end.

Definition op_open_downgrade (args : OpenDowngradeArgs4) (current_stateid : option Stateid4)
    (sequence_clientid : option Z) : proc W NfsResop4 :=
  let fail status := Res_OpenDowngrade status None in
  let! stateid := Ret (concrete_or_bad (oda_open_stateid args) current_stateid PreserveSeqid)
    else fail in
  let! resolved := st_resolve_stateid sequence_clientid stateid None PreserveSeqid else fail in
  match resolved with
  | Resolved_Open _ =>
    let! stateid := st_open_downgrade stateid (oda_share_access args) (oda_share_deny args)
      else fail in
    Ret (Res_OpenDowngrade NFS_Ok (Some stateid))
  | _ => Ret (fail NFS_BadStateid)
  end.

(** ** READ, READLINK and WRITE *)

(** A named attribute is gated by its parent's rights. *)
Definition named_attr_gate (ctx : RequestContext) (object : ServerObject) (need : Z)
    : proc W (result NfsStat4 unit) :=
  match object with
  | NamedAttrFile parent _ => require_access srv ctx parent need
  | _ => Ret (Ok tt)
  end.

Definition read_data (ctx : RequestContext) (object : ServerObject) (offset count : Z)
    : proc W (result NfsStat4 (bytes * bool)) :=
  match object with
  | Fs id =>
    let! attrs := map_err to_nfsstat4 (getattr srv ctx id) in
    if decide (at_object_type attrs = OT_Directory) then Ret (Err NFS_Isdir)
    else
      let! _ := require_access srv ctx id AccessMask_READ in
      map_err to_nfsstat4 (read srv ctx id offset count)
  | NamedAttrFile parent name =>
    map_err to_nfsstat4 (xattr_read_slice srv ctx parent name offset count)
  | NamedAttrDir _ => Ret (Err (to_nfsstat4 Fs_IsDirectory))
  end.

Definition op_read (ctx : RequestContext) (args : ReadArgs4) (current_fh : option bytes)
    (current_stateid : option Stateid4) (sequence_clientid : option Z) : proc W NfsResop4 :=
  let fail status := Res_Read status None in
  let! (_, object) := resolve_object srv current_fh else fail in
  let! _ := validate_io_stateid object (rda_stateid args)
              (mkIoStateContext current_stateid sequence_clientid false (rda_offset args)
                 (rda_count args)) else fail in
  let! _ := named_attr_gate ctx object AccessMask_XATTR_READ else fail in
  let! (data, eof) := read_data ctx object (rda_offset args) (rda_count args) else fail in
  Ret (Res_Read NFS_Ok (Some (mkReadRes4 eof data))).

Definition op_readlink (ctx : RequestContext) (current_fh : option bytes) : proc W NfsResop4 :=
  let fail status := Res_Readlink status None in
  let! (_, object) := resolve_object srv current_fh else fail in
  match object with
  | Fs id =>
    match fs_symlinks fs with
    | Some symlinks =>
      let! handle := resolve_backend_handle id else (fun e => fail (to_nfsstat4 e)) in
      let! target := backend (sy_readlink symlinks ctx handle)
        else (fun e => fail (to_nfsstat4 e)) in
      Ret (Res_Readlink NFS_Ok (Some target))
    | None => Ret (fail (to_nfsstat4 Fs_Unsupported))
    end
  | _ => Ret (fail (to_nfsstat4 Fs_InvalidInput))
  end.

Definition write_file_type (ctx : RequestContext) (object : ServerObject)
    : proc W (result NfsStat4 ServerFileType) :=
  match object with
  | Fs id =>
    let! attrs := map_err to_nfsstat4 (getattr srv ctx id) in
    let file_type := from_attrs attrs in
    Ret (if decide (file_type = FT_Directory) then Err NFS_Isdir else Ok file_type)
  | NamedAttrFile _ _ => Ret (Ok FT_NamedAttr)
  | NamedAttrDir _ => Ret (Err NFS_Isdir)
  end.

Definition write_gate (ctx : RequestContext) (object : ServerObject) : proc W (result NfsStat4 unit) :=
  match object with
  | Fs id => require_access srv ctx id (Z.lor AccessMask_MODIFY AccessMask_EXTEND)
  | _ => Ret (Ok tt)
  end.

Definition write_data (ctx : RequestContext) (object : ServerObject) (offset : Z) (data : bytes)
    (stability : WriteStability) : proc W (result FsError WriteResult) :=
  match object with
  | Fs id => write srv ctx id offset data stability
  | NamedAttrFile parent name =>
    let! written := xattr_write srv ctx parent name offset data in
    Ret (Ok (mkWriteResult written FileSync))
  | NamedAttrDir _ => Ret (Err Fs_IsDirectory)
  end.

Definition op_write (ctx : RequestContext) (args : WriteArgs4) (current_fh : option bytes)
    (current_stateid : option Stateid4) (sequence_clientid : option Z) : proc W NfsResop4 :=
  let fail status := Res_Write status None in
  let! (_, object) := resolve_object srv current_fh else fail in
  let! _ := validate_io_stateid object (wra_stateid args)
              (mkIoStateContext current_stateid sequence_clientid true (wra_offset args)
                 (zlen (wra_data args))) else fail in
  let! _ := named_attr_gate ctx object AccessMask_XATTR_WRITE else fail in
  let! stability := Ret (requested_write_stability (wra_stable args)) else fail in
  let! file_type := write_file_type ctx object else fail in
  let! _ := write_gate ctx object else fail in
  let! result := write_data ctx object (wra_offset args) (wra_data args) stability
    else (fun e => fail (to_nfsstat4 e)) in
  if negb (stability_at_least (wr_stability result) stability) then Ret (fail NFS_Serverfault)
  else
    let* _ := match object with
              | Fs _ => Ret tt
              | _ => st_touch_data object file_type
              end in
    let* writeverf := state_read sm_write_verifier in
    Ret (Res_Write NFS_Ok
           (Some (mkWriteRes4 (wr_written result) (committed_how (wr_stability result)) writeverf))).
End file.
