(* ===== verification/OpsAttrs.v ===== *)
(** * ACCESS, GETATTR, SETATTR, VERIFY, the extended-attribute operations and
      RECLAIM_COMPLETE (crates/embednfs/src/server/ops/attrs.rs, xattrs.rs, session.rs) *)

From stdpp Require Import base gmap list sets strings numbers sorting.
From Stdlib Require Import ZArith Lia.
From S2P Require Import Prelude Xdr Rpc Types Constants StateModel Operations Codec FsApi Metadata.
From S2P Require Import Clients Stateids Opens Locks Filehandles AttrCodec.
From S2P Require Import Server ServerFs OpsDelegation OpsFile.

Local Open Scope Z_scope.
Local Open Scope proc_scope.

(** ** Named attributes' access, from the parent's rights *)

Definition MODIFY_EXTEND_DELETE : Z :=
  Z.lor (Z.lor AccessMask_MODIFY AccessMask_EXTEND) AccessMask_DELETE.

Definition named_attr_file_access (parent_grant : Z) : Z :=
  let granted := AccessMask_NONE in
  let granted := or_if (mask_contains parent_grant AccessMask_XATTR_READ) AccessMask_READ granted in
  or_if (mask_contains parent_grant AccessMask_XATTR_WRITE) MODIFY_EXTEND_DELETE granted.

Definition named_attr_dir_access (parent_grant : Z) : Z :=
  let granted := AccessMask_NONE in
  let granted := or_if (mask_contains parent_grant AccessMask_XATTR_LIST)
                   (Z.lor AccessMask_READ AccessMask_LOOKUP) granted in
  or_if (mask_contains parent_grant AccessMask_XATTR_WRITE) MODIFY_EXTEND_DELETE granted.

Definition is_synthetic (object : ServerObject) : bool :=
  match object with Fs _ => false | _ => true end.

Definition access_supported (xattrs : bool) (object : ServerObject) (file_type : ServerFileType) : Z :=
  let supported := Z.lor (Z.lor (Z.lor (Z.lor (Z.lor ACCESS4_READ ACCESS4_LOOKUP) ACCESS4_MODIFY)
                     ACCESS4_EXTEND) ACCESS4_DELETE) ACCESS4_EXECUTE in
  let supported := if xattrs && negb (is_synthetic object)
                   then Z.lor supported (Z.lor (Z.lor ACCESS4_XAREAD ACCESS4_XAWRITE) ACCESS4_XALIST)
                   else supported in
  let supported := if is_dir_type file_type then Z.land supported (u32_not ACCESS4_EXECUTE)
                   else supported in
  match object with
  | NamedAttrFile _ _ => Z.land supported (u32_not (Z.lor ACCESS4_EXECUTE ACCESS4_LOOKUP))
  | _ => supported
  end.

(** [match client_fattr.attrmask.0.iter().enumerate()]: every bit supported. *)
Fixpoint mask_within (words supported : list Z) : bool :=
  match words with
  | [] => true
  | w :: words =>
    (Z.land w (u32_not (default 0 (head supported))) =? 0) && mask_within words (tail supported)
  end.

(** ** Extended attributes: errors and pages *)

Definition xattr_error (error : FsError) : NfsStat4 :=
  match error with
  | Fs_NotFound => NFS_NoXattr
  | Fs_FileTooLarge => NFS_Xattr2Big
  | other => to_nfsstat4 other
  end.

Definition xdr_opaque_len (len : Z) : Z := 4 + len + (4 - len mod 4) mod 4.

(** The [while let Some(name) = names.get(end)] loop: the names that fit from
    [start], given that [used] bytes are taken; [None] when not even one does. *)
Fixpoint listxattrs_fill (names : list bytes) (used maxcount : Z) (first : bool)
    : option (list bytes) :=
  match names with
  | [] => Some []
  | name :: names =>
    let item_len := xdr_opaque_len (zlen name) in
    if maxcount <? used + item_len then (if first then None else Some [])
    else match listxattrs_fill names (used + item_len) maxcount false with
         | Some taken => Some (name :: taken)
         | None => None
         end
  end.

Definition listxattrs_page (names : list bytes) (cookie maxcount : Z)
    : result NfsStat4 ListxattrsResOk4 :=
  if zlen names <? cookie then Err NFS_Inval
  else
    match listxattrs_fill (drop (Z.to_nat cookie) names) (8 + 4 + 4) maxcount true with
    | None => Err NFS_Toosmall
    | Some taken =>
      let stop := cookie + zlen taken in
      Ok (mkListxattrsResOk4 stop taken (stop =? zlen names))
    end.

Section attrs.
Context {H B : Type} `{Countable H} {ho : HashOrder} (srv : NfsServer H B).
Abbreviation W := (Server H B).
Abbreviation fs := (ns_fs srv).
Abbreviation config := (ns_delegation_config srv).

(** ** ACCESS *)

Definition granted_access (ctx : RequestContext) (object : ServerObject) (requested : Z)
    : proc W (result FsError Z) :=
  match object with
  | Fs id => access_for srv ctx id requested
  | NamedAttrFile parent _ =>
    let! grant := access_for srv ctx parent (Z.lor AccessMask_XATTR_READ AccessMask_XATTR_WRITE) in
    Ret (Ok (named_attr_file_access grant))
  | NamedAttrDir parent =>
    let! grant := access_for srv ctx parent (Z.lor AccessMask_XATTR_LIST AccessMask_XATTR_WRITE) in
    Ret (Ok (named_attr_dir_access grant))
  end.

Definition op_access (ctx : RequestContext) (args : AccessArgs4) (current_fh : option bytes)
    : proc W NfsResop4 :=
  let fail status := Res_Access status 0 0 in
  let! (_, object) := resolve_object srv current_fh else fail in
  let! attr := build_attr srv ctx object else (fun e => fail (to_nfsstat4 e)) in
  let* caps := capabilities srv in
  let supported := Z.land (aca_access args) (access_supported (fc_xattrs caps) object (sf_file_type attr)) in
  let! granted := granted_access ctx object (nfs_access_mask supported)
    else (fun e => fail (to_nfsstat4 e)) in
  Ret (Res_Access NFS_Ok supported (Z.land (access_bits granted) supported)).

(** ** GETATTR and GETFH *)

Definition op_getattr (ctx : RequestContext) (args : GetattrArgs4) (current_fh : option bytes)
    (minorversion : Z) : proc W NfsResop4 :=
  let fail status := Res_Getattr status None in
  let! (fh, object) := resolve_object srv current_fh else fail in
  let! attr := build_attr srv ctx object else (fun e => fail (to_nfsstat4 e)) in
  let! fattr := encode_fattr srv ctx attr (gaa_attr_request args) fh minorversion
    else (fun e => fail (to_nfsstat4 e)) in
  Ret (Res_Getattr NFS_Ok (Some fattr)).

Definition op_getfh (current_fh : option bytes) : NfsResop4 :=
  match current_fh with
  | Some fh => Res_Getfh NFS_Ok (Some fh)
  | None => Res_Getfh NFS_Nofilehandle None
  end.

(** ** SETATTR *)

Definition has_size (a : SetAttrs) : bool := negb (is_none (sa_size a)).

(** The attributes read first, when the change needs them. *)
Definition setattr_current (ctx : RequestContext) (object : ServerObject) (set_attrs : SetAttrs)
    : proc W (result NfsStat4 (option ServerFileAttr)) :=
  if has_size set_attrs || (dc_directory_delegations config && negb (SetAttrs_is_empty set_attrs))
  then let! attr := map_err to_nfsstat4 (build_attr srv ctx object) in Ret (Ok (Some attr))
  else Ret (Ok None).

(** A directory has no size to set; its delegations are recalled. *)
Definition setattr_directory (object : ServerObject) (set_attrs : SetAttrs)
    (current_attr : option ServerFileAttr) (sequence_clientid : option Z)
    : proc W (result NfsStat4 unit) :=
  match current_attr with
  | Some attr =>
    if is_dir_type (sf_file_type attr) then
      if has_size set_attrs then Ret (Err NFS_Isdir)
      else if negb (SetAttrs_is_empty set_attrs)
           then recall_directory_delegations srv object sequence_clientid
           else Ret (Ok tt)
    else Ret (Ok tt)
  | None => Ret (Ok tt)
  end.

(** The range between the old and the new size must not be locked. *)
Definition setattr_range (object : ServerObject) (stateid : Stateid4) (set_attrs : SetAttrs)
    (current_attr : option ServerFileAttr) (current_stateid : option Stateid4)
    (sequence_clientid : option Z) : proc W (result NfsStat4 unit) :=
  match sa_size set_attrs with
  | None => Ret (Ok tt)
  | Some new_size =>
    match current_attr with
    | None => Ret (Err NFS_Serverfault)
    | Some attr =>
      let offset := Z.min (sf_size attr) new_size in
      let length := Z.max (sf_size attr) new_size - offset in
      validate_io_stateid object stateid
        (mkIoStateContext current_stateid sequence_clientid true offset length)
    end
  end.

Definition setattr_apply (ctx : RequestContext) (object : ServerObject) (set_attrs : SetAttrs)
    : proc W (result NfsStat4 unit) :=
  match object with
  | Fs id =>
    let! _ := map_err to_nfsstat4 (setattr_real srv ctx id set_attrs) in Ret (Ok tt)
  | NamedAttrFile parent name =>
    let! _ := (match sa_size set_attrs with
               | Some size => map_err to_nfsstat4 (xattr_resize srv ctx parent name size)
               | None => Ret (Ok tt)
               end) in
    let* _ := st_apply_setattr object FT_NamedAttr set_attrs in
    let* _ := if has_size set_attrs then st_touch_data object FT_NamedAttr else Ret tt in
    Ret (Ok tt)
  | NamedAttrDir _ =>
    if has_size set_attrs then Ret (Err NFS_Isdir)
    else let* _ := st_apply_setattr object FT_NamedAttrDir set_attrs in Ret (Ok tt)
  end.

Definition op_setattr (ctx : RequestContext) (args : SetattrArgs4) (current_fh : option bytes)
    (current_stateid : option Stateid4) (sequence_clientid : option Z) : proc W NfsResop4 :=
  let fail status := Res_Setattr status Bitmap4_new in
  let! (_, object) := resolve_object srv current_fh else fail in
  let! set_attrs := Ret (decode_setattr (saa_obj_attributes args)) else fail in
  let sized := has_size set_attrs in
  let! _ := (if sized then named_attr_gate srv ctx object AccessMask_XATTR_WRITE else Ret (Ok tt))
    else fail in
  let! current_attr := setattr_current ctx object set_attrs else fail in
  let! _ := setattr_directory object set_attrs current_attr sequence_clientid else fail in
  let! _ := setattr_range object (saa_stateid args) set_attrs current_attr current_stateid
              sequence_clientid else fail in
  let! _ := (if sized then write_gate srv ctx object else Ret (Ok tt)) else fail in
  let! _ := setattr_apply ctx object set_attrs else fail in
  Ret (Res_Setattr NFS_Ok (fa_attrmask (saa_obj_attributes args))).

(** ** VERIFY and NVERIFY *)

Definition op_verify (ctx : RequestContext) (client_fattr : Fattr4) (current_fh : option bytes)
    (negate : bool) (minorversion : Z) : proc W NfsResop4 :=
  let make_res s := if negate then Res_Nverify s else Res_Verify s in
  let! (fh, object) := resolve_object srv current_fh else make_res in
  let! attr := build_attr srv ctx object else (fun e => make_res (to_nfsstat4 e)) in
  let mask := fa_attrmask client_fattr in
  if Bitmap4_is_set mask FATTR4_RDATTR_ERROR || Bitmap4_is_set mask FATTR4_TIME_ACCESS_SET ||
     Bitmap4_is_set mask FATTR4_TIME_MODIFY_SET
  then Ret (make_res NFS_Inval)
  else
    let* caps := capabilities srv in
    if negb (mask_within (bm_words mask) (bm_words (supported_attrs_bitmap caps minorversion)))
    then Ret (make_res NFS_AttrNotsupp)
    else
      let! server_fattr := encode_fattr srv ctx attr mask fh minorversion
        else (fun e => make_res (to_nfsstat4 e)) in
      let attrs_match := bool_decide (bm_words (fa_attrmask server_fattr) = bm_words mask) &&
                         bool_decide (fa_attr_vals server_fattr = fa_attr_vals client_fattr) in
      Ret (make_res (if negate then if attrs_match then NFS_Same else NFS_Ok
                     else if attrs_match then NFS_Ok else NFS_NotSame)).

(** ** The operations of RFC 8276 *)

Definition resolve_xattr_target (ctx : RequestContext) (current_fh : option bytes) (access : Z)
    : proc W (result NfsStat4 Z) :=
  let! (_, object) := resolve_object srv current_fh in
  match object with
  | Fs id =>
    match fs_xattrs fs with
    | None => Ret (Err NFS_Notsupp)
    | Some _ => let! _ := require_access srv ctx id access in Ret (Ok id)
    end
  | _ => Ret (Err NFS_WrongType)
  end.

Definition validate_xattr_key (name : bytes) : proc W (result NfsStat4 unit) :=
  validate_component_name srv name.

(** [resolve_backend_handle] and [named_attrs().ok_or(..)], then a call. *)
Definition with_xattrs {A} (id : Z) (call : Xattrs H B -> H -> fs_op B A)
    : proc W (result FsError A) :=
  let! handle := resolve_backend_handle id in
  let! named := Ret (named_attrs_or srv) in
  backend (call named handle).
Definition list_xattr_keys (ctx : RequestContext) (id : Z) : proc W (result FsError (list bytes)) :=
  with_xattrs id (fun named h => xa_list_xattrs named ctx h).
Definition get_xattr_value (ctx : RequestContext) (id : Z) (name : bytes)
    : proc W (result FsError bytes) :=
  with_xattrs id (fun named h => xa_get_xattr named ctx h name).
Definition set_xattr_value (ctx : RequestContext) (id : Z) (name value : bytes)
    (mode : XattrSetMode) : proc W (result FsError unit) :=
  with_xattrs id (fun named h => xa_set_xattr named ctx h name value mode).
Definition remove_xattr_value (ctx : RequestContext) (id : Z) (name : bytes)
    : proc W (result FsError unit) :=
  with_xattrs id (fun named h => xa_remove_xattr named ctx h name).

Definition op_getxattr (ctx : RequestContext) (args : GetxattrArgs4) (current_fh : option bytes)
    : proc W NfsResop4 :=
  let fail status := Res_Getxattr status None in
  let! id := resolve_xattr_target ctx current_fh AccessMask_XATTR_READ else fail in
  let! _ := validate_xattr_key (gxa_name args) else fail in
  let! value := get_xattr_value ctx id (gxa_name args) else (fun e => fail (xattr_error e)) in
  Ret (Res_Getxattr NFS_Ok (Some value)).

Definition setxattr_mode (option : SetxattrOption4) : XattrSetMode :=
  match option with
  | Sx_Either => CreateOrReplace
  | Sx_Create => CreateOnly
  | Sx_Replace => ReplaceOnly
  end.

Definition op_setxattr (ctx : RequestContext) (args : SetxattrArgs4) (current_fh : option bytes)
    : proc W NfsResop4 :=
  let fail status := Res_Setxattr status None in
  let! id := resolve_xattr_target ctx current_fh AccessMask_XATTR_WRITE else fail in
  let! _ := validate_xattr_key (sxa_key args) else fail in
  let! attr := build_attr srv ctx (Fs id) else (fun e => fail (to_nfsstat4 e)) in
  let! _ := set_xattr_value ctx id (sxa_key args) (sxa_value args) (setxattr_mode (sxa_option args))
    else (fun e => fail (xattr_error e)) in
  let* cinfo := mutation_change_info srv ctx (Fs id) (sf_change_id attr) in
  Ret (Res_Setxattr NFS_Ok (Some cinfo)).

Definition op_listxattrs (ctx : RequestContext) (args : ListxattrsArgs4)
    (current_fh : option bytes) : proc W NfsResop4 :=
  let fail status := Res_Listxattrs status None in
  let! id := resolve_xattr_target ctx current_fh AccessMask_XATTR_LIST else fail in
  let! names := list_xattr_keys ctx id else (fun e => fail (xattr_error e)) in
  let! page := Ret (listxattrs_page (merge_sort bytes_le names) (lxa_cookie args) (lxa_maxcount args))
    else fail in
  Ret (Res_Listxattrs NFS_Ok (Some page)).

Definition op_removexattr (ctx : RequestContext) (args : RemovexattrArgs4)
    (current_fh : option bytes) : proc W NfsResop4 :=
  let fail status := Res_Removexattr status None in
  let! id := resolve_xattr_target ctx current_fh AccessMask_XATTR_WRITE else fail in
  let! _ := validate_xattr_key (rxa_name args) else fail in
  let! attr := build_attr srv ctx (Fs id) else (fun e => fail (to_nfsstat4 e)) in
  let! _ := remove_xattr_value ctx id (rxa_name args) else (fun e => fail (xattr_error e)) in
  let* cinfo := mutation_change_info srv ctx (Fs id) (sf_change_id attr) in
  Ret (Res_Removexattr NFS_Ok (Some cinfo)).

(** ** RECLAIM_COMPLETE *)

Definition op_reclaim_complete (args : ReclaimCompleteArgs4) (current_fh : option bytes)
    (sequence_clientid : option Z) : proc W NfsResop4 :=
  match sequence_clientid with
  | None => Ret (Res_ReclaimComplete NFS_OpNotInSession)
  | Some clientid =>
    let! _ := (if rca_one_fs args then
                 match current_fh with
                 | None => Ret (Err NFS_Nofilehandle)
                 | Some _ => let! _ := resolve_object srv current_fh in Ret (Ok tt)
                 end
               else Ret (Ok tt)) else Res_ReclaimComplete in
    let! _ := timed_op (reclaim_complete clientid (rca_one_fs args)) else Res_ReclaimComplete in
    Ret (Res_ReclaimComplete NFS_Ok)
  end.
End attrs.
