(* ===== verification/OpsDirectory.v ===== *)
(** * CREATE, LINK, LOOKUP, READDIR, REMOVE, RENAME and their kin
      (crates/embednfs/src/server/ops/directory.rs, and the READDIR size functions of
      server/mod.rs) *)

From stdpp Require Import base gmap list sets strings numbers.
From Stdlib Require Import ZArith Lia.
From S2P Require Import Prelude Xdr Rpc Types Constants StateModel Operations Codec FsApi Metadata.
From S2P Require Import Stateids Opens Locks Filehandles AttrCodec.
From S2P Require Import Server ServerFs OpsDelegation.

Local Open Scope Z_scope.
Local Open Scope proc_scope.

(** ** The size of a READDIR reply *)

Definition opaque_len (len : Z) : Z := 4 + len + xdr_pad len.
Definition xdr_bitmap4_len (bitmap : Bitmap4) : Z := 4 + zlen (bm_words bitmap) * 4.
Definition xdr_fattr4_len (fattr : Fattr4) : Z :=
  xdr_bitmap4_len (fa_attrmask fattr) + opaque_len (zlen (fa_attr_vals fattr)).
Definition readdir_dir_info_len (entry : Entry4) : Z := 8 + opaque_len (zlen (e4_name entry)).
Definition readdir_entry_len (entry : Entry4) : Z :=
  8 + opaque_len (zlen (e4_name entry)) + xdr_fattr4_len (e4_attrs entry).
Definition readdir_entry_list_item_len (entry : Entry4) : Z := 4 + readdir_entry_len entry.
Definition readdir_resok_len (entries : list Entry4) : Z :=
  8 + foldr Z.add 0 (readdir_entry_list_item_len <$> entries) + 4 + 4.

Section directory.
Context {H B : Type} `{Countable H} {ho : HashOrder} (srv : NfsServer H B).
Abbreviation W := (Server H B).
Abbreviation fs := (ns_fs srv).

(** ** CREATE *)

Definition create_object (ctx : RequestContext) (dir_id : Z) (args : CreateArgs4)
    (set_attrs : SetAttrs) : proc W (result NfsStat4 ServerObject) :=
  match cra_objtype args with
  | Ct_Reg => Ret (Err NFS_Badtype)
  | Ct_Dir =>
    let! created := map_err to_nfsstat4 (create_dir srv ctx dir_id (cra_objname args) set_attrs) in
    Ret (Ok (Fs (cres_handle created)))
  | Ct_Link target =>
    match fs_symlinks fs with
    | None => Ret (Err NFS_Notsupp)
    | Some symlinks =>
      let! parent_handle := map_err to_nfsstat4 (resolve_backend_handle dir_id) in
      let! created := map_err to_nfsstat4
        (backend (sy_create_symlink symlinks ctx parent_handle (cra_objname args) target set_attrs)) in
      let! object_id := map_err to_nfsstat4 (register_handle srv (cres_handle created)) in
      Ret (Ok (Fs object_id))
    end
  | Ct_Unsupported _ => Ret (Err NFS_Badtype)
  | _ => Ret (Err NFS_Notsupp)
  end.

(** [match self.kind_of(..)]: the object must be a directory. *)
Definition require_directory (ctx : RequestContext) (id : Z) : proc W (result NfsStat4 unit) :=
  let! kind := map_err to_nfsstat4 (kind_of srv ctx id) in
  Ret (if bool_decide (kind = OT_Directory) then Ok tt else Err NFS_Notdir).

Definition op_create (ctx : RequestContext) (args : CreateArgs4) (current_fh : option bytes)
    (origin_clientid : option Z) : proc W (NfsResop4 * option bytes) :=
  let fail status := (Res_Create status None Bitmap4_new, current_fh) in
  let! (_, dir_object) := resolve_object srv current_fh else fail in
  match dir_object with
  | Fs dir_id =>
    let! _ := require_directory ctx dir_id else fail in
    let! dir_attr_before := build_attr srv ctx dir_object else (fun e => fail (to_nfsstat4 e)) in
    let! set_attrs := Ret (decode_setattr (cra_createattrs args)) else fail in
    let! _ := validate_component_name srv (cra_objname args) else fail in
    let! _ := recall_directory_delegations srv dir_object origin_clientid else fail in
    let! new_object := create_object ctx dir_id args set_attrs else fail in
    let* new_fh := st_object_to_fh new_object in
    match new_fh with
    | None => Ret (fail NFS_Stale)
    | Some new_fh =>
      let* cinfo := mutation_change_info srv ctx dir_object (sf_change_id dir_attr_before) in
      Ret (Res_Create NFS_Ok (Some cinfo) Bitmap4_new, Some new_fh)
    end
  | _ => Ret (fail NFS_Notsupp)
  end.

(** ** LINK *)

Definition op_link (ctx : RequestContext) (args : LinkArgs4) (current_fh saved_fh : option bytes)
    (origin_clientid : option Z) : proc W NfsResop4 :=
  let fail status := Res_Link status None in
  let fail_fs e := fail (to_nfsstat4 e) in
  let! (_, source) := resolve_object srv saved_fh else fail in
  let! (_, target_dir) := resolve_object srv current_fh else fail in
  match source, target_dir with
  | Fs source_id, Fs dir_id =>
    let! _ := require_directory ctx dir_id else fail in
    let! dir_attr_before := build_attr srv ctx target_dir else fail_fs in
    let! _ := validate_component_name srv (lna_newname args) else fail in
    let! _ := recall_directory_delegations srv target_dir origin_clientid else fail in
    match fs_hard_links fs with
    | None => Ret (fail NFS_Notsupp)
    | Some links =>
      let! source_handle := resolve_backend_handle source_id else fail_fs in
      let! dir_handle := resolve_backend_handle dir_id else fail_fs in
      let! _ := backend (hl_link links ctx source_handle dir_handle (lna_newname args)) else fail_fs in
      let* cinfo := mutation_change_info srv ctx target_dir (sf_change_id dir_attr_before) in
      Ret (Res_Link NFS_Ok (Some cinfo))
    end
  | _, _ => Ret (fail NFS_Notsupp)
  end.

(** ** LOOKUP and LOOKUPP *)

Definition lookup_child (ctx : RequestContext) (object : ServerObject) (name : bytes)
    : proc W (result NfsStat4 ServerObject) :=
  match object with
  | Fs dir_id =>
    let! kind := map_err to_nfsstat4 (kind_of srv ctx dir_id) in
    if bool_decide (kind = OT_Directory) then
      let! _ := validate_component_name srv name in
      let! id := map_err to_nfsstat4 (lookup srv ctx dir_id name) in
      Ret (Ok (Fs id))
    else Ret (Err (to_nfsstat4 Fs_NotDirectory))
  | NamedAttrDir parent =>
    match fs_xattrs fs with
    | None => Ret (Err NFS_Notsupp)
    | Some named =>
      let! _ := require_access srv ctx parent AccessMask_XATTR_LIST in
      let! parent_handle := map_err to_nfsstat4 (resolve_backend_handle parent) in
      let! _ := map_err to_nfsstat4 (backend (xa_get_xattr named ctx parent_handle name)) in
      Ret (Ok (NamedAttrFile parent name))
    end
  | NamedAttrFile _ _ => Ret (Err (to_nfsstat4 Fs_NotDirectory))
  end.

(** The result of a step to another object: its filehandle becomes current. *)
Definition move_to (res : NfsStat4 -> NfsResop4) (object : ServerObject) (current_fh : option bytes)
    : proc W (NfsResop4 * option bytes) :=
  let* fh := st_object_to_fh object in
  Ret (match fh with
       | Some fh => (res NFS_Ok, Some fh)
       | None => (res NFS_Stale, current_fh)
       end).

Definition op_lookup (ctx : RequestContext) (args : LookupArgs4) (current_fh : option bytes)
    : proc W (NfsResop4 * option bytes) :=
  let fail status := (Res_Lookup status, current_fh) in
  let! (_, object) := resolve_object srv current_fh else fail in
  let! child := lookup_child ctx object (lka_objname args) else fail in
  move_to Res_Lookup child current_fh.

Definition parent_object (ctx : RequestContext) (object root : ServerObject)
    : proc W (result FsError ServerObject) :=
  match object with
  | Fs id =>
    if bool_decide (root = Fs id) then Ret (Err Fs_NotFound)
    else let! parent_id := lookup_parent srv ctx id in Ret (Ok (Fs parent_id))
  | NamedAttrDir parent => Ret (Ok (Fs parent))
  | NamedAttrFile parent _ => Ret (Ok (NamedAttrDir parent))
  end.

Definition op_lookupp (ctx : RequestContext) (current_fh : option bytes)
    : proc W (NfsResop4 * option bytes) :=
  let fail status := (Res_Lookupp status, current_fh) in
  let! (_, object) := resolve_object srv current_fh else fail in
  let! root := root_object srv else (fun e => fail (to_nfsstat4 e)) in
  let! parent := parent_object ctx object root else (fun e => fail (to_nfsstat4 e)) in
  move_to Res_Lookupp parent current_fh.

(** ** SECINFO_NO_NAME and OPENATTR *)

Definition secinfo_style (ctx : RequestContext) (style : Z) (object : ServerObject)
    : proc W (result NfsStat4 unit) :=
  if style =? 0 then Ret (Ok tt)
  else if style =? 1 then
    let! root := map_err to_nfsstat4 (root_object srv) in
    match object with
    | Fs id =>
      if bool_decide (root = Fs id) then Ret (Err NFS_Noent)
      else let! _ := map_err to_nfsstat4 (lookup_parent srv ctx id) in Ret (Ok tt)
    | _ => Ret (Ok tt)
    end
  else Ret (Err NFS_Inval).

Definition op_secinfo_no_name (ctx : RequestContext) (style : Z) (current_fh : option bytes)
    : proc W (NfsResop4 * option bytes) :=
  let fail status := (Res_SecInfoNoName status [], current_fh) in
  let! (_, object) := resolve_object srv current_fh else fail in
  let! _ := secinfo_style ctx style object else fail in
  Ret (Res_SecInfoNoName NFS_Ok (secinfo_flavors srv), None).

Definition op_openattr (current_fh : option bytes) : proc W (NfsResop4 * option bytes) :=
  let fail status := (Res_OpenAttr status, current_fh) in
  match fs_xattrs fs with
  | None => Ret (fail NFS_Notsupp)
  | Some _ =>
    let! (_, object) := resolve_object srv current_fh else fail in
    match object with
    | Fs id =>
      let* _ := st_ensure_meta (NamedAttrDir id) FT_NamedAttrDir in
      move_to Res_OpenAttr (NamedAttrDir id) current_fh
    | _ => Ret (fail NFS_Inval)
    end
  end.

(** ** READDIR *)

(** An entry before its attributes are read: name, object, cookie, attributes that
    came with it. *)
Definition RawEntry : Type := bytes * ServerObject * Z * option Attrs.

Definition named_attr_entries (parent start : Z) (names : list bytes) : list RawEntry :=
  imap (fun idx name => (name, NamedAttrFile parent name, start + 3 + Z.of_nat idx, None))
    (drop (Z.to_nat start) names).

Definition readdir_entries (ctx : RequestContext) (args : ReaddirArgs4) (object : ServerObject)
    : proc W (result NfsStat4 (list RawEntry * bool)) :=
  match object with
  | Fs dir_id =>
    let with_attrs := existsb (fun word => negb (word =? 0)) (bm_words (rdd_attr_request args)) in
    let backend_max_entries := Z.max (rdd_maxcount args / 128) 1 in
    let! page := map_err to_nfsstat4
      (readdir srv ctx dir_id (rdd_cookie args) backend_max_entries with_attrs) in
    Ret (Ok ((fun entry => (de_name entry, Fs (de_handle entry), de_cookie entry, de_attrs entry))
               <$> dp_entries page, dp_eof page))
  | NamedAttrDir parent =>
    match fs_xattrs fs with
    | None => Ret (Err NFS_Notsupp)
    | Some named =>
      let! parent_handle := map_err to_nfsstat4 (resolve_backend_handle parent) in
      let! names := map_err to_nfsstat4 (backend (xa_list_xattrs named ctx parent_handle)) in
      let start := if rdd_cookie args =? 0 then 0 else Z.max (rdd_cookie args - 2) 0 in
      Ret (Ok (named_attr_entries parent start names, true))
    end
  | NamedAttrFile _ _ => Ret (Err NFS_Notdir)
  end.

(** The entries of the reply so far, the bytes of their names and cookies, and the
    bytes of the whole reply. *)
Record ReaddirAcc := mkReaddirAcc {
  ra_entries : list Entry4;
  ra_dir_bytes : Z;
  ra_total_bytes : Z;
}.

(** The reply's entry for an object; [None]: the entry is left out. *)
Definition readdir_entry (ctx : RequestContext) (args : ReaddirArgs4) (limits : FsLimits)
    (caps : FsCapabilities) (minorversion : Z) (raw : RawEntry)
    : proc W (result NfsStat4 (option Entry4)) :=
  let '(name, object, cookie, inline_attrs) := raw in
  let* attr := (match inline_attrs with
                | Some attrs => Ret (Ok (attr_from_backend srv attrs))
                | None => build_attr srv ctx object
                end) in
  match attr with
  | Err _ => Ret (Ok None)
  | Ok entry_attr =>
    let! stats := (if request_needs_fs_stats (rdd_attr_request args)
                   then let! st := map_err to_nfsstat4 (statfs_for_object srv ctx object) in
                        Ret (Ok (Some st))
                   else Ret (Ok None)) in
    let* entry_fh := st_object_to_fh object in
    Ret (Ok (match entry_fh with
             | None => None
             | Some fh => Some (mkEntry4 cookie name
                 (encode_fattr4 entry_attr (rdd_attr_request args) fh
                    (mkAttrEncodingContext limits stats caps minorversion)))
             end))
  end.

(** What the size limits make of one more entry: [None] stops the loop. *)
Definition readdir_add (dircount_limit maxcount_limit : Z) (entry : Entry4) (acc : ReaddirAcc)
    : result NfsStat4 (option ReaddirAcc) :=
  let dir_entry_size := readdir_dir_info_len entry in
  let entry_total := readdir_entry_list_item_len entry in
  let exceeds_dircount := dircount_limit <? ra_dir_bytes acc + dir_entry_size in
  let exceeds_maxcount := maxcount_limit <? ra_total_bytes acc + entry_total in
  let empty := bool_decide (ra_entries acc = []) in
  if negb empty && (exceeds_dircount || exceeds_maxcount) then Ok None
  else if empty && exceeds_maxcount then Err NFS_Toosmall
  else Ok (Some (mkReaddirAcc (ra_entries acc ++ [entry]) (ra_dir_bytes acc + dir_entry_size)
                   (ra_total_bytes acc + entry_total))).

Fixpoint readdir_loop (ctx : RequestContext) (args : ReaddirArgs4) (limits : FsLimits)
    (caps : FsCapabilities) (minorversion : Z) (raws : list RawEntry) (acc : ReaddirAcc)
    : proc W (result NfsStat4 ReaddirAcc) :=
  match raws with
  | [] => Ret (Ok acc)
  | raw :: raws =>
    let! entry := readdir_entry ctx args limits caps minorversion raw in
    match entry with
    | None => readdir_loop ctx args limits caps minorversion raws acc
    | Some entry =>
      let dircount_limit := if rdd_dircount args =? 0 then u64_max else rdd_dircount args in
      let! next := Ret (readdir_add dircount_limit (rdd_maxcount args) entry acc) in
      match next with
      | None => Ret (Ok acc)
      | Some acc => readdir_loop ctx args limits caps minorversion raws acc
      end
    end
  end.

(** The checks on the request itself. *)
Definition readdir_check (args : ReaddirArgs4) (dir_attr : ServerFileAttr) : result NfsStat4 bytes :=
  let cookieverf := be_bytes 8 (sf_change_id dir_attr) in
  if negb (is_dir_type (sf_file_type dir_attr)) then Err NFS_Notdir
  else if (rdd_cookie args =? 1) || (rdd_cookie args =? 2) then Err NFS_BadCookie
  else if rdd_maxcount args =? 0 then Err NFS_Toosmall
  else if Bitmap4_is_set (rdd_attr_request args) FATTR4_TIME_ACCESS_SET ||
          Bitmap4_is_set (rdd_attr_request args) FATTR4_TIME_MODIFY_SET then Err NFS_Inval
  else if negb (rdd_cookie args =? 0) && negb (bool_decide (rdd_cookieverf args = cookieverf))
  then Err NFS_NotSame
  else Ok cookieverf.

Definition op_readdir (ctx : RequestContext) (args : ReaddirArgs4) (current_fh : option bytes)
    (minorversion : Z) : proc W NfsResop4 :=
  let fail status := Res_Readdir status None in
  let! (_, object) := resolve_object srv current_fh else fail in
  let! _ := (match object with
             | NamedAttrDir parent => require_access srv ctx parent AccessMask_XATTR_LIST
             | _ => Ret (Ok tt)
             end) else fail in
  let! dir_attr := build_attr srv ctx object else (fun e => fail (to_nfsstat4 e)) in
  let! cookieverf := Ret (readdir_check args dir_attr) else fail in
  let! (entries, backend_eof) := readdir_entries ctx args object else fail in
  if rdd_maxcount args <? readdir_resok_len [] then Ret (fail NFS_Toosmall)
  else
    let* limits := limits srv in
    let* caps := capabilities srv in
    let! acc := readdir_loop ctx args limits caps minorversion entries
                  (mkReaddirAcc [] 0 (readdir_resok_len [])) else fail in
    let eof := backend_eof && (zlen (ra_entries acc) =? zlen entries) in
    Ret (Res_Readdir NFS_Ok (Some (mkReaddirRes4 cookieverf (ra_entries acc) eof))).

(** ** REMOVE and RENAME *)

Definition remove_named_attr (ctx : RequestContext) (parent : Z) (target : bytes)
    : proc W (result NfsStat4 unit) :=
  match fs_xattrs fs with
  | None => Ret (Err NFS_Notsupp)
  | Some named =>
    let! parent_handle := map_err to_nfsstat4 (resolve_backend_handle parent) in
    let! _ := map_err to_nfsstat4 (backend (xa_remove_xattr named ctx parent_handle target)) in
    let* _ := refresh_xattr_summary srv ctx parent in
    let* _ := st_touch_metadata (NamedAttrDir parent) FT_NamedAttrDir in
    let* _ := parent_change_after_xattr_mutation srv ctx parent in
    Ret (Ok tt)
  end.

Definition remove_target (ctx : RequestContext) (dir_object : ServerObject) (target : bytes)
    : proc W (result NfsStat4 unit) :=
  match dir_object with
  | Fs dir_id => map_err to_nfsstat4 (remove srv ctx dir_id target)
  | NamedAttrDir parent => remove_named_attr ctx parent target
  | NamedAttrFile _ _ => Ret (Err NFS_Notdir)
  end.

Definition op_remove (ctx : RequestContext) (args : RemoveArgs4) (current_fh : option bytes)
    (origin_clientid : option Z) : proc W NfsResop4 :=
  let fail status := Res_Remove status None in
  let! (_, dir_object) := resolve_object srv current_fh else fail in
  let! _ := (match dir_object with
             | NamedAttrDir parent => require_access srv ctx parent AccessMask_XATTR_WRITE
             | _ => Ret (Ok tt)
             end) else fail in
  let! dir_attr_before := build_attr srv ctx dir_object else (fun e => fail (to_nfsstat4 e)) in
  let! _ := validate_component_name srv (rma_target args) else fail in
  let! _ := (if is_dir_type (sf_file_type dir_attr_before)
             then recall_directory_delegations srv dir_object origin_clientid
             else Ret (Ok tt)) else fail in
  let! _ := remove_target ctx dir_object (rma_target args) else fail in
  let* cinfo := mutation_change_info srv ctx dir_object (sf_change_id dir_attr_before) in
  Ret (Res_Remove NFS_Ok (Some cinfo)).

Definition op_rename (ctx : RequestContext) (args : RenameArgs4) (current_fh saved_fh : option bytes)
    (origin_clientid : option Z) : proc W NfsResop4 :=
  let fail status := Res_Rename status None None in
  let fail_fs e := fail (to_nfsstat4 e) in
  let! (_, src_object) := resolve_object srv saved_fh else fail in
  let! (_, tgt_object) := resolve_object srv current_fh else fail in
  match src_object, tgt_object with
  | Fs src_dir_id, Fs tgt_dir_id =>
    let! src_before := build_attr srv ctx src_object else fail_fs in
    let! tgt_before := build_attr srv ctx tgt_object else fail_fs in
    let! _ := recall_directory_delegations srv src_object origin_clientid else fail in
    let! _ := (if bool_decide (src_object = tgt_object) then Ret (Ok tt)
               else recall_directory_delegations srv tgt_object origin_clientid) else fail in
    let! _ := rename srv ctx src_dir_id (rna_oldname args) tgt_dir_id (rna_newname args)
      else fail_fs in
    let* src_cinfo := mutation_change_info srv ctx src_object (sf_change_id src_before) in
    let* tgt_cinfo := mutation_change_info srv ctx tgt_object (sf_change_id tgt_before) in
    Ret (Res_Rename NFS_Ok (Some src_cinfo) (Some tgt_cinfo))
  | _, _ => Ret (fail NFS_Notsupp)
  end.
End directory.
