(* ===== verification/OpsLocking.v ===== *)
(** * LOCK, LOCKT and LOCKU as requests (crates/embednfs/src/server/ops/locking.rs)

    The handlers of [Locking] with the steps between which other requests run:
    the conflict search is one critical section and the recording of the lock
    another.  [lock_handler_sequential] says that a handler that runs undisturbed
    is the one of [Locking], so that what is proved there holds of it. *)

From stdpp Require Import base gmap list sets strings numbers.
From Stdlib Require Import ZArith Lia.
From S2P Require Import Prelude Xdr Rpc Types Constants StateModel Operations Codec FsApi Metadata.
From S2P Require Import Clients Stateids Opens Locks Filehandles AttrCodec Locking.
From S2P Require Import Server ServerFs OpsDelegation OpsFile.

Local Open Scope Z_scope.
Local Open Scope proc_scope.

Section locking.
Context {H B : Type} `{Countable H} {ho : HashOrder} (srv : NfsServer H B).
Abbreviation W := (Server H B).

(** The prefix shared by LOCK and LOCKT. *)
Definition lock_object (ctx : RequestContext) (current_fh : option bytes) (offset length : Z)
    : proc W (result NfsStat4 ServerObject) :=
  let! (_, object) := resolve_object srv current_fh in
  let! attr := map_err to_nfsstat4 (build_attr srv ctx object) in
  if is_dir_type (sf_file_type attr) then Ret (Err NFS_Isdir)
  else let! _ := Ret (validate_lock_bounds offset length) in Ret (Ok object).

Definition lock_new (object : ServerObject) (clientid : Z) (args : LockArgs4)
    (new_owner : OpenToLockOwner4) (current_stateid : option Stateid4) : proc W NfsResop4 :=
  let fail status := Res_Lock status None None in
  let! open_stateid := Ret (concrete_or_bad (ol_open_stateid new_owner) current_stateid ZeroSeqid)
    else fail in
  let! resolved := st_resolve_stateid (Some clientid) open_stateid None ZeroSeqid else fail in
  match resolved with
  | Resolved_Open open =>
    if bool_decide (ro_object open = object) then
      let* conflict := st_find_lock_conflict object (ol_lock_owner new_owner) (la_locktype args)
                         (la_offset args) (la_length args) None in
      match conflict with
      | Some denied => Ret (Res_Lock NFS_Denied None (Some denied))
      | None =>
        let! stateid := st_create_lock_state open_stateid (ol_lock_owner new_owner) object
                          (la_locktype args) (la_offset args) (la_length args) else fail in
        Ret (Res_Lock NFS_Ok (Some stateid) None)
      end
    else Ret (fail NFS_Openmode)
  | _ => Ret (fail NFS_Openmode)
  end.

Definition lock_existing (object : ServerObject) (clientid : Z) (args : LockArgs4)
    (existing : ExistLockOwner4) (current_stateid : option Stateid4) : proc W NfsResop4 :=
  let fail status := Res_Lock status None None in
  let! lock_stateid := Ret (concrete_or_bad (el_lock_stateid existing) current_stateid ZeroSeqid)
    else fail in
  let! resolved := st_resolve_stateid (Some clientid) lock_stateid None ZeroSeqid else fail in
  match resolved with
  | Resolved_Lock lock =>
    if bool_decide (rl_object lock = object) then
      let* conflict := st_find_lock_conflict object (rl_owner lock) (la_locktype args)
                         (la_offset args) (la_length args) (Some lock_stateid) in
      match conflict with
      | Some denied => Ret (Res_Lock NFS_Denied None (Some denied))
      | None =>
        let! stateid := st_update_lock_state lock_stateid (la_locktype args) (la_offset args)
                          (la_length args) else fail in
        Ret (Res_Lock NFS_Ok (Some stateid) None)
      end
    else Ret (fail NFS_BadStateid)
  | _ => Ret (fail NFS_BadStateid)
  end.

Definition op_lock (ctx : RequestContext) (args : LockArgs4) (current_fh : option bytes)
    (current_stateid : option Stateid4) (sequence_clientid : option Z) : proc W NfsResop4 :=
  let fail status := Res_Lock status None None in
  let! object := lock_object ctx current_fh (la_offset args) (la_length args) else fail in
  match sequence_clientid with
  | None => Ret (fail NFS_BadStateid)
  | Some clientid =>
    match la_locker args with
    | NewLockOwner new_owner => lock_new object clientid args new_owner current_stateid
    | ExistingLockOwner existing => lock_existing object clientid args existing current_stateid
    end
  end.

Definition op_lockt (ctx : RequestContext) (args : LocktArgs4) (current_fh : option bytes)
    : proc W NfsResop4 :=
  let! object := lock_object ctx current_fh (lt_offset args) (lt_length args)
    else (fun status => Res_Lockt status None) in
  let* conflict := st_find_lock_conflict object (lt_owner args) (lt_locktype args)
                     (lt_offset args) (lt_length args) None in
  Ret (match conflict with
       | Some denied => Res_Lockt NFS_Denied (Some denied)
       | None => Res_Lockt NFS_Ok None
       end).

Definition op_locku (args : LockuArgs4) (current_fh : option bytes)
    (current_stateid : option Stateid4) (sequence_clientid : option Z) : proc W NfsResop4 :=
  let fail status := Res_Locku status None in
  let! (_, object) := resolve_object srv current_fh else fail in
  match sequence_clientid with
  | None => Ret (fail NFS_BadStateid)
  | Some clientid =>
    let! stateid := Ret (concrete_or_bad (lu_lock_stateid args) current_stateid ZeroSeqid) else fail in
    let! resolved := st_resolve_stateid (Some clientid) stateid None ZeroSeqid else fail in
    match resolved with
    | Resolved_Lock lock =>
      if bool_decide (rl_object lock = object) then
        let! stateid := st_unlock_state stateid (lu_offset args) (lu_length args) else fail in
        Ret (Res_Locku NFS_Ok (Some stateid))
      else Ret (fail NFS_BadStateid)
    | _ => Ret (fail NFS_BadStateid)
    end
  end.

(** ** Undisturbed, the handlers are those of [Locking] *)

Definition lock_reply (r : LockRes) : NfsResop4 := Res_Lock (lk_status r) (lk_stateid r) (lk_denied r).

(** A handler that ran from [w] and the function that models it. *)
Definition same_outcome (out : option NfsResop4 * W) (model : option (LockRes * StateManager)) : Prop :=
  match model with
  | Some (res, s') => out.1 = Some (lock_reply res) /\ sv_state out.2 = s'
  | None => out.1 = None
  end.

(** Each asynchronous method of the state manager, undisturbed, is the function
    that models it at the next clock reading. *)
Definition timed_run {A} (r : A * StateManager) (w : W) : option A * W :=
  (Some r.1, tick (set_sv_state r.2 w)).

Lemma run_resolve_stateid c q cur mode (w : W) :
  run (st_resolve_stateid c q cur mode) w =
  timed_run (resolve_stateid c q cur mode (instant w) (sv_state w)) w.
Proof.
  unfold st_resolve_stateid, resolve_stateid. rewrite run_bind. simpl.
  by destruct (normalize_stateid q cur mode) as [[]|].
Qed.

Lemma run_find_lock_conflict object owner t offset length ignore (w : W) :
  run (st_find_lock_conflict object owner t offset length ignore) w =
  timed_run (find_lock_conflict object owner t offset length ignore (instant w) (sv_state w)) w.
Proof. done. Qed.

Lemma run_create_lock_state sid owner object t offset length (w : W) :
  run (st_create_lock_state sid owner object t offset length) w =
  timed_run (create_lock_state sid owner object t offset length (instant w) (sv_state w)) w.
Proof.
  unfold st_create_lock_state, create_lock_state. rewrite run_bind. simpl.
  destruct (validate_lock_bounds _ _) as [[]|]; [|done]. unfold state_op, atomic. simpl.
  by destruct (create_lock_state_guarded _ _ _ _ _ _ _).
Qed.

Lemma run_update_lock_state sid t offset length (w : W) :
  match update_lock_state sid t offset length (instant w) (sv_state w) with
  | Some r => run (st_update_lock_state sid t offset length) w = timed_run r w
  | None => (run (st_update_lock_state sid t offset length) w).1 = None
  end.
Proof.
  unfold st_update_lock_state, update_lock_state. rewrite run_bind. simpl.
  destruct (validate_lock_bounds _ _) as [[]|]; [|done]. unfold state_op, atomic. simpl.
  by destruct (update_lock_state_guarded _ _ _ _ _) as [[]|].
Qed.

Lemma lock_new_sequential object c args new_owner cur (w : W) :
  same_outcome (run (lock_new object c args new_owner cur) w)
    (Some (op_lock_new object c args new_owner cur (instant w) (instant (tick w))
             (instant (tick (tick w))) (sv_state w))).
Proof.
  unfold lock_new, op_lock_new, concrete_stateid, concrete_or_bad, bind_or. rewrite run_bind.
  destruct (normalize_stateid (ol_open_stateid new_owner) cur ZeroSeqid) as [[| |sid]|e]; try done.
  cbn [run]. rewrite run_bind, run_resolve_stateid.
  destruct (resolve_stateid _ _ _ _ _ _) as [[[| |open|lock]|e] s]; try done. unfold timed_run; cbn [fst snd].
  destruct (bool_decide (ro_object open = object)); [|done].
  rewrite run_bind, run_find_lock_conflict.
  change (find_lock_conflict _ _ _ _ _ _ _ _) with
    (find_lock_conflict object (ol_lock_owner new_owner) (la_locktype args) (la_offset args)
       (la_length args) None (instant (tick w)) s).
  destruct (find_lock_conflict _ _ _ _ _ _ _ _) as [[d|] s1]; [done|].
  unfold timed_run; cbn [fst snd]. rewrite run_bind, run_create_lock_state.
  change (create_lock_state _ _ _ _ _ _ _ _) with
    (create_lock_state sid (ol_lock_owner new_owner) object (la_locktype args) (la_offset args)
       (la_length args) (instant (tick (tick w))) s1).
  by destruct (create_lock_state _ _ _ _ _ _ _ _) as [[r|e] s2].
Qed.

Lemma lock_existing_sequential object c args existing cur (w : W) :
  same_outcome (run (lock_existing object c args existing cur) w)
    (op_lock_existing object c args existing cur (instant w) (instant (tick w))
       (instant (tick (tick w))) (sv_state w)).
Proof.
  unfold lock_existing, op_lock_existing, concrete_stateid, concrete_or_bad, bind_or.
  rewrite run_bind.
  destruct (normalize_stateid (el_lock_stateid existing) cur ZeroSeqid) as [[| |sid]|e]; try done.
  cbn [run]. rewrite run_bind, run_resolve_stateid.
  destruct (resolve_stateid _ _ _ _ _ _) as [[[| |open|lock]|e] s]; try done. unfold timed_run; cbn [fst snd].
  destruct (bool_decide (rl_object lock = object)); [|done].
  rewrite run_bind, run_find_lock_conflict.
  change (find_lock_conflict _ _ _ _ _ _ _ _) with
    (find_lock_conflict object (rl_owner lock) (la_locktype args) (la_offset args)
       (la_length args) (Some sid) (instant (tick w)) s).
  destruct (find_lock_conflict _ _ _ _ _ _ _ _) as [[d|] s1]; [done|].
  unfold timed_run; cbn [fst snd]. rewrite run_bind.
  pose proof (run_update_lock_state sid (la_locktype args) (la_offset args) (la_length args)
    (tick (set_sv_state s1 (tick (set_sv_state s w))))) as Hu.
  change (update_lock_state _ _ _ _ _ _) with
    (update_lock_state sid (la_locktype args) (la_offset args) (la_length args)
       (instant (tick (tick w))) s1) in Hu.
  destruct (update_lock_state _ _ _ _ _ _) as [[[r|e] s2]|].
  - rewrite Hu. done.
  - rewrite Hu. done.
  - by destruct (run (st_update_lock_state _ _ _ _) _) as [[]].
Qed.

Lemma lock_object_bounds ctx fh offset length (w w1 : W) object :
  run (lock_object ctx fh offset length) w = (Some (Ok object), w1) ->
  validate_lock_bounds offset length = Ok tt.
Proof.
  unfold lock_object, bind_ok. rewrite run_bind.
  destruct (run (resolve_object srv fh) w) as [[[[fh' o]|e]|] w2]; try done.
  rewrite run_bind. destruct (run (map_err _ _) w2) as [[[attr|e]|] w3]; try done.
  destruct (is_dir_type _); [done|]. cbn [run proc_bind].
  by destruct (validate_lock_bounds offset length) as [[]|].
Qed.

(** The LOCK handler, run without interference, is the sequential handler
    of [Locking] applied to what the filehandle and its attributes resolve to,
    with the clock readings of the three lease reaps it performs: the same reply,
    the same state afterwards, and a panic exactly when that function has one. *)
Lemma lock_handler_sequential ctx args fh cur c (w w1 : W) target :
  run (lock_object ctx fh (la_offset args) (la_length args)) w = (Some target, w1) ->
  same_outcome (run (op_lock ctx args fh cur c) w)
    (Locking.op_lock target (Ok FT_Regular) args cur c (instant w1) (instant (tick w1))
       (instant (tick (tick w1))) (sv_state w1)).
Proof.
  intros Hrun. unfold op_lock, Locking.op_lock, lock_target, bind_or. rewrite run_bind, Hrun.
  destruct target as [object|e]; [|done].
  cbn [is_dir_like]. rewrite (lock_object_bounds _ _ _ _ _ _ _ Hrun).
  destruct c as [c|]; [|done].
  destruct (la_locker args); [apply lock_new_sequential|apply lock_existing_sequential].
Qed.
End locking.
