(* ===== verification/Requests.v ===== *)
(** * One request among others

    [executes m tr a]: a request [m] returned [a], its steps having found the
    server in the states [tr], in that order.  Nothing is assumed of how the
    states follow each other, so a fact proved of every execution holds whatever
    other requests do between the steps.

    Here: a READ or a WRITE that succeeds was admitted, by the backend's access
    check and by the share reservations and byte-range locks, before it touched
    the data; a READDIR reply never exceeds the size the client asked for; and a
    client that pages through LISTXATTRS sees every name once. *)

From stdpp Require Import base gmap list sets strings numbers.
From Stdlib Require Import ZArith Lia.
From S2P Require Import Prelude Xdr Rpc Types Constants StateModel Operations Codec CodecProps FsApi Metadata.
From S2P Require Import Stateids Opens Locks Filehandles AttrCodec.
From S2P Require Import Server ServerFs OpsDelegation OpsFile OpsAttrs OpsDirectory.

Local Open Scope Z_scope.
Local Open Scope proc_scope.

(** ** Executions *)

Section executes.
Context {W : Type}.

Inductive executes {A} : proc W A -> list W -> A -> Prop :=
| ex_ret a : executes (Ret a) [] a
| ex_step upd k w tr a : executes (k w) tr a -> executes (Step upd k) (w :: tr) a.

Lemma executes_ret {A} (a : A) tr b : executes (Ret a) tr b -> tr = [] /\ b = a.
Proof. inversion 1; auto. Qed.

Lemma executes_bind {A C} (m : proc W A) (f : A -> proc W C) tr c :
  executes (proc_bind m f) tr c ->
  exists tr1 tr2 a, tr = tr1 ++ tr2 /\ executes m tr1 a /\ executes (f a) tr2 c.
Proof.
  revert tr. induction m as [a| |upd k IH]; intros tr Hx; simpl in Hx.
  - exists [], tr, a. by repeat constructor.
  - inversion Hx.
  - inversion Hx as [|? ? w tr' ? Hk]; subst. destruct (IH _ _ Hk) as (tr1 & tr2 & a & -> & H1 & H2).
    exists (w :: tr1), tr2, a. by repeat constructor.
Qed.

Lemma executes_ok {E A C} (m : proc W (result E A)) (f : A -> proc W (result E C)) tr c :
  executes (bind_ok m f) tr (Ok c) ->
  exists tr1 tr2 a, tr = tr1 ++ tr2 /\ executes m tr1 (Ok a) /\ executes (f a) tr2 (Ok c).
Proof.
  intros (tr1 & tr2 & [a|e] & -> & Hm & Hf)%executes_bind; [by eauto 6|].
  by apply executes_ret in Hf as [_ ?].
Qed.

Lemma executes_or {E A C} (m : proc W (result E A)) (g : E -> C) (f : A -> proc W C) tr c :
  executes (bind_or m g f) tr c -> (forall e, g e <> c) ->
  exists tr1 tr2 a, tr = tr1 ++ tr2 /\ executes m tr1 (Ok a) /\ executes (f a) tr2 c.
Proof.
  intros (tr1 & tr2 & [a|e] & -> & Hm & Hf)%executes_bind Hg; [by eauto 6|].
  apply executes_ret in Hf as [_ ?]. by destruct (Hg e).
Qed.

Lemma executes_atomic {A} (f : W -> A * W) tr a :
  executes (atomic f) tr a -> exists w, tr = [w] /\ (f w).1 = a.
Proof.
  intros Hx. inversion Hx as [|? ? w tr' ? Hk]; subst.
  destruct (executes_ret _ _ _ Hk) as [-> ->]. eauto.
Qed.

Lemma executes_observe {A} (f : W -> A) tr a :
  executes (observe f) tr a -> exists w, tr = [w] /\ f w = a.
Proof.
  intros Hx. inversion Hx as [|? ? w tr' ? Hk]; subst.
  destruct (executes_ret _ _ _ Hk) as [-> ->]. eauto.
Qed.

(** A request that runs undisturbed is one of its executions. *)
Fixpoint run_trace {A} (m : proc W A) (w : W) : list W :=
  match m with Step upd k => w :: run_trace (k w) (upd w) | _ => [] end.

Lemma run_executes {A} (m : proc W A) w a :
  (run m w).1 = Some a -> executes m (run_trace m w) a.
Proof.
  revert w. induction m as [b| |upd k IH]; intros w Hr; simpl in *; [|done|].
  - injection Hr as ->. constructor.
  - constructor. by apply IH.
Qed.
End executes.

Section requests.
Context {H B : Type} `{Countable H} {ho : HashOrder} (srv : NfsServer H B).
Abbreviation W := (Server H B).
Abbreviation fs := (ns_fs srv).

(** [x] happens in [tr]. *)
Definition during (tr part : list W) : Prop := exists before after, tr = before ++ part ++ after.

Lemma during_refl tr : during tr tr.
Proof. exists [], []. by rewrite app_nil_r. Qed.
Lemma during_left tr1 tr2 part : during tr1 part -> during (tr1 ++ tr2) part.
Proof. intros (a & b & ->). exists a, (b ++ tr2). by rewrite <- !app_assoc. Qed.
Lemma during_right tr1 tr2 part : during tr2 part -> during (tr1 ++ tr2) part.
Proof. intros (a & b & ->). exists (tr1 ++ a), b. by rewrite <- !app_assoc. Qed.
#[local] Hint Resolve during_refl during_left during_right : core.

(** ** Steps of a request *)

Lemma executes_map_err {A E F} (f : E -> F) (m : proc W (result E A)) tr a :
  executes (map_err f m) tr (Ok a) -> executes m tr (Ok a).
Proof.
  intros (tr1 & tr2 & [b|e] & -> & Hm & Hr)%executes_bind; apply executes_ret in Hr as [-> Hr];
    [|done]. injection Hr as ->. by rewrite app_nil_r.
Qed.

Lemma executes_backend {A} (f : fs_op B A) tr r :
  executes (backend (H := H) f) tr r -> exists w, tr = [w] /\ (f (sv_fs w)).1 = r.
Proof.
  intros (w & -> & Hw)%executes_atomic. exists w. split; [done|].
  by destruct (f (sv_fs w)).
Qed.

(** The handle an object id stands for, and the call on it. *)
Lemma executes_on_handle {A} (id : Z) (f : H -> fs_op B A) tr a :
  executes (let! handle := resolve_backend_handle id in backend (f handle)) tr (Ok a) ->
  exists w1 w2 h, tr = [w1; w2] /\ sv_object_to_handle w1 !! id = Some h /\ (f h (sv_fs w2)).1 = Ok a.
Proof.
  intros (tr1 & tr2 & h & -> & Hh & Hb)%executes_ok.
  apply executes_observe in Hh as (w1 & -> & Hh). apply executes_backend in Hb as (w2 & -> & Hb).
  exists w1, w2, h. by destruct (sv_object_to_handle w1 !! id) as [?|]; simplify_eq.
Qed.

(** The backend granted [need] on the object [id]. *)
Definition access_granted (ctx : RequestContext) (id need : Z) (tr : list W) : Prop :=
  exists w1 w2 h granted, during tr [w1; w2] /\ sv_object_to_handle w1 !! id = Some h /\
    (fs_access fs ctx h need (sv_fs w2)).1 = Ok granted /\ mask_contains granted need = true.

Lemma executes_require_access ctx id need tr :
  executes (require_access srv ctx id need) tr (Ok tt) -> access_granted ctx id need tr.
Proof.
  intros (tr1 & tr2 & r & -> & Ha & Hr)%executes_bind. apply executes_ret in Hr as [-> Hr].
  destruct r as [granted|e]; [|done]. destruct (mask_contains granted need) eqn:E; [|done].
  apply executes_on_handle in Ha as (w1 & w2 & h & -> & Hh & Hb).
  exists w1, w2, h, granted. auto.
Qed.

Lemma granted_left ctx id need tr1 tr2 :
  access_granted ctx id need tr1 -> access_granted ctx id need (tr1 ++ tr2).
Proof. intros (w1 & w2 & h & g & Hd & Hr). exists w1, w2, h, g. auto. Qed.
Lemma granted_right ctx id need tr1 tr2 :
  access_granted ctx id need tr2 -> access_granted ctx id need (tr1 ++ tr2).
Proof. intros (w1 & w2 & h & g & Hd & Hr). exists w1, w2, h, g. auto. Qed.
#[local] Hint Resolve granted_left granted_right : core.

(** The request's stateid stands for [object], its share mode allows the
    transfer, and neither a share reservation nor a byte-range lock of another
    owner forbade it when they were looked up. *)
Definition io_admitted (object : ServerObject) (stateid : Stateid4) (io : IoStateContext)
    (tr : list W) : Prop :=
  exists tr0 wd resolved ignore_open owner ignore_lock,
    during tr tr0 /\
    executes (resolve_io_stateid object stateid (io_current_stateid io) (io_sequence_clientid io))
      tr0 (Ok resolved) /\
    io_exemptions resolved (io_is_write io) = Ok (ignore_open, owner, ignore_lock) /\
    during tr [wd] /\
    share_deny_conflict (sm_inner (sv_state wd)) object
      (if io_is_write io then OPEN4_SHARE_ACCESS_WRITE else OPEN4_SHARE_ACCESS_READ) ignore_open = false /\
    (io_length io = 0 \/
     exists wl, during tr [wl] /\
       io_lock_conflict (sm_inner (sv_state wl)) object owner (io_is_write io) (io_offset io)
         (io_length io) ignore_lock = false).

Lemma io_admitted_sub object stateid io tr tr' :
  (forall part, during tr part -> during tr' part) ->
  io_admitted object stateid io tr -> io_admitted object stateid io tr'.
Proof.
  intros Hsub (tr0 & wd & r & ig & ow & il & H0' & H1 & H2 & H3 & H4 & H5).
  exists tr0, wd, r, ig, ow, il. repeat split; auto.
  destruct H5 as [|(wl & Hwl & Hl)]; [by left|right]. exists wl. auto.
Qed.
Lemma io_admitted_left object stateid io tr1 tr2 :
  io_admitted object stateid io tr1 -> io_admitted object stateid io (tr1 ++ tr2).
Proof. apply io_admitted_sub. auto. Qed.
Lemma io_admitted_right object stateid io tr1 tr2 :
  io_admitted object stateid io tr2 -> io_admitted object stateid io (tr1 ++ tr2).
Proof. apply io_admitted_sub. auto. Qed.

Lemma executes_share_deny object access ignore tr b :
  executes (st_has_conflicting_share_deny (H := H) (B := B) object access ignore) tr b ->
  exists w, during tr [w] /\ share_deny_conflict (sm_inner (sv_state w)) object access ignore = b.
Proof.
  intros (tr1 & tr2 & [] & -> & _ & Hr)%executes_bind.
  apply executes_observe in Hr as (w & -> & Hr). exists w. auto.
Qed.

Lemma executes_io_lock object owner is_write offset length ignore tr :
  executes (st_has_conflicting_io_lock (H := H) (B := B) object owner is_write offset length ignore)
    tr false ->
  length = 0 \/ exists w, during tr [w] /\
    io_lock_conflict (sm_inner (sv_state w)) object owner is_write offset length ignore = false.
Proof.
  intros (tr1 & tr2 & [] & -> & _ & Hr)%executes_bind.
  destruct (Z.eqb_spec length 0); [by left|right].
  apply executes_observe in Hr as (w & -> & Hr). exists w. auto.
Qed.

Lemma executes_validate_io object stateid io tr :
  executes (validate_io_stateid object stateid io) tr (Ok tt) -> io_admitted object stateid io tr.
Proof.
  intros (tr0 & tr1 & resolved & -> & Hr & Hx)%executes_ok.
  apply executes_ok in Hx as (tr2 & tr3 & [[ig ow] il] & -> & He & Hx).
  apply executes_ret in He as [-> He]. cbn [app] in *.
  apply executes_bind in Hx as (tr4 & tr5 & denied & -> & Hd & Hx).
  apply executes_share_deny in Hd as (wd & Hwd & Hd).
  destruct denied; [by apply executes_ret in Hx as [_ ?]|].
  apply executes_bind in Hx as (tr6 & tr7 & locked & -> & Hl & Hx).
  apply executes_ret in Hx as [-> Hx]. destruct locked; [done|].
  apply executes_io_lock in Hl.
  exists tr0, wd, resolved, ig, ow, il. repeat split; auto.
  destruct Hl as [|(wl & Hwl & Hl)]; [by left|right]. exists wl. auto 6.
Qed.

Lemma executes_named_gate ctx object need tr :
  executes (named_attr_gate srv ctx object need) tr (Ok tt) ->
  match object with NamedAttrFile parent _ => access_granted ctx parent need tr | _ => tr = [] end.
Proof.
  destruct object; cbn [named_attr_gate]; [by intros [-> _]%executes_ret..|].
  apply executes_require_access.
Qed.

(** ** READ and WRITE *)

(** The transfer itself: the last steps of the request that touch the data. *)
Definition data_read (ctx : RequestContext) (object : ServerObject) (offset count : Z)
    (res : ReadRes4) (tr : list W) : Prop :=
  match object with
  | Fs id => exists w1 w2 h, tr = [w1; w2] /\ sv_object_to_handle w1 !! id = Some h /\
      (fs_read fs ctx h offset count (sv_fs w2)).1 = Ok (mkReadResult (rr4_data res) (rr4_eof res))
  | NamedAttrFile parent name =>
    executes (xattr_read_slice srv ctx parent name offset count) tr (Ok (rr4_data res, rr4_eof res))
  | NamedAttrDir _ => False
  end.

(** The right an object's data must be granted with. *)
Definition data_right (object : ServerObject) (on_file on_xattr : Z) : option (Z * Z) :=
  match object with
  | Fs id => Some (id, on_file)
  | NamedAttrFile parent _ => Some (parent, on_xattr)
  | NamedAttrDir _ => None
  end.
Definition data_granted (ctx : RequestContext) (object : ServerObject) (on_file on_xattr : Z)
    (tr : list W) : Prop :=
  match data_right object on_file on_xattr with
  | Some (id, need) => access_granted ctx id need tr
  | None => False
  end.

Lemma executes_read ctx id offset count tr data eof :
  executes (read srv ctx id offset count) tr (Ok (data, eof)) ->
  data_read ctx (Fs id) offset count (mkReadRes4 eof data) tr.
Proof.
  intros (tr1 & tr2 & h & -> & Hh & Hx)%executes_ok.
  apply executes_observe in Hh as (w1 & -> & Hh).
  apply executes_ok in Hx as (tr3 & tr4 & r & -> & Hb & Hr).
  apply executes_backend in Hb as (w2 & -> & Hb). apply executes_ret in Hr as [-> Hr].
  exists w1, w2, h. split; [done|]. destruct (sv_object_to_handle w1 !! id); simplify_eq.
  split; [done|]. rewrite Hb. by destruct r.
Qed.

Lemma executes_read_data ctx object offset count tr data eof :
  executes (read_data srv ctx object offset count) tr (Ok (data, eof)) ->
  exists tr1 tr2, tr = tr1 ++ tr2 /\ data_read ctx object offset count (mkReadRes4 eof data) tr2 /\
    match object with Fs id => access_granted ctx id AccessMask_READ tr1 | _ => True end.
Proof.
  destruct object as [id|parent|parent name]; cbn [read_data].
  - intros (tr1 & tr2 & attrs & -> & _ & Hx)%executes_ok.
    destruct (decide _); [by apply executes_ret in Hx as [_ ?]|].
    apply executes_ok in Hx as (tr3 & tr4 & [] & -> & Ha & Hx).
    exists (tr1 ++ tr3), tr4. split; [by rewrite app_assoc|].
    split; [by apply executes_read, (executes_map_err to_nfsstat4)|].
    by apply granted_right, executes_require_access.
  - by intros [_ ?]%executes_ret.
  - intros Hx%executes_map_err. by exists [], tr.
Qed.

(** C11. A READ that succeeds was authorised first: the current filehandle stands
    for an object; the request's stateid admits the transfer (it is of that
    object, and no share reservation or byte-range lock of another owner
    forbids it); the backend granted the right to read it, or to read the
    extended attributes of the object a named attribute belongs to; and only
    then was the data read, which is the data returned, unchanged.  This
    holds whatever other requests do between the steps. *)
Theorem read_authorised ctx args fh cur c tr res :
  executes (op_read srv ctx args fh cur c) tr (Res_Read NFS_Ok (Some res)) ->
  exists tr1 tr2 tr3 fh' object, tr = tr1 ++ tr2 ++ tr3 /\
    executes (resolve_object srv fh) tr1 (Ok (fh', object)) /\
    io_admitted object (rda_stateid args)
      (mkIoStateContext cur c false (rda_offset args) (rda_count args)) tr2 /\
    data_granted ctx object AccessMask_READ AccessMask_XATTR_READ tr2 /\
    data_read ctx object (rda_offset args) (rda_count args) res tr3.
Proof.
  intros (tr1 & ? & [fh' object] & -> & Hr & Hx)%executes_or; [|done].
  apply executes_or in Hx as (tr2 & ? & [] & -> & Hv & Hx); [|done].
  apply executes_or in Hx as (tr3 & ? & [] & -> & Hg & Hx); [|done].
  apply executes_or in Hx as (tr4 & ? & [data eof] & -> & Hd & Hx); [|done].
  apply executes_ret in Hx as [-> [= ->]]. apply executes_named_gate in Hg.
  apply executes_read_data in Hd as (tr5 & tr6 & -> & Hd & Ha).
  exists tr1, (tr2 ++ tr3 ++ tr5), tr6, fh', object. split; [by rewrite app_nil_r, !app_assoc|].
  split; [done|]. split; [|split; [|done]].
  - apply io_admitted_left. by apply executes_validate_io.
  - destruct object; cbn; [auto|done|auto].
Qed.

Definition data_written (ctx : RequestContext) (object : ServerObject) (offset : Z) (data : bytes)
    (stability : WriteStability) (res : WriteResult) (tr : list W) : Prop :=
  match object with
  | Fs id => exists w1 w2 h, tr = [w1; w2] /\ sv_object_to_handle w1 !! id = Some h /\
      (fs_write fs ctx h offset data stability (sv_fs w2)).1 = Ok res
  | NamedAttrFile parent name =>
    executes (xattr_write srv ctx parent name offset data) tr (Ok (wr_written res)) /\
    wr_stability res = FileSync
  | NamedAttrDir _ => False
  end.

Lemma executes_write_data ctx object offset data stability tr res :
  executes (write_data srv ctx object offset data stability) tr (Ok res) ->
  data_written ctx object offset data stability res tr.
Proof.
  destruct object as [id|parent|parent name]; cbn [write_data].
  - apply (executes_on_handle id (fun h => fs_write fs ctx h offset data stability)).
  - by intros [_ ?]%executes_ret.
  - intros (tr1 & tr2 & n & -> & Hx & Hr)%executes_ok. apply executes_ret in Hr as [-> [= ->]].
    by rewrite app_nil_r.
Qed.

(** C12. A WRITE that succeeds was authorised first, in the same way as a READ,
    with the rights to modify and extend a file or to write extended attributes
    and an open that allows writing; the reply reports the count the backend
    reported and a commitment at least as strong as the one asked for.  This
    holds whatever other requests do between the steps. *)
Theorem write_authorised ctx args fh cur c tr res :
  executes (op_write srv ctx args fh cur c) tr (Res_Write NFS_Ok (Some res)) ->
  exists tr1 tr2 tr3 tr4 fh' object stability written, tr = tr1 ++ tr2 ++ tr3 ++ tr4 /\
    executes (resolve_object srv fh) tr1 (Ok (fh', object)) /\
    io_admitted object (wra_stateid args)
      (mkIoStateContext cur c true (wra_offset args) (zlen (wra_data args))) tr2 /\
    data_granted ctx object (Z.lor AccessMask_MODIFY AccessMask_EXTEND) AccessMask_XATTR_WRITE tr2 /\
    requested_write_stability (wra_stable args) = Ok stability /\
    data_written ctx object (wra_offset args) (wra_data args) stability written tr3 /\
    stability_at_least (wr_stability written) stability = true /\
    wr4_count res = wr_written written /\ wr4_committed res = committed_how (wr_stability written).
Proof.
  intros (tr1 & ? & [fh' object] & -> & Hr & Hx)%executes_or; [|done].
  apply executes_or in Hx as (tr2 & ? & [] & -> & Hv & Hx); [|done].
  apply executes_or in Hx as (tr3 & ? & [] & -> & Hg & Hx); [|done].
  apply executes_or in Hx as (? & ? & stability & -> & Hs & Hx); [|done].
  apply executes_ret in Hs as [-> Hs]. cbn [app] in *.
  apply executes_or in Hx as (tr4 & ? & ft & -> & Hft & Hx); [|done].
  apply executes_or in Hx as (tr5 & ? & [] & -> & Hwg & Hx); [|done].
  apply executes_or in Hx as (tr6 & tr7 & written & -> & Hw & Hx); [|done].
  destruct (stability_at_least _ _) eqn:Est; [|by apply executes_ret in Hx as [_ ?]].
  cbn [negb] in Hx. apply executes_bind in Hx as (tr8 & ? & ? & -> & _ & Hx).
  apply executes_bind in Hx as (tr9 & ? & verf & -> & _ & Hx).
  apply executes_ret in Hx as [-> [= ->]]. apply executes_named_gate in Hg.
  exists tr1, (tr2 ++ tr3 ++ tr4 ++ tr5), tr6, (tr8 ++ tr9), fh', object, stability, written.
  split; [by rewrite app_nil_r, !app_assoc|]. split; [done|].
  split; [apply io_admitted_left; by apply executes_validate_io|].
  apply executes_write_data in Hw. split; [|auto 6].
  destruct object as [id| |parent name]; cbn; [|done|auto].
  apply executes_require_access in Hwg. auto 6.
Qed.

(** ** READDIR *)

Lemma zlen_opaque data : zlen (encode_opaque data) = opaque_len (zlen data).
Proof.
  unfold encode_opaque, opaque_len, encode_u32. rewrite !zlen_app, zlen_be.
  pose proof (xdr_pad_bounds (zlen data)). rewrite zlen_zeros by lia. lia.
Qed.

Lemma zlen_bitmap b : zlen (encode_Bitmap4 b) <= xdr_bitmap4_len b.
Proof.
  unfold encode_Bitmap4, xdr_bitmap4_len. rewrite zlen_app, encode_u32_words_len. unfold encode_u32.
  rewrite zlen_be. unfold zlen. rewrite length_take. pose proof (trimmed_len_le (bm_words b)). lia.
Qed.

(** The size the loop counts with is never less than the size on the wire. *)
Lemma zlen_entry e : zlen (encode_Entry4 e) <= readdir_entry_list_item_len e.
Proof.
  unfold encode_Entry4, encode_Fattr4, encode_string, readdir_entry_list_item_len, readdir_entry_len,
    xdr_fattr4_len. rewrite !zlen_app, !zlen_opaque.
  pose proof (zlen_bitmap (fa_attrmask (e4_attrs e))).
  unfold encode_bool, encode_u32, encode_u64. rewrite !zlen_be. lia.
Qed.

Lemma zlen_entries es :
  zlen (flat_map encode_Entry4 es) <= foldr Z.add 0 (readdir_entry_list_item_len <$> es).
Proof.
  induction es as [|e es IH]; [done|]. cbn [flat_map]. rewrite fmap_cons, zlen_app.
  cbn [foldr]. pose proof (zlen_entry e). lia.
Qed.

Lemma resok_len_snoc es e :
  readdir_resok_len (es ++ [e]) = readdir_resok_len es + readdir_entry_list_item_len e.
Proof.
  unfold readdir_resok_len. induction es as [|x es IH]; [cbn; lia|].
  rewrite <- app_comm_cons, !fmap_cons. cbn [foldr] in *. lia.
Qed.

(** What the loop has counted, and that the limit holds. *)
Definition acc_fits (maxcount : Z) (acc : ReaddirAcc) : Prop :=
  ra_total_bytes acc = readdir_resok_len (ra_entries acc) /\ ra_total_bytes acc <= maxcount.

Lemma readdir_add_fits dircount maxcount e acc acc' :
  acc_fits maxcount acc -> readdir_add dircount maxcount e acc = Ok (Some acc') ->
  acc_fits maxcount acc'.
Proof.
  intros [Ht Hm]. unfold readdir_add. cbv zeta.
  destruct (Z.ltb_spec maxcount (ra_total_bytes acc + readdir_entry_list_item_len e));
    case_bool_decide; cbn; rewrite ?orb_true_r, ?orb_false_r; try done.
  - intros [= <-]. split; cbn; [rewrite resok_len_snoc|]; lia.
  - case_match; [done|]. intros [= <-]. split; cbn; [rewrite resok_len_snoc|]; lia.
Qed.

Lemma readdir_loop_fits ctx args limits caps minorversion raws acc tr acc' :
  acc_fits (rdd_maxcount args) acc ->
  executes (readdir_loop srv ctx args limits caps minorversion raws acc) tr (Ok acc') ->
  acc_fits (rdd_maxcount args) acc'.
Proof.
  revert acc tr. induction raws as [|raw raws IH]; intros acc tr Hacc; cbn [readdir_loop].
  { by intros [_ [= ->]]%executes_ret. }
  intros (tr1 & tr2 & [e|] & -> & _ & Hx)%executes_ok; [|by eapply IH].
  apply executes_ok in Hx as (? & ? & next & -> & Hn & Hx). apply executes_ret in Hn as [-> Hn].
  destruct next as [acc1|]; [|by apply executes_ret in Hx as [_ [= ->]]].
  eapply IH; [|done]. by eapply readdir_add_fits.
Qed.

(** C36. A READDIR reply fits: the encoded result of a successful READDIR is never
    longer than the maximum the client gave, whatever the backend lists and
    whatever other requests do meanwhile, and the reply's verifier is the
    eight bytes the protocol has room for. *)
Theorem readdir_reply_fits ctx args fh minorversion tr res :
  executes (op_readdir srv ctx args fh minorversion) tr (Res_Readdir NFS_Ok (Some res)) ->
  zlen (encode_ReaddirRes4 res) <= rdd_maxcount args /\ length (rdr_cookieverf res) = 8%nat.
Proof.
  intros (tr1 & ? & [fh' object] & -> & _ & Hx)%executes_or; [|done].
  apply executes_or in Hx as (? & ? & [] & -> & _ & Hx); [|done].
  apply executes_or in Hx as (? & ? & attr & -> & _ & Hx); [|done].
  apply executes_or in Hx as (? & ? & verf & -> & Hc & Hx); [|done].
  apply executes_ret in Hc as [-> Hc].
  apply executes_or in Hx as (? & ? & [raws eof] & -> & _ & Hx); [|done].
  destruct (Z.ltb_spec (rdd_maxcount args) (readdir_resok_len [])) as [|Hmin];
    [by apply executes_ret in Hx as [_ ?]|].
  apply executes_bind in Hx as (? & ? & limits & -> & _ & Hx).
  apply executes_bind in Hx as (? & ? & caps & -> & _ & Hx).
  apply executes_or in Hx as (? & ? & acc & -> & Hl & Hx); [|done].
  apply executes_ret in Hx as [-> [= ->]].
  apply readdir_loop_fits in Hl as [Ht Hm]; [|by split].
  assert (Hv : length verf = 8%nat).
  { unfold readdir_check in Hc. repeat (case_match; try done). by injection Hc as ->. }
  split; [|done]. unfold encode_ReaddirRes4. cbn [rdr_cookieverf rdr_entries rdr_eof].
  rewrite !zlen_app. unfold encode_bool, encode_u32. rewrite !zlen_be.
  pose proof (zlen_entries (ra_entries acc)). unfold readdir_resok_len in Ht. unfold zlen in *. lia.
Qed.
End requests.

(** ** LISTXATTRS *)

(** A client pages through the names, each time from the cookie it was given. *)
Fixpoint listxattrs_walk (fuel : nat) (names : list bytes) (cookie maxcount : Z)
    : option (list ListxattrsResOk4) :=
  match fuel with
  | O => None
  | S fuel =>
    match listxattrs_page names cookie maxcount with
    | Err _ => None
    | Ok page =>
      if lxr_eof page then Some [page]
      else cons page <$> listxattrs_walk fuel names (lxr_cookie page) maxcount
    end
  end.

Lemma xdr_opaque_len_wire len : 0 <= len -> xdr_opaque_len len = opaque_len len.
Proof.
  intros Hl. unfold xdr_opaque_len, opaque_len. rewrite xdr_pad_spec.
  pose proof (Z.mod_pos_bound len 4). pose proof (Z.div_mod len 4).
  pose proof (Z.mod_pos_bound (- len) 4). pose proof (Z.div_mod (- len) 4).
  pose proof (Z.mod_pos_bound (4 - len mod 4) 4). pose proof (Z.div_mod (4 - len mod 4) 4).
  lia.
Qed.

Definition names_len (names : list bytes) : Z :=
  foldr Z.add 0 ((fun name => xdr_opaque_len (zlen name)) <$> names).

(** The names taken are a prefix that fits, and not empty if some name is left. *)
Lemma listxattrs_fill_spec names used maxcount first :
  (first = true -> match head names with
                   | Some name => used + xdr_opaque_len (zlen name) <= maxcount
                   | None => True
                   end) ->
  exists taken left, listxattrs_fill names used maxcount first = Some taken /\ names = taken ++ left /\
    (used <= maxcount -> used + names_len taken <= maxcount) /\
    (first = true -> taken = [] -> left = []).
Proof.
  revert used first. induction names as [|name names IH]; intros used first Hfirst.
  { exists [], []. repeat split; auto. cbn. lia. }
  cbn [listxattrs_fill]. cbv zeta. destruct (Z.ltb_spec maxcount (used + xdr_opaque_len (zlen name))).
  - destruct first; [specialize (Hfirst eq_refl); cbn in Hfirst; lia|].
    exists [], (name :: names). repeat split; auto; [cbn; lia|done].
  - destruct (IH (used + xdr_opaque_len (zlen name)) false) as (taken & left & -> & -> & Hfit & _); [done|].
    exists (name :: taken), left. repeat split; [|done]. intros _. unfold names_len in *.
    rewrite fmap_cons. cbn [foldr]. lia.
Qed.

Lemma zlen_names names : zlen (flat_map encode_string names) = names_len names.
Proof.
  unfold names_len. induction names as [|name names IH]; [done|].
  cbn [flat_map]. rewrite fmap_cons, zlen_app, IH. cbn [foldr].
  unfold encode_string. by rewrite zlen_opaque, xdr_opaque_len_wire by apply zlen_nonneg.
Qed.

Lemma zlen_listxattrs res : zlen (encode_ListxattrsResOk4 res) = 16 + names_len (lxr_names res).
Proof.
  unfold encode_ListxattrsResOk4. rewrite !zlen_app.
  unfold encode_list. rewrite ?zlen_app, ?zlen_names.
  unfold encode_u64, encode_bool, encode_u32. rewrite !zlen_be. lia.
Qed.

Lemma listxattrs_walk_from fuel seen left maxcount :
  Forall (fun name => 16 + xdr_opaque_len (zlen name) <= maxcount) left -> 16 <= maxcount ->
  (length left < fuel)%nat ->
  exists pages, listxattrs_walk fuel (seen ++ left) (zlen seen) maxcount = Some pages /\
    concat (lxr_names <$> pages) = left /\
    Forall (fun page => zlen (encode_ListxattrsResOk4 page) <= maxcount) pages.
Proof.
  revert seen left. induction fuel as [|fuel IH]; intros seen left Hfit Hmax Hf; [lia|].
  destruct (listxattrs_fill_spec left (8 + 4 + 4) maxcount true) as (taken & rest & Ht & -> & Hsize & Hne).
  { intros _. destruct left as [|name left]; [done|]. by apply Forall_cons_1 in Hfit as [? _]. }
  cbn [listxattrs_walk]. unfold listxattrs_page.
  destruct (Z.ltb_spec (zlen (seen ++ taken ++ rest)) (zlen seen)) as [Hlt|_].
  { rewrite zlen_app in Hlt. pose proof (zlen_nonneg (taken ++ rest)). lia. }
  replace (drop (Z.to_nat (zlen seen)) (seen ++ taken ++ rest)) with (taken ++ rest)
    by (unfold zlen; by rewrite Nat2Z.id, drop_app_length).
  rewrite Ht. cbn [lxr_eof lxr_cookie].
  set (page := mkListxattrsResOk4 _ _ _).
  assert (Hp : zlen (encode_ListxattrsResOk4 page) <= maxcount)
    by (rewrite zlen_listxattrs; cbn [lxr_names page]; lia).
  rewrite !zlen_app. destruct (Z.eqb_spec (zlen seen + zlen taken) (zlen seen + (zlen taken + zlen rest))).
  - assert (rest = []) as -> by (destruct rest; [done|unfold zlen in *; simpl in *; lia]).
    exists [page]. split; [done|]. split; [cbn; by rewrite !app_nil_r|by constructor].
  - assert (taken <> []) by (intros ->; rewrite Hne in *; done).
    destruct (IH (seen ++ taken) rest) as (pages & Hw & Hc & Hall).
    { by apply Forall_app in Hfit as [_ ?]. }
    { done. }
    { rewrite length_app in Hf. destruct taken; [done|]. simpl in Hf. lia. }
    rewrite <- app_assoc, zlen_app in Hw. rewrite Hw. exists (page :: pages).
    split; [done|]. split; [|by constructor]. rewrite fmap_cons. cbn [concat]. by rewrite Hc.
Qed.

(** A client that pages through LISTXATTRS, following the cookies from 0 until
    the end is signalled, sees every name exactly once and in order, in at most
    one page per name and one, and no reply is longer than the maximum it gave;
    provided the names do not change meanwhile and each fits in a reply. *)
Theorem listxattrs_pages_complete names maxcount :
  Forall (fun name => 16 + xdr_opaque_len (zlen name) <= maxcount) names -> 16 <= maxcount ->
  exists pages, listxattrs_walk (S (length names)) names 0 maxcount = Some pages /\
    concat (lxr_names <$> pages) = names /\
    Forall (fun page => zlen (encode_ListxattrsResOk4 page) <= maxcount) pages.
Proof. intros Hf Hm. apply (listxattrs_walk_from (S (length names)) [] names); [done..|lia]. Qed.

Lemma listxattrs_pages_complete_witness :
  exists pages, listxattrs_walk 4 [[117]; [117; 118]; [119]] 0 24 = Some pages /\ length pages = 3%nat /\
    concat (lxr_names <$> pages) = [[117]; [117; 118]; [119]].
Proof.
  destruct (listxattrs_pages_complete [[117]; [117; 118]; [119]] 24) as (pages & Hw & Hc & _).
  - repeat constructor; vm_compute; discriminate.
  - lia.
  - exists pages. split; [exact Hw|]. split; [|exact Hc].
    assert (E : length <$> listxattrs_walk 4 [[117]; [117; 118]; [119]] 0 24 = Some 3%nat)
      by (vm_compute; reflexivity).
    change (S (length [[117]; [117; 118]; [119]])) with 4%nat in Hw. rewrite Hw in E.
    by injection E.
Defined.

Create HintDb trace.
#[export] Hint Resolve during_refl during_left during_right granted_left granted_right : trace.
