(* ===== verification/Compound.v ===== *)
(** * COMPOUND dispatch (crates/embednfs/src/server/compound.rs)

    A COMPOUND runs its operations in order against a current filehandle and a
    current stateid, and stops at the first that fails. *)

From stdpp Require Import base gmap list sets strings numbers.
From Stdlib Require Import ZArith Lia.
From S2P Require Import Prelude Xdr Rpc Types Constants StateModel Operations Codec FsApi Metadata.
From S2P Require Import Clients Stateids Opens Locks Delegations Filehandles AttrCodec.
From S2P Require Import Server ServerFs OpsDelegation OpsFile OpsAttrs OpsDirectory OpsLocking.

Local Open Scope Z_scope.
Local Open Scope proc_scope.

Record CompoundExecutionState := mkCompoundExecutionState {
  ce_current_fh : option bytes;
  ce_current_stateid : option Stateid4;
  ce_saved_fh : option bytes;
  ce_saved_stateid : option Stateid4;
  ce_minorversion : Z;
}.
Definition set_ce_current_fh (v : option bytes) (c : CompoundExecutionState) :=
  mkCompoundExecutionState v (ce_current_stateid c) (ce_saved_fh c) (ce_saved_stateid c)
    (ce_minorversion c).
Definition set_ce_current_stateid (v : option Stateid4) (c : CompoundExecutionState) :=
  mkCompoundExecutionState (ce_current_fh c) v (ce_saved_fh c) (ce_saved_stateid c)
    (ce_minorversion c).
Definition set_ce_saved_fh (v : option bytes) (c : CompoundExecutionState) :=
  mkCompoundExecutionState (ce_current_fh c) (ce_current_stateid c) v (ce_saved_stateid c)
    (ce_minorversion c).
Definition set_ce_saved_stateid (v : option Stateid4) (c : CompoundExecutionState) :=
  mkCompoundExecutionState (ce_current_fh c) (ce_current_stateid c) (ce_saved_fh c) v
    (ce_minorversion c).

(** ** The stateid an operation leaves behind *)

Definition returned_stateid (res : NfsResop4) : option Stateid4 :=
  match res with
  | Res_Open NFS_Ok (Some open) => Some (or_stateid open)
  | Res_Close NFS_Ok stateid => Some stateid
  | Res_Lock NFS_Ok (Some stateid) _ => Some stateid
  | Res_Locku NFS_Ok (Some stateid) => Some stateid
  | Res_OpenDowngrade NFS_Ok (Some stateid) => Some stateid
  | Res_GetDirDelegation NFS_Ok (Some (Gdd_Ok ok)) => Some (gdd_stateid ok)
  | _ => None
  end.

Definition apply_compound_state_transition (op : NfsArgop4) (res : NfsResop4)
    (state : CompoundExecutionState) : CompoundExecutionState :=
  if decide (res_status res = NFS_Ok) then
    let state := match returned_stateid res with
                 | Some stateid => set_ce_current_stateid (Some stateid) state
                 | None => state
                 end in
    match op with
    | Arg_Savefh => set_ce_saved_stateid (ce_current_stateid state)
                      (set_ce_saved_fh (ce_current_fh state) state)
    | Arg_Restorefh => set_ce_current_stateid (ce_saved_stateid state) state
    | Arg_Putfh _ | Arg_Putpubfh | Arg_Putrootfh | Arg_Lookup _ | Arg_Lookupp | Arg_Create _
    | Arg_OpenAttr _ | Arg_SecInfoNoName _ =>
      set_ce_current_stateid ((fun _ => Stateid4_ANONYMOUS) <$> ce_current_fh state) state
    | _ => state
    end
  else state.

Definition sequence_error_compound (tag : bytes) (status : NfsStat4) : Compound4Res :=
  mkCompound4Res status tag [Res_Sequence status None].
Definition sequence_only_compound (tag : bytes) (res : SequenceRes4) : Compound4Res :=
  mkCompound4Res NFS_Ok tag [Res_Sequence NFS_Ok (Some res)].

Definition allows_compound_without_sequence (op : NfsArgop4) : bool :=
  match op with
  | Arg_ExchangeId _ | Arg_CreateSession _ | Arg_DestroySession _ | Arg_DestroyClientid _
  | Arg_BindConnToSession _ => true
  | _ => false
  end.

Definition error_res_for_op (op : NfsArgop4) (status : NfsStat4) : NfsResop4 :=
  match op with
  | Arg_Access _ => Res_Access status 0 0
  | Arg_Close _ => Res_Close status Stateid4_default
  | Arg_Commit _ => Res_Commit status (replicate 8 0)
  | Arg_Create _ => Res_Create status None Bitmap4_new
  | Arg_Getattr _ => Res_Getattr status None
  | Arg_Getfh => Res_Getfh status None
  | Arg_Link _ => Res_Link status None
  | Arg_Lookup _ => Res_Lookup status
  | Arg_Lookupp => Res_Lookupp status
  | Arg_Open _ => Res_Open status None
  | Arg_Putfh _ => Res_Putfh status
  | Arg_Putpubfh => Res_Putpubfh status
  | Arg_Putrootfh => Res_Putrootfh status
  | Arg_Read _ => Res_Read status None
  | Arg_Readdir _ => Res_Readdir status None
  | Arg_Readlink => Res_Readlink status None
  | Arg_Remove _ => Res_Remove status None
  | Arg_Rename _ => Res_Rename status None None
  | Arg_Restorefh => Res_Restorefh status
  | Arg_Savefh => Res_Savefh status
  | Arg_Secinfo _ => Res_Secinfo status []
  | Arg_Setattr _ => Res_Setattr status Bitmap4_new
  | Arg_Write _ => Res_Write status None
  | Arg_ExchangeId _ => Res_ExchangeId status None
  | Arg_CreateSession _ => Res_CreateSession status None
  | Arg_DestroySession _ => Res_DestroySession status
  | Arg_Sequence _ => Res_Sequence status None
  | Arg_ReclaimComplete _ => Res_ReclaimComplete status
  | Arg_DestroyClientid _ => Res_DestroyClientid status
  | Arg_BindConnToSession _ => Res_BindConnToSession status None
  | Arg_SecInfoNoName _ => Res_SecInfoNoName status []
  | Arg_FreeStateid _ => Res_FreeStateid status
  | Arg_TestStateid _ => Res_TestStateid status []
  | Arg_DelegReturn _ => Res_DelegReturn status
  | Arg_OpenConfirm _ => Res_OpenConfirm status None
  | Arg_Renew _ => Res_Renew status
  | Arg_SetClientId _ => Res_SetClientId status None
  | Arg_SetClientIdConfirm _ => Res_SetClientIdConfirm status
  | Arg_ReleaseLockowner _ => Res_ReleaseLockowner status
  | Arg_Lock _ => Res_Lock status None None
  | Arg_Lockt _ => Res_Lockt status None
  | Arg_Locku _ => Res_Locku status None
  | Arg_OpenAttr _ => Res_OpenAttr status
  | Arg_DelegPurge => Res_DelegPurge status
  | Arg_Verify _ => Res_Verify status
  | Arg_Nverify _ => Res_Nverify status
  | Arg_OpenDowngrade _ => Res_OpenDowngrade status None
  | Arg_LayoutGet => Res_LayoutGet status None
  | Arg_LayoutReturn => Res_LayoutReturn status None
  | Arg_LayoutCommit => Res_LayoutCommit status None
  | Arg_GetDirDelegation => Res_GetDirDelegation status None
  | Arg_WantDelegation => Res_WantDelegation status None
  | Arg_BackchannelCtl => Res_BackchannelCtl status
  | Arg_GetDeviceInfo => Res_GetDeviceInfo status None
  | Arg_GetDeviceList => Res_GetDeviceList status None
  | Arg_SetSsv => Res_SetSsv status None
  | Arg_Getxattr _ => Res_Getxattr status None
  | Arg_Setxattr _ => Res_Setxattr status None
  | Arg_Listxattrs _ => Res_Listxattrs status None
  | Arg_Removexattr _ => Res_Removexattr status None
  | Arg_Unsupported opnum => Res_Unsupported opnum status
  | Arg_Illegal => Res_Illegal status
  end.

Section compound.
Context {H B : Type} `{Countable H} {ho : HashOrder} (srv : NfsServer H B).
Abbreviation W := (Server H B).

Definition delegation_state_ops_enabled (minorversion : Z) : bool :=
  negb (minorversion =? 0) && dc_directory_delegations (ns_delegation_config srv).

(** What an operation is given besides its arguments. *)
Record OpContext := mkOpContext {
  oc_request : RequestContext;
  oc_connection_id : Z;
  oc_sequence_clientid : option Z;
  oc_sequence_sessionid : option bytes;
}.

(** A handler that leaves the execution state alone, and one that returns the
    current filehandle. *)
Definition keep (state : CompoundExecutionState) (m : proc W NfsResop4)
    : proc W (NfsResop4 * CompoundExecutionState) :=
  let* res := m in Ret (res, state).
Definition with_fh (state : CompoundExecutionState) (m : proc W (NfsResop4 * option bytes))
    : proc W (NfsResop4 * CompoundExecutionState) :=
  let* (res, fh) := m in Ret (res, set_ce_current_fh fh state).

(** [match .. { Ok(res) => Res(Ok, Some(res)), Err(status) => Res(status, None) }] *)
Definition reply_opt {A} (res : NfsStat4 -> option A -> NfsResop4) (m : proc W (result NfsStat4 A))
    : proc W NfsResop4 :=
  let* r := m in Ret (match r with Ok a => res NFS_Ok (Some a) | Err status => res status None end).
Definition reply_unit (res : NfsStat4 -> NfsResop4) (m : proc W (result NfsStat4 unit))
    : proc W NfsResop4 :=
  let* r := m in Ret (match r with Ok _ => res NFS_Ok | Err status => res status end).

Definition put_root (res : NfsStat4 -> NfsResop4) (current_fh : option bytes)
    : proc W (NfsResop4 * option bytes) :=
  let! root := root_object srv else (fun e => (res (to_nfsstat4 e), current_fh)) in
  move_to res root current_fh.

(** Filehandles: PUTFH, PUTPUBFH, PUTROOTFH, GETFH, SAVEFH, RESTOREFH. *)
Definition handle_fh_op (op : NfsArgop4) (state : CompoundExecutionState)
    : option (proc W (NfsResop4 * CompoundExecutionState)) :=
  match op with
  | Arg_Getfh => Some (Ret (op_getfh (ce_current_fh state), state))
  | Arg_Putfh args =>
    Some (Ret (if negb (fh_has_valid_format (pfa_object args)) then (Res_Putfh NFS_Badhandle, state)
               else (Res_Putfh NFS_Ok, set_ce_current_fh (Some (pfa_object args)) state)))
  | Arg_Putpubfh => Some (with_fh state (put_root Res_Putpubfh (ce_current_fh state)))
  | Arg_Putrootfh => Some (with_fh state (put_root Res_Putrootfh (ce_current_fh state)))
  | Arg_Restorefh =>
    Some (Ret (match ce_saved_fh state with
               | Some fh => (Res_Restorefh NFS_Ok, set_ce_current_fh (Some fh) state)
               | None => (Res_Restorefh NFS_Nofilehandle, state)
               end))
  | Arg_Savefh =>
    Some (Ret (match ce_current_fh state with
               | Some fh => (Res_Savefh NFS_Ok, set_ce_saved_fh (Some fh) state)
               | None => (Res_Savefh NFS_Nofilehandle, state)
               end))
  | _ => None
  end.

(** The namespace and data operations. *)
Definition handle_fs_op (op : NfsArgop4) (state : CompoundExecutionState) (oc : OpContext)
    : option (proc W (NfsResop4 * CompoundExecutionState)) :=
  let ctx := oc_request oc in
  let fh := ce_current_fh state in
  let stateid := ce_current_stateid state in
  let mv := ce_minorversion state in
  let client := oc_sequence_clientid oc in
  match op with
  | Arg_Access args => Some (keep state (op_access srv ctx args fh))
  | Arg_Close args => Some (keep state (op_close srv ctx args fh stateid client))
  | Arg_Commit args => Some (keep state (op_commit srv ctx args fh))
  | Arg_Create args => Some (with_fh state (op_create srv ctx args fh client))
  | Arg_Getattr args => Some (keep state (op_getattr srv ctx args fh mv))
  | Arg_Link args => Some (keep state (op_link srv ctx args fh (ce_saved_fh state) client))
  | Arg_Lookup args => Some (with_fh state (op_lookup srv ctx args fh))
  | Arg_Lookupp => Some (with_fh state (op_lookupp srv ctx fh))
  | Arg_Open args =>
    Some (with_fh state
      (let! _ := (match client with
                  | Some clientid => st_validate_open_reclaim clientid (oa_claim args)
                  | None => Ret (Ok tt)
                  end) else (fun status => (Res_Open status None, fh)) in
       op_open srv ctx args fh mv client))
  | Arg_Read args => Some (keep state (op_read srv ctx args fh stateid client))
  | Arg_Readdir args => Some (keep state (op_readdir srv ctx args fh mv))
  | Arg_Readlink => Some (keep state (op_readlink srv ctx fh))
  | Arg_Remove args => Some (keep state (op_remove srv ctx args fh client))
  | Arg_Rename args => Some (keep state (op_rename srv ctx args fh (ce_saved_fh state) client))
  | Arg_Secinfo _ => Some (Ret (Res_Secinfo NFS_Ok (secinfo_flavors srv), state))
  | Arg_Setattr args => Some (keep state (op_setattr srv ctx args fh stateid client))
  | Arg_Write args => Some (keep state (op_write srv ctx args fh stateid client))
  | Arg_SecInfoNoName style => Some (with_fh state (op_secinfo_no_name srv ctx style fh))
  | _ => None
  end.

(** Locks, verification, delegations, extended attributes, and the operations that
    are not supported. *)
Definition handle_late_op (op : NfsArgop4) (state : CompoundExecutionState) (oc : OpContext)
    : option (proc W (NfsResop4 * CompoundExecutionState)) :=
  let ctx := oc_request oc in
  let fh := ce_current_fh state in
  let stateid := ce_current_stateid state in
  let mv := ce_minorversion state in
  let client := oc_sequence_clientid oc in
  let refuse res := Some (Ret (res, state)) in
  match op with
  | Arg_Lock args => Some (keep state (op_lock srv ctx args fh stateid client))
  | Arg_Lockt args => Some (keep state (op_lockt srv ctx args fh))
  | Arg_Locku args => Some (keep state (op_locku srv args fh stateid client))
  | Arg_OpenAttr _ => Some (with_fh state (op_openattr srv fh))
  | Arg_DelegPurge =>
    Some (keep state
      (let* _ := (match client with
                  | Some clientid =>
                    if delegation_state_ops_enabled mv then st_purge_client_delegations clientid
                    else Ret tt
                  | None => Ret tt
                  end) in
       Ret (Res_DelegPurge NFS_Ok)))
  | Arg_Verify vattr => Some (keep state (op_verify srv ctx vattr fh false mv))
  | Arg_Nverify vattr => Some (keep state (op_verify srv ctx vattr fh true mv))
  | Arg_OpenDowngrade args => Some (keep state (op_open_downgrade args stateid client))
  | Arg_LayoutGet => refuse (Res_LayoutGet NFS_Notsupp None)
  | Arg_LayoutReturn => refuse (Res_LayoutReturn NFS_Notsupp None)
  | Arg_LayoutCommit => refuse (Res_LayoutCommit NFS_Notsupp None)
  | Arg_GetDirDelegation =>
    Some (keep state (op_get_dir_delegation srv ctx fh mv client (oc_sequence_sessionid oc)))
  | Arg_WantDelegation => refuse (Res_WantDelegation NFS_Notsupp None)
  | Arg_BackchannelCtl => refuse (Res_BackchannelCtl NFS_Notsupp)
  | Arg_GetDeviceInfo => refuse (Res_GetDeviceInfo NFS_Notsupp None)
  | Arg_GetDeviceList => refuse (Res_GetDeviceList NFS_Notsupp None)
  | Arg_SetSsv => refuse (Res_SetSsv NFS_Notsupp None)
  | Arg_Getxattr args => Some (keep state (op_getxattr srv ctx args fh))
  | Arg_Setxattr args => Some (keep state (op_setxattr srv ctx args fh))
  | Arg_Listxattrs args => Some (keep state (op_listxattrs srv ctx args fh))
  | Arg_Removexattr args => Some (keep state (op_removexattr srv ctx args fh))
  | Arg_Unsupported opnum => refuse (Res_Unsupported opnum NFS_Notsupp)
  | Arg_Illegal => refuse (Res_Illegal NFS_OpIllegal)
  | _ => None
  end.

(** Clients, sessions and stateids; every other operation has been dispatched. *)
Definition handle_state_op (op : NfsArgop4) (state : CompoundExecutionState) (oc : OpContext)
    : proc W NfsResop4 :=
  let mv := ce_minorversion state in
  let stateid := ce_current_stateid state in
  let client := oc_sequence_clientid oc in
  let conn := oc_connection_id oc in
  match op with
  | Arg_ExchangeId args => reply_opt Res_ExchangeId (timed_op (exchange_id args))
  | Arg_CreateSession args => reply_opt Res_CreateSession (timed_op (create_session args conn))
  | Arg_DestroySession args =>
    reply_unit Res_DestroySession (timed_op (destroy_session (dsa_sessionid args) conn))
  | Arg_Sequence _ => Ret (Res_Sequence NFS_Serverfault None)
  | Arg_ReclaimComplete args => op_reclaim_complete srv args (ce_current_fh state) client
  | Arg_DestroyClientid args =>
    reply_unit Res_DestroyClientid (timed_op (destroy_clientid (dca_clientid args)))
  | Arg_BindConnToSession args =>
    reply_opt Res_BindConnToSession (timed_op (bind_conn_to_session args conn))
  | Arg_FreeStateid args =>
    let! stateid := Ret (concrete_or_bad (fsa_stateid args) stateid ZeroSeqid) else Res_FreeStateid in
    reply_unit Res_FreeStateid (st_free_stateid stateid)
  | Arg_TestStateid args =>
    let* results := st_test_stateids (tsa_stateids args) in Ret (Res_TestStateid NFS_Ok results)
  | Arg_DelegReturn args =>
    if delegation_state_ops_enabled mv then
      let! stateid := Ret (concrete_or_bad (dra_stateid args) stateid ZeroSeqid) else Res_DelegReturn in
      reply_unit Res_DelegReturn (st_return_delegation_state stateid client)
    else Ret (Res_DelegReturn NFS_Ok)
  | Arg_OpenConfirm args =>
    if negb (mv =? 0) then Ret (Res_OpenConfirm NFS_Notsupp None)
    else reply_opt Res_OpenConfirm (st_confirm_open_state (oca_open_stateid args))
  | Arg_Renew clientid =>
    if negb (mv =? 0) then Ret (Res_Renew NFS_Notsupp)
    else reply_unit Res_Renew (timed_op (renew clientid))
  | Arg_SetClientId args =>
    if negb (mv =? 0) then Ret (Res_SetClientId NFS_Notsupp None)
    else let* res := timed_op (set_client_id args) in Ret (Res_SetClientId NFS_Ok (Some res))
  | Arg_SetClientIdConfirm args =>
    if negb (mv =? 0) then Ret (Res_SetClientIdConfirm NFS_Notsupp)
    else reply_unit Res_SetClientIdConfirm (timed_op (set_client_id_confirm args))
  | Arg_ReleaseLockowner _ =>
    Ret (Res_ReleaseLockowner (if negb (mv =? 0) then NFS_Notsupp else NFS_Ok))
  | _ => Ret (Res_Illegal NFS_OpIllegal)
  end.

Definition handle_op (op : NfsArgop4) (state : CompoundExecutionState) (oc : OpContext)
    : proc W (NfsResop4 * CompoundExecutionState) :=
  match handle_fh_op op state with
  | Some m => m
  | None =>
    match handle_fs_op op state oc with
    | Some m => m
    | None =>
      match handle_late_op op state oc with
      | Some m => m
      | None => keep state (handle_state_op op state oc)
      end
    end
  end.

(** ** The loop *)

(** Operations that may not come after the first: the status they fail with. *)
Definition misplaced_op (op : NfsArgop4) (idx total_ops : Z) (sessionid : option bytes)
    (clientid : option Z) : option NfsStat4 :=
  match op with
  | Arg_Sequence _ => Some NFS_SequencePos
  | Arg_BindConnToSession _ => Some NFS_NotOnlyOp
  | Arg_DestroySession args =>
    if bool_decide (sessionid = Some (dsa_sessionid args)) && negb (idx + 1 =? total_ops)
    then Some NFS_NotOnlyOp else None
  | Arg_DestroyClientid args =>
    if bool_decide (clientid = Some (dca_clientid args)) then Some NFS_ClientidBusy else None
  | _ => None
  end.

(** [prepared_sequence.take()] is only ever consumed by the first operation. *)
Definition dispatch_op (op : NfsArgop4) (idx : Z) (prepared : option NfsResop4)
    (state : CompoundExecutionState) (oc : OpContext)
    : proc W (NfsResop4 * CompoundExecutionState) :=
  match op, prepared with
  | Arg_Sequence _, Some res => if idx =? 0 then Ret (res, state) else handle_op op state oc
  | _, _ => handle_op op state oc
  end.

Fixpoint compound_loop (ops : list NfsArgop4) (idx total_ops : Z) (prepared : option NfsResop4)
    (oc : OpContext) (state : CompoundExecutionState) (resarray : list NfsResop4)
    : proc W (NfsStat4 * list NfsResop4) :=
  match ops with
  | [] => Ret (NFS_Ok, resarray)
  | op :: ops =>
    match (if 0 <? idx then misplaced_op op idx total_ops (oc_sequence_sessionid oc)
                              (oc_sequence_clientid oc) else None) with
    | Some status => Ret (status, resarray ++ [error_res_for_op op status])
    | None =>
      let* (res, state) := dispatch_op op idx prepared state oc in
      let state := apply_compound_state_transition op res state in
      if decide (res_status res = NFS_Ok)
      then compound_loop ops (idx + 1) total_ops prepared oc state (resarray ++ [res])
      else Ret (res_status res, resarray ++ [res])
    end
  end.

(** The check on the first operation of a COMPOUND of minor version 1 or 2. *)
Definition first_op_check (op : NfsArgop4) (total_ops : Z) : option NfsStat4 :=
  match op with
  | Arg_Sequence _ => None
  | _ =>
    if allows_compound_without_sequence op then
      if negb (total_ops =? 1) then Some NFS_NotOnlyOp else None
    else Some (match op with Arg_Illegal => NFS_OpIllegal | _ => NFS_OpNotInSession end)
  end.

Definition handle_compound (args : Compound4Args) (prepared_sequence : option NfsResop4)
    (ctx : RequestContext) (connection_id : Z) : proc W Compound4Res :=
  let reply status res := mkCompound4Res status (c4a_tag args) res in
  let mv := c4a_minorversion args in
  if negb ((0 <=? mv) && (mv <=? 2)) then Ret (reply NFS_MinorVersMismatch [])
  else
    let total_ops := zlen (c4a_argarray args) in
    let sessionid := match head (c4a_argarray args) with
                     | Some (Arg_Sequence sequence) => Some (sa_sessionid sequence)
                     | _ => None
                     end in
    let* clientid := (match sessionid with
                      | Some sessionid => state_read (session_clientid sessionid)
                      | None => Ret None
                      end) in
    match (match head (c4a_argarray args) with
           | Some first_op => if mv =? 0 then None
                              else (fun status => (first_op, status)) <$> first_op_check first_op total_ops
           | None => None
           end) with
    | Some (first_op, status) => Ret (reply status [error_res_for_op first_op status])
    | None =>
      let* (status, resarray) :=
        compound_loop (c4a_argarray args) 0 total_ops prepared_sequence
          (mkOpContext ctx connection_id clientid sessionid)
          (mkCompoundExecutionState None None None None mv) [] in
      Ret (reply status resarray)
    end.
End compound.
