(* ===== verification/Records.v ===== *)
(** * Record marking (crates/embednfs/src/server/transport.rs)

    RPC messages travel over TCP in fragments, each under a header of 31 bits
    of length and one bit for the last fragment of the message.
    [write_record] is the body of [write_records] for one message and
    [read_record] the inner loop of [handle_connection].  [record_wire]
    relates a message to its framings as RFC 5531 defines them, without the
    server's limits, and is the reference the two are compared with. *)

From stdpp Require Import base gmap list sets strings numbers.
From Stdlib Require Import ZArith Lia.
From S2P Require Import Prelude Xdr.

Local Open Scope Z_scope.

Definition RPC_LAST_FRAGMENT : Z := 2147483648.
Definition RPC_FRAG_LEN_MASK : Z := 2147483647.
Definition MAX_FRAGMENT_SIZE : Z := 2 * 1024 * 1024.

(** ** Writing *)

(** [resp_len | RPC_LAST_FRAGMENT] on the last fragment. *)
Definition fragment_header (len : Z) (last : bool) : bytes :=
  be_bytes 4 (if last then Z.lor len RPC_LAST_FRAGMENT else len).

Fixpoint write_fragments (fuel : nat) (response : bytes) : option bytes :=
  match response with
  | [] => Some []
  | _ =>
    match fuel with
    | O => None
    | S fuel =>
      let frag_len := Z.min (zlen response) MAX_FRAGMENT_SIZE in
      let last_fragment := frag_len =? zlen response in
      let '(fragment, response) := split_to frag_len response in
      rest ← write_fragments fuel response;
      Some (fragment_header (zlen fragment) last_fragment ++ fragment ++ rest)
    end
  end.
(** Each fragment takes a byte at least. *)
Definition write_record (response : bytes) : bytes :=
  default [] (write_fragments (length response) response).

(** ** Reading *)

Definition read_exact (n : Z) (src : bytes) : option (bytes * bytes) :=
  if zlen src <? n then None else Some (split_to n src).

(** How the inner loop ends: at the last fragment, at the end of the stream
    (with what was read of the record so far), inside a fragment, or on a
    record beyond the limit. *)
Inductive RecordEnd :=
| End_Record (record rest : bytes)
| End_Eof (record : bytes)
| End_Error
| End_TooLarge.

Fixpoint read_fragments (fuel : nat) (record src : bytes) : option RecordEnd :=
  match fuel with
  | O => None
  | S fuel =>
    match read_exact 4 src with
    | None => Some (End_Eof record)
    | Some (header, src) =>
      let header_val := from_be header in
      let last_fragment := negb (Z.land header_val RPC_LAST_FRAGMENT =? 0) in
      let frag_len := Z.land header_val RPC_FRAG_LEN_MASK in
      if MAX_FRAGMENT_SIZE <? frag_len then Some End_TooLarge
      else if MAX_FRAGMENT_SIZE <? zlen record + frag_len then Some End_TooLarge
      else match read_exact frag_len src with
           | None => Some End_Error
           | Some (fragment, src) =>
             let record := record ++ fragment in
             if last_fragment then Some (End_Record record src)
             else read_fragments fuel record src
           end
    end
  end.
(** Each turn consumes a header. *)
Definition read_record (src : bytes) : RecordEnd :=
  default End_Error (read_fragments (S (length src)) [] src).

(** The outer loop: the records handed on, and whether the connection ends
    with an error.  A record is handed on whenever bytes of it were read and
    neither error nor limit was met. *)
Fixpoint read_records_loop (fuel : nat) (src : bytes) : list bytes * bool :=
  match fuel with
  | O => ([], false)
  | S fuel =>
    match read_record src with
    | End_Error => ([], true)
    | End_TooLarge => ([], false)
    | End_Eof record =>
      if bool_decide (record = []) then ([], false)
      else let '(rs, e) := read_records_loop fuel [] in (record :: rs, e)
    | End_Record record rest =>
      if bool_decide (record = []) then ([], false)
      else let '(rs, e) := read_records_loop fuel rest in (record :: rs, e)
    end
  end.
Definition read_records (src : bytes) : list bytes * bool :=
  read_records_loop (S (S (length src))) src.

(** ** The reference *)

Record fragment := mkFragment { fr_last : bool; fr_data : bytes }.
Definition wire_fragment (f : fragment) : bytes :=
  fragment_header (zlen (fr_data f)) (fr_last f) ++ fr_data f.
(** A message as RFC 5531 puts it on the wire: fragments, the last one marked. *)
Inductive record_wire : bytes -> bytes -> Prop :=
| wire_last data :
    zlen data < 2147483648 -> record_wire data (wire_fragment (mkFragment true data))
| wire_more data record bs :
    zlen data < 2147483648 -> record_wire record bs ->
    record_wire (data ++ record) (wire_fragment (mkFragment false data) ++ bs).

(** ** Lemmas *)

Lemma split_to_app n (a b : bytes) : zlen a = n -> split_to n (a ++ b) = (a, b).
Proof.
  intros <-. unfold split_to, zlen. by rewrite Nat2Z.id, take_app_length, drop_app_length.
Qed.

Lemma split_to_spec n (src a b : bytes) :
  0 <= n <= zlen src -> split_to n src = (a, b) -> src = a ++ b /\ zlen a = n.
Proof.
  unfold split_to, zlen. intros Hn [= <- <-]. rewrite take_drop, length_take. split; [done|lia].
Qed.

Lemma read_exact_app n (a b : bytes) : zlen a = n -> read_exact n (a ++ b) = Some (a, b).
Proof.
  intros Ha. unfold read_exact. rewrite zlen_app. pose proof (zlen_nonneg b).
  destruct (Z.ltb_spec (zlen a + zlen b) n); [lia|]. by rewrite split_to_app.
Qed.

Lemma read_exact_Some n (src a b : bytes) :
  0 <= n -> read_exact n src = Some (a, b) -> src = a ++ b /\ zlen a = n.
Proof.
  unfold read_exact. destruct (Z.ltb_spec (zlen src) n); [done|]. intros Hn Hs.
  apply split_to_spec; [lia|congruence].
Qed.

Lemma frag_len_mask v : Z.land v RPC_FRAG_LEN_MASK = v mod 2147483648.
Proof. apply (Z.land_ones v 31). lia. Qed.

Lemma last_bit_testbit v : Z.land v RPC_LAST_FRAGMENT = if Z.testbit v 31 then 2147483648 else 0.
Proof.
  change RPC_LAST_FRAGMENT with (2 ^ 31). apply Z.bits_inj'. intros n Hn.
  rewrite Z.land_spec, Z.pow2_bits_eqb by lia. destruct (Z.eqb_spec 31 n) as [<-|Hne].
  - rewrite andb_true_r. by destruct (Z.testbit v 31).
  - rewrite andb_false_r. change 2147483648 with (2 ^ 31). destruct (Z.testbit v 31).
    + rewrite Z.pow2_bits_eqb by lia. by destruct (Z.eqb_spec 31 n).
    + by rewrite Z.bits_0.
Qed.

Lemma testbit31 v : is_u32 v -> Z.testbit v 31 = (2147483648 <=? v).
Proof.
  intros Hv. unfold is_u32 in Hv. rewrite Z.testbit_odd, Z.shiftr_div_pow2 by lia. change (2 ^ 31) with 2147483648.
  destruct (Z.leb_spec 2147483648 v).
  - replace (v / 2147483648) with 1; [done|]. apply Z.div_unique with (v - 2147483648); lia.
  - by rewrite Z.div_small by lia.
Qed.

(** The value of a header, taken apart. *)
Definition header_word (len : Z) (last : bool) : Z := len + if last then 2147483648 else 0.

Lemma fragment_header_word len last :
  0 <= len < 2147483648 -> fragment_header len last = be_bytes 4 (header_word len last).
Proof.
  intros Hl. unfold fragment_header, header_word. destruct last; [|by rewrite Z.add_0_r].
  assert (Hd : Z.land len RPC_LAST_FRAGMENT = 0).
  { rewrite last_bit_testbit, testbit31 by (unfold is_u32; lia).
    by rewrite (proj2 (Z.leb_gt _ _)) by lia. }
  f_equal. rewrite <- Z.lxor_lor by done. by rewrite <- Z.add_nocarry_lxor.
Qed.

Lemma header_word_u32 len last : 0 <= len < 2147483648 -> is_u32 (header_word len last).
Proof. unfold is_u32, header_word. destruct last; lia. Qed.

Lemma header_word_len len last :
  0 <= len < 2147483648 -> Z.land (header_word len last) RPC_FRAG_LEN_MASK = len.
Proof.
  intros Hl. rewrite frag_len_mask. unfold header_word. destruct last.
  - rewrite <- (Z.mul_1_l 2147483648) at 1. rewrite Z_mod_plus_full. by apply Z.mod_small.
  - rewrite Z.add_0_r. by apply Z.mod_small.
Qed.

Lemma header_word_last len last :
  0 <= len < 2147483648 ->
  negb (Z.land (header_word len last) RPC_LAST_FRAGMENT =? 0) = last.
Proof.
  intros Hl. rewrite last_bit_testbit, testbit31 by by apply header_word_u32.
  unfold header_word. destruct last.
  - by rewrite (proj2 (Z.leb_le _ _)) by lia.
  - by rewrite (proj2 (Z.leb_gt _ _)) by lia.
Qed.

Lemma header_word_split v :
  is_u32 v ->
  v = header_word (Z.land v RPC_FRAG_LEN_MASK) (negb (Z.land v RPC_LAST_FRAGMENT =? 0)).
Proof.
  intros Hv. rewrite frag_len_mask, last_bit_testbit, testbit31 by done. unfold is_u32 in Hv.
  unfold header_word. destruct (Z.leb_spec 2147483648 v); simpl.
  - rewrite (Z.mod_eq v) by lia. replace (v / 2147483648) with 1; [lia|].
    apply Z.div_unique with (v - 2147483648); lia.
  - rewrite Z.mod_small; lia.
Qed.

Lemma read_header v src :
  is_u32 v -> read_exact 4 (be_bytes 4 v ++ src) = Some (be_bytes 4 v, src).
Proof. intros Hv. apply read_exact_app. by rewrite zlen_be. Qed.

(** One turn of the reading loop on a fragment that fits. *)
Lemma read_fragment_step fuel record f src :
  zlen record + zlen (fr_data f) <= MAX_FRAGMENT_SIZE ->
  read_fragments (S fuel) record (wire_fragment f ++ src) =
  if fr_last f then Some (End_Record (record ++ fr_data f) src)
  else read_fragments fuel (record ++ fr_data f) src.
Proof.
  intros Hfit. unfold MAX_FRAGMENT_SIZE in Hfit.
  pose proof (zlen_nonneg record). pose proof (zlen_nonneg (fr_data f)).
  unfold wire_fragment. rewrite <- app_assoc, fragment_header_word by lia. cbn [read_fragments].
  rewrite read_header by (apply header_word_u32; lia).
  rewrite from_be_be_bytes by (apply be4_u32, header_word_u32; lia).
  rewrite header_word_len, header_word_last by lia. unfold MAX_FRAGMENT_SIZE.
  rewrite !(proj2 (Z.ltb_ge _ _)) by lia. by rewrite read_exact_app.
Qed.

Lemma read_fragments_wire fuel record r bs rest :
  record_wire r bs -> (length bs < fuel)%nat -> zlen record + zlen r <= MAX_FRAGMENT_SIZE ->
  read_fragments fuel record (bs ++ rest) = Some (End_Record (record ++ r) rest).
Proof.
  intros Hw. revert fuel record. induction Hw as [data Hd|data r bs Hd Hw IH]; intros fuel record Hf Hfit.
  - destruct fuel as [|fuel]; [lia|]. by rewrite read_fragment_step.
  - destruct fuel as [|fuel]; [lia|]. rewrite zlen_app in Hfit. pose proof (zlen_nonneg r).
    rewrite <- app_assoc, read_fragment_step by (simpl; lia). cbn [fr_last fr_data].
    rewrite IH, app_assoc; [done| |rewrite zlen_app; lia].
    rewrite length_app in Hf. unfold wire_fragment, fragment_header in Hf.
    rewrite length_app, be_bytes_length in Hf. lia.
Qed.

(** Reading never runs out of fuel: every turn takes four bytes at least. *)
Lemma read_fragments_total fuel record src :
  (length src < fuel)%nat -> read_fragments fuel record src <> None.
Proof.
  revert record src. induction fuel as [|fuel IH]; intros record src Hf; [lia|]. simpl.
  destruct (read_exact 4 src) as [[h src1]|] eqn:Hh; [|done].
  destruct (_ <? _); [done|]. destruct (_ <? _); [done|].
  destruct (read_exact _ src1) as [[f src2]|] eqn:Hb; [|done]. destruct (negb _); [done|].
  apply read_exact_Some in Hh as [-> Hl]; [|lia].
  apply read_exact_Some in Hb as [-> _]; [|apply Z.land_nonneg; by right].
  apply IH. rewrite !length_app in Hf. unfold zlen in Hl. lia.
Qed.

Lemma read_fragments_sound fuel record src r rest :
  bytes_ok src -> read_fragments fuel record src = Some (End_Record r rest) ->
  exists r' bs, r = record ++ r' /\ src = bs ++ rest /\ record_wire r' bs /\
                zlen r <= MAX_FRAGMENT_SIZE.
Proof.
  revert record src. induction fuel as [|fuel IH]; intros record src Hok; [done|]. simpl.
  destruct (read_exact 4 src) as [[h src1]|] eqn:Hh; [|done].
  apply read_exact_Some in Hh as [-> Hl]; [|lia]. apply bytes_ok_app in Hok as [Hh Hok].
  assert (Hv : is_u32 (from_be h)).
  { pose proof (from_be_bound h Hh) as Hb. unfold zlen in Hl. unfold is_u32.
    replace (length h) with 4%nat in Hb by lia. lia. }
  destruct (_ <? _) eqn:H1; [done|]. destruct (MAX_FRAGMENT_SIZE <? zlen record + _) eqn:H2; [done|].
  apply Z.ltb_ge in H1, H2.
  destruct (read_exact _ src1) as [[f src2]|] eqn:Hb; [|done].
  apply read_exact_Some in Hb as [-> Hfl]; [|apply Z.land_nonneg; by right].
  apply bytes_ok_app in Hok as [Hfk Hok].
  assert (Hfm : zlen f < 2147483648) by (unfold MAX_FRAGMENT_SIZE in H1; lia).
  assert (Hhd : h = fragment_header (zlen f) (negb (Z.land (from_be h) RPC_LAST_FRAGMENT =? 0))).
  { rewrite fragment_header_word by (pose proof (zlen_nonneg f); lia).
    rewrite Hfl, <- header_word_split by done. symmetry.
    replace 4%nat with (length h) by (unfold zlen in Hl; lia). by apply be_bytes_from_be. }
  destruct (negb _) eqn:Hlast.
  - intros [= <- <-]. exists f, (wire_fragment (mkFragment true f)). split_and!.
    + done.
    + unfold wire_fragment. cbn [fr_last fr_data]. rewrite <- Hhd. by rewrite app_assoc.
    + by constructor.
    + rewrite zlen_app. lia.
  - intros Hr. apply IH in Hr as (r' & bs & -> & -> & Hw & Hm); [|done].
    exists (f ++ r'), (wire_fragment (mkFragment false f) ++ bs). split_and!.
    + by rewrite app_assoc.
    + unfold wire_fragment. cbn [fr_last fr_data]. rewrite <- Hhd. by rewrite <- !app_assoc.
    + by constructor.
    + done.
Qed.

Lemma write_fragments_wire fuel response :
  response <> [] -> (length response <= fuel)%nat ->
  exists bs, write_fragments fuel response = Some bs /\ record_wire response bs.
Proof.
  revert response. induction fuel as [|fuel IH]; intros response Hne Hf.
  { destruct response; [done|simpl in Hf; lia]. }
  assert (Hpos : 0 < zlen response).
  { destruct response; [done|]. unfold zlen. simpl. lia. }
  destruct response as [|b response'] eqn:E; [done|]. rewrite <- E in *. clear Hne.
  assert (Hw : write_fragments (S fuel) response =
    let frag_len := Z.min (zlen response) MAX_FRAGMENT_SIZE in
    let '(fragment, rest) := split_to frag_len response in
    bs ← write_fragments fuel rest;
    Some (fragment_header (zlen fragment) (frag_len =? zlen response) ++ fragment ++ bs)).
  { by rewrite E. }
  rewrite Hw. clear Hw E. cbv zeta. unfold MAX_FRAGMENT_SIZE.
  destruct (split_to _ response) as [f rest] eqn:Hs.
  apply split_to_spec in Hs as [-> Hl]; [|lia].
  rewrite zlen_app in *. pose proof (zlen_nonneg rest). rewrite length_app in Hf.
  destruct (Z.eqb_spec (Z.min (zlen f + zlen rest) (2 * 1024 * 1024)) (zlen f + zlen rest)) as [He|He].
  - assert (rest = []) as -> by (apply length_zero_iff_nil; unfold zlen in *; lia).
    assert (Hn : write_fragments fuel [] = Some []) by (by destruct fuel).
    rewrite Hn. simpl. eexists. split; [done|]. rewrite !app_nil_r.
    apply (wire_last f). lia.
  - destruct (IH rest) as (bs & -> & Hw).
    { intros ->. unfold zlen in *. simpl in *. lia. }
    { unfold zlen in *. lia. }
    simpl. eexists. split; [done|].
    pose proof (wire_more f rest bs) as Hm. unfold wire_fragment in Hm. cbn [fr_last fr_data] in Hm.
    rewrite <- app_assoc in Hm. apply Hm; [lia|done].
Qed.

Lemma write_record_wire response : response <> [] -> record_wire response (write_record response).
Proof.
  intros Hne. unfold write_record.
  destruct (write_fragments_wire (length response) response Hne) as (bs & -> & Hw); [lia|done].
Qed.

Lemma read_record_wire r bs rest :
  record_wire r bs -> zlen r <= MAX_FRAGMENT_SIZE -> read_record (bs ++ rest) = End_Record r rest.
Proof.
  intros Hw Hm. unfold read_record. rewrite (read_fragments_wire _ [] r); [done|done| |done].
  rewrite length_app. lia.
Qed.

Lemma record_wire_length r bs : record_wire r bs -> (4 <= length bs)%nat.
Proof.
  intros Hw. destruct Hw; unfold wire_fragment, fragment_header; rewrite ?length_app, be_bytes_length; lia.
Qed.

(** ** Theorems *)

(** C23. What the server writes is RFC 5531 framing of the reply, for replies
    of any size: fragments under the 2^31 limit whose payloads concatenate to
    the reply, the last one and only the last one marked; and a message framed
    in any such way, by however many fragments, is reassembled exactly by the
    server's reader as long as it is within the server's limit, leaving the
    rest of the stream alone. *)
Theorem record_marking (response record bs rest : bytes) :
  response <> [] -> record_wire record bs -> zlen record <= MAX_FRAGMENT_SIZE ->
  record_wire response (write_record response) /\
  read_record (bs ++ rest) = End_Record record rest.
Proof. intros Hne Hw Hm. split; [by apply write_record_wire|by apply read_record_wire]. Qed.

(** The reader accepts nothing else: a record handed on was framed so. *)
Theorem read_record_sound src r rest :
  bytes_ok src -> read_record src = End_Record r rest ->
  exists bs, src = bs ++ rest /\ record_wire r bs /\ zlen r <= MAX_FRAGMENT_SIZE.
Proof.
  intros Hok. unfold read_record.
  destruct (read_fragments _ [] src) as [[]|] eqn:E; try done. simpl. intros [= -> ->].
  apply read_fragments_sound in E as (r' & bs & -> & -> & Hw & Hm); [|done]. by exists bs.
Qed.

(** A stream of messages, each written by the writer, is read back as those
    messages in order. *)
Theorem records_roundtrip (msgs : list bytes) :
  Forall (fun m => m <> [] /\ zlen m <= MAX_FRAGMENT_SIZE) msgs ->
  read_records (concat (write_record <$> msgs)) = (msgs, false).
Proof.
  intros Hm. unfold read_records.
  assert (Hgen : forall fuel, (length (concat (write_record <$> msgs)) < fuel)%nat ->
            read_records_loop fuel (concat (write_record <$> msgs)) = (msgs, false)).
  { induction Hm as [|m msgs [Hne Hlen] Hm IH]; intros fuel Hf.
    - destruct fuel; [lia|done].
    - destruct fuel as [|fuel]; [lia|]. cbn [fmap list_fmap concat] in *.
      pose proof (write_record_wire m Hne) as Hw. pose proof (record_wire_length _ _ Hw) as H4.
      rewrite length_app in Hf. cbn [read_records_loop].
      rewrite (read_record_wire m) by done. rewrite bool_decide_eq_false_2 by done.
      rewrite IH by lia. done. }
  apply Hgen. lia.
Qed.

(** An unfinished record is handed on: when the stream ends after a fragment
    that was not the last, the bytes read so far are processed as a message. *)
Theorem truncated_record_dispatched (data : bytes) :
  data <> [] -> zlen data <= MAX_FRAGMENT_SIZE ->
  read_records (wire_fragment (mkFragment false data)) = ([data], false).
Proof.
  intros Hne Hl. unfold read_records, read_record.
  assert (Hr : read_record (wire_fragment (mkFragment false data)) = End_Eof data).
  { unfold read_record. rewrite <- (app_nil_r (wire_fragment _)).
    rewrite read_fragment_step by (simpl; unfold zlen at 1; simpl; lia).
    unfold wire_fragment, fragment_header. rewrite app_nil_r, length_app, be_bytes_length. done. }
  cbn [read_records_loop]. rewrite Hr, bool_decide_eq_false_2 by done. done.
Qed.

Lemma record_marking_witness :
  record_wire [1; 2; 3] (write_record [1; 2; 3]) /\
  read_record ((wire_fragment (mkFragment false [5]) ++ wire_fragment (mkFragment true [6; 7])) ++ [9])
  = End_Record [5; 6; 7] [9].
Proof.
  apply (record_marking [1; 2; 3] [5; 6; 7]).
  - done.
  - apply (wire_more [5] [6; 7]); [reflexivity|]. apply wire_last. reflexivity.
  - unfold MAX_FRAGMENT_SIZE, zlen. simpl. lia.
Defined.

Lemma records_roundtrip_witness :
  read_records (write_record [1; 2; 3] ++ write_record [4]) = ([[1; 2; 3]; [4]], false).
Proof.
  apply (records_roundtrip [[1; 2; 3]; [4]]).
  repeat constructor; (done || (unfold MAX_FRAGMENT_SIZE, zlen; simpl; lia)).
Defined.
