(* ===== verification/Backchannel.v ===== *)
(** * The backchannel (crates/embednfs/src/server/backchannel.rs)

    Callbacks to clients travel as RPC calls on the connections the clients
    opened; the reply comes back among the client's own calls and is routed by
    connection and transaction id.  The state has the two maps and the counter
    of [BackchannelManager] and the tokio channels they hold the sending ends
    of.  [bc_run] lets callbacks, replies, timeouts and connections come in any
    order and keeps the history the theorems speak of. *)

From stdpp Require Import base gmap list sets strings numbers.
From Stdlib Require Import ZArith Lia.
From S2P Require Import Prelude Xdr Rpc Types Constants StateModel Operations Codec FsApi Server.

Local Open Scope Z_scope.

(** A oneshot channel, seen from both ends. *)
Inductive Oneshot :=
| Os_Pending
| Os_Sent (record : bytes)
| Os_SenderDropped
| Os_ReceiverDropped.

Record BackchannelManager := mkBackchannelManager {
  bm_connections : gmap Z Z; (* connection to its outbound queue *)
  bm_waiters : gmap (Z * Z) Z; (* connection and xid to a oneshot *)
  bm_next_xid : Z;
  (* the channels *)
  bm_queues : gmap Z (list bytes); (* queues whose writer task is alive *)
  bm_oneshots : gmap Z Oneshot;
  bm_next_oneshot : Z;
}.
Definition BackchannelManager_default : BackchannelManager :=
  mkBackchannelManager ∅ ∅ 0 ∅ ∅ 0.

Definition set_bm_connections (v : gmap Z Z) (m : BackchannelManager) :=
  mkBackchannelManager v (bm_waiters m) (bm_next_xid m) (bm_queues m) (bm_oneshots m)
    (bm_next_oneshot m).
Definition set_bm_waiters (v : gmap (Z * Z) Z) (m : BackchannelManager) :=
  mkBackchannelManager (bm_connections m) v (bm_next_xid m) (bm_queues m) (bm_oneshots m)
    (bm_next_oneshot m).
Definition set_bm_next_xid (v : Z) (m : BackchannelManager) :=
  mkBackchannelManager (bm_connections m) (bm_waiters m) v (bm_queues m) (bm_oneshots m)
    (bm_next_oneshot m).
Definition set_bm_queues (v : gmap Z (list bytes)) (m : BackchannelManager) :=
  mkBackchannelManager (bm_connections m) (bm_waiters m) (bm_next_xid m) v (bm_oneshots m)
    (bm_next_oneshot m).
Definition set_bm_oneshots (v : gmap Z Oneshot) (m : BackchannelManager) :=
  mkBackchannelManager (bm_connections m) (bm_waiters m) (bm_next_xid m) (bm_queues m) v
    (bm_next_oneshot m).

(** ** Operations *)

Definition register_connection (connection_id queue : Z) (m : BackchannelManager)
    : BackchannelManager :=
  set_bm_connections (<[connection_id := queue]> (bm_connections m)) m.
Definition unregister_connection (connection_id : Z) (m : BackchannelManager)
    : BackchannelManager :=
  set_bm_connections (delete connection_id (bm_connections m)) m.
Definition bm_has_connection (connection_id : Z) (m : BackchannelManager) : bool :=
  bool_decide (is_Some (bm_connections m !! connection_id)).

(** [oneshot::channel()] *)
Definition new_oneshot (m : BackchannelManager) : Z * BackchannelManager :=
  (bm_next_oneshot m,
   mkBackchannelManager (bm_connections m) (bm_waiters m) (bm_next_xid m) (bm_queues m)
     (<[bm_next_oneshot m := Os_Pending]> (bm_oneshots m)) (bm_next_oneshot m + 1)).
(** [tx.send(record).is_ok()] *)
Definition oneshot_send (os : Z) (record : bytes) (m : BackchannelManager)
    : bool * BackchannelManager :=
  match bm_oneshots m !! os with
  | Some Os_Pending => (true, set_bm_oneshots (<[os := Os_Sent record]> (bm_oneshots m)) m)
  | _ => (false, m)
  end.
(** A sending end goes out of scope unused. *)
Definition drop_sender (os : Z) (m : BackchannelManager) : BackchannelManager :=
  match bm_oneshots m !! os with
  | Some Os_Pending => set_bm_oneshots (<[os := Os_SenderDropped]> (bm_oneshots m)) m
  | _ => m
  end.
Definition drop_receiver (os : Z) (m : BackchannelManager) : BackchannelManager :=
  match bm_oneshots m !! os with
  | Some Os_Pending => set_bm_oneshots (<[os := Os_ReceiverDropped]> (bm_oneshots m)) m
  | _ => m
  end.

(** [waiters.insert] and [waiters.remove], whose result is dropped. *)
Definition drop_replaced (old : option Z) (m : BackchannelManager) : BackchannelManager :=
  match old with Some os => drop_sender os m | None => m end.
Definition insert_waiter (key : Z * Z) (os : Z) (m : BackchannelManager) : BackchannelManager :=
  drop_replaced (bm_waiters m !! key) (set_bm_waiters (<[key := os]> (bm_waiters m)) m).
Definition remove_waiter (key : Z * Z) (m : BackchannelManager) : BackchannelManager :=
  drop_replaced (bm_waiters m !! key) (set_bm_waiters (delete key (bm_waiters m)) m).

Definition handle_reply (connection_id : Z) (record : bytes) (m : BackchannelManager)
    : bool * BackchannelManager :=
  match decode_u32 record with
  | Err _ => (false, m)
  | Ok (xid, _) =>
    match bm_waiters m !! (connection_id, xid) with
    | Some os =>
      oneshot_send os record (set_bm_waiters (delete (connection_id, xid) (bm_waiters m)) m)
    | None => (false, m)
    end
  end.

(** [fetch_add(1).wrapping_add(1)], again when it gives 0. *)
Definition fetch_xid (m : BackchannelManager) : Z * BackchannelManager :=
  let xid := u32_wrap (bm_next_xid m + 1) in (xid, set_bm_next_xid xid m).
Definition next_xid (m : BackchannelManager) : Z * BackchannelManager :=
  let '(xid, m) := fetch_xid m in if xid =? 0 then fetch_xid m else (xid, m).

Definition callback_payload (xid : Z) (request : CallbackRequest) : bytes :=
  encode_rpc_call xid (cbr_cb_program request) NFS_V4 1 (cbr_auth request) OpaqueAuth_null ++
  encode_CbCompound4Args (cbr_args request).

(** [send_callback] up to its [await]: the transaction id and the oneshot the
    reply is awaited on. *)
Definition send_callback_start (request : CallbackRequest) (m : BackchannelManager)
    : result CallbackError (Z * Z) * BackchannelManager :=
  match bm_connections m !! cbr_connection_id request with
  | None => (Err Cb_NoConnection, m)
  | Some queue =>
    let '(xid, m) := next_xid m in
    let '(os, m) := new_oneshot m in
    let m := insert_waiter (cbr_connection_id request, xid) os m in
    match bm_queues m !! queue with
    | Some q => (Ok (xid, os), set_bm_queues (<[queue := q ++ [callback_payload xid request]]> (bm_queues m)) m)
    | None => (Err Cb_SendFailed, remove_waiter (cbr_connection_id request, xid) m)
    end
  end.

Definition decode_callback_reply (reply : bytes) : result CallbackError CbCompound4Res :=
  match decode_RpcAcceptedReply reply with
  | Err e => Err (Cb_BadReply e)
  | Ok (header, src) =>
    match rr_accept_stat header with
    | Success =>
      match decode_CbCompound4Res src with
      | Ok (res, _) => Ok res
      | Err e => Err (Cb_BadReply e)
      end
    | stat => Err (Cb_RpcRejected stat)
    end
  end.

(** [send_callback] from its [await] on: [timeout] asks the channel first, and
    gives up when the time has passed.  [None]: still waiting. *)
Definition send_callback_wait (connection_id xid os : Z) (timed_out : bool) (m : BackchannelManager)
    : option (result CallbackError CbCompound4Res) * BackchannelManager :=
  match bm_oneshots m !! os with
  | Some (Os_Sent reply) => (Some (decode_callback_reply reply), m)
  | Some Os_Pending =>
    if timed_out
    then (Some (Err Cb_Timeout), remove_waiter (connection_id, xid) (drop_receiver os m))
    else (None, m)
  | _ => (Some (Err Cb_SendFailed), m)
  end.

(** ** Runs *)

Inductive bc_event :=
| Ev_Call (connection_id xid os : Z)
| Ev_CallFailed (connection_id xid : Z)
| Ev_Reply (connection_id : Z) (record : bytes).

Inductive bc_run : BackchannelManager -> list bc_event -> Prop :=
| bc_start : bc_run BackchannelManager_default []
| bc_register c q m h : bc_run m h -> bc_run (register_connection c q m) h
| bc_unregister c m h : bc_run m h -> bc_run (unregister_connection c m) h
| bc_queues qs m h : (* writer tasks come, go and drain their queues *)
    bc_run m h -> bc_run (set_bm_queues qs m) h
| bc_call request xid os m m' h :
    bc_run m h -> send_callback_start request m = (Ok (xid, os), m') ->
    bc_run m' (Ev_Call (cbr_connection_id request) xid os :: h)
| bc_call_failed request m m' h :
    bc_run m h -> send_callback_start request m = (Err Cb_SendFailed, m') ->
    bc_run m' (Ev_CallFailed (cbr_connection_id request) (bm_next_xid m') :: h)
| bc_wait c xid os timed_out r m m' h :
    bc_run m h -> Ev_Call c xid os ∈ h ->
    send_callback_wait c xid os timed_out m = (r, m') -> bc_run m' h
| bc_reply c record m h :
    bc_run m h -> bc_run (handle_reply c record m).2 (Ev_Reply c record :: h).

(** The transaction ids used, newest first. *)
Definition used_xids (h : list bc_event) : list Z :=
  omap (fun e => match e with
                 | Ev_Call _ xid _ | Ev_CallFailed _ xid => Some xid
                 | Ev_Reply _ _ => None
                 end) h.

(** A reply on the connection, with the transaction id, after the call. *)
Definition answered_by (h : list bc_event) (c xid os : Z) (record : bytes) : Prop :=
  exists h1 h2 rest, h = h1 ++ Ev_Reply c record :: h2 /\ Ev_Call c xid os ∈ h2 /\
                     decode_u32 record = Ok (xid, rest).

(** ** The invariant *)

Record bc_inv (m : BackchannelManager) (h : list bc_event) : Prop := {
  bi_waiter : forall c xid os, bm_waiters m !! (c, xid) = Some os -> Ev_Call c xid os ∈ h;
  bi_fresh : forall os, bm_next_oneshot m <= os -> bm_oneshots m !! os = None;
  bi_old : forall c xid os, Ev_Call c xid os ∈ h -> os < bm_next_oneshot m;
  bi_unique : forall c xid c' xid' os,
    Ev_Call c xid os ∈ h -> Ev_Call c' xid' os ∈ h -> c = c' /\ xid = xid';
  bi_pending : forall c xid os, Ev_Call c xid os ∈ h -> bm_oneshots m !! os = Some Os_Pending ->
    bm_waiters m !! (c, xid) = Some os;
  bi_sent : forall os record, bm_oneshots m !! os = Some (Os_Sent record) ->
    exists c xid, answered_by h c xid os record;
}.

Lemma answered_by_cons e h c xid os record :
  answered_by h c xid os record -> answered_by (e :: h) c xid os record.
Proof.
  intros (h1 & h2 & rest & -> & Hin & Hd). by exists (e :: h1), h2, rest.
Qed.

(** Dropping an end changes a pending oneshot only. *)
Lemma oneshots_drop_replaced old os' m :
  bm_oneshots (drop_replaced old m) !! os' =
  match bm_oneshots m !! os' with
  | Some Os_Pending => Some (if decide (old = Some os') then Os_SenderDropped else Os_Pending)
  | x => x
  end.
Proof.
  destruct old as [os|]; simpl; [|by destruct (bm_oneshots m !! os') as [[]|]].
  unfold drop_sender. destruct (bm_oneshots m !! os) as [[]|] eqn:E; simpl;
    destruct (decide (os = os')) as [->|Hne]; rewrite ?E, ?lookup_insert_eq, ?lookup_insert_ne by done;
    try done; try (by rewrite decide_True);
    (destruct (bm_oneshots m !! os') as [[]|]; try done; rewrite decide_False; congruence).
Qed.
Lemma oneshots_drop_receiver os os' m :
  bm_oneshots (drop_receiver os m) !! os' =
  match bm_oneshots m !! os' with
  | Some Os_Pending => Some (if decide (os = os') then Os_ReceiverDropped else Os_Pending)
  | x => x
  end.
Proof.
  unfold drop_receiver. destruct (bm_oneshots m !! os) as [[]|] eqn:E; simpl;
    destruct (decide (os = os')) as [->|Hne]; rewrite ?E; try done;
    rewrite ?lookup_insert_eq, ?lookup_insert_ne by done; try done;
    by destruct (bm_oneshots m !! os') as [[]|].
Qed.
Lemma drop_replaced_frame old m :
  bm_waiters (drop_replaced old m) = bm_waiters m /\
  bm_next_oneshot (drop_replaced old m) = bm_next_oneshot m /\
  bm_next_xid (drop_replaced old m) = bm_next_xid m /\
  bm_queues (drop_replaced old m) = bm_queues m.
Proof.
  destruct old as [os|]; [|done]. simpl. unfold drop_sender. by destruct (bm_oneshots m !! os) as [[]|].
Qed.
Lemma drop_receiver_frame os m :
  bm_waiters (drop_receiver os m) = bm_waiters m /\
  bm_next_oneshot (drop_receiver os m) = bm_next_oneshot m /\
  bm_next_xid (drop_receiver os m) = bm_next_xid m.
Proof. unfold drop_receiver. by destruct (bm_oneshots m !! os) as [[]|]. Qed.

(** A state with the same counter whose waiters and pending oneshots are among
    the old ones, matching still, keeps the invariant. *)
Lemma bc_inv_narrow m m' h :
  bc_inv m h -> bm_next_oneshot m' = bm_next_oneshot m ->
  (forall k os, bm_waiters m' !! k = Some os -> bm_waiters m !! k = Some os) ->
  (forall os, bm_oneshots m' !! os = Some Os_Pending ->
     bm_oneshots m !! os = Some Os_Pending /\
     forall k, bm_waiters m !! k = Some os -> bm_waiters m' !! k = Some os) ->
  (forall os r, bm_oneshots m' !! os = Some (Os_Sent r) -> bm_oneshots m !! os = Some (Os_Sent r)) ->
  (forall os, bm_oneshots m !! os = None -> bm_oneshots m' !! os = None) ->
  bc_inv m' h.
Proof.
  intros [I1 I2 I3 I4 I5 I6] Hn Hw Hp Hs Hnone. split.
  - intros c xid os Hk. by apply I1, Hw.
  - intros os. rewrite Hn. intros Hos. by apply Hnone, I2.
  - rewrite Hn. exact I3.
  - exact I4.
  - intros c xid os Hin Hpend. apply Hp in Hpend as [Hold Hk]. by apply Hk, I5.
  - intros os r Hr. by apply I6, Hs.
Qed.

Lemma remove_waiter_inv m h key : bc_inv m h -> bc_inv (remove_waiter key m) h.
Proof.
  intros Hi. unfold remove_waiter. set (m1 := set_bm_waiters _ m).
  destruct (drop_replaced_frame (bm_waiters m !! key) m1) as (Hw & Hn & _).
  apply (bc_inv_narrow m); [done|by rewrite Hn| | | |].
  - intros k os. rewrite Hw. simpl. by intros [_ ?]%lookup_delete_Some.
  - intros os. rewrite oneshots_drop_replaced. cbn [m1 set_bm_waiters bm_oneshots].
    destruct (bm_oneshots m !! os) as [[]|]; try done. case_decide as Hne; [done|]. intros _.
    split; [done|]. intros k Hos. rewrite Hw. cbn [m1 set_bm_waiters bm_waiters].
    apply lookup_delete_Some. split; [|done]. by intros ->.
  - intros os r. rewrite oneshots_drop_replaced. cbn [m1 set_bm_waiters bm_oneshots].
    destruct (bm_oneshots m !! os) as [[]|]; try done. by case_decide.
  - intros os Hos. rewrite oneshots_drop_replaced. cbn [m1 set_bm_waiters bm_oneshots]. by rewrite Hos.
Qed.

Lemma drop_receiver_inv m h c xid os :
  bc_inv m h -> Ev_Call c xid os ∈ h -> bc_inv (drop_receiver os m) h.
Proof.
  intros Hi Hin. destruct (drop_receiver_frame os m) as (Hw & Hn & _).
  apply (bc_inv_narrow m); [done|done| | | |].
  - intros k os'. by rewrite Hw.
  - intros os'. rewrite oneshots_drop_receiver.
    destruct (bm_oneshots m !! os') as [[]|]; try done. case_decide; [done|]. by rewrite Hw.
  - intros os' r. rewrite oneshots_drop_receiver.
    destruct (bm_oneshots m !! os') as [[]|]; try done. by case_decide.
  - intros os' Ho. rewrite oneshots_drop_receiver. by rewrite Ho.
Qed.

Lemma handle_reply_inv m h c record :
  bc_inv m h -> bc_inv (handle_reply c record m).2 (Ev_Reply c record :: h).
Proof.
  intros Hi.
  assert (Hext : bc_inv m (Ev_Reply c record :: h)).
  { destruct Hi as [I1 I2 I3 I4 I5 I6]. split.
    - intros. apply list_elem_of_further. by apply I1.
    - done.
    - intros c' xid' os [?|Hin]%elem_of_cons; [done|by eapply I3].
    - intros c1 x1 c2 x2 os [?|H1]%elem_of_cons [?|H2]%elem_of_cons; [done..|]. by eapply I4.
    - intros c' xid' os [?|Hin]%elem_of_cons; [done|by apply I5].
    - intros os r Hr. destruct (I6 _ _ Hr) as (c' & x' & Ha). exists c', x'. by apply answered_by_cons. }
  unfold handle_reply. destruct (decode_u32 record) as [[xid rest]|e] eqn:Hd; [|done].
  destruct (bm_waiters m !! (c, xid)) as [os|] eqn:Hk; [|done].
  pose proof (bi_waiter _ _ Hi _ _ _ Hk) as Hcall.
  set (m1 := set_bm_waiters _ m). unfold oneshot_send.
  assert (Hm1 : bm_oneshots m1 = bm_oneshots m) by done. rewrite Hm1.
  assert (Hother : forall k os', bm_waiters m !! k = Some os' -> os <> os' ->
            bm_waiters m1 !! k = Some os').
  { intros k os' Hk' Hne. apply lookup_delete_Some. split; [|done]. intros <-. congruence. }
  destruct (bm_oneshots m !! os) as [st|] eqn:Hos.
  2: { apply (bc_inv_narrow m); try done.
    - intros k os'. simpl. by intros [_ ?]%lookup_delete_Some.
    - intros os' Hp. split; [done|]. intros k Hk'. simpl in Hp.
      apply Hother; [done|]. intros ->. congruence. }
  destruct st; simpl.
  2-4: apply (bc_inv_narrow m); try done;
    [intros k os'; simpl; by intros [_ ?]%lookup_delete_Some
    |intros os' Hp; split; [done|]; intros k Hk'; apply Hother; [done|]; intros ->;
     rewrite Hm1 in Hp; congruence].
  destruct Hext as [I1 I2 I3 I4 I5 I6]. split; simpl.
  - intros c' x' os'. intros [_ ?]%lookup_delete_Some. by apply I1.
  - intros os' Ho. rewrite lookup_insert_ne; [by apply I2|]. intros <-. rewrite I2 in Hos; done.
  - exact I3.
  - exact I4.
  - intros c' x' os' Hin. rewrite lookup_insert_Some. intros [[? ?]|[Hne Hp]]; [done|].
    apply Hother; [by apply I5|done].
  - intros os' r. rewrite lookup_insert_Some. intros [[<- [= <-]]|[_ Hr]]; [|by apply I6].
    exists c, xid, [], h, rest. done.
Qed.

Lemma answered_by_tail e h c xid os record :
  (forall c1 r, e <> Ev_Reply c1 r) ->
  answered_by (e :: h) c xid os record -> answered_by h c xid os record.
Proof.
  intros He ([|e' h1] & h2 & rest & Heq & Hin & Hd); simplify_eq/=; [by destruct (He c record)|].
  by exists h1, h2, rest.
Qed.

Lemma next_xid_frame m :
  bm_waiters (next_xid m).2 = bm_waiters m /\ bm_oneshots (next_xid m).2 = bm_oneshots m /\
  bm_next_oneshot (next_xid m).2 = bm_next_oneshot m /\
  bm_next_xid (next_xid m).2 = (next_xid m).1.
Proof. unfold next_xid, fetch_xid. simpl. by destruct (_ =? 0). Qed.

(** The waiter of a new call is in place before the call is sent. *)
Lemma insert_waiter_inv m h c xid :
  bc_inv m h ->
  bc_inv (insert_waiter (c, xid) (bm_next_oneshot m) (new_oneshot m).2)
    (Ev_Call c xid (bm_next_oneshot m) :: h).
Proof.
  intros [I1 I2 I3 I4 I5 I6]. set (os := bm_next_oneshot m).
  unfold insert_waiter. cbn [new_oneshot snd bm_waiters]. set (m2 := set_bm_waiters _ _).
  destruct (drop_replaced_frame (bm_waiters m !! (c, xid)) m2) as (Hw & Hn & _).
  assert (Hold : forall c' x' os', Ev_Call c' x' os' ∈ h -> os' < os) by exact I3.
  split; rewrite ?Hw, ?Hn; cbn [m2 set_bm_waiters bm_waiters bm_next_oneshot].
  - intros c' x' os'. rewrite lookup_insert_Some.
    intros [[[= <- <-] <-]|[_ Hk']]; [left|right; by apply I1].
  - intros os' Ho. rewrite oneshots_drop_replaced. simpl.
    rewrite lookup_insert_ne by (unfold os in *; lia). by rewrite I2 by lia.
  - intros c' x' os' [[= _ _ ->]|Hin]%elem_of_cons; [lia|]. apply Hold in Hin. unfold os in *. lia.
  - intros c1 x1 c2 x2 os' [E1|H1]%elem_of_cons [E2|H2]%elem_of_cons; simplify_eq; [done| | |by eapply I4].
    + apply Hold in H2. unfold os in *. lia.
    + apply Hold in H1. unfold os in *. lia.
  - intros c' x' os' Hin. rewrite oneshots_drop_replaced. simpl.
    apply elem_of_cons in Hin as [[= -> -> ->]|Hin]; [intros _; by rewrite lookup_insert_eq|].
    pose proof (Hold _ _ _ Hin). rewrite lookup_insert_ne by (unfold os in *; lia).
    destruct (bm_oneshots m !! os') as [[]|] eqn:Hp; try done. case_decide as Hne; [done|]. intros _.
    pose proof (I5 _ _ _ Hin Hp) as Hk'. rewrite lookup_insert_ne; [done|]. intros [= -> ->]. congruence.
  - intros os' r. rewrite oneshots_drop_replaced. simpl. intros Hr.
    assert (Hr' : bm_oneshots m !! os' = Some (Os_Sent r)).
    { destruct (decide (os = os')) as [<-|Hne].
      - unfold os in Hr. rewrite lookup_insert_eq in Hr. by case_decide.
      - rewrite lookup_insert_ne in Hr by done. destruct (bm_oneshots m !! os') as [[]|]; try done.
        by case_decide. }
    destruct (I6 _ _ Hr') as (c' & x' & Ha). exists c', x'. by apply answered_by_cons.
Qed.

(** A call that could not be sent is forgotten. *)
Lemma forget_call_inv m h c xid os xid' :
  bc_inv m (Ev_Call c xid os :: h) -> bm_waiters m !! (c, xid) = None ->
  bc_inv m (Ev_CallFailed c xid' :: h).
Proof.
  intros [I1 I2 I3 I4 I5 I6] Hk.
  assert (Hsub : forall c' x' os', Ev_Call c' x' os' ∈ Ev_CallFailed c xid' :: h ->
                   Ev_Call c' x' os' ∈ Ev_Call c xid os :: h).
  { intros c' x' os' [?|?]%elem_of_cons; [done|by right]. }
  split; eauto.
  - intros c' x' os' Hk'. pose proof (I1 _ _ _ Hk') as [E|?]%elem_of_cons; [|by right].
    simplify_eq.
  - intros os' r Hr. destruct (I6 _ _ Hr) as (c' & x' & Ha). exists c', x'.
    apply answered_by_cons. by apply answered_by_tail in Ha.
Qed.

Lemma inv_next_xid m h : bc_inv m h -> bc_inv (next_xid m).2 h.
Proof.
  intros Hi. destruct (next_xid_frame m) as (Hw & Ho & Hn & _).
  apply (bc_inv_narrow m); rewrite ?Hw, ?Ho; auto.
Qed.

Lemma send_start_inv request m h r m' :
  bc_inv m h -> send_callback_start request m = (r, m') ->
  match r with
  | Ok (xid, os) => bc_inv m' (Ev_Call (cbr_connection_id request) xid os :: h)
  | Err Cb_SendFailed =>
    bc_inv m' (Ev_CallFailed (cbr_connection_id request) (bm_next_xid m') :: h)
  | Err _ => m' = m
  end.
Proof.
  intros Hi. unfold send_callback_start. destruct (bm_connections m !! _) as [q|]; [|by intros [= <- <-]].
  apply inv_next_xid in Hi. destruct (next_xid m) as [xid m1]. simpl in Hi.
  apply (insert_waiter_inv _ _ (cbr_connection_id request) xid) in Hi.
  destruct (new_oneshot m1) as [os m2] eqn:Hos. assert (os = bm_next_oneshot m1) as -> by (unfold new_oneshot in Hos; congruence).
  simpl in Hi. set (m3 := insert_waiter _ _ m2) in *. destruct (bm_queues m3 !! q) as [qs|].
  - intros [= <- <-]. by apply (bc_inv_narrow m3).
  - intros [= <- <-]. apply remove_waiter_inv with (key := (cbr_connection_id request, xid)) in Hi.
    eapply forget_call_inv; [done|]. unfold remove_waiter.
    rewrite (proj1 (drop_replaced_frame _ _)). simpl. by rewrite lookup_delete_eq.
Qed.

Lemma send_wait_inv c xid os t m h r m' :
  bc_inv m h -> Ev_Call c xid os ∈ h -> send_callback_wait c xid os t m = (r, m') -> bc_inv m' h.
Proof.
  intros Hi Hin. unfold send_callback_wait.
  destruct (bm_oneshots m !! os) as [[]|]; [|by intros [= _ <-]..].
  destruct t; intros [= _ <-]; [|done]. by eapply remove_waiter_inv, drop_receiver_inv.
Qed.

Lemma bc_run_inv m h : bc_run m h -> bc_inv m h.
Proof.
  induction 1 as [|c q m h _ IH|c m h _ IH|qs m h _ IH|req xid os m m' h _ IH Hs|req m m' h _ IH Hs
                  |c xid os t r m m' h _ IH Hin Hs|c record m h _ IH].
  - split; simpl; intros; try set_solver.
  - by apply (bc_inv_narrow m).
  - by apply (bc_inv_narrow m).
  - by apply (bc_inv_narrow m).
  - exact (send_start_inv _ _ _ _ _ IH Hs).
  - exact (send_start_inv _ _ _ _ _ IH Hs).
  - by eapply send_wait_inv.
  - by apply handle_reply_inv.
Qed.

(** ** Transaction ids *)

Definition xid_after (xid : Z) : Z := if xid =? 4294967295 then 1 else xid + 1.

Lemma next_xid_spec m :
  is_u32 (bm_next_xid m) ->
  (next_xid m).1 = xid_after (bm_next_xid m) /\ bm_next_xid (next_xid m).2 = (next_xid m).1.
Proof.
  intros Hx. split; [|by apply next_xid_frame]. unfold next_xid, fetch_xid, xid_after, is_u32 in *. simpl.
  destruct (Z.eqb_spec (bm_next_xid m) 4294967295) as [->|Hne]; [done|].
  unfold u32_wrap. rewrite (Z.mod_small (bm_next_xid m + 1)) by lia.
  by destruct (Z.eqb_spec (bm_next_xid m + 1) 0); [lia|].
Qed.

Lemma send_start_xid request m r m' :
  send_callback_start request m = (r, m') ->
  match r with
  | Ok (xid, os) => xid = (next_xid m).1 /\ bm_next_xid m' = xid
  | Err Cb_SendFailed => bm_next_xid m' = (next_xid m).1
  | Err _ => True
  end.
Proof.
  unfold send_callback_start. destruct (bm_connections m !! _) as [q|]; [|by intros [= <- <-]].
  destruct (next_xid_frame m) as (_ & _ & _ & Hx). destruct (next_xid m) as [xid m1]. simpl in Hx.
  destruct (new_oneshot m1) as [os m2] eqn:Hos.
  assert (H2 : bm_next_xid m2 = xid) by (unfold new_oneshot in Hos; by simplify_eq/=).
  assert (H3 : bm_next_xid (insert_waiter (cbr_connection_id request, xid) os m2) = xid).
  { unfold insert_waiter. by rewrite (proj1 (proj2 (proj2 (drop_replaced_frame _ _)))). }
  destruct (bm_queues _ !! q) as [qs|]; intros [= <- <-]; [done|].
  unfold remove_waiter. by rewrite (proj1 (proj2 (proj2 (drop_replaced_frame _ _)))).
Qed.

(** The [n]-th callback from the first has transaction id [n], counted without 0. *)
Definition xids_counted (m : BackchannelManager) (l : list Z) : Prop :=
  match l with [] => bm_next_xid m = 0 | xid :: _ => bm_next_xid m = xid end /\
  forall n xid, l !! n = Some xid ->
    xid = (Z.of_nat (length l) - Z.of_nat n - 1) mod 4294967295 + 1.

Lemma xids_counted_next m m' l :
  xids_counted m l -> bm_next_xid m' = (next_xid m).1 -> xids_counted m' ((next_xid m).1 :: l).
Proof.
  intros [Hn IH] Hm'. split; [done|]. intros [|n] xid; simpl.
  2: { intros Hl. rewrite (IH _ _ Hl).
       by replace (Z.of_nat (S (length l)) - Z.of_nat (S n) - 1)
         with (Z.of_nat (length l) - Z.of_nat n - 1) by lia. }
  intros [= <-]. destruct l as [|x l]; simpl in *.
  - by rewrite (proj1 (next_xid_spec _ ltac:(rewrite Hn; unfold is_u32; lia))), Hn.
  - pose proof (IH 0%nat x eq_refl) as Hx. rewrite Z.sub_0_r in *.
    pose proof (Z.mod_pos_bound (Z.of_nat (S (length l)) - 1) 4294967295 ltac:(lia)).
    rewrite (proj1 (next_xid_spec _ ltac:(rewrite Hn; unfold is_u32; lia))), Hn. unfold xid_after.
    replace (Z.of_nat (S (S (length l))) - 1) with (Z.of_nat (S (length l)) - 1 + 1) by lia.
    rewrite Hx. set (k := Z.of_nat (S (length l)) - 1) in *. clearbody k.
    rewrite <- (Zplus_mod_idemp_l k).
    destruct (Z.eqb_spec (k mod 4294967295 + 1) 4294967295) as [->|He]; [done|].
    rewrite (Z.mod_small (k mod 4294967295 + 1)); lia.
Qed.

Lemma xids_counted_same m m' l :
  xids_counted m l -> bm_next_xid m' = bm_next_xid m -> xids_counted m' l.
Proof. unfold xids_counted. by intros ? ->. Qed.

Lemma bc_run_xids m h : bc_run m h -> xids_counted m (used_xids h).
Proof.
  induction 1 as [|c q m h Hr IH|c m h Hr IH|qs m h Hr IH|req xid os m m' h Hr IH Hs
    |req m m' h Hr IH Hs|c xid os t r m m' h Hr IH Hin Hs|c record m h Hr IH]; try exact IH.
  - split; [done|]. by intros [|n] xid.
  - apply send_start_xid in Hs as [-> Hn]. simpl. by eapply xids_counted_next.
  - apply send_start_xid in Hs as Hn. simpl. rewrite Hn. by eapply xids_counted_next.
  - eapply xids_counted_same; [exact IH|].
    unfold send_callback_wait in Hs. destruct (bm_oneshots m !! os) as [[]|]; try by simplify_eq.
    destruct t; simplify_eq; [|done]. unfold remove_waiter.
    rewrite (proj1 (proj2 (proj2 (drop_replaced_frame _ _)))). simpl. apply drop_receiver_frame.
  - eapply xids_counted_same; [exact IH|]. unfold handle_reply, oneshot_send.
    destruct (decode_u32 record) as [[]|]; [|done].
    destruct (bm_waiters m !! _) as [o|]; [|done]. simpl. by destruct (bm_oneshots m !! o) as [[]|].
Qed.

(** ** Theorems *)

(** Transaction ids are never 0 and never reused within 2^32 - 1 callbacks, so
    no callback takes over the waiter of another. *)
Theorem callback_xids_distinct m h :
  bc_run m h -> Z.of_nat (length (used_xids h)) <= 4294967295 ->
  NoDup (used_xids h) /\ Forall (fun xid => 1 <= xid <= 4294967295) (used_xids h).
Proof.
  intros Hrun Hlen. destruct (bc_run_xids _ _ Hrun) as [_ H]. split.
  - apply NoDup_alt. intros i j x Hi Hj.
    pose proof (lookup_lt_Some _ _ _ Hi). pose proof (lookup_lt_Some _ _ _ Hj).
    apply H in Hi, Hj. rewrite !Z.mod_small in * by lia. lia.
  - apply Forall_lookup. intros i x Hi. apply H in Hi. subst x.
    pose proof (Z.mod_pos_bound (Z.of_nat (length (used_xids h)) - Z.of_nat i - 1) 4294967295 ltac:(lia)).
    lia.
Qed.

(** C37. A callback gets its own reply or none: in any order of calls,
    replies, timeouts and connections, what [send_callback] returns is a
    timeout, a failure to send, or the decoding of a record that arrived after
    the call, on the connection the call was sent on, with the call's
    transaction id. *)
Theorem callback_reply_routed m h c xid os timed_out r m' :
  bc_run m h -> Ev_Call c xid os ∈ h ->
  send_callback_wait c xid os timed_out m = (Some r, m') ->
  (r = Err Cb_Timeout /\ timed_out = true) \/ r = Err Cb_SendFailed \/
  exists record, answered_by h c xid os record /\ r = decode_callback_reply record.
Proof.
  intros Hrun Hin. pose proof (bc_run_inv _ _ Hrun) as Hi. unfold send_callback_wait.
  destruct (bm_oneshots m !! os) as [[|record| |]|] eqn:Hos; try (intros [= <- _]; by auto).
  - destruct timed_out; intros [= <- _]. by left.
  - intros [= <- _]. right. right. exists record. split; [|done].
    destruct (bi_sent _ _ Hi _ _ Hos) as (c' & x' & Ha).
    assert (Hin' : Ev_Call c' x' os ∈ h).
    { destruct Ha as (h1 & h2 & rest & -> & Hc & _). set_solver. }
    by destruct (bi_unique _ _ Hi _ _ _ _ _ Hin Hin') as [-> ->].
Qed.

(** A reply that arrives while the call is waiting is delivered: [handle_reply]
    accepts it and the waiting callback returns its decoding, even when its
    time has passed by then. *)
Theorem callback_reply_delivered m h c xid os record rest timed_out :
  bc_run m h -> Ev_Call c xid os ∈ h -> bm_oneshots m !! os = Some Os_Pending ->
  decode_u32 record = Ok (xid, rest) ->
  (handle_reply c record m).1 = true /\
  (send_callback_wait c xid os timed_out (handle_reply c record m).2).1 =
  Some (decode_callback_reply record).
Proof.
  intros Hrun Hin Hp Hd. pose proof (bc_run_inv _ _ Hrun) as Hi.
  unfold handle_reply. rewrite Hd, (bi_pending _ _ Hi _ _ _ Hin Hp). unfold oneshot_send.
  cbn [set_bm_waiters bm_oneshots]. rewrite Hp. split; [done|]. unfold send_callback_wait. simpl.
  by rewrite lookup_insert_eq.
Qed.

(** ** A concrete callback *)

Definition example_request : CallbackRequest :=
  mkCallbackRequest 7 1073745920 OpaqueAuth_null 1000000000
    (mkCbCompound4Args (str_bytes "recall") 1 0 []).
Definition example_channel : BackchannelManager :=
  set_bm_queues {[1 := []]} (register_connection 7 1 BackchannelManager_default).
Definition example_called : BackchannelManager := (send_callback_start example_request example_channel).2.
(** The client's answer: accepted, status OK, no results. *)
Definition example_reply : bytes :=
  encode_rpc_reply_accepted 1 ++ encode_u32 0 ++ encode_string (str_bytes "recall") ++ encode_u32 0.

Lemma example_called_run : bc_run example_called [Ev_Call 7 1 0].
Proof.
  apply (bc_call example_request 1 0 example_channel).
  - apply (bc_queues {[1 := []]} (register_connection 7 1 BackchannelManager_default)).
    apply bc_register, bc_start.
  - vm_compute. reflexivity.
Qed.

Lemma callback_reply_routed_witness :
  let m := (handle_reply 7 example_reply example_called).2 in
  let h := [Ev_Reply 7 example_reply; Ev_Call 7 1 0] in
  let r := Ok (mkCbCompound4Res NFS_Ok (str_bytes "recall") []) in
  send_callback_wait 7 1 0 false m = (Some r, m) /\
  ((r = Err Cb_Timeout /\ false = true) \/ r = Err Cb_SendFailed \/
   exists record, answered_by h 7 1 0 record /\ r = decode_callback_reply record).
Proof.
  intros m h r.
  assert (Hw : send_callback_wait 7 1 0 false m = (Some r, m)) by (vm_compute; reflexivity).
  split; [exact Hw|].
  apply (callback_reply_routed m h 7 1 0 false r m).
  - apply (bc_reply 7 example_reply example_called), example_called_run.
  - right. left.
  - exact Hw.
Defined.

Lemma callback_reply_delivered_witness :
  (handle_reply 7 example_reply example_called).1 = true /\
  (send_callback_wait 7 1 0 true (handle_reply 7 example_reply example_called).2).1 =
  Some (decode_callback_reply example_reply).
Proof.
  eapply (callback_reply_delivered example_called [Ev_Call 7 1 0] 7 1 0 example_reply).
  - exact example_called_run.
  - left.
  - vm_compute. reflexivity.
  - vm_compute. reflexivity.
Defined.
