(* ===== verification/Transport.v ===== *)
(** * The RPC layer (crates/embednfs/src/server/transport.rs and the
      authentication part of server/mod.rs)

    One RPC message in, at most one reply out: the call header, the program
    and version checks, the authentication policy, the SEQUENCE of the slot and
    its reply cache around the COMPOUND.  [process_rpc_message] is the whole of
    it; [open_connection], [dispatch_record] and [close_connection] are
    [handle_connection] around the record reader of [Records]. *)

From stdpp Require Import base gmap list sets strings numbers.
From Stdlib Require Import ZArith Lia.
From S2P Require Import Prelude Xdr Rpc Types Constants StateModel Operations Codec FsApi Metadata.
From S2P Require Import Clients Sequence AttrCodec Server ServerFs Compound Records.

Local Open Scope Z_scope.
Local Open Scope proc_scope.

(** ** Credentials *)

Definition parse_auth_sys (body : bytes) : option AuthSysParams :=
  match decode_AuthSysParams body with
  | Ok (params, []) => Some params
  | _ => None
  end.

(** [RequestContext] of a credential. *)
Definition request_context (cred : OpaqueAuth) : RequestContext :=
  mkRequestContext
    (if oa_flavor cred =? AuthFlavor_u32 AuthNone then Auth_None
     else if oa_flavor cred =? AuthFlavor_u32 AuthSys then
       match parse_auth_sys (oa_body cred) with
       | Some params => Auth_Sys (as_uid params) (as_gid params) (as_gids params)
       | None => Auth_Unknown (oa_flavor cred)
       end
     else Auth_Unknown (oa_flavor cred)).

Definition replay_fingerprint (cred : OpaqueAuth) (payload : bytes) : bytes :=
  encode_u32 (oa_flavor cred) ++ encode_opaque (oa_body cred) ++ payload.

Definition rpc_message_type (record : bytes) : option MsgType :=
  match decode_u32 record with
  | Err _ => None
  | Ok (_, src) => match decode_MsgType src with Ok (t, _) => Some t | Err _ => None end
  end.

Section transport.
Context {H B : Type} `{Countable H} {ho : HashOrder} (srv : NfsServer H B).
Abbreviation W := (Server H B).

Definition validate_rpc_auth (call : RpcCallHeader) : result AuthStat unit :=
  if negb (auth_allows (ns_auth_policy srv) (oa_flavor (rc_cred call))) then Err TooWeak
  else if (oa_flavor (rc_cred call) =? AuthFlavor_u32 AuthSys) &&
          negb (bool_decide (is_Some (parse_auth_sys (oa_body (rc_cred call))))) then Err BadCred
  else if (oa_flavor (rc_verf call) =? AuthFlavor_u32 AuthSys) &&
          negb (bool_decide (is_Some (parse_auth_sys (oa_body (rc_verf call))))) then Err BadVerf
  else Ok tt.

(** ** COMPOUND and its slot *)

Definition accepted (xid : Z) (result : Compound4Res) : bytes :=
  encode_rpc_reply_accepted xid ++ encode_Compound4Res result.

(** The SEQUENCE a request of minor version 1 or 2 starts with. *)
Definition leading_sequence (args : Compound4Args) : option SequenceArgs4 :=
  if (c4a_minorversion args =? 1) || (c4a_minorversion args =? 2) then
    match head (c4a_argarray args) with
    | Some (Arg_Sequence seq_args) => Some seq_args
    | _ => None
    end
  else None.

(** Execution, with the reply kept in the slot when there is a token for it;
    a failure to keep it is only logged. *)
Definition execute_compound (call : RpcCallHeader) (connection_id : Z) (args : Compound4Args)
    (prepared : option (SequenceRes4 * SequenceCacheToken)) : proc W bytes :=
  let* result := handle_compound srv args
                   ((fun p : SequenceRes4 * SequenceCacheToken => Res_Sequence NFS_Ok (Some p.1))
                      <$> prepared)
                   (request_context (rc_cred call)) connection_id in
  let body := encode_Compound4Res result in
  let* _ := (match prepared with
             | Some (_, token) => state_op (finish_sequence token body)
             | None => Ret (Ok tt)
             end) in
  Ret (accepted (rc_xid call) result).

Definition process_compound (call : RpcCallHeader) (compound_payload : bytes) (connection_id : Z)
    (args : Compound4Args) : proc W bytes :=
  match leading_sequence args with
  | Some seq_args =>
    let fingerprint := replay_fingerprint (rc_cred call) compound_payload in
    let* replay := timed_op (prepare_sequence seq_args fingerprint connection_id) in
    match replay with
    | Seq_Execute res token => execute_compound call connection_id args (Some (res, token))
    | Seq_Replay cached => Ret (encode_rpc_reply_accepted (rc_xid call) ++ cached)
    | Seq_StatusOnly res =>
      Ret (accepted (rc_xid call) (sequence_only_compound (c4a_tag args) res))
    | Seq_Error status =>
      Ret (accepted (rc_xid call) (sequence_error_compound (c4a_tag args) status))
    end
  | None => execute_compound call connection_id args None
  end.

(** ** One message *)

Definition process_rpc_message (data : bytes) (connection_id : Z) : proc W (option bytes) :=
  match decode_RpcCallHeader data with
  | Err _ => Ret None
  | Ok (call, src) =>
    let xid := rc_xid call in
    if negb (rc_rpcvers call =? RPC_VERSION) then
      Ret (Some (encode_rpc_reply_prog_mismatch xid RPC_VERSION RPC_VERSION))
    else if negb (rc_prog call =? NFS_PROGRAM) then
      Ret (Some (encode_rpc_reply_prog_mismatch xid NFS_PROGRAM NFS_PROGRAM))
    else if negb (rc_vers call =? NFS_V4) then
      Ret (Some (encode_rpc_reply_prog_mismatch xid NFS_V4 NFS_V4))
    else if rc_proc_num call =? 0 then Ret (Some (encode_rpc_reply_accepted xid))
    else match validate_rpc_auth call with
    | Err auth => Ret (Some (encode_rpc_reply_auth_error xid auth))
    | Ok _ =>
      if rc_proc_num call =? 1 then
        match decode_Compound4Args src with
        | Ok (args, _) =>
          let* reply := process_compound call src connection_id args in Ret (Some reply)
        | Err _ => Ret (Some (accepted xid (mkCompound4Res NFS_BadXdr [] [])))
        end
      else Ret (Some (encode_rpc_reply_proc_unavail xid))
    end
  end.

(** ** Connections *)

Definition open_connection : proc W Z :=
  let* connection_id := state_op alloc_connection_id in
  let* _ := atomic (fun w => (tt, set_sv_connections ({[connection_id]} ∪ sv_connections w) w)) in
  Ret connection_id.

Definition close_connection (connection_id : Z) : proc W unit :=
  let* _ := atomic (fun w => (tt, set_sv_connections (sv_connections w ∖ {[connection_id]}) w)) in
  state_op (fun s => (tt, remove_connection connection_id s)).

(** A reply is for the backchannel; anything else becomes a task of its own. *)
Definition is_callback_reply (record : bytes) : bool :=
  match rpc_message_type record with Some Reply => true | _ => false end.
Definition dispatch_record (connection_id : Z) (record : bytes) : option (proc W (option bytes)) :=
  if is_callback_reply record then None else Some (process_rpc_message record connection_id).

(** What a connection's byte stream makes the server do: its tasks, in the order
    they are started, and the replies for the backchannel. *)
Definition connection_tasks (connection_id : Z) (stream : bytes) : list (proc W (option bytes)) :=
  omap (dispatch_record connection_id) (read_records stream).1.
Definition connection_replies (stream : bytes) : list bytes :=
  List.filter is_callback_reply (read_records stream).1.
End transport.
