(* ===== verification/Replies.v ===== *)
(** * What the server may answer to a COMPOUND

    The specification of a COMPOUND's reply ([compound_answer]): its results, one
    per operation and in order, up to the first that fails.  The reply cache keeps
    encoded replies under the fingerprint of their request; [genuine_reply] says
    that a kept reply is such an answer to the request with that fingerprint, and
    [genuine_own] that it is one to every request with that fingerprint, because a
    fingerprint determines the request ([replay_fingerprint_payload]).

    [oversized_message] singles out the messages with a size beyond [isize::MAX],
    on which the server's buffers of named attributes overflow. *)

From stdpp Require Import base gmap list sets strings numbers.
From Stdlib Require Import ZArith Lia.
From S2P Require Import Prelude Xdr Rpc Types Constants StateModel Operations Codec FsApi Metadata.
From S2P Require Import Clients Sequence AttrCodec Server ServerFs OpsFile Compound Transport.

Local Open Scope Z_scope.

(** ** The results of a COMPOUND *)

(** The number of an operation, as its results carry it. *)
Definition argop_num (op : NfsArgop4) : Z := resop_num (error_res_for_op op NFS_Ok).

Lemma error_res_num op status : resop_num (error_res_for_op op status) = argop_num op.
Proof. by destruct op. Qed.
Lemma error_res_status op status : res_status (error_res_for_op op status) = status.
Proof. by destruct op. Qed.

(** A COMPOUND's results answer its operations one by one, in order, up to and
    including the first that fails, whose status is the COMPOUND's. *)
Inductive compound_shape : list NfsArgop4 -> NfsStat4 -> list NfsResop4 -> Prop :=
| shape_end : compound_shape [] NFS_Ok []
| shape_ok op ops status r rs :
    resop_num r = argop_num op -> res_status r = NFS_Ok -> compound_shape ops status rs ->
    compound_shape (op :: ops) status (r :: rs)
| shape_stop op ops r :
    resop_num r = argop_num op -> res_status r <> NFS_Ok ->
    compound_shape (op :: ops) (res_status r) [r].

Lemma shape_error op ops status :
  status <> NFS_Ok -> compound_shape (op :: ops) status [error_res_for_op op status].
Proof.
  intros Hs. rewrite <- (error_res_status op status) at 1.
  apply shape_stop; [apply error_res_num|by rewrite error_res_status].
Qed.

(** What a COMPOUND's reply must be. *)
Definition compound_answer (args : Compound4Args) (res : Compound4Res) : Prop :=
  c4r_tag res = c4a_tag args /\
  ((~ 0 <= c4a_minorversion args <= 2 /\
    c4r_status res = NFS_MinorVersMismatch /\ c4r_resarray res = []) \/
   (0 <= c4a_minorversion args <= 2 /\
    compound_shape (c4a_argarray args) (c4r_status res) (c4r_resarray res))).

Lemma leading_sequence_Some args seq_args :
  leading_sequence args = Some seq_args ->
  0 <= c4a_minorversion args <= 2 /\ exists ops, c4a_argarray args = Arg_Sequence seq_args :: ops.
Proof.
  unfold leading_sequence. destruct (_ || _) eqn:Hv; [|done]. apply orb_true_iff in Hv.
  rewrite !Z.eqb_eq in Hv. destruct (c4a_argarray args) as [|op ops]; [done|]. simpl.
  destruct op; try done. intros [= <-]. split; [lia|by eexists].
Qed.

Lemma sequence_refused args seq_args status :
  leading_sequence args = Some seq_args -> status <> NFS_Ok ->
  compound_answer args (sequence_error_compound (c4a_tag args) status).
Proof.
  intros Hl Hs. destruct (leading_sequence_Some _ _ Hl) as (Hv & ops & Heq).
  split; [done|right]. split; [done|]. rewrite Heq. simpl.
  by apply (shape_error (Arg_Sequence seq_args)).
Qed.

(** ** Fingerprints *)

(** The length of a credential that the call header admits. *)
Definition cred_ok (cred : OpaqueAuth) : Prop := zlen (oa_body cred) <= 400.

Lemma decode_OpaqueAuth_cred src cred rest : decode_OpaqueAuth src = Ok (cred, rest) -> cred_ok cred.
Proof.
  unfold decode_OpaqueAuth. intros (flavor & s1 & _ & (body & s2 & Hb & [= <- _])%dec_bind_inv)%dec_bind_inv.
  unfold decode_opaque_max in Hb. apply dec_bind_inv in Hb as (data & s3 & _ & Hd).
  destruct (Z.ltb_spec 400 (zlen data)); [done|]. by injection Hd as <- _.
Qed.

Lemma decode_RpcCallHeader_cred src call rest :
  decode_RpcCallHeader src = Ok (call, rest) -> cred_ok (rc_cred call).
Proof.
  unfold decode_RpcCallHeader.
  intros (? & ? & _ & (? & ? & _ & Hx)%dec_bind_inv)%dec_bind_inv. destruct (negb _); [done|].
  do 4 apply dec_bind_inv in Hx as (? & ? & _ & Hx).
  apply dec_bind_inv in Hx as (cred & ? & Hc & Hx). apply dec_bind_inv in Hx as (? & ? & _ & [= <- _]).
  by eapply decode_OpaqueAuth_cred.
Qed.

Lemma app_length_inj {A} (l1 l2 k1 k2 : list A) :
  length l1 = length l2 -> l1 ++ k1 = l2 ++ k2 -> l1 = l2 /\ k1 = k2.
Proof. intros Hl. by apply app_inj_1. Qed.

Lemma length_be n v : length (be_bytes n v) = n.
Proof. pose proof (zlen_be n v) as Hz. unfold zlen in Hz. lia. Qed.

(** The fingerprint of a request determines its bytes. *)
Lemma replay_fingerprint_payload cred payload cred' payload' :
  cred_ok cred -> cred_ok cred' ->
  replay_fingerprint cred payload = replay_fingerprint cred' payload' -> payload = payload'.
Proof.
  unfold cred_ok, replay_fingerprint, encode_u32. intros Hc Hc'.
  intros [_ Heq]%app_length_inj; [|by rewrite !length_be].
  unfold encode_opaque, encode_u32 in Heq. rewrite <- !app_assoc in Heq.
  apply app_length_inj in Heq as [Hlen Heq]; [|by rewrite !length_be].
  assert (Hz : zlen (oa_body cred) = zlen (oa_body cred')).
  { pose proof (zlen_nonneg (oa_body cred)). pose proof (zlen_nonneg (oa_body cred')).
    apply (f_equal (fun b => decode_u32 (b ++ []))) in Hlen.
    fold (encode_u32 (u32_wrap (zlen (oa_body cred)))) in Hlen.
    fold (encode_u32 (u32_wrap (zlen (oa_body cred')))) in Hlen.
    rewrite !decode_u32_app, !u32_wrap_small in Hlen by (apply u32_wrap_range || unfold is_u32; lia).
    by injection Hlen. }
  apply app_length_inj in Heq as [_ Heq]; [|unfold zlen in Hz; lia].
  rewrite Hz in Heq. by apply app_length_inj in Heq as [_ Heq].
Qed.

(** A request, as far as its fingerprint knows it. *)
Definition fingerprint_of (args : Compound4Args) (fingerprint : bytes) : Prop :=
  exists cred payload rest, cred_ok cred /\ fingerprint = replay_fingerprint cred payload /\
    decode_Compound4Args payload = Ok (args, rest).

Lemma fingerprint_args args args' fp :
  fingerprint_of args fp -> fingerprint_of args' fp -> args = args'.
Proof.
  intros (c & p & r & Hc & -> & Hd) (c' & p' & r' & Hc' & Heq & Hd').
  apply replay_fingerprint_payload in Heq as <-; [|done|done]. congruence.
Qed.

(** ** Kept replies *)

Definition genuine_reply (fingerprint response : bytes) : Prop :=
  exists args res, fingerprint_of args fingerprint /\ response = encode_Compound4Res res /\
    compound_answer args res.

(** A kept reply answers any request with its fingerprint. *)
Lemma genuine_own args fp response :
  genuine_reply fp response -> fingerprint_of args fp ->
  exists res, response = encode_Compound4Res res /\ compound_answer args res.
Proof.
  intros (args' & res & Hf & -> & Ha) Hf'. rewrite (fingerprint_args _ _ _ Hf' Hf). eauto.
Qed.

(** ** Sizes that overflow a buffer *)

Definition size_fits (size : option Z) : bool :=
  match size with Some n => n <=? isize_max | None => true end.
Definition attrs_fit (attrs : result NfsStat4 SetAttrs) : bool :=
  match attrs with Ok attrs => size_fits (sa_size attrs) | Err _ => true end.
Definition open_fits (args : OpenArgs4) : bool :=
  match oa_openhow args with
  | Of_Create how => attrs_fit (open_create_attrs how)
  | Of_NoCreate => true
  end.

(** The operation asks for no size above [isize::MAX]. *)
Definition op_fits (op : NfsArgop4) : bool :=
  match op with
  | Arg_Setattr args => attrs_fit (decode_setattr (saa_obj_attributes args))
  | Arg_Open args => open_fits args
  | Arg_Write args => wra_offset args + zlen (wra_data args) <=? isize_max
  | _ => true
  end.

Definition oversized_message (data : bytes) : bool :=
  match decode_RpcCallHeader data with
  | Ok (_, src) => match decode_Compound4Args src with
                   | Ok (args, _) => existsb (fun op => negb (op_fits op)) (c4a_argarray args)
                   | Err _ => false
                   end
  | Err _ => false
  end.

Lemma vec_resize_fits size value : size <= isize_max -> vec_resize size value <> None.
Proof.
  intros Hs. unfold vec_resize. rewrite (proj2 (Z.ltb_ge isize_max size)) by lia.
  by rewrite andb_false_r.
Qed.

Lemma splice_fits value offset data :
  offset + zlen data <= isize_max -> splice_value value offset data <> None.
Proof.
  intros Hs. unfold splice_value. cbv zeta. pose proof (vec_resize_fits _ value Hs) as Hr.
  destruct (_ <? _); simpl; [|done]. by destruct (vec_resize _ _).
Qed.
