(* ===== verification/Tasks.v ===== *)
(** * The steps of every task

    [server_step] is what one atomic step of a task may do to the server: at most
    one step of the state manager, to the object registry nothing, or the
    registration of a handle that is not fenced, or a retirement, and to the
    clock nothing but reading it or letting it pass.  The lemmas of this file
    establish [safe] for the handlers, bottom up, with the hint database [task]:
    their steps are such, they do not halt (unless [may] holds, which the tasks
    need only for a size that overflows a buffer), and their results carry the
    number of the operation they answer.  [rpc_answered] and its companions are what
    [Interleaving] builds on. *)

From stdpp Require Import base gmap list sets strings numbers.
From Stdlib Require Import ZArith Lia.
From S2P Require Import Prelude Xdr Rpc Types Constants StateModel Operations Codec CodecProps FsApi Metadata.
From S2P Require Import DelegTable Clients Stateids Opens Locks Delegations Sequence Filehandles.
From S2P Require Import Invalidate AttrCodec StateMachine Sessions Server ServerFs Pool.
From S2P Require Import OpsDelegation OpsFile OpsAttrs OpsDirectory OpsLocking Compound Records Transport.
From S2P Require Import Replies.

Local Open Scope Z_scope.

Section steps.
Context {H B : Type} `{Countable H}.
Abbreviation W := (Server H B).
Context {may : Prop}.

Record same_registry (w w' : W) : Prop := {
  sr_h2o : sv_handle_to_object w' = sv_handle_to_object w;
  sr_o2h : sv_object_to_handle w' = sv_object_to_handle w;
  sr_next : sv_next_object_id w' = sv_next_object_id w;
  sr_retired : sv_retired w' = sv_retired w;
}.

Inductive registry_step (w w' : W) : Prop :=
| reg_same : same_registry w w' -> registry_step w w'
| reg_add handle :
    sv_handle_to_object w !! handle = None -> fence_matches (sv_retired w) handle = false ->
    same_registry
      (set_sv_objects (<[handle := sv_next_object_id w]> (sv_handle_to_object w))
         (<[sv_next_object_id w := handle]> (sv_object_to_handle w))
         (u64_wrap (sv_next_object_id w + 1)) w) w' ->
    registry_step w w'
| reg_retire {ho : HashOrder} retired :
    same_registry (retire_locked retired w).2 w' -> registry_step w w'.

(** The replies a task keeps for retries are genuine. *)
Definition state_step (s s' : StateManager) : Prop := s' = s \/ @step_with genuine_reply s s'.

Record clock_step (w w' : W) : Prop := {
  ck_env : sv_env w' = sv_env w;
  ck_ticks : (sv_ticks w <= sv_ticks w')%nat;
  ck_slept : sv_slept w <= sv_slept w';
}.

Record server_step (w w' : W) : Prop := {
  ss_state : state_step (sv_state w) (sv_state w');
  ss_registry : registry_step w w';
  ss_clock : clock_step w w';
}.

(** What the tasks rely on: the invariants of the tables they read, and a clock
    that does not go back. *)
Definition env_mono (e : Env) : Prop := forall n, ev_instants e n <= ev_instants e (S n).
Record server_ok (w : W) : Prop := {
  ok_sessions : sessions_hold genuine_reply (sm_inner (sv_state w));
  ok_locks : locks_wf (in_lock_files (sm_inner (sv_state w)));
  ok_delegations : deleg_wf (sm_inner (sv_state w));
  ok_env : env_mono (sv_env w);
}.

Abbreviation safe := (@safe W server_ok server_step instant may _).
Abbreviation task := (@safe_any W server_ok server_step instant may _).

Lemma env_mono_le e n m : env_mono e -> (n <= m)%nat -> ev_instants e n <= ev_instants e m.
Proof. intros He Hn. induction Hn as [|m Hn IH]; [lia|]. specialize (He m). lia. Qed.

Lemma clock_forward (w w' : W) : server_ok w -> server_step w w' -> instant w <= instant w'.
Proof.
  intros [_ _ _ He] [_ _ [Hc Ht Hs]]. unfold instant. rewrite Hc.
  pose proof (env_mono_le _ _ _ He Ht). lia.
Qed.

Lemma same_refl w : same_registry w w.
Proof. done. Qed.
Lemma clock_same w w' :
  sv_env w' = sv_env w -> sv_ticks w' = sv_ticks w -> sv_slept w' = sv_slept w -> clock_step w w'.
Proof. intros He Ht Hs. split; [done|by rewrite Ht|by rewrite Hs]. Qed.

Lemma server_step_refl w : server_step w w.
Proof. split; [by left|by apply reg_same|by apply clock_same]. Qed.

(** ** Primitive steps *)

Lemma task_state_read {A} (f : StateManager -> A) : task (state_read f).
Proof. apply safe_observe. intros w _. split; [apply server_step_refl|done]. Qed.

Lemma task_observe {A} (f : W -> A) : task (observe f).
Proof. apply safe_observe. intros w _. split; [apply server_step_refl|done]. Qed.

Lemma task_state_op {A} (f : StateManager -> A * StateManager) :
  (forall s, state_step s (f s).2) -> task (state_op f).
Proof.
  intros Hf. apply safe_atomic. intros w _. split; [|done]. specialize (Hf (sv_state w)).
  destruct (f (sv_state w)) as [a s']. simpl in *.
  split; [done|by apply reg_same|by apply clock_same].
Qed.
Lemma task_timed_op {A} (f : Z -> StateManager -> A * StateManager) :
  (forall now s, state_step s (f now s).2) -> task (timed_op f).
Proof.
  intros Hf. apply safe_atomic. intros w _. split; [|done]. specialize (Hf (instant w) (sv_state w)).
  destruct (f _ (sv_state w)) as [a s']. simpl in *.
  split; [done|by apply reg_same|split; simpl; [done|lia|lia]].
Qed.
Lemma task_dated_op {A} (f : Z * Z -> StateManager -> A * StateManager) :
  (forall now s, state_step s (f now s).2) -> task (dated_op f).
Proof.
  intros Hf. apply safe_atomic. intros w _. split; [|done]. specialize (Hf (wall w) (sv_state w)).
  destruct (f _ (sv_state w)) as [a s']. simpl in *.
  split; [done|by apply reg_same|split; simpl; [done|lia|lia]].
Qed.
Lemma task_dated_op2 {A} (f : Z * Z -> Z * Z -> StateManager -> A * StateManager) :
  (forall now now' s, state_step s (f now now' s).2) -> task (dated_op2 f).
Proof.
  intros Hf. apply safe_atomic. intros w _. split; [|done].
  specialize (Hf (wall w) (wall (tick w)) (sv_state w)).
  destruct (f _ _ (sv_state w)) as [a s']. simpl in *.
  split; [done|by apply reg_same|split; simpl; [done|lia|lia]].
Qed.
Lemma task_backend {A} (f : fs_op B A) : task (backend f).
Proof.
  apply safe_atomic. intros w _. split; [|done]. destruct (f (sv_fs w)). simpl.
  split; [by left|by apply reg_same|by apply clock_same].
Qed.
Lemma task_map_err {A E F} (g : E -> F) (m : proc W (result E A)) : task m -> task (map_err g m).
Proof. intros Hm. apply safe_any_bind; [done|]. intros a. by apply safe_ret. Qed.

(** A step outside the state manager and the registry. *)
Lemma task_frame {A} (f : W -> A * W) :
  (forall w, sv_state (f w).2 = sv_state w /\ same_registry w (f w).2 /\ clock_step w (f w).2) ->
  task (atomic f).
Proof.
  intros Hf. apply safe_atomic. intros w _. destruct (Hf w) as (Hs & Hr & Hc). split; [|done].
  split; [by left|by apply reg_same|done].
Qed.

Lemma task_ret {A} (a : A) : task (Ret a).
Proof. by apply safe_ret. Qed.
(** A computation that panics only where the task may. *)
Lemma task_or_panic {A} (o : option A) : (o = None -> may) -> task (or_panic o).
Proof. intros Ho w. destruct o; simpl; auto. Qed.
Lemma safe_ok_any {E A C} (m : proc W (result E A)) (f : A -> proc W (result E C)) :
  task m -> (forall a, task (f a)) -> task (bind_ok m f).
Proof. intros Hm Hf. by apply safe_bind_ok. Qed.
Lemma safe_or_any {E A C} (m : proc W (result E A)) (g : E -> C) (f : A -> proc W C) :
  task m -> (forall a, task (f a)) -> task (bind_or m g f).
Proof. intros Hm Hf. by apply safe_bind_or. Qed.
End steps.

Create HintDb task.
#[export] Hint Resolve task_ret task_state_read task_observe task_backend : task.

(** A result, with the operation number it must have. *)
Ltac ret := apply safe_ret; first [exact Logic.I | reflexivity | done | by repeat case_match].
(** One move of a proof about a task: a known one, a bind, or a decision. *)
Ltac task_step :=
  first
  [ match goal with |- Pool.safe ?I ?G ?c ?y ?m (fun _ => True) => change (safe_any I G c y m) end
  | solve [auto with task nocore]
  | apply safe_any_bind; [|intros ?]
  | apply safe_bind_ok; [|intros ?; exact Logic.I|intros ?]
  | apply safe_bind_or; [|intros ?; first [exact Logic.I|reflexivity]|intros ?]
  | apply task_map_err
  | apply safe_for_each; intros ? ?
  | match goal with |- Pool.safe _ _ _ _ (match ?x with _ => _ end) _ => destruct x end
  | match goal with |- safe_any _ _ _ _ (match ?x with _ => _ end) => destruct x end
  | ret
  | progress cbv zeta
  | progress intros ].
Ltac task_tac := repeat task_step.

Section state.
Context {H B : Type} `{Countable H} {ho : HashOrder} (srv : NfsServer H B).
Abbreviation W := (Server H B).
Context {may : Prop}.
Abbreviation task := (@safe_any W server_ok server_step instant may _).

Lemma task_reap : task reap.
Proof. apply task_timed_op. intros now s. right. apply step_reap. Qed.
#[local] Hint Resolve task_reap : task.

Lemma task_resolve_stateid c r cur m : task (st_resolve_stateid c r cur m).
Proof. unfold st_resolve_stateid. task_tac. Qed.
Lemma task_validate_open_reclaim c claim : task (st_validate_open_reclaim c claim).
Proof. unfold st_validate_open_reclaim. task_tac. Qed.
Lemma task_share_deny o a i : task (st_has_conflicting_share_deny o a i).
Proof. unfold st_has_conflicting_share_deny. task_tac. Qed.
Lemma task_io_lock o ow w off len i : task (st_has_conflicting_io_lock o ow w off len i).
Proof. unfold st_has_conflicting_io_lock. task_tac. Qed.
Lemma task_find_lock_conflict o ow t off len i : task (st_find_lock_conflict o ow t off len i).
Proof. unfold st_find_lock_conflict. task_tac. Qed.
Lemma task_test_stateids l : task (st_test_stateids l).
Proof. unfold st_test_stateids. task_tac. Qed.

(** A reap, then one rule of the step relation. *)
Ltac reap_then :=
  apply safe_any_bind; [apply task_reap|intros _];
  first [apply task_state_op | apply task_timed_op]; intros; right; by constructor.

Lemma task_confirm sid : task (st_confirm_open_state sid).
Proof. unfold st_confirm_open_state. reap_then. Qed.
Lemma task_close sid : task (st_close_state sid).
Proof. unfold st_close_state. reap_then. Qed.
Lemma task_free sid : task (st_free_stateid sid).
Proof. unfold st_free_stateid. reap_then. Qed.
Lemma task_return sid c : task (st_return_delegation_state sid c).
Proof. unfold st_return_delegation_state. reap_then. Qed.
Lemma task_purge c : task (st_purge_client_delegations c).
Proof.
  unfold st_purge_client_delegations. apply safe_any_bind; [apply task_reap|intros _].
  apply task_state_op. intros s. right. apply (step_purge c).
Qed.
Lemma task_recall o e : task (st_begin_directory_recall_excluding o e).
Proof. unfold st_begin_directory_recall_excluding. reap_then. Qed.
Lemma task_revoke_recallable sid : task (st_revoke_recallable_delegation sid).
Proof. unfold st_revoke_recallable_delegation. reap_then. Qed.
Lemma task_grant o c sid mc mt : is_u64 c -> task (st_grant_directory_delegation o c sid mc mt).
Proof. intros Hc. unfold st_grant_directory_delegation. reap_then. Qed.

(** The share modes that reach the tables. *)
Lemma share_access_range acc :
  Z.land acc OPEN4_SHARE_ACCESS_BOTH <> 0 -> 1 <= Z.land acc OPEN4_SHARE_ACCESS_BOTH <= 3.
Proof.
  intros Hne. change OPEN4_SHARE_ACCESS_BOTH with (Z.ones 2) in *. rewrite Z.land_ones in * by lia.
  pose proof (Z.mod_pos_bound acc (2 ^ 2)). lia.
Qed.

Lemma share_deny_range deny :
  is_u32 deny -> Z.land deny (u32_not OPEN4_SHARE_DENY_BOTH) = 0 -> mode_ok deny.
Proof.
  intros Hu Hz. unfold mode_ok. unfold is_u32 in Hu.
  assert (Hd : deny = Z.land deny (Z.ones 32)) by (rewrite Z.land_ones by lia; symmetry; apply Z.mod_small; lia).
  assert (Hs : deny = Z.land deny (Z.ones 2)).
  { rewrite Hd at 1. change (Z.ones 32) with (Z.lor (u32_not OPEN4_SHARE_DENY_BOTH) (Z.ones 2)).
    by rewrite Z.land_lor_distr_r, Hz, Z.lor_0_l. }
  rewrite Hs, Z.land_ones by lia. pose proof (Z.mod_pos_bound deny (2 ^ 2)). lia.
Qed.

Lemma task_open o owner acc deny :
  is_u32 deny -> is_u64 (so_clientid owner) -> task (st_create_open_state o owner acc deny).
Proof.
  intros Hd Hu. unfold st_create_open_state. apply safe_any_bind; [apply task_reap|intros _]. cbv zeta.
  destruct (_ || _) eqn:Hb; [ret|]. apply orb_false_iff in Hb as [Ha Hn].
  apply Z.eqb_neq in Ha. apply negb_false_iff, Z.eqb_eq in Hn.
  apply task_state_op. intros s. right. constructor; [by apply share_access_range|by apply share_deny_range|done].
Qed.

Lemma task_downgrade sid acc deny : task (st_open_downgrade sid acc deny).
Proof.
  unfold st_open_downgrade. apply safe_any_bind; [apply task_reap|intros _]. cbv zeta.
  destruct (negb _) eqn:Ha; [ret|]. destruct (negb _) eqn:Hd in |- *; [ret|].
  apply negb_false_iff in Ha, Hd. rewrite !orb_true_iff, !Z.eqb_eq in Ha, Hd.
  unfold OPEN4_SHARE_ACCESS_READ, OPEN4_SHARE_ACCESS_WRITE, OPEN4_SHARE_ACCESS_BOTH in Ha.
  unfold OPEN4_SHARE_DENY_NONE, OPEN4_SHARE_DENY_READ, OPEN4_SHARE_DENY_WRITE, OPEN4_SHARE_DENY_BOTH in Hd.
  apply task_state_op. intros s. right. constructor; [lia|unfold mode_ok; lia].
Qed.

Lemma task_lock_new osid owner o t off len :
  is_u64 off -> is_u64 len -> is_u64 (so_clientid owner) ->
  task (st_create_lock_state osid owner o t off len).
Proof.
  intros Ho Hl Hu. unfold st_create_lock_state. apply safe_any_bind; [apply task_reap|intros _].
  destruct (validate_lock_bounds off len) as [[]|e] eqn:Hv; [|ret].
  apply validate_lock_bounds_ok in Hv; [|done..].
  apply task_state_op. intros s. right. by constructor.
Qed.

(** The merge of a lock range into a well-formed table does not panic. *)
Lemma update_lock_total sid t off len s :
  locks_wf (in_lock_files (sm_inner s)) -> range_ok (mkLockRange t off len) ->
  exists r s', update_lock_state_guarded sid t off len s = Some (r, s').
Proof.
  intros Hwf Hr. unfold update_lock_state_guarded.
  destruct (in_lock_files (sm_inner s) !! other sid) as [st|] eqn:Hk; [|by eexists _, _].
  destruct (validate_stateid_seq _ _); [|by eexists _, _]. destruct (Hwf _ st Hk) as [[Hok _] _].
  destruct (replace_lock_range_spec (ls_ranges st) _ Hok Hr) as (out & -> & _). by eexists _, _.
Qed.

Lemma task_lock_more sid t off len :
  is_u64 off -> is_u64 len -> task (st_update_lock_state sid t off len).
Proof.
  intros Ho Hl. unfold st_update_lock_state. apply safe_any_bind; [apply task_reap|intros _].
  destruct (validate_lock_bounds off len) as [[]|e] eqn:Hv; [|ret].
  apply validate_lock_bounds_ok in Hv; [|done..].
  apply (safe_bind _ _ _ _ _ _ (fun r => r <> None)); [|by intros [r|] Hr; [ret|]].
  apply safe_atomic. intros w [_ Hwf _ _].
  destruct (update_lock_total sid t off len (sv_state w) Hwf Hv) as (r & s' & E). rewrite E. simpl.
  split; [|done]. split; [right; by apply (step_lock_more sid t off len (sv_state w) r)| |];
    [by apply reg_same|by apply clock_same].
Qed.

Lemma task_unlock sid off len : is_u64 off -> is_u64 len -> task (st_unlock_state sid off len).
Proof.
  intros Ho Hl. unfold st_unlock_state. apply safe_any_bind; [apply task_reap|intros _].
  destruct (validate_lock_bounds off len) as [[]|e] eqn:Hv; [|ret].
  apply validate_lock_bounds_ok in Hv; [|done..].
  apply task_state_op. intros s. right. by constructor.
Qed.

(** ** The registry and filehandles *)

Lemma task_register handle : task (register_handle srv handle).
Proof.
  unfold register_handle. apply safe_any_bind; [apply task_observe|intros [id|]]; [ret|].
  apply safe_atomic. intros w _. split; [|done]. unfold register_locked.
  destruct (sv_handle_to_object w !! handle) as [id|] eqn:Hh; [apply server_step_refl|].
  destruct (fence_matches _ _) eqn:Hf; [apply server_step_refl|]. cbv zeta.
  destruct (persistent_encoding _ _ _) as [e|]; simpl.
  - split; [right; apply step_record_persistent|by apply (reg_add _ _ handle)|by apply clock_same].
  - split; [by left|by apply (reg_add _ _ handle)|by apply clock_same].
Qed.

Lemma task_object_to_fh o : task (st_object_to_fh (H := H) (B := B) o).
Proof. apply task_state_op. intros s. right. apply step_object_to_fh. Qed.

Lemma task_decode_persistent fh : task (decode_persistent_fh srv fh).
Proof.
  unfold decode_persistent_fh. destruct (persistent_fh_body fh) as [body|]; [|ret].
  destruct (fs_persistent_handles _) as [codec|]; [|ret].
  apply safe_ok_any; [apply task_map_err, task_backend|intros h].
  apply safe_ok_any; [apply task_map_err, task_register|intros id].
  apply safe_any_bind; [apply task_object_to_fh|intros]. ret.
Qed.

Lemma task_resolve_object fh : task (resolve_object srv fh).
Proof.
  unfold resolve_object. destruct fh as [fh|]; [|ret].
  apply safe_any_bind; [apply task_state_read|intros [o|]]; [ret|].
  apply safe_ok_any; [apply task_decode_persistent|]. intros. ret.
Qed.

Lemma task_root : task (root_object srv).
Proof.
  unfold root_object. apply safe_any_bind; [apply task_observe|intros h].
  unfold object_from_handle. apply safe_ok_any; [apply task_register|]. intros. ret.
Qed.
Lemma task_resolve_backend id : task (resolve_backend_handle (H := H) (B := B) id).
Proof. apply task_observe. Qed.
End state.

#[export] Hint Resolve task_reap task_resolve_stateid task_validate_open_reclaim task_share_deny
  task_io_lock task_find_lock_conflict task_test_stateids task_confirm task_close task_free
  task_return task_purge task_recall task_revoke_recallable task_grant task_open task_downgrade
  task_lock_new task_lock_more task_unlock task_register task_object_to_fh task_resolve_object
  task_root task_resolve_backend : task.

(** ** The backend wrappers *)

Section serverfs.
Context {H B : Type} `{Countable H} {ho : HashOrder} (srv : NfsServer H B).
Abbreviation W := (Server H B).
Context {may : Prop}.
Abbreviation task := (@safe_any W server_ok server_step instant may _).

Lemma task_capabilities : task (capabilities srv).
Proof. apply task_observe. Qed.
Lemma task_limits : task (limits srv).
Proof. apply task_observe. Qed.
Lemma task_statfs ctx id : task (statfs srv ctx id).
Proof. unfold statfs. task_tac. Qed.
Lemma task_getattr ctx id : task (getattr srv ctx id).
Proof. unfold getattr. task_tac. Qed.
Lemma task_access_for ctx id r : task (access_for srv ctx id r).
Proof. unfold access_for. task_tac. Qed.
Lemma task_lookup ctx id n : task (lookup srv ctx id n).
Proof. unfold lookup. task_tac. Qed.
Lemma task_lookup_parent ctx id : task (lookup_parent srv ctx id).
Proof. unfold lookup_parent. task_tac. Qed.
Lemma task_read ctx id o c : task (read srv ctx id o c).
Proof. unfold read. task_tac. Qed.
Lemma task_write ctx id o d r : task (write srv ctx id o d r).
Proof. unfold write. task_tac. Qed.
Lemma task_create_kind k ctx id n a : task (create_kind srv k ctx id n a).
Proof. unfold create_kind. task_tac. Qed.
Lemma task_create_file ctx id n a : task (create_file srv ctx id n a).
Proof. apply task_create_kind. Qed.
Lemma task_create_dir ctx id n a : task (create_dir srv ctx id n a).
Proof. apply task_create_kind. Qed.
Lemma task_remove ctx id n : task (remove srv ctx id n).
Proof. unfold remove. task_tac. Qed.
Lemma task_rename ctx d1 n1 d2 n2 : task (rename srv ctx d1 n1 d2 n2).
Proof. unfold rename. task_tac. Qed.
Lemma task_readdir ctx id c m a : task (readdir srv ctx id c m a).
Proof. unfold readdir, register_entry. task_tac. Qed.
Lemma task_setattr_real ctx id a : task (setattr_real srv ctx id a).
Proof. unfold setattr_real. task_tac. Qed.
#[local] Hint Resolve task_capabilities task_limits task_statfs task_getattr task_access_for : task.
Lemma task_statfs_for_object ctx o : task (statfs_for_object srv ctx o).
Proof. unfold statfs_for_object. task_tac. Qed.
Lemma task_kind_of ctx id : task (kind_of srv ctx id).
Proof. unfold kind_of. task_tac. Qed.
Lemma task_require_access ctx id n : task (require_access srv ctx id n).
Proof. unfold require_access. task_tac. Qed.
Lemma task_validate_name n : task (validate_component_name srv n).
Proof. unfold validate_component_name. task_tac. Qed.
#[local] Hint Resolve task_statfs_for_object : task.
Lemma task_encode_fattr ctx a r fh mv : task (encode_fattr srv ctx a r fh mv).
Proof. unfold encode_fattr. task_tac. Qed.
Lemma task_xattr_count ctx p : task (xattr_count srv ctx p).
Proof. unfold xattr_count. task_tac. Qed.

Lemma task_set_named_attr_count o ft n : task (st_set_named_attr_count (H := H) (B := B) o ft n).
Proof. apply task_dated_op. intros now s. right. apply step_named_attr_count. Qed.
Lemma task_ensure_meta o ft : task (st_ensure_meta (H := H) (B := B) o ft).
Proof. apply task_dated_op. intros now s. right. apply step_ensure_meta. Qed.
Lemma task_touch_data o ft : task (st_touch_data (H := H) (B := B) o ft).
Proof. apply task_dated_op2. intros now now' s. right. apply step_touch_data. Qed.
Lemma task_touch_metadata o ft : task (st_touch_metadata (H := H) (B := B) o ft).
Proof. apply task_dated_op2. intros now now' s. right. apply step_touch_metadata. Qed.
Lemma task_apply_setattr o ft a : task (st_apply_setattr (H := H) (B := B) o ft a).
Proof. apply task_dated_op2. intros now now' s. right. apply step_setattr. Qed.
#[local] Hint Resolve task_xattr_count task_set_named_attr_count task_ensure_meta : task.

Lemma task_named_attr_dir_count ctx o p : task (named_attr_dir_count srv ctx o p).
Proof. unfold named_attr_dir_count. task_tac. Qed.
#[local] Hint Resolve task_named_attr_dir_count : task.
Lemma task_build_attr ctx o : task (build_attr srv ctx o).
Proof. unfold build_attr. task_tac. Qed.
Lemma task_xattr_read_slice ctx p n o c : task (xattr_read_slice srv ctx p n o c).
Proof. unfold xattr_read_slice. task_tac. Qed.
Lemma task_xattr_resize ctx p n s : s <= isize_max \/ may -> task (xattr_resize srv ctx p n s).
Proof.
  intros Hs. unfold xattr_resize. do 3 (apply safe_ok_any; [task_tac|intros ?]).
  apply safe_any_bind; [|task_tac]. apply task_or_panic. intros Hn.
  destruct Hs as [Hs|Hm]; [|done]. by destruct (vec_resize_fits _ _ Hs Hn).
Qed.
Lemma task_xattr_write ctx p n o d :
  o + zlen d <= isize_max \/ may -> task (xattr_write srv ctx p n o d).
Proof.
  intros Hs. unfold xattr_write. do 3 (apply safe_ok_any; [task_tac|intros ?]).
  destruct (_ <? _); [ret|]. apply safe_any_bind; [|task_tac]. apply task_or_panic. intros Hn.
  destruct Hs as [Hs|Hm]; [|done]. by destruct (splice_fits _ _ _ Hs Hn).
Qed.
Lemma task_refresh ctx p : task (refresh_xattr_summary srv ctx p).
Proof. unfold refresh_xattr_summary. task_tac. Qed.
Lemma task_parent_change ctx p : task (parent_change_after_xattr_mutation srv ctx p).
Proof. unfold parent_change_after_xattr_mutation. task_tac. Qed.
#[local] Hint Resolve task_build_attr : task.
Lemma task_mutation_change_info ctx o b : task (mutation_change_info srv ctx o b).
Proof. unfold mutation_change_info. task_tac. Qed.
End serverfs.

#[export] Hint Resolve task_capabilities task_limits task_statfs task_getattr task_access_for
  task_lookup task_lookup_parent task_read task_write task_create_file task_create_dir task_remove
  task_rename task_readdir task_setattr_real task_statfs_for_object task_kind_of
  task_require_access task_validate_name task_encode_fattr task_xattr_count
  task_set_named_attr_count task_ensure_meta task_touch_data task_touch_metadata
  task_apply_setattr task_build_attr task_xattr_read_slice task_xattr_resize task_xattr_write
  task_refresh task_parent_change task_mutation_change_info : task.

(** ** Delegations and retirement *)

Section delegation.
Context {H B : Type} `{Countable H} {ho : HashOrder} (srv : NfsServer H B).
Abbreviation W := (Server H B).
Context {may : Prop}.
Abbreviation task := (@safe_any W server_ok server_step instant may _).

Lemma task_any_connection ids : task (any_connection ids).
Proof. induction ids as [|c ids IH]; cbn [any_connection]; task_tac. Qed.
#[local] Hint Resolve task_any_connection : task.
Lemma task_has_callback_path c : task (has_callback_path c).
Proof. unfold has_callback_path. task_tac. Qed.
Lemma task_first_target c ids : task (first_callback_target c ids).
Proof.
  induction ids as [|x ids IH]; cbn [first_callback_target]; [ret|].
  apply safe_any_bind; [apply task_observe|intros [|]]; [|done].
  apply safe_any_bind; [|intros []; [ret|done]].
  apply task_state_op. intros s. right. apply step_callback.
Qed.
#[local] Hint Resolve task_first_target : task.
Lemma task_send_callback r : task (send_callback r).
Proof. apply task_frame. intros w. simpl. split_and!; [done|done|split; simpl; [done|lia|lia]]. Qed.
#[local] Hint Resolve task_send_callback : task.
Lemma task_send_recall r fh : task (send_directory_recall srv r fh).
Proof. unfold send_directory_recall, next_callback_target. task_tac. Qed.
#[local] Hint Resolve task_send_recall : task.

(** ** Waiting for recalled delegations ends *)

Abbreviation good := (@good W server_ok server_step instant may _).

(** Reading does not turn the clock back. *)
Lemma good_outstanding l acc c w :
  c <= instant w -> good (for_each l still_outstanding acc) (fun _ w' => c <= instant w') w.
Proof.
  revert acc w. induction l as [|sid l IH]; intros acc w Hc; simpl; [done|].
  intros w1 _ Hw1. split; [apply server_step_refl|]. apply IH. lia.
Qed.

(** The clock read, and at least that much shown by the clock afterwards. *)
Lemma good_now c w :
  c <= instant w -> good now_instant (fun now w' => c <= now /\ now <= instant w') w.
Proof.
  intros Hc. apply good_atomic. intros w1 Hok Hw1. simpl.
  assert (Hs : server_step w1 (tick w1)).
  { split; [by left|by apply reg_same|split; simpl; [done|lia|lia]]. }
  split; [done|]. split; [lia|]. by apply clock_forward.
Qed.

Lemma good_sleep d c w :
  c <= instant w -> 0 <= d -> good (sleep d) (fun _ w' => c + d <= instant w') w.
Proof.
  intros Hc Hd. apply good_atomic. intros w1 Hok Hw1. simpl. split.
  - split; [by left|by apply reg_same|split; simpl; [done|lia|lia]].
  - unfold instant in *. simpl. lia.
Qed.

(** Each turn of the loop brings the deadline closer by the poll interval, or
    reaches it. *)
Lemma good_wait_loop fuel deadline l w :
  (1 <= fuel)%nat -> deadline - instant w <= (Z.of_nat fuel - 1) * poll_interval ->
  good (wait_loop fuel deadline l) (fun _ _ => True) w.
Proof.
  revert l w. induction fuel as [|fuel IH]; intros l w Hf Hrem; [lia|]. cbn [wait_loop].
  set (rem := (Z.of_nat (S fuel) - 1) * poll_interval) in *.
  eapply good_bind; [by apply (good_outstanding l [] (instant w))|]. cbv beta. intros left w1 Hw1.
  destruct left as [|x left]; [done|].
  eapply good_bind; [by apply (good_now (instant w))|]. cbv beta. intros now w2 [Hn Hw2].
  destruct (Z.leb_spec deadline now).
  { eapply good_bind with (P := fun _ _ => True); [|by intros].
    apply (safe_for_each server_ok server_step instant may). unfold revoke_late. task_tac. }
  eapply good_bind; [by apply (good_now now)|]. cbv beta. intros now' w3 [Hn' Hw3].
  eapply good_bind; [apply (good_sleep _ now'); [done|unfold poll_interval; lia]|].
  cbv beta. intros _ w4 Hw4. apply IH.
  - unfold rem, poll_interval in Hrem. lia.
  - unfold rem, poll_interval in *. lia.
Qed.

Lemma task_wait recalls :
  0 <= dc_recall_timeout (ns_delegation_config srv) -> task (wait_for_recalled_delegations srv recalls).
Proof.
  intros Ht w. unfold wait_for_recalled_delegations.
  eapply good_bind; [by apply (good_now (instant w))|]. cbv beta. intros start w1 [_ Hw1].
  set (t := dc_recall_timeout (ns_delegation_config srv)) in *.
  apply good_wait_loop; unfold wait_fuel; [lia|].
  pose proof (Z.div_mod t poll_interval). pose proof (Z.mod_pos_bound t poll_interval).
  assert (0 <= t / poll_interval) by (apply Z.div_pos; unfold poll_interval; lia).
  unfold poll_interval in *. lia.
Qed.

Context (Htimeout : 0 <= dc_recall_timeout (ns_delegation_config srv)).

Lemma task_recall_directory_delegations o e : task (recall_directory_delegations srv o e).
Proof.
  unfold recall_directory_delegations, recall_and_revoke. pose proof task_wait. task_tac.
Qed.
#[local] Hint Resolve task_recall_directory_delegations : task.

Lemma task_recall_directory h : task (recall_directory srv h).
Proof. unfold recall_directory. task_tac. Qed.
Lemma task_recall_write scope : task (recall_write_delegations (B := B) scope).
Proof. unfold recall_write_delegations. task_tac. Qed.

Lemma task_mark_retired ids : task (state_op (H := H) (B := B) (fun s => (tt, mark_retired ids s))).
Proof. apply task_state_op. intros s. right. apply step_mark_retired. Qed.
#[local] Hint Resolve task_mark_retired : task.
Lemma task_invalidate ids : task (st_invalidate_objects (H := H) (B := B) ids).
Proof.
  unfold st_invalidate_objects. case_bool_decide; [ret|].
  apply safe_any_bind; [apply task_mark_retired|intros _].
  apply safe_any_bind; [|intros n]; apply task_state_op; intros s; right.
  - apply step_sweep_filehandles.
  - pose proof (step_sweep_state (P := genuine_reply) ids s) as Hs. by destruct (sweep_state ids (sm_inner s)).
Qed.
#[local] Hint Resolve task_invalidate : task.
Lemma task_retire retired : task (retire_handles srv retired).
Proof.
  unfold retire_handles, recall_retired. apply safe_any_bind; [|task_tac].
  apply safe_atomic. intros w _. split; [|done].
  split; [by left|by apply (reg_retire _ _ retired)|by apply clock_same].
Qed.

End delegation.

#[export] Hint Resolve task_recall_directory_delegations task_has_callback_path : task.

Section termination.
Context {H B : Type} `{Countable H} {ho : HashOrder} (srv : NfsServer H B).
Context (Htimeout : 0 <= dc_recall_timeout (ns_delegation_config srv)).

(** C33. A recall ends: from whatever state it starts and whatever happens between
    its steps (delegations returned or not, callbacks answered or not, other
    requests), as long as the clock does not go back, a recall of a directory's
    delegations never hangs in its polling: it has a next step, of which it has
    only finitely many, or it has returned.  [wait_fuel] polls of 10 ms are
    enough for any non-negative recall timeout. *)
Theorem recall_terminates object excluded w m w' :
  unfolds server_ok instant (recall_directory_delegations srv object excluded) w m w' ->
  well_founded (@substep (Server H B) (result NfsStat4 unit)) /\
  ((exists upd k, m = Step upd k) \/ exists r, m = Ret r).
Proof.
  intros Hu. split; [apply substep_wf|].
  pose proof (good_unfolds server_ok server_step instant False _ _ _ _ _
    (task_recall_directory_delegations (may := False) srv Htimeout object excluded w) Hu) as Hg.
  destruct m as [r| |upd k]; [right; by eexists|done|left; by eexists _, _].
Qed.
End termination.

(** ** The handlers *)

Section handlers.
Context {H B : Type} `{Countable H} {ho : HashOrder} (srv : NfsServer H B).
Abbreviation W := (Server H B).
Context {may : Prop}.
Abbreviation task := (@safe_any W server_ok server_step instant may _).
Context (Htimeout : 0 <= dc_recall_timeout (ns_delegation_config srv)).

(** A result that answers operation [n], alone or with the filehandle left. *)
Definition replies (n : Z) (m : proc W NfsResop4) : Prop :=
  safe server_ok server_step instant may m (fun r => resop_num r = n).
Definition moves (n : Z) (m : proc W (NfsResop4 * option bytes)) : Prop :=
  safe server_ok server_step instant may m (fun r => resop_num r.1 = n).


Lemma task_validate_io o sid io : task (validate_io_stateid (H := H) (B := B) o sid io).
Proof. unfold validate_io_stateid, resolve_io_stateid. task_tac. Qed.
Lemma task_notify o hook : task (notify (H := H) (B := B) o hook).
Proof. unfold notify. task_tac. Qed.
Lemma task_named_attr_gate ctx o n : task (named_attr_gate srv ctx o n).
Proof. unfold named_attr_gate. task_tac. Qed.
Lemma task_write_gate ctx o : task (write_gate srv ctx o).
Proof. unfold write_gate. task_tac. Qed.
#[local] Hint Resolve task_validate_io task_notify task_named_attr_gate task_write_gate : task.
Lemma task_op_close ctx a fh sid c : replies OP_CLOSE (op_close srv ctx a fh sid c).
Proof. unfold replies, moves, op_close. task_tac. Qed.
Lemma task_op_commit ctx a fh : replies OP_COMMIT (op_commit srv ctx a fh).
Proof. unfold replies, moves, op_commit. task_tac. Qed.
Lemma task_open_by_name ctx a d n b c : task (open_by_name srv ctx a d n b c).
Proof. unfold open_by_name. task_tac. Qed.
Lemma task_open_named_attr ctx a p n b c :
  open_fits a = true \/ may -> task (open_named_attr srv ctx a p n b c).
Proof.
  intros Hf. unfold open_named_attr. destruct (fs_xattrs _) as [named|]; [|ret].
  apply safe_ok_any; [task_tac|intros h]. apply safe_any_bind; [task_tac|intros found]. cbv zeta.
  destruct found as [v|[]], (oa_openhow a) as [|how] eqn:Eo; try ret.
  apply safe_ok_any; [task_tac|intros before].
  destruct (open_create_attrs how) as [attrs|e] eqn:Ea; [|ret].
  cbn [bind_ok proc_bind]. apply safe_ok_any; [task_tac|intros _].
  apply safe_any_bind; [|task_tac]. apply task_or_panic. intros Hn.
  destruct Hf as [Hf|Hf]; [|done]. unfold open_fits in Hf. rewrite Eo, Ea in Hf. simpl in Hf.
  destruct (sa_size attrs) as [n'|]; [|done]. exfalso. by apply (vec_resize_fits n' []); [simpl in Hf; lia|].
Qed.
#[local] Hint Resolve task_open_by_name task_open_named_attr : task.
Lemma task_open_object ctx a o b c : open_fits a = true \/ may -> task (open_object srv ctx a o b c).
Proof. intros Hf. unfold open_object. task_tac. Qed.
Lemma task_open_finish ctx a o b op fh mv :
  is_u32 (oa_share_deny a) -> is_u64 (so_clientid (oa_owner a)) ->
  moves OP_OPEN (open_finish srv ctx a o b op fh mv).
Proof. intros Hd Hu. unfold moves, open_finish. task_tac. Qed.
#[local] Hint Resolve task_open_object : task.
Lemma task_op_open ctx a fh mv c :
  is_u32 (oa_share_deny a) -> is_u64 (so_clientid (oa_owner a)) -> open_fits a = true \/ may ->
  moves OP_OPEN (op_open srv ctx a fh mv c).
Proof. intros Hd Hu Hf. unfold moves, op_open, open_xattr_gate, open_gate.
  task_tac; by apply task_open_finish.
Qed.
Lemma task_op_open_downgrade a sid c : replies OP_OPEN_DOWNGRADE (op_open_downgrade (H := H) (B := B) a sid c).
Proof. unfold replies, moves, op_open_downgrade. task_tac. Qed.
Lemma task_op_read ctx a fh sid c : replies OP_READ (op_read srv ctx a fh sid c).
Proof. unfold replies, moves, op_read, read_data. task_tac. Qed.
Lemma task_op_readlink ctx fh : replies OP_READLINK (op_readlink srv ctx fh).
Proof. unfold replies, moves, op_readlink. task_tac. Qed.
Lemma task_op_write ctx a fh sid c :
  wra_offset a + zlen (wra_data a) <= isize_max \/ may ->
  replies OP_WRITE (op_write srv ctx a fh sid c).
Proof. intros Hf. unfold replies, moves, op_write, write_file_type, write_data. task_tac. Qed.

Lemma task_op_access ctx a fh : replies OP_ACCESS (op_access srv ctx a fh).
Proof. unfold replies, moves, op_access, granted_access. task_tac. Qed.
Lemma task_op_getattr ctx a fh mv : replies OP_GETATTR (op_getattr srv ctx a fh mv).
Proof. unfold replies, moves, op_getattr. task_tac. Qed.
Lemma task_setattr_apply ctx o attrs :
  size_fits (sa_size attrs) = true \/ may -> task (setattr_apply srv ctx o attrs).
Proof.
  intros Hf. unfold setattr_apply. destruct o; [task_tac|task_tac|].
  apply safe_ok_any; [|task_tac]. destruct (sa_size attrs) as [n|] eqn:Es; [|ret].
  apply task_map_err, task_xattr_resize. destruct Hf as [Hf|Hf]; [left|by right].
  simpl in Hf. lia.
Qed.
#[local] Hint Resolve task_setattr_apply : task.
Lemma task_op_setattr ctx a fh sid c :
  attrs_fit (decode_setattr (saa_obj_attributes a)) = true \/ may ->
  replies OP_SETATTR (op_setattr srv ctx a fh sid c).
Proof.
  intros Hf. unfold replies, moves, op_setattr, setattr_current, setattr_directory, setattr_range.
  apply safe_bind_or; [task_tac|done|intros [fh' o]].
  destruct (decode_setattr (saa_obj_attributes a)) as [attrs|e]; [simpl in Hf|ret].
  cbn [bind_or proc_bind]. task_tac.
Qed.
Lemma task_op_verify ctx f fh (b : bool) mv :
  replies (if b then OP_NVERIFY else OP_VERIFY) (op_verify srv ctx f fh b mv).
Proof. unfold replies, op_verify. destruct b; task_tac. Qed.
Lemma task_resolve_xattr ctx fh a : task (resolve_xattr_target srv ctx fh a).
Proof. unfold resolve_xattr_target. task_tac. Qed.
Lemma task_with_xattrs {A} id (call : Xattrs H B -> H -> fs_op B A) : task (with_xattrs srv id call).
Proof. unfold with_xattrs. task_tac. Qed.
#[local] Hint Resolve task_resolve_xattr task_with_xattrs : task.
Lemma task_op_getxattr ctx a fh : replies OP_GETXATTR (op_getxattr srv ctx a fh).
Proof. unfold replies, moves, op_getxattr, validate_xattr_key, get_xattr_value. task_tac. Qed.
Lemma task_op_setxattr ctx a fh : replies OP_SETXATTR (op_setxattr srv ctx a fh).
Proof. unfold replies, moves, op_setxattr, validate_xattr_key, set_xattr_value. task_tac. Qed.
Lemma task_op_listxattrs ctx a fh : replies OP_LISTXATTRS (op_listxattrs srv ctx a fh).
Proof. unfold replies, moves, op_listxattrs, list_xattr_keys. task_tac. Qed.
Lemma task_op_removexattr ctx a fh : replies OP_REMOVEXATTR (op_removexattr srv ctx a fh).
Proof. unfold replies, moves, op_removexattr, validate_xattr_key, remove_xattr_value. task_tac. Qed.
Lemma task_op_reclaim a fh c : replies OP_RECLAIM_COMPLETE (op_reclaim_complete srv a fh c).
Proof.
  assert (Hr : forall id fs, task (timed_op (reclaim_complete id fs))).
  { intros id fs. apply task_timed_op. intros now s. right. apply step_reclaim. }
  unfold replies, moves, op_reclaim_complete. task_tac.
Qed.

Lemma task_create_object ctx d a s : task (create_object srv ctx d a s).
Proof. unfold create_object. task_tac. Qed.
#[local] Hint Resolve task_create_object : task.
Lemma task_op_create ctx a fh c : moves OP_CREATE (op_create srv ctx a fh c).
Proof. unfold moves, move_to, op_create, require_directory. task_tac. Qed.
Lemma task_op_link ctx a fh sfh c : replies OP_LINK (op_link srv ctx a fh sfh c).
Proof. unfold replies, moves, op_link, require_directory. task_tac. Qed.
Lemma task_op_lookup ctx a fh : moves OP_LOOKUP (op_lookup srv ctx a fh).
Proof. unfold moves, move_to, op_lookup, lookup_child. task_tac. Qed.
Lemma task_op_lookupp ctx fh : moves OP_LOOKUPP (op_lookupp srv ctx fh).
Proof. unfold moves, move_to, op_lookupp, parent_object. task_tac. Qed.
Lemma task_op_secinfo_no_name ctx s fh : moves OP_SECINFO_NO_NAME (op_secinfo_no_name srv ctx s fh).
Proof. unfold moves, move_to, op_secinfo_no_name, secinfo_style. task_tac. Qed.
Lemma task_op_openattr fh : moves OP_OPENATTR (op_openattr srv fh).
Proof. unfold moves, move_to, op_openattr. task_tac. Qed.
Lemma task_readdir_entries ctx a o : task (readdir_entries srv ctx a o).
Proof. unfold readdir_entries. task_tac. Qed.
Lemma task_readdir_entry ctx a l c mv r : task (readdir_entry srv ctx a l c mv r).
Proof. unfold readdir_entry. task_tac. Qed.
#[local] Hint Resolve task_readdir_entries task_readdir_entry : task.
Lemma task_readdir_loop ctx a l c mv rs acc : task (readdir_loop srv ctx a l c mv rs acc).
Proof. revert acc. induction rs as [|r rs IH]; intros acc; cbn [readdir_loop]; task_tac. Qed.
#[local] Hint Resolve task_readdir_loop : task.
Lemma task_op_readdir ctx a fh mv : replies OP_READDIR (op_readdir srv ctx a fh mv).
Proof. unfold replies, moves, op_readdir. task_tac. Qed.
Lemma task_op_remove ctx a fh c : replies OP_REMOVE (op_remove srv ctx a fh c).
Proof. unfold replies, moves, op_remove, remove_target, remove_named_attr, require_directory. task_tac. Qed.
Lemma task_op_rename ctx a fh sfh c : replies OP_RENAME (op_rename srv ctx a fh sfh c).
Proof. unfold replies, moves, op_rename, require_directory. task_tac. Qed.

Lemma task_lock_object ctx fh o l : task (lock_object srv ctx fh o l).
Proof. unfold lock_object. task_tac. Qed.
#[local] Hint Resolve task_lock_object : task.
Lemma task_op_lockt ctx a fh : replies OP_LOCKT (op_lockt srv ctx a fh).
Proof. unfold replies, moves, op_lockt. task_tac. Qed.
Lemma task_op_locku a fh sid c :
  is_u64 (lu_offset a) -> is_u64 (lu_length a) -> replies OP_LOCKU (op_locku srv a fh sid c).
Proof. intros Ho Hl. unfold replies, moves, op_locku. task_tac. Qed.
Lemma task_op_lock ctx a fh sid c :
  is_u64 (la_offset a) -> is_u64 (la_length a) -> Locker4_ok (la_locker a) ->
  replies OP_LOCK (op_lock srv ctx a fh sid c).
Proof.
  intros Ho Hl Hk. unfold replies, op_lock. cbv zeta.
  apply safe_bind_or; [apply task_lock_object|done|intros o].
  destruct c as [c|]; [|ret]. destruct (la_locker a) as [n|e]; simpl in Hk.
  - unfold lock_new. destruct Hk as (_ & _ & _ & [Hu _]). task_tac.
  - unfold lock_existing. task_tac.
Qed.
Lemma task_get_dir_delegation ctx fh mv c sid :
  (forall clientid, c = Some clientid -> is_u64 clientid) ->
  replies OP_GET_DIR_DELEGATION (op_get_dir_delegation srv ctx fh mv c sid).
Proof.
  intros Hc. unfold replies, op_get_dir_delegation. cbv zeta.
  destruct (_ || _); [ret|].
  destruct c as [c|]; [specialize (Hc c eq_refl)|ret].
  task_tac.
Qed.
End handlers.


(** ** COMPOUND and the RPC layer *)

Section compound.
Context {H B : Type} `{Countable H} {ho : HashOrder} (srv : NfsServer H B).
Abbreviation W := (Server H B).
Context {may : Prop}.
Abbreviation task := (@safe_any W server_ok server_step instant may _).
Abbreviation safe := (@safe W server_ok server_step instant may _).
Context (Htimeout : 0 <= dc_recall_timeout (ns_delegation_config srv)).

Abbreviation replies := (@replies H B _ _ may).
Abbreviation moves := (@moves H B _ _ may).

(** The operation asks for no size that overflows, or the task may die of it. *)
Definition fits (op : NfsArgop4) : Prop := op_fits op = true \/ may.

Definition context_ok (oc : OpContext) : Prop :=
  forall clientid, oc_sequence_clientid oc = Some clientid -> is_u64 clientid.

Definition answers (n : Z) (r : NfsResop4 * CompoundExecutionState) : Prop := resop_num r.1 = n.

Lemma safe_keep st n m : replies n m -> safe (keep (H := H) (B := B) st m) (answers n).
Proof.
  intros Hm. eapply safe_bind; [exact Hm|]. intros r Hr. by apply safe_ret.
Qed.
Lemma safe_with_fh st n m : moves n m -> safe (with_fh (H := H) (B := B) st m) (answers n).
Proof.
  intros Hm. eapply safe_bind; [exact Hm|]. intros [r fh] Hr. by apply safe_ret.
Qed.
Lemma safe_reply_opt {A} (res : NfsStat4 -> option A -> NfsResop4) n (m : proc W (result NfsStat4 A)) :
  (forall status a, resop_num (res status a) = n) -> task m -> replies n (reply_opt res m).
Proof. intros Hn Hm. apply safe_any_bind; [done|]. intros []; by apply safe_ret. Qed.
Lemma safe_reply_unit (res : NfsStat4 -> NfsResop4) n (m : proc W (result NfsStat4 unit)) :
  (forall status, resop_num (res status) = n) -> task m -> replies n (reply_unit res m).
Proof. intros Hn Hm. apply safe_any_bind; [done|]. intros []; by apply safe_ret. Qed.
Lemma safe_put_root res n fh :
  (forall status, resop_num (res status) = n) -> moves n (put_root srv res fh).
Proof.
  intros Hn. unfold moves, put_root, move_to. apply safe_bind_or; [task_tac|intros e; apply Hn|intros o].
  apply safe_any_bind; [task_tac|]. intros []; apply safe_ret; apply Hn.
Qed.

Lemma safe_fh_op op st m : handle_fh_op srv op st = Some m -> safe m (answers (argop_num op)).
Proof.
  destruct op; intros [= <-];
    first [by apply safe_with_fh, safe_put_root
          | apply safe_ret; unfold answers, op_getfh; by repeat case_match].
Qed.

(** The task of a handler. *)
Ltac op_task ok oc_ok fit :=
  lazymatch goal with
  | |- context [op_close] => apply safe_keep; by apply task_op_close
  | |- context [op_commit] => apply safe_keep; by apply task_op_commit
  | |- context [op_open_downgrade] => apply safe_keep; by apply task_op_open_downgrade
  | |- context [op_read] => apply safe_keep; by apply task_op_read
  | |- context [op_readlink] => apply safe_keep; by apply task_op_readlink
  | |- context [op_write] => apply safe_keep, task_op_write; destruct fit as [?|?]; [left; simpl in *; lia|by right]
  | |- context [op_access] => apply safe_keep; by apply task_op_access
  | |- context [op_getattr] => apply safe_keep; by apply task_op_getattr
  | |- context [op_setattr] => apply safe_keep, task_op_setattr; [done|exact fit]
  | |- context [op_verify _ _ _ _ ?b _] => apply safe_keep, (task_op_verify srv _ _ _ b)
  | |- context [op_getxattr] => apply safe_keep; by apply task_op_getxattr
  | |- context [op_setxattr] => apply safe_keep; by apply task_op_setxattr
  | |- context [op_listxattrs] => apply safe_keep; by apply task_op_listxattrs
  | |- context [op_removexattr] => apply safe_keep; by apply task_op_removexattr
  | |- context [op_link] => apply safe_keep; by apply task_op_link
  | |- context [op_readdir] => apply safe_keep; by apply task_op_readdir
  | |- context [op_remove] => apply safe_keep; by apply task_op_remove
  | |- context [op_rename] => apply safe_keep; by apply task_op_rename
  | |- context [op_lockt] => apply safe_keep; by apply task_op_lockt
  | |- context [op_locku] => apply safe_keep; apply task_op_locku; apply ok
  | |- context [op_lock] => apply safe_keep; apply task_op_lock; apply ok
  | |- context [op_get_dir_delegation] => apply safe_keep; apply task_get_dir_delegation; exact oc_ok
  | |- context [op_create] => apply safe_with_fh; by apply task_op_create
  | |- context [op_lookup] => apply safe_with_fh; by apply task_op_lookup
  | |- context [op_lookupp] => apply safe_with_fh; by apply task_op_lookupp
  | |- context [op_secinfo_no_name] => apply safe_with_fh; by apply task_op_secinfo_no_name
  | |- context [op_openattr] => apply safe_with_fh; by apply task_op_openattr
  | |- context [op_open] => idtac
  | |- _ => by apply safe_ret
  end.

Lemma safe_fs_op op st oc m :
  argop_ok op -> fits op -> context_ok oc -> handle_fs_op srv op st oc = Some m ->
  safe m (answers (argop_num op)).
Proof.
  intros Hok Hfit Hoc. destruct op; intros [= <-]; simpl in Hok; op_task Hok Hoc Hfit.
  destruct Hok as (_ & _ & Hd & Hu & _). apply safe_with_fh. unfold moves.
  apply safe_bind_or; [task_tac|done|intros _]. apply task_op_open; [done|done|apply Hu|exact Hfit].
Qed.

Lemma safe_late_op op st oc m :
  argop_ok op -> fits op -> context_ok oc -> handle_late_op srv op st oc = Some m ->
  safe m (answers (argop_num op)).
Proof.
  intros Hok Hfit Hoc. destruct op; intros [= <-]; simpl in Hok;
    lazymatch goal with
    | |- context [Res_DelegPurge] =>
      apply safe_keep, safe_any_bind; [task_tac|]; intros; by apply safe_ret
    | |- _ => op_task Hok Hoc Hfit
    end.
Qed.

Ltac timed_rule := apply task_timed_op; intros; right; by constructor.

Lemma safe_state_op op st oc :
  argop_ok op -> handle_fh_op srv op st = None -> handle_fs_op srv op st oc = None ->
  handle_late_op srv op st oc = None -> replies (argop_num op) (handle_state_op srv op st oc).
Proof.
  intros Hok Hfh Hfs Hl.
  destruct op; try discriminate Hfh; try discriminate Hfs; try discriminate Hl; clear Hfh Hfs Hl;
    simpl in Hok; cbn [handle_state_op]; cbv zeta; unfold argop_num, error_res_for_op, resop_num;
    repeat match goal with |- context [if ?b then _ else _] => destruct b end;
    try (by apply safe_ret); try apply task_op_reclaim;
    try (apply safe_reply_opt; [done|timed_rule]); try (apply safe_reply_unit; [done|timed_rule]).
  - apply safe_reply_opt; [done|]. apply task_timed_op. intros now s. right. constructor. apply Hok.
  - apply safe_bind_or; [task_tac|done|]. intros sid. apply safe_reply_unit; [done|task_tac].
  - apply safe_any_bind; [task_tac|]. intros. by apply safe_ret.
  - apply safe_bind_or; [task_tac|done|]. intros sid. apply safe_reply_unit; [done|task_tac].
  - apply safe_reply_opt; [done|task_tac].
  - apply safe_any_bind; [timed_rule|]. intros. by apply safe_ret.
Qed.

Lemma safe_handle_op op st oc :
  argop_ok op -> fits op -> context_ok oc -> safe (handle_op srv op st oc) (answers (argop_num op)).
Proof.
  intros Hok Hfit Hoc. unfold handle_op. destruct (handle_fh_op srv op st) as [m|] eqn:E1.
  { by eapply safe_fh_op. }
  destruct (handle_fs_op srv op st oc) as [m|] eqn:E2; [by eapply safe_fs_op|].
  destruct (handle_late_op srv op st oc) as [m|] eqn:E3; [by eapply safe_late_op|].
  apply safe_keep. by eapply safe_state_op.
Qed.

(** ** The results of a COMPOUND *)

Lemma misplaced_not_ok op idx total sid c status :
  misplaced_op op idx total sid c = Some status -> status <> NFS_Ok.
Proof.
  intros Hm ->. destruct op; simpl in Hm; try discriminate Hm.
  - destruct (_ && _) in Hm; discriminate Hm.
  - destruct (bool_decide _) in Hm; discriminate Hm.
Qed.
Lemma first_op_not_ok op total status : first_op_check op total = Some status -> status <> NFS_Ok.
Proof.
  unfold first_op_check. intros Hf ->. destruct op; simpl in Hf; try discriminate Hf;
    destruct (negb _) in Hf; discriminate Hf.
Qed.

Definition prepared_ok (prepared : option NfsResop4) : Prop :=
  match prepared with Some r => resop_num r = OP_SEQUENCE | None => True end.

Lemma safe_compound_loop ops idx total prepared oc st res :
  Forall argop_ok ops -> Forall fits ops -> context_ok oc -> prepared_ok prepared ->
  safe (compound_loop srv ops idx total prepared oc st res)
    (fun r => exists rs, r.2 = res ++ rs /\ compound_shape ops r.1 rs).
Proof.
  intros Hops Hfits Hoc Hp. revert Hfits idx st res.
  induction Hops as [|op ops Hop Hops IH]; intros Hfits idx st res; cbn [compound_loop].
  { apply safe_ret. exists []. rewrite app_nil_r. split; [done|constructor]. }
  apply Forall_cons_1 in Hfits as [Hfit Hfits]. specialize (IH Hfits).
  destruct (if 0 <? idx then _ else None) as [status|] eqn:Hm.
  { apply safe_ret. eexists. split; [done|]. apply shape_error.
    destruct (0 <? idx); [|done]. by eapply misplaced_not_ok. }
  apply (safe_bind _ _ _ _ _ _ (answers (argop_num op))).
  - unfold dispatch_op. destruct op; try (by apply safe_handle_op).
    destruct prepared; [|by apply safe_handle_op].
    destruct (idx =? 0); [by apply safe_ret|by apply safe_handle_op].
  - intros [r st'] Hr. cbv zeta. unfold answers in Hr. simpl in Hr.
    destruct (decide (res_status r = NFS_Ok)) as [Hs|Hs].
    + eapply safe_weaken; [apply IH|]. intros [status results] (rs & Heq & Hshape). simpl in *.
      exists (r :: rs). split; [by rewrite Heq, <- app_assoc|]. by apply shape_ok.
    + apply safe_ret. exists [r]. split; [done|]. by apply shape_stop.
Qed.

(** The client of the session a COMPOUND runs in, as the table has it. *)
Lemma safe_session_clientid sid :
  safe (state_read (H := H) (B := B) (session_clientid sid))
    (fun c => forall clientid, c = Some clientid -> is_u64 clientid).
Proof.
  apply safe_observe. intros w [Hw _ _ _]. split; [apply server_step_refl|]. intros c. unfold session_clientid.
  destruct (in_sessions (sm_inner (sv_state w)) !! sid) as [ss|] eqn:Hss; [|done].
  intros [= <-]. apply (so_client _ _ (proj1 (Hw _ _ Hss))).
Qed.

Lemma safe_handle_compound args prepared ctx conn :
  Forall argop_ok (c4a_argarray args) -> Forall fits (c4a_argarray args) -> prepared_ok prepared ->
  safe (handle_compound srv args prepared ctx conn) (compound_answer args).
Proof.
  intros Hargs Hfits Hp. unfold handle_compound. cbv zeta. destruct (negb _) eqn:Hmv.
  { apply safe_ret. split; [done|left]. split; [|done]. lia. }
  assert (Hv : 0 <= c4a_minorversion args <= 2) by lia.
  eapply safe_bind.
  - match goal with |- Pool.safe _ _ _ _ (match ?x with _ => _ end) _ => destruct x as [sid|] end.
    + apply safe_session_clientid.
    + apply safe_ret. intros clientid. done.
  - intros clientid Hc. simpl in Hc.
    match goal with |- Pool.safe _ _ _ _ (match ?x with _ => _ end) _ =>
      destruct x as [[op status]|] eqn:Hf end.
    + apply safe_ret. split; [done|right]. split; [done|]. simpl.
      destruct (c4a_argarray args) as [|op' ops]; [done|]. simpl in Hf.
      destruct (c4a_minorversion args =? 0); [done|].
      destruct (first_op_check op' _) as [st|] eqn:Hfirst; [|done]. simpl in Hf. injection Hf as <- <-.
      by apply shape_error, (first_op_not_ok op' (zlen (op' :: ops))).
    + eapply safe_bind; [by apply safe_compound_loop|]. intros [status res] (rs & Heq & Hs).
      apply safe_ret. simpl in *. subst res. split; [done|right]. done.
Qed.
End compound.

(** ** The RPC layer *)

Section rpc.
Context {H B : Type} `{Countable H} {ho : HashOrder} (srv : NfsServer H B).
Abbreviation W := (Server H B).
Context {may : Prop}.
Abbreviation task := (@safe_any W server_ok server_step instant may _).
Abbreviation safe := (@safe W server_ok server_step instant may _).
Context (Htimeout : 0 <= dc_recall_timeout (ns_delegation_config srv)).

(** A call for COMPOUND that passes the checks of the RPC layer. *)
Definition compound_call (call : RpcCallHeader) : Prop :=
  rc_rpcvers call = RPC_VERSION /\ rc_prog call = NFS_PROGRAM /\ rc_vers call = NFS_V4 /\
  rc_proc_num call = 1 /\ validate_rpc_auth srv call = Ok tt.

(** The reply to such a call: the results of its operations (executed now, refused
    at SEQUENCE, or executed before and kept for a retry), or SEQUENCE alone when
    the lease of the client was revoked. *)
Inductive compound_reply (xid : Z) (args : Compound4Args) : bytes -> Prop :=
| reply_results res : compound_answer args res -> compound_reply xid args (accepted xid res)
| reply_status_only seq_args res :
    leading_sequence args = Some seq_args ->
    sr_sessionid res = sa_sessionid seq_args -> sr_sequenceid res = sa_sequenceid seq_args ->
    sr_slotid res = sa_slotid seq_args ->
    compound_reply xid args (accepted xid (sequence_only_compound (c4a_tag args) res)).

Definition is_reply_to (xid : Z) (reply : bytes) : Prop :=
  exists body, reply = encode_u32 xid ++ encode_MsgType Reply ++ body.

(** What [process_rpc_message] must return. *)
Record rpc_answer (data : bytes) (r : option bytes) : Prop := {
  ra_ignored : forall e, decode_RpcCallHeader data = Err e -> r = None;
  ra_replied : forall call src, decode_RpcCallHeader data = Ok (call, src) ->
    exists reply, r = Some reply /\ is_reply_to (rc_xid call) reply;
  ra_compound : forall call src args rest reply,
    decode_RpcCallHeader data = Ok (call, src) -> compound_call call ->
    decode_Compound4Args src = Ok (args, rest) -> r = Some reply ->
    compound_reply (rc_xid call) args reply;
}.

Lemma compound_reply_is_reply xid args reply : compound_reply xid args reply -> is_reply_to xid reply.
Proof.
  intros []; eexists; unfold accepted, encode_rpc_reply_accepted; rewrite <- !app_assoc; done.
Qed.

Lemma prepare_error_not_ok args fp conn now s status :
  (prepare_sequence args fp conn now s).1 = Seq_Error status -> status <> NFS_Ok.
Proof.
  unfold prepare_sequence, bind_forechannel_for_sequence, slot_prepare.
  repeat (case_match; simpl; try (intros [= <-]; done); try done); intros [= <-]; congruence.
Qed.

Lemma safe_execute_compound call conn args prepared :
  Forall argop_ok (c4a_argarray args) -> Forall (fits (may := may)) (c4a_argarray args) ->
  (forall r tok, prepared = Some (r, tok) -> fingerprint_of args (tk_fingerprint tok)) ->
  safe (execute_compound srv call conn args prepared) (compound_reply (rc_xid call) args).
Proof.
  intros Hargs Hfits Htok. unfold execute_compound.
  eapply safe_bind; [apply safe_handle_compound; [done|done|done|by destruct prepared]|].
  intros res Hres. cbv zeta. apply safe_any_bind.
  - destruct prepared as [[r tok]|]; [|apply task_ret].
    apply task_state_op. intros s. right. apply step_finish.
    exists args, res. split; [by apply (Htok r)|done].
  - intros _. apply safe_ret. by apply reply_results.
Qed.

(** What SEQUENCE's verdict says about the request: the token is for its
    fingerprint, a kept reply was kept under it, and a status alone is about its
    slot. *)
Definition verdict_ok (seq_args : SequenceArgs4) (fp : bytes) (r : SequenceReplay) : Prop :=
  match r with
  | Seq_Execute _ tok => tk_fingerprint tok = fp
  | Seq_Replay cached => genuine_reply fp cached
  | Seq_StatusOnly res => sr_sessionid res = sa_sessionid seq_args /\
      sr_sequenceid res = sa_sequenceid seq_args /\ sr_slotid res = sa_slotid seq_args
  | Seq_Error status => status <> NFS_Ok
  end.

Lemma slot_prepare_cached q fp slot response slot' :
  slot_prepare q fp slot = (Verdict_Replay response, slot') ->
  sl_cached_reply slot = Some (mkCachedReplay fp response).
Proof.
  unfold slot_prepare. destruct (_ =? _); [done|]. destruct (negb _); [done|].
  destruct (sl_in_progress slot); [by case_bool_decide|].
  destruct (sl_cached_reply slot) as [[f r]|]; [|done]. case_bool_decide as Hf; [|done].
  simpl in *. by intros [= -> _]; subst.
Qed.

Lemma prepare_verdict seq_args fp conn now s :
  deleg_wf (sm_inner s) -> sessions_hold genuine_reply (sm_inner s) ->
  verdict_ok seq_args fp (prepare_sequence seq_args fp conn now s).1.
Proof.
  intros Hwf Hs. apply (reap_sessions now s Hwf) in Hs. unfold prepare_sequence.
  set (s0 := reap_expired_clients now s) in *. clearbody s0.
  destruct (in_sessions (sm_inner s0) !! _) as [ss|] eqn:Hss; [|done].
  destruct (_ <=? _); [done|]. destruct (in_clients (sm_inner s0) !! _) as [cl|]; [|done].
  assert (Hslots : forall ss', bind_forechannel_for_sequence ss conn = Ok ss' -> ss_slots ss' = ss_slots ss).
  { intros ss'. unfold bind_forechannel_for_sequence. destruct (_ && _); [done|]. by intros [= <-]. }
  destruct (cs_lease_state cl);
    (destruct (bind_forechannel_for_sequence ss conn) as [ss'|e] eqn:Hb; [specialize (Hslots _ eq_refl)|]);
    try done; try (unfold bind_forechannel_for_sequence in Hb; destruct (_ && _) in Hb; by simplify_eq).
  rewrite Hslots. destruct (ss_slots ss !! _) as [slot|] eqn:Hsl; [|done].
  destruct (slot_prepare _ _ _) as [v slot'] eqn:Hp. destruct v as [|response|status]; simpl.
  - done.
  - destruct (Hs _ _ Hss) as [_ Hr]. apply slot_prepare_cached in Hp.
    exact (Forall_lookup_1 _ _ _ _ Hr Hsl _ Hp).
  - revert Hp. unfold slot_prepare.
    repeat (case_match; simpl; try (intros [= <- _]; done); try done).
Qed.

Lemma safe_prepare seq_args fp conn :
  safe (timed_op (H := H) (B := B) (prepare_sequence seq_args fp conn)) (verdict_ok seq_args fp).
Proof.
  apply safe_atomic. intros w [Hses _ Hwf _].
  pose proof (step_prepare (P := genuine_reply) seq_args fp conn (instant w) (sv_state w)) as Hs.
  pose proof (prepare_verdict seq_args fp conn (instant w) (sv_state w) Hwf Hses) as Hv.
  destruct (prepare_sequence seq_args fp conn (instant w) (sv_state w)) as [r s']. simpl in *.
  split; [|done]. split; [by right|by apply reg_same|split; simpl; [done|lia|lia]].
Qed.

Lemma safe_process_compound call payload conn args rest :
  Forall argop_ok (c4a_argarray args) -> Forall (fits (may := may)) (c4a_argarray args) ->
  cred_ok (rc_cred call) -> decode_Compound4Args payload = Ok (args, rest) ->
  safe (process_compound srv call payload conn args) (compound_reply (rc_xid call) args).
Proof.
  intros Hargs Hfits Hcred Hpay. unfold process_compound.
  assert (Hfp : fingerprint_of args (replay_fingerprint (rc_cred call) payload)) by by eexists _, _, _.
  destruct (leading_sequence args) as [sa|] eqn:Hl; [|by apply safe_execute_compound].
  eapply safe_bind; [apply safe_prepare|]. intros [res tok|cached|res|status] Hr; simpl in Hr.
  - apply safe_execute_compound; [done|done|]. intros r tok' [= <- <-]. by rewrite Hr.
  - apply safe_ret. destruct (genuine_own _ _ _ Hr Hfp) as (res & -> & Hres). by apply reply_results.
  - apply safe_ret. destruct Hr as (H1 & H2 & H3). by apply (reply_status_only _ _ sa).
  - apply safe_ret. by apply reply_results, (sequence_refused _ sa).
Qed.

Lemma rpc_answered data conn :
  bytes_ok data -> (oversized_message data = true -> may) ->
  safe (process_rpc_message srv data conn) (rpc_answer data).
Proof.
  intros Hb Hmay. unfold process_rpc_message.
  destruct (decode_RpcCallHeader data) as [[call src]|e] eqn:Hd.
  2: { apply safe_ret. split; [done|by rewrite Hd|by rewrite Hd]. }
  cbv zeta.
  assert (Hother : forall reply, is_reply_to (rc_xid call) reply ->
    (compound_call call -> forall args rest, decode_Compound4Args src <> Ok (args, rest)) ->
    rpc_answer data (Some reply)).
  { intros reply Hr Hn. split; [by rewrite Hd|..]; rewrite Hd.
    - intros call' src' [= <- <-]. by exists reply.
    - intros call' src' args rest reply' [= <- <-] Hc Ha _. by destruct (Hn Hc args rest). }
  destruct (negb (rc_rpcvers call =? _)) eqn:E1.
  { apply safe_ret, Hother; [by eexists|]. intros (Hv & _). rewrite Hv in E1. done. }
  destruct (negb (rc_prog call =? _)) eqn:E2.
  { apply safe_ret, Hother; [by eexists|]. intros (_ & Hv & _). rewrite Hv in E2. done. }
  destruct (negb (rc_vers call =? _)) eqn:E3.
  { apply safe_ret, Hother; [by eexists|]. intros (_ & _ & Hv & _). rewrite Hv in E3. done. }
  destruct (rc_proc_num call =? 0) eqn:E4.
  { apply safe_ret, Hother; [by eexists|]. intros (_ & _ & _ & Hv & _). rewrite Hv in E4. done. }
  destruct (validate_rpc_auth srv call) as [[]|auth] eqn:E5.
  2: { apply safe_ret, Hother; [by eexists|]. intros (_ & _ & _ & _ & Hv). congruence. }
  destruct (rc_proc_num call =? 1) eqn:E6.
  2: { apply safe_ret, Hother; [by eexists|]. intros (_ & _ & _ & Hv & _). rewrite Hv in E6. done. }
  destruct (decode_Compound4Args src) as [[args rest]|e] eqn:Hc.
  2: { apply safe_ret, Hother; [|done]. unfold accepted, encode_rpc_reply_accepted.
       eexists. by rewrite <- !app_assoc. }
  destruct (post_RpcCallHeader _ _ _ Hb Hd) as (_ & used & -> & _). apply bytes_ok_app in Hb as [_ Hb].
  destruct (post_Compound4Args _ _ _ Hb Hc) as ((_ & _ & Hargs) & _).
  assert (Hfits : Forall (fits (may := may)) (c4a_argarray args)).
  { apply Forall_forall. intros op Hin. destruct (op_fits op) eqn:Hop; [by left|right]. apply Hmay.
    unfold oversized_message. rewrite Hd, Hc. apply existsb_exists. exists op. by rewrite Hop. }
  eapply safe_bind.
  { eapply safe_process_compound; [done|done|by eapply decode_RpcCallHeader_cred|done]. }
  intros reply Hreply. apply safe_ret.
  split; [by rewrite Hd|..]; rewrite Hd.
  - intros call' src' [= <- <-]. exists reply. split; [done|]. by eapply compound_reply_is_reply.
  - intros call' src' args' rest' reply' [= <- <-] _. rewrite Hc. by intros [= <- <-] [= <-].
Qed.

Lemma task_open_connection : task (open_connection (H := H) (B := B)).
Proof.
  unfold open_connection. apply safe_any_bind; [|intros c].
  - apply task_state_op. intros s. right. apply step_alloc_connection.
  - apply safe_any_bind; [|intros; ret]. apply task_frame. intros w. split_and!; [done|done|by apply clock_same].
Qed.
Lemma task_close_connection c : task (close_connection (H := H) (B := B) c).
Proof.
  unfold close_connection. apply safe_any_bind; [|intros _].
  - apply task_frame. intros w. split_and!; [done|done|by apply clock_same].
  - apply task_state_op. intros s. right. apply step_remove_connection.
Qed.
End rpc.
