(* ===== verification/MintRace.v ===== *)
(** * Minting filehandles while objects are being retired
    (session/filehandles.rs and session/invalidate.rs, step by step)

    [object_to_fh] and the filehandle pass of [invalidate_objects] work on
    lock-free tables: what is atomic is one call on a table.  [pc] is the
    program counter of a thread that runs one of the two, [pc_step] the next
    atomic call of the Rust code, [run] any interleaving of any number of
    threads.

    Two results.  Without persistent encodings, no mapping outlives a
    retirement ([boot_mint_safe]).  With them one can ([persistent_mint_race]):
    the bytes of a persistent handle are the same for every thread that mints
    it, so a thread can restore a mapping the sweep has just removed and then
    take the other half of it, not yet removed, for another thread's success. *)

From stdpp Require Import base gmap list sets strings numbers.
From Stdlib Require Import ZArith Lia.
From S2P Require Import Prelude Xdr Rpc Types StateModel DelegTable Clients Filehandles Invalidate.

Local Open Scope Z_scope.

(** ** Threads *)

Inductive pc :=
(* object_to_fh *)
| M_start (o : ServerObject)                (* object_to_fh.get(object) *)
| M_check (o : ServerObject)                (* is_retired(object) *)
| M_claim (o : ServerObject)                (* persistent_fh.get(id) *)
| M_reserve (o : ServerObject) (fh : bytes) (* fh_to_object.entry(fh) *)
| M_alloc (o : ServerObject)                (* next_fh.fetch_add(1) *)
| M_insert (o : ServerObject) (fh : bytes)  (* fh_to_object.insert(fh, object) *)
| M_publish (o : ServerObject) (fh : bytes) (* object_to_fh.entry(object) *)
| M_undo (o : ServerObject) (fh winner : bytes) (* fh_to_object.remove_if(fh, == object) *)
| M_recheck (o : ServerObject) (fh : bytes) (* is_retired(object) *)
| M_remove (o : ServerObject) (fh : bytes)  (* fh_to_object.remove(fh) *)
| M_unname (o : ServerObject)               (* object_to_fh.remove(object) *)
| M_done (r : option bytes)
(* the filehandle pass of invalidate_objects *)
| S_mark (todo : list Z) (ids : gset Z)     (* retired_objects.insert(id) *)
| S_collect (ids : gset Z)                  (* fh_to_object.iter() *)
| S_scan (todo : list bytes) (stale : list (bytes * ServerObject)) (ids : gset Z)
| S_sweep (stale : list (bytes * ServerObject)) (ids : gset Z) (* fh_to_object.remove(fh) *)
| S_unname (o : ServerObject) (stale : list (bytes * ServerObject)) (ids : gset Z)
| S_forget (todo : list Z) (ids : gset Z)   (* persistent_fh.remove(id) *)
| S_done (ids : gset Z).

Definition put_fh (fh : bytes) (o : ServerObject) (s : StateManager) : StateManager :=
  set_sm_fh_to_object (<[fh := o]> (sm_fh_to_object s)) s.
Definition drop_fh (fh : bytes) (s : StateManager) : StateManager :=
  set_sm_fh_to_object (delete fh (sm_fh_to_object s)) s.
Definition put_name (o : ServerObject) (fh : bytes) (s : StateManager) : StateManager :=
  set_sm_object_to_fh (<[o := fh]> (sm_object_to_fh s)) s.
Definition drop_name (o : ServerObject) (s : StateManager) : StateManager :=
  set_sm_object_to_fh (delete o (sm_object_to_fh s)) s.

(** The next atomic call of a thread. *)
Definition pc_step (p : pc) (s : StateManager) : pc * StateManager :=
  match p with
  | M_start o => (match sm_object_to_fh s !! o with
                  | Some fh => M_done (Some fh)
                  | None => M_check o
                  end, s)
  | M_check o => (if is_retired s o then M_done None else M_claim o, s)
  | M_claim o => (match o with
                  | Fs id => match sm_persistent_fh s !! id with
                             | Some fh => M_reserve o fh
                             | None => M_alloc o
                             end
                  | _ => M_alloc o
                  end, s)
  | M_reserve o fh =>
    match sm_fh_to_object s !! fh with
    | Some existing => (if bool_decide (existing = o) then M_publish o fh else M_alloc o, s)
    | None => (M_publish o fh, put_fh fh o s)
    end
  | M_alloc o =>
    let '(n, s) := alloc_fh s in (M_insert o (boot_fh (sm_fh_boot_nonce s) n), s)
  | M_insert o fh => (M_publish o fh, put_fh fh o s)
  | M_publish o fh =>
    match sm_object_to_fh s !! o with
    | Some winner => (if bool_decide (winner = fh) then M_done (Some winner)
                      else M_undo o fh winner, s)
    | None => (M_recheck o fh, put_name o fh s)
    end
  | M_undo o fh winner =>
    (M_done (Some winner),
     if bool_decide (sm_fh_to_object s !! fh = Some o) then drop_fh fh s else s)
  | M_recheck o fh => (if is_retired s o then M_remove o fh else M_done (Some fh), s)
  | M_remove o fh => (M_unname o, drop_fh fh s)
  | M_unname o => (M_done None, drop_name o s)
  | M_done r => (M_done r, s)
  | S_mark (id :: todo) ids => (S_mark todo ids, mark_retired {[id]} s)
  | S_mark [] ids => (S_collect ids, s)
  | S_collect ids => (S_scan (map_to_list (sm_fh_to_object s)).*1 [] ids, s)
  | S_scan (fh :: todo) stale ids =>
    (match sm_fh_to_object s !! fh with
     | Some o => if belongs_to o ids then S_scan todo ((fh, o) :: stale) ids
                 else S_scan todo stale ids
     | None => S_scan todo stale ids
     end, s)
  | S_scan [] stale ids => (S_sweep stale ids, s)
  | S_sweep ((fh, o) :: stale) ids => (S_unname o stale ids, drop_fh fh s)
  | S_sweep [] ids => (S_forget (elements ids) ids, s)
  | S_unname o stale ids => (S_sweep stale ids, drop_name o s)
  | S_forget (id :: todo) ids =>
    (S_forget todo ids, set_sm_persistent_fh (delete id (sm_persistent_fh s)) s)
  | S_forget [] ids => (S_done ids, s)
  | S_done ids => (S_done ids, s)
  end.

(** Threads appear at any time and run in any order.  The iteration over a
    concurrent map sees every entry present throughout, and may or may not see
    one that is inserted meanwhile ([run_see]). *)
Inductive run : StateManager -> gmap nat pc -> Prop :=
| run_boot cfg rng secs nanos : run (with_config cfg rng secs nanos) ∅
| run_spawn_mint s th t o : run s th -> th !! t = None -> run s (<[t := M_start o]> th)
| run_spawn_retire s th t ids :
    run s th -> th !! t = None -> run s (<[t := S_mark (elements ids) ids]> th)
| run_record s th id enc : run s th -> run (record_persistent_fh id enc s) th
| run_thread s th t p p' s' :
    run s th -> th !! t = Some p -> pc_step p s = (p', s') -> run s' (<[t := p']> th)
| run_see s th t todo stale ids fh o :
    run s th -> th !! t = Some (S_scan todo stale ids) -> sm_fh_to_object s !! fh = Some o ->
    belongs_to o ids = true -> run s (<[t := S_scan todo ((fh, o) :: stale) ids]> th).

(** A run in which no persistent encoding is ever recorded. *)
Inductive boot_run : StateManager -> gmap nat pc -> Prop :=
| boot_run_boot cfg rng secs nanos : boot_run (with_config cfg rng secs nanos) ∅
| boot_run_spawn_mint s th t o :
    boot_run s th -> th !! t = None -> boot_run s (<[t := M_start o]> th)
| boot_run_spawn_retire s th t ids :
    boot_run s th -> th !! t = None -> boot_run s (<[t := S_mark (elements ids) ids]> th)
| boot_run_thread s th t p p' s' :
    boot_run s th -> th !! t = Some p -> pc_step p s = (p', s') ->
    sm_next_fh s < u64_max -> boot_run s' (<[t := p']> th)
| boot_run_see s th t todo stale ids fh o :
    boot_run s th -> th !! t = Some (S_scan todo stale ids) -> sm_fh_to_object s !! fh = Some o ->
    belongs_to o ids = true -> boot_run s (<[t := S_scan todo ((fh, o) :: stale) ids]> th).

(** ** The race *)

Fixpoint run_threads (sched : list nat) (s : StateManager) (th : gmap nat pc)
    : StateManager * gmap nat pc :=
  match sched with
  | [] => (s, th)
  | t :: rest =>
    match th !! t with
    | Some p => let '(p', s') := pc_step p s in run_threads rest s' (<[t := p']> th)
    | None => run_threads rest s th
    end
  end.

Lemma run_threads_run sched s th :
  run s th -> run (run_threads sched s th).1 (run_threads sched s th).2.
Proof.
  revert s th. induction sched as [|t rest IH]; intros s th Hr; simpl; [done|].
  destruct (th !! t) as [p|] eqn:E; [|by apply IH].
  destruct (pc_step p s) as [p' s'] eqn:Ep. apply IH. by apply (run_thread s th t p).
Qed.

(** Threads 0 and 1 mint object 1, which has a persistent encoding; thread 2
    retires it. *)
Definition race_start : StateManager := record_persistent_fh 1 [9] example_boot.
Definition race_threads : gmap nat pc :=
  <[2%nat := S_mark (elements ({[1]} : gset Z)) {[1]}]>
    (<[1%nat := M_start (Fs 1)]> (<[0%nat := M_start (Fs 1)]> ∅)).

Definition race_schedule : list nat :=
  [ 0; 0; 0; 0;        (* 0 reserves the handle *)
    1; 1; 1;           (* 1 misses, is not refused, has read the encoding *)
    0; 0;              (* 0 publishes and is done *)
    2; 2; 2; 2; 2; 2;  (* 2 marks, collects, and removes the handle, not yet the name *)
    1; 1;              (* 1 reserves the handle again, sees 0's name, is done *)
    2; 2; 2; 2 ]%nat.  (* 2 removes the name and the encoding, is done *)

(** A persistent filehandle can outlive the retirement of its object: two
    threads mint it, a third retires the object, and in this interleaving, with
    every thread finished and the object marked retired, the handle still
    resolves to it. *)
Theorem persistent_mint_race :
  let '(s, th) := run_threads race_schedule race_start race_threads in
  run s th /\
  th !! 0%nat = Some (M_done (Some [165; 9])) /\ th !! 1%nat = Some (M_done (Some [165; 9])) /\
  th !! 2%nat = Some (S_done {[1]}) /\
  is_retired s (Fs 1) = true /\ fh_to_object [165; 9] s = Some (Fs 1).
Proof.
  pose proof (run_threads_run race_schedule race_start race_threads) as Hrun.
  assert (Hstart : run race_start race_threads).
  { unfold race_threads. apply run_spawn_retire; [|reflexivity].
    apply run_spawn_mint; [|reflexivity]. apply run_spawn_mint; [|reflexivity].
    apply run_record. apply run_boot. }
  specialize (Hrun Hstart).
  destruct (run_threads race_schedule race_start race_threads) as [s th] eqn:E.
  split; [exact Hrun|]. revert E. vm_compute. intros [= <- <-]. repeat split.
Qed.

(** ** Boot-scoped handles are safe *)

(** The handle a thread has drawn, and whether it has been published yet. *)
Definition fh_of (p : pc) : option bytes :=
  match p with
  | M_insert _ fh | M_publish _ fh | M_undo _ fh _ | M_recheck _ fh | M_remove _ fh => Some fh
  | _ => None
  end.
Definition unpublished (p : pc) : option bytes :=
  match p with M_insert _ fh | M_publish _ fh => Some fh | _ => None end.

(** The mapping a thread has inserted and will still look at. *)
Definition owns (p : pc) (fh : bytes) (o : ServerObject) : Prop :=
  match p with
  | M_publish o' fh' | M_undo o' fh' _ | M_recheck o' fh' | M_remove o' fh' => o' = o /\ fh' = fh
  | _ => False
  end.
Definition owned (th : gmap nat pc) (fh : bytes) (o : ServerObject) : Prop :=
  exists t p, th !! t = Some p /\ owns p fh o.

(** A sweep past its marks, and the mappings it has yet to deal with. *)
Definition sweeping (p : pc) : option (gset Z) :=
  match p with
  | S_collect ids | S_scan _ _ ids | S_sweep _ ids | S_unname _ _ ids | S_forget _ ids
  | S_done ids => Some ids
  | _ => None
  end.
Definition excuse (p : pc) (fh : bytes) (o : ServerObject) : Prop :=
  match p with
  | S_collect _ => True
  | S_scan todo stale _ => fh ∈ todo \/ (fh, o) ∈ stale
  | S_sweep stale _ | S_unname _ stale _ => (fh, o) ∈ stale
  | _ => False
  end.

Definition drawn (s : StateManager) (fh : bytes) : Prop :=
  exists n, 1 <= n < sm_next_fh s /\ fh = boot_fh (sm_fh_boot_nonce s) n.

Record mint_inv (s : StateManager) (th : gmap nat pc) : Prop := {
  mi_persistent : sm_persistent_fh s = ∅;
  mi_reserve : forall t o fh, th !! t <> Some (M_reserve o fh);
  mi_next : 1 <= sm_next_fh s <= u64_max;
  mi_drawn : forall t p fh, th !! t = Some p -> fh_of p = Some fh -> drawn s fh;
  mi_named : forall o fh, sm_object_to_fh s !! o = Some fh -> drawn s fh;
  mi_distinct : forall t t' p p' fh, th !! t = Some p -> th !! t' = Some p' ->
    fh_of p = Some fh -> fh_of p' = Some fh -> t = t';
  mi_unpublished : forall t p fh o, th !! t = Some p -> unpublished p = Some fh ->
    sm_object_to_fh s !! o <> Some fh;
  mi_marking : forall t todo ids, th !! t = Some (S_mark todo ids) ->
    forall id, id ∈ ids -> id ∈ todo \/ id ∈ sm_retired_objects s;
  mi_sweeping : forall t p ids, th !! t = Some p -> sweeping p = Some ids ->
    ids ⊆ sm_retired_objects s /\
    forall fh o, sm_fh_to_object s !! fh = Some o -> object_root o ∈ ids ->
      excuse p fh o \/ owned th fh o;
}.

(** Facts about one step. *)
Lemma step_retired p s p' s' :
  pc_step p s = (p', s') -> sm_retired_objects s ⊆ sm_retired_objects s'.
Proof.
  intros H. destruct p; simpl in H; repeat case_match; simplify_eq; try done. simpl. set_solver.
Qed.

Lemma step_boot p s p' s' :
  pc_step p s = (p', s') -> sm_persistent_fh s = ∅ ->
  sm_persistent_fh s' = ∅ /\ sm_fh_boot_nonce s' = sm_fh_boot_nonce s /\
  forall o fh, p' <> M_reserve o fh.
Proof.
  intros H Hp. destruct p; simpl in H; repeat case_match; simplify_eq; try done.
  all: simpl; rewrite ?Hp, ?lookup_empty in *; simplify_eq; by rewrite ?delete_empty.
Qed.

Lemma step_next p s p' s' :
  pc_step p s = (p', s') -> 1 <= sm_next_fh s < u64_max ->
  sm_next_fh s <= sm_next_fh s' <= sm_next_fh s + 1.
Proof.
  intros H Hn. destruct p; simpl in H; repeat case_match; simplify_eq; simpl; try lia.
  rewrite u64_wrap_small by (unfold is_u64, u64_max in *; lia). lia.
Qed.

(** A mapping is there because it was there, or because this thread put it. *)
Lemma step_entries p s p' s' fh o :
  pc_step p s = (p', s') -> (forall o fh, p <> M_reserve o fh) ->
  sm_fh_to_object s' !! fh = Some o -> sm_fh_to_object s !! fh = Some o \/ owns p' fh o.
Proof.
  intros H Hres. destruct p; simpl in H; repeat case_match; simplify_eq; simpl; auto;
    try (by intros [_ ?]%lookup_delete_Some; auto).
  - by destruct (Hres o0 fh0).
  - intros [[<- <-]|[_ ?]]%lookup_insert_Some; auto.
Qed.

(** A thread lets go of a mapping only by removing it or for a live object. *)
Lemma step_owns p s p' s' fh o :
  pc_step p s = (p', s') -> owns p fh o ->
  (forall o', unpublished p = Some fh -> sm_object_to_fh s !! o' <> Some fh) ->
  sm_fh_to_object s' !! fh = Some o -> owns p' fh o \/ is_retired s o = false.
Proof.
  intros H Ho Hu. destruct p; simpl in Ho; try done; destruct Ho as [-> ->]; simpl in H.
  - destruct (sm_object_to_fh s !! o) as [w|] eqn:Ew.
    + case_bool_decide as Hw.
      * subst w. by destruct (Hu o eq_refl).
      * simplify_eq. by left.
    + simplify_eq. by left.
  - case_bool_decide; simplify_eq; [|done]. simpl. by rewrite lookup_delete_eq.
  - destruct (is_retired s o) eqn:E; simplify_eq; [by left|by right].
  - simplify_eq. simpl. by rewrite lookup_delete_eq.
Qed.

(** The handle a thread holds after a step it held before, or just drew. *)
Lemma step_fh_of p s p' s' fh :
  pc_step p s = (p', s') -> sm_persistent_fh s = ∅ -> (forall o fh, p <> M_reserve o fh) ->
  fh_of p' = Some fh ->
  fh_of p = Some fh /\ (unpublished p' = Some fh -> unpublished p = Some fh) \/
  (fh = boot_fh (sm_fh_boot_nonce s) (sm_next_fh s) /\
   sm_next_fh s' = u64_wrap (sm_next_fh s + 1) /\ sm_object_to_fh s' = sm_object_to_fh s).
Proof.
  intros H Hp Hres Hf. destruct p; simpl in H; repeat case_match; simplify_eq; simpl in *;
    simplify_eq; auto; try (by destruct (Hres o fh)).
Qed.

(** A name points where it pointed, or to the handle this thread published. *)
Lemma step_names p s p' s' o fh :
  pc_step p s = (p', s') -> sm_object_to_fh s' !! o = Some fh ->
  sm_object_to_fh s !! o = Some fh \/ (unpublished p = Some fh /\ unpublished p' = None).
Proof.
  intros H. destruct p; simpl in H; repeat case_match; simplify_eq; simpl; auto;
    try (by intros [_ ?]%lookup_delete_Some; auto).
  intros [[_ <-]|[_ ?]]%lookup_insert_Some; auto.
Qed.

Lemma drawn_mono s s' fh :
  sm_fh_boot_nonce s' = sm_fh_boot_nonce s -> sm_next_fh s <= sm_next_fh s' ->
  drawn s fh -> drawn s' fh.
Proof. intros Hn Hle (n & Hb & ->). exists n. rewrite Hn. split; [lia|done]. Qed.

(** The sweep's own progress. *)
Lemma step_sweeping p s p' s' ids th :
  pc_step p s = (p', s') -> sweeping p' = Some ids ->
  (forall id, match p with S_mark todo ids => id ∈ ids -> id ∈ todo \/ id ∈ sm_retired_objects s
              | _ => True end) ->
  (forall ids, sweeping p = Some ids -> ids ⊆ sm_retired_objects s /\
    forall fh o, sm_fh_to_object s !! fh = Some o -> object_root o ∈ ids ->
      excuse p fh o \/ owned th fh o) ->
  ids ⊆ sm_retired_objects s' /\
  forall fh o, sm_fh_to_object s' !! fh = Some o -> object_root o ∈ ids ->
    excuse p' fh o \/ owned th fh o.
Proof.
  intros H Hs Hm Hold. destruct p; simpl in H; repeat case_match; simplify_eq; simpl in Hs; simplify_eq;
    try (destruct (Hold ids eq_refl) as [Hsub Hex]; split; [done|]; simpl in *).
  - split; [|by left]. intros id Hid. destruct (Hm id Hid) as [?%elem_of_nil|]; done.
  - intros fh o Hf _. left. left. apply list_elem_of_fmap. exists (fh, o). split; [done|].
    by apply elem_of_map_to_list.
  - intros fh o Hf Hr. destruct (Hex fh o Hf Hr) as [[?%elem_of_nil|?]|?]; auto; done.
  - intros fh o' Hf Hr. destruct (Hex fh o' Hf Hr) as [[Hi|?]|?]; [|rewrite elem_of_cons; auto..].
    apply elem_of_cons in Hi as [->|?]; [|auto]. assert (o' = s0) as -> by congruence. left. right. by left.
  - intros fh o' Hf Hr. destruct (Hex fh o' Hf Hr) as [[Hi|?]|?]; [|auto..].
    apply elem_of_cons in Hi as [->|?]; [|auto]. exfalso.
    assert (o' = s0) as -> by congruence. rewrite belongs_to_root in *. by bool_to_prop.
  - intros fh o' Hf Hr. destruct (Hex fh o' Hf Hr) as [[Hi|?]|?]; [|auto..].
    apply elem_of_cons in Hi as [->|?]; [congruence|auto].
  - intros fh o Hf Hr. destruct (Hex fh o Hf Hr) as [?%elem_of_nil|?]; auto; done.
  - intros fh o' [Hne Hf]%lookup_delete_Some Hr. destruct (Hex fh o' Hf Hr) as [Hi|?]; [|auto].
    apply elem_of_cons in Hi as [[= -> ->]|?]; [done|auto].
  - intros fh o' Hf Hr. auto.
  - intros fh o Hf Hr. auto.
  - intros fh o Hf Hr. auto.
  - intros fh o Hf Hr. auto.
Qed.

Lemma owned_insert th t p fh o :
  owns p fh o -> owned (<[t := p]> th) fh o.
Proof. intros Ho. exists t, p. by rewrite lookup_insert_eq. Qed.

(** Ownership by other threads does not depend on this one. *)
Lemma owned_update th t p p' fh o :
  th !! t = Some p -> owned th fh o -> owns p fh o \/ owned (<[t := p']> th) fh o.
Proof.
  intros Ht (t' & q & Hq & Ho). destruct (decide (t' = t)) as [->|Hne].
  - left. congruence.
  - right. exists t', q. by rewrite lookup_insert_ne.
Qed.

Section one_step.
Variables (s s' : StateManager) (th : gmap nat pc) (t : nat) (p p' : pc).
Hypothesis Hinv : mint_inv s th.
Hypothesis Ht : th !! t = Some p.
Hypothesis Hstep : pc_step p s = (p', s').
Hypothesis Hroom : sm_next_fh s < u64_max.

Let Hres : forall o fh, p <> M_reserve o fh.
Proof. intros o fh ->. by apply (mi_reserve _ _ Hinv t o fh). Qed.

Let Hb : sm_persistent_fh s' = ∅ /\ sm_fh_boot_nonce s' = sm_fh_boot_nonce s /\
  forall o fh, p' <> M_reserve o fh.
Proof. apply (step_boot _ _ _ _ Hstep), (mi_persistent _ _ Hinv). Qed.

Let Hn : sm_next_fh s <= sm_next_fh s' <= sm_next_fh s + 1.
Proof. apply (step_next _ _ _ _ Hstep). pose proof (mi_next _ _ Hinv). lia. Qed.

(** A handle just drawn is held by nobody and names nothing. *)
Lemma fresh_not_drawn : ~ drawn s (boot_fh (sm_fh_boot_nonce s) (sm_next_fh s)).
Proof.
  intros (n & Hn' & He). pose proof (mi_next _ _ Hinv).
  apply boot_fh_inj in He; unfold is_u64, u64_max in *; lia.
Qed.

Lemma step_drawn fh : fh_of p' = Some fh -> drawn s' fh.
Proof.
  intros Hf. destruct (step_fh_of _ _ _ _ _ Hstep (mi_persistent _ _ Hinv) Hres Hf)
    as [[Hf' _]|(-> & Hnx & _)].
  - apply (drawn_mono s); [apply Hb|lia|]. by apply (mi_drawn _ _ Hinv t p).
  - exists (sm_next_fh s). destruct Hb as (_ & -> & _). split; [|done].
    pose proof (mi_next _ _ Hinv). rewrite Hnx.
    rewrite u64_wrap_small by (unfold is_u64, u64_max in *; lia). lia.
Qed.

Lemma step_distinct t2 q fh :
  t2 <> t -> th !! t2 = Some q -> fh_of p' = Some fh -> fh_of q = Some fh -> False.
Proof.
  intros Hne Hq Hf Hf2. destruct (step_fh_of _ _ _ _ _ Hstep (mi_persistent _ _ Hinv) Hres Hf)
    as [[Hf' _]|(-> & _)].
  - apply Hne. by apply (mi_distinct _ _ Hinv t2 t q p fh).
  - apply fresh_not_drawn. by apply (mi_drawn _ _ Hinv t2 q).
Qed.

Lemma step_unpublished t2 q fh o :
  <[t := p']> th !! t2 = Some q -> unpublished q = Some fh ->
  sm_object_to_fh s' !! o <> Some fh.
Proof.
  intros Hq Hu Ho.
  assert (Hfq : fh_of q = Some fh) by (destruct q; simpl in *; done).
  destruct (step_names _ _ _ _ _ _ Hstep Ho) as [Hold|[Hup Hup']].
  - apply lookup_insert_Some in Hq as [[<- <-]|[Hne Hq]].
    + destruct (step_fh_of _ _ _ _ _ Hstep (mi_persistent _ _ Hinv) Hres Hfq)
        as [[_ Hpre]|(-> & _ & _)].
      * by apply (mi_unpublished _ _ Hinv t p fh o Ht (Hpre Hu)).
      * apply fresh_not_drawn. by apply (mi_named _ _ Hinv o).
    + by apply (mi_unpublished _ _ Hinv t2 q fh o).
  - apply lookup_insert_Some in Hq as [[<- <-]|[Hne Hq]]; [congruence|].
    assert (Hfp : fh_of p = Some fh) by (destruct p; simpl in *; done).
    apply Hne. by apply (mi_distinct _ _ Hinv t t2 p q fh).
Qed.

Lemma step_marking t2 todo ids id :
  <[t := p']> th !! t2 = Some (S_mark todo ids) -> id ∈ ids ->
  id ∈ todo \/ id ∈ sm_retired_objects s'.
Proof.
  intros Hq Hid. pose proof (step_retired _ _ _ _ Hstep) as Hr.
  apply lookup_insert_Some in Hq as [[<- Hq]|[Hne Hq]].
  - subst p'. destruct p; simpl in Hstep; repeat case_match; simplify_eq.
    destruct (mi_marking _ _ Hinv t _ _ Ht id Hid) as [Hi|?]; [|right; set_solver].
    apply elem_of_cons in Hi as [->|?]; [right; simpl; set_solver|by left].
  - destruct (mi_marking _ _ Hinv t2 _ _ Hq id Hid); [by left|right; set_solver].
Qed.

(** What another sweep may still see is excused or owned after this step too. *)
Lemma step_other_sweep t2 q ids fh o :
  t2 <> t -> th !! t2 = Some q -> sweeping q = Some ids ->
  sm_fh_to_object s' !! fh = Some o -> object_root o ∈ ids ->
  excuse q fh o \/ owned (<[t := p']> th) fh o.
Proof.
  intros Hne Hq Hs Hf Hr. destruct (mi_sweeping _ _ Hinv t2 q ids Hq Hs) as [Hids Hex].
  destruct (step_entries _ _ _ _ _ _ Hstep Hres Hf) as [Hold|Hown];
    [|right; by apply owned_insert].
  destruct (Hex fh o Hold Hr) as [He|Ho]; [by left|]. right.
  destruct (owned_update th t p p' fh o Ht Ho) as [Hp|]; [|done].
  destruct (step_owns _ _ _ _ fh o Hstep Hp) as [Hp'|Hret]; [|done| |].
  - intros o'. apply (mi_unpublished _ _ Hinv t p fh o' Ht).
  - by apply owned_insert.
  - unfold is_retired in Hret. bool_to_prop. set_solver.
Qed.

Lemma step_all_sweeps t2 q ids :
  <[t := p']> th !! t2 = Some q -> sweeping q = Some ids ->
  ids ⊆ sm_retired_objects s' /\
  forall fh o, sm_fh_to_object s' !! fh = Some o -> object_root o ∈ ids ->
    excuse q fh o \/ owned (<[t := p']> th) fh o.
Proof.
  intros Hq Hs. apply lookup_insert_Some in Hq as [[<- <-]|[Hne Hq]].
  - destruct (step_sweeping _ _ _ _ ids th Hstep Hs) as [Hsub Hex].
    + intros id. destruct p; try done. apply (mi_marking _ _ Hinv t _ _ Ht).
    + intros ids'. by apply (mi_sweeping _ _ Hinv t p).
    + split; [done|]. intros fh o Hf Hr. destruct (Hex fh o Hf Hr) as [?|Ho]; [by left|right].
      destruct (owned_update th t p p' fh o Ht Ho) as [Hp|]; [|done].
      exfalso. destruct p; simpl in *; repeat case_match; simplify_eq; done.
  - pose proof (step_retired _ _ _ _ Hstep) as Hr'.
    destruct (mi_sweeping _ _ Hinv t2 q ids Hq Hs) as [Hids _]. split; [set_solver|].
    intros fh o Hf Hr. by apply (step_other_sweep t2 q ids).
Qed.

Lemma mint_inv_step : mint_inv s' (<[t := p']> th).
Proof.
  pose proof (mi_next _ _ Hinv) as Hnx. destruct Hb as (Hb1 & Hb2 & Hb3). split.
  - done.
  - intros t2 o fh Hq. apply lookup_insert_Some in Hq as [[_ Hq]|[_ Hq]].
    + by apply (Hb3 o fh).
    + by apply (mi_reserve _ _ Hinv t2 o fh).
  - lia.
  - intros t2 q fh Hq Hf. apply lookup_insert_Some in Hq as [[_ <-]|[_ Hq]].
    + by apply step_drawn.
    + apply (drawn_mono s); [done|lia|]. by apply (mi_drawn _ _ Hinv t2 q).
  - intros o fh Ho. apply (drawn_mono s); [done|lia|].
    destruct (step_names _ _ _ _ _ _ Hstep Ho) as [Hold|[Hup _]].
    + by apply (mi_named _ _ Hinv o).
    + apply (mi_drawn _ _ Hinv t p); [done|]. destruct p; simpl in *; done.
  - intros t2 t3 q2 q3 fh Hq2 Hq3 Hf2 Hf3.
    apply lookup_insert_Some in Hq2 as [[<- <-]|[Hn2 Hq2]], Hq3 as [[<- <-]|[Hn3 Hq3]]; [done|..].
    + exfalso. by apply (step_distinct t3 q3 fh).
    + exfalso. by apply (step_distinct t2 q2 fh).
    + by apply (mi_distinct _ _ Hinv t2 t3 q2 q3 fh).
  - intros t2 q fh o. apply step_unpublished.
  - intros t2 todo ids Hq id. by apply (step_marking t2 todo ids id).
  - intros t2 q ids. apply step_all_sweeps.
Qed.
End one_step.

(** A new thread owns nothing and is not sweeping yet. *)
Lemma mint_inv_spawn s th t p :
  mint_inv s th -> th !! t = None -> fh_of p = None -> unpublished p = None ->
  sweeping p = None -> (forall o fh, p <> M_reserve o fh) ->
  (forall todo ids, p = S_mark todo ids -> forall id, id ∈ ids -> id ∈ todo) ->
  mint_inv s (<[t := p]> th).
Proof.
  intros Hi Ht Hf Hu Hsw Hr Hm. split; try apply Hi.
  - intros t2 o fh Hq. apply lookup_insert_Some in Hq as [[_ Hq]|[_ Hq]];
      [by apply (Hr o fh)|by apply (mi_reserve _ _ Hi t2 o fh)].
  - intros t2 q fh [[_ <-]|[_ Hq]]%lookup_insert_Some; [congruence|by apply (mi_drawn _ _ Hi t2)].
  - intros t2 t3 q2 q3 fh [[_ <-]|[_ H2]]%lookup_insert_Some [[_ <-]|[_ H3]]%lookup_insert_Some;
      [congruence..|]. by apply (mi_distinct _ _ Hi t2 t3 q2 q3).
  - intros t2 q fh o [[_ <-]|[_ Hq]]%lookup_insert_Some; [congruence|].
    by apply (mi_unpublished _ _ Hi t2).
  - intros t2 todo ids [[_ Hq]|[_ Hq]]%lookup_insert_Some id Hid.
    + left. by apply (Hm todo ids).
    + by apply (mi_marking _ _ Hi t2 todo ids).
  - intros t2 q ids [[_ <-]|[_ Hq]]%lookup_insert_Some Hs; [congruence|].
    destruct (mi_sweeping _ _ Hi t2 q ids Hq Hs) as [Hsub Hex]. split; [done|].
    intros fh o Hfo Hro. destruct (Hex fh o Hfo Hro) as [?|(t3 & q3 & H3 & Ho)]; [by left|right].
    exists t3, q3. rewrite lookup_insert_ne by congruence. done.
Qed.

(** Noticing one more mapping only adds excuses. *)
Lemma mint_inv_see s th t todo stale ids e :
  mint_inv s th -> th !! t = Some (S_scan todo stale ids) ->
  mint_inv s (<[t := S_scan todo (e :: stale) ids]> th).
Proof.
  intros Hi Ht. split; try apply Hi.
  - intros t2 o fh Hq. apply lookup_insert_Some in Hq as [[_ Hq]|[_ Hq]]; [done|].
    by apply (mi_reserve _ _ Hi t2 o fh).
  - intros t2 q fh [[_ <-]|[_ Hq]]%lookup_insert_Some; [done|by apply (mi_drawn _ _ Hi t2)].
  - intros t2 t3 q2 q3 fh [[_ <-]|[_ H2]]%lookup_insert_Some [[_ <-]|[_ H3]]%lookup_insert_Some;
      [done..|]. by apply (mi_distinct _ _ Hi t2 t3 q2 q3).
  - intros t2 q fh o [[_ <-]|[_ Hq]]%lookup_insert_Some; [done|].
    by apply (mi_unpublished _ _ Hi t2).
  - intros t2 todo' ids' [[_ Hq]|[_ Hq]]%lookup_insert_Some id Hid; [done|].
    by apply (mi_marking _ _ Hi t2 todo' ids').
  - intros t2 q ids' Hq Hs.
    assert (Hex : exists q0, th !! t2 = Some q0 /\ sweeping q0 = Some ids' /\
              forall fh o, excuse q0 fh o -> excuse q fh o).
    { apply lookup_insert_Some in Hq as [[<- <-]|[_ Hq]]; [|by exists q].
      eexists. split; [exact Ht|]. split; [done|]. simpl. setoid_rewrite elem_of_cons. tauto. }
    destruct Hex as (q0 & Hq0 & Hs0 & Hmono).
    destruct (mi_sweeping _ _ Hi t2 q0 ids' Hq0 Hs0) as [Hsub Hex]. split; [done|].
    intros fh o Hfo Hro. destruct (Hex fh o Hfo Hro) as [?|Ho]; [by left; apply Hmono|right].
    by destruct (owned_update th t _ (S_scan todo (e :: stale) ids) fh o Ht Ho).
Qed.

Lemma boot_run_inv s th : boot_run s th -> mint_inv s th.
Proof.
  induction 1 as [cfg rng secs nanos|s th t o Hr IH Hn|s th t ids Hr IH Hn
                 |s th t p p' s' Hr IH Ht Hst Hroom|s th t todo stale ids fh o Hr IH Ht Hf Hb].
  - split; simpl; intros *; by rewrite ?lookup_empty.
  - by apply mint_inv_spawn.
  - apply mint_inv_spawn; try done. intros todo ids' [= <- <-] id Hid. by apply elem_of_elements.
  - by apply (mint_inv_step s s' th t p p').
  - by apply mint_inv_see.
Qed.

(** C40. Without persistent encodings no filehandle outlives a retirement: in
    any interleaving of any number of mints and retirements, once a retirement
    of some objects has finished its filehandle pass and no mint is running any
    more, no handle in the table names any of those objects or a named
    attribute of one; while mints are still running, each such mapping belongs
    to one that has yet to re-check it. *)
Theorem boot_mint_safe s th t ids :
  boot_run s th -> th !! t = Some (S_done ids) ->
  (forall fh o, sm_fh_to_object s !! fh = Some o -> object_root o ∈ ids -> owned th fh o) /\
  ((forall t' p, th !! t' = Some p -> fh_of p = None) ->
   forall fh o, sm_fh_to_object s !! fh = Some o -> object_root o ∉ ids).
Proof.
  intros Hr Ht. pose proof (boot_run_inv s th Hr) as Hi.
  destruct (mi_sweeping _ _ Hi t (S_done ids) ids Ht eq_refl) as [_ Hex].
  assert (Hown : forall fh o, sm_fh_to_object s !! fh = Some o -> object_root o ∈ ids -> owned th fh o).
  { intros fh o Hf Hid. by destruct (Hex fh o Hf Hid). }
  split; [done|]. intros Hquiet fh o Hf Hid.
  destruct (Hown fh o Hf Hid) as (t' & p & Hp & Ho). specialize (Hquiet t' p Hp).
  by destruct p.
Qed.

(** ** Concrete instances *)

Lemma run_threads_boot sched s th :
  boot_run s th -> sm_next_fh s + Z.of_nat (length sched) < u64_max ->
  boot_run (run_threads sched s th).1 (run_threads sched s th).2.
Proof.
  revert s th. induction sched as [|t rest IH]; intros s th Hr Hn; [done|].
  cbn [run_threads]. simpl length in Hn. destruct (th !! t) as [p|] eqn:E; [|apply IH; [done|lia]].
  destruct (pc_step p s) as [p' s'] eqn:Ep.
  pose proof (mi_next _ _ (boot_run_inv _ _ Hr)).
  apply IH; [apply (boot_run_thread s th t p); [done..|lia]|].
  pose proof (step_next _ _ _ _ Ep). lia.
Qed.

(** One mint of object 1 passes its first check; the retirement marks, sweeps
    and finishes; the mint then publishes, notices, and backs out. *)
Definition safe_threads : gmap nat pc :=
  <[1%nat := S_mark (elements ({[1]} : gset Z)) {[1]}]> (<[0%nat := M_start (Fs 1)]> ∅).
Definition safe_schedule : list nat :=
  [0; 0; 0; 1; 1; 1; 1; 1; 1; 1; 1; 0; 0; 0; 0; 0; 0]%nat.
Definition safe_end : StateManager * gmap nat pc :=
  run_threads safe_schedule example_boot safe_threads.

Lemma boot_mint_safe_witness :
  safe_end.2 !! 0%nat = Some (M_done None) /\
  forall fh o, sm_fh_to_object safe_end.1 !! fh = Some o -> object_root o ∉ ({[1]} : gset Z).
Proof.
  split; [vm_compute; reflexivity|].
  apply (boot_mint_safe safe_end.1 safe_end.2 1%nat {[1]}).
  - apply run_threads_boot; [|vm_compute; reflexivity]. unfold safe_threads.
    apply boot_run_spawn_retire; [|reflexivity]. apply boot_run_spawn_mint; [|reflexivity].
    apply boot_run_boot.
  - vm_compute. reflexivity.
  - intros t p. replace safe_end.2 with
      (<[1%nat := S_done {[1]}]> (<[0%nat := M_done None]> (∅ : gmap nat pc)))
      by (vm_compute; reflexivity).
    intros [[_ <-]|[_ Hp]]%lookup_insert_Some; [reflexivity|].
    apply lookup_insert_Some in Hp as [[_ <-]|[_ Hp]]; [reflexivity|].
    by rewrite lookup_empty in Hp.
Defined.
