(* ===== verification/MemFs.v ===== *)
(** * The in-memory filesystem (memfs/)

    The reference backend: inodes in one table, directories as name tables,
    hard links as several names of one inode.  Each operation runs under the
    table's lock, so it is one function of the state; the two counters are
    atomics and belong to the state as well.

    [now : nat -> Timestamp] are the readings [Timestamp::now] gives during
    one operation, in the order the operation takes them.  [usize] is 64 bits
    wide, so [usize::try_from(u64)] succeeds. *)

From stdpp Require Import base gmap list sets strings numbers sorting.
From Stdlib Require Import ZArith Lia.
From S2P Require Import Prelude Xdr Rpc Types StateModel FsApi.

Local Open Scope Z_scope.

Definition Clock : Type := nat -> Timestamp.

(** ** State *)

Inductive InodeData :=
| D_File (data : bytes)
| D_Directory (entries : gmap bytes Z)
| D_Symlink (target : bytes).

Record Inode := mkInode {
  nd_attrs : Attrs;
  nd_parent : option Z;
  nd_data : InodeData;
  nd_xattrs : gmap bytes bytes;
}.
Definition set_nd_attrs (v : Attrs) (r : Inode) : Inode :=
  mkInode v (nd_parent r) (nd_data r) (nd_xattrs r).
Definition set_nd_parent (v : option Z) (r : Inode) : Inode :=
  mkInode (nd_attrs r) v (nd_data r) (nd_xattrs r).
Definition set_nd_data (v : InodeData) (r : Inode) : Inode :=
  mkInode (nd_attrs r) (nd_parent r) v (nd_xattrs r).
Definition set_nd_xattrs (v : gmap bytes bytes) (r : Inode) : Inode :=
  mkInode (nd_attrs r) (nd_parent r) (nd_data r) v.
Definition with_attrs (f : Attrs -> Attrs) (r : Inode) : Inode := set_nd_attrs (f (nd_attrs r)) r.

Record MemFs := mkMemFs {
  mf_inodes : gmap Z Inode;
  mf_next_id : Z;
  mf_next_change : Z;
}.
Definition set_mf_inodes (v : gmap Z Inode) (r : MemFs) : MemFs :=
  mkMemFs v (mf_next_id r) (mf_next_change r).

Definition MAX_FILE_BYTES : Z := 67108864.

(** [MemFs::new] *)
Definition MemFs_new (now : Timestamp) : MemFs :=
  mkMemFs {[ 1 := mkInode (set_at_mode 511 (Attrs_new now OT_Directory 1)) None (D_Directory ∅) ∅ ]}
    2 2.

(** ** Helpers (memfs/helpers.rs) *)

Definition next_id (fs : MemFs) : Z * MemFs :=
  (mf_next_id fs, mkMemFs (mf_inodes fs) (u64_wrap (mf_next_id fs + 1)) (mf_next_change fs)).
Definition next_change (fs : MemFs) : Z * MemFs :=
  (mf_next_change fs, mkMemFs (mf_inodes fs) (mf_next_id fs) (u64_wrap (mf_next_change fs + 1))).

Definition checked_file_len (len : Z) : result FsError nat :=
  if MAX_FILE_BYTES <? len then Err Fs_FileTooLarge else Ok (Z.to_nat len).

Definition checked_write_range (offset : Z) (len : nat) : result FsError (nat * nat) :=
  let end_ := offset + Z.of_nat len in
  if u64_max <? end_ then Err Fs_FileTooLarge else
  o ← checked_file_len offset;
  e ← checked_file_len end_;
  Ok (o, e).

Definition touch_change (now : Timestamp) (attrs : Attrs) (fs : MemFs) : Attrs * MemFs :=
  let '(c, fs) := next_change fs in
  (set_at_ctime now (set_at_change c attrs), fs).

Definition touch_data_change (now : Timestamp) (attrs : Attrs) (fs : MemFs) : Attrs * MemFs :=
  let '(c, fs) := next_change fs in
  (set_at_ctime now (set_at_mtime now (set_at_change c attrs)), fs).

Definition apply_set_time (now : Timestamp) (value : SetTime) : Timestamp :=
  match value with ServerNow => now | Client ts => ts end.

Definition apply_create_owner (attrs : Attrs) (ctx : RequestContext) : Attrs :=
  match rc_auth ctx with
  | Auth_Sys uid gid _ => set_at_gid gid (set_at_uid uid attrs)
  | _ => attrs
  end.

(** [if let Some(v) = field { inode.attrs.field = ..v.. }] *)
Definition set_opt {A} (v : option A) (set : A -> Attrs -> Attrs) (attrs : Attrs) : Attrs :=
  match v with Some a => set a attrs | None => attrs end.

(** The size update comes first and is the only one that can fail, so a
    failed call has changed nothing. *)
Definition resize_inode (size : option Z) (inode : Inode) : result FsError Inode :=
  match size with
  | None => Ok inode
  | Some size =>
    match nd_data inode with
    | D_File data =>
      len ← checked_file_len size;
      Ok (with_attrs (fun a => set_at_space_used size (set_at_size size a))
            (set_nd_data (D_File (resize len 0 data)) inode))
    | _ => Err Fs_InvalidInput
    end
  end.

Definition set_fields (now : Clock) (attrs : SetAttrs) (a : Attrs) : Attrs :=
  let a := set_opt (sa_mode attrs) (fun m => set_at_mode (Z.land m 4095)) a in
  let a := set_opt (sa_uid attrs) set_at_uid a in
  let a := set_opt (sa_gid attrs) set_at_gid a in
  let a := set_opt (sa_archive attrs) set_at_archive a in
  let a := set_opt (sa_hidden attrs) set_at_hidden a in
  let a := set_opt (sa_system attrs) set_at_system a in
  let a := set_opt (sa_atime attrs) (fun t => set_at_atime (apply_set_time (now 0%nat) t)) a in
  let a := set_opt (sa_mtime attrs) (fun t => set_at_mtime (apply_set_time (now 1%nat) t)) a in
  set_opt (sa_birthtime attrs) (fun t => set_at_birthtime (apply_set_time (now 2%nat) t)) a.

Definition apply_setattrs (now : Clock) (attrs : SetAttrs) (inode : Inode) (fs : MemFs)
    : result FsError Inode * MemFs :=
  match resize_inode (sa_size attrs) inode with
  | Err e => (Err e, fs)
  | Ok inode =>
    let a := set_fields now attrs (nd_attrs inode) in
    let changed := negb (SetAttrs_is_empty attrs) in
    let data_changed := negb (is_none (sa_size attrs)) in
    let explicit_mtime := negb (is_none (sa_mtime attrs)) in
    if changed then
      let t := now 3%nat in
      let '(c, fs) := next_change fs in
      let a := set_at_ctime t (set_at_change c a) in
      let a := if data_changed && negb explicit_mtime then set_at_mtime t a else a in
      (Ok (set_nd_attrs a inode), fs)
    else (Ok (set_nd_attrs a inode), fs)
  end.

Definition is_directory (inode : Inode) : bool :=
  bool_decide (at_object_type (nd_attrs inode) = OT_Directory).

(** [match &inode.data { InodeData::Directory(entries) => Some(entries), .. }] *)
Definition dir_entries (inode : Inode) : option (gmap bytes Z) :=
  match nd_data inode with D_Directory entries => Some entries | _ => None end.

Section with_order.
Context {ho : HashOrder}.

Definition reset_link_count (inode : Inode) : Inode :=
  with_attrs (set_at_link_count (if is_directory inode then 2 else 0)) inode.

Definition bump_link_count (inode : Inode) : Inode :=
  with_attrs (fun a => set_at_link_count (u32_wrap (at_link_count a + 1)) a) inode.

Definition count_entry (dir_id : Z) (inodes : gmap Z Inode) (child_id : Z) : gmap Z Inode :=
  match inodes !! child_id with
  | Some child =>
    if is_directory child then alter bump_link_count dir_id inodes
    else alter bump_link_count child_id inodes
  | None => inodes
  end.

Definition count_directory (inodes : gmap Z Inode) (dir_id : Z) : gmap Z Inode :=
  match inodes !! dir_id ≫= dir_entries with
  | Some entries => foldl (count_entry dir_id) inodes (hm_iter entries).*2
  | None => inodes
  end.

Definition recompute_link_counts (inodes : gmap Z Inode) : gmap Z Inode :=
  let inodes := reset_link_count <$> inodes in
  let directory_ids := hm_select (fun _ inode => negb (is_none (dir_entries inode))) inodes in
  foldl count_directory inodes directory_ids.

Definition remove_if_unlinked (inodes : gmap Z Inode) (inode_id : Z) : gmap Z Inode :=
  let should_remove :=
    match inodes !! inode_id with
    | Some inode =>
      if is_directory inode then true
      else negb (hm_any (fun _ candidate =>
        match nd_data candidate with
        | D_Directory entries => hm_any (fun _ id => id =? inode_id) entries
        | _ => false
        end) inodes)
    | None => false
    end in
  if should_remove then delete inode_id inodes else inodes.

(** The [while] loop of [directory_descends_from]; [remaining] is the
    source's own bound. *)
Fixpoint descends_loop (inodes : gmap Z Inode) (remaining : nat) (current : option Z)
    (ancestor_id : Z) : bool :=
  match current with
  | None => false
  | Some id =>
    if id =? ancestor_id then true else
    match remaining with
    | O => false
    | S remaining =>
      let next := inode ← inodes !! id; if is_directory inode then nd_parent inode else None in
      descends_loop inodes remaining next ancestor_id
    end
  end.

Definition directory_descends_from (inodes : gmap Z Inode) (descendant_id ancestor_id : Z) : bool :=
  descends_loop inodes (size inodes) (Some descendant_id) ancestor_id.

Definition update_has_named_attrs (inode : Inode) : Inode :=
  with_attrs (set_at_has_named_attrs (negb (bool_decide (nd_xattrs inode = ∅)))) inode.

(** ** Reading operations (memfs/core.rs) *)

Definition root : Z := 1.

Definition capabilities : FsCapabilities := mkFsCapabilities true true true true true true.

Definition limits : FsLimits :=
  mkFsLimits (fl_max_name_bytes FsLimits_default) (fl_max_read FsLimits_default)
    (fl_max_write FsLimits_default) MAX_FILE_BYTES.

Definition saturating_add (a b : Z) : Z := Z.min (a + b) u64_max.
Definition saturating_sub (a b : Z) : Z := Z.max (a - b) 0.

Definition statfs (handle : Z) (fs : MemFs) : result FsError FsStats :=
  _ ← ok_or (mf_inodes fs !! handle) Fs_Stale;
  let used_bytes := foldl (fun total (e : Z * Inode) =>
    saturating_add total (at_space_used (nd_attrs e.2))) 0 (hm_iter (mf_inodes fs)) in
  let total_files := 1048576 in
  let used_files := Z.of_nat (size (mf_inodes fs)) in
  Ok (mkFsStats 1073741824 (saturating_sub 1073741824 used_bytes)
        (saturating_sub 1073741824 used_bytes) total_files
        (saturating_sub total_files used_files) (saturating_sub total_files used_files)).

Definition getattr (handle : Z) (fs : MemFs) : result FsError Attrs :=
  inode ← ok_or (mf_inodes fs !! handle) Fs_Stale;
  Ok (nd_attrs inode).

Definition access (handle requested : Z) (fs : MemFs) : result FsError Z :=
  _ ← ok_or (mf_inodes fs !! handle) Fs_Stale;
  Ok requested.

Definition lookup_name (parent : Z) (name : bytes) (fs : MemFs) : result FsError Z :=
  inode ← ok_or (mf_inodes fs !! parent) Fs_Stale;
  match nd_data inode with
  | D_Directory entries => ok_or (entries !! name) Fs_NotFound
  | _ => Err Fs_NotDirectory
  end.

Definition parent_of_dir (dir : Z) (fs : MemFs) : result FsError (option Z) :=
  inode ← ok_or (mf_inodes fs !! dir) Fs_Stale;
  if is_directory inode then Ok (nd_parent inode) else Err Fs_NotDirectory.

Definition name_le (a b : bytes * Z) : Prop := bytes_le a.1 b.1.
#[export] Instance name_le_dec a b : Decision (name_le a b).
Proof. unfold name_le. apply _. Defined.

Definition sorted_names (entries : gmap bytes Z) : list (bytes * Z) :=
  merge_sort name_le (hm_iter entries).

(** The loop that fills a page; [cookie] is the first entry's. *)
Fixpoint fill_page (inodes : gmap Z Inode) (with_attrs : bool) (cookie : Z)
    (names : list (bytes * Z)) : result FsError (list (DirEntry Z)) :=
  match names with
  | [] => Ok []
  | (name, child) :: names =>
    child_inode ← ok_or (inodes !! child) Fs_Stale;
    page ← fill_page inodes with_attrs (cookie + 1) names;
    Ok (mkDirEntry name child cookie (if with_attrs then Some (nd_attrs child_inode) else None)
          :: page)
  end.

Definition readdir (dir cookie max_entries : Z) (with_attrs : bool) (fs : MemFs)
    : result FsError (DirPage Z) :=
  inode ← ok_or (mf_inodes fs !! dir) Fs_Stale;
  match nd_data inode with
  | D_Directory entries =>
    let names := sorted_names entries in
    let start := if cookie =? 0 then 0 else saturating_sub cookie 2 in
    let rest := drop (Z.to_nat start) names in
    let rest := if max_entries =? 0 then rest else take (Z.to_nat max_entries) rest in
    page ← fill_page (mf_inodes fs) with_attrs (start + 3) rest;
    Ok (mkDirPage page (Z.of_nat (size entries) <=? start + Z.of_nat (length page)))
  | _ => Err Fs_NotDirectory
  end.

Definition read (handle offset count : Z) (fs : MemFs) : result FsError ReadResult :=
  inode ← ok_or (mf_inodes fs !! handle) Fs_Stale;
  match nd_data inode with
  | D_File data =>
    if zlen data <=? offset then Ok (mkReadResult [] true) else
    let end_ := Z.min (saturating_add offset count) (zlen data) in
    Ok (mkReadResult (take (Z.to_nat (end_ - offset)) (drop (Z.to_nat offset) data))
          (end_ =? zlen data))
  | _ => Err Fs_InvalidInput
  end.

(** ** Modifying operations *)

Definition put_inode (id : Z) (inode : Inode) (fs : MemFs) : MemFs :=
  set_mf_inodes (<[id := inode]> (mf_inodes fs)) fs.

Definition write (now : Clock) (handle offset : Z) (data : bytes) (fs : MemFs)
    : result FsError WriteResult * MemFs :=
  match mf_inodes fs !! handle with
  | None => (Err Fs_Stale, fs)
  | Some inode =>
    match nd_data inode with
    | D_File file =>
      match checked_write_range offset (length data) with
      | Err e => (Err e, fs)
      | Ok (offset, end_) =>
        let file := if (length file <? end_)%nat then resize end_ 0 file else file in
        let file := take offset file ++ data ++ drop end_ file in
        let a := set_at_size (zlen file) (nd_attrs inode) in
        let a := set_at_space_used (at_size a) a in
        let '(a, fs) := touch_data_change (now 0%nat) a fs in
        (Ok (mkWriteResult (u32_wrap (zlen data)) FileSync),
         put_inode handle (set_nd_attrs a (set_nd_data (D_File file) inode)) fs)
      end
    | _ => (Err Fs_InvalidInput, fs)
    end
  end.

(** The edit of a directory shared by the operations that change names: the
    name table, then [touch_change], then the modification time; [k] is the
    number of the first clock reading. *)
Definition edit_directory (now : Clock) (k : nat) (f : gmap bytes Z -> gmap bytes Z)
    (dir : Z) (fs : MemFs) : MemFs :=
  match mf_inodes fs !! dir with
  | Some inode =>
    let inode := match nd_data inode with
                 | D_Directory entries => set_nd_data (D_Directory (f entries)) inode
                 | _ => inode
                 end in
    let '(a, fs) := touch_change (now k) (nd_attrs inode) fs in
    put_inode dir (set_nd_attrs (set_at_mtime (now (S k)) a) inode) fs
  | None => fs
  end.

Definition relink (fs : MemFs) : MemFs :=
  set_mf_inodes (recompute_link_counts (mf_inodes fs)) fs.

(** The end of [create] and [create_symlink]: name the new inode, store it,
    recount, report its attributes. *)
Definition insert_child (now : Clock) (k : nat) (parent : Z) (name : bytes) (new_id : Z)
    (inode : Inode) (fs : MemFs) : result FsError (CreateResult Z) * MemFs :=
  match mf_inodes fs !! parent with
  | None => (Err Fs_Stale, fs)
  | Some parent_inode =>
    match nd_data parent_inode with
    | D_Directory _ =>
      let fs := edit_directory now k (<[name := new_id]>) parent fs in
      let fs := relink (put_inode new_id inode fs) in
      match mf_inodes fs !! new_id with
      | Some inode => (Ok (mkCreateResult new_id (nd_attrs inode)), fs)
      | None => (Err Fs_ServerFault, fs)
      end
    | _ => (Err Fs_NotDirectory, fs)
    end
  end.

Definition create (now : Clock) (ctx : RequestContext) (parent : Z) (name : bytes)
    (req : CreateRequest) (fs : MemFs) : result FsError (CreateResult Z) * MemFs :=
  let '(new_id, fs) := next_id fs in
  match mf_inodes fs !! parent with
  | None => (Err Fs_Stale, fs)
  | Some parent_inode =>
    if negb (is_directory parent_inode) then (Err Fs_NotDirectory, fs) else
    if match nd_data parent_inode with
       | D_Directory entries => bool_decide (is_Some (entries !! name))
       | _ => false
       end then (Err Fs_AlreadyExists, fs) else
    let attrs := Attrs_new (now 0%nat)
      (match cr_kind req with CK_File => OT_File | CK_Directory => OT_Directory end) new_id in
    let inode := mkInode (apply_create_owner attrs ctx) (Some parent)
      (match cr_kind req with CK_File => D_File [] | CK_Directory => D_Directory ∅ end) ∅ in
    match apply_setattrs (fun n => now (1 + n)%nat) (cr_attrs req) inode fs with
    | (Err e, fs) => (Err e, fs)
    | (Ok inode, fs) => insert_child now 5 parent name new_id inode fs
    end
  end.

Definition create_symlink (now : Clock) (ctx : RequestContext) (parent : Z) (name target : bytes)
    (attrs : SetAttrs) (fs : MemFs) : result FsError (CreateResult Z) * MemFs :=
  let '(new_id, fs) := next_id fs in
  match mf_inodes fs !! parent with
  | None => (Err Fs_Stale, fs)
  | Some parent_inode =>
    match nd_data parent_inode with
    | D_Directory entries =>
      if bool_decide (is_Some (entries !! name)) then (Err Fs_AlreadyExists, fs) else
      let set_len := fun a => set_at_space_used (zlen target) (set_at_size (zlen target) a) in
      let a := apply_create_owner (Attrs_new (now 0%nat) OT_Symlink new_id) ctx in
      let inode := mkInode (set_len a) (Some parent) (D_Symlink target) ∅ in
      match apply_setattrs (fun n => now (1 + n)%nat) attrs inode fs with
      | (Err e, fs) => (Err e, fs)
      | (Ok inode, fs) => insert_child now 5 parent name new_id (with_attrs set_len inode) fs
      end
    | _ => (Err Fs_NotDirectory, fs)
    end
  end.

Definition readlink (handle : Z) (fs : MemFs) : result FsError bytes :=
  inode ← ok_or (mf_inodes fs !! handle) Fs_Stale;
  match nd_data inode with
  | D_Symlink target => Ok target
  | _ => Err Fs_InvalidInput
  end.

(** [child.data] is a directory with entries *)
Definition nonempty_directory (inode : Inode) : bool :=
  match nd_data inode with
  | D_Directory entries => negb (bool_decide (entries = ∅))
  | _ => false
  end.

Definition remove (now : Clock) (parent : Z) (name : bytes) (fs : MemFs)
    : result FsError unit * MemFs :=
  match lookup_name parent name fs with
  | Err e => (Err e, fs)
  | Ok child_id =>
    if match mf_inodes fs !! child_id with
       | Some child => nonempty_directory child
       | None => false
       end then (Err Fs_NotEmpty, fs) else
    let fs := edit_directory now 0 (delete name) parent fs in
    let fs := set_mf_inodes (remove_if_unlinked (mf_inodes fs) child_id) fs in
    (Ok tt, relink fs)
  end.

(** [rename]'s check of the entry it would replace. *)
Definition replace_check (child_type : ObjectType) (replaced_inode : Inode) : result FsError unit :=
  match child_type, at_object_type (nd_attrs replaced_inode) with
  | OT_Directory, OT_Directory =>
    if nonempty_directory replaced_inode then Err Fs_NotEmpty else Ok tt
  | OT_Directory, _ => Err Fs_NotDirectory
  | _, OT_Directory => Err Fs_IsDirectory
  | _, _ => Ok tt
  end.

(** [rename] up to its first write: the child, and the entry it replaces.
    [Ok (child, None)] is the early return for a name of the child itself. *)
Definition rename_check (from_dir : Z) (from_name : bytes) (to_dir : Z) (to_name : bytes)
    (fs : MemFs) : result FsError (Z * option (option Z)) :=
  child_id ← lookup_name from_dir from_name fs;
  child ← ok_or (mf_inodes fs !! child_id) Fs_Stale;
  let child_type := at_object_type (nd_attrs child) in
  if is_directory child && directory_descends_from (mf_inodes fs) to_dir child_id
  then Err Fs_InvalidInput else
  target ← ok_or (mf_inodes fs !! to_dir) Fs_Stale;
  replaced ← match nd_data target with
             | D_Directory entries => Ok (entries !! to_name)
             | _ => Err Fs_NotDirectory
             end;
  if bool_decide (replaced = Some child_id) then Ok (child_id, None) else
  _ ← match replaced with
      | Some replaced_id =>
        replaced_inode ← ok_or (mf_inodes fs !! replaced_id) Fs_Stale;
        replace_check child_type replaced_inode
      | None => Ok tt
      end;
  Ok (child_id, Some replaced).

(** [rename]'s writes. *)
Definition rename_apply (now : Clock) (from_dir : Z) (from_name : bytes) (to_dir : Z)
    (to_name : bytes) (child_id : Z) (replaced : option Z) (fs : MemFs) : MemFs :=
  let fs :=
    if from_dir =? to_dir then
      edit_directory now 0 (fun entries => <[to_name := child_id]> (delete from_name entries))
        from_dir fs
    else
      let fs := edit_directory now 0 (delete from_name) from_dir fs in
      edit_directory now 2 (<[to_name := child_id]>) to_dir fs in
  let inodes :=
    match mf_inodes fs !! child_id with
    | Some child_inode =>
      if is_directory child_inode && negb (from_dir =? to_dir)
      then <[child_id := set_nd_parent (Some to_dir) child_inode]> (mf_inodes fs)
      else mf_inodes fs
    | None => mf_inodes fs
    end in
  let inodes := match replaced with
                | Some replaced_id => remove_if_unlinked inodes replaced_id
                | None => inodes
                end in
  relink (set_mf_inodes inodes fs).

Definition rename (now : Clock) (from_dir : Z) (from_name : bytes) (to_dir : Z) (to_name : bytes)
    (fs : MemFs) : result FsError unit * MemFs :=
  match rename_check from_dir from_name to_dir to_name fs with
  | Err e => (Err e, fs)
  | Ok (_, None) => (Ok tt, fs)
  | Ok (child_id, Some replaced) =>
    (Ok tt, rename_apply now from_dir from_name to_dir to_name child_id replaced fs)
  end.

Definition link (now : Clock) (source parent : Z) (name : bytes) (fs : MemFs)
    : result FsError unit * MemFs :=
  match mf_inodes fs !! source with
  | None => (Err Fs_Stale, fs)
  | Some source_inode =>
    if is_directory source_inode then (Err Fs_IsDirectory, fs) else
    match mf_inodes fs !! parent with
    | None => (Err Fs_Stale, fs)
    | Some parent_inode =>
      match nd_data parent_inode with
      | D_Directory entries =>
        if bool_decide (is_Some (entries !! name)) then (Err Fs_AlreadyExists, fs) else
        (Ok tt, relink (edit_directory now 0 (<[name := source]>) parent fs))
      | _ => (Err Fs_NotDirectory, fs)
      end
    end
  end.

Definition setattr (now : Clock) (handle : Z) (attrs : SetAttrs) (fs : MemFs)
    : result FsError Attrs * MemFs :=
  match mf_inodes fs !! handle with
  | None => (Err Fs_Stale, fs)
  | Some inode =>
    match apply_setattrs now attrs inode fs with
    | (Err e, fs) => (Err e, fs)
    | (Ok inode, fs) => (Ok (nd_attrs inode), put_inode handle inode fs)
    end
  end.

(** ** Extended attributes and commit *)

Definition list_xattrs (handle : Z) (fs : MemFs) : result FsError (list bytes) :=
  inode ← ok_or (mf_inodes fs !! handle) Fs_Stale;
  Ok (merge_sort bytes_le (hm_iter (nd_xattrs inode)).*1).

Definition get_xattr (handle : Z) (name : bytes) (fs : MemFs) : result FsError bytes :=
  inode ← ok_or (mf_inodes fs !! handle) Fs_Stale;
  ok_or (nd_xattrs inode !! name) Fs_NotFound.

Definition set_xattr (now : Clock) (handle : Z) (name value : bytes) (mode : XattrSetMode)
    (fs : MemFs) : result FsError unit * MemFs :=
  match mf_inodes fs !! handle with
  | None => (Err Fs_Stale, fs)
  | Some inode =>
    let exists_ := bool_decide (is_Some (nd_xattrs inode !! name)) in
    match mode, exists_ with
    | CreateOnly, true => (Err Fs_AlreadyExists, fs)
    | ReplaceOnly, false => (Err Fs_NotFound, fs)
    | _, _ =>
      let inode := update_has_named_attrs (set_nd_xattrs (<[name := value]> (nd_xattrs inode)) inode) in
      let '(a, fs) := touch_data_change (now 0%nat) (nd_attrs inode) fs in
      (Ok tt, put_inode handle (set_nd_attrs a inode) fs)
    end
  end.

Definition remove_xattr (now : Clock) (handle : Z) (name : bytes) (fs : MemFs)
    : result FsError unit * MemFs :=
  match mf_inodes fs !! handle with
  | None => (Err Fs_Stale, fs)
  | Some inode =>
    match nd_xattrs inode !! name with
    | None => (Err Fs_NotFound, fs)
    | Some _ =>
      let inode := update_has_named_attrs (set_nd_xattrs (delete name (nd_xattrs inode)) inode) in
      let '(a, fs) := touch_change (now 0%nat) (nd_attrs inode) fs in
      (Ok tt, put_inode handle (set_nd_attrs a inode) fs)
    end
  end.

Definition commit (handle : Z) (fs : MemFs) : result FsError unit :=
  if bool_decide (is_Some (mf_inodes fs !! handle)) then Ok tt else Err Fs_Stale.
End with_order.
