(* ===== verification/MemFsBackend.v ===== *)
(** * The in-memory filesystem as a backend (crates/embednfs/src/memfs/core.rs)

    The [FileSystem] implementation of [MemFs], from its operations in [MemFs].
    Every operation that changes the filesystem reads the wall clock as often as
    it needs; [mb_clock] has its readings call by call. *)

From stdpp Require Import base gmap list sets strings numbers.
From Stdlib Require Import ZArith Lia.
From S2P Require Import Prelude Xdr Rpc Types StateModel FsApi MemFs.

Local Open Scope Z_scope.

Record Backend := mkBackend {
  mb_fs : MemFs;
  mb_clock : nat -> Clock;
  mb_calls : nat;
}.

Definition pure_op {A} (f : MemFs -> result FsError A) : fs_op Backend A :=
  fun b => (f (mb_fs b), b).
Definition clock_op {A} (f : Clock -> MemFs -> result FsError A * MemFs) : fs_op Backend A :=
  fun b => let '(r, fs) := f (mb_clock b (mb_calls b)) (mb_fs b) in
           (r, mkBackend fs (mb_clock b) (S (mb_calls b))).

Section memfs.
Context {ho : HashOrder}.

Definition memfs_xattrs : Xattrs Z Backend :=
  mkXattrs (fun _ h => pure_op (list_xattrs h)) (fun _ h n => pure_op (get_xattr h n))
    (fun _ h n v m => clock_op (fun now => set_xattr now h n v m))
    (fun _ h n => clock_op (fun now => remove_xattr now h n)).
Definition memfs_symlinks : Symlinks Z Backend :=
  mkSymlinks (fun ctx d n t a => clock_op (fun now => create_symlink now ctx d n t a))
    (fun _ h => pure_op (readlink h)).
Definition memfs_hard_links : HardLinks Z Backend :=
  mkHardLinks (fun _ s d n => clock_op (fun now => link now s d n)).
Definition memfs_commit : CommitSupport Z Backend :=
  mkCommitSupport (fun _ h _ _ => pure_op (commit h)).

Definition memfs : FileSystem Z Backend := mkFileSystem
  (fun _ => root) (fun _ => capabilities) (fun _ => limits)
  (fun _ h => pure_op (statfs h))
  (fun _ h => pure_op (getattr h))
  (fun _ h r => pure_op (access h r))
  (fun _ d n => pure_op (lookup_name d n))
  (fun _ d => pure_op (parent_of_dir d))
  (fun _ d c m a => pure_op (readdir d c m a))
  (fun _ h o c => pure_op (read h o c))
  (fun _ h o d _ => clock_op (fun now => write now h o d))
  (fun ctx d n r => clock_op (fun now => create now ctx d n r))
  (fun _ d n => clock_op (fun now => remove now d n))
  (fun _ d1 n1 d2 n2 => clock_op (fun now => rename now d1 n1 d2 n2))
  (fun _ h a => clock_op (fun now => setattr now h a))
  (Some memfs_xattrs) (Some memfs_symlinks) (Some memfs_hard_links) (Some memfs_commit) None None.
End memfs.

(** A new filesystem on a stopped clock. *)
Definition example_clock : nat -> Clock := fun _ _ => mkTimestamp 1000 0.
Definition example_backend : Backend := mkBackend (MemFs_new (mkTimestamp 1000 0)) example_clock 0.
