(* ===== verification/Interleaving.v ===== *)
(** * Every interleaving of the server's tasks

    RPC messages, connections that come and go, and the calls of the embedding
    program ([NfsServerControl]) run as tasks of one pool, in any order and
    interleaved step by step.  Whatever they do, the state manager is in a state
    its step relation reaches, so the theorems of [StateMachine] and [Sessions]
    hold of the running server, and the object registry is a bijection that no
    fenced handle is part of. *)

From stdpp Require Import base gmap list sets strings numbers.
From Stdlib Require Import ZArith Lia.
From S2P Require Import Prelude Xdr Rpc Types Constants StateModel Operations Codec CodecProps FsApi Metadata.
From S2P Require Import Clients Delegations Invalidate AttrCodec StateMachine Sessions Server Pool ServerFs.
From S2P Require Import OpsDelegation Compound Records Transport Replies Tasks MemFsBackend.

Local Open Scope Z_scope.
Local Open Scope proc_scope.

Section interleaving.
Context {H B : Type} `{Countable H} (srv : NfsServer H B).
Abbreviation W := (Server H B).

Definition detached {A} (m : proc W A) : proc W (option bytes) := let* _ := m in Ret None.

(** What runs on a server: an RPC message, under its own bytes, and tasks that
    send no reply.  Each may see the hash tables in an order of its own. *)
Inductive server_task : option bytes -> proc W (option bytes) -> Prop :=
| rpc_task {ho : HashOrder} data connection_id :
    bytes_ok data -> server_task (Some data) (process_rpc_message srv data connection_id)
| connect_task : server_task None (detached open_connection)
| disconnect_task connection_id : server_task None (detached (close_connection connection_id))
| retire_task {ho : HashOrder} retired : server_task None (detached (retire_handles srv retired))
| recall_task {ho : HashOrder} handle : server_task None (detached (recall_directory srv handle))
| recall_write_task {ho : HashOrder} scope :
    server_task None (detached (recall_write_delegations scope)).

Context (Htimeout : 0 <= dc_recall_timeout (ns_delegation_config srv)).

(** What a task may return. *)
Definition task_answer (label : option bytes) (r : option bytes) : Prop :=
  match label with
  | Some data => rpc_answer srv data r
  | None => True
  end.

(** A task may die only of a size that overflows a buffer. *)
Definition task_may_halt (label : option bytes) : Prop :=
  match label with
  | Some data => oversized_message data = true
  | None => False
  end.

Lemma server_task_safe t m :
  server_task t m -> safe server_ok server_step instant (task_may_halt t) m (task_answer t).
Proof.
  intros Hm. destruct Hm; [by apply rpc_answered|..];
    (apply safe_any_bind; [|intros; by apply safe_ret]).
  - apply task_open_connection.
  - apply task_close_connection.
  - by apply task_retire.
  - by apply task_recall_directory.
  - apply task_recall_write.
Qed.

(** [NfsServerBuilder::build] *)
Definition build (cfg : StateConfig) (rng : option bytes) (secs nanos : Z) (b : B) (env : Env) : W :=
  mkServer (with_config cfg rng secs nanos) b ∅ ∅ 1 [] ∅ env 0 0.

(** ** The registry *)

Record registry_ok (w : W) : Prop := {
  ro_forward : forall h id, sv_handle_to_object w !! h = Some id ->
    sv_object_to_handle w !! id = Some h /\ 1 <= id < sv_next_object_id w;
  ro_backward : forall id h, sv_object_to_handle w !! id = Some h ->
    sv_handle_to_object w !! h = Some id;
  ro_fenced : forall h id, sv_handle_to_object w !! h = Some id ->
    fence_matches (sv_retired w) h = false;
}.

Lemma registry_ok_same w w' : same_registry w w' -> registry_ok w -> registry_ok w'.
Proof.
  intros [H1 H2 H3 H4] [R1 R2 R3]. split; rewrite ?H1, ?H2, ?H3, ?H4; done.
Qed.

Lemma registry_add w handle :
  registry_ok w -> 1 <= sv_next_object_id w < u64_max ->
  sv_handle_to_object w !! handle = None -> fence_matches (sv_retired w) handle = false ->
  registry_ok
    (set_sv_objects (<[handle := sv_next_object_id w]> (sv_handle_to_object w))
       (<[sv_next_object_id w := handle]> (sv_object_to_handle w))
       (u64_wrap (sv_next_object_id w + 1)) w).
Proof.
  intros [R1 R2 R3] Hn Hh Hf. set (id := sv_next_object_id w) in *.
  assert (Hw : u64_wrap (id + 1) = id + 1) by (apply u64_wrap_small; unfold is_u64, u64_max in *; lia).
  split; simpl; rewrite ?Hw.
  - intros h i. rewrite lookup_insert_Some. intros [[<- <-]|[Hne Hi]].
    + rewrite lookup_insert_eq. split; [done|lia].
    + destruct (R1 _ _ Hi) as [Ho Hlt]. rewrite lookup_insert_ne by lia. split; [done|lia].
  - intros i h. rewrite lookup_insert_Some. intros [[<- <-]|[Hne Hi]]; [by rewrite lookup_insert_eq|].
    pose proof (R2 _ _ Hi) as Hb. rewrite lookup_insert_ne; [done|]. intros ->. congruence.
  - intros h i. rewrite lookup_insert_Some. intros [[<- <-]|[Hne Hi]]; [done|by eapply R3].
Qed.

Lemma foldl_delete_lookup {K V X} `{Countable K} (f : X -> K) (l : list X) (m : gmap K V) k v :
  foldl (fun m x => delete (f x) m) m l !! k = Some v <->
  m !! k = Some v /\ forall x, x ∈ l -> f x <> k.
Proof.
  revert m. induction l as [|x l IH]; intros m; simpl.
  - split; [intros Hm; split; [done|]; intros x Hx; by apply elem_of_nil in Hx|by intros [? _]].
  - rewrite IH, lookup_delete_Some. split.
    + intros [[Hne Hm] Hl]. split; [done|]. intros y [->|Hy]%elem_of_cons; auto.
    + intros [Hm Hl]. split; [split; [|done]|]; [apply Hl; left|]. intros y Hy. apply Hl. by right.
Qed.

Lemma retire_lookup {ho : HashOrder} retired (w : W) :
  registry_ok w ->
  let w' := (retire_locked retired w).2 in
  (forall h id, sv_handle_to_object w' !! h = Some id <->
     sv_handle_to_object w !! h = Some id /\ retired h = false) /\
  (forall id h, sv_object_to_handle w' !! id = Some h <->
     sv_object_to_handle w !! id = Some h /\ retired h = false).
Proof.
  intros [R1 R2 R3]. unfold retire_locked. cbn [snd]. simpl.
  set (matched := List.filter _ _).
  assert (Hm : forall h id, (h, id) ∈ matched <-> sv_handle_to_object w !! h = Some id /\ retired h = true).
  { intros h id. unfold matched. rewrite list_elem_of_In, filter_In, <- list_elem_of_In, elem_of_hm_iter. done. }
  split.
  - intros h id. rewrite (foldl_delete_lookup fst). split; intros [Hl Hx]; (split; [done|]).
    + destruct (retired h) eqn:E; [|done]. by destruct (Hx (h, id) (proj2 (Hm h id) (conj Hl E))).
    + intros [h' id'] Hin. simpl. intros ->. apply Hm in Hin as [_ ?]. congruence.
  - intros id h. rewrite (foldl_delete_lookup snd). split; intros [Hl Hx]; (split; [done|]).
    + destruct (retired h) eqn:E; [|done].
      by destruct (Hx (h, id) (proj2 (Hm h id) (conj (R2 _ _ Hl) E))).
    + intros [h' id'] Hin. simpl. intros ->. apply Hm in Hin as [Hh ?].
      destruct (R1 _ _ Hh) as [Ho _]. congruence.
Qed.

Lemma fence_matches_app f1 f2 (h : H) :
  fence_matches (f1 ++ f2) h = fence_matches f1 h || fence_matches f2 h.
Proof. unfold fence_matches. apply existsb_app. Qed.

Lemma registry_retire {ho : HashOrder} retired (w : W) :
  registry_ok w -> registry_ok (retire_locked retired w).2.
Proof.
  intros Hr. destruct (retire_lookup retired w Hr) as [Hh Ho]. destruct Hr as [R1 R2 R3]. split.
  - intros h id [Hl Hn]%Hh. destruct (R1 _ _ Hl). split; [by apply Ho|done].
  - intros id h [Hl Hn]%Ho. apply Hh. split; [by apply R2|done].
  - intros h id [Hl Hn]%Hh. unfold retire_locked. cbn [snd sv_retired set_sv_objects set_sv_retired].
    rewrite fence_matches_app, (R3 _ _ Hl). simpl. by rewrite Hn.
Qed.

(** ** What later states keep *)

(** Object ids are handed out once: an id known to [w] maps in [w'] to what it
    mapped to, or to nothing; and fences stay. *)
Record registry_later (w w' : W) : Prop := {
  rl_next : sv_next_object_id w <= sv_next_object_id w';
  rl_ids : forall id h, id < sv_next_object_id w -> sv_object_to_handle w' !! id = Some h ->
    sv_object_to_handle w !! id = Some h;
  rl_fences : exists fs, sv_retired w' = sv_retired w ++ fs;
}.

Lemma registry_later_refl w : registry_later w w.
Proof. split; [done|done|exists []; by rewrite app_nil_r]. Qed.

Lemma registry_later_trans w1 w2 w3 :
  registry_later w1 w2 -> registry_later w2 w3 -> registry_later w1 w3.
Proof.
  intros [A1 A2 [f1 A3]] [B1 B2 [f2 B3]]. split; [lia| |].
  - intros id h Hid Hl. apply A2; [done|]. apply B2; [lia|done].
  - exists (f1 ++ f2). by rewrite B3, A3, app_assoc.
Qed.

Lemma registry_later_same (w w' w'' : W) :
  same_registry w' w'' -> registry_later w w' -> registry_later w w''.
Proof. intros [H1 H2 H3 H4] [A1 A2 A3]. split; rewrite ?H2, ?H3, ?H4; done. Qed.

Lemma registry_step_ok w w' :
  registry_ok w -> 1 <= sv_next_object_id w < u64_max -> registry_step w w' ->
  registry_ok w' /\ registry_later w w' /\ sv_next_object_id w' <= sv_next_object_id w + 1.
Proof.
  intros Hr Hn [Hs|handle Hh Hf Hs|ho retired Hs].
  - split_and!; [by eapply registry_ok_same|eapply registry_later_same; [done|apply registry_later_refl]|].
    rewrite (sr_next _ _ Hs). lia.
  - assert (Hw : u64_wrap (sv_next_object_id w + 1) = sv_next_object_id w + 1)
      by (apply u64_wrap_small; unfold is_u64, u64_max in *; lia).
    split_and!; [eapply registry_ok_same; [done|by apply registry_add]| |rewrite (sr_next _ _ Hs); simpl; lia].
    eapply registry_later_same; [done|]. split; simpl.
    + lia.
    + intros id h Hid. by rewrite lookup_insert_ne by lia.
    + exists []. by rewrite app_nil_r.
  - split_and!; [eapply registry_ok_same; [done|by apply registry_retire]| |rewrite (sr_next _ _ Hs); simpl; lia].
    eapply registry_later_same; [done|]. destruct (retire_lookup retired w Hr) as [_ Ho]. split.
    + simpl. lia.
    + intros id h _ [Hl _]%Ho. done.
    + by exists [retired].
Qed.

(** ** The running server *)

(** After [n] steps since it was built. *)
Record running (n : nat) (w : W) : Prop := {
  run_bound : Z.of_nat n < 4294967295;
  run_state : exists m, (m <= n)%nat /\ reachable m (sv_state w);
  run_replies : sessions_hold genuine_reply (sm_inner (sv_state w));
  run_registry : registry_ok w;
  run_next : 1 <= sv_next_object_id w <= 1 + Z.of_nat n;
  run_env : env_mono (sv_env w);
}.

Lemma running_ok n w : running n w -> server_ok w.
Proof.
  intros [Hb (m & Hm & Hr) Hk _ _ He].
  destruct (inv_content _ _ (reachable_inv m _ Hr ltac:(lia))). by split.
Qed.

Lemma running_step n w w' :
  (S n < Z.to_nat 4294967295)%nat -> running n w -> server_step w w' -> running (S n) w'.
Proof.
  intros Hn Hrun [Hst Hrs Hck]. pose proof (running_ok n w Hrun) as Hok.
  destruct Hrun as [Hb (m & Hm & Hr) Hk Hreg Hnext He].
  destruct (registry_step_ok w w' Hreg) as (Hreg' & [Hle _ _] & Hle'); [unfold u64_max; lia|done|].
  split; [lia| | |done|lia|by rewrite (ck_env _ _ Hck)].
  - destruct Hst as [->|Hst%step_with_step]; [by exists m; split; [lia|]|].
    exists (S m). split; [lia|]. destruct Hr as (cfg & rng & secs & nanos & Hs).
    exists cfg, rng, secs, nanos. by eapply steps_next.
  - destruct Hst as [->|Hst]; [done|]. eapply step_sessions; [apply Hok|done|done].
Qed.

Lemma build_running cfg rng secs nanos b env :
  env_mono env -> running 0 (build cfg rng secs nanos b env).
Proof.
  intros He. split; [lia| | | |simpl; lia|done].
  - exists 0%nat. split; [lia|]. exists cfg, rng, secs, nanos. apply steps_refl.
  - apply boot_sessions.
  - split; simpl; intros *; by rewrite lookup_empty.
Qed.

Abbreviation waiting := (waits server_ok server_step instant task_may_halt task_answer).

Lemma pool_running n m ts w ts' w' :
  running m w -> Forall (waiting w) ts -> Z.of_nat (m + n) < 4294967295 ->
  pool_steps server_task n (ts, w) (ts', w') -> running (m + n) w' /\ Forall (waiting w') ts'.
Proof.
  intros Hm Hts Hn. apply (pool_induction server_task _ _ _ _ _ running (Z.to_nat 4294967295)).
  - apply server_task_safe.
  - apply clock_forward.
  - apply running_ok.
  - apply running_step.
  - lia.
  - done.
  - done.
Qed.

(** A pool that was started on a new server. *)
Definition started (n : nat) (ts : list thread) (w : W) : Prop :=
  exists cfg rng secs nanos b env, env_mono env /\
    pool_steps server_task n ([], build cfg rng secs nanos b env) (ts, w).

Lemma started_running n ts w :
  started n ts w -> Z.of_nat n < 4294967295 -> running n w /\ Forall (waiting w) ts.
Proof.
  intros (cfg & rng & secs & nanos & b & env & He & Hp) Hn.
  apply (pool_running n 0 [] (build cfg rng secs nanos b env)); [by apply build_running|done|done|done].
Qed.

Lemma later_registry n m ts w ts' w' :
  running m w -> Forall (waiting w) ts -> Z.of_nat (m + n) < 4294967295 ->
  pool_steps server_task n (ts, w) (ts', w') -> registry_later w w'.
Proof.
  intros Hm Hts Hn Hp.
  assert (Hj : (fun k x => running k x /\ registry_later w x) (m + n)%nat w' /\
               Forall (waiting w') ts').
  { apply (pool_induction server_task server_ok server_step instant task_may_halt task_answer
      (fun k x => running k x /\ registry_later w x) (Z.to_nat 4294967295)) with (ts := ts) (w := w).
    - apply server_task_safe.
    - apply clock_forward.
    - intros k x [Hk _]. by eapply running_ok.
    - intros k x x' Hk [Hx Hl] Hs. split; [by eapply running_step|].
      eapply registry_later_trans; [done|]. apply (registry_step_ok x x'); [apply Hx| |apply Hs].
      pose proof (run_next _ _ Hx). unfold u64_max. lia.
    - lia.
    - split; [done|apply registry_later_refl].
    - done.
    - done. }
  apply Hj.
Qed.

(** A task of the pool is still running, has returned what it must, or has died
    where it may. *)
Lemma started_thread n ts w label m :
  started n ts w -> Z.of_nat n < 4294967295 -> (label, m) ∈ ts ->
  (exists upd k, m = Step upd k) \/ (exists r, m = Ret r /\ task_answer label r) \/
  (m = Halt /\ task_may_halt label).
Proof.
  intros Hs Hn Hin. destruct (started_running n ts w Hs Hn) as [_ Hts].
  rewrite Forall_forall in Hts. destruct (Hts _ (proj1 (list_elem_of_In _ _) Hin)) as (w0 & _ & Hg).
  simpl in Hg. destruct m as [r| |upd k]; [right; left; by exists r|by right; right|left; by eexists _, _].
Qed.

(** ** Theorems *)

(** C1. However RPC messages, connections, recalls and retirements are
    interleaved, step by step, the running server refines the state machine of
    the session manager: after [n] steps of the pool its state is one that at
    most [n] steps of that machine reach, so every theorem about reachable
    states holds of the server at every moment of every concurrent execution. *)
Theorem server_refines_state_machine n ts w :
  started n ts w -> Z.of_nat n < 4294967295 ->
  exists m, (m <= n)%nat /\ reachable m (sv_state w).
Proof. intros Hs Hn. apply (started_running n ts w Hs Hn). Qed.

(** C8. The object registry is consistent at every moment of every concurrent
    execution: handles and object ids are in bijection, every id in use was
    handed out, and no handle that a retirement has fenced is registered, even
    by a lookup or a readdir that raced with the retirement. *)
Theorem registry_consistent n ts w :
  started n ts w -> Z.of_nat n < 4294967295 -> registry_ok w.
Proof. intros Hs Hn. apply (started_running n ts w Hs Hn). Qed.

(** C6. Every RPC call is answered: in every concurrent execution, the task of
    a message can take its next step, of which a task has only finitely many, or
    it has returned a reply that carries the call's transaction id (only a message
    without a readable call header gets none).  It dies without a reply - no poll
    loop runs out and no lock merge panics - at most for a COMPOUND that asks for
    a size above [isize::MAX] ([oversized_message]: SETATTR or OPEN with such a
    size, or a WRITE that ends beyond it), where a buffer of the server overflows;
    [oversized_open_unanswered] is such a message.  Allocations of smaller buffers
    are taken to succeed. *)
Theorem rpc_calls_answered n ts w data m :
  started n ts w -> Z.of_nat n < 4294967295 -> (Some data, m) ∈ ts ->
  well_founded (@substep W (option bytes)) /\
  ((exists upd k, m = Step upd k) \/
   match decode_RpcCallHeader data with
   | Ok (call, _) => exists reply, m = Ret (Some reply) /\ is_reply_to (rc_xid call) reply
   | Err _ => m = Ret None
   end \/
   (m = Halt /\ oversized_message data = true)).
Proof.
  intros Hs Hn Hin. split; [apply substep_wf|].
  destruct (started_thread n ts w _ _ Hs Hn Hin) as [Hstep|[(r & -> & [Ha1 Ha2 _])|Hh]];
    [by left|right; left|by right; right].
  destruct (decode_RpcCallHeader data) as [[call src]|e] eqn:Hd; [|by rewrite (Ha1 e)].
  destruct (Ha2 call src eq_refl) as (reply & -> & Hr). by exists reply.
Qed.


(** C9. A retirement is final: once the server holds a fence that matches the
    handle of an object, that object's id resolves to no handle in any later
    state of any concurrent execution, and the handle is never registered
    again, under that id or another. *)
Theorem retirement_final n m ts w ts' w' id h retired :
  started n ts w -> sv_object_to_handle w !! id = Some h ->
  pool_steps server_task m (ts, w) (ts', w') -> Z.of_nat (n + m) < 4294967295 ->
  retired ∈ sv_retired w' -> retired h = true ->
  sv_object_to_handle w' !! id = None /\ sv_handle_to_object w' !! h = None.
Proof.
  intros Hs Hid Hp Hn Hin Hh. destruct (started_running n ts w Hs) as [Hrun Hts]; [lia|].
  pose proof (pool_running m n ts w ts' w' Hrun Hts Hn Hp) as [Hrun' _].
  pose proof (later_registry m n ts w ts' w' Hrun Hts Hn Hp) as Hl.
  assert (Hfence : fence_matches (sv_retired w') h = true).
  { unfold fence_matches. apply existsb_exists. exists retired. split; [by apply list_elem_of_In|done]. }
  assert (Hnone : sv_handle_to_object w' !! h = None).
  { destruct (sv_handle_to_object w' !! h) as [id'|] eqn:E; [|done].
    rewrite (ro_fenced _ (run_registry _ _ Hrun') _ _ E) in Hfence. done. }
  split; [|done]. destruct (sv_object_to_handle w' !! id) as [h'|] eqn:E; [|done].
  pose proof (ro_backward _ (run_registry _ _ Hrun) _ _ Hid) as Hf.
  destruct (ro_forward _ (run_registry _ _ Hrun) _ _ Hf) as [_ Hlt].
  pose proof (rl_ids _ _ Hl id h' ltac:(lia) E) as Hold.
  pose proof (ro_backward _ (run_registry _ _ Hrun') _ _ E). congruence.
Qed.
End interleaving.

(** ** A server over the in-memory filesystem *)

Definition example_env : Env :=
  mkEnv (fun n => Z.of_nat n) (fun _ => (1000, 0)) (fun _ _ => Err Cb_NoConnection).
Definition example_nfs : NfsServer Z Backend :=
  mkNfsServer (@memfs canonical_order) u32_to_string u32_to_string DelegationConfig_default
    AuthPolicy_sys_and_none.
Definition example_server : Server Z Backend :=
  build (StateConfig_new example_identity) (Some (be_bytes 8 1234605616436508552)) 7 9
    example_backend example_env.

(** A COMPOUND of NFSv4.0 with PUTROOTFH. *)
Definition example_call : bytes :=
  encode_rpc_call 1 NFS_PROGRAM NFS_V4 1 OpaqueAuth_null OpaqueAuth_null ++
  encode_string [] ++ encode_u32 0 ++ encode_u32 1 ++ encode_u32 OP_PUTROOTFH.
Definition example_rpc : proc (Server Z Backend) (option bytes) :=
  @process_rpc_message _ _ _ _ canonical_order example_nfs example_call 1.
Definition example_after_rpc : Server Z Backend := (run example_rpc example_server).2.
Definition example_threads : list (option bytes * proc (Server Z Backend) (option bytes)) :=
  [(Some example_call, finished (run example_rpc example_server).1)].

Definition example_retire : proc (Server Z Backend) (option bytes) :=
  detached (@retire_handles _ _ _ _ canonical_order example_nfs (Z.eqb 1)).
Definition example_after_retire : Server Z Backend := (run example_retire example_after_rpc).2.

Lemma example_call_ok : bytes_ok example_call.
Proof. unfold bytes_ok, is_u8. apply (bool_decide_unpack _). by vm_compute. Qed.
Lemma example_env_mono : env_mono example_env.
Proof. intros n. simpl. lia. Qed.
Lemma example_timeout : 0 <= dc_recall_timeout (ns_delegation_config example_nfs).
Proof. vm_compute. discriminate. Qed.

Lemma example_started :
  started example_nfs (run_steps example_rpc example_server) example_threads example_after_rpc.
Proof.
  eexists _, _, _, _, _, _. split; [apply example_env_mono|]. rewrite <- (Nat.add_0_r (run_steps _ _)).
  apply (pool_run_alone (server_task example_nfs) 0 ([], example_server) (Some example_call) example_rpc []).
  apply pool_start; [apply pool_done|]. constructor. apply example_call_ok.
Qed.

Lemma example_retired :
  pool_steps (server_task example_nfs) (run_steps example_retire example_after_rpc)
    (example_threads, example_after_rpc)
    ((None, finished (run example_retire example_after_rpc).1) :: example_threads, example_after_retire).
Proof.
  rewrite <- (Nat.add_0_r (run_steps example_retire _)).
  apply (pool_run_alone (server_task example_nfs) 0).
  apply pool_start; [apply pool_done|]. constructor.
Qed.

Lemma server_refines_state_machine_witness :
  exists m, (m <= run_steps example_rpc example_server)%nat /\ reachable m (sv_state example_after_rpc).
Proof.
  apply (server_refines_state_machine example_nfs example_timeout _ example_threads).
  - exact example_started.
  - vm_compute. reflexivity.
Defined.

Lemma registry_consistent_witness :
  registry_ok example_after_rpc /\ sv_handle_to_object example_after_rpc !! 1 = Some 1.
Proof.
  split; [|vm_compute; reflexivity].
  apply (registry_consistent example_nfs example_timeout _ example_threads _ example_started).
  vm_compute. reflexivity.
Defined.

Lemma rpc_calls_answered_witness :
  exists reply, finished (W := Server Z Backend) (run example_rpc example_server).1 = Ret (Some reply) /\
    is_reply_to 1 reply.
Proof.
  destruct (rpc_calls_answered example_nfs example_timeout _ example_threads _ example_call
    (finished (run example_rpc example_server).1) example_started) as [_ [(upd & k & E)|[Hr|[E _]]]].
  - vm_compute. reflexivity.
  - left.
  - vm_compute in E. discriminate E.
  - exact Hr.
  - vm_compute in E. discriminate E.
Defined.


Lemma retirement_final_witness :
  sv_object_to_handle example_after_rpc !! 1 = Some 1 /\
  sv_object_to_handle example_after_retire !! 1 = None /\
  sv_handle_to_object example_after_retire !! 1 = None.
Proof.
  split; [vm_compute; reflexivity|].
  eapply (retirement_final example_nfs example_timeout _ _ _ example_after_rpc _ example_after_retire 1 1
            (Z.eqb 1) example_started).
  - vm_compute. reflexivity.
  - exact example_retired.
  - vm_compute. reflexivity.
  - assert (Hr : sv_retired example_after_retire = [Z.eqb 1]) by (vm_compute; reflexivity).
    rewrite Hr. left.
  - reflexivity.
Defined.
