(* ===== verification/OpNames.v ===== *)
(** * The names of operations in log lines (crates/embednfs/src/server/compound.rs)

    The dispatcher logs each operation and its result by name. *)

From stdpp Require Import base gmap list sets strings numbers sorting.
From Stdlib Require Import ZArith Lia.
From S2P Require Import Prelude Xdr Rpc Types StateModel Operations Codec Server Compound.

Local Open Scope string_scope.

Definition argop_name (op : NfsArgop4) : string :=
  match op with
  | Arg_Access _ => "ACCESS"
  | Arg_Close _ => "CLOSE"
  | Arg_Commit _ => "COMMIT"
  | Arg_Create _ => "CREATE"
  | Arg_Getattr _ => "GETATTR"
  | Arg_Getfh => "GETFH"
  | Arg_Link _ => "LINK"
  | Arg_Lookup _ => "LOOKUP"
  | Arg_Lookupp => "LOOKUPP"
  | Arg_Open _ => "OPEN"
  | Arg_Putfh _ => "PUTFH"
  | Arg_Putpubfh => "PUTPUBFH"
  | Arg_Putrootfh => "PUTROOTFH"
  | Arg_Read _ => "READ"
  | Arg_Readdir _ => "READDIR"
  | Arg_Readlink => "READLINK"
  | Arg_Remove _ => "REMOVE"
  | Arg_Rename _ => "RENAME"
  | Arg_Restorefh => "RESTOREFH"
  | Arg_Savefh => "SAVEFH"
  | Arg_Secinfo _ => "SECINFO"
  | Arg_Setattr _ => "SETATTR"
  | Arg_Write _ => "WRITE"
  | Arg_ExchangeId _ => "EXCHANGE_ID"
  | Arg_CreateSession _ => "CREATE_SESSION"
  | Arg_DestroySession _ => "DESTROY_SESSION"
  | Arg_Sequence _ => "SEQUENCE"
  | Arg_ReclaimComplete _ => "RECLAIM_COMPLETE"
  | Arg_DestroyClientid _ => "DESTROY_CLIENTID"
  | Arg_BindConnToSession _ => "BIND_CONN_TO_SESSION"
  | Arg_SecInfoNoName _ => "SECINFO_NO_NAME"
  | Arg_FreeStateid _ => "FREE_STATEID"
  | Arg_TestStateid _ => "TEST_STATEID"
  | Arg_DelegReturn _ => "DELEGRETURN"
  | Arg_OpenConfirm _ => "OPEN_CONFIRM"
  | Arg_Renew _ => "RENEW"
  | Arg_SetClientId _ => "SETCLIENTID"
  | Arg_SetClientIdConfirm _ => "SETCLIENTID_CONFIRM"
  | Arg_ReleaseLockowner _ => "RELEASE_LOCKOWNER"
  | Arg_Lock _ => "LOCK"
  | Arg_Lockt _ => "LOCKT"
  | Arg_Locku _ => "LOCKU"
  | Arg_OpenAttr _ => "OPENATTR"
  | Arg_DelegPurge => "DELEGPURGE"
  | Arg_Verify _ => "VERIFY"
  | Arg_Nverify _ => "NVERIFY"
  | Arg_OpenDowngrade _ => "OPEN_DOWNGRADE"
  | Arg_LayoutGet => "LAYOUTGET"
  | Arg_LayoutReturn => "LAYOUTRETURN"
  | Arg_LayoutCommit => "LAYOUTCOMMIT"
  | Arg_GetDirDelegation => "GET_DIR_DELEGATION"
  | Arg_WantDelegation => "WANT_DELEGATION"
  | Arg_BackchannelCtl => "BACKCHANNEL_CTL"
  | Arg_GetDeviceInfo => "GETDEVICEINFO"
  | Arg_GetDeviceList => "GETDEVICELIST"
  | Arg_SetSsv => "SET_SSV"
  | Arg_Getxattr _ => "GETXATTR"
  | Arg_Setxattr _ => "SETXATTR"
  | Arg_Listxattrs _ => "LISTXATTRS"
  | Arg_Removexattr _ => "REMOVEXATTR"
  | Arg_Unsupported _ => "UNSUPPORTED"
  | Arg_Illegal => "ILLEGAL"
  end.

Definition resop_name (res : NfsResop4) : string :=
  match res with
  | Res_Access _ _ _ => "ACCESS"
  | Res_Close _ _ => "CLOSE"
  | Res_Commit _ _ => "COMMIT"
  | Res_Create _ _ _ => "CREATE"
  | Res_Getattr _ _ => "GETATTR"
  | Res_Getfh _ _ => "GETFH"
  | Res_Link _ _ => "LINK"
  | Res_Lookup _ => "LOOKUP"
  | Res_Lookupp _ => "LOOKUPP"
  | Res_Open _ _ => "OPEN"
  | Res_Putfh _ => "PUTFH"
  | Res_Putpubfh _ => "PUTPUBFH"
  | Res_Putrootfh _ => "PUTROOTFH"
  | Res_Read _ _ => "READ"
  | Res_Readdir _ _ => "READDIR"
  | Res_Readlink _ _ => "READLINK"
  | Res_Remove _ _ => "REMOVE"
  | Res_Rename _ _ _ => "RENAME"
  | Res_Restorefh _ => "RESTOREFH"
  | Res_Savefh _ => "SAVEFH"
  | Res_Secinfo _ _ => "SECINFO"
  | Res_Setattr _ _ => "SETATTR"
  | Res_Write _ _ => "WRITE"
  | Res_ExchangeId _ _ => "EXCHANGE_ID"
  | Res_CreateSession _ _ => "CREATE_SESSION"
  | Res_DestroySession _ => "DESTROY_SESSION"
  | Res_Sequence _ _ => "SEQUENCE"
  | Res_ReclaimComplete _ => "RECLAIM_COMPLETE"
  | Res_DestroyClientid _ => "DESTROY_CLIENTID"
  | Res_BindConnToSession _ _ => "BIND_CONN_TO_SESSION"
  | Res_SecInfoNoName _ _ => "SECINFO_NO_NAME"
  | Res_FreeStateid _ => "FREE_STATEID"
  | Res_TestStateid _ _ => "TEST_STATEID"
  | Res_DelegReturn _ => "DELEGRETURN"
  | Res_OpenConfirm _ _ => "OPEN_CONFIRM"
  | Res_Renew _ => "RENEW"
  | Res_SetClientId _ _ => "SETCLIENTID"
  | Res_SetClientIdConfirm _ => "SETCLIENTID_CONFIRM"
  | Res_ReleaseLockowner _ => "RELEASE_LOCKOWNER"
  | Res_Lock _ _ _ => "LOCK"
  | Res_Lockt _ _ => "LOCKT"
  | Res_Locku _ _ => "LOCKU"
  | Res_OpenAttr _ => "OPENATTR"
  | Res_DelegPurge _ => "DELEGPURGE"
  | Res_Verify _ => "VERIFY"
  | Res_Nverify _ => "NVERIFY"
  | Res_OpenDowngrade _ _ => "OPEN_DOWNGRADE"
  | Res_LayoutGet _ _ => "LAYOUTGET"
  | Res_LayoutReturn _ _ => "LAYOUTRETURN"
  | Res_LayoutCommit _ _ => "LAYOUTCOMMIT"
  | Res_GetDirDelegation _ _ => "GET_DIR_DELEGATION"
  | Res_WantDelegation _ _ => "WANT_DELEGATION"
  | Res_BackchannelCtl _ => "BACKCHANNEL_CTL"
  | Res_GetDeviceInfo _ _ => "GETDEVICEINFO"
  | Res_GetDeviceList _ _ => "GETDEVICELIST"
  | Res_SetSsv _ _ => "SET_SSV"
  | Res_Getxattr _ _ => "GETXATTR"
  | Res_Setxattr _ _ => "SETXATTR"
  | Res_Listxattrs _ _ => "LISTXATTRS"
  | Res_Removexattr _ _ => "REMOVEXATTR"
  | Res_Unsupported _ _ => "UNSUPPORTED"
  | Res_Illegal _ => "ILLEGAL"
  end.

(** An operation that fails before it is dispatched is logged under its own name. *)
Lemma error_res_name op status : resop_name (error_res_for_op op status) = argop_name op.
Proof. by destruct op. Qed.
