(* ===== verification/Authorise.v ===== *)
(** * OPEN, SETATTR and the extended attributes are authorised
      (crates/embednfs/src/server/ops/file.rs, attrs.rs, xattrs.rs)

    As in [Requests], over every execution of a request: an OPEN that succeeds
    was granted the rights of its mode by the backend before its open was
    recorded, and no live open of another owner stood against it at that moment;
    a SETATTR that changes a size was admitted as a write of the bytes between
    the old size and the new; and each operation on extended attributes was
    granted its right before it reached the backend. *)

From stdpp Require Import base gmap list sets strings numbers sorting.
From Stdlib Require Import ZArith Lia.
From S2P Require Import Prelude Xdr Rpc Types Constants StateModel Operations Codec FsApi Metadata.
From S2P Require Import Clients Stateids Opens Locks Filehandles AttrCodec.
From S2P Require Import Server ServerFs OpsDelegation OpsFile OpsAttrs Requests.

Local Open Scope Z_scope.
Local Open Scope proc_scope.

(** ** The rights of an open mode *)

Lemma share_access_bits a bit :
  Z.land (u32_not OPEN4_SHARE_ACCESS_WANT_DELEG_MASK) bit = bit ->
  Z.land (share_access_mode a) bit = Z.land a bit.
Proof. intros E. unfold share_access_mode. by rewrite <- Z.land_assoc, E. Qed.

(** A valid mode reads or writes, so that it needs a right. *)
Lemma open_mode_nonempty a d minorversion :
  validate_open_share a d minorversion = Ok tt ->
  any_bits (share_access_mode a) OPEN4_SHARE_ACCESS_READ = true \/
  any_bits (share_access_mode a) OPEN4_SHARE_ACCESS_WRITE = true.
Proof.
  unfold validate_open_share, any_bits. destruct (Z.eqb_spec (Z.land a OPEN4_SHARE_ACCESS_BOTH) 0) as [|Hn];
    [done|intros _].
  rewrite !share_access_bits by done.
  destruct (Z.eqb_spec (Z.land a OPEN4_SHARE_ACCESS_READ) 0) as [E1|]; [|by left].
  destruct (Z.eqb_spec (Z.land a OPEN4_SHARE_ACCESS_WRITE) 0) as [E2|]; [|by right].
  destruct Hn. change OPEN4_SHARE_ACCESS_BOTH with (Z.lor OPEN4_SHARE_ACCESS_READ OPEN4_SHARE_ACCESS_WRITE).
  by rewrite Z.land_lor_distr_r, E1, E2.
Qed.

Lemma open_need_some a d minorversion :
  validate_open_share a d minorversion = Ok tt -> (open_need a =? AccessMask_NONE) = false.
Proof.
  intros Hv%open_mode_nonempty. unfold open_need.
  destruct (any_bits _ OPEN4_SHARE_ACCESS_READ), (any_bits _ OPEN4_SHARE_ACCESS_WRITE);
    try reflexivity. by destruct Hv.
Qed.

Lemma open_xattr_need_some args minorversion :
  validate_open_share (oa_share_access args) (oa_share_deny args) minorversion = Ok tt ->
  (open_xattr_need args =? AccessMask_NONE) = false.
Proof.
  intros Hv%open_mode_nonempty. unfold open_xattr_need.
  destruct (any_bits _ OPEN4_SHARE_ACCESS_READ), (any_bits _ OPEN4_SHARE_ACCESS_WRITE),
    (oa_openhow args); try reflexivity; by destruct Hv.
Qed.

(** ** Share reservations at the moment of the open *)

(** No live open of [object] by another owner denies [acc] or holds what [deny] denies. *)
Definition share_admitted (object : ServerObject) (owner : StateOwner4) (acc deny : Z) (s : StateManager)
    : Prop :=
  forall k st, in_open_files (sm_inner s) !! k = Some st -> os_active st = true ->
    os_object st = object -> ~ owned_open object owner st ->
    Z.land (os_share_deny st) acc = 0 /\ Z.land deny (os_share_access st) = 0.

Lemma land_lor_l a b c : Z.land (Z.lor a b) c = 0 -> Z.land b c = 0.
Proof. rewrite Z.land_lor_distr_l. intros [_ ?]%Z.lor_eq_0_iff. done. Qed.

Lemma create_open_admitted {ho : HashOrder} object owner acc deny s sid :
  (create_open_state_guarded object owner acc deny s).1 = Ok sid ->
  is_retired s object = false /\ share_admitted object owner acc deny s.
Proof.
  unfold create_open_state_guarded. destruct (is_retired s object); [done|].
  intros Hok. split; [done|]. intros k st Hk Hact Hobj Hown.
  destruct (find_owner_open _ _ _) as [[k0 st0]|] eqn:Ef; cbn [fmap option_fmap option_map fst] in Hok;
    destruct (share_conflict _ _ _ _ _) eqn:Ec; try done.
  - apply find_owner_open_Some in Ef as (Hk0 & Hown0).
    destruct (share_conflict_false _ _ _ _ _ Ec k st Hk Hact) as [Hd Ha]; [|done|].
    { intros [= ->]. simplify_eq. by apply Hown. }
    rewrite Z.land_comm in Hd. apply land_lor_l in Hd, Ha. by rewrite Z.land_comm.
  - by apply (share_conflict_false _ _ _ _ _ Ec k st).
Qed.

Section authorise.
Context {H B : Type} `{Countable H} {ho : HashOrder} (srv : NfsServer H B).
Abbreviation W := (Server H B).
Abbreviation fs := (ns_fs srv).

(** ** OPEN *)

Lemma executes_create_open object owner acc deny tr sid :
  executes (st_create_open_state (H := H) (B := B) object owner acc deny) tr (Ok sid) ->
  exists wr wo, tr = [wr; wo] /\
    (create_open_state_guarded object owner (Z.land acc OPEN4_SHARE_ACCESS_BOTH) deny (sv_state wo)).1
      = Ok sid.
Proof.
  intros (tr1 & tr2 & [] & -> & (wr & -> & _)%executes_atomic & Hx)%executes_bind.
  cbv zeta in Hx. destruct (_ || _); [by apply executes_ret in Hx as [_ ?]|].
  apply executes_atomic in Hx as (wo & -> & Ho). exists wr, wo. split; [done|].
  by destruct (create_open_state_guarded _ _ _ _ _).
Qed.

(** The rights an OPEN has been granted: those of its mode on a file that was there,
    and on the object a named attribute belongs to. *)
Definition open_granted (ctx : RequestContext) (args : OpenArgs4) (container : ServerObject)
    (opened : Opened) (tr : list W) : Prop :=
  match open_xattr_parent container (oa_claim args) with
  | Some parent => access_granted srv ctx parent (open_xattr_need args) tr
  | None => True
  end /\
  match opened with
  | (Fs id, None) => access_granted srv ctx id (open_need (oa_share_access args)) tr
  | _ => True
  end.

Lemma executes_xattr_gate ctx args container minorversion tr :
  validate_open_share (oa_share_access args) (oa_share_deny args) minorversion = Ok tt ->
  executes (open_xattr_gate srv ctx args container) tr (Ok tt) ->
  match open_xattr_parent container (oa_claim args) with
  | Some parent => access_granted srv ctx parent (open_xattr_need args) tr
  | None => True
  end.
Proof.
  intros Hv. unfold open_xattr_gate. destruct (open_xattr_parent _ _); [|done].
  rewrite (open_xattr_need_some _ _ Hv). apply executes_require_access.
Qed.

Lemma executes_open_gate ctx args opened minorversion tr :
  validate_open_share (oa_share_access args) (oa_share_deny args) minorversion = Ok tt ->
  executes (open_gate srv ctx args opened) tr (Ok tt) ->
  match opened with
  | (Fs id, None) => access_granted srv ctx id (open_need (oa_share_access args)) tr
  | _ => True
  end.
Proof.
  intros Hv. destruct opened as [[id| |] [|]]; try done. unfold open_gate.
  rewrite (open_need_some _ _ _ Hv). apply executes_require_access.
Qed.

(** The open is recorded and its filehandle returned. *)
Lemma executes_open_finish ctx args container before opened fh minorversion tr res fh' :
  executes (open_finish srv ctx args container before opened fh minorversion) tr
    (Res_Open NFS_Ok (Some res), fh') ->
  exists wr wo wf tr', tr = [wr; wo] ++ wf :: tr' /\
    (create_open_state_guarded opened.1 (oa_owner args)
       (Z.land (oa_share_access args) OPEN4_SHARE_ACCESS_BOTH) (oa_share_deny args) (sv_state wo)).1
      = Ok (or_stateid res) /\
    is_Some fh' /\ (object_to_fh opened.1 (sv_state wf)).1 = fh'.
Proof.
  destruct opened as [object created]. unfold open_finish.
  intros (tr1 & ? & sid & -> & Hs & Hx)%executes_or; [|done].
  apply executes_create_open in Hs as (wr & wo & -> & Hs).
  apply executes_bind in Hx as (tr2 & ? & ofh & -> & Hf & Hx).
  apply executes_atomic in Hf as (wf & -> & Hf).
  destruct ofh as [ofh|]; [|by apply executes_ret in Hx as [_ ?]].
  apply executes_or in Hx as (tr3 & ? & cinfo & -> & _ & Hx); [|done].
  apply executes_bind in Hx as (tr4 & ? & ? & -> & _ & Hx).
  apply executes_ret in Hx as [-> [= -> ->]]. cbn [fst or_stateid].
  exists wr, wo, wf, (tr3 ++ tr4). split; [by rewrite app_nil_r|]. split; [done|].
  split; [done|]. by destruct (object_to_fh object (sv_state wf)).
Qed.

(** C15. An OPEN that succeeds was authorised first.  The current filehandle stands for
    the container in which, or as which, the object was found or created; the
    object is not a directory; if it was there already, the backend granted the
    rights of the requested mode on it, and for a named attribute the right on
    the object it belongs to; and in the very step that recorded the open under
    the returned stateid no live open of another owner denied the mode, or held
    what the request denies, and the object was not retired.  The filehandle that
    becomes the current one is that of the object.  This holds whatever other
    requests do between the steps. *)
Theorem open_authorised ctx args fh minorversion c tr res fh' :
  executes (op_open srv ctx args fh minorversion c) tr (Res_Open NFS_Ok (Some res), fh') ->
  exists tr1 tr2 wr wo wf tr3 cfh container before object created attr,
    tr = tr1 ++ tr2 ++ [wr; wo] ++ wf :: tr3 /\
    executes (resolve_object srv fh) tr1 (Ok (cfh, container)) /\
    (exists part, during tr2 part /\
       executes (open_object srv ctx args container before c) part (Ok (object, created))) /\
    (exists part, during tr2 part /\ executes (build_attr srv ctx object) part (Ok attr)) /\
    is_dir_type (sf_file_type attr) = false /\
    open_granted ctx args container (object, created) tr2 /\
    (create_open_state_guarded object (oa_owner args)
       (Z.land (oa_share_access args) OPEN4_SHARE_ACCESS_BOTH) (oa_share_deny args) (sv_state wo)).1
      = Ok (or_stateid res) /\
    is_retired (sv_state wo) object = false /\
    share_admitted object (oa_owner args) (Z.land (oa_share_access args) OPEN4_SHARE_ACCESS_BOTH)
      (oa_share_deny args) (sv_state wo) /\
    is_Some fh' /\ (object_to_fh object (sv_state wf)).1 = fh'.
Proof.
  intros (? & ? & [] & -> & Hv & Hx)%executes_or; [|done]. apply executes_ret in Hv as [-> Hv%symmetry].
  apply executes_or in Hx as (tr1 & ? & [cfh container] & -> & Hr & Hx); [|done].
  apply executes_or in Hx as (tr2 & ? & [] & -> & Hg & Hx); [|done].
  apply executes_bind in Hx as (tr3 & ? & before & -> & _ & Hx).
  apply executes_or in Hx as (tr4 & ? & [object created] & -> & Ho & Hx); [|done].
  apply executes_or in Hx as (tr5 & ? & attr & -> & Ha & Hx); [|done]. cbn [fst snd] in *.
  destruct (is_dir_type _) eqn:Ed; [by apply executes_ret in Hx as [_ ?]|].
  assert (Hx' : exists tr6 tr7, x = tr6 ++ tr7 /\
    executes (open_gate srv ctx args (object, created)) tr6 (Ok tt) /\
    executes (open_finish srv ctx args container before (object, created) fh minorversion) tr7
      (Res_Open NFS_Ok (Some res), fh')).
  { destruct created as [|]; [|destruct before; [|by apply executes_ret in Hx as [_ ?]]];
      apply executes_or in Hx as (tr6 & tr7 & [] & -> & Hgate & Hx); eauto 6. }
  destruct Hx' as (tr6 & tr7 & -> & Hgate & Hf).
  apply executes_open_finish in Hf as (wr & wo & wf & tr8 & -> & Hs & Hfh & Ef). cbn [fst] in *.
  destruct (create_open_admitted _ _ _ _ _ _ Hs) as [Hret Hadm].
  exists tr1, (tr2 ++ tr3 ++ tr4 ++ tr5 ++ tr6), wr, wo, wf, tr8, cfh, container, before, object, created, attr.
  split; [cbn [app]; by rewrite <- !app_assoc|]. split; [done|].
  split; [exists tr4; auto with trace|]. split; [exists tr5; auto 6 with trace|]. split; [done|].
  split; [|done]. apply (executes_xattr_gate _ _ _ _ _ Hv) in Hg.
  apply (executes_open_gate _ _ _ _ _ Hv) in Hgate. split.
  - destruct (open_xattr_parent _ _); auto with trace.
  - destruct object, created; auto 6 with trace.
Qed.

(** ** SETATTR *)

(** C16. A SETATTR that succeeds with an attribute and changes the size was authorised as a write of the
    bytes between the old size, which the request read, and the new one: its
    stateid admits that write, past share reservations and byte-range locks, the
    object is a file, and the backend granted the rights to modify and extend it,
    or to write the extended attributes of the object it belongs to.  Only then
    were the decoded attributes applied. *)
Theorem truncate_authorised ctx args fh cur c tr mask :
  executes (op_setattr srv ctx args fh cur c) tr (Res_Setattr NFS_Ok mask) -> mask <> Bitmap4_new ->
  exists tr1 tr2 tr3 cfh object set_attrs, tr = tr1 ++ tr2 ++ tr3 /\
    executes (resolve_object srv fh) tr1 (Ok (cfh, object)) /\
    decode_setattr (saa_obj_attributes args) = Ok set_attrs /\
    mask = fa_attrmask (saa_obj_attributes args) /\
    executes (setattr_apply srv ctx object set_attrs) tr3 (Ok tt) /\
    forall new_size, sa_size set_attrs = Some new_size ->
      data_granted srv ctx object (Z.lor AccessMask_MODIFY AccessMask_EXTEND) AccessMask_XATTR_WRITE tr2 /\
      exists attr part, during tr2 part /\ executes (build_attr srv ctx object) part (Ok attr) /\
        is_dir_type (sf_file_type attr) = false /\
        io_admitted object (saa_stateid args)
          (mkIoStateContext cur c true (Z.min (sf_size attr) new_size)
             (Z.max (sf_size attr) new_size - Z.min (sf_size attr) new_size)) tr2.
Proof.
  intros Hx Hm. apply executes_or in Hx as (tr1 & ? & [cfh object] & -> & Hr & Hx); [|congruence].
  apply executes_or in Hx as (? & ? & set_attrs & -> & Hd & Hx); [|congruence].
  apply executes_ret in Hd as [-> Hd%symmetry]. cbn [app] in *. cbv zeta in Hx.
  apply executes_or in Hx as (tr2 & ? & [] & -> & Hg & Hx); [|congruence].
  apply executes_or in Hx as (tr3 & ? & current & -> & Hc & Hx); [|congruence].
  apply executes_or in Hx as (tr4 & ? & [] & -> & Hdir & Hx); [|congruence].
  apply executes_or in Hx as (tr5 & ? & [] & -> & Hv & Hx); [|congruence].
  apply executes_or in Hx as (tr6 & ? & [] & -> & Hw & Hx); [|congruence].
  apply executes_or in Hx as (tr7 & ? & [] & -> & Ha & Hx); [|congruence].
  apply executes_ret in Hx as [-> [= ->]].
  exists tr1, (tr2 ++ tr3 ++ tr4 ++ tr5 ++ tr6), tr7, cfh, object, set_attrs.
  split; [by rewrite app_nil_r, <- !app_assoc|]. do 4 (split; [done|]).
  intros size Hsize. unfold has_size in *. rewrite Hsize in *. cbn [is_none negb] in *.
  unfold setattr_current, has_size in Hc. rewrite Hsize in Hc. cbn [is_none negb orb] in Hc.
  apply executes_ok in Hc as (tr8 & ? & attr & -> & Hb & Hc). apply executes_ret in Hc as [-> [= ->]].
  rewrite app_nil_r in *. apply executes_map_err in Hb.
  unfold setattr_directory, has_size in Hdir. rewrite Hsize in Hdir. cbn [is_none negb] in Hdir.
  destruct (is_dir_type _) eqn:Ed; [by apply executes_ret in Hdir as [_ ?]|].
  unfold setattr_range in Hv. rewrite Hsize in Hv. cbv zeta in Hv. apply executes_validate_io in Hv.
  split.
  - apply executes_named_gate in Hg. destruct object as [id|parent|parent name]; cbn.
    + apply executes_require_access in Hw. auto 6 with trace.
    + unfold setattr_apply, has_size in Ha. rewrite Hsize in Ha. by apply executes_ret in Ha as [_ ?].
    + auto with trace.
  - exists attr, tr8. split; [auto with trace|]. split; [done|]. split; [done|].
    by apply io_admitted_right, io_admitted_right, io_admitted_right, io_admitted_left.
Qed.

(** ** Extended attributes *)

Lemma executes_xattr_target ctx fh need tr id :
  executes (resolve_xattr_target srv ctx fh need) tr (Ok id) ->
  exists tr1 tr2 cfh, tr = tr1 ++ tr2 /\ executes (resolve_object srv fh) tr1 (Ok (cfh, Fs id)) /\
    access_granted srv ctx id need tr2.
Proof.
  intros (tr1 & tr2 & [cfh object] & -> & Hr & Hx)%executes_ok.
  destruct object as [id'| |]; [|by apply executes_ret in Hx as [_ ?]..].
  destruct (fs_xattrs fs); [|by apply executes_ret in Hx as [_ ?]].
  apply executes_ok in Hx as (tr3 & ? & [] & -> & Ha & Hx). apply executes_ret in Hx as [-> [= ->]].
  rewrite app_nil_r. exists tr1, tr3, cfh. split; [done|]. split; [done|].
  by apply executes_require_access.
Qed.

(** The call of the backend an operation on extended attributes ends in. *)
Definition xattr_called {A} (id : Z) (call : Xattrs H B -> H -> fs_op B A) (a : A) (tr : list W) : Prop :=
  exists w1 w2 h named, during tr [w1; w2] /\ sv_object_to_handle w1 !! id = Some h /\
    fs_xattrs fs = Some named /\ (call named h (sv_fs w2)).1 = Ok a.

Lemma executes_with_xattrs {A} id (call : Xattrs H B -> H -> fs_op B A) tr a :
  executes (with_xattrs srv id call) tr (Ok a) -> xattr_called id call a tr.
Proof.
  intros (tr1 & ? & h & -> & Hh & Hx)%executes_ok. apply executes_observe in Hh as (w1 & -> & Hh).
  apply executes_ok in Hx as (? & tr2 & named & -> & Hn & Hx). apply executes_ret in Hn as [-> Hn].
  apply executes_backend in Hx as (w2 & -> & Hx). exists w1, w2, h, named.
  split; [apply during_refl|]. unfold named_attrs_or in Hn.
  destruct (sv_object_to_handle w1 !! id); simplify_eq. split; [done|].
  by destruct (fs_xattrs fs); simplify_eq.
Qed.

Lemma called_left {A} id (call : Xattrs H B -> H -> fs_op B A) a tr1 tr2 :
  xattr_called id call a tr1 -> xattr_called id call a (tr1 ++ tr2).
Proof. intros (w1 & w2 & h & n & Hd & Hr). exists w1, w2, h, n. auto with trace. Qed.
Lemma called_right {A} id (call : Xattrs H B -> H -> fs_op B A) a tr1 tr2 :
  xattr_called id call a tr2 -> xattr_called id call a (tr1 ++ tr2).
Proof. intros (w1 & w2 & h & n & Hd & Hr). exists w1, w2, h, n. auto with trace. Qed.

(** The current filehandle stands for the object [id] of the backend, the right
    [need] on it is granted, and then the backend is called. *)
Definition xattr_granted {A} (ctx : RequestContext) (fh : option bytes) (need : Z)
    (call : Xattrs H B -> H -> fs_op B A) (a : A) (tr : list W) : Prop :=
  exists tr1 tr2 tr3 cfh id, tr = tr1 ++ tr2 ++ tr3 /\
    executes (resolve_object srv fh) tr1 (Ok (cfh, Fs id)) /\
    access_granted srv ctx id need tr2 /\ xattr_called id call a tr3.

(** The operations on extended attributes are authorised: one that succeeds was
    granted the right to read, write or list the attributes of the object its
    filehandle stands for, before the backend was called, once, with its name and
    value; GETXATTR returns the backend's value, and LISTXATTRS a page of the
    backend's names in order.  This holds whatever other requests do between the
    steps. *)
Theorem xattrs_authorised ctx fh tr :
  (forall args value, executes (op_getxattr srv ctx args fh) tr (Res_Getxattr NFS_Ok (Some value)) ->
     xattr_granted ctx fh AccessMask_XATTR_READ
       (fun named h => xa_get_xattr named ctx h (gxa_name args)) value tr) /\
  (forall args cinfo, executes (op_setxattr srv ctx args fh) tr (Res_Setxattr NFS_Ok (Some cinfo)) ->
     xattr_granted ctx fh AccessMask_XATTR_WRITE
       (fun named h => xa_set_xattr named ctx h (sxa_key args) (sxa_value args)
                         (setxattr_mode (sxa_option args))) tt tr) /\
  (forall args page, executes (op_listxattrs srv ctx args fh) tr (Res_Listxattrs NFS_Ok (Some page)) ->
     exists names, xattr_granted ctx fh AccessMask_XATTR_LIST
       (fun named h => xa_list_xattrs named ctx h) names tr /\
       listxattrs_page (merge_sort bytes_le names) (lxa_cookie args) (lxa_maxcount args) = Ok page) /\
  (forall args cinfo, executes (op_removexattr srv ctx args fh) tr (Res_Removexattr NFS_Ok (Some cinfo)) ->
     xattr_granted ctx fh AccessMask_XATTR_WRITE
       (fun named h => xa_remove_xattr named ctx h (rxa_name args)) tt tr).
Proof.
  split; [|split; [|split]]; intros args out (tr1 & ? & id & -> & Ht & Hx)%executes_or; try done;
    apply executes_xattr_target in Ht as (tr2 & tr3 & cfh & -> & Hr & Ha).
  - apply executes_or in Hx as (tr4 & ? & [] & -> & _ & Hx); [|done].
    apply executes_or in Hx as (tr5 & ? & v & -> & Hc%executes_with_xattrs & Hx); [|done].
    apply executes_ret in Hx as [-> [= ->]]. exists tr2, tr3, (tr4 ++ tr5), cfh, id.
    split; [by rewrite app_nil_r, <- app_assoc|]. do 2 (split; [done|]). by apply called_right.
  - apply executes_or in Hx as (tr4 & ? & [] & -> & _ & Hx); [|done].
    apply executes_or in Hx as (tr5 & ? & v & -> & _ & Hx); [|done].
    apply executes_or in Hx as (tr6 & tr7 & [] & -> & Hc%executes_with_xattrs & Hx); [|done].
    exists tr2, tr3, (tr4 ++ tr5 ++ tr6 ++ tr7), cfh, id. split; [by rewrite <- app_assoc|].
    do 2 (split; [done|]). by apply called_right, called_right, called_left.
  - apply executes_or in Hx as (tr4 & ? & names & -> & Hc%executes_with_xattrs & Hx); [|done].
    apply executes_or in Hx as (? & ? & page & -> & Hp & Hx); [|done]. apply executes_ret in Hp as [-> Hp].
    apply executes_ret in Hx as [-> [= ->]]. exists names. split; [|done].
    exists tr2, tr3, tr4, cfh, id. split; [by rewrite app_nil_r, <- app_assoc|]. done.
  - apply executes_or in Hx as (tr4 & ? & [] & -> & _ & Hx); [|done].
    apply executes_or in Hx as (tr5 & ? & v & -> & _ & Hx); [|done].
    apply executes_or in Hx as (tr6 & tr7 & [] & -> & Hc%executes_with_xattrs & Hx); [|done].
    exists tr2, tr3, (tr4 ++ tr5 ++ tr6 ++ tr7), cfh, id. split; [by rewrite <- app_assoc|].
    do 2 (split; [done|]). by apply called_right, called_right, called_left.
Qed.
End authorise.
