(* ===== verification/Recalls.v ===== *)
(** * A directory's delegations are recalled before it changes
      (crates/embednfs/src/server/ops/delegation.rs, directory.rs, file.rs)

    Over every execution of a request, as in [Requests]: a recall returns only
    when each delegation it found was seen to have ended or was revoked, and
    every request that changes a directory has recalled the directory's
    delegations of other clients before it calls the backend. *)

From stdpp Require Import base gmap list sets strings numbers.
From Stdlib Require Import ZArith Lia.
From S2P Require Import Prelude Xdr Rpc Types Constants StateModel Operations Codec FsApi Metadata.
From S2P Require Import DelegTable Clients Stateids Opens Locks Delegations Filehandles AttrCodec StateMachine.
From S2P Require Import Server ServerFs OpsDelegation OpsFile OpsDirectory Requests.

Local Open Scope Z_scope.
Local Open Scope proc_scope.

Section recalls.
Context {H B : Type} `{Countable H} {ho : HashOrder} (srv : NfsServer H B).
Abbreviation W := (Server H B).
Abbreviation fs := (ns_fs srv).
Abbreviation config := (ns_delegation_config srv).

(** ** The end of a recall *)

(** The delegation was seen not to be live any more, or its revocation was run. *)
Definition tried (stateid : Stateid4) (tr : list W) : Prop :=
  (exists w, during tr [w] /\ delegation_recall_complete stateid (sm_inner (sv_state w)) = true) \/
  (exists part r, during tr part /\ executes (st_revoke_recallable_delegation stateid) part r).

Lemma tried_sub stateid tr tr' :
  (forall part, during tr part -> during tr' part) -> tried stateid tr -> tried stateid tr'.
Proof. intros Hs [(w & Hw & ?)|(p & r & Hp & ?)]; [left|right]; eauto. Qed.
Lemma tried_left stateid tr1 tr2 : tried stateid tr1 -> tried stateid (tr1 ++ tr2).
Proof. apply tried_sub. auto with trace. Qed.
Lemma tried_right stateid tr1 tr2 : tried stateid tr2 -> tried stateid (tr1 ++ tr2).
Proof. apply tried_sub. auto with trace. Qed.
#[local] Hint Resolve tried_left tried_right : trace.

(** A round of the poll loop: what it does not keep has ended. *)
Lemma poll_tries outstanding acc tr remaining :
  executes (for_each outstanding (still_outstanding (H := H) (B := B)) acc) tr remaining ->
  (forall s, s ∈ acc -> s ∈ remaining) /\
  (forall s, s ∈ outstanding -> s ∈ remaining \/ tried s tr).
Proof.
  revert acc tr. induction outstanding as [|s outstanding IH]; intros acc tr; cbn [for_each].
  - intros [-> ->]%executes_ret. split; [done|]. by intros s ?%elem_of_nil.
  - intros (tr1 & tr2 & acc' & -> & Hs & [Hacc Hout]%IH)%executes_bind.
    apply executes_bind in Hs as (tr3 & tr4 & complete & -> & Hc & Hr).
    apply executes_observe in Hc as (w & -> & Hc). apply executes_ret in Hr as [-> ->].
    destruct complete.
    + split; [done|]. intros s' [->|Hs']%elem_of_cons.
      * right. left. exists w. auto with trace.
      * destruct (Hout s' Hs'); auto with trace.
    + split; [intros s' Hs'; apply Hacc; set_solver|]. intros s' [->|Hs']%elem_of_cons.
      * left. apply Hacc. set_solver.
      * destruct (Hout s' Hs'); auto with trace.
Qed.

Lemma revoke_tries stateids tr r :
  executes (for_each stateids (revoke_late (H := H) (B := B)) tt) tr r ->
  forall s, s ∈ stateids -> tried s tr.
Proof.
  revert tr. induction stateids as [|s stateids IH]; intros tr; cbn [for_each].
  - intros _ s ?%elem_of_nil. done.
  - intros (tr1 & tr2 & [] & -> & Hs & Hx)%executes_bind s' [->|Hs']%elem_of_cons.
    + apply executes_bind in Hs as (tr3 & tr4 & r' & -> & Hv & _).
      apply tried_left, tried_left. right. exists tr3, r'. auto with trace.
    + apply tried_right. by apply (IH tr2).
Qed.

Lemma wait_tries fuel deadline outstanding tr r :
  executes (wait_loop (H := H) (B := B) fuel deadline outstanding) tr r ->
  r = Ok tt /\ forall s, s ∈ outstanding -> tried s tr.
Proof.
  revert outstanding tr. induction fuel as [|fuel IH]; intros outstanding tr; cbn [wait_loop];
    [by inversion 1|].
  intros (tr1 & tr2 & remaining & -> & [_ Hp]%poll_tries & Hx)%executes_bind.
  assert (Hsub : r = Ok tt -> (forall s, s ∈ remaining -> tried s tr2) ->
    r = Ok tt /\ forall s, s ∈ outstanding -> tried s (tr1 ++ tr2)).
  { intros Hr Hrem. split; [done|]. intros s Hs. destruct (Hp s Hs); auto with trace. }
  destruct remaining as [|s remaining].
  { apply executes_ret in Hx as [-> ->]. apply Hsub; [done|]. by intros s ?%elem_of_nil. }
  apply executes_bind in Hx as (tr3 & tr4 & now & -> & _ & Hx). destruct (deadline <=? now).
  - apply executes_bind in Hx as (tr5 & tr6 & u & -> & Hv & Hx). apply executes_ret in Hx as [-> ->].
    apply Hsub; [done|]. intros s' Hs'. apply tried_right, tried_left. by eapply revoke_tries.
  - apply executes_bind in Hx as (tr5 & tr6 & now' & -> & _ & Hx).
    apply executes_bind in Hx as (tr7 & tr8 & u & -> & _ & [Hr Hs]%IH).
    apply Hsub; [done|]. intros s' Hs'. auto with trace.
Qed.

(** ** A directory recalled *)

(** What the table of delegations is in every state of the running server
    ([reachable_delegations]). *)
Definition delegations_ok (w : W) : Prop :=
  deleg_wf (sm_inner (sv_state w)) /\ deleg_first (sm_inner (sv_state w)).

Lemma reachable_delegations n (w : W) :
  reachable n (sv_state w) -> Z.of_nat n < 4294967295 -> delegations_ok w.
Proof.
  intros Hr Hn. split; [|by apply (reachable_first n)].
  by apply content_deleg, (inv_content n), reachable_inv.
Qed.

(** No live delegation has this stateid. *)
Definition ended (stateid : Stateid4) (s : StateManager) : Prop :=
  is_live_delegation (sm_inner s) (other stateid) = false.

(** The delegation ended in [tr]: a step found it ended, or a step of [tr] revoked it
    and left it ended. *)
Definition settled (stateid : Stateid4) (tr : list W) : Prop :=
  (exists w, during tr [w] /\ ended stateid (sv_state w)) \/
  (exists w0 w r, during tr [w0; w] /\
     executes (st_revoke_recallable_delegation (B := B) stateid) [w0; w] r /\
     ended stateid (revoke_recallable_delegation_guarded stateid (sv_state w)).2).

(** Revoking ends: on a table where stateids keep their number it cannot fail for a
    stateid with that number. *)
Lemma revoke_ends stateid s :
  deleg_first (sm_inner s) -> seqid stateid = 1 ->
  ended stateid (revoke_recallable_delegation_guarded stateid s).2.
Proof.
  intros Hf Hq. unfold ended, is_live_delegation, revoke_recallable_delegation_guarded.
  destruct (in_delegations (sm_inner s) !! other stateid) as [d|] eqn:Hk; [|simpl; by rewrite Hk].
  unfold validate_stateid_seq. rewrite (Hf _ _ Hk), Hq. simpl.
  destruct (in_clients (sm_inner s) !! ds_clientid d); simpl; by rewrite lookup_insert_eq.
Qed.

Lemma during_in (tr part : list W) P w : Forall P tr -> during tr part -> w ∈ part -> P w.
Proof.
  intros Hf (a & b & ->) Hw. apply Forall_app in Hf as [_ [Hf _]%Forall_app].
  rewrite Forall_forall in Hf. apply Hf. by apply list_elem_of_In.
Qed.

Lemma tried_settled stateid tr :
  Forall delegations_ok tr -> seqid stateid = 1 -> tried stateid tr -> settled stateid tr.
Proof.
  intros Hok Hq [(w & Hw & Hc)|(part & r & Hp & Hx)].
  - left. exists w. split; [done|]. unfold delegation_recall_complete in Hc. unfold ended.
    by destruct (is_live_delegation _ _).
  - right. pose proof Hx as Hx'. apply executes_bind in Hx' as (t1 & t2 & [] & -> & Hr & Hs).
    apply executes_atomic in Hr as (w0 & -> & _). apply executes_atomic in Hs as (w & -> & _).
    exists w0, w, r. split_and!; [done|done|]. apply revoke_ends; [|done].
    apply (during_in tr [w0; w] _ w Hok Hp). set_solver.
Qed.

(** With delegations enabled, [tr] begins by collecting the delegations over [dir];
    each that was live, unless it is the requesting client's own, has ended in the
    rest of [tr], provided the directory still has a filehandle to recall it by. *)
Definition directory_recalled (dir : ServerObject) (client : option Z) (tr : list W) : Prop :=
  dc_directory_delegations config = true -> Forall delegations_ok tr ->
  exists wr wb tr', tr = wr :: wb :: tr' /\
    forall k d, in_delegations (sm_inner (sv_state wb)) !! k = Some d -> ds_object d = dir -> live d ->
      client <> Some (ds_clientid d) ->
      (exists wf, during tr' [wf] /\ (object_to_fh dir (sv_state wf)).1 = None) \/
      settled (mkStateid4 (ds_stateid_seq d) k) tr'.

Lemma live_recalled dir client now s k d :
  deleg_wf (sm_inner s) -> in_delegations (sm_inner s) !! k = Some d -> ds_object d = dir -> live d ->
  client <> Some (ds_clientid d) ->
  mkStateid4 (ds_stateid_seq d) k ∈ dr_stateid <$> (begin_directory_recall_guarded dir client now s).1.
Proof.
  intros Hwf Hk Ho Hl Hc. destruct (begin_recall_table dir client now s Hwf) as [_ Hr].
  unfold live in Hl. destruct (ds_status d) eqn:E; try done.
  - apply list_elem_of_fmap. eexists. split; [|apply Hr; exists k, d; split; [done|]; split; [done|];
      unfold recall_entry; rewrite E, bool_decide_false by done; reflexivity]. done.
  - apply list_elem_of_fmap. eexists. split; [|apply Hr; exists k, d; split; [done|]; split; [done|];
      unfold recall_entry; rewrite E; reflexivity]. done.
Qed.

(** A recall never fails, and leaves no delegation it owes a recall unsettled. *)
Lemma recall_settles dir client tr r :
  executes (recall_directory_delegations srv dir client) tr r ->
  r = Ok tt /\ directory_recalled dir client tr.
Proof.
  unfold recall_directory_delegations, directory_recalled.
  destruct (dc_directory_delegations config); cbn [negb]; [|by intros [-> ->]%executes_ret].
  intros (tr1 & tr2 & recalls & -> & Hb & Hx)%executes_bind.
  apply executes_bind in Hb as (tr3 & tr4 & [] & -> & (wr & -> & _)%executes_atomic & Hb).
  apply executes_atomic in Hb as (wb & -> & Hb). cbn [app].
  assert (Hin : forall k d, deleg_wf (sm_inner (sv_state wb)) ->
    in_delegations (sm_inner (sv_state wb)) !! k = Some d -> ds_object d = dir -> live d ->
    client <> Some (ds_clientid d) -> mkStateid4 (ds_stateid_seq d) k ∈ dr_stateid <$> recalls).
  { intros. rewrite <- Hb. destruct (begin_directory_recall_guarded _ _ _ _) eqn:E. cbn.
    change l with (l, s).1. rewrite <- E. by apply live_recalled. }
  clear Hb.
  assert (Hdone : r = Ok tt -> (forall s, s ∈ dr_stateid <$> recalls ->
      (exists wf, during tr2 [wf] /\ (object_to_fh dir (sv_state wf)).1 = None) \/ tried s tr2) ->
    r = Ok tt /\ (true = true -> Forall delegations_ok (wr :: wb :: tr2) ->
      exists wr' wb' tr', wr :: wb :: tr2 = wr' :: wb' :: tr' /\
      forall k d, in_delegations (sm_inner (sv_state wb')) !! k = Some d -> ds_object d = dir ->
        live d -> client <> Some (ds_clientid d) ->
        (exists wf, during tr' [wf] /\ (object_to_fh dir (sv_state wf)).1 = None) \/
        settled (mkStateid4 (ds_stateid_seq d) k) tr')).
  { intros Hr Hs. split; [done|]. intros _ [_ [[Hwf Hf] Hok]%Forall_cons_1]%Forall_cons_1.
    exists wr, wb, tr2. split; [done|]. intros k d Hk Ho Hl Hc.
    destruct (Hs _ (Hin k d Hwf Hk Ho Hl Hc)) as [Hn|Ht]; [by left|right].
    apply tried_settled; [done| |done]. by apply (Hf _ _ Hk). }
  destruct recalls as [|x recalls].
  { apply executes_ret in Hx as [-> ->]. apply Hdone; [done|]. by intros s ?%elem_of_nil. }
  apply executes_bind in Hx as (tr5 & tr6 & fh & -> & Hf & Hx).
  apply executes_atomic in Hf as (wf & -> & Hf). destruct fh as [fh|].
  - apply executes_bind in Hx as (tr7 & tr8 & u & -> & _ & Hx).
    apply executes_bind in Hx as (tr9 & tr10 & start & -> & _ & [Hr Hs]%wait_tries).
    apply Hdone; [done|]. intros s Hin'. right. apply tried_right, tried_right, tried_right. by apply Hs.
  - apply executes_ret in Hx as [-> ->]. apply Hdone; [done|]. intros s _. left. exists wf.
    split; [auto with trace|]. by destruct (object_to_fh dir (sv_state wf)).
Qed.

(** ** Filehandles and handles *)

(** The filehandle [fh] stood for [object]. *)
Definition resolved (fh : option bytes) (object : ServerObject) (tr : list W) : Prop :=
  exists part cfh, during tr part /\ executes (resolve_object srv fh) part (Ok (cfh, object)).

(** The object [id] had the backend handle [h]. *)
Definition has_handle (id : Z) (h : H) (tr : list W) : Prop :=
  exists w, during tr [w] /\ sv_object_to_handle w !! id = Some h.

Lemma executes_resolve id tr (h : H) :
  executes (resolve_backend_handle (B := B) id) tr (Ok h) ->
  exists w, tr = [w] /\ sv_object_to_handle w !! id = Some h.
Proof.
  intros (w & -> & Hw)%executes_observe. exists w.
  split; [done|]. by destruct (sv_object_to_handle w !! id); simplify_eq/=.
Qed.

Lemma executes_handle id tr (h : H) :
  executes (map_err to_nfsstat4 (resolve_backend_handle (B := B) id)) tr (Ok h) ->
  exists w, tr = [w] /\ sv_object_to_handle w !! id = Some h.
Proof. intros Hh%executes_map_err. by apply executes_resolve. Qed.

(** ** Requests that change a directory *)

(** [dir] is recalled in [tr], and after that [change] returns [a]. *)
Definition recalled_before {A} (dir : ServerObject) (client : option Z) (change : proc W A) (a : A)
    (tr : list W) : Prop :=
  exists tr1 tr2 tr3 tr4 tr5, tr = tr1 ++ tr2 ++ tr3 ++ tr4 ++ tr5 /\
    directory_recalled dir client tr2 /\ executes change tr4 a.

Lemma recalled_before_intro {A} dir client (change : proc W A) a tr1 tr2 tr3 tr4 tr5 r :
  executes (recall_directory_delegations srv dir client) tr2 r -> executes change tr4 a ->
  recalled_before dir client change a (tr1 ++ tr2 ++ tr3 ++ tr4 ++ tr5).
Proof. intros [_ Hr]%recall_settles Hc. by exists tr1, tr2, tr3, tr4, tr5. Qed.

(** The same in a longer trace. *)
Lemma recalled_before_left {A} dir client (change : proc W A) a tr1 tr2 :
  recalled_before dir client change a tr1 -> recalled_before dir client change a (tr1 ++ tr2).
Proof.
  intros (t1 & t2 & t3 & t4 & t5 & -> & Hr). exists t1, t2, t3, t4, (t5 ++ tr2).
  by rewrite <- !app_assoc.
Qed.
Lemma recalled_before_right {A} dir client (change : proc W A) a tr1 tr2 :
  recalled_before dir client change a tr2 -> recalled_before dir client change a (tr1 ++ tr2).
Proof.
  intros (t1 & t2 & t3 & t4 & t5 & -> & Hr). exists (tr1 ++ t1), t2, t3, t4, t5.
  by rewrite <- !app_assoc.
Qed.

(** Without a gap, or with what follows left out. *)
Lemma recalled_before_now {A} dir client (change : proc W A) a tr2 tr4 tr5 r :
  executes (recall_directory_delegations srv dir client) tr2 r -> executes change tr4 a ->
  recalled_before dir client change a (tr2 ++ tr4 ++ tr5).
Proof. apply (recalled_before_intro dir client change a [] tr2 [] tr4 tr5). Qed.

Lemma create_recalls ctx args fh client tr cinfo mask fh' :
  executes (op_create srv ctx args fh client) tr (Res_Create NFS_Ok (Some cinfo) mask, fh') ->
  exists dir_id set_attrs object, resolved fh (Fs dir_id) tr /\
    decode_setattr (cra_createattrs args) = Ok set_attrs /\
    recalled_before (Fs dir_id) client (create_object srv ctx dir_id args set_attrs) (Ok object) tr.
Proof.
  intros (tr1 & ? & [cfh dir] & -> & Hfh & Hx)%executes_or; [|done].
  destruct dir as [dir_id| |]; [|by apply executes_ret in Hx as [_ ?]..].
  apply executes_or in Hx as (tr2 & ? & [] & -> & _ & Hx); [|done].
  apply executes_or in Hx as (tr3 & ? & attr & -> & _ & Hx); [|done].
  apply executes_or in Hx as (tr4 & ? & set_attrs & -> & Hd & Hx); [|done].
  apply executes_or in Hx as (tr5 & ? & [] & -> & _ & Hx); [|done].
  apply executes_or in Hx as (tr6 & ? & [] & -> & Hr & Hx); [|done].
  apply executes_or in Hx as (tr7 & ? & object & -> & Hc & _); [|done].
  exists dir_id, set_attrs, object. split; [eexists _, _; split; [|exact Hfh]; auto with trace|].
  split; [by apply executes_ret in Hd as [_ ?]|]. do 5 apply recalled_before_right. by eapply recalled_before_now.
Qed.

Lemma link_recalls ctx args fh saved client tr cinfo :
  executes (op_link srv ctx args fh saved client) tr (Res_Link NFS_Ok (Some cinfo)) ->
  exists source_id dir_id links source dir,
    resolved saved (Fs source_id) tr /\ resolved fh (Fs dir_id) tr /\
    fs_hard_links fs = Some links /\ has_handle source_id source tr /\ has_handle dir_id dir tr /\
    recalled_before (Fs dir_id) client (backend (hl_link links ctx source dir (lna_newname args))) (Ok tt) tr.
Proof.
  intros (tr1 & ? & [sfh source] & -> & Hsfh & Hx)%executes_or; [|done].
  apply executes_or in Hx as (tr2 & ? & [tfh target] & -> & Hfh & Hx); [|done].
  destruct source as [source_id| |], target as [dir_id| |]; try by apply executes_ret in Hx as [_ ?].
  apply executes_or in Hx as (tr3 & ? & [] & -> & _ & Hx); [|done].
  apply executes_or in Hx as (tr4 & ? & attr & -> & _ & Hx); [|done].
  apply executes_or in Hx as (tr5 & ? & [] & -> & _ & Hx); [|done].
  apply executes_or in Hx as (tr6 & ? & [] & -> & Hr & Hx); [|done].
  destruct (fs_hard_links fs) as [links|] eqn:El; [|by apply executes_ret in Hx as [_ ?]].
  apply executes_or in Hx as (tr7 & ? & source & -> & Hs & Hx); [|done].
  apply executes_or in Hx as (tr8 & ? & dir & -> & Hdir & Hx); [|done].
  apply executes_or in Hx as (tr9 & tr10 & [] & -> & Hc & _); [|done].
  apply executes_resolve in Hs as (ws & -> & Hs), Hdir as (wd & -> & Hdir).
  exists source_id, dir_id, links, source, dir.
  split; [eexists _, _; split; [|exact Hsfh]; auto with trace|].
  split; [eexists _, _; split; [|exact Hfh]; auto with trace|]. split; [done|].
  split; [exists ws; split; [auto 8 with trace|done]|].
  split; [exists wd; split; [auto 9 with trace|done]|]. do 5 apply recalled_before_right.
  eapply (recalled_before_intro _ _ _ _ [] tr6 ([ws] ++ [wd]) tr9 tr10) in Hc; [|done].
  by rewrite <- !app_assoc in Hc.
Qed.

Lemma remove_recalls ctx args fh client tr cinfo :
  executes (op_remove srv ctx args fh client) tr (Res_Remove NFS_Ok (Some cinfo)) ->
  exists dir attr part, resolved fh dir tr /\
    during tr part /\ executes (build_attr srv ctx dir) part (Ok attr) /\
    (is_dir_type (sf_file_type attr) = true ->
     recalled_before dir client (remove_target srv ctx dir (rma_target args)) (Ok tt) tr).
Proof.
  intros (tr1 & ? & [cfh dir] & -> & Hfh & Hx)%executes_or; [|done].
  apply executes_or in Hx as (tr2 & ? & [] & -> & _ & Hx); [|done].
  apply executes_or in Hx as (tr3 & ? & attr & -> & Ha & Hx); [|done].
  apply executes_or in Hx as (tr4 & ? & [] & -> & _ & Hx); [|done].
  apply executes_or in Hx as (tr5 & ? & [] & -> & Hr & Hx); [|done].
  apply executes_or in Hx as (tr6 & ? & [] & -> & Hc & _); [|done].
  exists dir, attr, tr3. split; [eexists _, _; split; [|exact Hfh]; auto with trace|]. split; [auto with trace|]. split; [done|]. intros Hd. rewrite Hd in Hr.
  do 4 apply recalled_before_right. by eapply recalled_before_now.
Qed.

Lemma rename_recalls ctx args fh saved client tr c1 c2 :
  executes (op_rename srv ctx args fh saved client) tr (Res_Rename NFS_Ok (Some c1) (Some c2)) ->
  exists from to, resolved saved (Fs from) tr /\ resolved fh (Fs to) tr /\
    let change := rename srv ctx from (rna_oldname args) to (rna_newname args) in
    recalled_before (Fs from) client change (Ok tt) tr /\ recalled_before (Fs to) client change (Ok tt) tr.
Proof.
  intros (tr1 & ? & [sfh source] & -> & Hsfh & Hx)%executes_or; [|done].
  apply executes_or in Hx as (tr2 & ? & [tfh target] & -> & Hfh & Hx); [|done].
  destruct source as [from| |], target as [to| |]; try by apply executes_ret in Hx as [_ ?].
  apply executes_or in Hx as (tr3 & ? & a1 & -> & _ & Hx); [|done].
  apply executes_or in Hx as (tr4 & ? & a2 & -> & _ & Hx); [|done].
  apply executes_or in Hx as (tr5 & ? & [] & -> & Hr & Hx); [|done].
  apply executes_or in Hx as (tr6 & ? & [] & -> & Hr' & Hx); [|done].
  apply executes_or in Hx as (tr7 & tr8 & [] & -> & Hc & _); [|done].
  exists from, to. split; [eexists _, _; split; [|exact Hsfh]; auto with trace|].
  split; [eexists _, _; split; [|exact Hfh]; auto with trace|]. cbv zeta.
  assert (Hfrom : recalled_before (Fs from) client
    (rename srv ctx from (rna_oldname args) to (rna_newname args)) (Ok tt) (tr5 ++ tr6 ++ tr7 ++ tr8))
    by by eapply (recalled_before_intro _ _ _ _ []).
  split; do 4 apply recalled_before_right; [done|].
  case_bool_decide as E; [by injection E as <-|]. apply recalled_before_right. by eapply recalled_before_now.
Qed.

(** A file or a named attribute with the name and the attributes of the request made
    in [container]. *)
Definition created_in (ctx : RequestContext) (args : OpenArgs4) (container : ServerObject)
    (client : option Z) (tr : list W) : Prop :=
  exists name how attrs,
    oa_claim args = Claim_Null name /\ oa_openhow args = Of_Create how /\
    open_create_attrs how = Ok attrs /\
    ((exists dir_id created, container = Fs dir_id /\
        recalled_before container client (create_file srv ctx dir_id name attrs) (Ok created) tr) \/
     (exists parent named handle value, container = NamedAttrDir parent /\
        fs_xattrs fs = Some named /\ has_handle parent handle tr /\
        recalled_before container client
          (backend (xa_set_xattr named ctx handle name value (open_set_mode how))) (Ok tt) tr)).

Lemma open_create_recalls ctx args container before client tr object change :
  executes (open_object srv ctx args container before client) tr (Ok (object, Some change)) ->
  created_in ctx args container client tr.
Proof.
  destruct container as [dir_id|parent|parent name0], (oa_claim args) as [name| | | | | |] eqn:Ec;
    unfold open_object; rewrite Ec; try (by intros [_ ?]%executes_ret).
  - intros (tr1 & ? & [] & -> & _ & Hx)%executes_ok.
    apply executes_ok in Hx as (tr2 & ? & kind & -> & _ & Hx).
    destruct (bool_decide _); [|by apply executes_ret in Hx as [_ ?]]. cbn [negb] in Hx.
    apply executes_bind in Hx as (tr3 & ? & found & -> & _ & Hx).
    destruct found as [id|[]], (oa_openhow args) as [|how] eqn:Eo; try (by apply executes_ret in Hx as [_ ?]);
      try (apply executes_ret in Hx as [_ Hx]; by case_match).
    apply executes_ok in Hx as (tr4 & ? & bc & -> & _ & Hx).
    apply executes_ok in Hx as (tr5 & ? & attrs & -> & [_ Ha]%executes_ret & Hx).
    apply executes_ok in Hx as (tr6 & ? & [] & -> & Hr & Hx).
    apply executes_ok in Hx as (tr7 & ? & created & -> & Hc & _). apply executes_map_err in Hc.
    exists name, how, attrs. split_and!; [done..|]. left. exists dir_id, created. split; [done|].
    do 5 apply recalled_before_right. by eapply recalled_before_now.
  - unfold open_named_attr. destruct (fs_xattrs fs) as [named|] eqn:En; [|by intros [_ ?]%executes_ret].
    intros (tr1 & ? & handle & -> & (wh & -> & Hh)%executes_handle & Hx)%executes_ok.
    apply executes_bind in Hx as (tr3 & ? & found & -> & _ & Hx). cbv zeta in Hx.
    destruct found as [v|[]], (oa_openhow args) as [|how] eqn:Eo; try (by apply executes_ret in Hx as [_ ?]);
      try (apply executes_ret in Hx as [_ Hx]; by case_match).
    apply executes_ok in Hx as (tr4 & ? & bc & -> & _ & Hx).
    apply executes_ok in Hx as (tr5 & ? & attrs & -> & [_ Ha]%executes_ret & Hx).
    apply executes_ok in Hx as (tr6 & ? & [] & -> & Hr & Hx).
    apply executes_bind in Hx as (tr8 & ? & initial & -> & _ & Hx).
    apply executes_ok in Hx as (tr7 & ? & [] & -> & Hc & _). apply executes_map_err in Hc.
    exists name, how, attrs. split_and!; [done..|]. right. exists parent, named, handle, initial.
    split_and!; [done|done|exists wh; split; [auto with trace|done]|].
    do 4 apply recalled_before_right. by eapply recalled_before_intro with (tr1 := []).
Qed.

Lemma created_in_inside ctx args container client tr1 tr2 tr3 :
  created_in ctx args container client tr2 -> created_in ctx args container client (tr1 ++ tr2 ++ tr3).
Proof.
  intros (name & how & attrs & ? & ? & ? & Hc). exists name, how, attrs. split_and!; [done..|].
  destruct Hc as [(dir & c & -> & Hr)|(parent & named & h & v & -> & Hn & (w & Hw & Hh) & Hr)].
  - left. exists dir, c. split; [done|]. by apply recalled_before_right, recalled_before_left.
  - right. exists parent, named, h, v. split_and!; [done|done|exists w; split; [auto with trace|done]|].
    by apply recalled_before_right, recalled_before_left.
Qed.

Lemma open_recalls ctx args fh minorversion client tr res fh' :
  executes (op_open srv ctx args fh minorversion client) tr (Res_Open NFS_Ok (Some res), fh') ->
  exists container before object created part, resolved fh container tr /\ during tr part /\
    executes (open_object srv ctx args container before client) part (Ok (object, created)) /\
    (is_Some created -> created_in ctx args container client tr).
Proof.
  intros (tr1 & ? & [] & -> & _ & Hx)%executes_or; [|done].
  apply executes_or in Hx as (tr2 & ? & [cfh container] & -> & Hfh & Hx); [|done].
  apply executes_or in Hx as (tr3 & ? & [] & -> & _ & Hx); [|done].
  apply executes_bind in Hx as (tr4 & ? & before & -> & _ & Hx).
  apply executes_or in Hx as (tr5 & tr6 & [object created] & -> & Ho & _); [|done].
  exists container, before, object, created, tr5.
  split; [eexists _, _; split; [|exact Hfh]; auto with trace|].
  split; [auto 6 with trace|]. split; [done|].
  intros [change ->]. apply open_create_recalls in Ho.
  apply (created_in_inside ctx args container client (tr1 ++ tr2 ++ tr3 ++ tr4) tr5 tr6) in Ho.
  by rewrite <- !app_assoc in Ho.
Qed.

(** C17. A directory's delegations are recalled before it changes.  When a CREATE, LINK,
    REMOVE or RENAME succeeds, or an OPEN creates its file or named attribute, the
    directory that the request's filehandle stands for (both the saved and the
    current one for a RENAME) was recalled before the one backend call that changes
    it, which is made with that directory's handle and the name of the request: the
    recall collected the live delegations over the directory, and each of them, the
    requesting client's own apart, was then found ended or was revoked and left ended,
    unless the directory had no filehandle to recall it by.  For a REMOVE the object
    is a directory by the attributes read before the recall.  This holds whatever
    other requests do between the steps, delegations being enabled and the
    delegation tables met as in every reachable state ([delegations_ok]). *)
Theorem directory_changes_recalled ctx fh saved client tr :
  (forall args cinfo mask fh',
     executes (op_create srv ctx args fh client) tr (Res_Create NFS_Ok (Some cinfo) mask, fh') ->
     exists dir_id set_attrs object, resolved fh (Fs dir_id) tr /\
       decode_setattr (cra_createattrs args) = Ok set_attrs /\
       recalled_before (Fs dir_id) client (create_object srv ctx dir_id args set_attrs) (Ok object) tr) /\
  (forall args cinfo,
     executes (op_link srv ctx args fh saved client) tr (Res_Link NFS_Ok (Some cinfo)) ->
     exists source_id dir_id links source dir,
       resolved saved (Fs source_id) tr /\ resolved fh (Fs dir_id) tr /\
       fs_hard_links fs = Some links /\ has_handle source_id source tr /\ has_handle dir_id dir tr /\
       recalled_before (Fs dir_id) client (backend (hl_link links ctx source dir (lna_newname args)))
         (Ok tt) tr) /\
  (forall args cinfo,
     executes (op_remove srv ctx args fh client) tr (Res_Remove NFS_Ok (Some cinfo)) ->
     exists dir attr part, resolved fh dir tr /\
       during tr part /\ executes (build_attr srv ctx dir) part (Ok attr) /\
       (is_dir_type (sf_file_type attr) = true ->
        recalled_before dir client (remove_target srv ctx dir (rma_target args)) (Ok tt) tr)) /\
  (forall args c1 c2,
     executes (op_rename srv ctx args fh saved client) tr (Res_Rename NFS_Ok (Some c1) (Some c2)) ->
     exists from to, resolved saved (Fs from) tr /\ resolved fh (Fs to) tr /\
       let change := rename srv ctx from (rna_oldname args) to (rna_newname args) in
       recalled_before (Fs from) client change (Ok tt) tr /\
       recalled_before (Fs to) client change (Ok tt) tr) /\
  (forall args minorversion res fh',
     executes (op_open srv ctx args fh minorversion client) tr (Res_Open NFS_Ok (Some res), fh') ->
     exists container before object created part, resolved fh container tr /\ during tr part /\
       executes (open_object srv ctx args container before client) part (Ok (object, created)) /\
       (is_Some created -> created_in ctx args container client tr)).
Proof.
  split; [intros *; apply create_recalls|]. split; [intros *; apply link_recalls|].
  split; [intros *; apply remove_recalls|]. split; [intros *; apply rename_recalls|].
  intros *. apply open_recalls.
Qed.
End recalls.
