(* ===== verification/Replay.v ===== *)
(** * A request sent again (crates/embednfs/src/server/transport.rs)

    Exactly-once semantics of a whole RPC message: once a COMPOUND that begins
    with SEQUENCE has been executed, the same message, received again on any
    connection of the session while the slot still keeps its reply and the client
    its lease, is answered with the very bytes of the first reply and touches
    neither the backend nor the registry.  The first execution may interleave with
    any others ([executes]).  On the slot alone, over every sequence of the two calls
    that the server makes on it: a reply from the cache is the one recorded for the
    latest execution, and that was of the retried request. *)

From stdpp Require Import base gmap list sets strings numbers sorting.
From Stdlib Require Import ZArith Lia.
From S2P Require Import Prelude Xdr Rpc Types Constants StateModel Operations Codec FsApi Metadata.
From S2P Require Import DelegTable Clients Sequence AttrCodec Server ServerFs Compound Records Transport.
From S2P Require Import Replies Requests.

Local Open Scope Z_scope.
Local Open Scope proc_scope.

(** ** Slots *)

(** The slot of [seq] in [s], with the lease of its client. *)
Definition slot_at (seq : SequenceArgs4) (s : StateManager) (P : SessionState -> SlotState -> Z -> Prop)
    : Prop :=
  exists session slot client deadline,
    in_sessions (sm_inner s) !! sa_sessionid seq = Some session /\
    0 <= sa_slotid seq /\ ss_slots session !! Z.to_nat (sa_slotid seq) = Some slot /\
    in_clients (sm_inner s) !! ss_clientid session = Some client /\
    cs_lease_state client = Lease_Active deadline /\ P session slot deadline.

(** The request is being executed: the slot has moved on to the next sequence id. *)
Definition slot_pending (seq : SequenceArgs4) (s : StateManager) : Prop :=
  slot_at seq s (fun _ slot _ => sl_sequence_id slot = u32_wrap (sa_sequenceid seq + 1)).

(** Its reply is kept, with the fingerprint of the request. *)
Definition slot_recorded (seq : SequenceArgs4) (fingerprint body : bytes) (s : StateManager) : Prop :=
  slot_at seq s (fun _ slot _ =>
    sl_sequence_id slot = u32_wrap (sa_sequenceid seq + 1) /\ sl_in_progress slot = None /\
    sl_cached_reply slot = Some (mkCachedReplay fingerprint body)).

(** The lease of the client has not run out, and the connection [conn] may be used. *)
Definition slot_live (seq : SequenceArgs4) (s : StateManager) (conn now : Z) : Prop :=
  slot_at seq s (fun session _ deadline =>
    now < deadline /\ is_ok (bind_forechannel_for_sequence session conn) = true).

(** ** The reply cache *)

Lemma slot_replays q fp body slot :
  is_u32 q -> sl_sequence_id slot = u32_wrap (q + 1) -> sl_in_progress slot = None ->
  sl_cached_reply slot = Some (mkCachedReplay fp body) ->
  slot_prepare q fp slot = (Verdict_Replay body, slot).
Proof.
  intros Hq Hs Hp Hc. destruct slot as [sid prog cache]. cbn in *. subst.
  pose proof (slot_retry q fp fp body None Hq) as E. unfold slot_finish in E. cbn in E.
  by rewrite bool_decide_true in E.
Qed.

(** A recorded slot answers a retry from the cache. *)
Lemma prepare_replays {ho : HashOrder} seq fp body s conn now :
  deleg_wf (sm_inner s) -> is_u32 (sa_sequenceid seq) ->
  slot_recorded seq fp body s -> slot_live seq s conn now ->
  (prepare_sequence seq fp conn now s).1 = Seq_Replay body.
Proof.
  intros Hwf Hq (session & slot & client & deadline & Hs & Hid & Hslot & Hc & Hl & Hn & Hp & Hca)
    (session' & slot' & client' & deadline' & Hs' & _ & Hslot' & Hc' & Hl' & Hd & Hb). simplify_eq.
  destruct (reap_keeps now s (ss_clientid session) client deadline' Hwf Hc Hl' Hd) as (Kc & Ks & _).
  unfold prepare_sequence. rewrite (Ks _ _ Hs eq_refl), Kc.
  apply lookup_lt_Some in Hslot as Hlt.
  destruct (Z.leb_spec (Z.of_nat (length (ss_slots session))) (sa_slotid seq)); [lia|].
  rewrite Hl. unfold bind_forechannel_for_sequence in *.
  destruct (_ && _); [done|]. cbn [add_fore ss_slots set_ss_fore_connections]. rewrite Hslot.
  by rewrite (slot_replays _ fp body slot).
Qed.

(** Finishing a pending request records its reply. *)
Lemma finish_records seq fp body s :
  slot_pending seq s ->
  slot_recorded seq fp body
    (finish_sequence (mkSequenceCacheToken (sa_sessionid seq) (sa_slotid seq) fp) body s).2.
Proof.
  intros (session & slot & client & deadline & Hs & Hid & Hslot & Hc & Hl & Hn).
  unfold finish_sequence. cbn [tk_sessionid tk_slotid tk_fingerprint]. rewrite Hs, Hslot. cbn [snd].
  eexists _, (slot_finish fp body slot), client, deadline.
  split; [apply lookup_insert_eq|]. split; [done|]. cbn.
  split; [apply list_lookup_insert_eq; by eapply lookup_lt_Some|]. done.
Qed.

(** ** Replies kept on a slot *)

(** A COMPOUND beginning with a SEQUENCE of id [q] was sent, with fingerprint [fp]. *)
Definition request_sent (q : Z) (fp : bytes) : Prop :=
  exists args seq, fingerprint_of args fp /\ leading_sequence args = Some seq /\ sa_sequenceid seq = q.

(** A fingerprint contains the sequence id. *)
Lemma request_sent_id q q' fp : request_sent q fp -> request_sent q' fp -> q = q'.
Proof.
  intros (args & seq & Hf & Hs & <-) (args' & seq' & Hf' & Hs' & <-).
  rewrite (fingerprint_args _ _ _ Hf Hf') in Hs. congruence.
Qed.

(** C19. Faithful replay: however requests are sent on a slot, pipelined or not, retried
    and completed in any order, with the fingerprints that the server computes from
    them and fewer than 2^32 + 1 executions, a request that is answered from the cache
    is the one executed last on the slot, with its sequence id and its fingerprint,
    and the answer is the reply that was recorded for that fingerprint since. *)
Theorem slot_replays_faithfully slot pending hist q fp r slot' :
  slot_run slot pending hist -> Z.of_nat (length (executed hist)) <= 4294967296 ->
  (forall q fp, Ev_Execute q fp ∈ hist -> request_sent q fp) -> request_sent q fp ->
  slot_prepare q fp slot = (Verdict_Replay r, slot') ->
  last_execute hist = Some (q, fp) /\ last_finish hist = Some (fp, r).
Proof. apply (slot_replays_last request_sent). exact request_sent_id. Qed.

(** The token of an execution names the slot of the request. *)
Lemma prepare_token {ho : HashOrder} seq fp conn now s res token :
  (prepare_sequence seq fp conn now s).1 = Seq_Execute res token ->
  token = mkSequenceCacheToken (sa_sessionid seq) (sa_slotid seq) fp.
Proof.
  unfold prepare_sequence. repeat (case_match; try done); cbn; by intros [= _ <-].
Qed.

(** ** Messages *)

Section messages.
Context {H B : Type} `{Countable H} {ho : HashOrder} (srv : NfsServer H B).
Abbreviation W := (Server H B).

(** The state that the last step of an execution leaves, [w] when it has none. *)
Fixpoint left_by {A} (m : proc W A) (tr : list W) (w : W) : W :=
  match m, tr with Step upd k, w1 :: tr' => left_by (k w1) tr' (upd w1) | _, _ => w end.

Lemma left_by_bind {A C} (m : proc W A) (f : A -> proc W C) tr1 tr2 a w :
  executes m tr1 a -> left_by (proc_bind m f) (tr1 ++ tr2) w = left_by (f a) tr2 (left_by m tr1 w).
Proof. intros Hx. revert w. induction Hx; intros w0; [done|]. simpl. by rewrite IHHx. Qed.

Lemma left_by_run {A} (m : proc W A) w : left_by m (run_trace m w) w = (run m w).2.
Proof. revert w. induction m as [a| |upd k IH]; intros w; simpl; auto. Qed.

(** The message [data] is a call [call] of a COMPOUND [args] with payload [payload]. *)
Definition compound_message (data : bytes) (call : RpcCallHeader) (payload : bytes) (args : Compound4Args)
    : Prop :=
  decode_RpcCallHeader data = Ok (call, payload) /\
  (exists rest, decode_Compound4Args payload = Ok (args, rest)).

(** The fingerprint that the server gives a message is one of a request sent. *)
Lemma message_sent data call payload args seq :
  compound_message data call payload args -> leading_sequence args = Some seq ->
  request_sent (sa_sequenceid seq) (replay_fingerprint (rc_cred call) payload).
Proof.
  intros [Hh [rest Ha]] Hs. exists args, seq. split; [|done].
  exists (rc_cred call), payload, rest. split; [|done]. by eapply decode_RpcCallHeader_cred.
Qed.

(** A message whose processing reaches the server's state is processed as a COMPOUND
    on every connection. *)
Lemma process_is_compound data call payload args conn tr reply w :
  compound_message data call payload args ->
  executes (process_rpc_message srv data conn) (w :: tr) (Some reply) ->
  forall conn', process_rpc_message srv data conn' =
    (let* reply := process_compound srv call payload conn' args in Ret (Some reply)).
Proof.
  intros [Hh [rest Ha]] Hx conn'. unfold process_rpc_message in *. rewrite Hh, Ha in *. cbv zeta in *.
  repeat (case_match; try (by apply executes_ret in Hx as [? _])). done.
Qed.

(** An execution accepted by its first step ends by keeping the body it replies. *)
Lemma compound_executed seq fp conn call payload args w1 tr wl reply res token :
  leading_sequence args = Some seq -> fp = replay_fingerprint (rc_cred call) payload ->
  executes (process_compound srv call payload conn args) (w1 :: tr) reply ->
  last (w1 :: tr) = Some wl ->
  (prepare_sequence seq fp conn (instant w1) (sv_state w1)).1 = Seq_Execute res token ->
  exists body, reply = encode_rpc_reply_accepted (rc_xid call) ++ body /\
    (slot_pending seq (sv_state wl) ->
     slot_recorded seq fp body
       (sv_state (left_by (process_compound srv call payload conn args) (w1 :: tr) w1))).
Proof.
  intros Hseq -> Hx Hlast Hprep. unfold process_compound in *. rewrite Hseq in *. cbv zeta in *.
  set (fp := replay_fingerprint _ _) in *.
  apply executes_bind in Hx as (t1 & t2 & verdict & Etr & Hp & Hx).
  rewrite Etr, (left_by_bind _ _ _ _ _ _ Hp).
  apply executes_atomic in Hp as (w & -> & Hp). injection Etr as <- ->.
  assert (Htok : token = mkSequenceCacheToken (sa_sessionid seq) (sa_slotid seq) fp)
    by (by eapply prepare_token).
  destruct (prepare_sequence seq fp conn (instant w1) (sv_state w1)) as [v s1] eqn:Ep.
  cbn [fst] in Hp, Hprep. subst v verdict. unfold execute_compound in *.
  apply executes_bind in Hx as (t3 & t4 & result & -> & Hres & Hx). rewrite (left_by_bind _ _ _ _ _ _ Hres).
  apply executes_bind in Hx as (t5 & t6 & kept & -> & Hf & Hx). rewrite (left_by_bind _ _ _ _ _ _ Hf).
  apply executes_ret in Hx as [-> [= ->]]. apply executes_atomic in Hf as (wf & -> & _).
  rewrite app_nil_r, app_comm_cons, last_snoc in Hlast. injection Hlast as ->.
  exists (encode_Compound4Res result). split; [done|]. intros Hpend. cbn.
  destruct (finish_sequence token _ _) as [k s2] eqn:Ef. cbn.
  change s2 with (k, s2).2. rewrite <- Ef, Htok. by apply finish_records.
Qed.

(** C13. A message that was executed and is received again is answered with the same
    bytes.  [tr] are the states in which the steps of the first processing found
    the server, in any interleaving with other requests; its SEQUENCE was accepted
    for execution in the first of them, and its last step found the server in [wl].
    Then the reply carries the call's transaction id; if the slot was still the
    request's own in [wl], the processing leaves a server whose slot keeps the body of
    that very reply; and in every state that keeps it, with the client's lease running
    and the connection usable, processing the message again returns the same reply
    and leaves the backend and the registry of objects alone. *)
Theorem retry_message_replayed data call payload args seq conn w1 tr wl reply res token :
  compound_message data call payload args -> leading_sequence args = Some seq ->
  is_u32 (sa_sequenceid seq) ->
  executes (process_rpc_message srv data conn) (w1 :: tr) (Some reply) -> last (w1 :: tr) = Some wl ->
  let fp := replay_fingerprint (rc_cred call) payload in
  (prepare_sequence seq fp conn (instant w1) (sv_state w1)).1 = Seq_Execute res token ->
  exists body,
    reply = encode_rpc_reply_accepted (rc_xid call) ++ body /\
    (slot_pending seq (sv_state wl) ->
     slot_recorded seq fp body
       (sv_state (left_by (process_rpc_message srv data conn) (w1 :: tr) w1))) /\
    forall w conn', deleg_wf (sm_inner (sv_state w)) ->
      slot_recorded seq fp body (sv_state w) -> slot_live seq (sv_state w) conn' (instant w) ->
      exists w', run (process_rpc_message srv data conn') w = (Some (Some reply), w') /\
        sv_fs w' = sv_fs w /\ sv_handle_to_object w' = sv_handle_to_object w /\
        sv_object_to_handle w' = sv_object_to_handle w.
Proof.
  intros Hm Hseq Hq Hx Hlast fp Hprep.
  pose proof (process_is_compound _ _ _ _ _ _ _ _ Hm Hx) as Hproc.
  rewrite Hproc in Hx. rewrite Hproc.
  apply executes_bind in Hx as (tr1 & tr2 & reply' & Etr & Hx & Hr).
  apply executes_ret in Hr as [-> [= ->]]. rewrite Etr, (left_by_bind _ _ _ _ _ _ Hx).
  rewrite app_nil_r in Etr. subst tr1.
  destruct (compound_executed seq fp conn call payload args w1 tr wl reply' res token)
    as (body & -> & Hkept); [done..|].
  exists body. split; [done|]. split; [exact Hkept|].
  intros w conn' Hwf Hrec Hlive. rewrite Hproc. unfold process_compound. rewrite Hseq. cbv zeta. fold fp.
  pose proof (prepare_replays seq fp _ _ _ _ Hwf Hq Hrec Hlive) as E. rewrite run_bind. cbn.
  destruct (prepare_sequence seq fp conn' (instant w) (sv_state w)) as [v s2]. cbn in *. subst v. cbn.
  by eexists.
Qed.
End messages.
