(* ===== verification/RequestExamples.v ===== *)
(** * Requests on a server over the in-memory filesystem

    A file is created, written, read, opened, truncated and locked, given an
    extended attribute and its directory listed, each by its handler, and a
    message is sent twice: the theorems about requests at inputs on which they
    succeed, and three defects, two of OPEN and one of RENAME. *)

From stdpp Require Import base gmap list sets strings numbers.
From Stdlib Require Import ZArith Lia.
From S2P Require Import Prelude Xdr Rpc Types Constants StateModel Operations Codec FsApi Metadata.
From S2P Require Import Clients Stateids Opens Locks Filehandles AttrCodec StateMachine Locking.
From S2P Require Import Server Pool ServerFs OpsDelegation OpsFile OpsAttrs OpsDirectory OpsLocking.
From S2P Require Import DelegTable Sequence Compound Records Transport.
From S2P Require Import Replies Requests Authorise Replay Tasks MemFs MemFsBackend Interleaving.

Local Open Scope Z_scope.
Local Open Scope proc_scope.

#[local] Existing Instance canonical_order.
Abbreviation W := (Server Z Backend).

(** A server that knows the client of [example_session]. *)
Definition example_serving : W := set_sv_state example_session example_server.
Definition example_ctx : RequestContext := RequestContext_anonymous.

(** A new file "f" in the root; its filehandle. *)
Definition example_file : proc W (option bytes) :=
  let* root := root_object example_nfs in
  match root with
  | Ok (Fs id) =>
    let* created := create_file example_nfs example_ctx id (str_bytes "f") SetAttrs_default in
    match created with
    | Ok res => st_object_to_fh (Fs (cres_handle res))
    | Err _ => Ret None
    end
  | _ => Ret None
  end.
Definition example_root : proc W (option bytes) :=
  let* root := root_object example_nfs in
  match root with Ok object => st_object_to_fh object | Err _ => Ret None end.

Definition with_file : W := (run example_file example_serving).2.
Definition file_fh : option bytes := default None (run example_file example_serving).1.
Definition root_fh : option bytes := default None (run example_root with_file).1.
Definition with_root : W := (run example_root with_file).2.

Definition example_write : WriteArgs4 := mkWriteArgs4 Stateid4_ANONYMOUS 0 UNSTABLE4 [104; 105].
Definition write_request : proc W NfsResop4 :=
  op_write example_nfs example_ctx example_write file_fh None (Some 1).
Definition written : W := (run write_request with_root).2.

Definition example_read : ReadArgs4 := mkReadArgs4 Stateid4_ANONYMOUS 0 100.
Definition read_request : proc W NfsResop4 :=
  op_read example_nfs example_ctx example_read file_fh None (Some 1).

Lemma write_authorised_witness :
  exists tr, executes write_request tr
    (Res_Write NFS_Ok (Some (mkWriteRes4 2 2 [0; 0; 0; 7; 0; 0; 0; 9]))) /\
    exists object tr2, io_admitted object Stateid4_ANONYMOUS (mkIoStateContext None (Some 1) true 0 2) tr2 /\
      data_granted example_nfs example_ctx object (Z.lor AccessMask_MODIFY AccessMask_EXTEND)
        AccessMask_XATTR_WRITE tr2.
Proof.
  exists (run_trace write_request with_root).
  assert (Hx : executes write_request (run_trace write_request with_root)
    (Res_Write NFS_Ok (Some (mkWriteRes4 2 2 [0; 0; 0; 7; 0; 0; 0; 9])))).
  { apply run_executes. vm_compute. reflexivity. }
  split; [exact Hx|].
  destruct (write_authorised example_nfs example_ctx example_write file_fh None (Some 1) _ _ Hx)
    as (tr1 & tr2 & tr3 & tr4 & fh' & object & st & wr & _ & _ & Hio & Hg & _).
  exists object, tr2. split; [exact Hio|exact Hg].
Defined.

Lemma read_authorised_witness :
  exists tr, executes read_request tr (Res_Read NFS_Ok (Some (mkReadRes4 true [104; 105]))) /\
    exists object tr2 tr3, data_granted example_nfs example_ctx object AccessMask_READ AccessMask_XATTR_READ tr2 /\
      data_read example_nfs example_ctx object 0 100 (mkReadRes4 true [104; 105]) tr3.
Proof.
  exists (run_trace read_request written).
  assert (Hx : executes read_request (run_trace read_request written)
    (Res_Read NFS_Ok (Some (mkReadRes4 true [104; 105])))).
  { apply run_executes. vm_compute. reflexivity. }
  split; [exact Hx|].
  destruct (read_authorised example_nfs example_ctx example_read file_fh None (Some 1) _ _ Hx)
    as (tr1 & tr2 & tr3 & fh' & object & _ & _ & _ & Hg & Hd).
  exists object, tr2, tr3. split; [exact Hg|exact Hd].
Defined.

Definition example_readdir : ReaddirArgs4 := mkReaddirArgs4 0 (replicate 8 0) 0 52 (mkBitmap4 [2]).
Definition readdir_request : proc W NfsResop4 :=
  op_readdir example_nfs example_ctx example_readdir root_fh 1.
Definition readdir_result : ReaddirRes4 :=
  mkReaddirRes4 [0; 0; 0; 0; 0; 0; 0; 2] [mkEntry4 3 [102] (mkFattr4 (mkBitmap4 [2]) [0; 0; 0; 1])] true.

Lemma readdir_reply_fits_witness :
  (run readdir_request written).1 = Some (Res_Readdir NFS_Ok (Some readdir_result)) /\
  zlen (encode_ReaddirRes4 readdir_result) <= 52.
Proof.
  assert (E : (run readdir_request written).1 = Some (Res_Readdir NFS_Ok (Some readdir_result))).
  { vm_compute. reflexivity. }
  split; [exact E|].
  destruct (readdir_reply_fits example_nfs example_ctx example_readdir root_fh 1
    (run_trace readdir_request written) readdir_result) as [Hfit _].
  - apply run_executes. exact E.
  - exact Hfit.
Defined.

(** The file is opened and locked. *)
Definition example_open : OpenArgs4 :=
  mkOpenArgs4 0 3 0 (mkStateOwner4 1 [7]) Of_NoCreate (Claim_Null (str_bytes "f")).
Definition opened : W :=
  (run (op_open example_nfs example_ctx example_open root_fh 1 (Some 1)) written).2.
Definition example_lock : LockArgs4 :=
  mkLockArgs4 WriteLt false 0 10
    (NewLockOwner (mkOpenToLockOwner4 0 (mkStateid4 1 [0; 0; 0; 1; 0; 0; 0; 0; 0; 0; 0; 1]) 0
                     (mkStateOwner4 1 [8]))).
Definition lock_request : proc W NfsResop4 :=
  op_lock example_nfs example_ctx example_lock file_fh None (Some 1).
Example lock_granted :
  (run lock_request opened).1 =
    Some (Res_Lock NFS_Ok (Some (mkStateid4 1 [0; 0; 0; 2; 0; 0; 0; 0; 0; 0; 0; 1])) None).
Proof. vm_compute. reflexivity. Qed.

(** The OPEN above, its answer. *)
Definition open_request : proc W (NfsResop4 * option bytes) :=
  op_open example_nfs example_ctx example_open root_fh 1 (Some 1).
Definition open_result : OpenRes4 :=
  mkOpenRes4 (mkStateid4 1 [0; 0; 0; 1; 0; 0; 0; 0; 0; 0; 0; 1]) (mkChangeInfo4 true 2 2)
    OPEN4_RESULT_LOCKTYPE_POSIX Bitmap4_new Od_None.

Lemma open_authorised_witness :
  (run open_request written).1 = Some (Res_Open NFS_Ok (Some open_result), file_fh) /\
  exists object (w : W), share_admitted object (mkStateOwner4 1 [7]) 3 0 (sv_state w) /\
    (create_open_state_guarded object (mkStateOwner4 1 [7]) 3 0 (sv_state w)).1 =
      Ok (or_stateid open_result).
Proof.
  assert (E : (run open_request written).1 = Some (Res_Open NFS_Ok (Some open_result), file_fh))
    by (vm_compute; reflexivity).
  split; [exact E|].
  destruct (open_authorised example_nfs example_ctx example_open root_fh 1 (Some 1) _ _ _
    (run_executes _ _ _ E))
    as (tr1 & tr2 & wr & wo & wf & tr3 & cfh & container & before & object & created & attr
        & _ & _ & _ & _ & _ & _ & Hs & _ & Hadm & _).
  exists object, wo. split; [exact Hadm|exact Hs].
Defined.

(** A SETATTR of the size, to one byte. *)
Definition size_mask : Bitmap4 := mkBitmap4 [16].
Definition example_truncate : SetattrArgs4 :=
  mkSetattrArgs4 Stateid4_ANONYMOUS (mkFattr4 size_mask (encode_u64 1)).
Definition truncate_request : proc W NfsResop4 :=
  op_setattr example_nfs example_ctx example_truncate file_fh None (Some 1).

Lemma truncate_authorised_witness :
  (run truncate_request written).1 = Some (Res_Setattr NFS_Ok size_mask) /\
  (run read_request (run truncate_request written).2).1 =
    Some (Res_Read NFS_Ok (Some (mkReadRes4 true [104]))) /\
  exists object tr, data_granted example_nfs example_ctx object
    (Z.lor AccessMask_MODIFY AccessMask_EXTEND) AccessMask_XATTR_WRITE tr.
Proof.
  assert (E : (run truncate_request written).1 = Some (Res_Setattr NFS_Ok size_mask))
    by (vm_compute; reflexivity).
  split; [exact E|]. split; [vm_compute; reflexivity|].
  destruct (truncate_authorised example_nfs example_ctx example_truncate file_fh None (Some 1) _ _
    (run_executes _ _ _ E)) as (tr1 & tr2 & tr3 & cfh & object & attrs & _ & _ & Hd & _ & _ & Hs).
  - discriminate.
  - assert (Hsize : sa_size attrs = Some 1).
    { replace (decode_setattr (saa_obj_attributes example_truncate)) with
        (Ok (E := NfsStat4) (mkSetAttrs (Some 1) None None None None None None None None None)) in Hd
        by (vm_compute; reflexivity).
      injection Hd as <-. reflexivity. }
    destruct (Hs 1 Hsize) as [Hg _]. exists object, tr2. exact Hg.
Defined.

(** An extended attribute, set and read back. *)
Definition setxattr_request : proc W NfsResop4 :=
  op_setxattr example_nfs example_ctx (mkSetxattrArgs4 Sx_Either (str_bytes "k") [5; 6]) file_fh.
Definition attributed : W := (run setxattr_request written).2.
Definition getxattr_request : proc W NfsResop4 :=
  op_getxattr example_nfs example_ctx (mkGetxattrArgs4 (str_bytes "k")) file_fh.

Lemma xattrs_authorised_witness :
  (run getxattr_request attributed).1 = Some (Res_Getxattr NFS_Ok (Some [5; 6])) /\
  exists tr, xattr_granted example_nfs example_ctx file_fh AccessMask_XATTR_READ
    (fun named h => xa_get_xattr named example_ctx h (str_bytes "k")) [5; 6] tr.
Proof.
  assert (E : (run getxattr_request attributed).1 = Some (Res_Getxattr NFS_Ok (Some [5; 6])))
    by (vm_compute; reflexivity).
  split; [exact E|]. exists (run_trace getxattr_request attributed).
  destruct (xattrs_authorised example_nfs example_ctx file_fh (run_trace getxattr_request attributed))
    as [Hget _].
  apply (Hget (mkGetxattrArgs4 (str_bytes "k"))). apply run_executes. exact E.
Defined.

(** An OPEN that creates the file unless it exists and asks for size 0 leaves the
    contents of an existing file, although it succeeds: RFC 8881, section
    18.16.3, has such an OPEN truncate the file. *)
Definition truncating_open : OpenArgs4 :=
  mkOpenArgs4 0 3 0 (mkStateOwner4 1 [7]) (Of_Create (Ch_Unchecked (mkFattr4 size_mask (encode_u64 0))))
    (Claim_Null (str_bytes "f")).
Definition truncating_request : proc W (NfsResop4 * option bytes) :=
  op_open example_nfs example_ctx truncating_open root_fh 1 (Some 1).

Theorem unchecked_open_keeps_contents :
  (run truncating_request written).1 = Some (Res_Open NFS_Ok (Some open_result), file_fh) /\
  (run read_request (run truncating_request written).2).1 =
    Some (Res_Read NFS_Ok (Some (mkReadRes4 true [104; 105]))).
Proof. by vm_compute. Qed.

(** RENAME does not check the new name as every other operation on names does: it
    moves the file to a name with a slash, which READDIR lists and which neither
    LOOKUP nor REMOVE accepts. *)
Definition slash_name : bytes := str_bytes "a/b".
Definition renaming_request : proc W NfsResop4 :=
  op_rename example_nfs example_ctx (mkRenameArgs4 (str_bytes "f") slash_name) root_fh root_fh (Some 1).
Definition renamed : W := (run renaming_request written).2.

Theorem rename_name_unchecked :
  (run renaming_request written).1 =
    Some (Res_Rename NFS_Ok (Some (mkChangeInfo4 true 2 4)) (Some (mkChangeInfo4 true 2 4))) /\
  (run readdir_request renamed).1 =
    Some (Res_Readdir NFS_Ok (Some (mkReaddirRes4 [0; 0; 0; 0; 0; 0; 0; 4]
      [mkEntry4 3 slash_name (mkFattr4 (mkBitmap4 [2]) [0; 0; 0; 1])] true))) /\
  (run (op_lookup example_nfs example_ctx (mkLookupArgs4 slash_name) root_fh) renamed).1 =
    Some (Res_Lookup NFS_Badchar, root_fh) /\
  (run (op_remove example_nfs example_ctx (mkRemoveArgs4 slash_name) root_fh (Some 1)) renamed).1 =
    Some (Res_Remove NFS_Badchar None).
Proof. by vm_compute. Qed.

(** A server that grants directory delegations, and a recall on it that has taken
    its first step. *)
Definition delegating_nfs : NfsServer Z Backend :=
  mkNfsServer memfs u32_to_string u32_to_string
    (mkDelegationConfig true (5 * nanos_per_sec) 1024 16384) AuthPolicy_sys_and_none.
Definition example_recall : proc W (result NfsStat4 unit) :=
  recall_directory_delegations delegating_nfs (Fs 1) None.
Definition after_step {A} (m : proc W A) (w : W) : proc W A * W :=
  match m with Step upd k => (k w, upd w) | m => (m, w) end.

Lemma unfolds_first {A} (m : proc W A) (w : W) :
  server_ok w -> unfolds server_ok instant m w (after_step m w).1 (after_step m w).2.
Proof.
  intros Hok. destruct m as [a| |upd k]; simpl; [constructor..|].
  apply (unfolds_step server_ok instant _ _ upd k w); [constructor|done|lia].
Qed.

Lemma recall_terminates_witness :
  (exists upd k, (after_step example_recall example_server).1 = Step upd k) \/
  exists r, (after_step example_recall example_server).1 = Ret r.
Proof.
  destruct (recall_terminates delegating_nfs ltac:(vm_compute; discriminate) (Fs 1) None example_server
    _ _ (unfolds_first example_recall example_server
           (running_ok 0 _ (build_running _ _ _ _ _ _ example_env_mono)))) as [_ Hr].
  exact Hr.
Defined.

(** A COMPOUND of NFSv4.1 with SEQUENCE and PUTROOTFH, sent twice. *)
Definition sequence_payload : bytes :=
  encode_string [] ++ encode_u32 1 ++ encode_u32 2 ++
  encode_u32 OP_SEQUENCE ++ example_sessionid ++ encode_u32 1 ++ encode_u32 0 ++ encode_u32 0 ++ encode_u32 1 ++
  encode_u32 OP_PUTROOTFH.
Definition sequence_message : bytes :=
  encode_rpc_call 5 NFS_PROGRAM NFS_V4 1 OpaqueAuth_null OpaqueAuth_null ++ sequence_payload.
Definition sequence_header : RpcCallHeader :=
  mkRpcCallHeader 5 2 NFS_PROGRAM NFS_V4 1 OpaqueAuth_null OpaqueAuth_null.
Definition sequence_args : SequenceArgs4 := mkSequenceArgs4 example_sessionid 1 0 0 true.
Definition sequence_request : proc W (option bytes) :=
  process_rpc_message example_nfs sequence_message 1.
Definition sequence_reply : bytes := default [] (mjoin (run sequence_request example_serving).1).
Definition sequenced : W := (run sequence_request example_serving).2.
Definition sequence_fp : bytes := replay_fingerprint OpaqueAuth_null sequence_payload.
Definition sequence_verdict : SequenceReplay :=
  (prepare_sequence sequence_args sequence_fp 1 (instant example_serving) (sv_state example_serving)).1.
Definition sequence_body : bytes := drop 24 sequence_reply.

Lemma run_trace_first {A} (m : proc W A) w w1 tr : run_trace m w = w1 :: tr -> w1 = w.
Proof. destruct m; simpl; congruence. Qed.

Lemma retry_message_replayed_witness :
  bool_decide (sequence_reply = []) = false /\
  exists w', run sequence_request sequenced = (Some (Some sequence_reply), w') /\
    sv_fs w' = sv_fs sequenced.
Proof.
  split; [vm_compute; reflexivity|].
  destruct (run_trace sequence_request example_serving) as [|w1 tr] eqn:Etr.
  { assert (En : bool_decide (length (run_trace sequence_request example_serving) = 0)%nat = false)
      by (vm_compute; reflexivity).
    rewrite Etr in En. discriminate En. }
  assert (w1 = example_serving) by exact (run_trace_first _ _ _ _ Etr). subst w1.
  destruct sequence_verdict as [res token| | |] eqn:Ev; try (vm_compute in Ev; discriminate Ev).
  destruct (list.last (example_serving :: tr)) as [wl|] eqn:El;
    [|apply last_None in El; discriminate El].
  assert (Hx : executes sequence_request (example_serving :: tr) (Some sequence_reply)).
  { rewrite <- Etr. apply run_executes. vm_compute. reflexivity. }
  destruct (retry_message_replayed example_nfs sequence_message sequence_header sequence_payload
    (mkCompound4Args [] 1 [Arg_Sequence sequence_args; Arg_Putrootfh]) sequence_args 1
    example_serving tr wl sequence_reply res token) as (body & Hr & _ & Hretry).
  - split; [|eexists]; vm_compute; reflexivity.
  - reflexivity.
  - vm_compute. split; congruence.
  - exact Hx.
  - exact El.
  - exact Ev.
  - assert (body = sequence_body) as ->.
    { unfold sequence_body. rewrite Hr. symmetry.
      apply (drop_app_length' (encode_rpc_reply_accepted (rc_xid sequence_header)) body 24).
      vm_compute. reflexivity. }
    destruct (Hretry sequenced 1) as (w' & Hrun & Hfs & _).
    + apply deleg_wf_empty; vm_compute; reflexivity.
    + eexists _, _, _, _. split; [vm_compute; reflexivity|]. split; [vm_compute; congruence|].
      split; [vm_compute; reflexivity|]. split; [vm_compute; reflexivity|].
      split; [vm_compute; reflexivity|]. split; [vm_compute; reflexivity|].
      split; [vm_compute; reflexivity|]. vm_compute; reflexivity.
    + eexists _, _, _, _. split; [vm_compute; reflexivity|]. split; [vm_compute; congruence|].
      split; [vm_compute; reflexivity|]. split; [vm_compute; reflexivity|].
      split; [vm_compute; reflexivity|]. split; vm_compute; reflexivity.
    + exists w'. split; [exact Hrun|exact Hfs].
Defined.

(** The history of its slot: executed, completed, and asked again. *)
Definition sequence_hist : list slot_event :=
  [Ev_Finish sequence_fp sequence_body; Ev_Execute 1 sequence_fp].
Definition sequence_slot : SlotState := slot_finish sequence_fp sequence_body (mkSlotState 2 (Some sequence_fp) None).

Lemma sequence_slot_run : slot_run sequence_slot [] sequence_hist.
Proof.
  apply (run_finish _ [sequence_fp]); [|reflexivity].
  apply (run_prepare _ [] [] 1 sequence_fp Verdict_Execute (mkSlotState 2 (Some sequence_fp) None) run_start);
    [unfold is_u32; lia|reflexivity].
Qed.

Lemma sequence_sent : request_sent 1 sequence_fp.
Proof.
  apply (message_sent sequence_message sequence_header sequence_payload
    (mkCompound4Args [] 1 [Arg_Sequence sequence_args; Arg_Putrootfh]) sequence_args); [|reflexivity].
  split; [|eexists]; vm_compute; reflexivity.
Qed.

Lemma slot_replays_faithfully_witness :
  last_execute sequence_hist = Some (1, sequence_fp) /\
  last_finish sequence_hist = Some (sequence_fp, sequence_body).
Proof.
  apply (slot_replays_faithfully _ _ sequence_hist 1 sequence_fp sequence_body sequence_slot sequence_slot_run).
  - vm_compute. discriminate.
  - intros q fp [[=]|[[= -> ->]|[]%not_elem_of_nil]%elem_of_cons]%elem_of_cons. exact sequence_sent.
  - exact sequence_sent.
  - vm_compute. reflexivity.
Defined.

(** ** A size that the server has no buffer for *)

(** SEQUENCE, PUTROOTFH, OPENATTR, and an OPEN that creates the named attribute "x" of
    [size] bytes. *)
Definition named_attr_payload (size : Z) : bytes :=
  encode_string [] ++ encode_u32 1 ++ encode_u32 4 ++
  encode_u32 OP_SEQUENCE ++ example_sessionid ++ encode_u32 1 ++ encode_u32 0 ++ encode_u32 0 ++ encode_u32 1 ++
  encode_u32 OP_PUTROOTFH ++ encode_u32 OP_OPENATTR ++ encode_u32 0 ++
  encode_u32 OP_OPEN ++ encode_u32 0 ++ encode_u32 OPEN4_SHARE_ACCESS_BOTH ++ encode_u32 0 ++
  encode_u64 1 ++ encode_opaque [7] ++ encode_u32 1 ++ encode_u32 0 ++
  encode_u32 1 ++ encode_u32 (Z.shiftl 1 FATTR4_SIZE) ++ encode_opaque (encode_u64 size) ++
  encode_u32 0 ++ encode_string (str_bytes "x").
Definition named_attr_message (size : Z) : bytes :=
  encode_rpc_call 6 NFS_PROGRAM NFS_V4 1 OpaqueAuth_null OpaqueAuth_null ++ named_attr_payload size.
Definition named_attr_request (size : Z) : proc W (option bytes) :=
  process_rpc_message example_nfs (named_attr_message size) 1.

(** The message is answered for a size of 3 and dies for one of 2^63 bytes, in the
    allocation of the attribute's value; the slot stays taken, so that the same message
    sent again on another connection is put off. *)
Theorem oversized_open_unanswered :
  (exists reply, (run (named_attr_request 3) example_serving).1 = Some (Some reply)) /\
  oversized_message (named_attr_message 9223372036854775808) = true /\
  let '(result, died) := run (named_attr_request 9223372036854775808) example_serving in
  result = None /\
  (prepare_sequence sequence_args
     (replay_fingerprint OpaqueAuth_null (named_attr_payload 9223372036854775808)) 2
     (instant died) (sv_state died)).1 = Seq_Error NFS_Delay.
Proof. split; [eexists|split; [|cbv zeta]]; vm_compute; [reflexivity..|by split]. Qed.
