(* ===== verification/RecallExamples.v ===== *)
(** * Delegations on a server over the in-memory filesystem

    Client 1 asks for a delegation of the root directory and client 2 removes a
    file from it: recalled when the delegation is granted first, and not recalled
    when it is granted between the recall and the removal. *)

From stdpp Require Import base gmap list sets strings numbers.
From Stdlib Require Import ZArith Lia.
From S2P Require Import Prelude Xdr Rpc Types Constants StateModel Operations Codec FsApi Metadata.
From S2P Require Import DelegTable Clients Delegations Filehandles AttrCodec Server ServerFs OpsDelegation OpsFile.
From S2P Require Import OpsDirectory Requests Recalls MemFs MemFsBackend Interleaving RequestExamples.

Local Open Scope Z_scope.
Local Open Scope proc_scope.

#[local] Existing Instance canonical_order.
Abbreviation W := (Server Z Backend).

(** A session with a backchannel on connection 1, and the file "f" in the root. *)
Definition callback_session : StateManager :=
  (create_session (mkCreateSessionArgs4 1 1 2 example_chan example_chan 1 [CbSec_None]) 1 0
     example_known).2.
Definition callback_serving : W :=
  (run example_file (set_sv_connections {[1]} (set_sv_state callback_session example_server))).2.
Definition dir_fh : option bytes := default None (run example_root callback_serving).1.
Definition delegating : W := (run example_root callback_serving).2.

Definition delegation_request : proc W NfsResop4 :=
  op_get_dir_delegation delegating_nfs example_ctx dir_fh 1 (Some 1) None.
Definition delegation_key : bytes := [0; 0; 0; 1; 0; 0; 0; 0; 0; 0; 0; 1].
(** The answer, with the directory's change id in the cookie verifier. *)
Definition delegation_granted (change : Z) : NfsResop4 :=
  Res_GetDirDelegation NFS_Ok (Some (Gdd_Ok
    (mkGetDirDelegationResOk4 (be_bytes 8 change) (mkStateid4 1 delegation_key)
       Bitmap4_new Bitmap4_new Bitmap4_new))).

Definition removing : RemoveArgs4 := mkRemoveArgs4 (str_bytes "f").
Definition remove_request : proc W NfsResop4 :=
  op_remove delegating_nfs example_ctx removing dir_fh (Some 2).
Definition remove_result : NfsResop4 := Res_Remove NFS_Ok (Some (mkChangeInfo4 true 2 3)).

Definition delegation_status (w : W) : option DelegationStatus :=
  ds_status <$> in_delegations (sm_inner (sv_state w)) !! delegation_key.

(** ** In sequence *)

Definition delegated : W := (run delegation_request delegating).2.

Lemma directory_changes_recalled_witness :
  (run delegation_request delegating).1 = Some (delegation_granted 2) /\
  delegation_status delegated = Some Granted /\
  delegation_status (run remove_request delegated).2 = Some Revoked /\
  exists dir attr part, resolved delegating_nfs dir_fh dir (run_trace remove_request delegated) /\
    during (run_trace remove_request delegated) part /\
    executes (build_attr delegating_nfs example_ctx dir) part (Ok attr) /\
    (is_dir_type (sf_file_type attr) = true ->
     recalled_before delegating_nfs dir (Some 2)
       (remove_target delegating_nfs example_ctx dir (str_bytes "f")) (Ok tt)
       (run_trace remove_request delegated)).
Proof.
  split; [vm_compute; reflexivity|]. split; [vm_compute; reflexivity|].
  split; [vm_compute; reflexivity|].
  destruct (directory_changes_recalled delegating_nfs example_ctx dir_fh None (Some 2)
    (run_trace remove_request delegated)) as (_ & _ & Hremove & _).
  apply (Hremove removing (mkChangeInfo4 true 2 3)).
  apply run_executes. vm_compute. reflexivity.
Defined.

(** ** Interleaved *)

(** The first [n] steps of a request. *)
Fixpoint run_for {A} (n : nat) (m : proc W A) (w : W) : proc W A * W :=
  match n, m with S n, Step upd k => run_for n (k w) (upd w) | _, m => (m, w) end.

(** A delegation can be granted after the removal's recall has found none and
    before the file is removed: client 1 holds a delegation that was granted for
    the directory with its old change id and was not recalled, although the
    directory has changed. *)
Theorem grant_races_remove :
  let '(removal, w) := run_for 6 remove_request delegating in
  let '(granted, w) := run delegation_request w in
  let '(removed, w) := run removal w in
  granted = Some (delegation_granted 2) /\ removed = Some remove_result /\
  delegation_status w = Some Granted.
Proof. by vm_compute. Qed.
