(* ===== verification/DirTree.v ===== *)
(** * Directory trees: the specification of a namespace

    What the names of a filesystem mean, without attributes or contents: a
    table of nodes, each a directory with its names and its parent or a
    leaf.  The in-memory filesystem is shown to implement these operations
    in MemFsSpec. *)

From stdpp Require Import base gmap list sets strings numbers relations.
From Stdlib Require Import ZArith Lia.
From S2P Require Import Prelude Xdr.

Local Open Scope Z_scope.

(** [sh_entries] is [None] for a leaf; a leaf's parent means nothing. *)
Record shape := mkShape { sh_parent : option Z; sh_entries : option (gmap bytes Z) }.

Implicit Types (t : gmap Z shape) (d c p x y : Z) (n : bytes).

Definition names t d : option (gmap bytes Z) := sh ← t !! d; sh_entries sh.
Definition child t d n : option Z := es ← names t d; es !! n.
Definition is_dir t c : Prop := is_Some (names t c).
(** the parent of a directory *)
Definition par t c : option Z := sh ← t !! c; _ ← sh_entries sh; sh_parent sh.
Definition up t c p : Prop := par t c = Some p.
(** [c] is [p] or lies below it *)
Definition below t c p : Prop := rtc (up t) c p.

(** ** Operations *)

Definition edit (f : gmap bytes Z -> gmap bytes Z) d t : gmap Z shape :=
  alter (fun sh => mkShape (sh_parent sh) (f <$> sh_entries sh)) d t.

(** enter a new node under a name *)
Definition t_create p n c (sh : shape) t : gmap Z shape := <[c := sh]> (edit (<[n := c]>) p t).

(** give a node one more name *)
Definition t_link p n c t : gmap Z shape := edit (<[n := c]>) p t.

Definition named t c : Prop := exists d n, child t d n = Some c.

(** drop [c] unless it is a leaf that still has a name: [t'] is [t] or [t]
    without [c] *)
Definition t_collect c t t' : Prop :=
  (is_dir t c \/ ~ named t c) /\ t' = delete c t \/
  ~ is_dir t c /\ named t c /\ t' = t.

Definition t_remove p n c t t' : Prop := t_collect c (edit (delete n) p t) t'.

Definition reparent c d t : gmap Z shape :=
  alter (fun sh => match sh_entries sh with
                   | Some _ => mkShape (Some d) (sh_entries sh)
                   | None => sh
                   end) c t.

Definition t_move d n d' n' c t : gmap Z shape :=
  reparent c d' (edit (<[n' := c]>) d' (edit (delete n) d t)).

Definition t_rename d n d' n' c (r : option Z) t t' : Prop :=
  match r with
  | None => t' = t_move d n d' n' c t
  | Some r => t_collect r (t_move d n d' n' c t) t'
  end.

(** ** Well-formed trees *)

Record tree_wf t : Prop := {
  tw_root : is_dir t 1 /\ par t 1 = None;
  tw_child : forall d n c, child t d n = Some c -> is_Some (t !! c) /\ c <> 1;
  tw_parent : forall d n c, child t d n = Some c -> is_dir t c -> par t c = Some d;
  tw_once : forall d n n' c, child t d n = Some c -> child t d n' = Some c -> is_dir t c -> n = n';
  tw_named : forall c, is_Some (t !! c) -> c <> 1 -> named t c;
  tw_rooted : forall c, is_dir t c -> below t c 1;
}.

(** ** Lookups after an edit *)

Section lookups.

Lemma names_edit f d t d' :
  names (edit f d t) d' = if decide (d = d') then f <$> names t d' else names t d'.
Proof.
  unfold names, edit. destruct (decide (d = d')) as [->|Hne].
  - rewrite lookup_alter_eq. by destruct (t !! d') as [[? [?|]]|].
  - by rewrite lookup_alter_ne by done.
Qed.

Lemma par_edit f d t c : par (edit f d t) c = par t c.
Proof.
  unfold par, edit. destruct (decide (d = c)) as [->|Hne].
  - rewrite lookup_alter_eq. by destruct (t !! c) as [[? [?|]]|].
  - by rewrite lookup_alter_ne by done.
Qed.

Lemma edit_Some f d t c : is_Some (edit f d t !! c) <-> is_Some (t !! c).
Proof. unfold edit. apply lookup_alter_is_Some. Qed.

Lemma is_dir_edit f d t c : is_dir (edit f d t) c <-> is_dir t c.
Proof. unfold is_dir. rewrite names_edit. case_decide; [apply fmap_is_Some|done]. Qed.

Lemma child_insert p n c t d n' :
  child (edit (<[n := c]>) p t) d n' =
  if decide (p = d /\ n = n') then ((fun _ => c) <$> names t d) else child t d n'.
Proof.
  unfold child. rewrite names_edit.
  destruct (decide (p = d)) as [->|Hp]; [|rewrite decide_False by (by intros [? _]); done].
  destruct (names t d) as [es|]; simpl.
  - destruct (decide (n = n')) as [->|Hn].
    + rewrite decide_True by done. by rewrite lookup_insert_eq.
    + rewrite decide_False by (by intros [_ ?]). by rewrite lookup_insert_ne by done.
  - by case_decide.
Qed.

Lemma child_delete p n t d n' :
  child (edit (delete n) p t) d n' =
  if decide (p = d /\ n = n') then None else child t d n'.
Proof.
  unfold child. rewrite names_edit.
  destruct (decide (p = d)) as [->|Hp]; [|rewrite decide_False by (by intros [? _]); done].
  destruct (names t d) as [es|]; simpl; [|by case_decide].
  destruct (decide (n = n')) as [->|Hn].
  - rewrite decide_True by done. apply lookup_delete_eq.
  - rewrite decide_False by (by intros [_ ?]). by apply lookup_delete_ne.
Qed.

Lemma names_insert c sh t d :
  names (<[c := sh]> t) d = if decide (c = d) then sh_entries sh else names t d.
Proof.
  unfold names. case_decide as H; [subst; by rewrite lookup_insert_eq|].
  by rewrite lookup_insert_ne by done.
Qed.

Lemma par_insert c sh t d :
  par (<[c := sh]> t) d =
  if decide (c = d) then (_ ← sh_entries sh; sh_parent sh) else par t d.
Proof.
  unfold par. case_decide as H; [subst; by rewrite lookup_insert_eq|].
  by rewrite lookup_insert_ne by done.
Qed.

Lemma names_remove c t d : names (delete c t) d = if decide (c = d) then None else names t d.
Proof.
  unfold names. case_decide as H; [subst; by rewrite lookup_delete_eq|].
  by rewrite lookup_delete_ne by done.
Qed.

Lemma par_remove c t d : par (delete c t) d = if decide (c = d) then None else par t d.
Proof.
  unfold par. case_decide as H; [subst; by rewrite lookup_delete_eq|].
  by rewrite lookup_delete_ne by done.
Qed.

Lemma child_remove c t d n :
  child (delete c t) d n = if decide (c = d) then None else child t d n.
Proof. unfold child. rewrite names_remove. by case_decide. Qed.

Lemma names_reparent c d t x : names (reparent c d t) x = names t x.
Proof.
  unfold names, reparent. destruct (decide (c = x)) as [->|Hne].
  - rewrite lookup_alter_eq. by destruct (t !! x) as [[? [?|]]|].
  - by rewrite lookup_alter_ne by done.
Qed.

Lemma par_reparent c d t x :
  par (reparent c d t) x =
  if decide (c = x) then ((fun _ => d) <$> names t x) else par t x.
Proof.
  unfold par, names, reparent. destruct (decide (c = x)) as [->|Hne].
  - rewrite lookup_alter_eq. by destruct (t !! x) as [[? [?|]]|].
  - by rewrite lookup_alter_ne by done.
Qed.

Lemma reparent_Some c d t x : is_Some (reparent c d t !! x) <-> is_Some (t !! x).
Proof. unfold reparent. apply lookup_alter_is_Some. Qed.

Lemma child_dir t d n c : child t d n = Some c -> is_dir t d.
Proof. unfold child, is_dir. destruct (names t d); [by eexists|done]. Qed.

Lemma is_dir_Some t c : is_dir t c -> is_Some (t !! c).
Proof. unfold is_dir, names. destruct (t !! c); [by eexists|by intros []]. Qed.

Lemma par_dir t c p : par t c = Some p -> is_dir t c.
Proof. unfold par, is_dir, names. by destruct (t !! c) as [[? [?|]]|]. Qed.
End lookups.

(** ** Chains of parents *)

Section chains.

(** Parents are unique, so two chains from one node lie on one line. *)
Lemma below_linear t c p q : below t c p -> below t c q -> below t p q \/ below t q p.
Proof.
  intros Hp. induction Hp as [c|c e p Hce Hep IH]; intros Hq; [by left|].
  inversion Hq as [|? e' ? Hce' Heq']; subst.
  - right. by eapply rtc_l.
  - unfold up in Hce, Hce'. rewrite Hce in Hce'. simplify_eq. by apply IH.
Qed.

Lemma below_root t p : par t 1 = None -> below t 1 p -> p = 1.
Proof. intros Hr H. unfold below in H. apply rtc_inv in H as [->|(y & Hy & _)]; [done|]. unfold up in Hy. congruence. Qed.

(** A chain that never meets [c] is not changed by what happens to [c]. *)
Lemma below_frame t t' x y c :
  (forall z, z <> c -> par t z = par t' z) -> below t x y -> ~ below t x c -> below t' x y.
Proof.
  intros Hpar H. induction H as [x|x z y Hxz Hzy IH]; intros Hn; [apply rtc_refl|].
  assert (x <> c) by (intros ->; apply Hn, rtc_refl).
  apply rtc_l with z.
  - unfold up in *. by rewrite <- Hpar.
  - apply IH. intros Hz. apply Hn. by eapply rtc_l.
Qed.

(** The number of steps to the root is bounded by the number of nodes. *)
Lemma up_acyclic t x p : tree_wf t -> is_dir t x -> up t x p -> ~ below t p x.
Proof.
  intros Hwf Hx Hxp Hpx. destruct (tw_root _ Hwf) as [_ Hr].
  assert (Hall : forall z r, below t z r -> r = 1 -> below t x z -> below t z x -> False).
  { intros z r Hz. induction Hz as [z|z z' r Hzz' Hz' IH]; intros Hr1 Hxz Hzx.
    - subst z. apply below_root in Hzx as ->; [|done]. unfold up in Hxp. congruence.
    - apply IH; [done|by eapply rtc_r|].
      apply rtc_inv in Hzx as [->|(w & Hw & Hwx)]; unfold up in *; simplify_eq; done. }
  apply (Hall x 1); [by apply (tw_rooted _ Hwf)|done|apply rtc_refl|apply rtc_refl].
Qed.

Lemma nsteps_head t k x z :
  nsteps (up t) (S k) x z -> exists y, up t x y /\ nsteps (up t) k y z.
Proof. inversion 1; subst. eauto. Qed.

Lemma chain_nodes t k x :
  tree_wf t -> is_dir t x -> nsteps (up t) k x 1 ->
  exists l, length l = S k /\ NoDup l /\ forall y, y ∈ l -> is_Some (t !! y) /\ below t x y.
Proof.
  intros Hwf. revert x. induction k as [|k IH]; intros x Hx Hk.
  - inversion Hk; subst. exists [1]. split; [done|]. split; [apply NoDup_singleton|].
    intros y ->%list_elem_of_singleton. split; [by apply is_dir_Some|apply rtc_refl].
  - apply nsteps_head in Hk as (z & Hxz & Hk).
    assert (Hz : is_dir t z).
    { destruct k; [inversion Hk; subst; apply (tw_root _ Hwf)|].
      apply nsteps_head in Hk as (w & Hw & _). by eapply par_dir. }
    destruct (IH z Hz Hk) as (l & Hlen & Hnd & Hl). exists (x :: l). split; [by simpl; rewrite Hlen|].
    split.
    + apply NoDup_cons. split; [|done]. intros [_ Hb]%Hl. by apply (up_acyclic t x z).
    + intros y [->|Hy]%elem_of_cons.
      * split; [by apply is_dir_Some|apply rtc_refl].
      * destruct (Hl y Hy). split; [done|]. by eapply rtc_l.
Qed.

(** The number of steps up to any ancestor is below the number of nodes. *)
Lemma chain_short t k x y :
  tree_wf t -> is_dir t x -> nsteps (up t) k x y -> (k < size t)%nat.
Proof.
  intros Hwf Hx Hk. pose proof (tw_rooted _ Hwf x Hx) as Hr.
  assert (Hy : is_dir t y).
  { destruct k; [by inversion Hk; subst|]. apply nsteps_inv_r in Hk as (w & _ & Hw).
    assert (Hwd := par_dir _ _ _ Hw). unfold up in Hw.
    assert (w <> 1) as Hw1 by (intros ->; destruct (tw_root _ Hwf); congruence).
    destruct (tw_named _ Hwf w (is_dir_Some _ _ Hwd) Hw1) as (d & n & Hn).
    pose proof (tw_parent _ Hwf _ _ _ Hn Hwd). simplify_eq. by eapply child_dir. }
  destruct (rtc_nsteps_1 _ _ (tw_rooted _ Hwf y Hy)) as [j Hj].
  destruct (chain_nodes t (k + j) x Hwf Hx) as (l & Hlen & Hnd & Hl); [by eapply nsteps_trans|].
  assert (length l <= size t)%nat; [|lia].
  rewrite <- (size_dom t). unfold size, set_size. simpl.
  apply submseteq_length, NoDup_submseteq; [done|].
  intros z Hz. apply elem_of_elements, elem_of_dom, Hl, Hz.
Qed.

(** Climbing from a directory with a bounded number of steps. *)
Fixpoint climb t (k : nat) (x : option Z) (a : Z) : bool :=
  match x with
  | None => false
  | Some x =>
    if x =? a then true else
    match k with O => false | S k => climb t k (par t x) a end
  end.

Lemma climb_sound t k x a : climb t k (Some x) a = true -> below t x a.
Proof.
  revert x. induction k as [|k IH]; intros x; simpl;
    (destruct (x =? a) eqn:E; [apply Z.eqb_eq in E as ->; intros; apply rtc_refl|]); [done|].
  destruct (par t x) as [p|] eqn:Ep; [|by destruct k].
  intros H. apply rtc_l with p; [done|by apply IH].
Qed.

Lemma climb_complete t j k x a :
  nsteps (up t) j x a -> (j <= k)%nat -> climb t k (Some x) a = true.
Proof.
  revert k x. induction j as [|j IH]; intros k x Hj Hk.
  - inversion Hj; subst. destruct k; simpl; by rewrite Z.eqb_refl.
  - apply nsteps_head in Hj as (p & Hp & Hj). destruct k as [|k]; [lia|]. simpl.
    destruct (x =? a); [done|]. rewrite Hp. apply IH; [done|lia].
Qed.

(** As many steps as there are nodes are enough. *)
Lemma climb_exact t x a :
  tree_wf t -> is_dir t x -> climb t (size t) (Some x) a = true <-> below t x a.
Proof.
  intros Hwf Hx. split; [apply climb_sound|]. intros [j Hj]%rtc_nsteps_1.
  eapply climb_complete; [done|]. pose proof (chain_short t j x a Hwf Hx Hj). lia.
Qed.
End chains.

(** ** Preservation *)

Section preservation.

Lemma below_ext t t' x y : (forall z, par t z = par t' z) -> below t x y -> below t' x y.
Proof.
  intros Hpar H. induction H as [x|x z y Hxz Hzy IH]; [apply rtc_refl|].
  apply rtc_l with z; [|done]. unfold up in *. by rewrite <- Hpar.
Qed.

(** The part of a chain before [c] is not changed by what happens to [c]. *)
Lemma below_to t t' x c :
  (forall z, z <> c -> par t z = par t' z) -> below t x c -> below t' x c.
Proof.
  intros Hpar H. induction H as [x|x z c Hxz Hzy IH]; [apply rtc_refl|].
  destruct (decide (x = c)) as [->|Hne]; [apply rtc_refl|].
  apply rtc_l with z; [|by apply IH]. unfold up in *. by rewrite <- Hpar.
Qed.

(** A directory's only name is the one its parent entry gives it. *)
Lemma dir_name_unique t d n d' n' c :
  tree_wf t -> is_dir t c -> child t d n = Some c -> child t d' n' = Some c -> d = d' /\ n = n'.
Proof.
  intros Hwf Hc H1 H2.
  pose proof (tw_parent _ Hwf _ _ _ H1 Hc). pose proof (tw_parent _ Hwf _ _ _ H2 Hc).
  simplify_eq. split; [done|]. by eapply (tw_once _ Hwf).
Qed.

(** Nothing has a childless node as its parent. *)
Lemma childless_below t x c :
  tree_wf t -> (forall n, child t c n = None) -> below t x c -> x = c.
Proof.
  intros Hwf Hc H. apply rtc_inv_r in H as [->|(y & Hxy & Hy)]; [done|]. exfalso.
  unfold up in Hy. pose proof (par_dir _ _ _ Hy) as Hdir.
  assert (y <> 1) as Hy1 by (intros ->; destruct (tw_root _ Hwf); congruence).
  destruct (tw_named _ Hwf y (is_dir_Some _ _ Hdir) Hy1) as (d & n & Hn).
  pose proof (tw_parent _ Hwf _ _ _ Hn Hdir). simplify_eq. by rewrite Hc in Hn.
Qed.

Lemma link_wf p n c t :
  tree_wf t -> is_dir t p -> child t p n = None -> is_Some (t !! c) -> ~ is_dir t c ->
  tree_wf (t_link p n c t).
Proof.
  intros Hwf Hp Hfree Hc Hleaf. unfold t_link.
  assert (c <> 1) as Hc1 by (intros ->; by destruct (tw_root _ Hwf)).
  assert (Hch : forall d m x, child (edit (<[n := c]>) p t) d m = Some x -> is_dir t x ->
                child t d m = Some x).
  { intros d m x. rewrite child_insert. case_decide as Hd; [|done].
    destruct (names t d); [|done]. intros [= <-]. done. }
  split.
  - rewrite is_dir_edit, par_edit. apply (tw_root _ Hwf).
  - intros d m x. rewrite child_insert, edit_Some. case_decide as Hd.
    + destruct (names t d); [|done]. by intros [= <-].
    + apply (tw_child _ Hwf).
  - intros d m x H Hx. rewrite is_dir_edit in Hx. rewrite par_edit.
    apply (tw_parent _ Hwf _ m); auto.
  - intros d m m' x H H' Hx. rewrite is_dir_edit in Hx. eapply (tw_once _ Hwf d); eauto.
  - intros x. rewrite edit_Some. intros Hx Hx1.
    destruct (tw_named _ Hwf x Hx Hx1) as (d & m & Hm). exists d, m. rewrite child_insert.
    case_decide as Hd; [|done]. destruct Hd as [-> ->]. congruence.
  - intros x. rewrite is_dir_edit. intros Hx.
    apply below_ext with t; [intros; by rewrite par_edit|by apply (tw_rooted _ Hwf)].
Qed.

Lemma child_create p n c sh t d m :
  is_dir t p -> t !! c = None -> default ∅ (sh_entries sh) = ∅ ->
  child (t_create p n c sh t) d m =
  if decide (d = c) then None else if decide (p = d /\ n = m) then Some c else child t d m.
Proof.
  intros Hp Hc Hsh. unfold t_create.
  unfold child at 1. rewrite names_insert. destruct (decide (c = d)) as [->|Hne].
  - rewrite decide_True by done. destruct (sh_entries sh); simpl in *; subst; done.
  - rewrite (decide_False (P := d = c)) by done. fold (child (edit (<[n:=c]>) p t) d m).
    rewrite child_insert. case_decide as Hd; [|done]. destruct Hd as [-> ->].
    destruct Hp as [es Hes]. by rewrite Hes.
Qed.

Lemma par_create p n c sh t x :
  x <> c -> par (t_create p n c sh t) x = par t x.
Proof. intros Hx. unfold t_create. by rewrite par_insert, decide_False, par_edit. Qed.

Lemma is_dir_create p n c sh t x :
  x <> c -> is_dir (t_create p n c sh t) x <-> is_dir t x.
Proof.
  intros Hx. unfold t_create, is_dir at 1. rewrite names_insert, decide_False by done.
  apply is_dir_edit.
Qed.

Lemma create_wf p n c es t :
  tree_wf t -> is_dir t p -> child t p n = None -> t !! c = None -> default ∅ es = ∅ ->
  tree_wf (t_create p n c (mkShape (Some p) es) t).
Proof.
  intros Hwf Hp Hfree Hc Hes.
  assert (Hpc : p <> c) by (intros ->; apply is_dir_Some in Hp as [? ?]; congruence).
  assert (Hc1 : c <> 1).
  { intros ->. destruct (tw_root _ Hwf) as [H _]. apply is_dir_Some in H as [? ?]. congruence. }
  assert (Hnc : forall d m, child t d m <> Some c).
  { intros d m H. destruct (tw_child _ Hwf _ _ _ H) as [[? ?] _]. congruence. }
  assert (Hcd : forall m, child t c m = None).
  { intros m. unfold child, names. by rewrite Hc. }
  assert (Hold : forall d m x, x <> c ->
    child (t_create p n c (mkShape (Some p) es) t) d m = Some x <-> child t d m = Some x).
  { intros d m x Hx. rewrite child_create by done.
    destruct (decide (d = c)) as [->|Hdc]; [by rewrite Hcd|].
    case_decide as Hd; [|done]. destruct Hd as [-> ->]. rewrite Hfree. split; congruence. }
  split.
  - rewrite is_dir_create, par_create by done. apply (tw_root _ Hwf).
  - intros d m x. destruct (decide (x = c)) as [->|Hx].
    + intros _. split; [|done]. unfold t_create. rewrite lookup_insert_eq. by eexists.
    + rewrite Hold by done. intros [Hs Hx1]%(tw_child _ Hwf). split; [|done].
      unfold t_create. by rewrite lookup_insert_ne, edit_Some.
  - intros d m x. destruct (decide (x = c)) as [->|Hx].
    + rewrite child_create by done. case_decide; [done|]. case_decide as Hd; [|naive_solver].
      destruct Hd as [-> ->]. intros _ [es' Hes']. unfold t_create in *.
      rewrite names_insert, decide_True in Hes' by done. simpl in Hes'.
      by rewrite par_insert, decide_True, Hes'.
    + rewrite Hold, is_dir_create, par_create by done. apply (tw_parent _ Hwf).
  - intros d m m' x. destruct (decide (x = c)) as [->|Hx].
    + rewrite !child_create by done. do 3 (case_decide; try done); naive_solver.
    + rewrite !Hold, is_dir_create by done. apply (tw_once _ Hwf).
  - intros x Hx Hx1. destruct (decide (x = c)) as [->|Hxc].
    + exists p, n. rewrite child_create by done. by rewrite decide_False, decide_True by done.
    + unfold t_create in Hx. rewrite lookup_insert_ne, edit_Some in Hx by done.
      destruct (tw_named _ Hwf x Hx Hx1) as (d & m & Hm). exists d, m. by apply Hold.
  - assert (Hroot : forall x, x <> c -> is_dir t x ->
              below (t_create p n c (mkShape (Some p) es) t) x 1).
    { intros x Hx Hd. apply below_frame with t c.
      - intros z Hz. by rewrite par_create.
      - by apply (tw_rooted _ Hwf).
      - intros Hb. apply Hx. by apply (childless_below t). }
    intros x. destruct (decide (x = c)) as [->|Hx].
    + intros [es' Hes']. apply rtc_l with p; [|by apply Hroot].
      unfold up, t_create in *. rewrite names_insert, decide_True in Hes' by done. simpl in Hes'.
      by rewrite par_insert, decide_True, Hes'.
    + rewrite is_dir_create by done. by apply Hroot.
Qed.

Lemma child_unname p n t d m x :
  child (edit (delete n) p t) d m = Some x -> child t d m = Some x.
Proof. rewrite child_delete. by case_decide. Qed.

Lemma child_unname_ne p n c t d m x :
  child t p n = Some c -> x <> c -> child t d m = Some x ->
  child (edit (delete n) p t) d m = Some x.
Proof.
  intros Hn Hx H. rewrite child_delete. case_decide as Hd; [|done].
  destruct Hd as [-> ->]. congruence.
Qed.

(** Taking one of several names from a leaf. *)
Lemma unname_wf p n c t :
  tree_wf t -> child t p n = Some c -> ~ is_dir t c -> named (edit (delete n) p t) c ->
  tree_wf (edit (delete n) p t).
Proof.
  intros Hwf Hn Hleaf Hnamed. split.
  - rewrite is_dir_edit, par_edit. apply (tw_root _ Hwf).
  - intros d m x H%child_unname. rewrite edit_Some. by apply (tw_child _ Hwf d m).
  - intros d m x H%child_unname. rewrite is_dir_edit, par_edit. by apply (tw_parent _ Hwf _ m).
  - intros d m m' x H%child_unname H'%child_unname. rewrite is_dir_edit. by apply (tw_once _ Hwf d).
  - intros x. rewrite edit_Some. intros Hx Hx1. destruct (decide (x = c)) as [->|Hxc]; [done|].
    destruct (tw_named _ Hwf x Hx Hx1) as (d & m & Hm). exists d, m.
    by eapply child_unname_ne.
  - intros x. rewrite is_dir_edit. intros Hd.
    apply below_ext with t; [intros; by rewrite par_edit|by apply (tw_rooted _ Hwf)].
Qed.

(** Taking the last name from a node without children, and the node. *)
Lemma delete_wf p n c t :
  tree_wf t -> child t p n = Some c -> (forall m, child t c m = None) ->
  (forall d m, child (edit (delete n) p t) d m <> Some c) ->
  tree_wf (delete c (edit (delete n) p t)).
Proof.
  intros Hwf Hn Hempty Hno.
  assert (Hc1 : c <> 1) by apply (tw_child _ Hwf _ _ _ Hn).
  assert (Hsub : forall d m x, child (delete c (edit (delete n) p t)) d m = Some x ->
            child t d m = Some x /\ x <> c).
  { intros d m x. rewrite child_remove. case_decide; [done|]. intros Hi.
    split; [by eapply child_unname|]. intros ->. by eapply Hno. }
  assert (Hdirs : forall x, is_dir (delete c (edit (delete n) p t)) x <-> is_dir t x /\ x <> c).
  { intros x. unfold is_dir at 1. rewrite names_remove. case_decide as Hx.
    - split; [by intros []|by intros [_ ?]].
    - fold (is_dir (edit (delete n) p t) x). rewrite is_dir_edit. naive_solver. }
  assert (Hpar : forall x, x <> c -> par t x = par (delete c (edit (delete n) p t)) x).
  { intros x Hx. by rewrite par_remove, decide_False, par_edit. }
  split.
  - rewrite Hdirs, <- Hpar by done. destruct (tw_root _ Hwf). naive_solver.
  - intros d m x [H Hx]%Hsub. destruct (tw_child _ Hwf _ _ _ H) as [Hs ?]. split; [|done].
    by rewrite lookup_delete_ne, edit_Some.
  - intros d m x [H Hx]%Hsub [Hd _]%Hdirs. rewrite <- Hpar by done. by apply (tw_parent _ Hwf _ m).
  - intros d m m' x [H Hx]%Hsub [H' _]%Hsub [Hd _]%Hdirs. by eapply (tw_once _ Hwf d).
  - intros x Hx Hx1. destruct (decide (x = c)) as [->|Hxc].
    { rewrite lookup_delete_eq in Hx. by destruct Hx. }
    rewrite lookup_delete_ne, edit_Some in Hx by done.
    destruct (tw_named _ Hwf x Hx Hx1) as (d & m & Hm). exists d, m. rewrite child_remove.
    case_decide as Hd; [subst; by rewrite Hempty in Hm|]. by eapply child_unname_ne.
  - intros x [Hd Hx]%Hdirs. apply below_frame with t c; [done|by apply (tw_rooted _ Hwf)|].
    intros Hb. apply Hx. by apply (childless_below t).
Qed.

Lemma remove_wf p n c t t' :
  tree_wf t -> child t p n = Some c -> (forall m, child t c m = None) -> t_remove p n c t t' ->
  tree_wf t'.
Proof.
  intros Hwf Hn Hempty [[Hgone ->]|(Hleaf & Hnamed & ->)].
  - apply delete_wf; [done..|]. intros d m H.
    destruct Hgone as [Hdir|Hun]; [|apply Hun; by exists d, m].
    rewrite is_dir_edit in Hdir.
    destruct (dir_name_unique t p n d m c) as [-> ->]; eauto using child_unname.
    by rewrite child_delete, decide_True in H.
  - rewrite is_dir_edit in Hleaf. by eapply unname_wf.
Qed.

(** *** Moving *)

Lemma child_move d n d' n' c t x m :
  is_dir t d' ->
  child (t_move d n d' n' c t) x m =
  if decide (d' = x /\ n' = m) then Some c
  else if decide (d = x /\ n = m) then None else child t x m.
Proof.
  intros Hd'. unfold t_move, child at 1. rewrite names_reparent.
  fold (child (edit (<[n' := c]>) d' (edit (delete n) d t)) x m).
  rewrite child_insert. case_decide as Hx; [|apply child_delete].
  destruct Hx as [-> ->]. rewrite <- (is_dir_edit (delete n) d) in Hd'.
  destruct Hd' as [es Hes]. by rewrite Hes.
Qed.

Lemma is_dir_move d n d' n' c t x : is_dir (t_move d n d' n' c t) x <-> is_dir t x.
Proof.
  unfold t_move, is_dir at 1. rewrite names_reparent.
  fold (is_dir (edit (<[n' := c]>) d' (edit (delete n) d t)) x). by rewrite !is_dir_edit.
Qed.

Lemma move_Some d n d' n' c t x : is_Some (t_move d n d' n' c t !! x) <-> is_Some (t !! x).
Proof. unfold t_move. by rewrite reparent_Some, !edit_Some. Qed.

Lemma par_move_ne d n d' n' c t x : x <> c -> par (t_move d n d' n' c t) x = par t x.
Proof. intros Hx. unfold t_move. by rewrite par_reparent, decide_False, !par_edit. Qed.

Lemma par_move d n d' n' c t : is_dir t c -> par (t_move d n d' n' c t) c = Some d'.
Proof.
  intros Hc. unfold t_move. rewrite par_reparent, decide_True by done.
  rewrite <- (is_dir_edit (delete n) d), <- (is_dir_edit (<[n' := c]>) d') in Hc.
  destruct Hc as [es Hes]. by rewrite Hes.
Qed.

(** Every node still reaches the root after [c] has been moved under [d']:
    the chain from [d'] does not pass through [c]. *)
Lemma move_rooted d n d' n' c t x :
  tree_wf t -> is_dir t d' -> (is_dir t c -> ~ below t d' c) -> is_dir t x ->
  below (t_move d n d' n' c t) x 1.
Proof.
  intros Hwf Hd' Hsafe Hx. set (t' := t_move d n d' n' c t).
  assert (Hpar : forall z, z <> c -> par t z = par t' z).
  { intros z Hz. unfold t'. by rewrite par_move_ne. }
  assert (Hc : is_dir t c -> below t' c 1).
  { intros Hc. apply rtc_l with d'; [by apply par_move|].
    apply below_frame with t c; [done|by apply (tw_rooted _ Hwf)|by apply Hsafe]. }
  assert (Hall : forall r, below t x r -> r = 1 -> below t' x 1); [|by eauto using tw_rooted].
  clear Hx. intros r Hb. induction Hb as [x|x y r Hxy Hyr IH]; intros ->; [apply rtc_refl|].
  destruct (decide (x = c)) as [->|Hne]; [by eapply Hc, par_dir|].
  apply rtc_l with y; [|by apply IH]. unfold up in *. by rewrite <- Hpar.
Qed.

Lemma move_wf d n d' n' c t :
  tree_wf t -> child t d n = Some c -> is_dir t d' -> child t d' n' = None ->
  (is_dir t c -> ~ below t d' c) -> tree_wf (t_move d n d' n' c t).
Proof.
  intros Hwf Hn Hd' Hfree Hsafe.
  destruct (tw_child _ Hwf _ _ _ Hn) as [Hcs Hc1].
  assert (Hold : forall x m y, y <> c -> child (t_move d n d' n' c t) x m = Some y <->
            child t x m = Some y).
  { intros x m y Hy. rewrite child_move by done. case_decide as H1.
    - destruct H1 as [-> ->]. rewrite Hfree. split; congruence.
    - case_decide as H2; [|done]. destruct H2 as [-> ->]. rewrite Hn. split; congruence. }
  assert (Hnew : forall x m, is_dir t c -> child (t_move d n d' n' c t) x m = Some c ->
            x = d' /\ m = n').
  { intros x m Hdir. rewrite child_move by done. case_decide as H1; [naive_solver|].
    case_decide as H2; [done|]. intros H. destruct H2.
    by apply (dir_name_unique t d n x m c). }
  split.
  - rewrite is_dir_move, par_move_ne by done. apply (tw_root _ Hwf).
  - intros x m y. rewrite move_Some. destruct (decide (y = c)) as [->|Hy]; [done|].
    rewrite Hold by done. apply (tw_child _ Hwf).
  - intros x m y H. rewrite is_dir_move. intros Hy. destruct (decide (y = c)) as [->|Hyc].
    + destruct (Hnew x m Hy H) as [-> _]. by apply par_move.
    + rewrite Hold in H by done. rewrite par_move_ne by done. by apply (tw_parent _ Hwf _ m).
  - intros x m m' y H H'. rewrite is_dir_move. intros Hy. destruct (decide (y = c)) as [->|Hyc].
    + destruct (Hnew x m Hy H) as [_ ->]. by destruct (Hnew x m' Hy H') as [_ ->].
    + rewrite Hold in H, H' by done. by eapply (tw_once _ Hwf x).
  - intros y. rewrite move_Some. intros Hy Hy1. destruct (decide (y = c)) as [->|Hyc].
    + exists d', n'. by rewrite child_move, decide_True.
    + destruct (tw_named _ Hwf y Hy Hy1) as (x & m & Hm). exists x, m. by apply Hold.
  - intros y. rewrite is_dir_move. by apply move_rooted.
Qed.

(** Replacing an entry is removing it and then moving onto the free name. *)
Lemma edit_edit f g d t : edit f d (edit g d t) = edit (fun es => f (g es)) d t.
Proof.
  unfold edit. rewrite alter_alter_eq. apply alter_ext. intros [? [?|]]; done.
Qed.

Lemma edit_comm f g d d' t :
  (forall es, f (g es) = g (f es)) -> edit f d (edit g d' t) = edit g d' (edit f d t).
Proof.
  intros Hfg. destruct (decide (d = d')) as [->|Hne].
  - rewrite !edit_edit. unfold edit. apply alter_ext. intros [? [es|]] _; simpl; [|done].
    by rewrite Hfg.
  - unfold edit. by apply alter_alter_ne.
Qed.

Lemma edit_delete_ne f d c t : d <> c -> edit f d (delete c t) = delete c (edit f d t).
Proof. intros H. unfold edit. by apply alter_delete_ne. Qed.

Lemma reparent_delete_ne x d c t : x <> c -> reparent x d (delete c t) = delete c (reparent x d t).
Proof. intros H. unfold reparent. by apply alter_delete_ne. Qed.

Lemma move_unname d n d' n' c t :
  t_move d n d' n' c (edit (delete n') d' t) = t_move d n d' n' c t.
Proof.
  unfold t_move. f_equal. rewrite (edit_comm (delete n) (delete n')) by (intros; apply delete_delete).
  rewrite edit_edit. unfold edit at 1 3. apply alter_ext. intros [? [es|]] _; simpl; [|done].
  by rewrite insert_delete_eq.
Qed.

Lemma rename_decompose d n d' n' c r t t' :
  child t d n = Some c -> child t d' n' = Some r -> is_dir t d' -> c <> r -> d <> r -> d' <> r ->
  t_rename d n d' n' c (Some r) t t' ->
  exists t1, t_remove d' n' r t t1 /\ t' = t_move d n d' n' c t1.
Proof.
  intros Hn Hr Hd' Hcr Hdr Hd'r Hren. simpl in Hren.
  assert (Hnamed : named (t_move d n d' n' c t) r <-> named (edit (delete n') d' t) r).
  { unfold named. setoid_rewrite child_delete. setoid_rewrite child_move; [|done].
    split; intros (x & m & H); exists x, m; repeat case_decide; naive_solver. }
  assert (Hdir : is_dir (t_move d n d' n' c t) r <-> is_dir (edit (delete n') d' t) r).
  { by rewrite is_dir_move, is_dir_edit. }
  unfold t_collect in Hren. rewrite Hnamed, Hdir in Hren.
  destruct Hren as [[Hg ->]|(Hl & Hk & ->)].
  - exists (delete r (edit (delete n') d' t)). split; [left; split; [done|done]|].
    rewrite <- (move_unname d n d' n' c t). unfold t_move.
    by rewrite !edit_delete_ne, reparent_delete_ne by done.
  - exists (edit (delete n') d' t). split; [right; split; [done|by split]|]. by rewrite move_unname.
Qed.

(** What a removal leaves alone. *)
Lemma remove_frame p n r t t1 :
  t_remove p n r t t1 ->
  (forall x m, x <> r -> child t1 x m = child (edit (delete n) p t) x m) /\
  (forall x, x <> r -> is_dir t1 x <-> is_dir t x) /\
  (forall x y, par t1 x = Some y -> par t x = Some y).
Proof.
  intros Hrem.
  assert (Hu : t1 = edit (delete n) p t \/ t1 = delete r (edit (delete n) p t)).
  { destruct Hrem as [[_ ->]|(_ & _ & ->)]; auto. }
  destruct Hu as [->| ->]; (split; [|split]).
  - done.
  - intros. apply is_dir_edit.
  - intros x y. by rewrite par_edit.
  - intros x m Hx. by rewrite child_remove, decide_False.
  - intros x Hx. unfold is_dir at 1. rewrite names_remove, decide_False by done. apply is_dir_edit.
  - intros x y. rewrite par_remove, par_edit. by case_decide.
Qed.

Lemma rename_wf d n d' n' c r t t' :
  tree_wf t -> child t d n = Some c -> is_dir t d' -> child t d' n' = r -> r <> Some c ->
  (is_dir t c -> ~ below t d' c) ->
  (forall r', r = Some r' -> forall m, child t r' m = None) ->
  t_rename d n d' n' c r t t' -> tree_wf t'.
Proof.
  intros Hwf Hn Hd' Hr Hrc Hsafe Hempty Hren.
  destruct r as [r|]; [|simpl in Hren; subst; by apply move_wf].
  specialize (Hempty _ eq_refl).
  assert (d <> r) by (intros ->; by rewrite Hempty in Hn).
  assert (d' <> r) by (intros ->; by rewrite Hempty in Hr).
  assert (c <> r) by congruence.
  destruct (rename_decompose d n d' n' c r t t') as (t1 & Hrem & ->); [done..|].
  destruct (remove_frame _ _ _ _ _ Hrem) as (Hch & Hdir & Hpar).
  apply move_wf; [by eapply remove_wf|..].
  - rewrite Hch, child_delete by done. case_decide as H'; [|done]. destruct H' as [-> ->]. congruence.
  - by apply Hdir.
  - rewrite Hch, child_delete by done. by rewrite decide_True.
  - rewrite Hdir by done. intros Hc Hb. apply (Hsafe Hc).
    clear -Hb Hpar. induction Hb as [x|x y z Hxy Hyz IH]; [apply rtc_refl|].
    apply rtc_l with y; [|done]. by apply Hpar.
Qed.
End preservation.
