(* ===== verification/MemFsSpec.v ===== *)
(** * The in-memory filesystem implements a directory tree

    [tree_of] forgets attributes and contents.  Every operation of MemFs is
    shown to act on the tree as the operation of DirTree does, the link
    counts are shown to be the number of names, and the whole state keeps
    the invariant [fs_inv]. *)

From stdpp Require Import base gmap list sets strings numbers relations sorting.
From Stdlib Require Import ZArith Lia.
From S2P Require Import Prelude Xdr Rpc Types StateModel FsApi MemFs DirTree.

Local Open Scope Z_scope.

Implicit Types (m : gmap Z Inode) (fs : MemFs) (nd : Inode).

(** ** The tree of a state *)

Definition shape_of nd : shape := mkShape (nd_parent nd) (dir_entries nd).
Definition tree_of m : gmap Z shape := shape_of <$> m.

(** What an inode's attributes say of its contents. *)
Definition node_wf (id : Z) nd : Prop :=
  at_fileid (nd_attrs nd) = id /\
  at_has_named_attrs (nd_attrs nd) = negb (bool_decide (nd_xattrs nd = ∅)) /\
  match nd_data nd with
  | D_File data =>
    at_object_type (nd_attrs nd) = OT_File /\ at_size (nd_attrs nd) = zlen data /\
    at_space_used (nd_attrs nd) = zlen data /\ zlen data <= MAX_FILE_BYTES
  | D_Directory _ => at_object_type (nd_attrs nd) = OT_Directory
  | D_Symlink target =>
    at_object_type (nd_attrs nd) = OT_Symlink /\ at_size (nd_attrs nd) = zlen target /\
    at_space_used (nd_attrs nd) = zlen target
  end.

(** Every name in the tree: directory, name, and the node it names. *)
Definition all_names (t : gmap Z shape) : list (Z * bytes * Z) :=
  map_to_list t ≫= fun '(d, sh) =>
    (fun '(n, c) => ((d, n), c)) <$> map_to_list (default ∅ (sh_entries sh)).

#[export] Instance is_dir_dec t c : Decision (is_dir t c).
Proof. unfold is_dir. apply _. Defined.

(** A leaf's link count is the number of its names; a directory's is two and
    one for every subdirectory. *)
Definition nlinks (t : gmap Z shape) (id : Z) : nat :=
  if decide (is_dir t id)
  then (2 + length (filter (fun e => e.1.1 = id /\ is_dir t e.2) (all_names t)))%nat
  else length (filter (fun e => e.2 = id) (all_names t)).

Definition links_exact m : Prop :=
  forall id nd, m !! id = Some nd ->
    at_link_count (nd_attrs nd) = u32_wrap (Z.of_nat (nlinks (tree_of m) id)).

Record fs_inv fs : Prop := {
  fi_tree : tree_wf (tree_of (mf_inodes fs));
  fi_node : forall id nd, mf_inodes fs !! id = Some nd -> node_wf id nd;
  fi_links : links_exact (mf_inodes fs);
  fi_ids : forall id, is_Some (mf_inodes fs !! id) -> 1 <= id < mf_next_id fs;
}.

(** ** Elementary facts *)

Lemma elem_of_all_names t d n c : ((d, n), c) ∈ all_names t <-> child t d n = Some c.
Proof.
  unfold all_names, child, names. rewrite list_elem_of_bind. split.
  - intros ([d' sh] & Hin & Ht). apply elem_of_map_to_list in Ht.
    apply list_elem_of_fmap in Hin as ([n' c'] & [= -> -> ->] & Hin).
    apply elem_of_map_to_list in Hin. rewrite Ht. simpl.
    destruct (sh_entries sh); simpl in *; [done|]. by rewrite lookup_empty in Hin.
  - destruct (t !! d) as [sh|] eqn:Ht; [|done]. simpl. intros Hc.
    exists (d, sh). split; [|by apply elem_of_map_to_list].
    apply list_elem_of_fmap. exists (n, c). split; [done|]. apply elem_of_map_to_list.
    by destruct (sh_entries sh).
Qed.

Lemma tree_of_lookup m id : tree_of m !! id = shape_of <$> m !! id.
Proof. apply lookup_fmap. Qed.

Lemma tree_of_insert m id nd : tree_of (<[id := nd]> m) = <[id := shape_of nd]> (tree_of m).
Proof. apply fmap_insert. Qed.

Lemma tree_of_delete m id : tree_of (delete id m) = delete id (tree_of m).
Proof. apply fmap_delete. Qed.

Lemma tree_of_same m id nd nd' :
  m !! id = Some nd -> shape_of nd' = shape_of nd -> tree_of (<[id := nd']> m) = tree_of m.
Proof.
  intros Hid Hsh. rewrite tree_of_insert, Hsh. apply insert_id.
  by rewrite tree_of_lookup, Hid.
Qed.

Lemma names_tree_of m id : names (tree_of m) id = nd ← m !! id; dir_entries nd.
Proof. unfold names. rewrite tree_of_lookup. by destruct (m !! id). Qed.

Lemma child_tree_of m id n :
  child (tree_of m) id n = nd ← m !! id; es ← dir_entries nd; es !! n.
Proof. unfold child. rewrite names_tree_of. by destruct (m !! id). Qed.

Lemma node_is_directory id nd :
  node_wf id nd -> is_directory nd = true <-> is_Some (dir_entries nd).
Proof.
  intros (_ & _ & Hd). unfold is_directory, dir_entries. rewrite bool_decide_eq_true.
  destruct (nd_data nd); simpl; [destruct Hd as [-> _]|rewrite Hd|destruct Hd as [-> _]];
    split; intros H; try done; try (by destruct H); by eexists.
Qed.

Section invariant.
Context {ho : HashOrder}.

Lemma dir_iff fs id nd :
  fs_inv fs -> mf_inodes fs !! id = Some nd ->
  is_directory nd = true <-> is_dir (tree_of (mf_inodes fs)) id.
Proof.
  intros Hinv Hid. rewrite node_is_directory by by eapply fi_node.
  unfold is_dir. by rewrite names_tree_of, Hid.
Qed.
End invariant.

(** ** Link counts *)

Section recount.
Context {ho : HashOrder}.

(** States that agree up to link counts. *)
Definition erase nd : Inode := with_attrs (set_at_link_count 0) nd.
Definition alike m m' : Prop := erase <$> m = erase <$> m'.

#[export] Instance alike_equiv : Equivalence alike.
Proof. split; [done|by intros ??|]. intros x y z. unfold alike. by intros ->. Qed.

Lemma alike_lookup m m' id :
  alike m m' ->
  match m !! id, m' !! id with
  | Some nd, Some nd' => erase nd = erase nd'
  | None, None => True
  | _, _ => False
  end.
Proof.
  intros H. pose proof (f_equal (fun x => x !! id) H) as Hid. simpl in Hid.
  rewrite !lookup_fmap in Hid.
  destruct (m !! id) as [nd|], (m' !! id) as [nd'|]; try done. by apply (inj Some) in Hid.
Qed.

Lemma alike_alter m id f : (forall nd, erase (f nd) = erase nd) -> alike (alter f id m) m.
Proof.
  intros Hf. unfold alike. apply map_eq. intros x. rewrite !lookup_fmap.
  destruct (decide (id = x)) as [->|Hne].
  - rewrite lookup_alter_eq. destruct (m !! x); simpl; [by rewrite Hf|done].
  - by rewrite lookup_alter_ne.
Qed.

#[export] Instance tree_of_alike : Proper (alike ==> eq) tree_of.
Proof.
  intros m m' H. unfold tree_of. apply map_eq. intros id. rewrite !lookup_fmap.
  pose proof (alike_lookup m m' id H) as Hid.
  destruct (m !! id) as [nd|], (m' !! id) as [nd'|]; try done.
  change (Some (shape_of (erase nd)) = Some (shape_of (erase nd'))). by rewrite Hid.
Qed.

Lemma erase_bump nd : erase (bump_link_count nd) = erase nd.
Proof. by destruct nd as [[]]. Qed.

Lemma erase_reset nd : erase (reset_link_count nd) = erase nd.
Proof. by destruct nd as [[]]. Qed.

(** One name counts for the directory it is in, if it names a directory, and
    for the node it names otherwise. *)
Definition counted m (e : Z * Z) : option Z :=
  (fun nd => if is_directory nd then e.1 else e.2) <$> m !! e.2.

Definition count_edge m (e : Z * Z) : gmap Z Inode := count_entry e.1 m e.2.

Lemma count_edge_eq m e :
  count_edge m e = match counted m e with Some x => alter bump_link_count x m | None => m end.
Proof.
  unfold count_edge, count_entry, counted. destruct (m !! e.2) as [nd|]; [|done].
  simpl. by destruct (is_directory nd).
Qed.

Lemma count_edge_alike m e : alike (count_edge m e) m.
Proof.
  rewrite count_edge_eq. destruct (counted m e); [|done]. apply alike_alter, erase_bump.
Qed.

Lemma counted_alike m m' e : alike m m' -> counted m e = counted m' e.
Proof.
  intros H. unfold counted. pose proof (alike_lookup m m' e.2 H) as Hid.
  destruct (m !! e.2) as [nd|], (m' !! e.2) as [nd'|]; try done.
  change (Some (if is_directory (erase nd) then e.1 else e.2) =
          Some (if is_directory (erase nd') then e.1 else e.2)).
  by rewrite Hid.
Qed.

Definition tally m (es : list (Z * Z)) (id : Z) : nat :=
  length (filter (fun e => counted m e = Some id) es).

Lemma foldl_count m es id :
  foldl count_edge m es !! id = Nat.iter (tally m es id) bump_link_count <$> m !! id.
Proof.
  revert m. induction es as [|e es IH]; intros m; simpl; [by destruct (m !! id)|].
  rewrite IH. pose proof (count_edge_alike m e) as Ha. unfold tally.
  assert (Hf : forall l : list (Z * Z), filter (fun e' => counted (count_edge m e) e' = Some id) l =
                    filter (fun e' => counted m e' = Some id) l).
  { intros l. apply list_filter_iff. intros e'. by rewrite (counted_alike _ _ e' Ha). }
  rewrite Hf, filter_cons, count_edge_eq. clear.
  destruct (counted m e) as [x|] eqn:Ex; [|rewrite decide_False by done; done].
  destruct (decide (x = id)) as [->|Hne].
  - rewrite lookup_alter_eq, decide_True by done. rewrite <- option_fmap_compose.
    apply option_fmap_ext. intros nd. symmetry.
    exact (Nat.iter_succ_r (length (filter _ es)) _ bump_link_count nd).
  - rewrite lookup_alter_ne, decide_False by congruence. done.
Qed.

(** The names of one directory, in the order the recount visits them. *)
Definition dir_names m (d : Z) : list (Z * bytes * Z) :=
  (fun '(n, c) => ((d, n), c)) <$> hm_iter (default ∅ (names (tree_of m) d)).

Definition edge_of (e : Z * bytes * Z) : Z * Z := (e.1.1, e.2).

Lemma count_directory_eq m d : count_directory m d = foldl count_edge m (edge_of <$> dir_names m d).
Proof.
  unfold count_directory, dir_names. rewrite names_tree_of.
  destruct (m !! d ≫= dir_entries) as [es|]; simpl.
  - generalize (hm_iter es). intros l. generalize m. induction l as [|[n c] l IH]; intros m'; [done|].
    simpl. apply IH.
  - assert (Hn : hm_iter (∅ : gmap bytes Z) = []).
    { apply Permutation_nil_r. by rewrite hm_iter_perm, map_to_list_empty. }
    by rewrite Hn.
Qed.

Lemma foldl_edge_alike m es : alike (foldl count_edge m es) m.
Proof.
  revert m. induction es as [|e es IH]; intros m; [done|]. simpl.
  etransitivity; [apply IH|apply count_edge_alike].
Qed.

Lemma foldl_directories m ids :
  foldl count_directory m ids = foldl count_edge m (edge_of <$> (ids ≫= dir_names m)).
Proof.
  revert m. induction ids as [|d ids IH]; intros m; [done|]. simpl.
  rewrite fmap_app, foldl_app, <- count_directory_eq, IH. do 2 f_equal.
  assert (Ht : tree_of (count_directory m d) = tree_of m).
  { rewrite count_directory_eq. by rewrite (foldl_edge_alike m). }
  apply list_bind_ext; [|done]. intros d'. unfold dir_names. by rewrite Ht.
Qed.

Lemma NoDup_dir_names m d : NoDup (dir_names m d).
Proof.
  unfold dir_names. apply NoDup_fmap_2; [by intros [??] [??] [= -> ->]|].
  rewrite hm_iter_perm. apply NoDup_map_to_list.
Qed.

Lemma elem_of_dir_names m d d' n c :
  ((d', n), c) ∈ dir_names m d <-> d' = d /\ child (tree_of m) d n = Some c.
Proof.
  unfold dir_names, child. rewrite list_elem_of_fmap. split.
  - intros ([n' c'] & [= -> -> ->] & Hin). rewrite elem_of_hm_iter in Hin. split; [done|].
    destruct (names (tree_of m) d); simpl in *; [done|]. by rewrite lookup_empty in Hin.
  - intros [-> Hc]. exists (n, c). split; [done|]. rewrite elem_of_hm_iter.
    by destruct (names (tree_of m) d).
Qed.

Lemma NoDup_all_names t : NoDup (all_names t).
Proof.
  unfold all_names. apply NoDup_bind.
  - intros [d sh] [d' sh'] y Hx Hx' Hy Hy'.
    apply list_elem_of_fmap in Hy as ([n c] & -> & _).
    apply list_elem_of_fmap in Hy' as ([n' c'] & [= -> -> ->] & _).
    apply elem_of_map_to_list in Hx, Hx'. congruence.
  - intros [d sh] _. apply NoDup_fmap_2; [by intros [??] [??] [= -> ->]|].
    apply NoDup_map_to_list.
  - apply NoDup_map_to_list.
Qed.

(** The recount visits every name exactly once. *)
Lemma visited_names m ids :
  NoDup ids -> (forall d, d ∈ ids <-> is_dir (tree_of m) d) ->
  ids ≫= dir_names m ≡ₚ all_names (tree_of m).
Proof.
  intros Hnd Hids. apply NoDup_Permutation; [|apply NoDup_all_names|].
  - apply NoDup_bind; [|by intros; apply NoDup_dir_names|done].
    intros d d' [[x n] c] _ _ [-> _]%elem_of_dir_names [-> _]%elem_of_dir_names. done.
  - intros [[d n] c]. rewrite elem_of_all_names, list_elem_of_bind. split.
    + by intros (d' & [-> Hc]%elem_of_dir_names & _).
    + intros Hc. exists d. rewrite elem_of_dir_names. split; [done|].
      apply Hids. by eapply child_dir.
Qed.

Lemma iter_bump k nd :
  0 <= at_link_count (nd_attrs nd) < 4294967296 ->
  at_link_count (nd_attrs (Nat.iter k bump_link_count nd)) =
  u32_wrap (at_link_count (nd_attrs nd) + Z.of_nat k).
Proof.
  intros Hr. induction k as [|k IH].
  - simpl. unfold u32_wrap. rewrite Z.mod_small; lia.
  - change (Nat.iter (S k) bump_link_count nd)
      with (bump_link_count (Nat.iter k bump_link_count nd)).
    change (at_link_count (nd_attrs (bump_link_count (Nat.iter k bump_link_count nd))))
      with (u32_wrap (at_link_count (nd_attrs (Nat.iter k bump_link_count nd)) + 1)).
    rewrite IH. unfold u32_wrap. rewrite Zplus_mod_idemp_l. f_equal. lia.
Qed.

Definition typed m : Prop :=
  forall id nd, m !! id = Some nd -> is_directory nd = true <-> is_Some (dir_entries nd).

Lemma recompute_alike m : alike (recompute_link_counts m) m.
Proof.
  unfold recompute_link_counts. rewrite foldl_directories.
  etransitivity; [apply foldl_edge_alike|].
  unfold alike. rewrite <- map_fmap_compose. apply map_fmap_ext. intros id nd _. apply erase_reset.
Qed.

Lemma reset_alike m : alike (reset_link_count <$> m) m.
Proof. unfold alike. rewrite <- map_fmap_compose. apply map_fmap_ext. intros. apply erase_reset. Qed.

Lemma tree_recompute m : tree_of (recompute_link_counts m) = tree_of m.
Proof. apply tree_of_alike, recompute_alike. Qed.

Lemma visited_recount m :
  hm_select (fun _ nd => negb (is_none (dir_entries nd))) (reset_link_count <$> m) ≫=
    dir_names (reset_link_count <$> m) ≡ₚ all_names (tree_of m).
Proof.
  rewrite <- (tree_of_alike _ _ (reset_alike m)). apply visited_names; [apply NoDup_hm_select|].
  intros d. rewrite elem_of_hm_select. unfold is_dir. rewrite names_tree_of. split.
  - intros (nd & Hd & He). rewrite Hd. simpl. by destruct (dir_entries nd).
  - destruct (_ !! d) as [nd|]; simpl; [|by intros []]. intros [es He]. exists nd. by rewrite He.
Qed.

Lemma counted_iff m id nd e :
  typed m -> m !! id = Some nd -> e ∈ all_names (tree_of m) ->
  counted (reset_link_count <$> m) (edge_of e) = Some id <->
  if is_directory nd then e.1.1 = id /\ is_dir (tree_of m) e.2 else e.2 = id.
Proof.
  intros Hty Hid. destruct e as [[d n] c]. rewrite elem_of_all_names. intros Hc%child_dir.
  rewrite (counted_alike _ m) by apply reset_alike. unfold counted, edge_of, is_dir in *. simpl.
  rewrite names_tree_of in *. pose proof (Hty id nd Hid) as Hnd.
  assert (Hd : is_directory nd = false -> d <> id).
  { intros Hf ->. rewrite Hid in Hc. simpl in Hc. apply Hnd in Hc. congruence. }
  destruct (m !! c) as [ndc|] eqn:Ec; simpl.
  - pose proof (Hty c ndc Ec) as Hndc.
    destruct (is_directory ndc) eqn:E1, (is_directory nd) eqn:E2; naive_solver.
  - destruct (is_directory nd) eqn:E2; [by split; [done|]; intros [_ []]|]. naive_solver.
Qed.

(** After a recount every link count is the number of names. *)
Lemma recompute_exact m : typed m -> links_exact (recompute_link_counts m).
Proof.
  intros Hty id nd Hid. rewrite tree_recompute. revert Hid.
  unfold recompute_link_counts. rewrite foldl_directories, foldl_count, lookup_fmap.
  destruct (m !! id) as [nd0|] eqn:Hm; [|done]. intros [= <-].
  assert (Hl : at_link_count (nd_attrs (reset_link_count nd0)) = if is_directory nd0 then 2 else 0)
    by done.
  rewrite iter_bump; rewrite Hl; [|by destruct (is_directory nd0)].
  unfold tally. rewrite (visited_recount m). f_equal.
  unfold nlinks. pose proof (Hty id nd0 Hm) as Hd.
  assert (Hdir : is_dir (tree_of m) id <-> is_directory nd0 = true).
  { unfold is_dir. rewrite names_tree_of, Hm. by rewrite Hd. }
  pose proof (fun e => counted_iff m id nd0 e Hty Hm) as Hc.
  destruct (is_directory nd0) eqn:E.
  - rewrite decide_True by by apply Hdir.
    rewrite (filter_fmap_length edge_of (fun e => e.1.1 = id /\ is_dir (tree_of m) e.2) _ _ Hc). lia.
  - rewrite decide_False by (rewrite Hdir; done).
    rewrite (filter_fmap_length edge_of (fun e => e.2 = id) _ _ Hc). lia.
Qed.
End recount.

(** ** The helpers act on the tree *)

Definition nodes_wf m : Prop := forall id nd, m !! id = Some nd -> node_wf id nd.

Section helpers.
Context {ho : HashOrder}.

Lemma nodes_typed m : nodes_wf m -> typed m.
Proof. intros H id nd Hid. by apply (node_is_directory id), H. Qed.

Lemma is_dir_tree m id nd :
  nodes_wf m -> m !! id = Some nd -> is_directory nd = true <-> is_dir (tree_of m) id.
Proof.
  intros Hn Hid. rewrite (nodes_typed m Hn id nd Hid). unfold is_dir. by rewrite names_tree_of, Hid.
Qed.

Lemma tree_Some m id : is_Some (tree_of m !! id) <-> is_Some (m !! id).
Proof. rewrite tree_of_lookup. apply fmap_is_Some. Qed.

Lemma tree_None m id : tree_of m !! id = None <-> m !! id = None.
Proof. rewrite tree_of_lookup. apply fmap_None. Qed.

Lemma nodes_insert m id nd : nodes_wf m -> node_wf id nd -> nodes_wf (<[id := nd]> m).
Proof.
  intros Hn Hnd x nd'. destruct (decide (id = x)) as [->|Hne].
  - rewrite lookup_insert_eq. by intros [= <-].
  - rewrite lookup_insert_ne by done. apply Hn.
Qed.

Lemma nodes_alike m m' : alike m m' -> nodes_wf m' -> nodes_wf m.
Proof.
  intros Ha Hn id nd Hid. pose proof (alike_lookup m m' id Ha) as He. rewrite Hid in He.
  destruct (m' !! id) as [nd'|] eqn:Hid'; [|done]. pose proof (Hn _ _ Hid') as Hw.
  change (node_wf id (erase nd)). rewrite He. exact Hw.
Qed.

Lemma alike_Some m m' id : alike m m' -> is_Some (m !! id) <-> is_Some (m' !! id).
Proof.
  intros Ha. pose proof (alike_lookup m m' id Ha).
  destruct (m !! id), (m' !! id); try done; split; by eexists.
Qed.

(** *** Directory edits *)

Lemma edit_directory_lookup now k f d fs id nd :
  mf_inodes (edit_directory now k f d fs) !! id = Some nd ->
  exists nd0, mf_inodes fs !! id = Some nd0 /\
    (nd = nd0 \/ exists a, id = d /\ nd_attrs nd = a /\ at_fileid a = at_fileid (nd_attrs nd0) /\
       at_object_type a = at_object_type (nd_attrs nd0) /\ at_size a = at_size (nd_attrs nd0) /\
       at_space_used a = at_space_used (nd_attrs nd0) /\
       at_has_named_attrs a = at_has_named_attrs (nd_attrs nd0) /\ nd_xattrs nd = nd_xattrs nd0 /\
       match nd_data nd0 with D_Directory es => nd_data nd = D_Directory (f es)
                            | dt => nd_data nd = dt end).
Proof.
  unfold edit_directory. destruct (mf_inodes fs !! d) as [nd0|] eqn:Hd; [|by eauto].
  simpl. destruct (decide (d = id)) as [->|Hne].
  - rewrite lookup_insert_eq. intros [= <-]. exists nd0. split; [done|]. right.
    eexists. split; [done|]. split; [done|]. by destruct (nd_data nd0) eqn:E; simpl.
  - rewrite lookup_insert_ne by done. eauto.
Qed.

Lemma nodes_edit now k f d fs :
  nodes_wf (mf_inodes fs) -> nodes_wf (mf_inodes (edit_directory now k f d fs)).
Proof.
  intros Hn id nd Hid. apply edit_directory_lookup in Hid as (nd0 & Hid & [->|Ha]); [by apply Hn|].
  destruct Ha as (a & -> & Hna & H1 & H2 & H3 & H4 & H5 & H6 & H7).
  pose proof (Hn _ _ Hid) as (W1 & W2 & W3). unfold node_wf.
  rewrite Hna, H1, H2, H3, H4, H5, H6. split; [done|]. split; [done|].
  destruct (nd_data nd0); rewrite H7; done.
Qed.

Lemma tree_edit now k f d fs :
  tree_of (mf_inodes (edit_directory now k f d fs)) = edit f d (tree_of (mf_inodes fs)).
Proof.
  unfold edit_directory, edit. destruct (mf_inodes fs !! d) as [nd|] eqn:Hd.
  - simpl. rewrite tree_of_insert. apply map_eq. intros x.
    destruct (decide (d = x)) as [->|Hne].
    + rewrite lookup_insert_eq, lookup_alter_eq, tree_of_lookup, Hd. simpl.
      unfold shape_of, dir_entries. simpl. by destruct (nd_data nd) eqn:E; simpl; rewrite ?E.
    + by rewrite lookup_insert_ne, lookup_alter_ne.
  - symmetry. apply map_eq. intros x. destruct (decide (d = x)) as [->|Hne].
    + by rewrite lookup_alter_eq, tree_of_lookup, Hd.
    + by rewrite lookup_alter_ne.
Qed.

Lemma edit_directory_ids now k f d fs :
  mf_next_id (edit_directory now k f d fs) = mf_next_id fs.
Proof. unfold edit_directory. by destruct (mf_inodes fs !! d). Qed.

(** *** Collection of an unlinked inode *)

Lemma named_any m c :
  hm_any (fun _ nd => match nd_data nd with
                      | D_Directory es => hm_any (fun _ id => id =? c) es
                      | _ => false
                      end) m = true <-> named (tree_of m) c.
Proof.
  rewrite hm_any_true. unfold named. split.
  - intros (d & nd & Hd & Hany). destruct (nd_data nd) as [|es|] eqn:E; try done.
    apply hm_any_true in Hany as (n & c' & Hn & ->%Z.eqb_eq). exists d, n.
    rewrite child_tree_of, Hd. simpl. unfold dir_entries. by rewrite E.
  - intros (d & n & Hn). rewrite child_tree_of in Hn.
    destruct (m !! d) as [nd|] eqn:Hd; [|done]. simpl in Hn. exists d, nd. split; [done|].
    unfold dir_entries in Hn. destruct (nd_data nd) as [|es|]; try done. simpl in Hn.
    apply hm_any_true. exists n, c. by rewrite Z.eqb_refl.
Qed.

Lemma remove_if_unlinked_tree m c :
  nodes_wf m -> is_Some (m !! c) -> t_collect c (tree_of m) (tree_of (remove_if_unlinked m c)).
Proof.
  intros Hn [nd Hc]. unfold remove_if_unlinked, t_collect. rewrite Hc.
  pose proof (is_dir_tree m c nd Hn Hc) as Hdir. pose proof (named_any m c) as Hnm.
  destruct (is_directory nd); [left; split; [left; by apply Hdir|apply tree_of_delete]|].
  assert (~ is_dir (tree_of m) c) by (intros H%Hdir; done).
  destruct (hm_any _ m); simpl.
  - right. split; [done|]. split; [by apply Hnm|done].
  - left. split; [right; intros H'%Hnm; done|apply tree_of_delete].
Qed.

Lemma remove_if_unlinked_sub m c id nd :
  remove_if_unlinked m c !! id = Some nd -> m !! id = Some nd.
Proof.
  unfold remove_if_unlinked. intros H. cbv zeta in H.
  match type of H with context [if ?b then delete _ _ else _] => generalize dependent b end.
  intros [] H; [|done]. by apply lookup_delete_Some in H as [_ H].
Qed.

(** *** Reparenting *)

Lemma reparent_id t c d : (is_dir t c -> par t c = Some d) -> reparent c d t = t.
Proof.
  intros H. unfold reparent. apply alter_id. intros sh Hc. destruct sh as [p [es|]]; [|done].
  simpl. unfold is_dir, names, par in H. rewrite Hc in H. simpl in H.
  f_equal. symmetry. apply H. by eexists.
Qed.

Lemma tree_reparent m c nd d :
  nodes_wf m -> m !! c = Some nd ->
  tree_of (if is_directory nd then <[c := set_nd_parent (Some d) nd]> m else m) =
  reparent c d (tree_of m).
Proof.
  intros Hn Hc. pose proof (nodes_typed m Hn c nd Hc) as Hd. unfold reparent.
  apply map_eq. intros x. destruct (decide (c = x)) as [->|Hne].
  - rewrite lookup_alter_eq, (tree_of_lookup m), Hc. simpl.
    destruct (is_directory nd).
    + rewrite tree_of_lookup, lookup_insert_eq. simpl. unfold shape_of. simpl.
      change (dir_entries (set_nd_parent (Some d) nd)) with (dir_entries nd).
      destruct (dir_entries nd); [done|]. by destruct (proj1 Hd eq_refl).
    + rewrite tree_of_lookup, Hc. simpl. destruct (dir_entries nd); [|done].
      exfalso. by discriminate (proj2 Hd (mk_is_Some _ _ eq_refl)).
  - rewrite lookup_alter_ne by done. destruct (is_directory nd); [|done].
    by rewrite tree_of_insert, lookup_insert_ne.
Qed.

(** *** Recounting restores the invariant *)

Lemma relink_inv fs :
  tree_wf (tree_of (mf_inodes fs)) -> nodes_wf (mf_inodes fs) ->
  (forall id, is_Some (mf_inodes fs !! id) -> 1 <= id < mf_next_id fs) -> fs_inv (relink fs).
Proof.
  intros Ht Hn Hi. unfold relink. split; simpl.
  - by rewrite tree_recompute.
  - eapply nodes_alike; [apply recompute_alike|done].
  - by apply recompute_exact, nodes_typed.
  - intros id. rewrite (alike_Some _ _ id (recompute_alike _)). apply Hi.
Qed.

Lemma tree_relink fs : tree_of (mf_inodes (relink fs)) = tree_of (mf_inodes fs).
Proof. apply tree_recompute. Qed.
End helpers.
