(* ===== verification/MemFsRefine.v ===== *)
(** * Every operation of the in-memory filesystem refines its specification

    [op_spec] says, for each modifying operation, what it does to the
    directory tree and, for the operations on names, exactly which errors it
    can answer and when; [run_op_refines] shows the code does that and keeps
    [fs_inv].  What the operations do to contents and extended attributes, and
    the errors that depend on them, is in [MemFsContents]. *)

From stdpp Require Import base gmap list sets strings numbers relations sorting.
From Stdlib Require Import ZArith Lia.
From S2P Require Import Prelude Xdr Rpc Types StateModel FsApi MemFs DirTree MemFsSpec.

Local Open Scope Z_scope.

Implicit Types (m : gmap Z Inode) (fs : MemFs) (nd : Inode) (t : gmap Z shape).

(** ** The operations and their specification *)

Inductive FsOp :=
| Op_write (handle offset : Z) (data : bytes)
| Op_create (ctx : RequestContext) (parent : Z) (name : bytes) (req : CreateRequest)
| Op_create_symlink (ctx : RequestContext) (parent : Z) (name target : bytes) (attrs : SetAttrs)
| Op_remove (parent : Z) (name : bytes)
| Op_rename (from_dir : Z) (from_name : bytes) (to_dir : Z) (to_name : bytes)
| Op_link (source parent : Z) (name : bytes)
| Op_setattr (handle : Z) (attrs : SetAttrs)
| Op_set_xattr (handle : Z) (name value : bytes) (mode : XattrSetMode)
| Op_remove_xattr (handle : Z) (name : bytes).

(** the answer, without its contents *)
Definition answer {A} (r : result FsError A * MemFs) : result FsError unit * MemFs :=
  (match r.1 with Ok _ => Ok tt | Err e => Err e end, r.2).

Definition run_op {ho : HashOrder} (now : Clock) (op : FsOp) fs : result FsError unit * MemFs :=
  match op with
  | Op_write h o d => answer (write now h o d fs)
  | Op_create ctx p n req => answer (create now ctx p n req fs)
  | Op_create_symlink ctx p n tgt attrs => answer (create_symlink now ctx p n tgt attrs fs)
  | Op_remove p n => remove now p n fs
  | Op_rename d n d' n' => rename now d n d' n' fs
  | Op_link src p n => link now src p n fs
  | Op_setattr h attrs => answer (setattr now h attrs fs)
  | Op_set_xattr h n v mode => set_xattr now h n v mode fs
  | Op_remove_xattr h n => remove_xattr now h n fs
  end.

Definition leaf t c : Prop := is_Some (t !! c) /\ ~ is_dir t c.
Definition childless t c : Prop := forall n, child t c n = None.

(** why a name cannot be entered into [p] *)
Definition enter_error t (p : Z) (n : bytes) (e : FsError) : Prop :=
  match e with
  | Fs_Stale => t !! p = None
  | Fs_NotDirectory => leaf t p
  | Fs_AlreadyExists => is_Some (child t p n)
  | _ => False
  end.

(** A new node in [p] under [n]; a requested size is refused for anything
    but a file, and beyond the limit. *)
Definition enter_spec (p : Z) (n : bytes) (es : option (gmap bytes Z)) (file : bool)
    (size : option Z) (r : result FsError unit) t t' : Prop :=
  match r with
  | Ok _ => is_dir t p /\ child t p n = None /\
            exists c, t !! c = None /\ t' = t_create p n c (mkShape (Some p) es) t
  | Err e => t' = t /\
    (enter_error t p n e \/
     is_dir t p /\ child t p n = None /\
     exists sz, size = Some sz /\
       ((file = true /\ e = Fs_FileTooLarge /\ MAX_FILE_BYTES < sz) \/
        (file = false /\ e = Fs_InvalidInput)))
  end.

Definition remove_spec (p : Z) (n : bytes) (r : result FsError unit) t t' : Prop :=
  match r with
  | Ok _ => exists c, child t p n = Some c /\ childless t c /\ t_remove p n c t t'
  | Err e => t' = t /\
    match e with
    | Fs_Stale => t !! p = None
    | Fs_NotDirectory => leaf t p
    | Fs_NotFound => is_dir t p /\ child t p n = None
    | Fs_NotEmpty => exists c, child t p n = Some c /\ ~ childless t c
    | _ => False
    end
  end.

Definition link_spec (src p : Z) (n : bytes) (r : result FsError unit) t t' : Prop :=
  match r with
  | Ok _ => leaf t src /\ is_dir t p /\ child t p n = None /\ t' = t_link p n src t
  | Err e => t' = t /\
    (e = Fs_Stale /\ t !! src = None \/ e = Fs_IsDirectory /\ is_dir t src \/
     leaf t src /\ enter_error t p n e)
  end.

Definition rename_spec (d : Z) (n : bytes) (d' : Z) (n' : bytes) (r : result FsError unit) t t'
    : Prop :=
  match r with
  | Ok _ =>
    exists c, child t d n = Some c /\ is_dir t d' /\ (is_dir t c -> ~ below t d' c) /\
      ((child t d' n' = Some c /\ t' = t) \/
       (child t d' n' <> Some c /\
        (forall r, child t d' n' = Some r -> childless t r /\ (is_dir t c <-> is_dir t r)) /\
        t_rename d n d' n' c (child t d' n') t t'))
  | Err e => t' = t /\
    match e with
    | Fs_Stale => t !! d = None \/ t !! d' = None
    | Fs_NotFound => is_dir t d /\ child t d n = None
    | Fs_InvalidInput => exists c, child t d n = Some c /\ is_dir t c /\ below t d' c
    | Fs_NotDirectory => leaf t d \/ leaf t d' \/
        exists c r, child t d n = Some c /\ child t d' n' = Some r /\ is_dir t c /\ leaf t r
    | Fs_IsDirectory =>
        exists c r, child t d n = Some c /\ child t d' n' = Some r /\ leaf t c /\ is_dir t r
    | Fs_NotEmpty =>
        exists c r, child t d n = Some c /\ child t d' n' = Some r /\ is_dir t c /\ is_dir t r /\
          ~ childless t r
    | _ => False
    end
  end.

Definition op_spec (op : FsOp) (r : result FsError unit) t t' : Prop :=
  match op with
  | Op_create _ p n req =>
    match cr_kind req with
    | CK_File => enter_spec p n None true (sa_size (cr_attrs req)) r t t'
    | CK_Directory => enter_spec p n (Some ∅) false (sa_size (cr_attrs req)) r t t'
    end
  | Op_create_symlink _ p n _ attrs => enter_spec p n None false (sa_size attrs) r t t'
  | Op_remove p n => remove_spec p n r t t'
  | Op_rename d n d' n' => rename_spec d n d' n' r t t'
  | Op_link src p n => link_spec src p n r t t'
  | Op_write h _ _ | Op_setattr h _ | Op_set_xattr h _ _ _ | Op_remove_xattr h _ =>
    t' = t /\ (r = Ok tt -> is_Some (t !! h)) /\ (r = Err Fs_Stale <-> t !! h = None)
  end.

(** ** Attribute updates *)

(** The attributes the invariant speaks of. *)
Definition core (a : Attrs) : ObjectType * Z * Z * Z * Z * bool :=
  (at_object_type a, at_fileid a, at_size a, at_space_used a, at_link_count a,
   at_has_named_attrs a).

Lemma core_set_opt {A} (o : option A) set a :
  (forall v a, core (set v a) = core a) -> core (set_opt o set a) = core a.
Proof. intros H. by destruct o; simpl. Qed.

Lemma core_set_fields now attrs a : core (set_fields now attrs a) = core a.
Proof. unfold set_fields. by rewrite !core_set_opt. Qed.

Lemma node_wf_core id nd nd' :
  core (nd_attrs nd') = core (nd_attrs nd) -> nd_data nd' = nd_data nd ->
  nd_xattrs nd' = nd_xattrs nd -> node_wf id nd -> node_wf id nd'.
Proof.
  intros Hc Hd Hx. unfold core in Hc. injection Hc as H1 H2 H3 H4 H5 H6.
  unfold node_wf. by rewrite Hd, Hx, H1, H2, H3, H4, H6.
Qed.

Lemma checked_file_len_ok len n :
  checked_file_len len = Ok n -> len <= MAX_FILE_BYTES /\ n = Z.to_nat len.
Proof. unfold checked_file_len. case_match eqn:E; [done|]. intros [= <-]. bool_to_prop. done. Qed.

(** Sizes arrive as unsigned 64-bit integers. *)
Definition attrs_ok (a : SetAttrs) : Prop := forall sz, sa_size a = Some sz -> 0 <= sz.

Lemma resize_inode_ok size id nd nd' :
  (forall sz, size = Some sz -> 0 <= sz) -> resize_inode size nd = Ok nd' -> node_wf id nd ->
  shape_of nd' = shape_of nd /\ nd_xattrs nd' = nd_xattrs nd /\ node_wf id nd' /\
  at_link_count (nd_attrs nd') = at_link_count (nd_attrs nd).
Proof.
  intros Hsz. unfold resize_inode. destruct size as [sz|]; [|by intros [= <-]].
  specialize (Hsz sz eq_refl). destruct (nd_data nd) as [data| |] eqn:Ed; try done.
  destruct (checked_file_len sz) as [len|] eqn:El; [|done]. intros [= <-] Hw.
  apply checked_file_len_ok in El as [Hle ->]. destruct Hw as (H1 & H2 & Hf). rewrite Ed in Hf.
  split; [unfold shape_of, dir_entries; simpl; by rewrite Ed|]. split; [done|]. split; [|done].
  split; [done|]. split; [done|]. simpl.
  assert (zlen (resize (Z.to_nat sz) 0 data) = sz) as ->.
  { unfold zlen. rewrite length_resize. lia. }
  by destruct Hf as [-> _].
Qed.

Lemma apply_setattrs_ok now attrs id nd fs nd' fs' :
  attrs_ok attrs -> apply_setattrs now attrs nd fs = (Ok nd', fs') -> node_wf id nd ->
  mf_inodes fs' = mf_inodes fs /\ mf_next_id fs' = mf_next_id fs /\
  shape_of nd' = shape_of nd /\ node_wf id nd' /\
  at_link_count (nd_attrs nd') = at_link_count (nd_attrs nd).
Proof.
  intros Hok. unfold apply_setattrs.
  destruct (resize_inode (sa_size attrs) nd) as [nd1|] eqn:Er; [|done]. intros Ha Hw.
  destruct (resize_inode_ok _ id _ _ Hok Er Hw) as (Hs & Hx & Hw1 & Hl).
  pose proof (core_set_fields now attrs (nd_attrs nd1)) as Hc.
  set (a := set_fields now attrs (nd_attrs nd1)) in *. clearbody a.
  assert (Hgen : exists a' fs1, core a' = core a /\ nd' = set_nd_attrs a' nd1 /\ fs' = fs1 /\
    mf_inodes fs1 = mf_inodes fs /\ mf_next_id fs1 = mf_next_id fs).
  { destruct (negb (SetAttrs_is_empty attrs)); injection Ha as <- <-; [|by exists a, fs].
    eexists _, _. split_and!; [|reflexivity..]. by case_match. }
  destruct Hgen as (a' & fs1 & Hc' & -> & -> & Hi & Hn). split; [done|]. split; [done|].
  assert (Hcc : core a' = core (nd_attrs nd1)) by congruence.
  split; [|split].
  - rewrite <- Hs. done.
  - by eapply node_wf_core; [..|exact Hw1].
  - rewrite <- Hl. unfold core in Hcc. simpl. congruence.
Qed.

Lemma apply_setattrs_err now attrs nd fs e fs' :
  apply_setattrs now attrs nd fs = (Err e, fs') ->
  fs' = fs /\ exists sz, sa_size attrs = Some sz /\
    match nd_data nd with
    | D_File _ => e = Fs_FileTooLarge /\ MAX_FILE_BYTES < sz
    | _ => e = Fs_InvalidInput
    end.
Proof.
  unfold apply_setattrs. destruct (resize_inode (sa_size attrs) nd) as [nd1|e1] eqn:Er.
  - by case_match.
  - intros [= -> ->]. split; [done|]. unfold resize_inode in Er.
    destruct (sa_size attrs) as [sz|]; [|done]. exists sz. split; [done|].
    destruct (nd_data nd) as [data| |]; [|by injection Er..].
    unfold checked_file_len in Er. case_match eqn:E; [|done].
    injection Er as <-. bool_to_prop. done.
Qed.

(** ** Operations that leave the tree alone *)

Section same_tree.
Context {ho : HashOrder}.

Lemma same_shape_inv fs fs1 id nd nd' :
  fs_inv fs -> mf_inodes fs1 = mf_inodes fs -> mf_next_id fs1 = mf_next_id fs ->
  mf_inodes fs !! id = Some nd -> shape_of nd' = shape_of nd -> node_wf id nd' ->
  at_link_count (nd_attrs nd') = at_link_count (nd_attrs nd) ->
  fs_inv (put_inode id nd' fs1) /\
  tree_of (mf_inodes (put_inode id nd' fs1)) = tree_of (mf_inodes fs).
Proof.
  intros Hinv Hi Hn Hid Hs Hw Hl. unfold put_inode. simpl. rewrite Hi.
  assert (Ht : tree_of (<[id := nd']> (mf_inodes fs)) = tree_of (mf_inodes fs))
    by by eapply tree_of_same.
  split; [|done]. split; simpl; rewrite ?Hi, ?Hn.
  - rewrite Ht. apply Hinv.
  - apply nodes_insert; [exact (fi_node _ Hinv)|done].
  - intros x ndx. rewrite Ht. destruct (decide (id = x)) as [->|Hne].
    + rewrite lookup_insert_eq. intros [= <-]. rewrite Hl. by apply (fi_links _ Hinv).
    + rewrite lookup_insert_ne by done. apply (fi_links _ Hinv).
  - intros x Hx. apply (fi_ids _ Hinv). destruct (decide (id = x)) as [->|Hne]; [by eexists|].
    by rewrite lookup_insert_ne in Hx.
Qed.

(** What [write] makes of a file's bytes. *)
Definition overwrite (file : bytes) (offset : nat) (data : bytes) : bytes :=
  let end_ := (offset + length data)%nat in
  let file := if (length file <? end_)%nat then resize end_ 0 file else file in
  take offset file ++ data ++ drop end_ file.

Lemma length_overwrite file offset data :
  length (overwrite file offset data) = Nat.max (length file) (offset + length data).
Proof.
  unfold overwrite. destruct (Nat.ltb_spec (length file) (offset + length data)).
  - rewrite !length_app, length_take, length_drop, length_resize. lia.
  - rewrite !length_app, length_take, length_drop. lia.
Qed.

Lemma checked_write_range_ok offset len o e :
  0 <= offset -> checked_write_range offset len = Ok (o, e) ->
  o = Z.to_nat offset /\ e = (o + len)%nat /\ Z.of_nat e <= MAX_FILE_BYTES.
Proof.
  intros H0. unfold checked_write_range. case_match; [done|].
  destruct (checked_file_len offset) as [o'|] eqn:Eo; [|done].
  destruct (checked_file_len (offset + Z.of_nat len)) as [e'|] eqn:Ee; [|done].
  intros [= <- <-]. apply checked_file_len_ok in Eo as [? ->], Ee as [? ->]. lia.
Qed.

(** The successful [write] in full. *)
Lemma write_ok now h o data fs r fs' :
  0 <= o -> write now h o data fs = (Ok r, fs') ->
  exists nd file, mf_inodes fs !! h = Some nd /\ nd_data nd = D_File file /\
    o + zlen data <= MAX_FILE_BYTES /\
    exists a fs1, mf_inodes fs1 = mf_inodes fs /\ mf_next_id fs1 = mf_next_id fs /\
      fs' = put_inode h (set_nd_attrs a
              (set_nd_data (D_File (overwrite file (Z.to_nat o) data)) nd)) fs1 /\
      at_size a = zlen (overwrite file (Z.to_nat o) data) /\ at_space_used a = at_size a /\
      at_object_type a = at_object_type (nd_attrs nd) /\ at_fileid a = at_fileid (nd_attrs nd) /\
      at_link_count a = at_link_count (nd_attrs nd) /\
      at_has_named_attrs a = at_has_named_attrs (nd_attrs nd) /\
      at_change a = mf_next_change fs /\ mf_next_change fs1 = u64_wrap (mf_next_change fs + 1).
Proof.
  intros Ho. unfold write. destruct (mf_inodes fs !! h) as [nd|] eqn:Hh; [|done].
  destruct (nd_data nd) as [file| |] eqn:Ed; try done.
  destruct (checked_write_range o (length data)) as [[o' e']|] eqn:Ec; [|done].
  apply checked_write_range_ok in Ec as (-> & -> & Hmax); [|done].
  intros [= <- <-]. exists nd, file. split; [done|]. split; [done|]. split; [unfold zlen; lia|].
  eexists _, (next_change fs).2. split_and!; reflexivity.
Qed.

Lemma write_inv now h o data fs r fs' :
  fs_inv fs -> 0 <= o -> write now h o data fs = (Ok r, fs') ->
  fs_inv fs' /\ tree_of (mf_inodes fs') = tree_of (mf_inodes fs).
Proof.
  intros Hinv Ho Hw. destruct (write_ok _ _ _ _ _ _ _ Ho Hw) as
    (nd & file & Hh & Ed & Hmax & a & fs1 & Hi & Hn & -> & Ha1 & Ha2 & Ha3 & Ha4 & Ha5 & Ha6 & _).
  pose proof (fi_node _ Hinv _ _ Hh) as (W1 & W2 & W3). rewrite Ed in W3.
  apply same_shape_inv with nd; try done.
  - unfold shape_of, dir_entries. simpl. by rewrite Ed.
  - unfold node_wf. simpl. rewrite Ha1, Ha2, Ha1, Ha3, Ha4, Ha6.
    split_and!; try done; [apply W3|]. unfold zlen in *. rewrite length_overwrite. lia.
Qed.

Lemma setattr_inv now h attrs fs r fs' :
  fs_inv fs -> attrs_ok attrs -> setattr now h attrs fs = (Ok r, fs') ->
  fs_inv fs' /\ tree_of (mf_inodes fs') = tree_of (mf_inodes fs).
Proof.
  intros Hinv Hok. unfold setattr. destruct (mf_inodes fs !! h) as [nd|] eqn:Hh; [|done].
  destruct (apply_setattrs now attrs nd fs) as [[nd'|e] fs1] eqn:Ea; [|done]. intros [= <- <-].
  destruct (apply_setattrs_ok _ _ h _ _ _ _ Hok Ea (fi_node _ Hinv _ _ Hh)) as (Hi & Hn & Hs & Hw & Hl).
  by apply same_shape_inv with nd.
Qed.

Lemma xattrs_inv fs fs1 h nd xs a :
  fs_inv fs -> mf_inodes fs1 = mf_inodes fs -> mf_next_id fs1 = mf_next_id fs ->
  mf_inodes fs !! h = Some nd ->
  core a = core (nd_attrs (update_has_named_attrs (set_nd_xattrs xs nd))) ->
  let fs' := put_inode h (set_nd_attrs a (update_has_named_attrs (set_nd_xattrs xs nd))) fs1 in
  fs_inv fs' /\ tree_of (mf_inodes fs') = tree_of (mf_inodes fs).
Proof.
  intros Hinv Hi Hn Hh Hc. pose proof (fi_node _ Hinv _ _ Hh) as (W1 & W2 & W3).
  unfold core in Hc. injection Hc as H1 H2 H3 H4 H5 H6.
  apply same_shape_inv with nd; try done.
  unfold node_wf. simpl. rewrite H1, H2, H3, H4, H6. done.
Qed.

Lemma set_xattr_inv now h n v mode fs r fs' :
  fs_inv fs -> set_xattr now h n v mode fs = (Ok r, fs') ->
  fs_inv fs' /\ tree_of (mf_inodes fs') = tree_of (mf_inodes fs).
Proof.
  intros Hinv. unfold set_xattr. destruct (mf_inodes fs !! h) as [nd|] eqn:Hh; [|done].
  destruct mode, (bool_decide (is_Some (nd_xattrs nd !! n))); try done; intros [= <- <-];
    by eapply (xattrs_inv fs (next_change fs).2).
Qed.

Lemma remove_xattr_inv now h n fs r fs' :
  fs_inv fs -> remove_xattr now h n fs = (Ok r, fs') ->
  fs_inv fs' /\ tree_of (mf_inodes fs') = tree_of (mf_inodes fs).
Proof.
  intros Hinv. unfold remove_xattr. destruct (mf_inodes fs !! h) as [nd|] eqn:Hh; [|done].
  destruct (nd_xattrs nd !! n); [|done]. intros [= <- <-].
  by eapply (xattrs_inv fs (next_change fs).2).
Qed.
End same_tree.

(** ** Operations that enter a name *)

Section enter.
Context {ho : HashOrder}.

Lemma fs_inv_next_id fs :
  fs_inv fs -> 1 <= mf_next_id fs < u64_max ->
  fs_inv (next_id fs).2 /\ mf_inodes fs !! mf_next_id fs = None /\
  mf_next_id (next_id fs).2 = mf_next_id fs + 1.
Proof.
  intros Hinv Hr. unfold next_id, u64_wrap, u64_max in *. simpl.
  rewrite Z.mod_small by lia. split_and!; [|..|done].
  - destruct Hinv as [H1 H2 H3 H4]. split; try done. intros id Hid. simpl.
    specialize (H4 id Hid). lia.
  - destruct (mf_inodes fs !! mf_next_id fs) as [nd|] eqn:E; [|done].
    pose proof (fi_ids _ Hinv _ (mk_is_Some _ _ E)). lia.
Qed.

(** What the final part of [create] and [create_symlink] does. *)
Lemma insert_child_ok now k p n c nd es fs :
  tree_wf (tree_of (mf_inodes fs)) -> nodes_wf (mf_inodes fs) ->
  (forall id, is_Some (mf_inodes fs !! id) -> 1 <= id < mf_next_id fs) ->
  is_dir (tree_of (mf_inodes fs)) p -> child (tree_of (mf_inodes fs)) p n = None ->
  mf_inodes fs !! c = None -> 1 <= c < mf_next_id fs -> node_wf c nd ->
  shape_of nd = mkShape (Some p) es -> default ∅ es = ∅ ->
  exists res fs', insert_child now k p n c nd fs = (Ok res, fs') /\ cres_handle res = c /\
    getattr c fs' = Ok (cres_attrs res) /\ fs_inv fs' /\
    tree_of (mf_inodes fs') = t_create p n c (shape_of nd) (tree_of (mf_inodes fs)).
Proof.
  intros Ht Hn Hi Hp Hfree Hc Hcr Hw Hs Hes. unfold insert_child.
  assert (exists nd0 es0, mf_inodes fs !! p = Some nd0 /\ nd_data nd0 = D_Directory es0)
    as (nd0 & es0 & Hp0 & Hd0).
  { unfold is_dir in Hp. rewrite names_tree_of in Hp.
    destruct (mf_inodes fs !! p) as [nd0|]; [|by destruct Hp]. unfold dir_entries in Hp. simpl in Hp.
    destruct (nd_data nd0) as [|es0|] eqn:E; [by destruct Hp|eauto|by destruct Hp]. }
  rewrite Hp0, Hd0.
  set (fs1 := put_inode c nd (edit_directory now k (<[n := c]>) p fs)).
  assert (Htree : tree_of (mf_inodes fs1) = t_create p n c (shape_of nd) (tree_of (mf_inodes fs))).
  { unfold fs1, put_inode. simpl. by rewrite tree_of_insert, tree_edit. }
  assert (Hinv : fs_inv (relink fs1)).
  { apply relink_inv.
    - rewrite Htree, Hs. apply create_wf; try done. by apply tree_None.
    - unfold fs1, put_inode. simpl. apply nodes_insert; [by apply nodes_edit|done].
    - unfold fs1, put_inode. simpl. rewrite edit_directory_ids. intros id Hid.
      destruct (decide (c = id)) as [->|Hne]; [done|]. rewrite lookup_insert_ne in Hid by done.
      apply Hi. rewrite <- tree_Some, tree_edit, edit_Some in Hid. by apply tree_Some. }
  assert (Hsome : is_Some (mf_inodes (relink fs1) !! c)).
  { apply tree_Some. rewrite tree_relink, Htree. unfold t_create. rewrite lookup_insert_eq. by eexists. }
  destruct Hsome as [nd' Hnd']. rewrite Hnd'. eexists _, _. split; [reflexivity|].
  split; [done|]. split; [unfold getattr; by rewrite Hnd'|]. split; [done|]. by rewrite tree_relink.
Qed.

Lemma dir_data fs p nd :
  fs_inv fs -> mf_inodes fs !! p = Some nd ->
  match nd_data nd with
  | D_Directory es => is_directory nd = true /\ is_dir (tree_of (mf_inodes fs)) p /\
                      forall n, child (tree_of (mf_inodes fs)) p n = es !! n
  | _ => is_directory nd = false /\ leaf (tree_of (mf_inodes fs)) p
  end.
Proof.
  intros Hinv Hp. pose proof (dir_iff fs p nd Hinv Hp) as Hd.
  assert (Hs : is_Some (tree_of (mf_inodes fs) !! p)) by (apply tree_Some; by eexists).
  assert (Hdir : is_dir (tree_of (mf_inodes fs)) p <-> is_Some (dir_entries nd)).
  { unfold is_dir. by rewrite names_tree_of, Hp. }
  unfold dir_entries in Hdir.
  destruct (nd_data nd) as [|es|] eqn:E;
    [| |]; try (split; [destruct (is_directory nd); [|done];
      by destruct (proj1 Hdir (proj1 Hd eq_refl))|]; split; [done|]; intros H;
      by destruct (proj1 Hdir H)).
  split; [apply Hd, Hdir; by eexists|]. split; [apply Hdir; by eexists|].
  intros n. rewrite child_tree_of, Hp. simpl. unfold dir_entries. by rewrite E.
Qed.

Lemma node_wf_create now ctx k id p :
  let ot := match k with CK_File => OT_File | CK_Directory => OT_Directory end in
  node_wf id (mkInode (apply_create_owner (Attrs_new now ot id) ctx) (Some p)
    (match k with CK_File => D_File [] | CK_Directory => D_Directory ∅ end) ∅).
Proof.
  simpl. unfold node_wf. simpl. rewrite bool_decide_true by done.
  by destruct k, (rc_auth ctx) eqn:E; simpl; unfold apply_create_owner; rewrite E.
Qed.

(** Common to [create] and [create_symlink]: [nd0] is the new inode, [g] the
    last adjustment before it is stored. *)
Lemma enter_refines clk now p n nd0 (g : Inode -> Inode) attrs es fs r fs' :
  fs_inv fs -> 1 <= mf_next_id fs < u64_max ->
  is_dir (tree_of (mf_inodes fs)) p -> child (tree_of (mf_inodes fs)) p n = None ->
  default ∅ es = ∅ ->
  (forall nd fs1, apply_setattrs clk attrs nd0 (next_id fs).2 = (Ok nd, fs1) ->
     mf_inodes fs1 = mf_inodes fs /\ mf_next_id fs1 = mf_next_id fs + 1 /\
     node_wf (mf_next_id fs) (g nd) /\ shape_of (g nd) = mkShape (Some p) es) ->
  match apply_setattrs clk attrs nd0 (next_id fs).2 with
  | (Err e, fs1) => (Err e, fs1)
  | (Ok nd, fs1) => insert_child now 5 p n (mf_next_id fs) (g nd) fs1
  end = (r, fs') ->
  enter_spec p n es (match nd_data nd0 with D_File _ => true | _ => false end) (sa_size attrs)
    (answer (r, fs')).1 (tree_of (mf_inodes fs)) (tree_of (mf_inodes fs')) /\ fs_inv fs'.
Proof.
  intros Hinv Hroom Hp Hfree Hes Hg Hrun.
  destruct (fs_inv_next_id fs Hinv Hroom) as (Hinv1 & Hnew & Hid).
  destruct (apply_setattrs clk attrs nd0 (next_id fs).2) as [[nd|e] fs1] eqn:Ea.
  - destruct (Hg _ _ eq_refl) as (Hi & Hn & Hw & Hs). clear Hg.
    destruct (insert_child_ok now 5 p n (mf_next_id fs) (g nd) es fs1) as
      (res & fs2 & Hrun' & _ & _ & Hinv2 & Ht); rewrite ?Hi, ?Hn; try done.
    + apply Hinv.
    + exact (fi_node _ Hinv).
    + intros id H%(fi_ids _ Hinv). lia.
    + lia.
    + rewrite Hrun' in Hrun. injection Hrun as <- <-. split; [|done]. simpl. rewrite Ht, Hi, Hs.
      split; [done|]. split; [done|]. exists (mf_next_id fs). by rewrite tree_None.
  - injection Hrun as <- <-. apply apply_setattrs_err in Ea as [-> (sz & Hsz & He)].
    split; [|done]. simpl. split; [done|]. right. split; [done|]. split; [done|].
    exists sz. split; [done|]. destruct (nd_data nd0); [left; destruct He|right..]; done.
Qed.

Lemma create_refines now ctx p n req fs r fs' :
  fs_inv fs -> 1 <= mf_next_id fs < u64_max -> attrs_ok (cr_attrs req) ->
  create now ctx p n req fs = (r, fs') ->
  op_spec (Op_create ctx p n req) (answer (r, fs')).1 (tree_of (mf_inodes fs))
    (tree_of (mf_inodes fs')) /\ fs_inv fs'.
Proof.
  intros Hinv Hroom Hok Hrun.
  destruct (fs_inv_next_id fs Hinv Hroom) as (Hinv1 & _ & Hid).
  assert (Hsplit : forall r' t t', op_spec (Op_create ctx p n req) r' t t' <->
    enter_spec p n (match cr_kind req with CK_File => None | CK_Directory => Some ∅ end)
      (match cr_kind req with CK_File => true | CK_Directory => false end)
      (sa_size (cr_attrs req)) r' t t') by (intros; simpl; by destruct (cr_kind req)).
  rewrite Hsplit. unfold create in Hrun. simpl in Hrun.
  destruct (mf_inodes fs !! p) as [ndp|] eqn:Hp.
  2:{ injection Hrun as <- <-. split; [|done]. split; [done|]. left. simpl. by apply tree_None. }
  pose proof (dir_data fs p ndp Hinv Hp) as Hdp.
  destruct (nd_data ndp) as [|es|] eqn:Ed; destruct Hdp as [Hd Hdp]; rewrite Hd in Hrun; simpl in Hrun.
  1,3: by injection Hrun as <- <-; split; [|done]; split; [done|]; left.
  destruct Hdp as [Hdir Hch].
  destruct (bool_decide (is_Some (es !! n))) eqn:Ex.
  { injection Hrun as <- <-. split; [|done]. split; [done|]. left. simpl. rewrite Hch.
    by bool_to_prop. }
  pose proof (node_wf_create (now 0%nat) ctx (cr_kind req) (mf_next_id fs) p) as Hw. simpl in Hw.
  set (nd0 := mkInode _ _ _ _) in Hw, Hrun.
  assert (Hs0 : shape_of nd0 = mkShape (Some p)
            (match cr_kind req with CK_File => None | CK_Directory => Some ∅ end))
    by (unfold nd0; by destruct (cr_kind req)).
  assert (Hf : match nd_data nd0 with D_File _ => true | _ => false end =
               match cr_kind req with CK_File => true | CK_Directory => false end)
    by (unfold nd0; by destruct (cr_kind req)).
  rewrite <- Hf. eapply (enter_refines _ now p n nd0 id (cr_attrs req)); [done..| | | |exact Hrun].
  - rewrite Hch. bool_to_prop. by apply eq_None_not_Some.
  - by destruct (cr_kind req).
  - intros nd fs1 Ha. destruct (apply_setattrs_ok _ _ (mf_next_id fs) _ _ _ _ Hok Ha Hw)
      as (Hi & Hn & Hs & Hw' & _). rewrite <- Hs0, Hn, Hid. done.
Qed.

Lemma apply_setattrs_data now attrs nd fs nd' fs' :
  apply_setattrs now attrs nd fs = (Ok nd', fs') ->
  match nd_data nd with D_File _ => True | d => nd_data nd' = d end.
Proof.
  unfold apply_setattrs, resize_inode. intros H.
  destruct (nd_data nd) eqn:Ed; [done|..]; (destruct (sa_size attrs); [done|]);
    repeat case_match; injection H as <- <-; done.
Qed.

Lemma symlink_wf now ctx id p target :
  node_wf id (mkInode (set_at_space_used (zlen target) (set_at_size (zlen target)
    (apply_create_owner (Attrs_new now OT_Symlink id) ctx))) (Some p) (D_Symlink target) ∅).
Proof.
  unfold node_wf, apply_create_owner. simpl. rewrite bool_decide_true by done.
  by destruct (rc_auth ctx).
Qed.

Lemma create_symlink_refines now ctx p n target attrs fs r fs' :
  fs_inv fs -> 1 <= mf_next_id fs < u64_max -> attrs_ok attrs ->
  create_symlink now ctx p n target attrs fs = (r, fs') ->
  op_spec (Op_create_symlink ctx p n target attrs) (answer (r, fs')).1 (tree_of (mf_inodes fs))
    (tree_of (mf_inodes fs')) /\ fs_inv fs'.
Proof.
  intros Hinv Hroom Hok Hrun.
  destruct (fs_inv_next_id fs Hinv Hroom) as (Hinv1 & _ & Hid).
  unfold create_symlink in Hrun. simpl in Hrun.
  destruct (mf_inodes fs !! p) as [ndp|] eqn:Hp.
  2:{ injection Hrun as <- <-. split; [|done]. split; [done|]. left. simpl. by apply tree_None. }
  pose proof (dir_data fs p ndp Hinv Hp) as Hdp.
  destruct (nd_data ndp) as [|es|] eqn:Ed; destruct Hdp as [Hd Hdp].
  1,3: by injection Hrun as <- <-; split; [|done]; split; [done|]; left.
  destruct Hdp as [Hdir Hch]. destruct (bool_decide (is_Some (es !! n))) eqn:Ex.
  { injection Hrun as <- <-. split; [|done]. split; [done|]. left. simpl. rewrite Hch.
    by bool_to_prop. }
  pose proof (symlink_wf (now 0%nat) ctx (mf_next_id fs) p target) as Hw.
  set (nd0 := mkInode _ _ _ _) in Hw, Hrun.
  change (enter_spec p n None (match nd_data nd0 with D_File _ => true | _ => false end)
    (sa_size attrs) (answer (r, fs')).1 (tree_of (mf_inodes fs)) (tree_of (mf_inodes fs')) /\
    fs_inv fs').
  eapply (enter_refines _ now p n nd0 _ attrs None); [done..| |done| |exact Hrun].
  - rewrite Hch. bool_to_prop. by apply eq_None_not_Some.
  - intros nd fs1 Ha. destruct (apply_setattrs_ok _ _ (mf_next_id fs) _ _ _ _ Hok Ha Hw)
      as (Hi & Hn & Hs & Hw' & _). apply apply_setattrs_data in Ha. simpl in Ha.
    rewrite Hn, Hid. split_and!; [done|done| |exact Hs].
    destruct Hw' as (W1 & W2 & W3). rewrite Ha in W3. unfold node_wf. simpl. rewrite Ha.
    split_and!; try done. apply W3.
Qed.

Lemma link_refines now src p n fs r fs' :
  fs_inv fs -> link now src p n fs = (r, fs') ->
  op_spec (Op_link src p n) r (tree_of (mf_inodes fs)) (tree_of (mf_inodes fs')) /\ fs_inv fs'.
Proof.
  intros Hinv. unfold link.
  destruct (mf_inodes fs !! src) as [nds|] eqn:Hsrc.
  2:{ intros [= <- <-]. split; [|done]. split; [done|]. left. by rewrite tree_None. }
  pose proof (dir_iff fs src nds Hinv Hsrc) as Hds. destruct (is_directory nds).
  { intros [= <- <-]. split; [|done]. split; [done|]. right. left. by rewrite <- Hds. }
  assert (Hleaf : leaf (tree_of (mf_inodes fs)) src).
  { split; [apply tree_Some; by eexists|]. rewrite <- Hds. done. }
  destruct (mf_inodes fs !! p) as [ndp|] eqn:Hp.
  2:{ intros [= <- <-]. split; [|done]. split; [done|]. right. right. split; [done|].
      by apply tree_None. }
  pose proof (dir_data fs p ndp Hinv Hp) as Hdp.
  destruct (nd_data ndp) as [|es|] eqn:Ed; destruct Hdp as [Hd Hdp].
  1,3: by intros [= <- <-]; split; [|done]; split; [done|]; right; right.
  destruct Hdp as [Hdir Hch]. destruct (bool_decide (is_Some (es !! n))) eqn:Ex; bool_to_prop.
  { intros [= <- <-]. split; [|done]. split; [done|]. right. right. split; [done|].
    simpl. by rewrite Hch. }
  assert (Hfree : child (tree_of (mf_inodes fs)) p n = None).
  { rewrite Hch. by apply eq_None_not_Some. }
  intros [= <- <-]. rewrite tree_relink, tree_edit. split; [by split_and!|].
  apply relink_inv.
  - rewrite tree_edit. apply link_wf; try done; apply Hinv || apply Hleaf.
  - apply nodes_edit. exact (fi_node _ Hinv).
  - rewrite edit_directory_ids. intros id H. apply (fi_ids _ Hinv).
    by rewrite <- tree_Some, tree_edit, edit_Some, tree_Some in H.
Qed.
End enter.

(** ** Removing and renaming *)

Section move.
Context {ho : HashOrder}.

Lemma lookup_name_tree p n fs :
  fs_inv fs ->
  match lookup_name p n fs with
  | Ok c => child (tree_of (mf_inodes fs)) p n = Some c
  | Err Fs_Stale => tree_of (mf_inodes fs) !! p = None
  | Err Fs_NotDirectory => leaf (tree_of (mf_inodes fs)) p
  | Err Fs_NotFound => is_dir (tree_of (mf_inodes fs)) p /\ child (tree_of (mf_inodes fs)) p n = None
  | Err _ => False
  end.
Proof.
  intros Hinv. unfold lookup_name. destruct (mf_inodes fs !! p) as [nd|] eqn:Hp; simpl.
  - pose proof (dir_data fs p nd Hinv Hp) as Hd.
    destruct (nd_data nd) as [|es|]; destruct Hd as [_ Hd]; try done.
    destruct Hd as [Hdir Hch]. rewrite Hch. by destruct (es !! n).
  - by apply tree_None.
Qed.

Lemma nonempty_tree c nd fs :
  mf_inodes fs !! c = Some nd ->
  if nonempty_directory nd then ~ childless (tree_of (mf_inodes fs)) c
  else childless (tree_of (mf_inodes fs)) c.
Proof.
  intros Hc. unfold nonempty_directory, childless.
  assert (Hch : forall n, child (tree_of (mf_inodes fs)) c n = es ← dir_entries nd; es !! n)
    by (intros; by rewrite child_tree_of, Hc).
  unfold dir_entries in Hch. destruct (nd_data nd) as [|es|]; simpl in *; try done.
  destruct (bool_decide (es = ∅)) eqn:E; simpl; bool_to_prop.
  - subst. intros n. rewrite Hch. apply lookup_empty.
  - intros H. apply E. apply map_empty. intros n. by rewrite <- Hch.
Qed.

Lemma child_exists d n c fs :
  fs_inv fs -> child (tree_of (mf_inodes fs)) d n = Some c -> exists nd, mf_inodes fs !! c = Some nd.
Proof.
  intros Hinv H. destruct (tw_child _ (fi_tree _ Hinv) _ _ _ H) as [Hs _].
  by apply tree_Some in Hs.
Qed.

Lemma remove_refines now p n fs r fs' :
  fs_inv fs -> remove now p n fs = (r, fs') ->
  op_spec (Op_remove p n) r (tree_of (mf_inodes fs)) (tree_of (mf_inodes fs')) /\ fs_inv fs'.
Proof.
  intros Hinv. unfold remove. pose proof (lookup_name_tree p n fs Hinv) as Hl.
  destruct (lookup_name p n fs) as [c|e].
  2:{ intros [= <- <-]. split; [|done]. split; [done|]. by destruct e. }
  destruct (child_exists _ _ _ _ Hinv Hl) as [nd Hc]. rewrite Hc.
  pose proof (nonempty_tree c nd fs Hc) as Hne. destruct (nonempty_directory nd).
  { intros [= <- <-]. split; [|done]. split; [done|]. eauto. }
  intros [= <- <-]. rewrite tree_relink.
  set (fs1 := edit_directory now 0 (delete n) p fs).
  assert (Hn1 : nodes_wf (mf_inodes fs1)) by exact (nodes_edit _ _ _ _ _ (fi_node _ Hinv)).
  assert (Hids : forall id, is_Some (mf_inodes fs1 !! id) -> 1 <= id < mf_next_id fs).
  { intros id H. apply (fi_ids _ Hinv). unfold fs1 in H.
    by rewrite <- tree_Some, tree_edit, edit_Some, tree_Some in H. }
  assert (Hrem : t_remove p n c (tree_of (mf_inodes fs))
            (tree_of (remove_if_unlinked (mf_inodes fs1) c))).
  { unfold t_remove. rewrite <- (tree_edit now 0). apply remove_if_unlinked_tree; [done|].
    apply tree_Some. unfold fs1. rewrite tree_edit, edit_Some, tree_Some. by eexists. }
  split; [by exists c|]. apply relink_inv; simpl.
  - eapply remove_wf; [apply Hinv|exact Hl|exact Hne|exact Hrem].
  - intros id nd' H%remove_if_unlinked_sub. by apply Hn1.
  - unfold fs1. rewrite edit_directory_ids. intros id [nd' H%remove_if_unlinked_sub].
    apply Hids. by eexists.
Qed.

(** The loop of [directory_descends_from] climbs the tree, and its bound is
    enough. *)
Lemma descends_climb m k x a :
  typed m -> descends_loop m k x a = climb (tree_of m) k x a.
Proof.
  intros Hty. revert x. induction k as [|k IH]; intros [x|]; simpl; try done.
  destruct (x =? a); [done|]. rewrite IH. f_equal. unfold par. rewrite tree_of_lookup.
  destruct (m !! x) as [nd|] eqn:Hx; [|done]. simpl. pose proof (Hty x nd Hx) as Hd.
  destruct (is_directory nd), (dir_entries nd); try done.
  - by destruct (proj1 Hd eq_refl).
  - discriminate (proj2 Hd (mk_is_Some _ _ eq_refl)).
Qed.

Lemma descends_exact x a fs :
  fs_inv fs -> is_dir (tree_of (mf_inodes fs)) x ->
  directory_descends_from (mf_inodes fs) x a = true <-> below (tree_of (mf_inodes fs)) x a.
Proof.
  intros Hinv Hx. unfold directory_descends_from.
  rewrite descends_climb by (apply nodes_typed; exact (fi_node _ Hinv)).
  assert (Hsz : size (mf_inodes fs) = size (tree_of (mf_inodes fs)))
    by (unfold tree_of; by rewrite map_size_fmap).
  rewrite Hsz. apply climb_exact; [apply Hinv|done].
Qed.

Lemma descends_sound x a fs :
  fs_inv fs -> directory_descends_from (mf_inodes fs) x a = true ->
  below (tree_of (mf_inodes fs)) x a.
Proof.
  intros Hinv. unfold directory_descends_from.
  rewrite descends_climb by (apply nodes_typed; exact (fi_node _ Hinv)). apply climb_sound.
Qed.

Lemma leaf_tree c nd fs :
  fs_inv fs -> mf_inodes fs !! c = Some nd ->
  is_directory nd = false <-> leaf (tree_of (mf_inodes fs)) c.
Proof.
  intros Hinv Hc. unfold leaf. rewrite <- (dir_iff fs c nd Hinv Hc), not_true_iff_false.
  split; [|by intros [_ ?]]. split; [|done]. apply tree_Some. by eexists.
Qed.

Lemma leaf_childless t c : leaf t c -> childless t c.
Proof.
  intros [_ Hn] n. unfold child. destruct (names t c) eqn:E; [|done].
  destruct Hn. by eexists.
Qed.

Lemma replace_check_spec c r nd ndr fs :
  fs_inv fs -> mf_inodes fs !! c = Some nd -> mf_inodes fs !! r = Some ndr ->
  let t := tree_of (mf_inodes fs) in
  match replace_check (at_object_type (nd_attrs nd)) ndr with
  | Ok _ => childless t r /\ (is_dir t c <-> is_dir t r)
  | Err Fs_NotEmpty => is_dir t c /\ is_dir t r /\ ~ childless t r
  | Err Fs_NotDirectory => is_dir t c /\ leaf t r
  | Err Fs_IsDirectory => leaf t c /\ is_dir t r
  | Err _ => False
  end.
Proof.
  intros Hinv Hc Hr t.
  assert (Halt : replace_check (at_object_type (nd_attrs nd)) ndr =
    match is_directory nd, is_directory ndr with
    | true, true => if nonempty_directory ndr then Err Fs_NotEmpty else Ok tt
    | true, false => Err Fs_NotDirectory
    | false, true => Err Fs_IsDirectory
    | false, false => Ok tt
    end).
  { unfold replace_check, is_directory.
    by destruct (at_object_type (nd_attrs nd)), (at_object_type (nd_attrs ndr)). }
  rewrite Halt. clear Halt.
  pose proof (nonempty_tree r ndr fs Hr) as Hne.
  pose proof (dir_iff fs c nd Hinv Hc) as Dc. pose proof (dir_iff fs r ndr Hinv Hr) as Dr.
  pose proof (leaf_tree c nd fs Hinv Hc) as Lc. pose proof (leaf_tree r ndr fs Hinv Hr) as Lr.
  fold t in Dc, Dr, Lc, Lr, Hne.
  destruct (is_directory nd), (is_directory ndr).
  - destruct (nonempty_directory ndr); naive_solver.
  - naive_solver.
  - naive_solver.
  - assert (leaf t r) by by apply Lr. split; [by apply leaf_childless|].
    split; [intros Hx; by apply Dc in Hx|intros Hx; by apply Dr in Hx].
Qed.

(** [rename]'s checks, branch by branch. *)
Lemma rename_check_spec d n d' n' fs :
  fs_inv fs ->
  let t := tree_of (mf_inodes fs) in
  match rename_check d n d' n' fs with
  | Ok (c, w) =>
    child t d n = Some c /\ is_dir t d' /\ (is_dir t c -> ~ below t d' c) /\
    match w with
    | None => child t d' n' = Some c
    | Some r => child t d' n' = r /\ r <> Some c /\
        forall r', r = Some r' -> childless t r' /\ (is_dir t c <-> is_dir t r')
    end
  | Err e => rename_spec d n d' n' (Err e) t t
  end.
Proof.
  intros Hinv t. unfold rename_check. pose proof (lookup_name_tree d n fs Hinv) as Hl.
  fold t in Hl. destruct (lookup_name d n fs) as [c|e]; simpl.
  2:{ split; [done|]. destruct e; try done; eauto. }
  destruct (child_exists _ _ _ _ Hinv Hl) as [nd Hc]. rewrite Hc. simpl.
  pose proof (dir_iff fs c nd Hinv Hc) as Hcd. fold t in Hcd.
  destruct (is_directory nd && directory_descends_from (mf_inodes fs) d' c) eqn:Edesc.
  { bool_to_prop. split; [done|]. exists c. split; [done|]. split; [by apply Hcd|].
    by apply descends_sound. }
  destruct (mf_inodes fs !! d') as [ndt|] eqn:Hd'; simpl.
  2:{ split; [done|]. right. by apply tree_None. }
  pose proof (dir_data fs d' ndt Hinv Hd') as Hdt. fold t in Hdt.
  destruct (nd_data ndt) as [|es|]; destruct Hdt as [_ Hdt]; [by split; eauto| |by split; eauto].
  destruct Hdt as [Hdir Hch]. simpl.
  assert (Hsafe : is_dir t c -> ~ below t d' c).
  { intros H%Hcd Hb. rewrite H in Edesc. simpl in Edesc.
    apply descends_exact in Hb; [congruence|done|done]. }
  destruct (bool_decide (es !! n' = Some c)) eqn:Esame; bool_to_prop; [by rewrite Hch|].
  destruct (es !! n') as [r|] eqn:Er; simpl; [|by rewrite Hch].
  assert (Hr : child t d' n' = Some r) by by rewrite Hch.
  destruct (child_exists _ _ _ _ Hinv Hr) as [ndr Hndr]. rewrite Hndr. simpl.
  pose proof (replace_check_spec c r nd ndr fs Hinv Hc Hndr) as Hrc. cbv zeta in Hrc. fold t in Hrc.
  destruct (replace_check _ ndr) as [u|e]; simpl.
  - split_and!; try done. by intros r' [= <-].
  - split; [done|]. destruct e; try done; naive_solver.
Qed.

(** The two edits of [rename], whether in one directory or two. *)
Definition rename_edits (now : Clock) (d : Z) (n : bytes) (d' : Z) (n' : bytes) (c : Z) fs : MemFs :=
  if d =? d' then edit_directory now 0 (fun es => <[n' := c]> (delete n es)) d fs
  else edit_directory now 2 (<[n' := c]>) d' (edit_directory now 0 (delete n) d fs).

Lemma rename_edits_ok now d n d' n' c fs :
  nodes_wf (mf_inodes fs) ->
  tree_of (mf_inodes (rename_edits now d n d' n' c fs)) =
    edit (<[n' := c]>) d' (edit (delete n) d (tree_of (mf_inodes fs))) /\
  nodes_wf (mf_inodes (rename_edits now d n d' n' c fs)) /\
  mf_next_id (rename_edits now d n d' n' c fs) = mf_next_id fs.
Proof.
  intros Hn. unfold rename_edits. destruct (d =? d') eqn:E; bool_to_prop.
  - subst. rewrite tree_edit, edit_directory_ids. split; [by rewrite edit_edit|].
    split; [by apply nodes_edit|done].
  - rewrite !tree_edit, !edit_directory_ids. split; [done|]. split; [by do 2 apply nodes_edit|done].
Qed.

(** The update of the moved directory's parent. *)
Definition rename_reparent (d d' c : Z) m : gmap Z Inode :=
  match m !! c with
  | Some nd => if is_directory nd && negb (d =? d') then <[c := set_nd_parent (Some d') nd]> m else m
  | None => m
  end.

Lemma rename_reparent_ok d d' c m :
  nodes_wf m -> is_Some (m !! c) -> (d = d' -> is_dir (tree_of m) c -> par (tree_of m) c = Some d') ->
  tree_of (rename_reparent d d' c m) = reparent c d' (tree_of m) /\
  nodes_wf (rename_reparent d d' c m) /\
  (forall id, is_Some (rename_reparent d d' c m !! id) -> is_Some (m !! id)).
Proof.
  intros Hn [nd Hc] Hsame. unfold rename_reparent. rewrite Hc.
  destruct (d =? d') eqn:E; bool_to_prop; rewrite ?andb_false_r, ?andb_true_r.
  - split; [symmetry; apply reparent_id; auto|done].
  - split; [by apply tree_reparent|]. destruct (is_directory nd); [|done]. split.
    + apply nodes_insert; [done|]. eapply node_wf_core; [..|exact (Hn _ _ Hc)]; done.
    + intros id. destruct (decide (c = id)) as [->|Hne]; [by eexists|].
      by rewrite lookup_insert_ne.
Qed.

Lemma rename_apply_refines now d n d' n' c r fs :
  fs_inv fs -> let t := tree_of (mf_inodes fs) in
  child t d n = Some c -> is_dir t d' -> (is_dir t c -> ~ below t d' c) ->
  child t d' n' = r -> r <> Some c -> (forall r', r = Some r' -> childless t r') ->
  t_rename d n d' n' c r t (tree_of (mf_inodes (rename_apply now d n d' n' c r fs))) /\
  fs_inv (rename_apply now d n d' n' c r fs).
Proof.
  intros Hinv t Hn Hd' Hsafe Hr Hrc Hempty.
  destruct (rename_edits_ok now d n d' n' c fs (fi_node _ Hinv)) as (Ht1 & Hn1 & Hi1).
  set (fs1 := rename_edits now d n d' n' c fs) in *. fold t in Ht1.
  assert (Hdom : forall id, is_Some (mf_inodes fs1 !! id) <-> is_Some (mf_inodes fs !! id)).
  { intros id. rewrite <- !tree_Some, Ht1. by rewrite !edit_Some. }
  assert (Hc1 : is_Some (mf_inodes fs1 !! c)) by (apply Hdom; by eapply child_exists).
  destruct (rename_reparent_ok d d' c (mf_inodes fs1) Hn1 Hc1) as (Ht2 & Hn2 & Hdom2).
  { intros ->. rewrite Ht1, !par_edit, !is_dir_edit. intros H.
    by apply (tw_parent _ (fi_tree _ Hinv) _ n). }
  set (m2 := rename_reparent d d' c (mf_inodes fs1)) in *.
  assert (Hmove : tree_of m2 = t_move d n d' n' c t) by by rewrite Ht2, Ht1.
  set (m3 := match r with Some r' => remove_if_unlinked m2 r' | None => m2 end).
  assert (Heq : rename_apply now d n d' n' c r fs = relink (set_mf_inodes m3 fs1)) by done.
  assert (Hsub : forall id nd, m3 !! id = Some nd -> m2 !! id = Some nd).
  { intros id nd. unfold m3. destruct r; [apply remove_if_unlinked_sub|done]. }
  assert (Hren : t_rename d n d' n' c r t (tree_of m3)).
  { unfold m3. destruct r as [r'|]; simpl; [|done]. rewrite <- Hmove.
    apply remove_if_unlinked_tree; [done|]. apply tree_Some. rewrite Hmove, move_Some.
    unfold t. rewrite tree_Some. by eapply child_exists. }
  rewrite Heq, tree_relink. split; [done|]. apply relink_inv; simpl.
  - by eapply (rename_wf d n d' n' c r t); [apply Hinv|..].
  - intros id nd H%Hsub. by apply Hn2.
  - rewrite Hi1. intros id [nd H%Hsub]. apply (fi_ids _ Hinv), Hdom, Hdom2. by eexists.
Qed.

Lemma rename_refines now d n d' n' fs r fs' :
  fs_inv fs -> rename now d n d' n' fs = (r, fs') ->
  op_spec (Op_rename d n d' n') r (tree_of (mf_inodes fs)) (tree_of (mf_inodes fs')) /\ fs_inv fs'.
Proof.
  intros Hinv. unfold rename. pose proof (rename_check_spec d n d' n' fs Hinv) as Hck.
  cbv zeta in Hck. destruct (rename_check d n d' n' fs) as [[c [w|]]|e].
  - destruct Hck as (Hc & Hd' & Hsafe & Hw & Hne & Hre). intros [= <- <-].
    destruct (rename_apply_refines now d n d' n' c w fs Hinv Hc Hd' Hsafe Hw Hne) as [Hr Hi].
    { intros r' H. by apply Hre. }
    split; [|done]. exists c. split_and!; try done. right. rewrite Hw. by split_and!.
  - destruct Hck as (Hc & Hd' & Hsafe & Hw). intros [= <- <-]. split; [|done].
    exists c. split_and!; try done. by left.
  - intros [= <- <-]. done.
Qed.
End move.

(** ** All operations *)

(** Offsets and sizes are unsigned. *)
Definition op_ok (op : FsOp) : Prop :=
  match op with
  | Op_write _ o _ => 0 <= o
  | Op_create _ _ _ req => attrs_ok (cr_attrs req)
  | Op_create_symlink _ _ _ _ attrs | Op_setattr _ attrs => attrs_ok attrs
  | _ => True
  end.

Section all_ops.
Context {ho : HashOrder}.

(** An attribute or data operation fails without effect. *)
Lemma quiet_error now op fs e fs' :
  match op with
  | Op_write _ _ _ | Op_setattr _ _ | Op_set_xattr _ _ _ _ | Op_remove_xattr _ _ => True
  | _ => False
  end -> run_op now op fs = (Err e, fs') -> fs' = fs.
Proof.
  destruct op; try done; intros _; simpl; unfold answer, write, setattr, set_xattr, remove_xattr.
  - intros H. repeat case_match; simpl in *; congruence.
  - destruct (mf_inodes fs !! handle) as [nd|]; simpl; [|congruence].
    destruct (apply_setattrs now attrs nd fs) as [[nd'|e'] fs1] eqn:Ea; simpl; [congruence|].
    apply apply_setattrs_err in Ea as [-> _]. congruence.
  - intros H. repeat case_match; simpl in *; congruence.
  - intros H. repeat case_match; simpl in *; congruence.
Qed.

Definition quiet_handle (op : FsOp) : option Z :=
  match op with
  | Op_write h _ _ | Op_setattr h _ | Op_set_xattr h _ _ _ | Op_remove_xattr h _ => Some h
  | _ => None
  end.

Lemma checked_file_len_err len e : checked_file_len len = Err e -> e = Fs_FileTooLarge.
Proof. unfold checked_file_len. case_match; congruence. Qed.

Lemma checked_write_range_err o len e : checked_write_range o len = Err e -> e = Fs_FileTooLarge.
Proof.
  unfold checked_write_range. case_match; [congruence|].
  destruct (checked_file_len o) eqn:E1; simpl.
  - destruct (checked_file_len (o + Z.of_nat len)) eqn:E2; simpl; [congruence|].
    intros [= <-]. by eapply checked_file_len_err.
  - intros [= <-]. by eapply checked_file_len_err.
Qed.

(** Such an operation answers STALE exactly for a handle that is gone. *)
Lemma quiet_stale now op fs h :
  quiet_handle op = Some h ->
  (run_op now op fs).1 = Err Fs_Stale <-> mf_inodes fs !! h = None.
Proof.
  destruct op; intros [= <-]; simpl; unfold answer, write, setattr, set_xattr, remove_xattr;
    (destruct (mf_inodes fs !! handle) as [nd|] eqn:Hh; simpl; [|done]);
    (split; [|done]); intros H; exfalso.
  - destruct (nd_data nd); try done.
    destruct (checked_write_range offset (length data)) as [[? ?]|e] eqn:E; [done|].
    apply checked_write_range_err in E as ->. done.
  - destruct (apply_setattrs now attrs nd fs) as [[nd'|e'] fs1] eqn:Ea; simpl in *; [done|].
    apply apply_setattrs_err in Ea as [_ (sz & _ & He)]. destruct (nd_data nd); naive_solver.
  - by destruct mode, (bool_decide (is_Some (nd_xattrs nd !! name))).
  - by destruct (nd_xattrs nd !! name).
Qed.

Lemma quiet_refines now op fs h r fs' :
  fs_inv fs -> op_ok op -> quiet_handle op = Some h -> run_op now op fs = (r, fs') ->
  tree_of (mf_inodes fs') = tree_of (mf_inodes fs) /\ fs_inv fs'.
Proof.
  intros Hinv Hok Hq Hrun. destruct r as [u|e].
  2:{ assert (fs' = fs) as ->; [|done]. eapply quiet_error; [|exact Hrun]. by destruct op. }
  destruct op; try done; simpl in *; unfold answer in Hrun.
  - destruct (write now handle offset data fs) as [[w|] fs1] eqn:E; [|done].
    injection Hrun as _ <-. simpl. by apply and_comm, (write_inv _ _ _ _ _ _ _ Hinv Hok E).
  - destruct (setattr now handle attrs fs) as [[w|] fs1] eqn:E; [|done].
    injection Hrun as _ <-. simpl. by apply and_comm, (setattr_inv _ _ _ _ _ _ Hinv Hok E).
  - by apply and_comm, (set_xattr_inv _ _ _ _ _ _ _ _ Hinv Hrun).
  - by apply and_comm, (remove_xattr_inv _ _ _ _ _ _ Hinv Hrun).
Qed.

(** Every operation does to the tree what its specification says, and keeps
    the invariant. *)
Lemma run_op_refines now op fs r fs' :
  fs_inv fs -> 1 <= mf_next_id fs < u64_max -> op_ok op -> run_op now op fs = (r, fs') ->
  op_spec op r (tree_of (mf_inodes fs)) (tree_of (mf_inodes fs')) /\ fs_inv fs'.
Proof.
  intros Hinv Hroom Hok Hrun. destruct (quiet_handle op) as [h|] eqn:Hq.
  - destruct (quiet_refines _ _ _ _ _ _ Hinv Hok Hq Hrun) as [Ht Hi]. split; [|done].
    pose proof (quiet_stale now op fs h Hq) as Hst. rewrite Hrun in Hst. simpl in Hst.
    rewrite <- tree_None in Hst.
    assert (Hsome : r = Ok tt -> is_Some (tree_of (mf_inodes fs) !! h)).
    { intros ->. destruct (tree_of (mf_inodes fs) !! h) eqn:E; [by eexists|].
      discriminate (proj2 Hst eq_refl). }
    destruct op; try done; injection Hq as ->; done.
  - destruct op; try done; simpl in Hrun.
    + destruct (create now ctx parent name req fs) as [r0 fs0] eqn:E.
      pose proof (create_refines _ _ _ _ _ _ _ _ Hinv Hroom Hok E) as H.
      unfold answer in *. injection Hrun as <- <-. exact H.
    + destruct (create_symlink now ctx parent name target attrs fs) as [r0 fs0] eqn:E.
      pose proof (create_symlink_refines _ _ _ _ _ _ _ _ _ Hinv Hroom Hok E) as H.
      unfold answer in *. injection Hrun as <- <-. exact H.
    + by eapply remove_refines.
    + by eapply rename_refines.
    + by eapply link_refines.
Qed.
End all_ops.
