(* ===== verification/MemFsContents.v ===== *)
(** * Contents in the in-memory filesystem

    [contents_of] keeps of every inode what the directory tree forgets: its
    kind, a file's bytes, a symbolic link's target and the extended
    attributes.  [data_spec] says what each modifying operation does to these
    contents and which error it answers in which case; [run_op_contents] shows
    that the code does that, on every state. *)

From stdpp Require Import base gmap list sets strings numbers relations sorting.
From Stdlib Require Import ZArith Lia.
From S2P Require Import Prelude Xdr Rpc Types StateModel FsApi MemFs DirTree MemFsSpec MemFsRefine.

Local Open Scope Z_scope.

Implicit Types (m : gmap Z Inode) (fs : MemFs) (nd : Inode).

(** ** The contents of a state *)

Inductive node_data :=
| N_File (data : bytes)
| N_Directory
| N_Symlink (target : bytes).

Record content := mkContent { ct_data : node_data; ct_xattrs : gmap bytes bytes }.
Implicit Types (x : gmap Z content).

Definition content_of nd : content :=
  mkContent (match nd_data nd with
             | D_File data => N_File data
             | D_Directory _ => N_Directory
             | D_Symlink target => N_Symlink target
             end) (nd_xattrs nd).
Definition contents_of m : gmap Z content := content_of <$> m.

(** ** What the operations do to the contents of one node *)

(** WRITE: only a file, and only within the size limit. *)
Definition write_content (offset : Z) (data : bytes) (c : content) : result FsError content :=
  match ct_data c with
  | N_File old =>
    if MAX_FILE_BYTES <? offset + zlen data then Err Fs_FileTooLarge
    else Ok (mkContent (N_File (overwrite old (Z.to_nat offset) data)) (ct_xattrs c))
  | _ => Err Fs_InvalidInput
  end.

(** A change of size: only a file, and only within the limit; it cuts the file
    off or fills it up with zeros. *)
Definition resize_content (size : option Z) (c : content) : result FsError content :=
  match size, ct_data c with
  | None, _ => Ok c
  | Some size, N_File old =>
    if MAX_FILE_BYTES <? size then Err Fs_FileTooLarge
    else Ok (mkContent (N_File (resize (Z.to_nat size) 0 old)) (ct_xattrs c))
  | Some _, _ => Err Fs_InvalidInput
  end.

Definition set_xattr_content (name value : bytes) (mode : XattrSetMode) (c : content)
    : result FsError content :=
  match mode, ct_xattrs c !! name with
  | CreateOnly, Some _ => Err Fs_AlreadyExists
  | ReplaceOnly, None => Err Fs_NotFound
  | _, _ => Ok (mkContent (ct_data c) (<[name := value]> (ct_xattrs c)))
  end.

Definition remove_xattr_content (name : bytes) (c : content) : result FsError content :=
  match ct_xattrs c !! name with
  | None => Err Fs_NotFound
  | Some _ => Ok (mkContent (ct_data c) (delete name (ct_xattrs c)))
  end.

(** An operation on the node of one handle: the answer and the new contents are
    both determined. *)
Definition node_spec (h : Z) (f : content -> result FsError content) (r : result FsError unit) x x'
    : Prop :=
  match x !! h with
  | None => r = Err Fs_Stale /\ x' = x
  | Some c => match f c with
              | Ok c' => r = Ok tt /\ x' = <[h := c']> x
              | Err e => r = Err e /\ x' = x
              end
  end.

(** A new node: a number not in use, with the given contents resized as asked. *)
Definition new_spec (fresh : node_data) (size : option Z) (r : result FsError unit) x x' : Prop :=
  match r with
  | Ok _ => exists id c, x !! id = None /\ resize_content size (mkContent fresh ∅) = Ok c /\
                         x' = <[id := c]> x
  | Err _ => x' = x
  end.

Definition data_spec (op : FsOp) (r : result FsError unit) x x' : Prop :=
  match op with
  | Op_write h o data => node_spec h (write_content o data) r x x'
  | Op_setattr h attrs => node_spec h (resize_content (sa_size attrs)) r x x'
  | Op_set_xattr h n v mode => node_spec h (set_xattr_content n v mode) r x x'
  | Op_remove_xattr h n => node_spec h (remove_xattr_content n) r x x'
  | Op_create _ _ _ req =>
    new_spec (match cr_kind req with CK_File => N_File [] | CK_Directory => N_Directory end)
      (sa_size (cr_attrs req)) r x x'
  | Op_create_symlink _ _ _ target attrs => new_spec (N_Symlink target) (sa_size attrs) r x x'
  | Op_link _ _ _ => x' = x
  | Op_remove _ _ | Op_rename _ _ _ _ =>
    match r with
    | Ok _ => forall id c, x' !! id = Some c -> x !! id = Some c
    | Err _ => x' = x
    end
  end.

(** ** The helpers *)

Lemma contents_lookup m id : contents_of m !! id = content_of <$> m !! id.
Proof. apply lookup_fmap. Qed.

Lemma contents_insert m id nd :
  contents_of (<[id := nd]> m) = <[id := content_of nd]> (contents_of m).
Proof. apply fmap_insert. Qed.

Lemma contents_same m id nd nd' :
  m !! id = Some nd -> content_of nd' = content_of nd ->
  contents_of (<[id := nd']> m) = contents_of m.
Proof.
  intros Hid Hc. rewrite contents_insert, Hc. apply insert_id. by rewrite contents_lookup, Hid.
Qed.

#[export] Instance contents_alike : Proper (alike ==> eq) contents_of.
Proof.
  intros m m' H. apply map_eq. intros id. rewrite !contents_lookup.
  pose proof (alike_lookup m m' id H) as Hid.
  destruct (m !! id) as [nd|], (m' !! id) as [nd'|]; try done.
  change (Some (content_of (erase nd)) = Some (content_of (erase nd'))). by rewrite Hid.
Qed.

Section helpers.
Context {ho : HashOrder}.

Lemma contents_relink fs : contents_of (mf_inodes (relink fs)) = contents_of (mf_inodes fs).
Proof. apply contents_alike, recompute_alike. Qed.

Lemma contents_edit now k f d fs :
  contents_of (mf_inodes (edit_directory now k f d fs)) = contents_of (mf_inodes fs).
Proof.
  unfold edit_directory. destruct (mf_inodes fs !! d) as [nd|] eqn:Hd; [|done]. simpl.
  apply (contents_same _ _ nd); [done|]. unfold content_of. by destruct (nd_data nd) eqn:E; simpl; rewrite ?E.
Qed.

Lemma contents_unlinked m id j c :
  contents_of (remove_if_unlinked m id) !! j = Some c -> contents_of m !! j = Some c.
Proof.
  rewrite !contents_lookup. intros (nd & Hj & ->)%fmap_Some.
  by rewrite (remove_if_unlinked_sub _ _ _ _ Hj).
Qed.

(** *** A failed operation has stored nothing *)

Lemma insert_child_err now k p n c nd fs e fs' :
  insert_child now k p n c nd fs = (Err e, fs') -> fs' = fs.
Proof.
  unfold insert_child. destruct (mf_inodes fs !! p) as [ndp|]; [|congruence].
  destruct (nd_data ndp); [congruence| |congruence].
  set (fs1 := put_inode c nd _).
  assert (Hsome : is_Some (mf_inodes (relink fs1) !! c)).
  { apply tree_Some. rewrite tree_relink, tree_Some. unfold fs1, put_inode. simpl.
    rewrite lookup_insert_eq. by eexists. }
  destruct Hsome as [nd' ->]. done.
Qed.

Lemma apply_setattrs_inodes now attrs nd fs r fs' :
  apply_setattrs now attrs nd fs = (r, fs') -> mf_inodes fs' = mf_inodes fs.
Proof.
  intros H. change fs' with (r, fs').2. rewrite <- H.
  unfold apply_setattrs, next_change. by repeat case_match; simplify_eq.
Qed.

(** [create] and [create_symlink] after their checks. *)
Lemma enter_err clk now attrs nd0 g p n c fs e fs' :
  match apply_setattrs clk attrs nd0 fs with
  | (Err e, fs1) => (Err e, fs1)
  | (Ok nd, fs1) => insert_child now 5 p n c (g nd) fs1
  end = (Err e, fs') -> mf_inodes fs' = mf_inodes fs.
Proof.
  destruct (apply_setattrs clk attrs nd0 fs) as [[nd|e'] fs1] eqn:E;
    apply apply_setattrs_inodes in E as <-.
  - by intros ->%insert_child_err.
  - by intros [= _ ->].
Qed.

Lemma create_err now ctx p n req fs e fs' :
  create now ctx p n req fs = (Err e, fs') -> mf_inodes fs' = mf_inodes fs.
Proof.
  unfold create. simpl. destruct (mf_inodes fs !! p) as [ndp|]; [|by intros [= _ <-]].
  destruct (negb (is_directory ndp)); [by intros [= _ <-]|].
  destruct (match nd_data ndp with D_Directory _ => _ | _ => _ end); [by intros [= _ <-]|].
  intros H. by apply (enter_err _ _ _ _ id) in H.
Qed.

Lemma create_symlink_err now ctx p n target attrs fs e fs' :
  create_symlink now ctx p n target attrs fs = (Err e, fs') -> mf_inodes fs' = mf_inodes fs.
Proof.
  unfold create_symlink. simpl. destruct (mf_inodes fs !! p) as [ndp|]; [|by intros [= _ <-]].
  destruct (nd_data ndp) as [|es|]; [by intros [= _ <-]| |by intros [= _ <-]].
  destruct (bool_decide _); [by intros [= _ <-]|]. intros H. by apply enter_err in H.
Qed.

(** ** Operations on one node *)

Lemma node_stale h f fs :
  mf_inodes fs !! h = None ->
  node_spec h f (Err Fs_Stale) (contents_of (mf_inodes fs)) (contents_of (mf_inodes fs)).
Proof. intros Hh. unfold node_spec. by rewrite contents_lookup, Hh. Qed.

Lemma node_error h f nd e fs :
  mf_inodes fs !! h = Some nd -> f (content_of nd) = Err e ->
  node_spec h f (Err e) (contents_of (mf_inodes fs)) (contents_of (mf_inodes fs)).
Proof. intros Hh Hf. unfold node_spec. rewrite contents_lookup, Hh. simpl. by rewrite Hf. Qed.

Lemma node_put h f nd nd' fs fs1 :
  mf_inodes fs !! h = Some nd -> f (content_of nd) = Ok (content_of nd') ->
  mf_inodes fs1 = mf_inodes fs ->
  node_spec h f (Ok tt) (contents_of (mf_inodes fs)) (contents_of (mf_inodes (put_inode h nd' fs1))).
Proof.
  intros Hh Hf Hi. unfold node_spec. rewrite contents_lookup, Hh. simpl. rewrite Hf.
  split; [done|]. unfold put_inode. simpl. by rewrite Hi, contents_insert.
Qed.

Lemma checked_write_range_cases o len :
  0 <= o ->
  checked_write_range o len =
  if MAX_FILE_BYTES <? o + Z.of_nat len then Err Fs_FileTooLarge
  else Ok (Z.to_nat o, (Z.to_nat o + len)%nat).
Proof.
  intros Ho. unfold checked_write_range, checked_file_len.
  destruct (Z.ltb_spec u64_max (o + Z.of_nat len)) as [Hu|Hu].
  { rewrite (proj2 (Z.ltb_lt _ _)); [done|]. unfold u64_max, MAX_FILE_BYTES in *. lia. }
  destruct (Z.ltb_spec MAX_FILE_BYTES (o + Z.of_nat len)) as [Hm|Hm].
  { by destruct (MAX_FILE_BYTES <? o). }
  rewrite (proj2 (Z.ltb_ge _ _)) by lia. simpl. do 2 f_equal. lia.
Qed.

Lemma write_contents now h o data fs :
  0 <= o ->
  data_spec (Op_write h o data) (answer (write now h o data fs)).1
    (contents_of (mf_inodes fs)) (contents_of (mf_inodes (write now h o data fs).2)).
Proof.
  intros Ho. unfold write. destruct (mf_inodes fs !! h) as [nd|] eqn:Hh; [|by apply node_stale].
  destruct (nd_data nd) as [file|es|tg] eqn:Ed; [|eapply node_error; [done|];
    unfold write_content, content_of; by rewrite Ed..].
  rewrite checked_write_range_cases by done. fold (zlen data).
  destruct (MAX_FILE_BYTES <? o + zlen data) eqn:E.
  - eapply node_error; [done|]. unfold write_content, content_of. rewrite Ed. simpl. by rewrite E.
  - cbv zeta. unfold answer. simpl. eapply (node_put _ _ nd); [done| |done].
    unfold write_content, content_of. rewrite Ed. simpl. by rewrite E.
Qed.

(** Setting attributes changes the contents only through the size. *)
Lemma apply_setattrs_content now attrs nd fs :
  match (apply_setattrs now attrs nd fs).1 with
  | Ok nd' => resize_content (sa_size attrs) (content_of nd) = Ok (content_of nd')
  | Err e => resize_content (sa_size attrs) (content_of nd) = Err e
  end.
Proof.
  assert (Hr : match resize_inode (sa_size attrs) nd with
               | Ok nd' => resize_content (sa_size attrs) (content_of nd) = Ok (content_of nd')
               | Err e => resize_content (sa_size attrs) (content_of nd) = Err e
               end).
  { unfold resize_inode, resize_content, content_of, checked_file_len.
    destruct (sa_size attrs) as [sz|]; [|done]. destruct (nd_data nd) as [file| |]; simpl; [|done..].
    by destruct (MAX_FILE_BYTES <? sz). }
  unfold apply_setattrs. destruct (resize_inode _ nd) as [nd1|e]; [|done].
  rewrite Hr. by destruct (negb (SetAttrs_is_empty attrs)).
Qed.

Lemma setattr_contents now h attrs fs :
  data_spec (Op_setattr h attrs) (answer (setattr now h attrs fs)).1
    (contents_of (mf_inodes fs)) (contents_of (mf_inodes (setattr now h attrs fs).2)).
Proof.
  unfold setattr. destruct (mf_inodes fs !! h) as [nd|] eqn:Hh; [|by apply node_stale].
  pose proof (apply_setattrs_content now attrs nd fs) as Hc.
  destruct (apply_setattrs now attrs nd fs) as [[nd'|e] fs1] eqn:Ea;
    apply apply_setattrs_inodes in Ea; simpl in *.
  - by eapply node_put.
  - unfold answer. simpl. rewrite Ea. by eapply node_error.
Qed.

Lemma set_xattr_contents now h n v mode fs :
  data_spec (Op_set_xattr h n v mode) (set_xattr now h n v mode fs).1
    (contents_of (mf_inodes fs)) (contents_of (mf_inodes (set_xattr now h n v mode fs).2)).
Proof.
  unfold set_xattr. destruct (mf_inodes fs !! h) as [nd|] eqn:Hh; [|by apply node_stale].
  destruct (nd_xattrs nd !! n) as [old|] eqn:En;
    [rewrite bool_decide_eq_true_2 by by eexists|rewrite bool_decide_eq_false_2 by (by intros [])];
    destruct mode; simpl;
    first [eapply node_error; [done|]|eapply (node_put _ _ nd); [done| |done]];
    unfold set_xattr_content, content_of; simpl; by rewrite ?En.
Qed.

Lemma remove_xattr_contents now h n fs :
  data_spec (Op_remove_xattr h n) (remove_xattr now h n fs).1
    (contents_of (mf_inodes fs)) (contents_of (mf_inodes (remove_xattr now h n fs).2)).
Proof.
  unfold remove_xattr. destruct (mf_inodes fs !! h) as [nd|] eqn:Hh; [|by apply node_stale].
  destruct (nd_xattrs nd !! n) as [old|] eqn:En; simpl.
  - eapply (node_put _ _ nd); [done| |done]. unfold remove_xattr_content, content_of. simpl. by rewrite En.
  - eapply node_error; [done|]. unfold remove_xattr_content, content_of. simpl. by rewrite En.
Qed.

(** ** Operations on names *)

Lemma insert_child_contents now k p n c nd fs r fs' :
  insert_child now k p n c nd fs = (Ok r, fs') ->
  contents_of (mf_inodes fs') = <[c := content_of nd]> (contents_of (mf_inodes fs)).
Proof.
  unfold insert_child. destruct (mf_inodes fs !! p) as [ndp|]; [|done].
  destruct (nd_data ndp); [done| |done].
  destruct (mf_inodes (relink _) !! c) eqn:E; [|done]. intros [= _ <-].
  rewrite contents_relink. unfold put_inode. simpl. by rewrite contents_insert, contents_edit.
Qed.

(** [create] and [create_symlink] after their checks. *)
Lemma enter_contents clk now attrs nd0 g p n c fs r fs' :
  (forall nd, content_of (g nd) = content_of nd) -> mf_inodes fs !! c = None ->
  match apply_setattrs clk attrs nd0 fs with
  | (Err e, fs1) => (Err e, fs1)
  | (Ok nd, fs1) => insert_child now 5 p n c (g nd) fs1
  end = (Ok r, fs') ->
  exists id c', contents_of (mf_inodes fs) !! id = None /\
    resize_content (sa_size attrs) (content_of nd0) = Ok c' /\
    contents_of (mf_inodes fs') = <[id := c']> (contents_of (mf_inodes fs)).
Proof.
  intros Hg Hc. pose proof (apply_setattrs_content clk attrs nd0 fs) as Ha.
  destruct (apply_setattrs clk attrs nd0 fs) as [[nd|e] fs1] eqn:Ea; [|done]. simpl in Ha.
  apply apply_setattrs_inodes in Ea. intros Hi%insert_child_contents.
  exists c, (content_of nd). split; [by rewrite contents_lookup, Hc|]. split; [done|].
  by rewrite Hi, Hg, Ea.
Qed.

Lemma create_contents now ctx p n req fs r fs' :
  mf_inodes fs !! mf_next_id fs = None -> create now ctx p n req fs = (r, fs') ->
  data_spec (Op_create ctx p n req) (answer (r, fs')).1
    (contents_of (mf_inodes fs)) (contents_of (mf_inodes fs')).
Proof.
  intros Hfree. destruct r as [r|e].
  2:{ intros H%create_err. simpl. by rewrite H. }
  unfold create. simpl. destruct (mf_inodes fs !! p) as [ndp|]; [|done].
  destruct (negb (is_directory ndp)); [done|].
  destruct (match nd_data ndp with D_Directory _ => _ | _ => _ end); [done|].
  intros H. apply (enter_contents _ _ _ _ id) in H; [|done|done].
  revert H. unfold content_of. simpl. by destruct (cr_kind req).
Qed.

Lemma create_symlink_contents now ctx p n target attrs fs r fs' :
  mf_inodes fs !! mf_next_id fs = None -> create_symlink now ctx p n target attrs fs = (r, fs') ->
  data_spec (Op_create_symlink ctx p n target attrs) (answer (r, fs')).1
    (contents_of (mf_inodes fs)) (contents_of (mf_inodes fs')).
Proof.
  intros Hfree. destruct r as [r|e].
  2:{ intros H%create_symlink_err. simpl. by rewrite H. }
  unfold create_symlink. simpl. destruct (mf_inodes fs !! p) as [ndp|]; [|done].
  destruct (nd_data ndp) as [|es|]; [done| |done]. destruct (bool_decide _); [done|].
  intros H. by apply enter_contents in H.
Qed.

Lemma rename_apply_contents now d n d' n' c r fs id ct :
  contents_of (mf_inodes (rename_apply now d n d' n' c r fs)) !! id = Some ct ->
  contents_of (mf_inodes fs) !! id = Some ct.
Proof.
  unfold rename_apply. rewrite contents_relink. cbn [mf_inodes set_mf_inodes].
  set (fs1 := if d =? d' then _ else _).
  assert (Hfs1 : contents_of (mf_inodes fs1) = contents_of (mf_inodes fs)).
  { unfold fs1. by destruct (d =? d'); rewrite !contents_edit. }
  set (m2 := match mf_inodes fs1 !! c with Some _ => _ | None => _ end).
  assert (Hm2 : contents_of m2 = contents_of (mf_inodes fs)).
  { rewrite <- Hfs1. unfold m2. destruct (mf_inodes fs1 !! c) as [nd|] eqn:Hc; [|done].
    destruct (_ && _); [|done]. by apply (contents_same _ _ nd). }
  rewrite <- Hm2. destruct r; [apply contents_unlinked|done].
Qed.

(** Every operation does to the contents what its specification says. *)
Lemma run_op_contents now op fs r fs' :
  op_ok op -> mf_inodes fs !! mf_next_id fs = None -> run_op now op fs = (r, fs') ->
  data_spec op r (contents_of (mf_inodes fs)) (contents_of (mf_inodes fs')).
Proof.
  intros Hok Hfree Hrun.
  assert (Hr : r = (run_op now op fs).1) by by rewrite Hrun.
  assert (Hf : fs' = (run_op now op fs).2) by by rewrite Hrun.
  destruct op; simpl in Hr, Hf.
  - subst. by apply write_contents.
  - destruct (create _ _ _ _ _ fs) eqn:E. apply create_contents in E; [|done]. by subst.
  - destruct (create_symlink _ _ _ _ _ _ fs) eqn:E. apply create_symlink_contents in E; [|done].
    by subst.
  - revert Hr Hf. unfold remove. destruct (lookup_name parent name fs) as [c|e]; [|by intros -> ->].
    destruct (match mf_inodes fs !! c with Some _ => _ | None => _ end); [by intros -> ->|].
    intros -> ->. cbn [fst snd data_spec]. intros id ct. rewrite contents_relink.
    intros H%contents_unlinked. by rewrite contents_edit in H.
  - revert Hr Hf. unfold rename. destruct (rename_check _ _ _ _ fs) as [[c [w|]]|e];
      intros -> ->; simpl; [|done..]. intros id ct. apply rename_apply_contents.
  - revert Hr Hf. unfold link.
    repeat case_match; intros -> ->; cbn [fst snd data_spec]; try done.
    by rewrite contents_relink, contents_edit.
  - subst. apply setattr_contents.
  - subst. apply set_xattr_contents.
  - subst. apply remove_xattr_contents.
Qed.
End helpers.
