(* ===== verification/MemFsProps.v ===== *)
(** * What the in-memory filesystem guarantees

    Consequences for every state a sequence of requests can produce, and the
    behaviour of reading, writing and listing as a client sees it. *)

From stdpp Require Import base gmap list sets strings numbers relations sorting.
From Stdlib Require Import ZArith Lia.
From S2P Require Import Prelude Xdr Rpc Types StateModel FsApi MemFs DirTree MemFsSpec.
From S2P Require Import MemFsRefine MemFsContents.

Local Open Scope Z_scope.

Implicit Types (m : gmap Z Inode) (fs : MemFs) (nd : Inode) (t : gmap Z shape).

(** ** Reachable states *)

(** [fs_reach n fs]: [fs] results from [n] requests on a new filesystem,
    each with its own clock readings and its own enumeration order of the
    hash tables. *)
Inductive fs_reach : nat -> MemFs -> Prop :=
| fs_reach_new now : fs_reach 0 (MemFs_new now)
| fs_reach_op n fs (ho : HashOrder) now op :
    fs_reach n fs -> op_ok op -> fs_reach (S n) (run_op now op fs).2.

Lemma tree_new now :
  tree_of (mf_inodes (MemFs_new now)) = {[ 1 := mkShape None (Some ∅) ]}.
Proof. unfold tree_of. simpl. by rewrite map_fmap_singleton. Qed.

Lemma singleton_tree_wf : tree_wf {[ 1 := mkShape None (Some ∅) ]}.
Proof.
  assert (Hch : forall d n, child {[ 1 := mkShape None (Some ∅) ]} d n = None).
  { intros d n. unfold child, names. destruct (decide (d = 1)) as [->|Hd].
    - rewrite lookup_singleton_eq. simpl. apply lookup_empty.
    - by rewrite lookup_singleton_ne. }
  assert (Hdom : forall c, is_Some (({[ 1 := mkShape None (Some ∅) ]} : gmap Z shape) !! c) -> c = 1).
  { intros c Hc. apply elem_of_dom in Hc. rewrite dom_singleton_L in Hc. set_solver. }
  split.
  - split; [|done]. unfold is_dir, names. rewrite lookup_singleton_eq. by eexists.
  - intros d n c H. by rewrite Hch in H.
  - intros d n c H. by rewrite Hch in H.
  - intros d n n' c H. by rewrite Hch in H.
  - intros c Hc%Hdom. done.
  - intros c ->%is_dir_Some%Hdom. apply rtc_refl.
Qed.

Lemma fs_inv_new now : fs_inv (MemFs_new now).
Proof.
  split.
  - rewrite tree_new. apply singleton_tree_wf.
  - intros id nd H. simpl in H. apply lookup_singleton_Some in H as [<- <-].
    unfold node_wf. simpl. rewrite bool_decide_true by done. done.
  - intros id nd H. rewrite tree_new. simpl in H. apply lookup_singleton_Some in H as [<- <-].
    reflexivity.
  - intros id [nd H]. simpl in H. apply lookup_singleton_Some in H as [<- _]. simpl. lia.
Qed.

Section steps.
Context {ho : HashOrder}.

Lemma apply_setattrs_ids now attrs nd fs r fs' :
  apply_setattrs now attrs nd fs = (r, fs') -> mf_next_id fs' = mf_next_id fs.
Proof. intros H. change fs' with (r, fs').2. rewrite <- H. unfold apply_setattrs, next_change. by repeat case_match; simplify_eq. Qed.

Lemma insert_child_ids now k p n c nd fs :
  mf_next_id (insert_child now k p n c nd fs).2 = mf_next_id fs.
Proof.
  unfold insert_child. repeat case_match; try done; simpl; apply edit_directory_ids.
Qed.

(** An operation draws at most one inode number. *)
Lemma run_op_ids now op fs :
  mf_next_id (run_op now op fs).2 = mf_next_id fs \/
  mf_next_id (run_op now op fs).2 = u64_wrap (mf_next_id fs + 1).
Proof.
  destruct op; simpl; unfold answer; simpl.
  - left. unfold write, touch_data_change, next_change. by repeat case_match; simplify_eq.
  - right. unfold create. simpl. repeat case_match; simplify_eq; try done;
      match goal with H : apply_setattrs _ _ _ _ = _ |- _ => apply apply_setattrs_ids in H end;
      rewrite ?insert_child_ids; done.
  - right. unfold create_symlink. simpl. repeat case_match; simplify_eq; try done;
      match goal with H : apply_setattrs _ _ _ _ = _ |- _ => apply apply_setattrs_ids in H end;
      rewrite ?insert_child_ids; done.
  - left. unfold remove. repeat case_match; try done; simpl; apply edit_directory_ids.
  - left. unfold rename. repeat case_match; try done. unfold rename_apply. simpl.
    case_match; rewrite !edit_directory_ids; done.
  - left. unfold link. repeat case_match; try done; simpl; apply edit_directory_ids.
  - left. unfold setattr. destruct (mf_inodes fs !! handle) as [nd|]; [|done].
    destruct (apply_setattrs now attrs nd fs) as [[nd'|e] fs1] eqn:E; simpl;
      by eapply apply_setattrs_ids.
  - left. unfold set_xattr, touch_data_change, next_change. by repeat case_match; simplify_eq.
  - left. unfold remove_xattr, touch_change, next_change. by repeat case_match; simplify_eq.
Qed.
End steps.

Lemma fs_reach_inv n fs :
  fs_reach n fs -> Z.of_nat n < u64_max - 2 -> fs_inv fs /\ 2 <= mf_next_id fs <= 2 + Z.of_nat n.
Proof.
  unfold u64_max. induction 1 as [now|n fs ho now op Hr IH Hok]; intros Hn.
  - split; [apply fs_inv_new|]. simpl. lia.
  - destruct IH as [Hinv Hid]; [lia|]. pose proof (run_op_ids now op fs) as Hi.
    destruct (run_op now op fs) as [r fs'] eqn:E. simpl in *. split.
    + eapply run_op_refines; [done| |done|done]. unfold u64_max. lia.
    + unfold u64_wrap in Hi. rewrite Z.mod_small in Hi by lia. lia.
Qed.

(** C24. The in-memory filesystem is a directory tree of files: in every
    reachable state each operation acts on the names exactly as its
    specification says - create and link enter one name, remove takes one name
    away and the node with it unless other names remain, rename moves one name
    and replaces only a compatible, empty target - and on the contents as
    [data_spec] says: WRITE, SETATTR and the operations on extended attributes
    have exactly one answer and one effect each, on the one node named (a write
    or a size beyond the limit, a size for anything but a file, a created
    attribute that exists and a replaced or removed one that does not are
    refused), a new node has the contents asked for, and no other operation
    changes any contents.  Each error is answered exactly in the situation it
    stands for and leaves names and contents as they were. *)
Theorem memfs_refines_tree {ho : HashOrder} n fs now op r fs' :
  fs_reach n fs -> Z.of_nat n < u64_max - 2 -> op_ok op -> run_op now op fs = (r, fs') ->
  op_spec op r (tree_of (mf_inodes fs)) (tree_of (mf_inodes fs')) /\
  data_spec op r (contents_of (mf_inodes fs)) (contents_of (mf_inodes fs')).
Proof.
  intros Hr Hn Hok Hrun. destruct (fs_reach_inv n fs Hr Hn) as [Hinv Hid].
  assert (Hroom : 1 <= mf_next_id fs < u64_max) by lia. split.
  - by eapply run_op_refines.
  - eapply run_op_contents; [done| |done]. by apply fs_inv_next_id.
Qed.

(** C25. The names form a tree in every reachable state: the root is a
    directory without a parent; every name leads to an existing node and every
    node but the root has a name; a directory has exactly one name, and its
    parent is the directory that name is in; and every directory's chain of
    parents ends at the root, so no directory is below itself. *)
Theorem memfs_namespace_sound n fs :
  fs_reach n fs -> Z.of_nat n < u64_max - 2 ->
  let t := tree_of (mf_inodes fs) in
  tree_wf t /\
  (forall d n d' n' c, is_dir t c -> child t d n = Some c -> child t d' n' = Some c ->
     d = d' /\ n = n') /\
  (forall x p, up t x p -> ~ below t p x).
Proof.
  intros Hr Hn t. destruct (fs_reach_inv n fs Hr Hn) as [Hinv _].
  pose proof (fi_tree _ Hinv) as Hwf. split; [done|]. split.
  - intros d k d' k' c Hc H H'. by eapply dir_name_unique.
  - intros x p Hup. eapply up_acyclic; [done| |done]. by eapply par_dir.
Qed.

(** C26. Attributes tell the truth in every reachable state: a file's size and
    space are the number of its bytes, within the limit of 64 MiB; a symlink's
    are the length of its target; the fileid is the inode number; named
    attributes are reported exactly when there are some; and the link count is
    the number of names of a file or symlink, and two plus the number of
    subdirectories of a directory. *)
Theorem memfs_attributes_exact n fs id nd :
  fs_reach n fs -> Z.of_nat n < u64_max - 2 -> mf_inodes fs !! id = Some nd ->
  node_wf id nd /\
  at_link_count (nd_attrs nd) = u32_wrap (Z.of_nat (nlinks (tree_of (mf_inodes fs)) id)).
Proof.
  intros Hr Hn Hid. destruct (fs_reach_inv n fs Hr Hn) as [Hinv _].
  split; [by apply (fi_node _ Hinv)|by apply (fi_links _ Hinv)].
Qed.

(** ** Failed operations *)

Section errors.
Context {ho : HashOrder}.

(** C29. A failed operation has no effect: whatever error it answers, every
    inode - attributes, contents, names, extended attributes - is as it was. *)
Theorem memfs_errors_harmless now op fs e fs' :
  run_op now op fs = (Err e, fs') -> mf_inodes fs' = mf_inodes fs.
Proof.
  intros Hrun. destruct (quiet_handle op) eqn:Hq.
  { assert (fs' = fs) as ->; [|done]. eapply quiet_error; [|exact Hrun]. by destruct op. }
  destruct op; try done; simpl in Hrun; unfold answer in Hrun.
  - destruct (create now ctx parent name req fs) as [[?|e'] fs1] eqn:E; [done|].
    injection Hrun as _ <-. by eapply create_err.
  - destruct (create_symlink now ctx parent name target attrs fs) as [[?|e'] fs1] eqn:E; [done|].
    injection Hrun as _ <-. by eapply create_symlink_err.
  - unfold remove in Hrun. repeat case_match; simplify_eq; done.
  - unfold rename in Hrun. repeat case_match; simplify_eq; done.
  - unfold link in Hrun. repeat case_match; simplify_eq; done.
Qed.
End errors.

(** ** Reading and writing *)

Definition file_bytes (h : Z) fs : option bytes :=
  nd ← mf_inodes fs !! h; match nd_data nd with D_File data => Some data | _ => None end.

(** What a write of [data] at [o] makes of byte [i]. *)
Definition written_byte (old : bytes) (o : nat) (data : bytes) (i : nat) : option Z :=
  if decide (o <= i < o + length data)%nat then data !! (i - o)%nat
  else if decide (i < length old)%nat then old !! i
  else if decide (i < o)%nat then Some 0
  else None.

Lemma lookup_overwrite old o data i :
  overwrite old o data !! i = written_byte old o data i.
Proof.
  unfold overwrite, written_byte.
  set (e := (o + length data)%nat).
  set (f := if (length old <? e)%nat then resize e 0 old else old).
  assert (Hlen : length f = Nat.max (length old) e).
  { unfold f. destruct (Nat.ltb_spec (length old) e); [rewrite length_resize|]; lia. }
  assert (Hf : f !! i = if decide (i < length old)%nat then old !! i
                        else if decide (i < e)%nat then Some 0 else None).
  { unfold f. destruct (Nat.ltb_spec (length old) e) as [Hlt|Hge].
    - destruct (decide (i < e)%nat) as [Hi|Hi].
      + case_decide; [by rewrite lookup_resize|]. by rewrite lookup_resize_new by lia.
      + rewrite lookup_resize_old by lia. by rewrite decide_False by lia.
    - case_decide; [done|]. rewrite decide_False by lia. apply lookup_ge_None. lia. }
  destruct (decide (i < o)%nat) as [H1|H1].
  - rewrite lookup_app_l by (rewrite length_take; lia). rewrite lookup_take_lt by lia.
    rewrite Hf, (decide_False (P := (o <= i < e)%nat)) by lia. case_decide; [done|].
    by rewrite decide_True by lia.
  - rewrite lookup_app_r by (rewrite length_take; lia). rewrite length_take, Hlen.
    rewrite Nat.min_l by lia. destruct (decide (o <= i < e)%nat) as [H2|H2].
    + by rewrite lookup_app_l by lia.
    + rewrite lookup_app_r by lia. rewrite lookup_drop.
      replace (e + (i - o - length data))%nat with i by lia. rewrite Hf. case_decide; [done|].
      by rewrite decide_False by lia.
Qed.

Lemma read_spec h off cnt fs data :
  file_bytes h fs = Some data -> zlen data <= u64_max -> 0 <= off -> 0 <= cnt ->
  read h off cnt fs =
  Ok (mkReadResult (take (Z.to_nat cnt) (drop (Z.to_nat off) data)) (zlen data <=? off + cnt)).
Proof.
  unfold file_bytes, read. destruct (mf_inodes fs !! h) as [nd|]; [|done]. simpl.
  destruct (nd_data nd) as [file| |]; try done. intros [= ->] Hmax Ho Hc.
  destruct (Z.leb_spec (zlen data) off) as [Hge|Hlt].
  - rewrite drop_ge by (unfold zlen in *; lia). rewrite take_nil.
    by rewrite (proj2 (Z.leb_le _ _)) by lia.
  - unfold saturating_add. do 2 f_equal.
    + destruct (Z.le_gt_cases (off + cnt) (zlen data)) as [Hle|Hgt].
      * f_equal. lia.
      * rewrite !take_ge; [done|rewrite length_drop; unfold zlen in *; lia..].
    + destruct (Z.leb_spec (zlen data) (off + cnt)); [apply Z.eqb_eq|apply Z.eqb_neq]; lia.
Qed.

Lemma read_back old o data :
  take (length data) (drop o (overwrite old o data)) = data.
Proof.
  unfold overwrite. set (f := if (length old <? o + length data)%nat then _ else _).
  assert (o <= length f)%nat.
  { unfold f. destruct (Nat.ltb_spec (length old) (o + length data)); [rewrite length_resize|]; lia. }
  rewrite drop_app_length' by (rewrite length_take; lia). by rewrite take_app_length.
Qed.

Lemma write_written now h o data fs r fs' :
  write now h o data fs = (Ok r, fs') -> wr_written r = u32_wrap (zlen data).
Proof. unfold write. intros H. by repeat case_match; simplify_eq. Qed.

(** C27. Writes are read back: after a successful write the file is as long as
    before or up to the end of the write, whichever is more; each byte is the
    byte written, the byte that was there, or zero in the gap between the old
    end and the write; any later read returns exactly the requested part of
    these bytes and reports the end of file exactly when it reaches it; reading
    the written range returns the written data; and no other inode changed. *)
Theorem write_then_read n fs now h o data r fs' off cnt :
  fs_reach n fs -> Z.of_nat n < u64_max - 2 -> 0 <= o -> write now h o data fs = (Ok r, fs') ->
  0 <= off -> 0 <= cnt ->
  exists old new, file_bytes h fs = Some old /\ file_bytes h fs' = Some new /\
    zlen new = Z.max (zlen old) (o + zlen data) /\
    (forall i, new !! i = written_byte old (Z.to_nat o) data i) /\
    read h off cnt fs' = Ok (mkReadResult (take (Z.to_nat cnt) (drop (Z.to_nat off) new))
                               (zlen new <=? off + cnt)) /\
    (exists eof, read h o (zlen data) fs' = Ok (mkReadResult data eof)) /\
    (forall h', h' <> h -> mf_inodes fs' !! h' = mf_inodes fs !! h') /\
    wr_written r = zlen data.
Proof.
  intros Hr Hn Ho Hw Hoff Hcnt. destruct (fs_reach_inv n fs Hr Hn) as [Hinv _].
  destruct (write_inv _ _ _ _ _ _ _ Hinv Ho Hw) as [Hinv' _].
  destruct (write_ok _ _ _ _ _ _ _ Ho Hw) as
    (nd & file & Hh & Ed & Hmax & a & fs1 & Hi & _ & -> & _).
  exists file, (overwrite file (Z.to_nat o) data).
  assert (Hold : file_bytes h fs = Some file) by (unfold file_bytes; rewrite Hh; simpl; by rewrite Ed).
  set (fs' := put_inode h _ fs1) in *.
  assert (Hnew : file_bytes h fs' = Some (overwrite file (Z.to_nat o) data)).
  { unfold file_bytes, fs', put_inode. simpl. by rewrite lookup_insert_eq. }
  assert (Hlen : zlen (overwrite file (Z.to_nat o) data) <= u64_max).
  { pose proof (fi_node _ Hinv _ _ Hh) as (_ & _ & Hf). rewrite Ed in Hf.
    unfold zlen in *. rewrite length_overwrite. unfold MAX_FILE_BYTES, u64_max in *. lia. }
  split_and!; try done.
  - unfold zlen. rewrite length_overwrite. lia.
  - intros i. apply lookup_overwrite.
  - by apply read_spec.
  - eexists. rewrite (read_spec _ _ _ _ _ Hnew) by (unfold zlen in *; lia).
    unfold zlen at 1. rewrite Nat2Z.id, read_back. reflexivity.
  - intros h' Hne. unfold fs', put_inode. simpl. rewrite lookup_insert_ne, Hi by done. done.
  - rewrite (write_written _ _ _ _ _ _ _ Hw).
    unfold u32_wrap, MAX_FILE_BYTES, zlen in *. apply Z.mod_small. lia.
Qed.

(** ** Listing a directory *)

#[export] Instance name_le_trans : Transitive name_le.
Proof. intros a b c. unfold name_le. apply transitivity. Qed.
#[export] Instance name_le_total : Total name_le.
Proof. intros a b. unfold name_le. apply bytes_le_total. Qed.

Lemma sorted_names_perm {ho : HashOrder} (es : gmap bytes Z) : sorted_names es ≡ₚ map_to_list es.
Proof. unfold sorted_names. by rewrite merge_sort_Permutation, hm_iter_perm. Qed.

(** The enumeration order of the hash table does not show. *)
Lemma sorted_names_order (ho ho' : HashOrder) (es : gmap bytes Z) :
  @sorted_names ho es = @sorted_names ho' es.
Proof.
  apply (StronglySorted_unique_strong name_le).
  - intros [n c] [n' c'] H H' Hle Hle'.
    rewrite sorted_names_perm, elem_of_map_to_list in H.
    rewrite sorted_names_perm, elem_of_map_to_list in H'.
    assert (n = n') as -> by (by apply (anti_symm bytes_le)). congruence.
  - apply StronglySorted_merge_sort; apply _.
  - apply StronglySorted_merge_sort; apply _.
  - by rewrite (@sorted_names_perm ho), (@sorted_names_perm ho').
Qed.

(** A client that lists directory [dir] page by page, each request with the
    last cookie it was given, until the server reports the end.  [hos] gives
    each request its own enumeration order. *)
Fixpoint list_pages (hos : nat -> HashOrder) (fuel : nat) (dir cookie max_entries : Z) fs
    : result FsError (list (DirEntry Z)) :=
  match fuel with
  | O => Ok []
  | S fuel =>
    page ← @readdir (hos fuel) dir cookie max_entries true fs;
    if dp_eof page then Ok (dp_entries page) else
    match last (dp_entries page) with
    | Some e =>
      rest ← list_pages hos fuel dir (de_cookie e) max_entries fs;
      Ok (dp_entries page ++ rest)
    | None => Ok (dp_entries page)
    end
  end.

(** the entries of a listing, numbered from [cookie] *)
Fixpoint numbered (m : gmap Z Inode) (cookie : Z) (l : list (bytes * Z)) : list (DirEntry Z) :=
  match l with
  | [] => []
  | (n, c) :: l => mkDirEntry n c cookie (nd_attrs <$> m !! c) :: numbered m (cookie + 1) l
  end.

Lemma fill_page_ok m cookie l :
  (forall n c, (n, c) ∈ l -> is_Some (m !! c)) ->
  fill_page m true cookie l = Ok (numbered m cookie l).
Proof.
  revert cookie. induction l as [|[n c] l IH]; intros cookie H; [done|]. simpl.
  destruct (H n c) as [nd Hc]; [by left|]. rewrite Hc. simpl.
  rewrite IH; [done|]. intros n' c' H'. apply (H n' c'). by right.
Qed.

Lemma length_numbered m cookie l : length (numbered m cookie l) = length l.
Proof. revert cookie. induction l as [|[n c] l IH]; intros; simpl; [done|]. by rewrite IH. Qed.

Lemma numbered_app m cookie l l' :
  numbered m cookie (l ++ l') = numbered m cookie l ++ numbered m (cookie + zlen l) l'.
Proof.
  revert cookie. induction l as [|[n c] l IH]; intros cookie; simpl.
  - unfold zlen. simpl. f_equal. lia.
  - rewrite IH. do 3 f_equal. unfold zlen. simpl. lia.
Qed.

Lemma last_numbered m cookie l e :
  last (numbered m cookie l) = Some e -> de_cookie e = cookie + zlen l - 1.
Proof.
  destruct l as [|[n c] l _] using rev_ind; [done|].
  rewrite numbered_app. cbn [numbered]. rewrite last_snoc. intros [= <-]. simpl. unfold zlen. rewrite length_app. simpl. lia.
Qed.

Definition listing (es : gmap bytes Z) : list (bytes * Z) := @sorted_names canonical_order es.

Lemma readdir_page (ho : HashOrder) n fs dir es cookie start max_entries :
  fs_reach n fs -> Z.of_nat n < u64_max - 2 -> names (tree_of (mf_inodes fs)) dir = Some es ->
  0 <= start -> start = (if cookie =? 0 then 0 else cookie - 2) -> 1 <= max_entries ->
  let page := take (Z.to_nat max_entries) (drop (Z.to_nat start) (listing es)) in
  @readdir ho dir cookie max_entries true fs =
  Ok (mkDirPage (numbered (mf_inodes fs) (start + 3) page)
        (zlen (listing es) <=? start + zlen page)).
Proof.
  intros Hr Hn Hes Hs0 Hs Hmax page. destruct (fs_reach_inv n fs Hr Hn) as [Hinv _].
  unfold readdir. pose proof Hes as Hes'. rewrite names_tree_of in Hes'.
  destruct (mf_inodes fs !! dir) as [nd|] eqn:Hd; [|done]. simpl in *. unfold dir_entries in Hes'.
  destruct (nd_data nd) as [|es'|] eqn:Ed; try done. injection Hes' as ->.
  rewrite (sorted_names_order ho canonical_order es). fold (listing es).
  assert (Hst : (if cookie =? 0 then 0 else saturating_sub cookie 2) = start).
  { rewrite Hs. destruct (cookie =? 0); [done|]. unfold saturating_sub. lia. }
  rewrite Hst, (proj2 (Z.eqb_neq max_entries 0)) by lia. fold page.
  rewrite fill_page_ok.
  - simpl. rewrite length_numbered. do 2 f_equal. unfold zlen. f_equal. f_equal.
    unfold listing. by rewrite sorted_names_perm, length_map_to_list.
  - intros k c Hin.
    assert (Hj : (k, c) ∈ listing es).
    { rewrite <- (take_drop (Z.to_nat start) (listing es)). apply elem_of_app. right.
      rewrite <- (take_drop (Z.to_nat max_entries) (drop _ _)). apply elem_of_app. by left. }
    unfold listing in Hj. rewrite sorted_names_perm, elem_of_map_to_list in Hj.
    apply tree_Some. apply (tw_child _ (fi_tree _ Hinv) dir k). unfold child. by rewrite Hes.
Qed.

Lemma list_pages_from hos n fs dir es max_entries fuel cookie start :
  fs_reach n fs -> Z.of_nat n < u64_max - 2 -> names (tree_of (mf_inodes fs)) dir = Some es ->
  1 <= max_entries -> 0 <= start -> start = (if cookie =? 0 then 0 else cookie - 2) ->
  (length (listing es) < fuel + Z.to_nat start)%nat ->
  list_pages hos fuel dir cookie max_entries fs =
  Ok (numbered (mf_inodes fs) (start + 3) (drop (Z.to_nat start) (listing es))).
Proof.
  intros Hr Hn Hes Hmax. revert cookie start.
  induction fuel as [|fuel IH]; intros cookie start Hs0 Hs Hf.
  - simpl. by rewrite drop_ge by lia.
  - simpl. rewrite (readdir_page _ n fs dir es cookie start) by done. simpl.
    set (rest := drop (Z.to_nat start) (listing es)).
    set (page := take (Z.to_nat max_entries) rest).
    assert (Hlr : length rest = (length (listing es) - Z.to_nat start)%nat) by apply length_drop.
    assert (Hlp : length page = Nat.min (Z.to_nat max_entries) (length rest)) by apply length_take.
    destruct (Z.leb_spec (zlen (listing es)) (start + zlen page)) as [Heof|Hmore];
      unfold zlen in *.
    { do 2 f_equal. unfold page. apply take_ge. lia. }
    destruct (last (numbered (mf_inodes fs) (start + 3) page)) as [e|] eqn:El.
    2:{ apply last_None in El. apply (f_equal length) in El. rewrite length_numbered in El.
        simpl in El. lia. }
    apply last_numbered in El. unfold zlen in El.
    rewrite (IH _ (start + Z.of_nat (length page))); [|lia| |lia].
    + assert (Hp : take (length page) rest = page).
      { rewrite Hlp, <- take_take. unfold page. by rewrite (take_ge rest (length rest)). }
      simpl. f_equal. rewrite <- (take_drop (length page) rest), Hp, numbered_app.
      unfold rest. rewrite drop_drop. unfold zlen. do 2 f_equal; [lia|]. f_equal. lia.
    + rewrite (proj2 (Z.eqb_neq _ 0)); lia.
Qed.

Lemma numbered_pairs m cookie l :
  (fun e => (de_name e, de_handle e)) <$> numbered m cookie l = l.
Proof. revert cookie. induction l as [|[n c] l IH]; intros; simpl; [done|]. by rewrite IH. Qed.

Lemma numbered_attrs m cookie l e :
  e ∈ numbered m cookie l -> de_attrs e = nd_attrs <$> m !! de_handle e.
Proof.
  revert cookie. induction l as [|[n c] l IH]; intros cookie; simpl; [by intros ?%elem_of_nil|].
  intros [->|H]%elem_of_cons; [done|]. by eapply IH.
Qed.

(** C28. Listing a directory page by page is exact: whatever the page size,
    and whatever order the hash table is enumerated in at each request, the
    client ends with the same list, which has every name of the directory once
    with its handle, in ascending byte order, and with the attributes GETATTR
    would give. *)
Theorem readdir_complete n fs dir es :
  fs_reach n fs -> Z.of_nat n < u64_max - 2 -> names (tree_of (mf_inodes fs)) dir = Some es ->
  exists l,
    (forall hos max_entries fuel, 1 <= max_entries -> (size es < fuel)%nat ->
       list_pages hos fuel dir 0 max_entries fs = Ok l) /\
    (fun e => (de_name e, de_handle e)) <$> l ≡ₚ map_to_list es /\
    StronglySorted bytes_le (de_name <$> l) /\ NoDup (de_name <$> l) /\
    (forall e, e ∈ l -> exists a, de_attrs e = Some a /\ getattr (de_handle e) fs = Ok a).
Proof.
  intros Hr Hn Hes. exists (numbered (mf_inodes fs) 3 (listing es)).
  pose proof (numbered_pairs (mf_inodes fs) 3 (listing es)) as Hp.
  set (l := numbered (mf_inodes fs) 3 (listing es)) in *.
  assert (Hnames : de_name <$> l = (listing es).*1).
  { rewrite <- Hp. rewrite <- list_fmap_compose. done. }
  assert (Hperm : listing es ≡ₚ map_to_list es) by apply sorted_names_perm.
  split_and!.
  - intros hos max_entries fuel Hmax Hf.
    rewrite (list_pages_from hos n fs dir es max_entries fuel 0 0); try done.
    rewrite Hperm, length_map_to_list. lia.
  - by rewrite Hp.
  - rewrite Hnames. apply (StronglySorted_fmap fst name_le bytes_le); [done|].
    apply StronglySorted_merge_sort; apply _.
  - rewrite Hnames, Hperm. apply NoDup_fst_map_to_list.
  - intros e He. pose proof He as Ha. apply numbered_attrs in Ha.
    assert (Hin : (de_name e, de_handle e) ∈ listing es).
    { rewrite <- Hp. apply list_elem_of_fmap. by exists e. }
    rewrite Hperm, elem_of_map_to_list in Hin. destruct (fs_reach_inv n fs Hr Hn) as [Hinv _].
    destruct (child_exists dir (de_name e) (de_handle e) fs Hinv) as [nd Hnd].
    { unfold child. by rewrite Hes. }
    exists (nd_attrs nd). unfold getattr. by rewrite Ha, Hnd.
Qed.

(** ** Examples *)

Definition example_clock : Clock := fun _ => mkTimestamp 0 0.
Definition no_attrs : SetAttrs := mkSetAttrs None None None None None None None None None None.
Definition example_op (op : FsOp) fs : MemFs := (@run_op canonical_order example_clock op fs).2.
Definition create_op (p : Z) (name : string) (k : CreateKind) : FsOp :=
  Op_create RequestContext_anonymous p (str_bytes name) (mkCreateRequest k no_attrs).

(** directories 2 = /d and 3 = /d/e, file 4 = /a with a second name /d/x *)
Definition example_tree_fs : MemFs :=
  example_op (Op_link 4 2 (str_bytes "x"))
  (example_op (create_op 1 "a" CK_File)
  (example_op (create_op 2 "e" CK_Directory)
  (example_op (create_op 1 "d" CK_Directory) (MemFs_new (mkTimestamp 0 0))))).

Lemma create_op_ok p name k : op_ok (create_op p name k).
Proof. intros sz. discriminate. Qed.

Lemma example_tree_reach : fs_reach 4 example_tree_fs.
Proof. repeat (apply fs_reach_op; [|apply create_op_ok || exact I]). constructor. Qed.

(** The change attribute of the in-memory filesystem can repeat: a new
    object's change id is its inode number, but later ones come from a
    separate counter that lags behind when creations have failed.  Here two
    creations fail, a file is created, and two writes later it has the change
    id it was created with, although its contents differ; in between the change
    id has even gone down. *)
Theorem memfs_change_repeats :
  let fs0 := MemFs_new (mkTimestamp 0 0) in
  let fs1 := example_op (create_op 1 "a" CK_File) fs0 in
  let fs2 := example_op (create_op 1 "a" CK_File) (example_op (create_op 1 "a" CK_File) fs1) in
  let fs3 := example_op (create_op 1 "b" CK_File) fs2 in
  let fs4 := example_op (Op_write 5 0 [7]) fs3 in
  let fs5 := example_op (Op_write 5 0 [8]) fs4 in
  fs_reach 6 fs5 /\ file_bytes 5 fs3 = Some [] /\ file_bytes 5 fs5 = Some [8] /\
  (at_change <$> (nd_attrs <$> mf_inodes fs3 !! 5)) = Some 5 /\
  (at_change <$> (nd_attrs <$> mf_inodes fs4 !! 5)) = Some 4 /\
  (at_change <$> (nd_attrs <$> mf_inodes fs5 !! 5)) = Some 5.
Proof.
  split; [|vm_compute; repeat split].
  repeat (apply fs_reach_op; [|apply create_op_ok || (simpl; lia)]). constructor.
Qed.

Lemma small_run : Z.of_nat 4 < u64_max - 2.
Proof. reflexivity. Qed.

(** ** Witnesses *)

(** Moving /d below its own subdirectory is refused; so is replacing an
    extended attribute that file 4 does not have. *)
Lemma memfs_refines_tree_witness :
  op_spec (Op_rename 1 (str_bytes "d") 3 (str_bytes "f")) (Err Fs_InvalidInput)
    (tree_of (mf_inodes example_tree_fs)) (tree_of (mf_inodes example_tree_fs)) /\
  data_spec (Op_set_xattr 4 (str_bytes "k") [1] ReplaceOnly) (Err Fs_NotFound)
    (contents_of (mf_inodes example_tree_fs)) (contents_of (mf_inodes example_tree_fs)).
Proof.
  split.
  - refine (proj1 (@memfs_refines_tree canonical_order 4 example_tree_fs example_clock
      (Op_rename 1 (str_bytes "d") 3 (str_bytes "f")) (Err Fs_InvalidInput) example_tree_fs
      example_tree_reach small_run I _)). vm_compute. reflexivity.
  - refine (proj2 (@memfs_refines_tree canonical_order 4 example_tree_fs example_clock
      (Op_set_xattr 4 (str_bytes "k") [1] ReplaceOnly) (Err Fs_NotFound) example_tree_fs
      example_tree_reach small_run I _)). vm_compute. reflexivity.
Defined.

Lemma memfs_namespace_sound_witness : tree_wf (tree_of (mf_inodes example_tree_fs)).
Proof. apply (memfs_namespace_sound 4); [apply example_tree_reach|exact small_run]. Defined.

(** The file has two names. *)
Lemma memfs_attributes_exact_witness :
  exists nd, mf_inodes example_tree_fs !! 4 = Some nd /\ node_wf 4 nd /\
    at_link_count (nd_attrs nd) = 2.
Proof.
  eexists. split; [vm_compute; reflexivity|].
  match goal with |- node_wf _ ?nd /\ _ =>
    destruct (memfs_attributes_exact 4 example_tree_fs 4 nd) as [Hw _];
      [apply example_tree_reach|exact small_run|vm_compute; reflexivity|split; [exact Hw|reflexivity]]
  end.
Defined.

Lemma memfs_errors_harmless_witness :
  mf_inodes (example_op (create_op 1 "a" CK_File) example_tree_fs) = mf_inodes example_tree_fs.
Proof.
  apply (@memfs_errors_harmless canonical_order example_clock (create_op 1 "a" CK_File)
           example_tree_fs Fs_AlreadyExists).
  vm_compute. reflexivity.
Defined.

Lemma write_then_read_witness :
  exists eof, read 4 3 2 (@write example_clock 4 3 [7; 8] example_tree_fs).2 =
              Ok (mkReadResult [7; 8] eof).
Proof.
  destruct (write_then_read 4 example_tree_fs example_clock 4 3 [7; 8]
    (mkWriteResult 2 FileSync) (write example_clock 4 3 [7; 8] example_tree_fs).2 0 0)
    as (old & new & _ & _ & _ & _ & _ & H & _);
    [apply example_tree_reach|exact small_run|lia|vm_compute; reflexivity|lia|lia|exact H].
Defined.

Lemma readdir_complete_witness :
  exists l, list_pages (fun _ => reversed_order) 10 2 0 1 example_tree_fs = Ok l /\ length l = 2%nat.
Proof.
  destruct (readdir_complete 4 example_tree_fs 2
    (<[str_bytes "x" := 4]> {[str_bytes "e" := 3]})) as (l & Hl & Hp & _);
    [apply example_tree_reach|exact small_run|vm_compute; reflexivity|].
  exists l. split; [apply Hl; [lia|vm_compute; lia]|].
  apply Permutation_length in Hp. rewrite length_fmap in Hp. rewrite Hp. vm_compute. reflexivity.
Defined.
