(* ===== verification/Paths.v ===== *)
(** * Paths (Rust's [std::path] on Unix)

    What the daemon uses of [Path] and [PathBuf].  A path is the byte string of
    its [OsStr].  Two paths are equal when their components are ([path_eq]),
    which is coarser than equality of the byte strings.

    A path is [plain] when it is a sequence of names with single separators
    between them: the paths a server makes from file names.  On plain paths the
    two equalities agree, [join] and [parent] are inverse, and nothing but names
    comes out of [components]. *)

From stdpp Require Import base gmap list sets strings numbers sorting.
From Stdlib Require Import ZArith Lia.
From S2P Require Import Prelude Xdr.

Local Open Scope Z_scope.

(** ** Components *)

Definition SEP : Z := 47. (* the separator, a slash *)
Definition DOT : bytes := str_bytes ".".
Definition DOTDOT : bytes := str_bytes "..".

(** [bytes.split(|b| b == sep)]: the pieces between the separators, at least one. *)
Fixpoint split_on (sep : Z) (s : bytes) : list bytes :=
  match s with
  | [] => [[]]
  | b :: s =>
    if b =? sep then [] :: split_on sep s
    else match split_on sep s with
         | piece :: pieces => (b :: piece) :: pieces
         | [] => [[b]]
         end
  end.

(** The pieces with separators between them. *)
Fixpoint join_on (sep : Z) (pieces : list bytes) : bytes :=
  match pieces with
  | [] => []
  | [piece] => piece
  | piece :: pieces => piece ++ sep :: join_on sep pieces
  end.

(** [Prefix] exists on other systems only. *)
Inductive Component :=
| Prefix (prefix : bytes)
| RootDir
| CurDir
| ParentDir
| Normal (name : bytes).
#[export] Instance Component_eq_dec : EqDecision Component.
Proof. solve_decision. Defined.

Definition is_absolute (path : bytes) : bool :=
  match path with b :: _ => b =? SEP | [] => false end.

(** A component after the first: empty pieces and dots are skipped. *)
Definition parse_single_component (piece : bytes) : option Component :=
  if bool_decide (piece = []) || bool_decide (piece = DOT) then None
  else if bool_decide (piece = DOTDOT) then Some ParentDir
  else Some (Normal piece).

(** A relative path that begins with a dot component keeps it. *)
Definition include_cur_dir (path : bytes) : bool :=
  negb (is_absolute path) && bool_decide (head (split_on SEP path) = Some DOT).

(** How many bytes the root or the leading dot takes, before the body. *)
Definition len_before_body (path : bytes) : nat :=
  if is_absolute path || include_cur_dir path then 1 else 0.

Definition components (path : bytes) : list Component :=
  (if is_absolute path then [RootDir] else if include_cur_dir path then [CurDir] else []) ++
  omap parse_single_component (split_on SEP (drop (len_before_body path) path)).

(** [PartialEq] of [Path]. *)
Definition path_eq (p q : bytes) : Prop := components p = components q.
#[export] Instance path_eq_dec p q : Decision (path_eq p q).
Proof. unfold path_eq. apply _. Defined.
#[export] Instance path_eq_equiv : Equivalence path_eq.
Proof. unfold path_eq. split; [done|by intros ???|by intros ??? -> ->]. Qed.
#[export] Instance components_proper : Proper (path_eq ==> eq) components.
Proof. by intros ???. Qed.

(** [Path::join] *)
Definition join (path other : bytes) : bytes :=
  if is_absolute other then other
  else match last path with
       | Some b => if b =? SEP then path ++ other else path ++ SEP :: other
       | None => other
       end.

(** The pieces without the trailing ones that are no component. *)
Fixpoint trim_front (pieces : list bytes) : list bytes :=
  match pieces with
  | piece :: rest =>
    match parse_single_component piece with Some _ => pieces | None => trim_front rest end
  | [] => []
  end.
Definition trim_right (pieces : list bytes) : list bytes := rev (trim_front (rev pieces)).

(** [Path::parent]: the path without its last component, and without what is left
    of separators and dots there; the root and the empty path have no parent. *)
Definition parent_path (path : bytes) : option bytes :=
  let start := len_before_body path in
  match trim_right (split_on SEP (drop start path)) with
  | [] => if include_cur_dir path then Some [] else None
  | pieces => Some (take start path ++ join_on SEP (trim_right (removelast pieces)))
  end.

(** ** Splitting and joining *)

Lemma split_on_ne sep s : split_on sep s <> [].
Proof. destruct s as [|b s]; simpl; [done|]. destruct (b =? sep); [done|]. by destruct (split_on sep s). Qed.

Lemma join_split sep s : join_on sep (split_on sep s) = s.
Proof.
  induction s as [|b s IH]; [done|]. simpl. destruct (Z.eqb_spec b sep) as [->|].
  - simpl. destruct (split_on sep s) eqn:E; [by apply split_on_ne in E|]. by rewrite IH.
  - destruct (split_on sep s) as [|piece pieces] eqn:E; [by apply split_on_ne in E|].
    rewrite <- IH. by destruct pieces.
Qed.

Lemma split_on_none sep s : sep ∉ s -> split_on sep s = [s].
Proof.
  induction s as [|b s IH]; [done|]. intros [Hb Hs]%not_elem_of_cons. simpl.
  rewrite (proj2 (Z.eqb_neq b sep)) by congruence. by rewrite IH.
Qed.

Lemma split_on_app sep s t : sep ∉ s -> split_on sep (s ++ sep :: t) = s :: split_on sep t.
Proof.
  induction s as [|b s IH]; intros Hs; simpl.
  - by rewrite Z.eqb_refl.
  - apply not_elem_of_cons in Hs as [Hb Hs]. rewrite (proj2 (Z.eqb_neq b sep)) by congruence.
    by rewrite IH.
Qed.

(** Pieces without separators are what a join splits into. *)
Lemma split_join sep pieces :
  Forall (fun piece => sep ∉ piece) pieces -> pieces <> [] -> split_on sep (join_on sep pieces) = pieces.
Proof.
  induction 1 as [|piece pieces Hp Hps IH]; [done|]. intros _.
  destruct pieces as [|piece' pieces]; [by apply split_on_none|].
  cbn [join_on]. rewrite split_on_app by done. f_equal. by apply IH.
Qed.

Lemma join_on_cons sep piece pieces :
  pieces <> [] -> join_on sep (piece :: pieces) = piece ++ sep :: join_on sep pieces.
Proof. by destruct pieces. Qed.

Lemma join_on_snoc sep pieces piece :
  pieces <> [] -> join_on sep (pieces ++ [piece]) = join_on sep pieces ++ sep :: piece.
Proof.
  induction pieces as [|p pieces IH]; [done|]. intros _. destruct pieces as [|p' pieces]; [done|].
  simpl app. rewrite !join_on_cons by done. simpl app in IH. rewrite IH by done.
  by rewrite <- app_assoc.
Qed.

(** ** Names and plain paths *)

(** A name is one component of a path: what [validate_component_name] lets through
    and what a directory listing has. *)
Definition name_ok (name : bytes) : Prop :=
  name <> [] /\ name <> DOT /\ name <> DOTDOT /\ SEP ∉ name.
#[export] Instance name_ok_dec name : Decision (name_ok name).
Proof. unfold name_ok. apply _. Defined.

(** The path of a list of names. *)
Definition path_of (names : list bytes) : bytes := join_on SEP names.
Definition plain (path : bytes) : Prop := exists names, Forall name_ok names /\ path = path_of names.

Lemma name_component name : name_ok name -> parse_single_component name = Some (Normal name).
Proof.
  intros (H1 & H2 & H3 & _). unfold parse_single_component. by rewrite !bool_decide_false by done.
Qed.

Lemma parse_cases piece :
  parse_single_component piece = None \/ parse_single_component piece = Some ParentDir \/
  parse_single_component piece = Some (Normal piece).
Proof. unfold parse_single_component. repeat case_match; auto. Qed.

Lemma names_components names :
  Forall name_ok names -> omap parse_single_component names = Normal <$> names.
Proof. induction 1 as [|n ns Hn Hns IH]; [done|]. cbn. by rewrite name_component, IH. Qed.

Lemma names_no_sep names : Forall name_ok names -> Forall (fun n => SEP ∉ n) names.
Proof. intros Hn. eapply Forall_impl; [exact Hn|]. by intros n (_ & _ & _ & ?). Qed.

Lemma split_path names :
  Forall name_ok names -> names <> [] -> split_on SEP (path_of names) = names.
Proof. intros Hn. by apply split_join, names_no_sep. Qed.

Lemma name_not_absolute name rest : name_ok name -> is_absolute (name ++ rest) = false.
Proof.
  intros (Hne & _ & _ & Hs). destruct name as [|b name]; [done|]. simpl.
  apply not_elem_of_cons in Hs as [? _]. by apply Z.eqb_neq.
Qed.

Lemma path_of_cons name names :
  path_of (name :: names) = name ++ (if decide (names = []) then [] else SEP :: path_of names).
Proof. unfold path_of. destruct names; [by rewrite app_nil_r|done]. Qed.

Lemma plain_relative names : Forall name_ok names -> is_absolute (path_of names) = false.
Proof.
  destruct 1 as [|n ns Hn Hns]; [done|]. rewrite path_of_cons. by apply name_not_absolute.
Qed.

Lemma plain_no_cur_dir names : Forall name_ok names -> include_cur_dir (path_of names) = false.
Proof.
  intros Hns. unfold include_cur_dir. rewrite plain_relative by done. cbn [negb andb].
  apply bool_decide_false. destruct Hns as [|n ns Hn Hns]; [done|].
  rewrite split_path by (done || by constructor). intros [= ->]. by destruct Hn as (_ & ? & _).
Qed.

Lemma plain_before_body names : Forall name_ok names -> len_before_body (path_of names) = 0%nat.
Proof. intros Hns. unfold len_before_body. by rewrite plain_relative, plain_no_cur_dir. Qed.

Lemma components_plain names : Forall name_ok names -> components (path_of names) = Normal <$> names.
Proof.
  intros Hns. unfold components. rewrite plain_relative, plain_no_cur_dir, plain_before_body by done.
  rewrite drop_0. cbn [app]. destruct names as [|n ns]; [done|].
  rewrite split_path by done. by apply names_components.
Qed.

#[export] Instance Normal_inj : Inj (=) (=) Normal.
Proof. by intros ?? [= ->]. Qed.

(** Plain paths are equal as paths only if they are the same string. *)
Lemma plain_path_eq p q : plain p -> plain q -> path_eq p q -> p = q.
Proof.
  intros (ns & Hn & ->) (ms & Hm & ->). unfold path_eq. rewrite !components_plain by done.
  by intros ->%(inj (fmap Normal)).
Qed.

Lemma last_path_of names b :
  Forall name_ok names -> last (path_of names) = Some b -> b <> SEP.
Proof.
  induction 1 as [|n ns Hn Hns IH]; [done|]. rewrite path_of_cons, last_app.
  destruct (decide (ns = [])) as [->|Hne].
  - cbn. intros Hl%last_Some_elem_of ->. by destruct Hn as (_ & _ & _ & ?).
  - rewrite last_cons. destruct (last (path_of ns)) eqn:E; [intros [= ->]; auto|].
    apply last_None in E. destruct ns as [|m ms]; [done|]. rewrite path_of_cons in E.
    apply Forall_cons_iff in Hns as [(? & _) _]. by destruct m.
Qed.

Lemma path_of_ne names : Forall name_ok names -> path_of names = [] -> names = [].
Proof.
  destruct 1 as [|n ns Hn Hns]; [done|]. rewrite path_of_cons. destruct Hn as (? & _). by destruct n.
Qed.

(** Joining a name appends it. *)
Lemma join_plain names name :
  Forall name_ok names -> name_ok name -> join (path_of names) name = path_of (names ++ [name]).
Proof.
  intros Hns Hn. unfold join. pose proof (name_not_absolute name [] Hn) as Ha.
  rewrite app_nil_r in Ha. rewrite Ha.
  destruct (last (path_of names)) as [b|] eqn:E.
  - rewrite (proj2 (Z.eqb_neq b SEP)) by by eapply last_path_of.
    unfold path_of. rewrite join_on_snoc; [done|]. by intros ->.
  - apply last_None, path_of_ne in E as ->; done.
Qed.

Lemma trim_right_names names : Forall name_ok names -> trim_right names = names.
Proof.
  intros Hn. unfold trim_right. destruct names as [|n ns _] using rev_ind; [done|].
  rewrite rev_app_distr. simpl. apply Forall_app, proj2 in Hn. rewrite Forall_singleton in Hn.
  rewrite name_component by done. simpl. by rewrite rev_involutive.
Qed.

(** The parent of a plain path drops its last name. *)
Lemma parent_plain names name :
  Forall name_ok names -> name_ok name ->
  parent_path (path_of (names ++ [name])) = Some (path_of names).
Proof.
  intros Hns Hn. assert (Hall : Forall name_ok (names ++ [name])) by (by apply Forall_app; auto).
  unfold parent_path. rewrite plain_before_body by done. rewrite drop_0. cbn [take].
  rewrite split_path by (done || by destruct names). rewrite trim_right_names by done.
  destruct (names ++ [name]) as [|p ps] eqn:E; [by destruct names|].
  by rewrite <- E, removelast_last, trim_right_names.
Qed.

(** A byte string that is not absolute, below a plain absolute root: the root's
    components come first. *)
Lemma components_absolute names :
  Forall name_ok names -> components (SEP :: path_of names) = RootDir :: (Normal <$> names).
Proof.
  intros Hns. unfold components, len_before_body. cbn [is_absolute]. rewrite Z.eqb_refl.
  cbn [orb app]. rewrite skipn_cons, drop_0. f_equal. destruct names as [|n ns]; [done|].
  rewrite split_path by done. by apply names_components.
Qed.

(** ** Below a directory *)

(** What [Path::canonicalize] returns: an absolute path of names. *)
Definition canonical (root : bytes) : Prop :=
  exists names, Forall name_ok names /\ root = SEP :: path_of names.

(** [path] goes down from [root] by names only. *)
Definition below (root path : bytes) : Prop :=
  exists names, components path = components root ++ (Normal <$> names).

Lemma split_path_app names rest :
  Forall name_ok names -> names <> [] ->
  split_on SEP (path_of names ++ SEP :: rest) = names ++ split_on SEP rest.
Proof.
  induction 1 as [|n ns Hn Hns IH]; [done|]. intros _. rewrite path_of_cons.
  assert (SEP ∉ n) by by destruct Hn as (_ & _ & _ & ?).
  destruct (decide (ns = [])) as [->|Hne].
  - rewrite app_nil_r. by rewrite split_on_app.
  - rewrite <- app_assoc. cbn [app]. rewrite split_on_app by done. f_equal. by apply IH.
Qed.

(** The pieces of a relative path stand for its components, a leading dot apart. *)
Lemma relative_pieces path :
  is_absolute path = false ->
  omap parse_single_component (split_on SEP path) =
  omap parse_single_component (split_on SEP (drop (len_before_body path) path)).
Proof.
  intros Ha. unfold len_before_body. rewrite Ha. cbn [orb].
  destruct (include_cur_dir path) eqn:Hc; [|done].
  unfold include_cur_dir in Hc. rewrite Ha in Hc. cbn in Hc. apply bool_decide_eq_true in Hc.
  destruct path as [|b path]; [done|]. cbn in *. destruct (b =? SEP); [done|].
  destruct (split_on SEP path) as [|piece pieces] eqn:E; cbn in *; simplify_eq; rewrite drop_0, E; done.
Qed.

Lemma join_below root path :
  canonical root -> is_absolute path = false -> ParentDir ∉ components path ->
  below root (join root path).
Proof.
  intros (rs & Hrs & ->) Ha Hp.
  assert (exists names, omap parse_single_component (split_on SEP path) = Normal <$> names) as [ns Hns].
  { rewrite relative_pieces by done. revert Hp. unfold components. rewrite Ha.
    generalize (split_on SEP (drop (len_before_body path) path)). intros pieces Hp.
    apply not_elem_of_app in Hp as [_ Hp]. induction pieces as [|piece pieces IH]; [by exists []|].
    cbn in *. destruct (parse_cases piece) as [E|[E|E]]; rewrite E in *; [by apply IH| |].
    - by apply not_elem_of_cons in Hp as [? _].
    - apply not_elem_of_cons in Hp as [_ [ns ->]%IH]. by exists (piece :: ns). }
  exists ns. rewrite components_absolute by done. unfold join. rewrite Ha.
  destruct rs as [|r rs].
  - cbn. f_equal. by rewrite drop_0.
  - assert (E : last (SEP :: path_of (r :: rs)) = last (path_of (r :: rs))).
    { rewrite last_cons. destruct (last (path_of (r :: rs))) eqn:El; [done|].
      by apply last_None, path_of_ne in El. }
    rewrite E. destruct (last (path_of (r :: rs))) as [b|] eqn:El.
    2: { by apply last_None, path_of_ne in El. }
    rewrite (proj2 (Z.eqb_neq b SEP)) by by eapply last_path_of.
    unfold components, len_before_body. cbn [app is_absolute]. rewrite Z.eqb_refl. cbn [orb].
    rewrite skipn_cons, drop_0, split_path_app by done.
    by rewrite omap_app, names_components, Hns.
Qed.
