(* ===== verification/Text.v ===== *)
(** * Text (Rust's [str] and number formatting)

    What the configuration of a server uses of strings: the lossy reading of
    bytes as UTF-8, characters and their trimming, lower case, decimal and
    hexadecimal numbers, and the parser of unsigned integers.  Strings are their
    UTF-8 bytes. *)

From stdpp Require Import base gmap list sets strings numbers sorting.
From Stdlib Require Import ZArith Lia.
From S2P Require Import Prelude Xdr AttrCodec.

Local Open Scope Z_scope.

(** ** UTF-8 *)

(** The next character of [s], or the bytes of an ill-formed one: how many bytes
    it takes and whether it is well-formed.  [byte i] is 0, which continues no
    character, past the end. *)
Definition next_char (s : bytes) : nat * bool :=
  let byte i := nth i s 0 in
  let first := byte 0%nat in
  let second := byte 1%nat in
  if first <? 128 then (1%nat, true)
  else if in_range 194 223 first then
    if utf8_cont second then (2%nat, true) else (1%nat, false)
  else if in_range 224 239 first then
    if if first =? 224 then in_range 160 191 second
       else if first =? 237 then in_range 128 159 second
       else utf8_cont second
    then if utf8_cont (byte 2%nat) then (3%nat, true) else (2%nat, false)
    else (1%nat, false)
  else if in_range 240 244 first then
    if if first =? 240 then in_range 144 191 second
       else if first =? 244 then in_range 128 143 second
       else utf8_cont second
    then if utf8_cont (byte 2%nat)
         then if utf8_cont (byte 3%nat) then (4%nat, true) else (3%nat, false)
         else (2%nat, false)
    else (1%nat, false)
  else (1%nat, false).

(** U+FFFD *)
Definition REPLACEMENT : bytes := [239; 191; 189].

(** Every character takes a byte, so the length of the string is enough fuel. *)
Fixpoint chars_from (fuel : nat) (s : bytes) : list bytes :=
  match fuel, s with
  | S fuel, _ :: _ =>
    let '(width, valid) := next_char s in
    (if valid then take width s else REPLACEMENT) :: chars_from fuel (drop width s)
  | _, _ => []
  end.

(** [str::chars], a character as its bytes; ill-formed bytes are replaced. *)
Definition chars (s : bytes) : list bytes := chars_from (length s) s.

(** [OsStr::to_string_lossy] *)
Definition to_string_lossy (s : bytes) : bytes := concat (chars s).

(** The scalar value of a character. *)
Definition code_point (c : bytes) : Z :=
  match c with
  | [a] => a
  | [a; b] => Z.lor (Z.shiftl (Z.land a 31) 6) (Z.land b 63)
  | [a; b; c] =>
    Z.lor (Z.shiftl (Z.land a 15) 12) (Z.lor (Z.shiftl (Z.land b 63) 6) (Z.land c 63))
  | [a; b; c; d] =>
    Z.lor (Z.shiftl (Z.land a 7) 18)
      (Z.lor (Z.shiftl (Z.land b 63) 12) (Z.lor (Z.shiftl (Z.land c 63) 6) (Z.land d 63)))
  | _ => 0
  end.

(** [char::is_whitespace]: the Unicode property White_Space. *)
Definition is_whitespace (c : bytes) : bool :=
  let p := code_point c in
  in_range 9 13 p || (p =? 32) || (p =? 133) || (p =? 160) || (p =? 5760) ||
  in_range 8192 8202 p || (p =? 8232) || (p =? 8233) || (p =? 8239) || (p =? 8287) || (p =? 12288).

Fixpoint drop_while {A} (f : A -> bool) (l : list A) : list A :=
  match l with
  | [] => []
  | x :: rest => if f x then drop_while f rest else l
  end.

(** [str::trim] *)
Definition trim (s : bytes) : bytes :=
  concat (rev (drop_while is_whitespace (rev (drop_while is_whitespace (chars s))))).

(** [u8::is_ascii_whitespace] *)
Definition is_ascii_whitespace (b : Z) : bool :=
  (b =? 32) || (b =? 9) || (b =? 10) || (b =? 12) || (b =? 13).

(** [str::to_ascii_lowercase] *)
Definition to_ascii_lowercase (s : bytes) : bytes :=
  (fun b => if in_range 65 90 b then b + 32 else b) <$> s.

(** [str::strip_prefix] and [str::starts_with] *)
Fixpoint strip_prefix (prefix s : bytes) : option bytes :=
  match prefix, s with
  | [], _ => Some s
  | p :: prefix, b :: s => if p =? b then strip_prefix prefix s else None
  | _ :: _, [] => None
  end.
Definition starts_with (prefix s : bytes) : bool :=
  match strip_prefix prefix s with Some _ => true | None => false end.

(** ** Numbers *)

Inductive IntErrorKind := IE_Empty | IE_InvalidDigit | IE_PosOverflow.
#[export] Instance IntErrorKind_eq_dec : EqDecision IntErrorKind.
Proof. solve_decision. Defined.

Fixpoint parse_digits_max (max acc : Z) (s : bytes) : result IntErrorKind Z :=
  match s with
  | [] => Ok acc
  | b :: s =>
    if negb (in_range 48 57 b) then Err IE_InvalidDigit
    else let v := acc * 10 + (b - 48) in
         if max <? v then Err IE_PosOverflow else parse_digits_max max v s
  end.

(** [str::parse] for an unsigned type: a plus sign is allowed, a sign alone is not. *)
Definition parse_unsigned (max : Z) (s : bytes) : result IntErrorKind Z :=
  match s with
  | [] => Err IE_Empty
  | b :: rest =>
    if bool_decide (rest = []) && ((b =? 43) || (b =? 45)) then Err IE_InvalidDigit
    else parse_digits_max max 0 (if b =? 43 then rest else s)
  end.
Definition parse_u64 : bytes -> result IntErrorKind Z := parse_unsigned u64_max.

(** [{}] of a [u64] and of a [u128] *)
Definition u64_to_string (n : Z) : bytes := decimal 20 n.
Definition u128_to_string (n : Z) : bytes := decimal 39 n.

(** [{:x}], padded with zeros to [width] digits *)
Definition hex_digit (d : Z) : Z := if d <? 10 then 48 + d else 87 + d.
Fixpoint hex (width : nat) (n : Z) : bytes :=
  match width with
  | O => []
  | S width => hex width (n / 16) ++ [hex_digit (n mod 16)]
  end.

(** ** Facts *)

Lemma strip_prefix_spec prefix s rest : strip_prefix prefix s = Some rest <-> s = prefix ++ rest.
Proof.
  revert s. induction prefix as [|p prefix IH]; intros s; simpl.
  - naive_solver.
  - destruct s as [|b s]; [done|]. destruct (Z.eqb_spec p b) as [->|]; [|naive_solver].
    rewrite IH. naive_solver.
Qed.

Lemma strip_prefix_app prefix s : strip_prefix prefix (prefix ++ s) = Some s.
Proof. by apply strip_prefix_spec. Qed.

Lemma starts_with_spec prefix s : starts_with prefix s = true <-> exists rest, s = prefix ++ rest.
Proof.
  unfold starts_with. split.
  - destruct (strip_prefix prefix s) as [rest|] eqn:E; [|done]. apply strip_prefix_spec in E. eauto.
  - intros [rest ->]. by rewrite strip_prefix_app.
Qed.

Lemma zlen_cons {A} (x : A) l : zlen (x :: l) = Z.succ (zlen l).
Proof. unfold zlen. simpl. lia. Qed.

(** The value of a string of digits. *)
Definition digits_value (s : bytes) : Z := foldl (fun v b => v * 10 + (b - 48)) 0 s.

Lemma digits_value_from s v :
  foldl (fun v b => v * 10 + (b - 48)) v s = v * 10 ^ zlen s + digits_value s.
Proof.
  unfold digits_value. revert v. induction s as [|b s IH]; intros v; cbn [foldl].
  - unfold zlen. simpl. lia.
  - rewrite IH, (IH (0 * 10 + (b - 48))). rewrite zlen_cons, Z.pow_succ_r by apply zlen_nonneg. lia.
Qed.

Lemma digits_value_snoc s b : digits_value (s ++ [b]) = digits_value s * 10 + (b - 48).
Proof. unfold digits_value. by rewrite foldl_app. Qed.

Lemma digits_value_nonneg s : Forall is_digit s -> 0 <= digits_value s.
Proof.
  induction s as [|b s IH] using rev_ind; [done|]. rewrite Forall_app, Forall_singleton.
  intros [Hs Hb]. rewrite digits_value_snoc. unfold is_digit in Hb. specialize (IH Hs). lia.
Qed.

Lemma decimal_value fuel n :
  0 <= n < 10 ^ Z.of_nat fuel -> digits_value (decimal fuel n) = n.
Proof.
  revert n. induction fuel as [|fuel IH]; intros n Hn; [simpl in *; unfold digits_value; simpl; lia|].
  simpl decimal. destruct (Z.ltb_spec n 10).
  - unfold digits_value. simpl. lia.
  - rewrite Nat2Z.inj_succ, Z.pow_succ_r in Hn by lia. pose proof (Z.div_mod n 10).
    rewrite digits_value_snoc, IH; [lia|].
    split; [apply Z.div_pos; lia|apply Z.div_lt_upper_bound; lia].
Qed.

(** Two numbers print differently. *)
Lemma decimal_inj fuel m n :
  0 <= m < 10 ^ Z.of_nat fuel -> 0 <= n < 10 ^ Z.of_nat fuel -> decimal fuel m = decimal fuel n -> m = n.
Proof. intros Hm Hn E. by rewrite <- (decimal_value fuel m Hm), E, decimal_value. Qed.

Lemma hex_length width n : length (hex width n) = width.
Proof. revert n. induction width as [|w IH]; intros n; simpl; [done|]. rewrite length_app, IH. simpl. lia. Qed.

Lemma hex_digit_inj d e : 0 <= d < 16 -> 0 <= e < 16 -> hex_digit d = hex_digit e -> d = e.
Proof. unfold hex_digit. intros. destruct (Z.ltb_spec d 10), (Z.ltb_spec e 10); lia. Qed.

Lemma hex_inj width m n :
  0 <= m < 16 ^ Z.of_nat width -> 0 <= n < 16 ^ Z.of_nat width -> hex width m = hex width n -> m = n.
Proof.
  revert m n. induction width as [|w IH]; intros m n Hm Hn; [simpl in *; lia|].
  rewrite Nat2Z.inj_succ, Z.pow_succ_r in Hm, Hn by lia.
  simpl. intros [Hd Hr]%app_inj_2; [|done]. injection Hr as Hr.
  apply hex_digit_inj in Hr; [|apply Z.mod_pos_bound; lia..].
  assert (m / 16 = n / 16).
  { apply IH; [..|done]; (split; [apply Z.div_pos; lia|apply Z.div_lt_upper_bound; lia]). }
  pose proof (Z.div_mod m 16). pose proof (Z.div_mod n 16). lia.
Qed.

Lemma lxor_u64 a b : is_u64 a -> is_u64 b -> is_u64 (Z.lxor a b).
Proof.
  unfold is_u64. change 18446744073709551616 with (2 ^ 64). intros [Ha0 Ha] [Hb0 Hb].
  split; [by apply Z.lxor_nonneg|]. destruct (Z.eq_dec (Z.lxor a b) 0) as [->|Hne]; [lia|].
  pose proof (proj2 (Z.lxor_nonneg a b) ltac:(lia)) as Hx.
  apply Z.log2_lt_pow2; [lia|]. eapply Z.le_lt_trans; [by apply Z.log2_lxor|].
  destruct (Z.max_spec (Z.log2 a) (Z.log2 b)) as [[_ ->]|[_ ->]].
  - destruct (Z.eq_dec b 0) as [->|]; [by simpl|]. apply Z.log2_lt_pow2; lia.
  - destruct (Z.eq_dec a 0) as [->|]; [by simpl|]. apply Z.log2_lt_pow2; lia.
Qed.

(** ** The parser of unsigned integers is exact *)

(** Values only grow, so an overflow at a digit is an overflow of the whole. *)
Lemma parse_digits_max_ok max acc s v :
  0 <= acc ->
  parse_digits_max max acc s = Ok v <->
  Forall is_digit s /\ v = acc * 10 ^ zlen s + digits_value s /\ (s = [] \/ v <= max).
Proof.
  intros Hacc. revert acc Hacc. induction s as [|b s IH]; intros acc Hacc; cbn [parse_digits_max].
  - unfold zlen, digits_value. simpl. split.
    + intros [= <-]. split; [done|]. split; [lia|by left].
    + intros (_ & -> & _). f_equal. lia.
  - rewrite zlen_cons, Z.pow_succ_r by apply zlen_nonneg.
    assert (Hv : digits_value (b :: s) = (b - 48) * 10 ^ zlen s + digits_value s).
    { unfold digits_value at 1. simpl. by rewrite digits_value_from. }
    rewrite Forall_cons_iff, Hv. unfold is_digit at 1, in_range.
    destruct (Z.leb_spec 48 b), (Z.leb_spec b 57); cbn [andb negb]; try (split; [done|lia]).
    pose proof (Z.pow_pos_nonneg 10 (zlen s) ltac:(lia) (zlen_nonneg s)).
    destruct (Z.ltb_spec max (acc * 10 + (b - 48))) as [Hov|Hov].
    + split; [done|]. intros ([_ Hs] & -> & [?|Hle]); [done|].
      pose proof (digits_value_nonneg s Hs). nia.
    + rewrite IH by lia. split.
      * intros (Hs & -> & Hm). split; [done|]. split; [lia|]. right.
        destruct Hm as [->|?]; [unfold zlen, digits_value; simpl; lia|done].
      * intros ([_ Hs] & -> & Hm). split; [done|]. split; [lia|]. destruct Hm as [?|?]; [done|by right].
Qed.

(** A sign and the digits after it. *)
Definition unsigned_text (s digits : bytes) : Prop :=
  (s = digits \/ s = 43 :: digits) /\ digits <> [] /\ Forall is_digit digits.

Lemma parse_unsigned_ok max s v :
  0 <= max ->
  parse_unsigned max s = Ok v <->
  exists digits, unsigned_text s digits /\ v = digits_value digits /\ v <= max.
Proof.
  intros Hmax. unfold parse_unsigned, unsigned_text. destruct s as [|b s].
  { split; [done|]. intros (ds & ([?|?] & ? & _) & _); simplify_eq. }
  destruct (bool_decide (s = []) && ((b =? 43) || (b =? 45))) eqn:Hsign.
  - apply andb_true_iff in Hsign as [->%bool_decide_eq_true Hb].
    rewrite orb_true_iff, !Z.eqb_eq in Hb. split; [done|].
    intros (ds & ([<-|[= _ <-]] & Hne & Hd) & _); [|done].
    rewrite Forall_singleton in Hd. unfold is_digit in Hd. lia.
  - rewrite parse_digits_max_ok by done. rewrite Z.mul_0_l, Z.add_0_l. split.
    + intros (Hd & -> & Hm). eexists. split; [split; [|split; [|exact Hd]]|].
      * destruct (Z.eqb_spec b 43) as [->|]; auto.
      * destruct (Z.eqb_spec b 43) as [->|]; [|done]. intros ->. done.
      * split; [done|]. destruct Hm as [E|?]; [|done]. by rewrite E.
    + intros (ds & ([<-|[= -> <-]] & Hne & Hd) & -> & Hm); [|by auto].
      assert (b <> 43) by (apply Forall_cons_iff in Hd as [Hb _]; unfold is_digit in Hb; lia).
      rewrite (proj2 (Z.eqb_neq b 43)) by done. auto.
Qed.
