(* ===== verification/Config.v ===== *)
(** * Configuration of a server (crates/embednfs/src/identity.rs, server/mod.rs)

    The identity a server announces, the authentication policy, and the builder
    that puts a server together.  [NfsServerIdentity::default] reads the process
    id, the wall clock and a counter of the process; the counter is its state. *)

From stdpp Require Import base gmap list sets strings numbers sorting.
From Stdlib Require Import ZArith Lia.
From S2P Require Import Prelude Xdr Rpc Types StateModel FsApi AttrCodec Server Paths Text.

Local Open Scope Z_scope.

(** ** Identity *)

Definition NfsServerIdentity_new (owner_major_id : bytes) (owner_minor_id : Z) (scope : bytes)
    : NfsServerIdentity :=
  mkNfsServerIdentity owner_major_id owner_minor_id scope.

Definition with_owner_major_id (v : bytes) (i : NfsServerIdentity) : NfsServerIdentity :=
  mkNfsServerIdentity v (id_owner_minor_id i) (id_scope i).
Definition with_owner_minor_id (v : Z) (i : NfsServerIdentity) : NfsServerIdentity :=
  mkNfsServerIdentity (id_owner_major_id i) v (id_scope i).
Definition with_scope (v : bytes) (i : NfsServerIdentity) : NfsServerIdentity :=
  mkNfsServerIdentity (id_owner_major_id i) (id_owner_minor_id i) v.

(** [NfsServerIdentity::default], with the process id, the nanoseconds since the
    epoch and the process's counter [NEXT_SERVER_ID]. *)
Definition NfsServerIdentity_default (pid now : Z) (next_server_id : Z) : NfsServerIdentity * Z :=
  let counter := next_server_id in
  let major_id := str_bytes "embednfs:" ++ u32_to_string pid ++ str_bytes ":" ++
                  u128_to_string now ++ str_bytes ":" ++ u64_to_string counter in
  (mkNfsServerIdentity major_id 0 major_id, u64_wrap (next_server_id + 1)).

(** The identities of the servers a process makes, one per reading of the process
    id and the clock. *)
Fixpoint default_identities (readings : list (Z * Z)) (next_server_id : Z) : list NfsServerIdentity :=
  match readings with
  | [] => []
  | (pid, now) :: readings =>
    let made := NfsServerIdentity_default pid now next_server_id in
    made.1 :: default_identities readings made.2
  end.

(** ** Authentication policy *)

Definition AuthPolicy_new (flavors : list AuthFlavor) : AuthPolicy := flavors.
Definition AuthPolicy_sys_only : AuthPolicy := AuthPolicy_new [AuthSys].
Definition AuthPolicy_default : AuthPolicy := AuthPolicy_sys_and_none.

(** ** Builder *)

(** [IdMapper] *)
Record IdMapper := mkIdMapper { im_owner : Z -> bytes; im_group : Z -> bytes }.
Definition NumericIdMapper : IdMapper := mkIdMapper u32_to_string u32_to_string.

Record NfsServerBuilder (H B : Type) := mkNfsServerBuilder {
  nb_fs : FileSystem H B;
  nb_id_mapper : IdMapper;
  nb_delegation_config : DelegationConfig;
  nb_server_identity : NfsServerIdentity;
  nb_auth_policy : AuthPolicy;
}.
Arguments mkNfsServerBuilder {_ _} _ _ _ _ _.
Arguments nb_fs {_ _} _.
Arguments nb_id_mapper {_ _} _.
Arguments nb_delegation_config {_ _} _.
Arguments nb_server_identity {_ _} _.
Arguments nb_auth_policy {_ _} _.

Section builder.
Context {H B : Type}.
Implicit Types b : NfsServerBuilder H B.

(** [NfsServer::builder]; [identity] is the default one. *)
Definition builder (fs : FileSystem H B) (identity : NfsServerIdentity) : NfsServerBuilder H B :=
  mkNfsServerBuilder fs NumericIdMapper DelegationConfig_default identity AuthPolicy_default.

Definition nb_with_id_mapper (mapper : IdMapper) b : NfsServerBuilder H B :=
  mkNfsServerBuilder (nb_fs b) mapper (nb_delegation_config b) (nb_server_identity b) (nb_auth_policy b).
Definition nb_with_delegation_config (config : DelegationConfig) b : NfsServerBuilder H B :=
  mkNfsServerBuilder (nb_fs b) (nb_id_mapper b) config (nb_server_identity b) (nb_auth_policy b).
Definition nb_with_directory_delegations (enabled : bool) b : NfsServerBuilder H B :=
  let c := nb_delegation_config b in
  nb_with_delegation_config
    (mkDelegationConfig enabled (dc_recall_timeout c) (dc_max_delegations_per_client c)
       (dc_max_delegations_total c)) b.
Definition nb_with_server_identity (identity : NfsServerIdentity) b : NfsServerBuilder H B :=
  mkNfsServerBuilder (nb_fs b) (nb_id_mapper b) (nb_delegation_config b) identity (nb_auth_policy b).
Definition nb_with_server_owner (minor_id : Z) (major_id : bytes) b : NfsServerBuilder H B :=
  nb_with_server_identity
    (with_owner_major_id major_id (with_owner_minor_id minor_id (nb_server_identity b))) b.
Definition nb_with_server_scope (scope : bytes) b : NfsServerBuilder H B :=
  nb_with_server_identity (with_scope scope (nb_server_identity b)) b.
Definition nb_with_auth_policy (policy : AuthPolicy) b : NfsServerBuilder H B :=
  mkNfsServerBuilder (nb_fs b) (nb_id_mapper b) (nb_delegation_config b) (nb_server_identity b) policy.

(** [NfsServerBuilder::build], what does not change afterwards; the state of the
    session is made from [nb_server_identity]. *)
Definition built_server b : NfsServer H B :=
  mkNfsServer (nb_fs b) (im_owner (nb_id_mapper b)) (im_group (nb_id_mapper b))
    (nb_delegation_config b) (nb_auth_policy b).
Definition built_config b : StateConfig := StateConfig_new (nb_server_identity b).
End builder.

(** ** Default identities are unique in a process *)

Lemma digits_no_colon s : Forall is_digit s -> 58 ∉ s.
Proof. intros Hs Hin. rewrite Forall_forall in Hs. specialize (Hs 58 Hin). unfold is_digit in Hs. lia. Qed.

(** The fields of a default identity can be read off its text. *)
Lemma default_identity_fields pid now counter :
  0 <= pid -> 0 <= now -> 0 <= counter ->
  split_on 58 (id_owner_major_id (NfsServerIdentity_default pid now counter).1) =
  [str_bytes "embednfs"; u32_to_string pid; u128_to_string now; u64_to_string counter].
Proof.
  intros. rewrite <- (split_join 58 [_; _; _; _]); [done| |done].
  repeat apply Forall_cons_2; try apply Forall_nil_2; [by vm_compute; intros ?; set_solver| | |];
    apply digits_no_colon, decimal_digits; lia.
Qed.

Lemma default_identity_counter pid now counter :
  0 <= pid -> 0 <= now -> 0 <= counter ->
  last (split_on 58 (id_owner_major_id (NfsServerIdentity_default pid now counter).1)) =
  Some (u64_to_string counter).
Proof. intros. by rewrite default_identity_fields. Qed.

Lemma default_identities_counter readings next i :
  is_u64 next -> Forall (fun r => 0 <= r.1 /\ 0 <= r.2) readings ->
  i ∈ default_identities readings next ->
  id_scope i = id_owner_major_id i /\
  exists k, 0 <= k < zlen readings /\
    last (split_on 58 (id_owner_major_id i)) = Some (u64_to_string (u64_wrap (next + k))).
Proof.
  intros Hnext Hr. revert next Hnext. induction Hr as [|[pid now] readings [Hp Hn] Hr IH];
    intros next Hnext Hi; [by apply not_elem_of_nil in Hi|].
  cbn [default_identities] in Hi. cbv zeta in Hi. rewrite zlen_cons. pose proof (zlen_nonneg readings).
  unfold is_u64 in *.
  apply elem_of_cons in Hi as [->|Hi].
  - split; [done|]. exists 0. split; [lia|]. rewrite Z.add_0_r, u64_wrap_small by done.
    apply default_identity_counter; simpl in *; lia.
  - destruct (IH (u64_wrap (next + 1))) as (Hs & k & Hk & E); [apply u64_wrap_range|done|].
    split; [done|]. exists (1 + k). split; [lia|]. rewrite E. do 2 f_equal. unfold u64_wrap.
    rewrite Zplus_mod_idemp_l. f_equal. lia.
Qed.

(** The default identities of the servers of a process are pairwise different, in
    the owner and in the scope, whatever its clock says, for fewer than 2^64
    servers: clients never take two of them for one server. *)
Theorem default_identities_distinct readings :
  Forall (fun r => 0 <= r.1 /\ 0 <= r.2) readings -> zlen readings < 2 ^ 64 ->
  NoDup (id_owner_major_id <$> default_identities readings 1) /\
  NoDup (id_scope <$> default_identities readings 1).
Proof.
  assert (Hgen : forall readings next, is_u64 next ->
            Forall (fun r => 0 <= r.1 /\ 0 <= r.2) readings -> zlen readings < 2 ^ 64 ->
            NoDup (id_owner_major_id <$> default_identities readings next) /\
            id_scope <$> default_identities readings next =
            id_owner_major_id <$> default_identities readings next).
  { clear readings. intros readings next Hnext Hr. revert next Hnext.
    induction Hr as [|[pid now] readings [Hp Hn] Hr IH]; intros next Hnext Hlen; [by repeat constructor|].
    rewrite zlen_cons in Hlen. cbn [default_identities]. cbv zeta. rewrite !fmap_cons.
    destruct (IH (u64_wrap (next + 1))) as [Hnd Hsc]; [apply u64_wrap_range|lia|].
    change (NfsServerIdentity_default pid now next).2 with (u64_wrap (next + 1)).
    rewrite Hsc. split; [|done]. constructor; [|done].
    intros (i & E & Hi)%list_elem_of_fmap.
    apply default_identities_counter in Hi as (_ & k & Hk & El); [|apply u64_wrap_range|done].
    rewrite <- E, default_identity_counter in El by (unfold is_u64 in *; simpl in *; lia).
    apply (inj Some) in El. unfold u64_to_string in El.
    pose proof (u64_wrap_range (u64_wrap (next + 1) + k)) as Hw. unfold is_u64 in *.
    apply decimal_inj in El; [|change (10 ^ Z.of_nat 20) with 100000000000000000000; lia..]. unfold u64_wrap in El.
    rewrite Zplus_mod_idemp_l in El. change (2 ^ 64) with 18446744073709551616 in Hlen.
    destruct (Z.lt_ge_cases (next + 1 + k) 18446744073709551616).
    - rewrite Z.mod_small in El; lia.
    - rewrite <- (Z_mod_plus_full _ (-1)), Z.mod_small in El; lia. }
  intros Hr Hlen. destruct (Hgen readings 1) as [Hnd Hsc]; [done..|]. by rewrite Hsc.
Qed.

Lemma default_identities_distinct_witness :
  NoDup (id_owner_major_id <$> default_identities [(7, 5); (7, 5); (7, 9)] 1) /\
  id_owner_major_id <$> default_identities [(7, 5)] 1 = [str_bytes "embednfs:7:5:1"].
Proof.
  split; [|vm_compute; reflexivity].
  apply (default_identities_distinct [(7, 5); (7, 5); (7, 9)]).
  - repeat constructor; vm_compute; discriminate.
  - vm_compute. reflexivity.
Defined.
