(* ===== verification/Os.v ===== *)
(** * The operating system as the daemon sees it

    The daemon's backend works by calls on the operating system: [std::fs], and
    [libc] where the standard library has no function.  None of these is code of
    the repository, so a program over them ([io]) only says which calls it makes
    and what it does with the answers.  A fact proved of all answers holds for
    every operating system, whatever else runs on it; [interp] runs a program on
    a given one.

    A path with a NUL byte is refused by [std::fs] itself; this is an answer of
    the call here.  The iterator of [read_dir] is read to its end at once. *)

From stdpp Require Import base gmap list sets strings numbers sorting.
From Stdlib Require Import ZArith Lia.
From S2P Require Import Prelude Xdr Rpc Types StateModel FsApi.

Local Open Scope Z_scope.

(** ** Data *)

(** [std::io::ErrorKind]; the kinds the code does not tell apart are one. *)
Inductive ErrorKind :=
| EK_NotFound | EK_PermissionDenied | EK_AlreadyExists | EK_InvalidInput | EK_NotADirectory
| EK_IsADirectory | EK_DirectoryNotEmpty | EK_ReadOnlyFilesystem | EK_FileTooLarge | EK_StorageFull
| EK_Other.

Record IoError := mkIoError { ie_kind : ErrorKind; ie_raw_os_error : option Z }.

Inductive FileType := Ft_Dir | Ft_Symlink | Ft_File | Ft_Other.

(** [std::fs::Metadata] with [MetadataExt]: times and their nanoseconds are [i64]. *)
Record Metadata := mkMetadata {
  md_file_type : FileType;
  md_ino : Z;
  md_nlink : Z;
  md_mode : Z;
  md_uid : Z;
  md_gid : Z;
  md_len : Z;
  md_blocks : Z;
  md_atime : Z * Z;
  md_mtime : Z * Z;
  md_ctime : Z * Z;
}.

Definition md_is_dir (m : Metadata) : bool :=
  match md_file_type m with Ft_Dir => true | _ => false end.

Record OpenOptions := mkOpenOptions { oo_read : bool; oo_write : bool; oo_create_new : bool }.
Definition open_read : OpenOptions := mkOpenOptions true false false.
Definition open_write : OpenOptions := mkOpenOptions false true false.
Definition open_create_new : OpenOptions := mkOpenOptions false true true.

(** ** Calls *)

Inductive os_call :=
| Os_create_dir_all (path : bytes)
| Os_canonicalize (path : bytes)
| Os_symlink_metadata (path : bytes)
| Os_read_dir (path : bytes)
| Os_create_dir (path : bytes)
| Os_remove_dir (path : bytes)
| Os_remove_file (path : bytes)
| Os_rename (from to : bytes)
| Os_symlink (target path : bytes)
| Os_read_link (path : bytes)
| Os_hard_link (source path : bytes)
| Os_set_permissions (path : bytes) (mode : Z)
| Os_chown (path : bytes) (uid gid : Z)
| Os_utimensat (path : bytes) (atime mtime : Z * Z)
| Os_open (path : bytes) (options : OpenOptions)
| Os_seek (fd offset : Z)
| Os_read (fd count : Z)
| Os_write_all (fd : Z) (data : bytes)
| Os_set_len (fd size : Z)
| Os_sync_data (fd : Z)
| Os_sync_all (fd : Z)
| Os_fstat (fd : Z)
| Os_close (fd : Z)
| Os_listxattr_size (path : bytes)
| Os_listxattr (path : bytes) (size : Z)
| Os_getxattr_size (path name : bytes)
| Os_getxattr (path name : bytes) (size : Z)
| Os_setxattr (path name value : bytes) (flags : Z)
| Os_removexattr (path name : bytes)
| Os_now.

Abbreviation io_result := (result IoError).

Definition os_ans (c : os_call) : Type :=
  match c with
  | Os_canonicalize _ => io_result bytes
  | Os_symlink_metadata _ | Os_fstat _ => io_result Metadata
  | Os_read_dir _ => io_result (list (io_result bytes))
  | Os_read_link _ => io_result bytes
  | Os_open _ _ => io_result Z
  | Os_read _ _ => io_result bytes
  | Os_listxattr_size _ | Os_getxattr_size _ _ => io_result Z
  | Os_listxattr _ _ | Os_getxattr _ _ _ => io_result bytes
  | Os_close _ => unit
  | Os_now => Timestamp
  | _ => io_result unit
  end.

(** The paths a call names.  The target of a symbolic link is data. *)
Definition call_paths (c : os_call) : list bytes :=
  match c with
  | Os_create_dir_all p | Os_canonicalize p | Os_symlink_metadata p | Os_read_dir p
  | Os_create_dir p | Os_remove_dir p | Os_remove_file p | Os_symlink _ p | Os_read_link p
  | Os_set_permissions p _ | Os_chown p _ _ | Os_utimensat p _ _ | Os_open p _
  | Os_listxattr_size p | Os_listxattr p _ | Os_getxattr_size p _ | Os_getxattr p _ _
  | Os_setxattr p _ _ _ | Os_removexattr p _ => [p]
  | Os_rename p q | Os_hard_link p q => [p; q]
  | _ => []
  end.

(** ** Programs *)

Inductive io (A : Type) : Type :=
| Done (a : A)
| Call (c : os_call) (k : os_ans c -> io A).
Arguments Done {_} _.
Arguments Call {_} _ _.

Fixpoint io_bind {A C} (m : io A) (f : A -> io C) : io C :=
  match m with
  | Done a => f a
  | Call c k => Call c (fun r => io_bind (k r) f)
  end.

Definition call (c : os_call) : io (os_ans c) := Call c Done.

(** The [?] operator. *)
Definition io_try {E A C} (m : io (result E A)) (f : A -> io (result E C)) : io (result E C) :=
  io_bind m (fun r => match r with Ok a => f a | Err e => Done (Err e) end).

Declare Scope io_scope.
Delimit Scope io_scope with io.
Notation "'do*' x := m 'in' k" := (io_bind m (fun x => k))
  (at level 10, x pattern, m at level 100, k at level 200) : io_scope.
Notation "'do!' x := m 'in' k" := (io_try m (fun x => k))
  (at level 10, x pattern, m at level 100, k at level 200) : io_scope.

(** ** Which calls a program can make *)

Fixpoint all_calls {A} (P : os_call -> Prop) (m : io A) : Prop :=
  match m with
  | Done _ => True
  | Call c k => P c /\ forall r, all_calls P (k r)
  end.

Lemma all_calls_bind {A C} P (m : io A) (f : A -> io C) :
  all_calls P m -> (forall a, all_calls P (f a)) -> all_calls P (io_bind m f).
Proof.
  intros Hm Hf. induction m as [a|c k IH]; simpl in *; [done|].
  destruct Hm as [Hc Hk]. split; [done|]. intros r. auto.
Qed.

Lemma all_calls_try {E A C} P (m : io (result E A)) (f : A -> io (result E C)) :
  all_calls P m -> (forall a, all_calls P (f a)) -> all_calls P (io_try m f).
Proof. intros Hm Hf. apply all_calls_bind; [done|]. by intros []. Qed.

Lemma all_calls_call P c : P c -> all_calls P (call c).
Proof. by intros Hc. Qed.

Lemma all_calls_impl {A} (P Q : os_call -> Prop) (m : io A) :
  (forall c, P c -> Q c) -> all_calls P m -> all_calls Q m.
Proof. intros HPQ. induction m as [a|c k IH]; simpl; [done|]. intros [Hc Hk]. auto. Qed.

(** ** Running on an operating system *)

Section interp.
Context {World : Type} (os : forall c, World -> os_ans c * World).

Fixpoint interp {A} (m : io A) (w : World) : A * World :=
  match m with
  | Done a => (a, w)
  | Call c k => interp (k (os c w).1) (os c w).2
  end.

Lemma interp_bind {A C} (m : io A) (f : A -> io C) w :
  interp (io_bind m f) w = interp (f (interp m w).1) (interp m w).2.
Proof. revert w. induction m as [a|c k IH]; intros w; simpl; auto. Qed.

Lemma interp_try {E A C} (m : io (result E A)) (f : A -> io (result E C)) w :
  interp (io_try m f) w =
  match (interp m w).1 with
  | Ok a => interp (f a) (interp m w).2
  | Err e => (Err e, (interp m w).2)
  end.
Proof. unfold io_try. rewrite interp_bind. by destruct (interp m w).1. Qed.

(** What no call of a program can break holds afterwards. *)
Lemma interp_preserves {A} (I : World -> Prop) (P : os_call -> Prop) (m : io A) w :
  (forall c w, P c -> I w -> I (os c w).2) -> all_calls P m -> I w -> I (interp m w).2.
Proof.
  intros Hos. revert w. induction m as [a|c k IH]; intros w; simpl; [done|].
  intros [Hc Hk] Hw. apply IH; [apply Hk|by apply Hos].
Qed.
End interp.

(** Two systems that agree on the calls a program makes run it alike. *)
Lemma interp_agree {World A} (os os' : forall c, World -> os_ans c * World) (P : os_call -> Prop)
    (m : io A) w :
  (forall c w, P c -> os c w = os' c w) -> all_calls P m -> interp os m w = interp os' m w.
Proof.
  intros Hos. revert w. induction m as [a|c k IH]; intros w; simpl; [done|].
  intros [Hc Hk]. rewrite <- (Hos c w Hc). apply IH, Hk.
Qed.
