(* ===== verification/LocalFs.v ===== *)
(** * The daemon's backend (crates/embednfsd/src/main.rs)

    [LocalFs] exports a directory of the operating system.  A handle is a path
    relative to that directory; every operation checks it, joins it to the root
    and calls the operating system.  Each operation is a program of [Os] and
    follows the source call by call; a file opened in a block is closed at its
    end, whatever happens in between ([with_file]).  This is the Linux build,
    with extended attributes.

    [method] lists the operations of the interfaces [LocalFs] implements, and
    [localfs] is the backend they make up, for an arbitrary operating system [os].
    The server calls an operation as one step; the theorems of [LocalFsProps]
    that are about programs hold for any interleaving of their calls. *)

From stdpp Require Import base gmap list sets strings numbers sorting.
From Stdlib Require Import ZArith Lia.
From S2P Require Import Prelude Xdr Rpc Types StateModel FsApi Paths Text Os.

Local Open Scope Z_scope.
Local Open Scope io_scope.

(** ** Errors *)

Definition map_io_error (err : IoError) : FsError :=
  match ie_kind err with
  | EK_NotFound => Fs_NotFound
  | EK_PermissionDenied => Fs_PermissionDenied
  | EK_AlreadyExists => Fs_AlreadyExists
  | EK_InvalidInput => Fs_InvalidInput
  | EK_NotADirectory => Fs_NotDirectory
  | EK_IsADirectory => Fs_IsDirectory
  | EK_DirectoryNotEmpty => Fs_NotEmpty
  | EK_ReadOnlyFilesystem => Fs_ReadOnly
  | EK_FileTooLarge => Fs_FileTooLarge
  | EK_StorageFull => Fs_NoSpace
  | EK_Other => Fs_Io
  end.

(** Linux error numbers *)
Definition ENODATA : Z := 61.
Definition EOPNOTSUPP : Z := 95.

Definition map_xattr_error (err : IoError) : FsError :=
  if bool_decide (ie_raw_os_error err = Some ENODATA) then Fs_NotFound
  else if bool_decide (ie_raw_os_error err = Some EOPNOTSUPP) then Fs_Unsupported
  else map_io_error err.

(** [.map_err(map_io_error)] and [.map_err(map_xattr_error)] *)
Definition io_err {A} (f : IoError -> FsError) (m : io (io_result A)) : io (result FsError A) :=
  do* r := m in Done (match r with Ok a => Ok a | Err e => Err (f e) end).
Abbreviation fs_io m := (io_err map_io_error m).
Abbreviation xattr_io m := (io_err map_xattr_error m).

(** A file lives to the end of its block. *)
Definition with_file {A} (path : bytes) (options : OpenOptions) (body : Z -> io (result FsError A))
    : io (result FsError A) :=
  do! fd := fs_io (call (Os_open path options)) in
  do* r := body fd in
  do* _ := call (Os_close fd) in
  Done r.

(** A call that fills a buffer of [size] bytes: what fits of the answer. *)
Definition filled (size : Z) (answer : bytes) : bytes := take (Z.to_nat size) answer.

(** ** Paths *)

Definition reject_unsafe_relative (path : bytes) : result FsError unit :=
  if is_absolute path then Err Fs_BadHandle
  else if existsb (fun c => match c with
                            | ParentDir | RootDir | Prefix _ => true
                            | CurDir | Normal _ => false
                            end) (components path)
  then Err Fs_BadHandle
  else Ok tt.

Definition child_handle (parent name : bytes) : bytes := join parent name.

(** [CString::new] *)
Definition c_string (s : bytes) : result FsError bytes :=
  if existsb (Z.eqb 0) s then Err Fs_InvalidInput else Ok s.
Definition c_path (path : bytes) : result FsError bytes := c_string path.

(** ** Names of extended attributes *)

Definition has_linux_xattr_namespace (name : bytes) : bool :=
  starts_with (str_bytes "user.") name || starts_with (str_bytes "trusted.") name ||
  starts_with (str_bytes "security.") name || starts_with (str_bytes "system.") name.

Definition storage_name (name : bytes) : bytes :=
  if has_linux_xattr_namespace name then name else str_bytes "user." ++ name.
Definition c_xattr_name (name : bytes) : result FsError bytes := c_string (storage_name name).

Fixpoint collect_names (raws : list bytes) : result FsError (list bytes) :=
  match raws with
  | [] => Ok []
  | raw :: raws =>
    if utf8_valid raw then
      names ← collect_names raws;
      Ok (match strip_prefix (str_bytes "user.") raw with
          | Some user_name => user_name :: names
          | None => names
          end)
    else Err Fs_InvalidInput
  end.
Definition xattr_names (buf : bytes) : result FsError (list bytes) :=
  collect_names (filter (fun raw => raw <> []) (split_on 0 buf)).

(** ** Attributes *)

(** [as u64] of an [i64], and [try_into().unwrap_or(..)] to a [u32] *)
Definition i64_as_u64 (z : Z) : Z := u64_wrap z.
Definition u32_or (default z : Z) : Z := if (0 <=? z) && (z <=? u32_max) then z else default.

Definition timestamp_of (t : Z * Z) : Timestamp := mkTimestamp t.1 (u32_or 0 t.2).

Definition object_type_of (meta : Metadata) : ObjectType :=
  match md_file_type meta with
  | Ft_Dir => OT_Directory
  | Ft_Symlink => OT_Symlink
  | _ => OT_File
  end.

Definition change_of (meta : Metadata) : Z :=
  Z.lxor (Z.lxor (i64_as_u64 (md_ctime meta).1) (i64_as_u64 (md_ctime meta).2))
    (i64_as_u64 (md_mtime meta).1).

(** The attributes of an object; [attrs] is what [Attrs::new] filled in. *)
Definition attrs_of (meta : Metadata) (attrs : Attrs) : Attrs :=
  mkAttrs (at_object_type attrs) (at_fsid attrs) (at_fileid attrs)
    (change_of meta) (md_len meta) (Z.min u64_max (md_blocks meta * 512))
    (u32_or u32_max (md_nlink meta)) (Z.land (md_mode meta) 4095) (md_uid meta) (md_gid meta)
    (timestamp_of (md_atime meta)) (timestamp_of (md_mtime meta)) (timestamp_of (md_ctime meta))
    (timestamp_of (md_ctime meta))
    (at_archive attrs) (at_hidden attrs) (at_system attrs) (at_has_named_attrs attrs).

Definition attrs_for (path : bytes) : io (result FsError Attrs) :=
  do! meta := fs_io (call (Os_symlink_metadata path)) in
  do* now := call Os_now in
  Done (Ok (attrs_of meta (Attrs_new now (object_type_of meta) (Z.max (md_ino meta) 1)))).

Definition timespec_for (update : option SetTime) (current : Z * Z) : io (Z * Z) :=
  do* timestamp := (match update with
                    | Some (Client timestamp) => Done timestamp
                    | Some ServerNow => call Os_now
                    | None => Done (timestamp_of current)
                    end) in
  Done (ts_seconds timestamp, ts_nanos timestamp).

Definition apply_setattrs (path : bytes) (attrs : SetAttrs) : io (result FsError unit) :=
  do! _ := (match sa_size attrs with
            | Some size => with_file path open_write (fun file => fs_io (call (Os_set_len file size)))
            | None => Done (Ok tt)
            end) in
  do! _ := (match sa_mode attrs with
            | Some mode => fs_io (call (Os_set_permissions path (Z.land mode 4095)))
            | None => Done (Ok tt)
            end) in
  do! _ := (if negb (is_none (sa_uid attrs)) || negb (is_none (sa_gid attrs)) then
              do! c_path := Done (c_path path) in
              fs_io (call (Os_chown c_path (default u32_max (sa_uid attrs))
                             (default u32_max (sa_gid attrs))))
            else Done (Ok tt)) in
  if negb (is_none (sa_atime attrs)) || negb (is_none (sa_mtime attrs)) then
    do! meta := fs_io (call (Os_symlink_metadata path)) in
    do* atime := timespec_for (sa_atime attrs) (md_atime meta) in
    do* mtime := timespec_for (sa_mtime attrs) (md_mtime meta) in
    do! c_path := Done (c_path path) in
    fs_io (call (Os_utimensat c_path atime mtime))
  else Done (Ok tt).

(** ** [LocalFs::new] *)

Definition LocalFs_new (root : bytes) : io (result FsError bytes) :=
  do! _ := fs_io (call (Os_create_dir_all root)) in
  fs_io (call (Os_canonicalize root)).

(** ** The operations *)

Definition capabilities : FsCapabilities := mkFsCapabilities true true true true true true.
Definition limits : FsLimits := mkFsLimits 255 1048576 1048576 (u64_max / 2).
Definition FsStats_default : FsStats :=
  mkFsStats (2 ^ 40) (2 ^ 39) (2 ^ 39) (2 ^ 30) (2 ^ 29) (2 ^ 29).

Section ops.
Context (root : bytes).

Definition full_path (handle : bytes) : result FsError bytes :=
  _ ← reject_unsafe_relative handle; Ok (join root handle).

Definition getattr (handle : bytes) : io (result FsError Attrs) :=
  do! path := Done (full_path handle) in attrs_for path.

Definition access (handle : bytes) (requested : Z) : io (result FsError Z) :=
  do! path := Done (full_path handle) in
  do! _ := fs_io (call (Os_symlink_metadata path)) in
  Done (Ok requested).

Definition lookup (parent name : bytes) : io (result FsError bytes) :=
  let child := child_handle parent name in
  do! path := Done (full_path child) in
  do! _ := fs_io (call (Os_symlink_metadata path)) in
  Done (Ok child).

Definition parent (dir : bytes) : io (result FsError (option bytes)) :=
  if bool_decide (dir = []) then Done (Ok None)
  else Done (Ok (Some (default [] (parent_path dir)))).

(** The names of a directory; the first entry that cannot be read, or whose name is
    not UTF-8, ends the listing. *)
Fixpoint entry_names (entries : list (io_result bytes)) : result FsError (list bytes) :=
  match entries with
  | [] => Ok []
  | Err e :: _ => Err (map_io_error e)
  | Ok name :: entries =>
    if utf8_valid name then names ← entry_names entries; Ok (name :: names)
    else Err Fs_InvalidInput
  end.

(** The loop over the entries of the page; [idx] is the first one's position. *)
Fixpoint page_entries (dir : bytes) (with_attrs : bool) (idx : Z) (names : list bytes)
    : io (result FsError (list (DirEntry bytes))) :=
  match names with
  | [] => Done (Ok [])
  | name :: names =>
    let handle := child_handle dir name in
    do! attrs := (if with_attrs then
                    do! path := Done (full_path handle) in
                    do! attrs := attrs_for path in Done (Ok (Some attrs))
                  else Done (Ok None)) in
    do! entries := page_entries dir with_attrs (idx + 1) names in
    Done (Ok (mkDirEntry name handle (idx + 1) attrs :: entries))
  end.

Definition readdir (dir : bytes) (cookie max_entries : Z) (with_attrs : bool)
    : io (result FsError (DirPage bytes)) :=
  do! path := Done (full_path dir) in
  do! listed := fs_io (call (Os_read_dir path)) in
  do! children := Done (entry_names listed) in
  let children := merge_sort bytes_le children in
  let start := cookie in
  let limit := max_entries in
  do! entries := page_entries dir with_attrs start
                   (take (Z.to_nat limit) (drop (Z.to_nat start) children)) in
  Done (Ok (mkDirPage entries (zlen children <=? Z.min u64_max (start + zlen entries)))).

Definition read (handle : bytes) (offset count : Z) : io (result FsError ReadResult) :=
  do! path := Done (full_path handle) in
  with_file path open_read (fun file =>
    do! _ := fs_io (call (Os_seek file offset)) in
    do! answer := fs_io (call (Os_read file count)) in
    let buf := filled count answer in
    do! meta := fs_io (call (Os_fstat file)) in
    Done (Ok (mkReadResult buf (md_len meta <=? Z.min u64_max (offset + zlen buf))))).

Definition write (handle : bytes) (offset : Z) (data : bytes) (requested : WriteStability)
    : io (result FsError WriteResult) :=
  do! path := Done (full_path handle) in
  with_file path open_write (fun file =>
    do! _ := fs_io (call (Os_seek file offset)) in
    do! _ := fs_io (call (Os_write_all file data)) in
    do! _ := (match requested with
              | Unstable => Done (Ok tt)
              | DataSync => fs_io (call (Os_sync_data file))
              | FileSync => fs_io (call (Os_sync_all file))
              end) in
    Done (Ok (mkWriteResult (u32_or u32_max (zlen data)) requested))).

Definition create_object (path : bytes) (kind : CreateKind) : io (result FsError unit) :=
  match kind with
  | CK_File => with_file path open_create_new (fun _ => Done (Ok tt))
  | CK_Directory => fs_io (call (Os_create_dir path))
  end.

(** The attributes of a new object, and its handle. *)
Definition finish_create (handle path : bytes) (attrs : SetAttrs)
    : io (result FsError (CreateResult bytes)) :=
  do! _ := apply_setattrs path attrs in
  do! attrs := attrs_for path in
  Done (Ok (mkCreateResult handle attrs)).

Definition create (parent name : bytes) (req : CreateRequest)
    : io (result FsError (CreateResult bytes)) :=
  let handle := child_handle parent name in
  do! path := Done (full_path handle) in
  do! _ := create_object path (cr_kind req) in
  finish_create handle path (cr_attrs req).

Definition remove (parent name : bytes) : io (result FsError unit) :=
  let handle := child_handle parent name in
  do! path := Done (full_path handle) in
  do! meta := fs_io (call (Os_symlink_metadata path)) in
  if md_is_dir meta then fs_io (call (Os_remove_dir path)) else fs_io (call (Os_remove_file path)).

Definition rename (from_dir from_name to_dir to_name : bytes) : io (result FsError unit) :=
  do! from := Done (full_path (child_handle from_dir from_name)) in
  do! to := Done (full_path (child_handle to_dir to_name)) in
  fs_io (call (Os_rename from to)).

Definition setattr (handle : bytes) (attrs : SetAttrs) : io (result FsError Attrs) :=
  do! path := Done (full_path handle) in
  do! _ := apply_setattrs path attrs in
  attrs_for path.

Definition create_symlink (parent name target : bytes) (attrs : SetAttrs)
    : io (result FsError (CreateResult bytes)) :=
  let handle := child_handle parent name in
  do! path := Done (full_path handle) in
  do! _ := fs_io (call (Os_symlink target path)) in
  finish_create handle path attrs.

Definition readlink (handle : bytes) : io (result FsError bytes) :=
  do! path := Done (full_path handle) in
  do! target := fs_io (call (Os_read_link path)) in
  Done (if utf8_valid target then Ok target else Err Fs_InvalidInput).

Definition link (source parent name : bytes) : io (result FsError unit) :=
  do! source := Done (full_path source) in
  do! dest := Done (full_path (child_handle parent name)) in
  fs_io (call (Os_hard_link source dest)).

Definition commit (handle : bytes) : io (result FsError unit) :=
  do! path := Done (full_path handle) in
  with_file path open_read (fun file => fs_io (call (Os_sync_all file))).

Definition list_xattrs (handle : bytes) : io (result FsError (list bytes)) :=
  do! path := Done (full_path handle) in
  do! c_path := Done (c_path path) in
  do! size := fs_io (call (Os_listxattr_size c_path)) in
  if size =? 0 then Done (Ok [])
  else
    do! answer := fs_io (call (Os_listxattr c_path size)) in
    Done (xattr_names (filled size answer)).

Definition get_xattr (handle name : bytes) : io (result FsError bytes) :=
  do! path := Done (full_path handle) in
  do! c_path := Done (c_path path) in
  do! c_name := Done (c_xattr_name name) in
  do! size := xattr_io (call (Os_getxattr_size c_path c_name)) in
  do! answer := xattr_io (call (Os_getxattr c_path c_name size)) in
  Done (Ok (filled size answer)).

Definition xattr_flags (mode : XattrSetMode) : Z :=
  match mode with
  | CreateOrReplace => 0
  | CreateOnly => 1 (* XATTR_CREATE *)
  | ReplaceOnly => 2 (* XATTR_REPLACE *)
  end.

Definition set_xattr (handle name value : bytes) (mode : XattrSetMode) : io (result FsError unit) :=
  do! path := Done (full_path handle) in
  do! c_path := Done (c_path path) in
  do! c_name := Done (c_xattr_name name) in
  xattr_io (call (Os_setxattr c_path c_name value (xattr_flags mode))).

Definition remove_xattr (handle name : bytes) : io (result FsError unit) :=
  do! path := Done (full_path handle) in
  do! c_path := Done (c_path path) in
  do! c_name := Done (c_xattr_name name) in
  xattr_io (call (Os_removexattr c_path c_name)).

(** ** The interfaces *)

Inductive method : Type -> Type :=
| M_getattr (handle : bytes) : method Attrs
| M_access (handle : bytes) (requested : Z) : method Z
| M_lookup (parent name : bytes) : method bytes
| M_parent (dir : bytes) : method (option bytes)
| M_readdir (dir : bytes) (cookie max_entries : Z) (with_attrs : bool) : method (DirPage bytes)
| M_read (handle : bytes) (offset count : Z) : method ReadResult
| M_write (handle : bytes) (offset : Z) (data : bytes) (requested : WriteStability) : method WriteResult
| M_create (parent name : bytes) (req : CreateRequest) : method (CreateResult bytes)
| M_remove (parent name : bytes) : method unit
| M_rename (from_dir from_name to_dir to_name : bytes) : method unit
| M_setattr (handle : bytes) (attrs : SetAttrs) : method Attrs
| M_create_symlink (parent name target : bytes) (attrs : SetAttrs) : method (CreateResult bytes)
| M_readlink (handle : bytes) : method bytes
| M_link (source parent name : bytes) : method unit
| M_commit (handle : bytes) : method unit
| M_list_xattrs (handle : bytes) : method (list bytes)
| M_get_xattr (handle name : bytes) : method bytes
| M_set_xattr (handle name value : bytes) (mode : XattrSetMode) : method unit
| M_remove_xattr (handle name : bytes) : method unit.

Definition serve {A} (m : method A) : io (result FsError A) :=
  match m in method A return io (result FsError A) with
  | M_getattr h => getattr h
  | M_access h r => access h r
  | M_lookup d n => lookup d n
  | M_parent d => parent d
  | M_readdir d c m a => readdir d c m a
  | M_read h o c => read h o c
  | M_write h o d s => write h o d s
  | M_create d n r => create d n r
  | M_remove d n => remove d n
  | M_rename d n d' n' => rename d n d' n'
  | M_setattr h a => setattr h a
  | M_create_symlink d n t a => create_symlink d n t a
  | M_readlink h => readlink h
  | M_link s d n => link s d n
  | M_commit h => commit h
  | M_list_xattrs h => list_xattrs h
  | M_get_xattr h n => get_xattr h n
  | M_set_xattr h n v m => set_xattr h n v m
  | M_remove_xattr h n => remove_xattr h n
  end.

Section backend.
Context {World : Type} (os : forall c, World -> os_ans c * World).

Definition on_os {A} (m : method A) : fs_op World A := interp os (serve m).

Definition localfs : FileSystem bytes World := mkFileSystem
  (fun _ => []) (fun _ => capabilities) (fun _ => limits)
  (fun _ _ w => (Ok FsStats_default, w))
  (fun _ h => on_os (M_getattr h))
  (fun _ h r => on_os (M_access h r))
  (fun _ d n => on_os (M_lookup d n))
  (fun _ d => on_os (M_parent d))
  (fun _ d c m a => on_os (M_readdir d c m a))
  (fun _ h o c => on_os (M_read h o c))
  (fun _ h o d s => on_os (M_write h o d s))
  (fun _ d n r => on_os (M_create d n r))
  (fun _ d n => on_os (M_remove d n))
  (fun _ d n d' n' => on_os (M_rename d n d' n'))
  (fun _ h a => on_os (M_setattr h a))
  (Some (mkXattrs (fun _ h => on_os (M_list_xattrs h)) (fun _ h n => on_os (M_get_xattr h n))
           (fun _ h n v m => on_os (M_set_xattr h n v m)) (fun _ h n => on_os (M_remove_xattr h n))))
  (Some (mkSymlinks (fun _ d n t a => on_os (M_create_symlink d n t a))
           (fun _ h => on_os (M_readlink h))))
  (Some (mkHardLinks (fun _ s d n => on_os (M_link s d n))))
  (Some (mkCommitSupport (fun _ h _ _ => on_os (M_commit h))))
  None None.
End backend.
End ops.
