(* ===== verification/LocalFsProps.v ===== *)
(** * What the daemon's backend promises

    Of the programs of [LocalFs], whatever the operating system answers: every
    path they name lies below the exported directory ([serve_confined]).
    Handles: what the operations return for valid names is again a plain path, a
    child's parent is the directory it was looked up in, and two handles are
    equal as Rust paths only if they name the same place ([handles_sound]).
    Extended attributes come back under the names they were set with
    ([xattr_names_roundtrip]).  On a system whose directory does not change, a
    caller of the backend's [readdir] that pages through it sees every name once
    ([local_readdir_complete]). *)

From stdpp Require Import base gmap list sets strings numbers sorting.
From Stdlib Require Import ZArith Lia FunctionalExtensionality.
From S2P Require Import Prelude Xdr Rpc Types StateModel FsApi Paths Text Os LocalFs.

Local Open Scope Z_scope.
Local Open Scope io_scope.

(** ** Confinement *)

Definition confined (root : bytes) (c : os_call) : Prop := Forall (below root) (call_paths c).

Lemma full_path_below root handle path :
  canonical root -> full_path root handle = Ok path -> below root path.
Proof.
  intros Hroot. unfold full_path, reject_unsafe_relative.
  destruct (is_absolute handle) eqn:Ha; [done|].
  destruct (existsb _ (components handle)) eqn:He; [done|]. cbn. intros [= <-].
  apply join_below; [done..|]. intros Hin.
  assert (Hx : existsb (fun c => match c with
                                 | ParentDir | RootDir | Prefix _ => true
                                 | CurDir | Normal _ => false
                                 end) (components handle) = true).
  { apply existsb_exists. exists ParentDir. split; [by apply list_elem_of_In|done]. }
  congruence.
Qed.

Section calls.
Context (P : os_call -> Prop).

Lemma all_calls_err {A} f (m : io (io_result A)) : all_calls P m -> all_calls P (io_err f m).
Proof. intros Hm. apply all_calls_bind; [done|]. by intros a. Qed.

Lemma all_calls_value {E A C} (v : result E A) (f : A -> io (result E C)) :
  (forall a, v = Ok a -> all_calls P (f a)) -> all_calls P (io_try (Done v) f).
Proof. intros Hf. destruct v as [a|e]; [by apply Hf|done]. Qed.

Lemma all_calls_with_file {A} path options (body : Z -> io (result FsError A)) :
  P (Os_open path options) -> (forall fd, P (Os_close fd)) -> (forall fd, all_calls P (body fd)) ->
  all_calls P (with_file path options body).
Proof.
  intros Ho Hc Hb. apply all_calls_try; [by apply all_calls_err|]. intros fd.
  apply all_calls_bind; [done|]. intros r. by split.
Qed.
End calls.

Lemma c_path_same path p : c_path path = Ok p -> p = path.
Proof. unfold c_path, c_string. case_match; [done|]. by intros [= ->]. Qed.

(** A program is taken apart at its binds; a path that [full_path] made lies below
    the root. *)
Ltac calls_tac root_ok :=
  repeat first
    [ progress intros
    | match goal with |- all_calls _ (Done _) => exact I end
    | match goal with |- all_calls _ (io_try (Done (full_path _ _)) _) =>
        apply all_calls_value; let a := fresh "path" in let E := fresh "E" in
        intros a E; apply (full_path_below _ _ _ root_ok) in E end
    | match goal with |- all_calls _ (io_try (Done (c_path _)) _) =>
        apply all_calls_value; let a := fresh "p" in let E := fresh "E" in
        intros a E; apply c_path_same in E as -> end
    | apply all_calls_value
    | apply all_calls_try
    | apply all_calls_err
    | apply all_calls_with_file
    | match goal with |- all_calls _ (call _) => apply all_calls_call end
    | apply all_calls_bind
    | match goal with |- confined _ _ =>
        unfold confined; cbn [call_paths]; by repeat (apply Forall_cons_2 || apply Forall_nil_2) end
    | progress case_match ].

Section confined.
Context (root : bytes) (Hroot : canonical root).

Lemma attrs_for_confined path : below root path -> all_calls (confined root) (attrs_for path).
Proof.
  intros. unfold attrs_for. calls_tac Hroot.
Qed.

Lemma timespec_for_confined update current : all_calls (confined root) (timespec_for update current).
Proof. unfold timespec_for. calls_tac Hroot. Qed.

Lemma apply_setattrs_confined path attrs :
  below root path -> all_calls (confined root) (apply_setattrs path attrs).
Proof.
  intros. unfold apply_setattrs. calls_tac Hroot; try apply timespec_for_confined.
Qed.

Lemma page_entries_confined dir with_attrs idx names :
  all_calls (confined root) (page_entries root dir with_attrs idx names).
Proof.
  revert idx. induction names as [|name names IH]; intros idx; [done|]. cbn [page_entries].
  apply all_calls_try; [|intros; apply all_calls_try; [apply IH|done]].
  destruct with_attrs; [|done]. calls_tac Hroot.
Qed.
End confined.

(** Every path an operation of the backend names to the operating system lies below
    the exported directory, whatever handle and name the caller passes and
    whatever the system answers. *)
Lemma serve_confined root A (m : method A) :
  canonical root -> all_calls (confined root) (serve root m).
Proof.
  intros Hroot. destruct m; cbn [serve];
    unfold getattr, access, lookup, LocalFs.parent, readdir, read, write, create, create_object, finish_create,
      remove, rename, setattr, create_symlink, readlink, link, commit, list_xattrs, get_xattr,
      set_xattr, remove_xattr; cbv zeta;
    calls_tac Hroot;
    eauto using attrs_for_confined, apply_setattrs_confined, page_entries_confined.
Qed.

(** So the backend cannot tell apart two systems that agree on such paths. *)
Lemma localfs_confined root World (os os' : forall c, World -> os_ans c * World) :
  canonical root -> (forall c w, confined root c -> os c w = os' c w) ->
  localfs root os = localfs root os'.
Proof.
  intros Hroot Hos.
  assert (E : @on_os root World os = @on_os root World os').
  { apply functional_extensionality_dep. intros A. apply functional_extensionality. intros m.
    apply functional_extensionality. intros w. unfold on_os.
    by apply (interp_agree _ _ _ _ _ Hos), serve_confined. }
  unfold localfs. by rewrite E.
Qed.

(** ** Handles *)

(** What a program returns if each answer is as [ans] says. *)
Fixpoint returns {A} (ans : forall c, os_ans c -> Prop) (m : io A) (Q : A -> Prop) : Prop :=
  match m with
  | Done a => Q a
  | Call c k => forall r, ans c r -> returns ans (k r) Q
  end.

Section returns.
Context (ans : forall c, os_ans c -> Prop).

Lemma returns_bind {A C} (m : io A) (f : A -> io C) Q R :
  returns ans m Q -> (forall a, Q a -> returns ans (f a) R) -> returns ans (io_bind m f) R.
Proof.
  intros Hm Hf. induction m as [a|c k IH]; simpl in *; [auto|]. intros r Hr. auto.
Qed.

Lemma returns_any {A} (m : io A) (Q : A -> Prop) : (forall a, Q a) -> returns ans m Q.
Proof. intros HQ. induction m as [a|c k IH]; simpl; auto. Qed.

(** Of a fallible program only the success is of interest. *)
Definition on_ok {E A} (Q : A -> Prop) (r : result E A) : Prop :=
  match r with Ok a => Q a | Err _ => True end.

Lemma returns_try {E A C} (m : io (result E A)) (f : A -> io (result E C)) Q R :
  returns ans m (on_ok Q) -> (forall a, Q a -> returns ans (f a) (on_ok R)) ->
  returns ans (io_try m f) (on_ok R).
Proof. intros Hm Hf. eapply returns_bind; [exact Hm|]. by intros [a|e] Ha; [apply Hf|]. Qed.

Lemma returns_then {E A C} (m : io (result E A)) (f : A -> io (result E C)) R :
  (forall a, returns ans (f a) (on_ok R)) -> returns ans (io_try m f) (on_ok R).
Proof.
  intros Hf. eapply (returns_try _ _ (fun _ => True)); [|auto]. apply returns_any. by intros [].
Qed.

Lemma returns_interp {A World} (os : forall c, World -> os_ans c * World) (m : io A) Q w :
  (forall c w, ans c (os c w).1) -> returns ans m Q -> Q (interp os m w).1.
Proof.
  intros Hos. revert w. induction m as [a|c k IH]; intros w; simpl; [done|]. intros Hk.
  by apply IH, Hk.
Qed.
End returns.

(** What [read_dir] is documented to return: names, and not those of the directory
    itself and its parent. *)
Definition listing_ok (c : os_call) : os_ans c -> Prop :=
  match c with
  | Os_read_dir _ => fun r => match r with
                              | Ok entries => Forall (on_ok name_ok) entries
                              | Err _ => True
                              end
  | _ => fun _ => True
  end.

(** The handles an operation is given, the names, and the handles it returns. *)
Definition method_handles {A} (m : method A) : list bytes :=
  match m with
  | M_getattr h | M_access h _ | M_read h _ _ | M_write h _ _ _ | M_setattr h _ | M_readlink h
  | M_commit h | M_list_xattrs h | M_get_xattr h _ | M_set_xattr h _ _ _ | M_remove_xattr h _
  | M_lookup h _ | M_parent h | M_readdir h _ _ _ | M_create h _ _ | M_remove h _
  | M_create_symlink h _ _ _ => [h]
  | M_rename d _ d' _ => [d; d']
  | M_link s d _ => [s; d]
  end.
Definition method_names {A} (m : method A) : list bytes :=
  match m with
  | M_lookup _ n | M_create _ n _ | M_remove _ n | M_create_symlink _ n _ _ | M_link _ _ n => [n]
  | M_rename _ n _ n' => [n; n']
  | _ => []
  end.
Definition answer_handles {A} (m : method A) : A -> list bytes :=
  match m in method A return A -> list bytes with
  | M_lookup _ _ => fun h => [h]
  | M_parent _ => fun o => match o with Some h => [h] | None => [] end
  | M_readdir _ _ _ _ => fun page => de_handle <$> dp_entries page
  | M_create _ _ _ => fun res => [cres_handle res]
  | M_create_symlink _ _ _ _ => fun res => [cres_handle res]
  | _ => fun _ => []
  end.

Lemma child_plain dir name : plain dir -> name_ok name -> plain (child_handle dir name).
Proof.
  intros (ns & Hns & ->) Hn. exists (ns ++ [name]). split; [apply Forall_app; auto|].
  by apply join_plain.
Qed.

Lemma parent_child dir name :
  plain dir -> name_ok name -> parent_path (child_handle dir name) = Some dir.
Proof.
  intros (ns & Hns & ->) Hn. unfold child_handle. rewrite join_plain by done. by apply parent_plain.
Qed.

Lemma plain_parent dir : plain dir -> plain (default [] (parent_path dir)).
Proof.
  intros (ns & Hns & ->). destruct ns as [|n ns _] using rev_ind.
  - by exists [].
  - apply Forall_app in Hns as [Hns Hn]. rewrite Forall_singleton in Hn. rewrite parent_plain by done. by exists ns.
Qed.

Lemma entry_names_ok entries names :
  Forall (on_ok name_ok) entries -> entry_names entries = Ok names -> Forall name_ok names.
Proof.
  intros He. revert names. induction He as [|[n|e] entries Hn He IH]; intros names; simpl;
    [by intros [= <-]| |done].
  case_match; [|done]. destruct (entry_names entries) as [ns|]; [|done]. cbn. intros [= <-].
  constructor; [done|]. by apply IH.
Qed.

Lemma page_entries_plain root dir with_attrs idx names :
  plain dir -> Forall name_ok names ->
  returns listing_ok (page_entries root dir with_attrs idx names)
    (on_ok (fun entries => Forall plain (de_handle <$> entries))).
Proof.
  intros Hd Hn. revert idx. induction Hn as [|name names Hname Hn IH]; intros idx; [by cbn|].
  cbn [page_entries]. apply returns_then. intros attrs. eapply returns_try; [apply IH|].
  intros entries He. cbn. constructor; [by apply child_plain|done].
Qed.

(** The handles of the daemon's backend stay plain: on plain handles and valid
    names every operation returns only plain handles, the names joined by single
    slashes, whatever the system answers, as long as its listings hold names. *)
Theorem handles_plain root A (m : method A) :
  Forall plain (method_handles m) -> Forall name_ok (method_names m) ->
  returns listing_ok (serve root m) (on_ok (fun a => Forall plain (answer_handles m a))).
Proof.
  intros Hh Hn. destruct m; cbn [serve method_handles method_names answer_handles] in *;
    try (apply returns_any; intros []; [apply Forall_nil_2|exact I]); apply Forall_cons_1 in Hh as [Hh _].
  - (* lookup *) rewrite Forall_singleton in Hn. unfold lookup. repeat (apply returns_then; intros ?).
    cbn. constructor; [by apply child_plain|done].
  - (* parent *) unfold LocalFs.parent. case_bool_decide; cbn; [constructor|].
    constructor; [by apply plain_parent|constructor].
  - (* readdir *) unfold readdir. apply returns_then. intros path.
    eapply (returns_try _ _ _ (Forall (on_ok name_ok))); [cbn; by intros [] ?|].
    intros listed Hl. eapply (returns_try _ _ _ (Forall name_ok)).
    { cbn. destruct (entry_names listed) eqn:E; [|done]. by eapply entry_names_ok. }
    intros names Hnames. cbv zeta. eapply returns_try; [apply page_entries_plain; [done|]|].
    + apply Forall_take, Forall_drop. by rewrite merge_sort_Permutation.
    + by intros entries He.
  - (* create *) rewrite Forall_singleton in Hn. unfold create, finish_create.
    repeat (apply returns_then; intros ?). cbn. constructor; [by apply child_plain|done].
  - (* create_symlink *) rewrite Forall_singleton in Hn. unfold create_symlink, finish_create.
    repeat (apply returns_then; intros ?). cbn. constructor; [by apply child_plain|done].
Qed.

(** What the server lets through as a name is a component of a path. *)
Lemma existsb_sep name : existsb (Z.eqb SEP) name = false -> SEP ∉ name.
Proof.
  intros He Hin. assert (existsb (Z.eqb SEP) name = true); [|congruence].
  apply existsb_exists. exists SEP. split; [by apply list_elem_of_In|apply Z.eqb_refl].
Qed.

Lemma child_handle_inj d n d' n' :
  plain d -> name_ok n -> plain d' -> name_ok n' ->
  path_eq (child_handle d n) (child_handle d' n') -> d = d' /\ n = n'.
Proof.
  intros (ds & Hds & ->) Hn (ds' & Hds' & ->) Hn'. unfold child_handle.
  rewrite !join_plain by done. unfold path_eq.
  rewrite !components_plain by (apply Forall_app; auto).
  intros E%(inj (fmap Normal)). by apply app_inj_2 in E as [-> [= ->]].
Qed.

(** A handle names one place: the handle that LOOKUP of [name] in [dir] returns has
    [dir] as its parent, on any system, and the LOOKUP of another name, or in
    another directory, returns a handle that is different also for Rust's
    equality of paths, by which the server's tables tell handles apart. *)
Theorem lookup_parent_roundtrip root World (os : forall c, World -> os_ans c * World) dir name w :
  plain dir -> name_ok name ->
  on_ok (fun child =>
    (forall w', on_os root os (M_parent child) w' = (Ok (Some dir), w')) /\
    (forall dir' name' w', plain dir' -> name_ok name' ->
       on_ok (fun child' => path_eq child child' -> dir = dir' /\ name = name')
         (on_os root os (M_lookup dir' name') w').1))
    (on_os root os (M_lookup dir name) w).1.
Proof.
  intros Hd Hn.
  assert (Hlook : forall dir name w, on_ok (fun child => child = child_handle dir name)
                    (on_os root os (M_lookup dir name) w).1).
  { clear. intros dir name w.
    unfold on_os. apply (returns_interp (fun _ _ => True) os _ (on_ok _)); [done|]. cbn [serve]. unfold lookup.
    by repeat (apply returns_then; intros ?). }
  pose proof (Hlook dir name w) as Hc.
  destruct (on_os root os (M_lookup dir name) w).1 as [child|]; [|done]. cbn [on_ok] in Hc |- *. subst child.
  split.
  - intros w'. unfold on_os. cbn [serve]. unfold LocalFs.parent.
    rewrite parent_child by done. case_bool_decide as E; [|done].
    pose proof (parent_child dir name Hd Hn) as Hp. rewrite E in Hp. by vm_compute in Hp.
  - intros dir' name' w' Hd' Hn'. pose proof (Hlook dir' name' w') as Hc'.
    destruct (on_os root os (M_lookup dir' name') w').1 as [child'|]; [|done]. cbn [on_ok] in Hc' |- *.
    subst child'. by apply child_handle_inj.
Qed.

(** ** Extended attributes *)

(** The buffer [listxattr] fills: each name with a NUL after it. *)
Definition xattr_buffer (stored : list bytes) : bytes := concat ((fun n => n ++ [0]) <$> stored).

(** A stored name is not empty and has no NUL byte. *)
Definition stored_ok (n : bytes) : Prop := n <> [] /\ 0 ∉ n.

Lemma split_buffer stored :
  Forall stored_ok stored -> filter (fun raw => raw <> []) (split_on 0 (xattr_buffer stored)) = stored.
Proof.
  unfold xattr_buffer. induction 1 as [|n stored [Hne H0] Hs IH]; [done|].
  rewrite fmap_cons. cbn [concat]. rewrite <- app_assoc. cbn [app].
  rewrite split_on_app by done. rewrite filter_cons_True by done. by f_equal.
Qed.

Lemma collect_names_ok raws :
  Forall (fun n => utf8_valid n = true) raws ->
  collect_names raws = Ok (omap (strip_prefix (str_bytes "user.")) raws).
Proof.
  induction 1 as [|raw raws Hr Hrs IH]; [done|]. cbn. rewrite Hr, IH. cbn. by case_match.
Qed.

(** The listing shows exactly the attributes of the user namespace. *)
Lemma xattr_names_listing stored :
  Forall (fun n => stored_ok n /\ utf8_valid n = true) stored ->
  xattr_names (xattr_buffer stored) = Ok (omap (strip_prefix (str_bytes "user.")) stored).
Proof.
  intros Hs. unfold xattr_names. rewrite split_buffer by (eapply Forall_impl; [exact Hs|naive_solver]).
  apply collect_names_ok. eapply Forall_impl; [exact Hs|naive_solver].
Qed.

(** A name a client may use: a string without a NUL byte that does not itself begin
    with the name of a namespace. *)
Definition xattr_name_ok (name : bytes) : Prop :=
  (0 ∉ name) /\ utf8_valid name = true /\ has_linux_xattr_namespace name = false.

Lemma storage_name_user name : xattr_name_ok name -> storage_name name = str_bytes "user." ++ name.
Proof. intros (_ & _ & Hn). unfold storage_name. by rewrite Hn. Qed.

Lemma c_xattr_name_user name : xattr_name_ok name -> c_xattr_name name = Ok (str_bytes "user." ++ name).
Proof.
  intros Hn. unfold c_xattr_name, c_string. rewrite storage_name_user by done.
  destruct Hn as (H0 & _ & _). destruct (existsb (Z.eqb 0) (str_bytes "user." ++ name)) eqn:E; [|done].
  apply existsb_exists in E as (b & Hb & <-%Z.eqb_eq). apply list_elem_of_In, elem_of_app in Hb as [Hb|Hb].
  - exfalso. revert Hb. vm_compute. set_solver.
  - done.
Qed.

(** Extended attributes come back under the names they were set with: each name a
    client may use is stored under a name of its own, the listing of an object
    returns exactly the names whose storage names it holds, and none that belongs
    to another namespace. *)
Theorem xattr_names_roundtrip stored :
  Forall (fun n => stored_ok n /\ utf8_valid n = true) stored ->
  exists names, xattr_names (xattr_buffer stored) = Ok names /\
    (forall name, xattr_name_ok name ->
       exists c_name, c_xattr_name name = Ok c_name /\ (name ∈ names <-> c_name ∈ stored)) /\
    (forall name name', xattr_name_ok name -> xattr_name_ok name' ->
       c_xattr_name name = c_xattr_name name' -> name = name').
Proof.
  intros Hs. eexists. split; [by apply xattr_names_listing|]. split.
  - intros name Hn. eexists. split; [by apply c_xattr_name_user|].
    rewrite list_elem_of_omap. split.
    + by intros (raw & Hraw & ->%strip_prefix_spec).
    + intros Hin. eexists. split; [exact Hin|]. apply strip_prefix_app.
  - intros name name' Hn Hn'. rewrite !c_xattr_name_user by done. by intros [= ->].
Qed.

(** The names a client may not use are the reason for [xattr_name_ok]: an attribute
    set as [user.user.a] is listed as [user.a], under which it is not found, and
    [user.a] and [a] are one attribute. *)
Theorem xattr_name_shadowed :
  let stored := storage_name (str_bytes "user.user.a") in
  xattr_names (xattr_buffer [stored]) = Ok [str_bytes "user.a"] /\
  c_xattr_name (str_bytes "user.a") <> Ok stored /\
  c_xattr_name (str_bytes "user.a") = c_xattr_name (str_bytes "a").
Proof. by vm_compute. Qed.

(** ** Attributes *)

(** The fields of [Metadata] at their types. *)
Record metadata_ok (meta : Metadata) : Prop := {
  mo_ino : is_u64 (md_ino meta);
  mo_nlink : is_u64 (md_nlink meta);
  mo_mode : is_u32 (md_mode meta);
  mo_len : is_u64 (md_len meta);
  mo_blocks : is_u64 (md_blocks meta);
}.

Lemma u32_or_range d z : is_u32 d -> is_u32 (u32_or d z).
Proof.
  unfold u32_or, is_u32, u32_max. intros.
  destruct (Z.leb_spec 0 z), (Z.leb_spec z 4294967295); cbn; lia.
Qed.

(** The attributes made from well-typed metadata are well typed: every conversion
    is in range, and a fileid is never the reserved 0. *)
Theorem attrs_of_typed meta now :
  metadata_ok meta ->
  let a := attrs_of meta (Attrs_new now (object_type_of meta) (Z.max (md_ino meta) 1)) in
  is_u64 (at_fileid a) /\ at_fileid a <> 0 /\ is_u64 (at_change a) /\ is_u64 (at_space_used a) /\
  is_u32 (at_link_count a) /\ 0 <= at_mode a < 4096 /\
  is_u32 (ts_nanos (at_atime a)) /\ is_u32 (ts_nanos (at_mtime a)) /\ is_u32 (ts_nanos (at_ctime a)).
Proof.
  intros [Hi Hn Hm Hl Hb] a. unfold a.
  assert (H0 : is_u32 0) by done. assert (Hmax : is_u32 u32_max) by (by unfold is_u32, u32_max).
  cbn. split_and!; try (by apply u32_or_range).
  - unfold is_u64 in *. lia.
  - lia.
  - apply lxor_u64; [apply lxor_u64|]; apply u64_wrap_range.
  - unfold is_u64, u64_max in *. lia.
  - apply Z.land_nonneg. unfold is_u32 in Hm. lia.
  - change 4095 with (Z.ones 12). rewrite Z.land_ones by lia. apply Z.mod_pos_bound. lia.
Qed.

(** The change attribute of a file forgets the second of the change: when data and
    metadata changed in the same second, as after every write, it is the
    nanoseconds alone, so a change in another second can leave it as it was. *)
Theorem local_change_repeats meta :
  is_u64 (md_ctime meta).2 -> (md_ctime meta).1 = (md_mtime meta).1 ->
  change_of meta = (md_ctime meta).2.
Proof.
  intros Hn E. unfold change_of, i64_as_u64. rewrite E, Z.lxor_comm, <- Z.lxor_assoc.
  by rewrite Z.lxor_nilpotent, Z.lxor_0_l, u64_wrap_small.
Qed.

(** ** Directory listings *)

Lemma interp_io_err {World A} (os : forall c, World -> os_ans c * World) f (m : io (io_result A)) w :
  interp os (io_err f m) w =
  (match (interp os m w).1 with Ok a => Ok a | Err e => Err (f e) end, (interp os m w).2).
Proof. unfold io_err. by rewrite interp_bind. Qed.

(** A client of a backend that lists [dir] page by page, each request with the last
    cookie it was given, until the end is signalled. *)
Fixpoint list_dir {H B} (fs : FileSystem H B) (fuel : nat) (ctx : RequestContext) (dir : H)
    (cookie max_entries : Z) (with_attrs : bool) (b : B) : option (list (DirEntry H)) * B :=
  match fuel with
  | O => (None, b)
  | S fuel =>
    match fs_readdir fs ctx dir cookie max_entries with_attrs b with
    | (Err _, b) => (None, b)
    | (Ok page, b) =>
      if dp_eof page then (Some (dp_entries page), b) else
      match last (dp_entries page) with
      | None => (None, b)
      | Some e =>
        let '(rest, b) := list_dir fs fuel ctx dir (de_cookie e) max_entries with_attrs b in
        (app (dp_entries page) <$> rest, b)
      end
    end
  end.

Lemma merge_sort_perm names names' :
  names ≡ₚ names' -> merge_sort bytes_le names = merge_sort bytes_le names'.
Proof.
  intros Hp. apply (StronglySorted_unique bytes_le).
  - apply StronglySorted_merge_sort; apply _.
  - apply StronglySorted_merge_sort; apply _.
  - by rewrite !merge_sort_Permutation.
Qed.

Lemma entry_names_perm listed names :
  listed ≡ₚ Ok <$> names -> Forall (fun n => utf8_valid n = true) names ->
  exists names', entry_names listed = Ok names' /\ names' ≡ₚ names.
Proof.
  intros (names' & -> & Hp)%Permutation_map_inv Hu. exists names'. split; [|done].
  rewrite Hp in Hu. clear Hp. induction Hu as [|n ns Hn Hns IH]; [done|]. cbn. by rewrite Hn, IH.
Qed.

Lemma plain_full_path root dir : plain dir -> full_path root dir = Ok (join root dir).
Proof.
  intros (ns & Hns & ->). unfold full_path, reject_unsafe_relative.
  rewrite plain_relative, components_plain by done.
  replace (existsb _ (Normal <$> ns)) with false; [done|]. clear. by induction ns.
Qed.

(** The entries of a listing: name, handle and cookie, counted from [idx]. *)
Fixpoint numbered (dir : bytes) (idx : Z) (names : list bytes) : list (bytes * bytes * Z) :=
  match names with
  | [] => []
  | name :: names => (name, child_handle dir name, idx + 1) :: numbered dir (idx + 1) names
  end.
Definition entry_shape (e : DirEntry bytes) : bytes * bytes * Z := (de_name e, de_handle e, de_cookie e).

Lemma entries_numbered_app dir idx l k :
  numbered dir idx (l ++ k) = numbered dir idx l ++ numbered dir (idx + zlen l) k.
Proof.
  revert idx. induction l as [|x l IH]; intros idx; simpl.
  - unfold zlen. simpl. by rewrite Z.add_0_r.
  - rewrite IH, zlen_cons. do 3 f_equal. lia.
Qed.

Lemma length_entries_numbered dir idx l : length (numbered dir idx l) = length l.
Proof. revert idx. induction l as [|x l IH]; intros idx; simpl; auto. Qed.

Lemma last_entry_numbered dir idx l e :
  last (numbered dir idx l) = Some e -> e.2 = idx + zlen l.
Proof.
  destruct l as [|x l _] using rev_ind; [done|]. rewrite entries_numbered_app, last_app. cbn.
  intros [= <-]. rewrite zlen_app. unfold zlen. simpl. lia.
Qed.

Section listing.
Context {World : Type} (os : forall c, World -> os_ans c * World) (root dir : bytes).
Context (names : list bytes) (I : World -> Prop).
Context (Hdir : plain dir) (Hnames : Forall name_ok names).
Context (Hutf8 : Forall (fun n => utf8_valid n = true) names) (Hlen : zlen names <= u64_max).
(** While [I] holds the directory has these names, in whatever order, and the
    attributes of its entries can be read; reading does not change [I]. *)
Context (Hlist : forall w, I w ->
  exists listed, (os (Os_read_dir (join root dir)) w).1 = Ok listed /\ listed ≡ₚ Ok <$> names).
Context (Hmeta : forall w name, I w -> name ∈ names ->
  exists meta, (os (Os_symlink_metadata (join root (child_handle dir name))) w).1 = Ok meta).
Context (Hkept : forall c w, match c with
                             | Os_read_dir _ | Os_symlink_metadata _ | Os_now => True
                             | _ => False
                             end -> I w -> I (os c w).2).

Definition sorted : list bytes := merge_sort bytes_le names.

Definition entries_ok (with_attrs : bool) (idx : Z) (shown : list bytes) (es : list (DirEntry bytes)) : Prop :=
  entry_shape <$> es = numbered dir idx shown /\
  (with_attrs = true -> Forall (fun e => is_Some (de_attrs e)) es).

Lemma attrs_for_listed name w :
  I w -> name ∈ names ->
  exists attrs w', interp os (attrs_for (join root (child_handle dir name))) w = (Ok attrs, w') /\ I w'.
Proof.
  intros Hw Hn. destruct (Hmeta w name Hw Hn) as [meta Hm]. unfold attrs_for.
  rewrite interp_try, interp_io_err. cbn [call interp fst snd]. rewrite Hm. eexists _, _.
  split; [done|]. by apply Hkept, Hkept.
Qed.

Lemma interp_page with_attrs idx shown w :
  I w -> (forall n, n ∈ shown -> n ∈ names) ->
  exists es w', interp os (page_entries root dir with_attrs idx shown) w = (Ok es, w') /\ I w' /\
    entries_ok with_attrs idx shown es.
Proof.
  revert idx w. induction shown as [|name shown IH]; intros idx w Hw Hsub.
  { exists [], w. by repeat constructor. }
  cbn [page_entries]. rewrite interp_try.
  assert (Hname : name ∈ names) by (apply Hsub; left).
  assert (Hok : name_ok name) by (by eapply Forall_forall).
  destruct (IH (idx + 1)) with (w := (interp os (if with_attrs then
      do! path := Done (full_path root (child_handle dir name)) in
      do! attrs := attrs_for path in Done (Ok (Some attrs)) else Done (Ok None)) w).2)
    as (es & w' & He & Hw' & Hsh & Hat).
  - destruct with_attrs; [|done]. rewrite plain_full_path by by apply child_plain.
    destruct (attrs_for_listed name w Hw Hname) as (attrs & w1 & E & Hw1).
    rewrite !interp_try. cbn [interp fst snd]. by rewrite interp_try, E.
  - intros n Hin. apply Hsub. by right.
  - assert (Ha : exists attrs, (interp os (if with_attrs then
        do! path := Done (full_path root (child_handle dir name)) in
        do! attrs := attrs_for path in Done (Ok (Some attrs)) else Done (Ok None)) w).1 = Ok attrs /\
        (with_attrs = true -> is_Some attrs)).
    { destruct with_attrs; [|by exists None]. rewrite plain_full_path by by apply child_plain.
      destruct (attrs_for_listed name w Hw Hname) as (attrs & w1 & E & _).
      exists (Some attrs). rewrite !interp_try. cbn [interp fst snd]. by rewrite interp_try, E. }
    destruct Ha as (attrs & -> & Hsome). rewrite interp_try, He. cbn.
    eexists _, _. split; [done|]. split; [done|]. split; [cbn; by f_equal|].
    intros Ht. constructor; [cbn; auto|auto].
Qed.

Lemma interp_readdir cookie max_entries with_attrs w :
  I w -> 0 <= cookie <= zlen names ->
  exists es w', interp os (readdir root dir cookie max_entries with_attrs) w =
      (Ok (mkDirPage es (zlen names <=? cookie + zlen es)), w') /\ I w' /\
    entries_ok with_attrs cookie (take (Z.to_nat max_entries) (drop (Z.to_nat cookie) sorted)) es.
Proof.
  intros Hw Hc. unfold readdir. rewrite plain_full_path by done. rewrite interp_try. cbn [interp fst snd].
  destruct (Hlist w Hw) as (listed & El & Hp).
  rewrite interp_try, interp_io_err. cbn [call interp fst snd]. rewrite El.
  destruct (entry_names_perm listed names Hp Hutf8) as (names' & En & Hn).
  rewrite interp_try, En. cbn [interp fst snd]. cbv zeta.
  rewrite (merge_sort_perm names' names Hn). fold sorted.
  assert (Hz : zlen sorted = zlen names) by (unfold sorted, zlen; by rewrite merge_sort_Permutation).
  destruct (interp_page with_attrs cookie (take (Z.to_nat max_entries) (drop (Z.to_nat cookie) sorted))
              (os (Os_read_dir (join root dir)) w).2) as (es & w' & He & Hw' & Hs & Ha).
  { by apply Hkept. }
  { intros n Hin. apply elem_of_take in Hin as (i & Hi & _). rewrite lookup_drop in Hi.
    apply list_elem_of_lookup_2 in Hi. unfold sorted in Hi. by rewrite merge_sort_Permutation in Hi. }
  rewrite interp_try, He. cbn [interp fst snd]. exists es, w'. rewrite Hz. split; [|done].
  do 3 f_equal.
  assert (zlen es <= zlen names - cookie).
  { apply (f_equal length) in Hs. rewrite length_fmap, length_entries_numbered, length_take, length_drop in Hs.
    unfold zlen in *. lia. }
  rewrite Z.min_r by lia. done.
Qed.

Lemma list_dir_from ctx fuel cookie max_entries with_attrs w :
  I w -> 0 < max_entries -> 0 <= cookie <= zlen names -> zlen names - cookie < Z.of_nat fuel ->
  exists es w', list_dir (localfs root os) fuel ctx dir cookie max_entries with_attrs w = (Some es, w') /\
    I w' /\ entries_ok with_attrs cookie (drop (Z.to_nat cookie) sorted) es.
Proof.
  revert cookie w. induction fuel as [|fuel IH]; intros cookie w Hw Hmax Hc Hf; [lia|].
  destruct (interp_readdir cookie max_entries with_attrs w Hw Hc) as (es & w1 & E & Hw1 & Hs & Ha).
  cbn [list_dir fs_readdir localfs]. unfold on_os. cbn [serve]. rewrite E. cbn [dp_eof dp_entries].
  set (left := drop (Z.to_nat cookie) sorted) in *.
  set (shown := take (Z.to_nat max_entries) left) in *.
  assert (Hz : zlen sorted = zlen names) by (unfold sorted, zlen; by rewrite merge_sort_Permutation).
  assert (Hl : zlen left = zlen names - cookie)
    by (unfold left, zlen in *; rewrite length_drop; lia).
  assert (Hes : zlen es = zlen shown)
    by (apply (f_equal length) in Hs; rewrite length_fmap, length_entries_numbered in Hs; unfold zlen; by rewrite Hs).
  assert (Hsh : zlen shown = Z.min max_entries (zlen left))
    by (unfold shown, zlen; rewrite length_take; lia).
  destruct (Z.leb_spec (zlen names) (cookie + zlen es)) as [Hend|Hmore].
  - assert (shown = left) as Esh by (unfold shown; apply take_ge; unfold zlen in *; lia).
    rewrite Esh in Hs. exists es, w1. by repeat split.
  - assert (Hlast : exists e, last es = Some e /\ de_cookie e = cookie + zlen es).
    { destruct (last es) as [e|] eqn:El.
      - exists e. split; [done|]. rewrite Hes. apply (f_equal (fmap entry_shape)) in El.
        rewrite <- fmap_last, Hs in El. cbn in El. by apply last_entry_numbered in El.
      - apply last_None in El as ->. change (zlen []) with 0 in *. lia. }
    destruct Hlast as (e & -> & ->).
    destruct (IH (cookie + zlen es) w1) as (rest & w2 & -> & Hw2 & Hs2 & Ha2); [done..|lia|lia|].
    cbn. exists (es ++ rest), w2. split; [done|]. split; [done|]. split.
    + rewrite fmap_app, Hs, Hs2, Hes.
      replace (drop (Z.to_nat (cookie + zlen shown)) sorted) with (drop (length shown) left)
        by (unfold left; rewrite drop_drop; f_equal; unfold zlen; lia).
      replace left with (shown ++ drop (length shown) left) at 2; [by rewrite entries_numbered_app|].
      unfold shown at 1. rewrite <- (take_drop (Z.to_nat max_entries) left) at 3. f_equal.
      unfold shown. rewrite length_take. destruct (Nat.min_spec (Z.to_nat max_entries) (length left))
        as [[_ ->]|[? ->]]; [done|]. by rewrite !drop_ge by lia.
    + intros Ht. apply Forall_app. auto.
Qed.
End listing.

(** The directory [dir] holds [names] as long as [I] holds: every listing of it has
    these names, in any order, the attributes of its entries can be read, and
    reading it leaves [I] as it is. *)
Record static_dir {World} (os : forall c, World -> os_ans c * World) (root dir : bytes)
    (names : list bytes) (I : World -> Prop) : Prop := {
  sd_names : Forall name_ok names;
  sd_utf8 : Forall (fun n => utf8_valid n = true) names;
  sd_length : zlen names <= u64_max;
  sd_listed : forall w, I w ->
    exists listed, (os (Os_read_dir (join root dir)) w).1 = Ok listed /\ listed ≡ₚ Ok <$> names;
  sd_metadata : forall w name, I w -> name ∈ names ->
    exists meta, (os (Os_symlink_metadata (join root (child_handle dir name))) w).1 = Ok meta;
  sd_kept : forall c w, match c with
                        | Os_read_dir _ | Os_symlink_metadata _ | Os_now => True
                        | _ => False
                        end -> I w -> I (os c w).2;
}.

Lemma numbered_names dir idx l : (fun t => t.1.1) <$> numbered dir idx l = l.
Proof. revert idx. induction l as [|x l IH]; intros idx; cbn; [done|]. f_equal. apply IH. Qed.
Lemma numbered_handles dir idx l : Forall (fun t => t.1.2 = child_handle dir t.1.1) (numbered dir idx l).
Proof. revert idx. induction l as [|x l IH]; intros idx; cbn; constructor; auto. Qed.

(** C34. Paging through [readdir] of the daemon's backend is exact: a caller of the
    backend that starts at cookie 0 and goes on with the last cookie it was given
    until the end is signalled gets every name once, sorted, each with the handle
    [lookup] returns for it, whatever the number of entries per page and in
    whatever order the system lists the directory each time; as long as the
    directory does not change meanwhile and its names are UTF-8.  This is about
    the backend alone: the server refuses the cookies 1 and 2 that the backend
    gives out for the first two entries
    ([DaemonExamples.readdir_cookie_refused]). *)
Theorem local_readdir_complete World (os : forall c, World -> os_ans c * World) root dir names I ctx
    max_entries with_attrs w :
  plain dir -> static_dir os root dir names I -> I w -> 0 < max_entries ->
  exists es w',
    list_dir (localfs root os) (S (length names)) ctx dir 0 max_entries with_attrs w = (Some es, w') /\
    de_name <$> es ≡ₚ names /\ StronglySorted bytes_le (de_name <$> es) /\
    Forall (fun e => de_handle e = child_handle dir (de_name e) /\
                     (with_attrs = true -> is_Some (de_attrs e))) es.
Proof.
  intros Hd [Hn Hu Hl H1 H2 H3] Hw Hmax.
  destruct (list_dir_from os root dir names I Hd Hn Hu Hl H1 H2 H3 ctx (S (length names)) 0 max_entries
              with_attrs w Hw Hmax) as (es & w' & E & _ & Hs & Ha).
  { pose proof (zlen_nonneg names). lia. }
  { unfold zlen. lia. }
  rewrite drop_0 in Hs. exists es, w'. split; [done|].
  assert (Hnames : de_name <$> es = sorted names).
  { rewrite <- (numbered_names dir 0 (sorted names)), <- Hs, <- list_fmap_compose. done. }
  rewrite Hnames. split; [apply merge_sort_Permutation|].
  split; [apply StronglySorted_merge_sort; apply _|].
  apply Forall_forall. intros e He. split.
  - pose proof (numbered_handles dir 0 (sorted names)) as Hh. rewrite <- Hs, Forall_fmap in Hh.
    rewrite Forall_forall in Hh. exact (Hh e He).
  - intros Ht. specialize (Ha Ht). rewrite Forall_forall in Ha. exact (Ha e He).
Qed.
