(* ===== verification/Posix.v ===== *)
(** * A small operating system to run the daemon's backend on

    An instance of the parameter of [LocalFs]: files, directories and symbolic
    links by their location, with the system calls' documented behaviour as far
    as the examples need it.  Symbolic links are followed in the middle of a path
    always, and at its end by [open], [chmod] and the like, but not by [lstat],
    [unlink], [rename] and [readlink].  There are no hard links, no times and no
    permission checks. *)

From stdpp Require Import base gmap list sets strings numbers sorting.
From Stdlib Require Import ZArith Lia.
From S2P Require Import Prelude Xdr Rpc Types StateModel FsApi Paths Text Os LocalFs.

Local Open Scope Z_scope.

Inductive Node := N_Dir | N_File (data : bytes) | N_Symlink (target : bytes).

Record Object := mkObject { ob_node : Node; ob_mode : Z; ob_xattrs : gmap bytes bytes }.
Definition new_object (n : Node) : Object := mkObject n 420 ∅.

(** The objects by location, and the open files with their positions. *)
Record World := mkWorld {
  pw_objects : gmap (list bytes) Object;
  pw_files : gmap Z (list bytes * Z);
  pw_next_fd : Z;
}.
Definition set_objects (v : gmap (list bytes) Object) (w : World) : World :=
  mkWorld v (pw_files w) (pw_next_fd w).
Definition set_files (v : gmap Z (list bytes * Z)) (w : World) : World :=
  mkWorld (pw_objects w) v (pw_next_fd w).

Definition errno (k : ErrorKind) (n : Z) : IoError := mkIoError k (Some n).
Definition ENOENT : IoError := errno EK_NotFound 2.
Definition EEXIST : IoError := errno EK_AlreadyExists 17.
Definition ENOTDIR : IoError := errno EK_NotADirectory 20.
Definition EISDIR : IoError := errno EK_IsADirectory 21.
Definition EINVAL : IoError := errno EK_InvalidInput 22.
Definition ENOTEMPTY : IoError := errno EK_DirectoryNotEmpty 39.
Definition ELOOP : IoError := errno EK_Other 40.
Definition EBADF : IoError := errno EK_Other 9.
Definition ENOTSUP : IoError := errno EK_Other 95.
Definition ENODATA_err : IoError := errno EK_Other 61.

(** The location a path leads to; the last name need not exist. *)
Fixpoint walk (fuel : nat) (objects : gmap (list bytes) Object) (follow : bool) (here : list bytes)
    (cs : list Component) : io_result (list bytes) :=
  match fuel with
  | O => Err ELOOP
  | S fuel =>
    match cs with
    | [] => Ok here
    | RootDir :: cs => walk fuel objects follow [] cs
    | ParentDir :: cs => walk fuel objects follow (removelast here) cs
    | CurDir :: cs | Prefix _ :: cs => walk fuel objects follow here cs
    | Normal n :: cs =>
      let there := here ++ [n] in
      match ob_node <$> objects !! there with
      | Some (N_Symlink target) =>
        if bool_decide (cs = []) && negb follow then Ok there
        else walk fuel objects follow here (components target ++ cs)
      | Some N_Dir => walk fuel objects follow there cs
      | Some (N_File _) => if bool_decide (cs = []) then Ok there else Err ENOTDIR
      | None => if bool_decide (cs = []) then Ok there else Err ENOENT
      end
    end
  end.
Definition locate (w : World) (follow : bool) (path : bytes) : io_result (list bytes) :=
  if bool_decide (path = []) then Err ENOENT
  else if existsb (Z.eqb 0) path then Err EINVAL
  else walk 100 (pw_objects w) follow [] (components path).

(** The object at a path, and a change of it. *)
Definition find (w : World) (follow : bool) (path : bytes) : io_result (list bytes * Object) :=
  loc ← locate w follow path; object ← ok_or (pw_objects w !! loc) ENOENT; Ok (loc, object).
Definition change (follow : bool) (path : bytes) (f : Object -> io_result Object) (w : World)
    : io_result unit * World :=
  match (fo ← find w follow path; object ← f fo.2; Ok (fo.1, object)) with
  | Ok (loc, object) => (Ok tt, set_objects (<[loc := object]> (pw_objects w)) w)
  | Err e => (Err e, w)
  end.

(** A new object at a free place in a directory. *)
Definition make (path : bytes) (node : Node) (w : World) : io_result unit * World :=
  match locate w false path with
  | Ok loc =>
    match pw_objects w !! loc with
    | Some _ => (Err EEXIST, w)
    | None => (Ok tt, set_objects (<[loc := new_object node]> (pw_objects w)) w)
    end
  | Err e => (Err e, w)
  end.

Definition children (w : World) (loc : list bytes) : list bytes :=
  omap (fun '(l, _) => match last l with
                       | Some n => if bool_decide (l = loc ++ [n]) then Some n else None
                       | None => None
                       end) (map_to_list (pw_objects w)).

Definition delete_at (path : bytes) (dir : bool) (w : World) : io_result unit * World :=
  match find w false path with
  | Err e => (Err e, w)
  | Ok (loc, object) =>
    match ob_node object, dir with
    | N_Dir, true =>
      if bool_decide (children w loc = []) then (Ok tt, set_objects (delete loc (pw_objects w)) w)
      else (Err ENOTEMPTY, w)
    | N_Dir, false => (Err EISDIR, w)
    | _, true => (Err ENOTDIR, w)
    | _, false => (Ok tt, set_objects (delete loc (pw_objects w)) w)
    end
  end.

(** A directory moves with what is in it. *)
Definition move (from to : list bytes) (objects : gmap (list bytes) Object) : gmap (list bytes) Object :=
  list_to_map ((fun '(l, o) => (if bool_decide (take (length from) l = from)
                                then to ++ drop (length from) l else l, o)) <$>
               map_to_list (delete to objects)).

Definition metadata_of (object : Object) (loc : list bytes) : Metadata :=
  let '(kind, len) := match ob_node object with
                      | N_Dir => (Ft_Dir, 0)
                      | N_File data => (Ft_File, zlen data)
                      | N_Symlink target => (Ft_Symlink, zlen target)
                      end in
  mkMetadata kind (1 + zlen loc) 1 (ob_mode object) 0 0 len 0 (0, 0) (0, 0) (0, 0).

(** The data of an open file. *)
Definition file_data (w : World) (fd : Z) : io_result (list bytes * Z * bytes) :=
  match pw_files w !! fd with
  | Some (loc, pos) =>
    match ob_node <$> pw_objects w !! loc with
    | Some (N_File data) => Ok (loc, pos, data)
    | _ => Err EISDIR
    end
  | None => Err EBADF
  end.
Definition store (loc : list bytes) (data : bytes) (w : World) : World :=
  set_objects (alter (fun o => mkObject (N_File data) (ob_mode o) (ob_xattrs o)) loc (pw_objects w)) w.
Definition on_file {A} (fd : Z) (f : list bytes -> Z -> bytes -> World -> A * World) (w : World)
    : io_result A * World :=
  match file_data w fd with
  | Ok (loc, pos, data) => let '(a, w') := f loc pos data w in (Ok a, w')
  | Err e => (Err e, w)
  end.
Definition pad (n : nat) (data : bytes) : bytes := data ++ replicate (n - length data) 0.

Definition open_file (path : bytes) (o : OpenOptions) (w : World) : io_result Z * World :=
  let opened loc w := (Ok (pw_next_fd w),
    mkWorld (pw_objects w) (<[pw_next_fd w := (loc, 0)]> (pw_files w)) (pw_next_fd w + 1)) in
  if oo_create_new o then
    match make path (N_File []) w with
    | (Err e, w) => (Err e, w)
    | (Ok _, w) => match locate w false path with Ok loc => opened loc w | Err e => (Err e, w) end
    end
  else match find w true path with
       | Err e => (Err e, w)
       | Ok (loc, object) =>
         match ob_node object with
         | N_Dir => if oo_write o then (Err EISDIR, w) else opened loc w
         | _ => opened loc w
         end
       end.

Definition with_xattrs (path : bytes) (f : gmap bytes bytes -> io_result (gmap bytes bytes))
    : World -> io_result unit * World :=
  change true path (fun o => xs ← f (ob_xattrs o); Ok (mkObject (ob_node o) (ob_mode o) xs)).

Definition reading {A} (r : io_result A) (w : World) : io_result A * World := (r, w).

Definition posix (c : os_call) : World -> os_ans c * World :=
  match c return World -> os_ans c * World with
  | Os_create_dir_all p => fun w => match find w true p with
                                    | Ok _ => (Ok tt, w)
                                    | Err _ => make p N_Dir w
                                    end
  | Os_canonicalize p => fun w => reading (fo ← find w true p; Ok (SEP :: path_of fo.1)) w
  | Os_symlink_metadata p => fun w => reading (fo ← find w false p; Ok (metadata_of fo.2 fo.1)) w
  | Os_read_dir p => fun w =>
      reading (fo ← find w true p;
               match ob_node fo.2 with
               | N_Dir => Ok (Ok <$> children w fo.1)
               | _ => Err ENOTDIR
               end) w
  | Os_create_dir p => make p N_Dir
  | Os_remove_dir p => delete_at p true
  | Os_remove_file p => delete_at p false
  | Os_rename p q => fun w =>
      match find w false p, locate w false q with
      | Ok (from, _), Ok to => (Ok tt, set_objects (move from to (pw_objects w)) w)
      | Err e, _ => (Err e, w)
      | _, Err e => (Err e, w)
      end
  | Os_symlink target p => make p (N_Symlink target)
  | Os_read_link p => fun w =>
      reading (fo ← find w false p;
               match ob_node fo.2 with N_Symlink target => Ok target | _ => Err EINVAL end) w
  | Os_hard_link _ _ => reading (Err ENOTSUP)
  | Os_set_permissions p mode => change true p (fun o => Ok (mkObject (ob_node o) mode (ob_xattrs o)))
  | Os_chown p _ _ => change true p Ok
  | Os_utimensat p _ _ => change true p Ok
  | Os_open p o => open_file p o
  | Os_seek fd offset => fun w =>
      match pw_files w !! fd with
      | Some (loc, _) => (Ok tt, set_files (<[fd := (loc, offset)]> (pw_files w)) w)
      | None => (Err EBADF, w)
      end
  | Os_read fd count => on_file fd (fun loc pos data w =>
      let got := take (Z.to_nat count) (drop (Z.to_nat pos) data) in
      (got, set_files (<[fd := (loc, pos + zlen got)]> (pw_files w)) w))
  | Os_write_all fd new => on_file fd (fun loc pos data w =>
      let n := Z.to_nat pos in
      let data := pad n data in
      (tt, set_files (<[fd := (loc, pos + zlen new)]> (pw_files w))
             (store loc (take n data ++ new ++ drop (n + length new) data) w)))
  | Os_set_len fd size => on_file fd (fun loc _ data w =>
      (tt, store loc (take (Z.to_nat size) (pad (Z.to_nat size) data)) w))
  | Os_sync_data _ | Os_sync_all _ => reading (Ok tt)
  | Os_fstat fd => fun w =>
      reading (match pw_files w !! fd with
               | Some (loc, _) => object ← ok_or (pw_objects w !! loc) ENOENT; Ok (metadata_of object loc)
               | None => Err EBADF
               end) w
  | Os_close fd => fun w => (tt, set_files (delete fd (pw_files w)) w)
  | Os_listxattr_size p => fun w =>
      reading (fo ← find w true p;
               Ok (zlen (concat ((fun n => n ++ [0]) <$> (map_to_list (ob_xattrs fo.2)).*1)))) w
  | Os_listxattr p _ => fun w =>
      reading (fo ← find w true p;
               Ok (concat ((fun n => n ++ [0]) <$> (map_to_list (ob_xattrs fo.2)).*1))) w
  | Os_getxattr_size p n => fun w =>
      reading (fo ← find w true p; v ← ok_or (ob_xattrs fo.2 !! n) ENODATA_err; Ok (zlen v)) w
  | Os_getxattr p n _ => fun w =>
      reading (fo ← find w true p; ok_or (ob_xattrs fo.2 !! n) ENODATA_err) w
  | Os_setxattr p n v flags => with_xattrs p (fun xs =>
      match xs !! n with
      | Some _ => if flags =? 1 then Err EEXIST else Ok (<[n := v]> xs)
      | None => if flags =? 2 then Err ENODATA_err else Ok (<[n := v]> xs)
      end)
  | Os_removexattr p n => with_xattrs p (fun xs =>
      match xs !! n with Some _ => Ok (delete n xs) | None => Err ENODATA_err end)
  | Os_now => fun w => (mkTimestamp 0 0, w)
  end.

(** A file outside the exported directory /srv, and three files in it. *)
Definition name (s : string) : bytes := str_bytes s.
Definition example_world : World :=
  mkWorld
    (<[[name "secret"] := new_object (N_File (str_bytes "key"))]>
     (<[[name "srv"] := new_object N_Dir]>
      (<[[name "srv"; name "b"] := new_object (N_File [98])]>
       (<[[name "srv"; name "a"] := new_object (N_File [97])]>
        (<[[name "srv"; name "c"] := new_object (N_File [99])]>
         (<[[] := new_object N_Dir]> ∅)))))) ∅ 3.
Definition srv : bytes := str_bytes "/srv".
