(* ===== verification/Daemon.v ===== *)
(** * The daemon's configuration and control port (crates/embednfsd/src/main.rs)

    What the daemon reads from its environment, how it puts its server together,
    and the commands of its control connection.  The environment is a function
    from names to values, which are byte strings as in [OsString].  The text of an
    error message is not modelled, what it says is ([EnvError]). *)

From stdpp Require Import base gmap list sets strings numbers sorting.
From Stdlib Require Import ZArith Lia.
From S2P Require Import Prelude Xdr Rpc Types StateModel FsApi AttrCodec Server OpsDelegation Paths Text.
From S2P Require Import Records Transport Os LocalFs LocalFsProps Config.

Local Open Scope Z_scope.

(** ** Settings *)

Definition DEFAULT_ROOT : bytes := str_bytes "/tmp/embednfs-root".
Definition DEFAULT_LISTEN : bytes := str_bytes "0.0.0.0:2049".
Definition DEFAULT_DIRECTORY_DELEGATIONS : bool := false.
Definition DEFAULT_RECALL_TIMEOUT_MS : Z := 5000.
Definition CONTROL_RECALL_ROOT : bytes := str_bytes "RECALL /".

(** [std::env::var_os]; [std::env::var] fails on a value that is not UTF-8. *)
Definition Environ : Type := bytes -> option bytes.
Definition var (env : Environ) (name : bytes) : option bytes :=
  match env name with
  | Some value => if utf8_valid value then Some value else None
  | None => None
  end.

Inductive EnvError :=
| Env_NotBoolean (name value : bytes)
| Env_NotUnsigned (name : bytes) (err : IntErrorKind).

Section settings.
Context (env : Environ).

Definition env_optional (name : bytes) : option bytes :=
  match var env name with
  | Some value => if bool_decide (trim value = []) then None else Some value
  | None => None
  end.

Definition env_optional_bytes (name : bytes) : option bytes :=
  match env name with
  | Some value => if forallb is_ascii_whitespace value then None else Some value
  | None => None
  end.

Definition true_words : list bytes := [str_bytes "1"; str_bytes "true"; str_bytes "yes"; str_bytes "on"].
Definition false_words : list bytes := [str_bytes "0"; str_bytes "false"; str_bytes "no"; str_bytes "off"].

Definition env_bool (name : bytes) (default : bool) : result EnvError bool :=
  match env name with
  | None => Ok default
  | Some value =>
    let value := to_ascii_lowercase (to_string_lossy value) in
    if bool_decide (value ∈ true_words) then Ok true
    else if bool_decide (value ∈ false_words) then Ok false
    else Err (Env_NotBoolean name value)
  end.

Definition parsed (name value : bytes) : result EnvError Z :=
  match parse_u64 value with Ok v => Ok v | Err e => Err (Env_NotUnsigned name e) end.

Definition env_optional_u64 (name : bytes) : result EnvError (option Z) :=
  match env name with
  | None => Ok None
  | Some value =>
    let value := to_string_lossy value in
    if bool_decide (trim value = []) then Ok None
    else v ← parsed name value; Ok (Some v)
  end.

Definition env_u64 (name : bytes) (default : Z) : result EnvError Z :=
  match env name with
  | None => Ok default
  | Some value => parsed name (to_string_lossy value)
  end.

(** [Duration::from_millis], in nanoseconds *)
Definition from_millis (ms : Z) : Z := ms * 1000000.

Definition delegation_config_from_env : result EnvError DelegationConfig :=
  directory_delegations ← env_bool (str_bytes "EMBEDNFS_DIRECTORY_DELEGATIONS") DEFAULT_DIRECTORY_DELEGATIONS;
  recall_ms ← env_u64 (str_bytes "EMBEDNFS_RECALL_TIMEOUT_MS") DEFAULT_RECALL_TIMEOUT_MS;
  let d := DelegationConfig_default in
  Ok (mkDelegationConfig directory_delegations (from_millis recall_ms)
        (dc_max_delegations_per_client d) (dc_max_delegations_total d)).

(** ** Identity *)

Definition FNV_OFFSET : Z := 14695981039346656037. (* 0xcbf29ce484222325 *)
Definition FNV_PRIME : Z := 1099511628211.         (* 0x00000100000001b3 *)

Definition hash_byte (hash byte : Z) : Z := u64_wrap (Z.lxor hash byte * FNV_PRIME).

Definition stable_identity_hash (root listen : bytes) : Z :=
  foldl hash_byte FNV_OFFSET (listen ++ [0] ++ root).

Definition default_server_identity (root listen : bytes) : NfsServerIdentity :=
  let token := str_bytes "embednfsd:" ++ hex 16 (stable_identity_hash root listen) in
  NfsServerIdentity_new token 0 token.

Definition server_identity_from_env (default_identity : NfsServerIdentity)
    : result EnvError NfsServerIdentity :=
  let i := default_identity in
  let i := match env_optional_bytes (str_bytes "EMBEDNFS_SERVER_OWNER_MAJOR_ID") with
           | Some owner_major_id => with_owner_major_id owner_major_id i
           | None => i
           end in
  minor ← env_optional_u64 (str_bytes "EMBEDNFS_SERVER_OWNER_MINOR_ID");
  let i := match minor with Some owner_minor_id => with_owner_minor_id owner_minor_id i | None => i end in
  Ok (match env_optional_bytes (str_bytes "EMBEDNFS_SERVER_SCOPE") with
      | Some scope => with_scope scope i
      | None => i
      end).
End settings.

(** ** Start *)

Inductive StartError := Start_Env (e : EnvError) | Start_Fs (e : FsError).

Record DaemonConfig := mkDaemonConfig {
  da_root : bytes;
  da_listen : bytes;
  da_control_listen : option bytes;
  da_delegation_config : DelegationConfig;
  da_server_identity : NfsServerIdentity;
}.

Definition env_error {A} (r : result EnvError A) : result StartError A :=
  match r with Ok a => Ok a | Err e => Err (Start_Env e) end.

(** [main] up to the listening sockets. *)
Definition configure (env : Environ) : io (result StartError DaemonConfig) :=
  (let root := default DEFAULT_ROOT (env (str_bytes "EMBEDNFS_ROOT")) in
   let listen := default DEFAULT_LISTEN (var env (str_bytes "EMBEDNFS_LISTEN")) in
   let control_listen := env_optional env (str_bytes "EMBEDNFS_CONTROL_LISTEN") in
   do! delegation_config := Done (env_error (delegation_config_from_env env)) in
   do* made := LocalFs_new root in
   do! root := Done (match made with Ok root => Ok root | Err e => Err (Start_Fs e) end) in
   do! server_identity :=
     Done (env_error (server_identity_from_env env (default_server_identity root listen))) in
   Done (Ok (mkDaemonConfig root listen control_listen delegation_config server_identity)))%io.

Section daemon.
Context {World : Type} (os : forall c, World -> os_ans c * World).

(** The server [main] builds; [unused] is the default identity that is replaced. *)
Definition daemon_builder (unused : NfsServerIdentity) (cfg : DaemonConfig)
    : NfsServerBuilder bytes World :=
  nb_with_server_identity (da_server_identity cfg)
    (nb_with_delegation_config (da_delegation_config cfg) (builder (localfs (da_root cfg) os) unused)).

(** ** The control connection *)

(** [Display] of [FsError] *)
Definition FsError_display (e : FsError) : bytes :=
  str_bytes match e with
  | Fs_Ok => "success"
  | Fs_PermissionDenied => "permission denied"
  | Fs_NotFound => "not found"
  | Fs_Io => "i/o error"
  | Fs_AccessDenied => "access denied"
  | Fs_AlreadyExists => "already exists"
  | Fs_CrossDevice => "cross-device link"
  | Fs_NotDirectory => "not a directory"
  | Fs_IsDirectory => "is a directory"
  | Fs_InvalidInput => "invalid input"
  | Fs_FileTooLarge => "file too large"
  | Fs_NoSpace => "no space left"
  | Fs_ReadOnly => "read-only filesystem"
  | Fs_NameTooLong => "name too long"
  | Fs_NotEmpty => "directory not empty"
  | Fs_Stale => "stale handle"
  | Fs_Unsupported => "operation not supported"
  | Fs_BadHandle => "bad handle"
  | Fs_ServerFault => "server fault"
  | Fs_Delay => "transient delay, retry"
  end.

(** [read_line]: up to and including the first newline, or to the end. *)
Fixpoint read_line (input : bytes) : bytes :=
  match input with
  | [] => []
  | b :: rest => if b =? 10 then [b] else b :: read_line rest
  end.

(** What is written to the connection on which [input] arrived; a line that is not
    UTF-8 is an error of the connection. *)
Definition handle_control_connection {ho : HashOrder} (srv : NfsServer bytes World) (input : bytes)
    : proc (Server bytes World) (result unit bytes) :=
  let command := read_line input in
  if bool_decide (command = []) then Ret (Ok [])
  else if negb (utf8_valid command) then Ret (Err tt)
  else if bool_decide (trim command = CONTROL_RECALL_ROOT) then
    proc_bind (recall_directory srv []) (fun r =>
      Ret (Ok (match r with
               | Ok _ => str_bytes "OK" ++ [10]
               | Err err => str_bytes "ERR " ++ FsError_display err ++ [10]
               end)))
  else Ret (Ok (str_bytes "ERR unknown command" ++ [10])).
End daemon.

(** ** The daemon names paths in its directory only *)

(** C14. The daemon's server names only paths in the exported directory: every path
    that any operation of its backend passes to the operating system starts with
    the directory's components and goes down from there by names only, whatever
    handle and name the operation is given and whatever the system answers.  So
    what the server does with an RPC message depends only on how the system
    answers calls on such paths: on two systems that answer these calls alike, the
    same message is processed in the same way, step by step.  The system itself
    follows symbolic links, so such a call may still reach a file outside the
    directory ([DaemonExamples.symlink_escape]). *)
Theorem daemon_confined {ho : HashOrder} World (os os' : forall c, World -> os_ans c * World) unused cfg :
  canonical (da_root cfg) ->
  (forall A (m : method A), all_calls (confined (da_root cfg)) (serve (da_root cfg) m)) /\
  ((forall c w, confined (da_root cfg) c -> os c w = os' c w) ->
   forall data connection_id,
     process_rpc_message (built_server (daemon_builder os unused cfg)) data connection_id =
     process_rpc_message (built_server (daemon_builder os' unused cfg)) data connection_id).
Proof.
  intros Hroot. split; [intros A m; by apply serve_confined|].
  intros Hos data conn. unfold daemon_builder. by rewrite (localfs_confined _ _ os os').
Qed.

(** ** Settings are read exactly *)

Definition is_ascii (b : Z) : Prop := 0 <= b < 128.

Lemma next_char_width s : (1 <= (next_char s).1)%nat.
Proof. unfold next_char. repeat case_match; simpl; lia. Qed.

(** A lossy reading without a replacement is the string itself. *)
Lemma lossy_sound fuel s :
  (length s <= fuel)%nat -> Forall is_ascii (concat (chars_from fuel s)) -> concat (chars_from fuel s) = s.
Proof.
  revert s. induction fuel as [|fuel IH]; intros [|b s] Hf; try done; [simpl in Hf; lia|].
  cbn [chars_from]. pose proof (next_char_width (b :: s)) as Hw.
  destruct (next_char (b :: s)) as [width valid]. cbn [fst] in Hw. cbn [concat].
  rewrite Forall_app. intros [Hc Hr]. destruct valid.
  - rewrite IH; [apply take_drop| |done]. rewrite length_drop. simpl in *. lia.
  - apply Forall_cons_1 in Hc as [Hc _]. unfold is_ascii in Hc. lia.
Qed.

Lemma lossy_complete fuel s :
  (length s <= fuel)%nat -> Forall is_ascii s -> concat (chars_from fuel s) = s.
Proof.
  revert s. induction fuel as [|fuel IH]; intros [|b s] Hf Hs; try done; [simpl in Hf; lia|].
  apply Forall_cons_1 in Hs as [Hb Hs]. unfold is_ascii in Hb. cbn [chars_from].
  assert (next_char (b :: s) = (1%nat, true)) as ->.
  { unfold next_char. cbn [nth]. by destruct (Z.ltb_spec b 128); [|lia]. }
  change (b :: concat (chars_from fuel s) = b :: s). f_equal. apply IH; [simpl in Hf; lia|done].
Qed.

Lemma lossy_ascii s t : Forall is_ascii t -> to_string_lossy s = t <-> s = t.
Proof.
  intros Ht. unfold to_string_lossy, chars. split.
  - intros <-. symmetry. by apply lossy_sound.
  - intros ->. by apply lossy_complete.
Qed.

Lemma lowercase_ascii s : Forall is_ascii (to_ascii_lowercase s) -> Forall is_ascii s.
Proof.
  unfold to_ascii_lowercase. rewrite Forall_fmap. intros Hs. eapply Forall_impl; [exact Hs|].
  unfold is_ascii, in_range. intros b. cbn. destruct (Z.leb_spec 65 b), (Z.leb_spec b 90); cbn; lia.
Qed.

Lemma unsigned_ascii s digits : unsigned_text s digits -> Forall is_ascii s.
Proof.
  intros (Hs & _ & Hd).
  assert (Forall is_ascii digits)
    by (eapply Forall_impl; [exact Hd|]; unfold is_digit, is_ascii; intros; lia).
  destruct Hs as [->| ->]; [done|]. by constructor.
Qed.

(** A variable that is set to one of the words for [b], in any case of letters, or
    not set and [b] is the default. *)
Definition bool_setting (env : Environ) (name : bytes) (default b : bool) : Prop :=
  match env name with
  | None => b = default
  | Some value => to_ascii_lowercase value ∈ (if b then true_words else false_words)
  end.

(** A variable that is set to the decimal number [v], or not set and [v] is the
    default. *)
Definition u64_setting (env : Environ) (name : bytes) (default v : Z) : Prop :=
  match env name with
  | None => v = default
  | Some value => exists digits, unsigned_text value digits /\ v = digits_value digits /\ v <= u64_max
  end.

Lemma words_ascii b w : w ∈ (if b : bool then true_words else false_words) -> Forall is_ascii w.
Proof.
  intros Hw. assert (Hall : Forall (Forall is_ascii) (true_words ++ false_words)).
  { repeat constructor; vm_compute; discriminate || (split; [discriminate|reflexivity]). }
  rewrite Forall_forall in Hall. apply Hall, elem_of_app. destruct b; auto.
Qed.

Lemma lossy_word value b :
  to_ascii_lowercase (to_string_lossy value) ∈ (if b : bool then true_words else false_words) <->
  to_ascii_lowercase value ∈ (if b : bool then true_words else false_words).
Proof.
  split; intros Hw; pose proof (lowercase_ascii _ (words_ascii b _ Hw)) as Ha.
  - by rewrite <- (proj1 (lossy_ascii value _ Ha) eq_refl) in Hw.
  - by rewrite (proj2 (lossy_ascii value value Ha) eq_refl).
Qed.

Lemma env_bool_exact env name default b :
  env_bool env name default = Ok b <-> bool_setting env name default b.
Proof.
  unfold env_bool, bool_setting. destruct (env name) as [value|]; [|naive_solver].
  pose proof (lossy_word value true) as Ht. pose proof (lossy_word value false) as Hf.
  assert (Hdis : to_ascii_lowercase (to_string_lossy value) ∈ true_words ->
                 to_ascii_lowercase (to_string_lossy value) ∈ false_words -> False).
  { generalize (to_ascii_lowercase (to_string_lossy value)). intros w.
    assert (Hd : Forall (fun w => w ∉ false_words) true_words)
      by (repeat constructor; vm_compute; set_solver).
    rewrite Forall_forall in Hd. intros H1. by apply Hd. }
  cbn [negb] in *. cbv zeta. case_bool_decide as E1; [|case_bool_decide as E2]; destruct b; naive_solver.
Qed.

Lemma env_u64_exact env name default v :
  env_u64 env name default = Ok v <-> u64_setting env name default v.
Proof.
  unfold env_u64, u64_setting, parsed. destruct (env name) as [value|]; [|naive_solver].
  assert (Hp : parse_u64 (to_string_lossy value) = Ok v <->
               exists digits, unsigned_text value digits /\ v = digits_value digits /\ v <= u64_max).
  { unfold parse_u64. rewrite parse_unsigned_ok by (by unfold u64_max).
    split; intros (ds & Hds & Hv); exists ds; (split; [|done]).
    - pose proof (unsigned_ascii _ _ Hds) as Ha.
      by rewrite (proj1 (lossy_ascii value _ Ha) eq_refl).
    - pose proof (unsigned_ascii _ _ Hds) as Ha.
      by rewrite (proj2 (lossy_ascii value value Ha) eq_refl). }
  rewrite <- Hp. destruct (parse_u64 (to_string_lossy value)); naive_solver.
Qed.

(** The delegation configuration is read from the environment exactly: it is
    accepted if and only if the two variables are unset or hold a word for a truth
    value and a decimal number of 64 bits (a plus sign is allowed; spaces, a sign
    alone, other characters, an empty value and an overflow are refused), and
    then it has these values, the limits on delegations are the defaults, and the
    timeout of a recall is not negative. *)
Theorem delegation_config_exact env cfg :
  delegation_config_from_env env = Ok cfg <->
  exists b ms,
    bool_setting env (str_bytes "EMBEDNFS_DIRECTORY_DELEGATIONS") false b /\
    u64_setting env (str_bytes "EMBEDNFS_RECALL_TIMEOUT_MS") 5000 ms /\
    0 <= ms <= u64_max /\ cfg = mkDelegationConfig b (ms * 1000000) 1024 16384.
Proof.
  unfold delegation_config_from_env, DEFAULT_DIRECTORY_DELEGATIONS, DEFAULT_RECALL_TIMEOUT_MS.
  setoid_rewrite <- env_bool_exact. setoid_rewrite <- env_u64_exact.
  destruct (env_bool env _ false) as [b|] eqn:Eb; [|cbn; naive_solver]. cbn [mbind result_bind].
  destruct (env_u64 env _ 5000) as [ms|] eqn:Em; [|cbn; naive_solver]. cbn.
  assert (0 <= ms <= u64_max).
  { apply env_u64_exact in Em. unfold u64_setting in Em. destruct (env _).
    - destruct Em as (ds & (_ & _ & Hd) & -> & ?). pose proof (digits_value_nonneg ds Hd). lia.
    - subst. by unfold u64_max. }
  naive_solver.
Qed.

(** ** Identities tell servers apart *)

Lemma lxor_u8_inj h b b' : Z.lxor h b = Z.lxor h b' -> b = b'.
Proof. intros E. apply (f_equal (Z.lxor h)) in E. by rewrite <- !Z.lxor_assoc, Z.lxor_nilpotent, !Z.lxor_0_l in E. Qed.

Lemma lxor_u64_range h b : is_u64 h -> is_u8 b -> is_u64 (Z.lxor h b).
Proof. intros Hh Hb. apply lxor_u64; [done|]. unfold is_u8, is_u64 in *. lia. Qed.

(** The prime is invertible modulo 2^64, so no step of the hash loses anything. *)
Definition FNV_INVERSE : Z := 14886173955864302971.

Lemma mul_prime_inj x y : is_u64 x -> is_u64 y -> u64_wrap (x * FNV_PRIME) = u64_wrap (y * FNV_PRIME) -> x = y.
Proof.
  unfold u64_wrap. intros Hx Hy E.
  assert (Hinv : forall z, is_u64 z ->
            ((z * FNV_PRIME) mod 18446744073709551616 * FNV_INVERSE) mod 18446744073709551616 = z).
  { intros z Hz. rewrite Zmult_mod_idemp_l, <- Z.mul_assoc.
    rewrite <- Zmult_mod_idemp_r. replace (FNV_PRIME * FNV_INVERSE mod 18446744073709551616) with 1
      by (by vm_compute). rewrite Z.mul_1_r. by apply Z.mod_small. }
  by rewrite <- (Hinv x), E, Hinv.
Qed.

Lemma hash_byte_inj h h' b b' :
  is_u64 h -> is_u64 h' -> is_u8 b -> is_u8 b' -> hash_byte h b = hash_byte h' b' ->
  Z.lxor h b = Z.lxor h' b'.
Proof. intros. apply mul_prime_inj; [by apply lxor_u64_range..|done]. Qed.

Lemma hash_bytes_inj h h' s :
  is_u64 h -> is_u64 h' -> bytes_ok s -> foldl hash_byte h s = foldl hash_byte h' s -> h = h'.
Proof.
  intros Hh Hh' Hs. revert h h' Hh Hh'. induction Hs as [|b s Hb Hs IH]; intros h h' Hh Hh'; simpl; [done|].
  intros E%IH; [|apply u64_wrap_range..]. apply hash_byte_inj in E; [|done..].
  apply (lxor_u8_inj b). by rewrite !(Z.lxor_comm b).
Qed.

Lemma hash_range s h : is_u64 h -> is_u64 (foldl hash_byte h s).
Proof. revert h. induction s as [|b s IH]; intros h Hh; simpl; [done|]. apply IH, u64_wrap_range. Qed.

(** Strings that differ in one byte have different hashes. *)
Lemma hash_one_byte s b b' t h :
  is_u64 h -> bytes_ok t -> is_u8 b -> is_u8 b' -> b <> b' ->
  foldl hash_byte h (s ++ b :: t) <> foldl hash_byte h (s ++ b' :: t).
Proof.
  intros Hh Ht Hb Hb' Hne. rewrite !foldl_app. simpl. intros E.
  apply hash_bytes_inj in E; [|apply u64_wrap_range..|done].
  apply hash_byte_inj in E; try done; [|by apply hash_range..]. by apply lxor_u8_inj in E.
Qed.

(** Two daemons whose listening addresses, or whose exported directories, differ in
    one byte (another digit of the port, say) have different identities by
    default, in the owner and in the scope: no such difference is lost in the
    hash or in its text. *)
Theorem default_identity_separates s b b' t :
  bytes_ok (s ++ b :: t) -> bytes_ok (s ++ b' :: t) -> b <> b' ->
  (forall root, bytes_ok root ->
     let i := default_server_identity root (s ++ b :: t) in
     let i' := default_server_identity root (s ++ b' :: t) in
     id_owner_major_id i <> id_owner_major_id i' /\ id_scope i <> id_scope i') /\
  (forall listen,
     let i := default_server_identity (s ++ b :: t) listen in
     let i' := default_server_identity (s ++ b' :: t) listen in
     id_owner_major_id i <> id_owner_major_id i' /\ id_scope i <> id_scope i').
Proof.
  intros [_ [Hb Ht]%Forall_cons_1]%Forall_app [_ [Hb' _]%Forall_cons_1]%Forall_app Hne.
  assert (Ho : is_u64 FNV_OFFSET) by done.
  assert (Htok : forall h h', is_u64 h -> is_u64 h' -> h <> h' ->
            str_bytes "embednfsd:" ++ hex 16 h <> str_bytes "embednfsd:" ++ hex 16 h').
  { intros h h' Hh Hh' Hd E. apply app_inv_head, hex_inj in E; [done|..];
      change (16 ^ Z.of_nat 16) with 18446744073709551616; done. }
  split.
  - intros root Hr i i'. cut (stable_identity_hash root (s ++ b :: t) <> stable_identity_hash root (s ++ b' :: t)).
    { intros Hd. split; apply Htok; try done; by apply hash_range. }
    unfold stable_identity_hash. rewrite <- !app_assoc. cbn [app]. apply hash_one_byte; try done.
    apply Forall_app. split; [done|]. by constructor.
  - intros listen i i'. cut (stable_identity_hash (s ++ b :: t) listen <> stable_identity_hash (s ++ b' :: t) listen).
    { intros Hd. split; apply Htok; try done; by apply hash_range. }
    unfold stable_identity_hash. cbn [app]. rewrite !app_comm_cons, !app_assoc. by apply hash_one_byte.
Qed.
