(* ===== verification/DaemonExamples.v ===== *)
(** * The daemon on a small operating system

    The daemon is configured from an environment and serves the directory /srv of
    [Posix.example_world]: the theorems about its backend at inputs on which they
    apply, and four defects as runs of whole COMPOUND requests. *)

From stdpp Require Import base gmap list sets strings numbers sorting.
From Stdlib Require Import ZArith Lia.
From S2P Require Import Prelude Xdr Rpc Types Constants StateModel Operations Codec FsApi AttrCodec.
From S2P Require Import Server Compound Transport Interleaving Paths Text Os LocalFs LocalFsProps Posix Config Daemon.

Local Open Scope Z_scope.

#[local] Existing Instance canonical_order.

(** ** The daemon *)

Definition daemon_env : Environ := fun variable =>
  if bool_decide (variable = str_bytes "EMBEDNFS_ROOT") then Some srv
  else if bool_decide (variable = str_bytes "EMBEDNFS_RECALL_TIMEOUT_MS") then Some (str_bytes "+250")
  else None.
Definition daemon_config : option DaemonConfig :=
  match (interp posix (configure daemon_env) example_world).1 with Ok cfg => Some cfg | Err _ => None end.

Example daemon_configured :
  daemon_config =
  Some (mkDaemonConfig srv DEFAULT_LISTEN None (mkDelegationConfig false 250000000 1024 16384)
          (default_server_identity srv DEFAULT_LISTEN)).
Proof. vm_compute. reflexivity. Qed.

Lemma srv_canonical : canonical srv.
Proof. exists [name "srv"]. split; [|reflexivity]. repeat constructor; vm_compute; try discriminate; set_solver. Qed.

Definition daemon_nfs (cfg : DaemonConfig) : NfsServer bytes World :=
  built_server (daemon_builder posix example_identity cfg).
Definition example_cfg : DaemonConfig :=
  mkDaemonConfig srv DEFAULT_LISTEN None (mkDelegationConfig false 250000000 1024 16384) example_identity.
Definition daemon_server (w : World) : Server bytes World :=
  build (built_config (daemon_builder posix example_identity example_cfg))
    (Some (be_bytes 8 1234605616436508552)) 7 9 w example_env.

(** A COMPOUND of NFSv4.0, run undisturbed: the results of its operations. *)
Definition serve_compound (ops : list NfsArgop4) (w : Server bytes World)
    : option (list NfsResop4) * Server bytes World :=
  let '(r, w') := run (handle_compound (daemon_nfs example_cfg) (mkCompound4Args [] 0 ops) None
                         RequestContext_anonymous 1) w in
  (c4r_resarray <$> r, w').

(** ** The theorems at work *)

Lemma names_ok (l : list bytes) : forallb (fun n => bool_decide (name_ok n)) l = true -> Forall name_ok l.
Proof.
  intros E. apply Forall_forall. intros n Hn%list_elem_of_In. rewrite forallb_forall in E.
  exact (proj1 (bool_decide_eq_true _) (E n Hn)).
Qed.
Lemma plain_names (l : list bytes) : Forall name_ok l -> plain (path_of l).
Proof. intros Hl. by exists l. Qed.

(** The system without the file /secret. *)
Definition secret : bytes := str_bytes "/secret".
Definition without_secret (c : os_call) : World -> os_ans c * World :=
  match c with
  | Os_open path options => fun w =>
    if bool_decide (path = secret) then (Err ENOENT, w) else posix (Os_open path options) w
  | c => posix c
  end.

Lemma secret_outside : ~ below srv secret.
Proof. intros [names E]. vm_compute in E. discriminate E. Qed.

Lemma daemon_confined_witness :
  (on_os srv posix (M_read (str_bytes "a/../../secret") 0 10) example_world).1 = Err Fs_BadHandle /\
  all_calls (confined srv) (serve srv (M_read (str_bytes "a") 0 10)) /\
  (on_os srv posix (M_read (str_bytes "a") 0 10) example_world).1 = Ok (mkReadResult [97] true) /\
  process_rpc_message (daemon_nfs example_cfg) example_call 1 =
  process_rpc_message (built_server (daemon_builder without_secret example_identity example_cfg)) example_call 1.
Proof.
  split; [vm_compute; reflexivity|].
  destruct (daemon_confined World posix without_secret example_identity example_cfg srv_canonical) as [Hall Hsame].
  split; [apply (Hall _ (M_read (str_bytes "a") 0 10))|]. split; [vm_compute; reflexivity|].
  apply Hsame. intros c w Hc. destruct c; try reflexivity. cbn [without_secret].
  destruct (decide (path = secret)) as [->|Hp]; [|by rewrite bool_decide_false].
  destruct secret_outside. exact (proj1 (Forall_singleton _ _) Hc).
Defined.

Lemma handles_plain_witness :
  returns listing_ok (serve srv (M_create [] (name "d") (mkCreateRequest CK_Directory SetAttrs_default)))
    (on_ok (fun res => Forall plain [cres_handle res])).
Proof.
  apply (handles_plain srv _ (M_create [] (name "d") (mkCreateRequest CK_Directory SetAttrs_default))).
  - apply Forall_singleton. apply (plain_names []). constructor.
  - apply names_ok. vm_compute. reflexivity.
Defined.

Lemma lookup_parent_roundtrip_witness :
  (on_os srv posix (M_lookup [] (name "b")) example_world).1 = Ok (name "b") /\
  forall w, on_os srv posix (M_parent (name "b")) w = (Ok (Some []), w).
Proof.
  assert (E : (on_os srv posix (M_lookup [] (name "b")) example_world).1 = Ok (name "b"))
    by (vm_compute; reflexivity).
  split; [exact E|].
  pose proof (lookup_parent_roundtrip srv World posix [] (name "b") example_world
    (plain_names [] ltac:(constructor))
    (proj1 (Forall_singleton _ _) (names_ok [name "b"] ltac:(vm_compute; reflexivity)))) as Hr.
  rewrite E in Hr. exact (proj1 Hr).
Defined.

Definition example_stored : list bytes :=
  [str_bytes "security.selinux"; str_bytes "user.mime"; str_bytes "user.note"].

Lemma xattr_names_roundtrip_witness :
  xattr_names (xattr_buffer example_stored) = Ok [str_bytes "mime"; str_bytes "note"] /\
  exists names, xattr_names (xattr_buffer example_stored) = Ok names /\
    (forall n, xattr_name_ok n -> exists c, c_xattr_name n = Ok c /\ (n ∈ names <-> c ∈ example_stored)).
Proof.
  split; [vm_compute; reflexivity|].
  destruct (xattr_names_roundtrip example_stored) as (names & E & Hn & _).
  - unfold stored_ok. apply (bool_decide_unpack _). vm_compute. exact I.
  - exists names. split; [exact E|exact Hn].
Defined.

(** The directory /srv, and the worlds that differ from the example in open files. *)
Definition example_names : list bytes := [name "c"; name "a"; name "b"].
Definition same_objects (w : World) : Prop := pw_objects w = pw_objects example_world.

Lemma posix_reads c w :
  match c with Os_read_dir _ | Os_symlink_metadata _ | Os_now => True | _ => False end ->
  (posix c w).2 = w.
Proof. by destruct c. Qed.

(** Looking at the world means looking at its objects. *)
Lemma find_objects w w' follow path :
  pw_objects w = pw_objects w' -> find w follow path = find w' follow path.
Proof. intros E. unfold find, locate. by rewrite E. Qed.
Lemma children_objects w w' loc : pw_objects w = pw_objects w' -> children w loc = children w' loc.
Proof. intros E. unfold children. by rewrite E. Qed.

Lemma posix_answers c w :
  same_objects w ->
  match c with Os_read_dir _ | Os_symlink_metadata _ => True | _ => False end ->
  (posix c w).1 = (posix c example_world).1.
Proof.
  intros Hw. destruct c; intros Hc; try done; cbn; rewrite (find_objects w example_world) by done; [done|].
  destruct (find example_world true path) as [[loc object]|]; [|done]. cbn.
  by rewrite (children_objects w example_world).
Qed.

Lemma example_static : static_dir posix srv [] example_names same_objects.
Proof.
  split.
  - apply names_ok. vm_compute. reflexivity.
  - repeat constructor.
  - vm_compute. discriminate.
  - intros w Hw. rewrite posix_answers by done.
    exists (Ok <$> children example_world [name "srv"]). split; [vm_compute; reflexivity|].
    apply fmap_Permutation, NoDup_Permutation.
    + apply (bool_decide_unpack _). vm_compute. exact I.
    + apply (bool_decide_unpack _). vm_compute. exact I.
    + intros n. vm_compute. set_solver.
  - intros w n Hw Hn. rewrite posix_answers by done.
    assert (Hall : Forall (fun n => is_Some (match (posix (Os_symlink_metadata (join srv (child_handle [] n)))
                                       example_world).1 with Ok m => Some m | Err _ => None end)) example_names)
      by (repeat constructor; vm_compute; eauto).
    rewrite Forall_forall in Hall. destruct (Hall n Hn) as [m Hm].
    destruct (posix _ example_world).1 as [m'|]; [by exists m'|done].
  - intros c w Hc Hw. by rewrite posix_reads.
Qed.

Lemma local_readdir_complete_witness :
  exists es w', list_dir (localfs srv posix) 4 RequestContext_anonymous [] 0 2 true example_world = (Some es, w') /\
    de_name <$> es ≡ₚ example_names /\ StronglySorted bytes_le (de_name <$> es).
Proof.
  destruct (local_readdir_complete World posix srv [] example_names same_objects RequestContext_anonymous 2
              true example_world) as (es & w' & E & Hp & Hs & _).
  - apply (plain_names []). constructor.
  - exact example_static.
  - reflexivity.
  - reflexivity.
  - exists es, w'. split; [exact E|]. split; [exact Hp|exact Hs].
Defined.

Lemma default_identity_separates_witness :
  id_scope (default_server_identity srv (str_bytes "0.0.0.0:2049")) <>
  id_scope (default_server_identity srv (str_bytes "0.0.0.0:2048")).
Proof.
  destruct (default_identity_separates (str_bytes "0.0.0.0:204") 57 56 []) as [Hl _].
  - unfold bytes_ok, is_u8. apply (bool_decide_unpack _). vm_compute. exact I.
  - unfold bytes_ok, is_u8. apply (bool_decide_unpack _). vm_compute. exact I.
  - discriminate.
  - apply (Hl srv). unfold bytes_ok, is_u8. apply (bool_decide_unpack _). vm_compute. exact I.
Defined.

(** ** Defects *)

Definition no_attrs : Fattr4 := mkFattr4 (mkBitmap4 []) [].
Definition mode_zero : Fattr4 := mkFattr4 (mkBitmap4 [0; 2]) [0; 0; 0; 0].
Definition make_link (target : bytes) (attrs : Fattr4) : NfsArgop4 :=
  Arg_Create (mkCreateArgs4 (Ct_Link target) (name "x") attrs).
Definition serving : Server bytes World := daemon_server example_world.

(** A client reads a file outside the exported directory: it creates a symbolic link
    to it and reads the link.  READ refuses directories only, and the backend opens
    the path of the link, which the system follows. *)
Theorem symlink_escape :
  (serve_compound [Arg_Putrootfh; make_link (str_bytes "/secret") no_attrs;
                   Arg_Read (mkReadArgs4 Stateid4_ANONYMOUS 0 100)] serving).1 =
  Some [Res_Putrootfh NFS_Ok;
        Res_Create NFS_Ok (Some (mkChangeInfo4 true 0 0)) (mkBitmap4 []);
        Res_Read NFS_Ok (Some (mkReadRes4 true (str_bytes "key")))].
Proof. vm_compute. reflexivity. Qed.

(** In the same way SETATTR changes the mode of a file outside. *)
Theorem symlink_setattr_escape :
  let r := serve_compound [Arg_Putrootfh; make_link (str_bytes "/secret") no_attrs;
                           Arg_Setattr (mkSetattrArgs4 Stateid4_ANONYMOUS mode_zero)] serving in
  last <$> r.1 = Some (Some (Res_Setattr NFS_Ok (mkBitmap4 [0; 2]))) /\
  ob_mode <$> pw_objects example_world !! [name "secret"] = Some 420 /\
  ob_mode <$> pw_objects (sv_fs r.2) !! [name "secret"] = Some 0.
Proof. vm_compute. repeat split. Qed.

(** CREATE of a symbolic link whose target does not exist, with a mode, fails and
    leaves the link behind: the mode is applied to the target. *)
Theorem symlink_create_partial :
  let r := serve_compound [Arg_Putrootfh; make_link (str_bytes "gone") mode_zero] serving in
  last <$> r.1 = Some (Some (Res_Create NFS_Noent None (mkBitmap4 []))) /\
  ob_node <$> pw_objects (sv_fs r.2) !! [name "srv"; name "x"] = Some (N_Symlink (str_bytes "gone")).
Proof. vm_compute. repeat split. Qed.

Definition list_root (cookie : Z) : list NfsArgop4 :=
  [Arg_Putrootfh; Arg_Readdir (mkReaddirArgs4 cookie (replicate 8 0) 0 200 (mkBitmap4 []))].

(** A listing with small replies cannot be continued: the daemon's first entry has the
    cookie 1, which the server's READDIR refuses as reserved. *)
Theorem readdir_cookie_refused :
  let r := serve_compound (list_root 0) serving in
  last <$> r.1 = Some (Some (Res_Readdir NFS_Ok
    (Some (mkReaddirRes4 (replicate 8 0) [mkEntry4 1 (name "a") no_attrs] false)))) /\
  last <$> (serve_compound (list_root 1) r.2).1 = Some (Some (Res_Readdir NFS_BadCookie None)).
Proof. vm_compute. repeat split. Qed.
